(* ===== verification/_CoqProject ===== *)
-Q . S2P
Prelude.v
PyString.v
PyFloat.v
Errors.v
Sockets.v
Crc.v
Models.v
Parsing.v
Tracking.v
Framing.v
Transport.v
Client.v
ClientSpec.v
Wiretap.v
IsoTime.v
Json.v
JsonText.v
V1Response.v
Manifest.v
HostCli.v
HostCliSpec.v
SerialPort.v
Operations.v
Session.v
Machine.v
Journal.v
JournalSpec.v
JournalSafety.v
Configuration.v
Adapters.v
Events.v
Domain.v
DomainTotal.v
DomainSpec.v
DomainOutcome.v
Settlement.v
DomainDemo.v
StorageHealth.v
Http.v
Api.v
ApiSpec.v
ApiReply.v
ApiPages.v
ApiStream.v
ApiDemo.v
Nfr.v
Worker.v
WorkerSpec.v
WorkerSafety.v
ClientPort.v
Toml.v
DaemonConfig.v
DaemonRuntime.v
VisionConfig.v
VisionErrors.v
Routing.v
Sqlite.v
Schema.v
Dataset.v
Training.v
TrainingSpec.v
Vision.v
VisionLoops.v
Camera.v
VisionSpec.v
VisionApi.v
VisionApiSpec.v
VisionApiUse.v
TrainingJob.v
VisionApiDemo.v
DaemonLink.v
DaemonLinkSpec.v
LinkedService.v
VisionRuntime.v
RuntimeDemo.v
Fixtures.v
Simulator.v
SimulatorSpec.v
SimulatorSafety.v
SimulatorHost.v
