(* ===== verification/Prelude.v ===== *)
(** * CS7.1 case sorter: a verification library

    The repository holds the software around a brass sorter driven by an Arduino: a host library that speaks the
    controller's serial protocol (src/host), a daemon that owns the controller and journals every operation
    (src/appliance/daemon), a vision service that labels frames, trains classifiers and may ask the daemon for sorts
    (src/appliance/vision), and operations tooling (src/appliance/ops). This library models the Python of these
    four parts and proves what makes it correct. The root file holds, after this header, the notions everything
    shares: results, the state and exception monad with its weakest preconditions, their automation, and lemmas on lists,
    integers and maps.

    ** The program and how its parts interact

    A vision service polls the daemon over HTTP on a Unix socket and may submit sorts; people use the same API
    through the web front end. The API turns a request into one call of the operation domain. The domain admits an
    operation by writing it to the journal (SQLite) against the generation the caller saw, and hands an
    intent to the serial worker. The worker is one thread that owns the transport: it runs the protocol client on it
    and reports back through callbacks, on which the domain records transitions, moves the machine view and
    publishes events that the API streams. The client frames lines, parses them, correlates request IDs and recovers to v1
    when anything is unsafe. Behind the transport is a serial port, or the simulator. The vision service has
    threads of its own (capture, correlation, suggestion, autonomy, training) over one dataset (SQLite). The
    command line of the host library is another client of the protocol.

    ** How code becomes definitions

    Definitions keep the source's names and its order of checks. A method that reads and writes an object is a function
    in the monad [M S E]: the state is the object (a Record with the attributes), a raise is [Err], and what was
    assigned before a raise survives it. Each package has its exceptions as an inductive type with its class hierarchy
    (Errors; VisionErrors). A lock makes a method one atomic step; where threads interleave, the model has steps and
    the theorems quantify over all interleavings. A [str] or [bytes] is a string of the characters 0 to 255 (PyString).
    Times are integers in microseconds; [time.monotonic] and [time.sleep] belong to the world a computation runs in. Floats are
    the binary64 of the Standard Library's SpecFloat. Maps are stdpp's [gmap]; a mapping whose order is visible is
    a list of pairs.

    Code outside src/ is a parameter: the byte stream of a port ([ByteStream], with its promises in
    [ByteStreamLaws]), pyserial, SQLite statements beyond the tables (which statements fail is an oracle, any failure at any
    place), what a schema statement does, [tomllib], [json.loads] where floats matter, SHA-256, OpenCV, scikit-learn, pickle,
    the file system, git. A hypothesis about such a parameter states what that code documents, and each theorem with
    hypotheses has a witness that applies it to a concrete run.

    ** Files

    Shared: PyString (str methods, repr, int parsing), PyFloat (float of int, true division, round), Errors, IsoTime
    (isoformat and fromisoformat), Json and JsonText (json.dumps, compact and indented, json.loads without floats, py dicts), Http
    (what http.server hands a handler), Sockets (the Unix socket of api.py of both services, for many processes on one path), Toml (config fields and token files), Sqlite (a connection whose statements may fail).

    Host library, src/host/src/cs71_protocol: Crc (crc.py); Models (models.py); Parsing, V1Response (parsing.py);
    Tracking (tracking.py); Framing (framing.py); Transport (transport.py, ScriptedTransport); SerialPort (transport.py,
    SerialTransport; locking.py; the default dependencies of cli.py); Client (client.py) with ClientSpec; Wiretap (what the operations of a client say and
    hear); HostCli (cli.py) with HostCliSpec.

    Daemon, src/appliance/daemon/src/cs71d: Operations (operations.py); Session (session.py); Machine (machine.py);
    Journal (journal.py, every method) with JournalSpec and JournalSafety; Schema (journal.py and the vision service's dataset.py:
    open, configure, migrate); Configuration (configuration.py); Adapters (adapters.py); Events (events.py); Domain (domain.py) with
    DomainTotal, DomainSpec, DomainOutcome, Settlement, DomainDemo; StorageHealth (storage_health.py); Api (api.py)
    with ApiSpec, ApiReply, ApiPages, ApiStream, ApiDemo; Worker (serial_worker.py) with WorkerSpec, WorkerSafety and
    ClientPort; DaemonConfig (config.py); DaemonRuntime (device.py, runtime.py, cli.py, and the socket handling of api.py); Simulator
    (simulator/clock.py, simulator/transport.py) with SimulatorSpec, SimulatorSafety, SimulatorHost; Fixtures
    (simulator/fixtures.py); Nfr (scripts/measure_nfr.py, in front of the API).

    Vision service, src/appliance/vision/src/cs71vision: VisionErrors; VisionConfig (config.py); Routing (routing.py); Dataset
    (dataset.py); Training (training.py) with TrainingSpec; Vision (correlator.py, classifier.py, primer.py, autonomy.py) with
    VisionSpec; VisionLoops (the loop threads of runtime.py, the prediction of classifier.py); Camera (camera.py
    and the capture loop of runtime.py); VisionApi (api.py) with VisionApiSpec, VisionApiUse and VisionApiDemo; TrainingJob
    (runtime.py); DaemonLink (daemon_client.py) with DaemonLinkSpec; LinkedService (the service
    connected to the daemon's own handler); VisionRuntime (builders of runtime.py, cli.py) with RuntimeDemo.

    Operations, src/appliance/ops/lib: Manifest (manifest.py).

    ** Interfaces

    [ByteStream] and [ByteStreamLaws] (Framing) stand between the client and a transport; Transport, Wiretap,
    SerialPort (from [SerialDriverLaws], the promises of pyserial) and SimulatorHost discharge the laws. [WorkerPort] (Domain) is what the domain asks of the worker. The worker thread is
    verified against an interface of a client that always answers (WorkerSafety), and ClientPort discharges it
    with [ProtocolClient]. [DaemonClient] (Vision) is what the loops ask of the daemon; DaemonLink implements it over
    [HttpPeer], and DaemonLinkSpec instantiates the peer with the daemon's own [Api._dispatch]. [Camera], [Learning] and [Rng]
    are the cameras, the learning library and the random generator.

    ** What the theorems show

    Evidence and durability. The domain stays a well-formed history under every interleaving
    (domain_reachable_inv), success needs a correlated terminal or a verified status (success_needs_evidence), nothing
    reaches the worker before it is durable (submit_durable_before_enqueue), an operation ends in exactly the state its outcome calls
    for and stays as it ended (settlement_is_final), and the live key, the dispatch gate, the
    failure of a running operation and the all-or-nothing of a transition are exact. The journal's tables encode an append-only
    history whatever statements fail (journal_history_exact, journal_atomic, admission_recorded).

    Threads. The worker resolves every future it handed out under every schedule (worker_settles_futures), and a
    priority stop empties the queue (stop_preempts_queue). The training thread commits at most one model that meets the floor
    (models_meet_floor). Any tick may raise in a loop thread and the loop goes on (loop_survives).

    The API. Every request is entitled and does at most one domain operation (requests_are_entitled), every request is
    answered within the contract (every_request_answered), paging lists everything once (pages_list_everything), and an event
    stream is a gap-free run or ends with an explicit snapshot (sse_stream_faithful); the same for the vision API
    (vision_requests_contained, vision_requests_answered).

    The protocol. The reader implements a reference decoder and always ends (read_line_refines, read_line_safe), a
    completed request is what was answered to its own ID (request_correlated), every operation of the client fails closed
    (client_fails_closed), CRC detects a changed character (crc_detects_corruption). The simulator sends only what the
    host can parse and ends its operations (simulator_reachable_ok, simulator_operation_ends); a replay is exact (replay_exact).
    Every run of the switcher returns what it took, writes only what it may, in the order the protocol document prescribes,
    and reports success only for the dialogue that verifies it (cli_run_contained); with its default dependencies it succeeds only on a
    free port that Windows opened with DTR low (installed_switcher_contained).

    Composition. With the vision service connected to the daemon's real handler an autonomous attempt is at most one gated
    submission (autonomous_sort_end_to_end) and every label is a confirmed sort (labels_are_confirmed_sorts); as shipped the
    service never submits at all (autonomy_never_submits).

    Starting and stopping. A store is opened with every migration run exactly once whatever happened to earlier attempts
    (schema_open_exact), and a file this build does not know is refused untouched (foreign_schema_refused). Runs of both services
    release what they open in reverse order (daemon_run_released, vision_run_exact). Configuration is accepted exactly when it is
    well formed (daemon_config_exact, vision_config_exact). A threat to storage blocks work
    (storage_threat_blocks_work). A backup verifies exactly when its files are what they were (manifest_detects). One lock
    object holds a port (port_lock_exclusive), and one process serves on a socket path (socket_path_exclusive). The measurement of latency sends
    what the API admits and reports exactly what it measured (load_profile_reaches_daemon, report_verdicts).

    ** Fuel

    [OutOfFuel] marks a loop whose fuel was too small. Each loop has fuel that its definition computes from the
    input: the bytes still undelivered plus the rounds a timeout allows (Framing.read_fuel, Client.stop_fuel, Client.request_fuel),
    the length of a text, the number of scheduled calls. That it is enough is part of the theorems: read_line_safe,
    client_fails_closed, worker_settles_futures, cli_run_contained, DomainTotal and simulator_operation_ends exclude [OutOfFuel].

    ** What modelling showed

    Behaviours the code does not intend are stated as lemmas or Examples beside the models: in JournalSafety,
    DomainOutcome, Adapters, Events, ApiDemo, ClientPort, SimulatorSafety, StorageHealth, VisionSpec, VisionApiDemo,
    VisionConfig, RuntimeDemo, Camera, HostCliSpec, Manifest and Sockets.

    ** Not modelled

    The thread pools and request-line parsing of http.server and urllib; argparse and logging; signals; the internals of
    SQLite, tomllib, OpenCV, scikit-learn, pickle and pyserial; joining a thread and thread timeouts; the Windows branch of
    the port lock, which locks one byte instead of the file; [__enter__] and [__exit__], which call start and
    close; the assembly of a server by measure_nfr.py and the scripts that list licences; the web front end, the firmware and
    the shell of the installer, which are not Python.

    ** What could come next

    The opening of Schema behind the start of both runtimes; SerialPort behind the device policy of DaemonRuntime;
    the interleaving of the loop threads over connections of their own. *)
From stdpp Require Export base tactics gmap strings pretty list fin_maps sorting.
From Stdlib Require Export ZArith Ascii.

Declare Scope cs71_scope.
Delimit Scope cs71_scope with cs71.
Open Scope Z_scope.

(** ** Results of fallible code

    [Ok] is a normal return, [Err] a raised exception and [OutOfFuel] marks a
    loop whose fuel argument was too small; the termination theorems show that
    the last one is never the answer with the fuel the operations are given. *)
Inductive res (E A : Type) : Type :=
| Ok (a : A)
| Err (e : E)
| OutOfFuel.
Arguments Ok {E A} a.
Arguments Err {E A} e.
Arguments OutOfFuel {E A}.

#[export] Instance res_ret {E} : MRet (res E) := fun A a => Ok a.
#[export] Instance res_bind {E} : MBind (res E) := fun A B f m =>
  match m with
  | Ok a => f a
  | Err e => Err e
  | OutOfFuel => OutOfFuel
  end.

Definition is_ok {E A} (r : res E A) : bool :=
  match r with Ok _ => true | _ => false end.

Definition is_err {E A} (r : res E A) : bool :=
  match r with Err _ => true | _ => false end.

Definition halts {E A} (r : res E A) : Prop := r <> OutOfFuel.

(** [raise_if b e] is Python's [if b: raise e]. *)
Definition raise_if {E} (b : bool) (e : E) : res E unit :=
  if b then Err e else Ok tt.

Lemma Ok_inj {E A} (a b : A) : @Ok E A a = Ok b -> a = b.
Proof. by intros [= ->]. Qed.

Lemma res_bind_ok {E A B} (m : res E A) (f : A -> res E B) (b : B) :
  m ≫= f = Ok b <-> exists a, m = Ok a /\ f a = Ok b.
Proof. destruct m; naive_solver. Qed.

Lemma res_bind_err {E A B} (m : res E A) (f : A -> res E B) (e : E) :
  m ≫= f = Err e <-> m = Err e \/ exists a, m = Ok a /\ f a = Err e.
Proof. destruct m; naive_solver. Qed.

Lemma raise_if_ok {E} (b : bool) (e : E) u : raise_if b e = Ok u <-> b = false.
Proof. destruct b, u; naive_solver. Qed.

Lemma raise_if_err {E} (b : bool) (e e' : E) : raise_if b e = Err e' <-> b = true /\ e = e'.
Proof. destruct b; naive_solver. Qed.

Lemma halts_bind {E A B} (m : res E A) (f : A -> res E B) :
  halts m -> (forall a, m = Ok a -> halts (f a)) -> halts (m ≫= f).
Proof. unfold halts. destruct m; simpl; [eauto|done|done]. Qed.

(** ** A state and exception monad

    State written before a raise survives it, as an attribute assignment does
    in Python. *)
Definition M (S E A : Type) : Type := S -> S * res E A.

#[export] Instance M_ret {S E} : MRet (M S E) := fun A a s => (s, Ok a).
#[export] Instance M_bind {S E} : MBind (M S E) := fun A B f m s =>
  match m s with
  | (s', Ok a) => f a s'
  | (s', Err e) => (s', Err e)
  | (s', OutOfFuel) => (s', OutOfFuel)
  end.

Section Monad.
Context {S E : Type}.

Definition getS : M S E S := fun s => (s, Ok s).
Definition putS (s : S) : M S E unit := fun _ => (s, Ok tt).
Definition modifyS (f : S -> S) : M S E unit := fun s => (f s, Ok tt).
Definition raise {A} (e : E) : M S E A := fun s => (s, Err e).
Definition liftR {A} (r : res E A) : M S E A := fun s => (s, r).

(** [try_except m h] is Python's [try: m except Exception as exc: h exc]. *)
Definition try_except {A} (m : M S E A) (h : E -> M S E A) : M S E A := fun s =>
  match m s with
  | (s', Err e) => h e s'
  | p => p
  end.

(** [try_case m ok err] also runs the [else] branch outside the protected body. *)
Definition try_case {A B} (m : M S E A) (ok : A -> M S E B) (err : E -> M S E B) : M S E B :=
  fun s =>
  match m s with
  | (s', Ok a) => ok a s'
  | (s', Err e) => err e s'
  | (s', OutOfFuel) => (s', OutOfFuel)
  end.

(** *** Weakest preconditions over [M]

    [wp m Q s]: running [m] from [s] ends in a state and an outcome that
    satisfy [Q]; [triple] closes it over the states that satisfy [P]. *)
Definition wp {A} (m : M S E A) (Q : S -> res E A -> Prop) (s : S) : Prop := Q (m s).1 (m s).2.

Definition triple {A} (P : S -> Prop) (m : M S E A) (Q : S -> res E A -> Prop) : Prop :=
  forall s, P s -> wp m Q s.

Lemma wp_use {A} (P : S -> Prop) (m : M S E A) (Q' Q : S -> res E A -> Prop) s :
  triple P m Q' -> P s -> (forall s' r, Q' s' r -> Q s' r) -> wp m Q s.
Proof. unfold triple, wp. eauto. Qed.

Lemma wp_conseq {A} (m : M S E A) (Q' Q : S -> res E A -> Prop) s :
  wp m Q' s -> (forall s' r, Q' s' r -> Q s' r) -> wp m Q s.
Proof. unfold wp. eauto. Qed.

(** The postcondition of [m] in [m ≫= f]. *)
Definition bind_post {A B} (f : A -> M S E B) (Q : S -> res E B -> Prop) (s : S) (r : res E A) : Prop :=
  match r with
  | Ok a => wp (f a) Q s
  | Err e => Q s (Err e)
  | OutOfFuel => Q s OutOfFuel
  end.

(** Running a sequence. *)
Lemma bind_case {A B} (m : M S E A) (f : A -> M S E B) s :
  (m ≫= f) s = match m s with (s', Ok a) => f a s' | (s', Err e) => (s', Err e) | (s', OutOfFuel) => (s', OutOfFuel) end.
Proof. done. Qed.

Lemma wp_bind {A B} (m : M S E A) (f : A -> M S E B) Q s :
  wp m (bind_post f Q) s -> wp (m ≫= f) Q s.
Proof. unfold wp, mbind, M_bind. by destruct (m s) as [s' [a|e|]]. Qed.

Lemma wp_bind_inv {A B} (m : M S E A) (f : A -> M S E B) Q s :
  wp (m ≫= f) Q s -> wp m (bind_post f Q) s.
Proof. unfold wp, mbind, M_bind. by destruct (m s) as [s' [a|e|]]. Qed.

Lemma wp_ret {A} (a : A) (Q : S -> res E A -> Prop) s : Q s (Ok a) -> wp (mret a) Q s.
Proof. done. Qed.
Lemma wp_raise {A} e (Q : S -> res E A -> Prop) s : Q s (Err e) -> wp (raise e) Q s.
Proof. done. Qed.
Lemma wp_lift {A} (r : res E A) (Q : S -> res E A -> Prop) s : Q s r -> wp (liftR r) Q s.
Proof. done. Qed.
Lemma wp_modify f (Q : S -> res E unit -> Prop) s : Q (f s) (Ok tt) -> wp (modifyS f) Q s.
Proof. done. Qed.
Lemma wp_get (Q : S -> res E S -> Prop) s : Q s (Ok s) -> wp getS Q s.
Proof. done. Qed.

Lemma wp_try {A} (m : M S E A) (h : E -> M S E A) Q s :
  wp m (fun s' r => match r with Err e => wp (h e) Q s' | r => Q s' r end) s ->
  wp (try_except m h) Q s.
Proof. unfold wp, try_except. by destruct (m s) as [s' [a|e|]]. Qed.

Lemma wp_case {A B} (m : M S E A) (ok : A -> M S E B) (err : E -> M S E B) Q s :
  wp m (fun s' r => match r with
                    | Ok a => wp (ok a) Q s' | Err e => wp (err e) Q s' | OutOfFuel => Q s' OutOfFuel end) s ->
  wp (try_case m ok err) Q s.
Proof. unfold wp, try_case. by destruct (m s) as [s' [a|e|]]. Qed.
End Monad.

(** ** Automation *)

Create HintDb cs71.

Ltac res_inv :=
  repeat match goal with
  | H : _ ≫= _ = Ok _ |- _ => apply res_bind_ok in H as (? & ? & ?)
  | H : raise_if _ _ = Ok _ |- _ => apply raise_if_ok in H
  | H : Ok _ = Ok _ |- _ => injection H as H; subst
  | H : Err _ = Err _ |- _ => injection H as H; subst
  | H : Ok _ = Err _ |- _ => discriminate H
  | H : Err _ = Ok _ |- _ => discriminate H
  | H : mret _ = Ok _ |- _ => injection H as H; subst
  | H : mret _ = Err _ |- _ => discriminate H
  end.

(** One step of symbolic execution under [wp]. *)
Ltac wp_step :=
  lazymatch goal with
  | |- wp (_ ≫= _) _ _ => apply wp_bind
  | |- wp (mret _) _ _ => apply wp_ret
  | |- wp (raise _) _ _ => apply wp_raise
  | |- wp (liftR _) _ _ => apply wp_lift
  | |- wp (modifyS _) _ _ => apply wp_modify
  | |- wp getS _ _ => apply wp_get
  | |- wp (try_except _ _) _ _ => apply wp_try
  | |- wp (try_case _ _ _) _ _ => apply wp_case
  | |- bind_post _ _ _ (Ok _) => unfold bind_post at 1
  | |- bind_post _ _ _ (Err _) => unfold bind_post at 1
  | |- bind_post _ _ _ OutOfFuel => unfold bind_post at 1
  end; cbv beta iota.
Ltac wp_steps := repeat first [wp_step | progress cbv beta iota].

(** Turns boolean guards of the source into propositions. *)
Ltac bool_inv :=
  repeat match goal with
  | H : _ && _ = true |- _ => apply andb_true_iff in H as [? ?]
  | H : _ || _ = false |- _ => apply orb_false_iff in H as [? ?]
  | H : negb _ = true |- _ => apply negb_true_iff in H
  | H : negb _ = false |- _ => apply negb_false_iff in H
  | H : bool_decide _ = true |- _ => apply bool_decide_eq_true in H
  | H : bool_decide _ = false |- _ => apply bool_decide_eq_false in H
  | H : (_ <=? _) = true |- _ => apply Z.leb_le in H
  | H : (_ <=? _) = false |- _ => apply Z.leb_gt in H
  | H : (_ <? _) = true |- _ => apply Z.ltb_lt in H
  | H : (_ <? _) = false |- _ => apply Z.ltb_ge in H
  | H : (_ =? _) = true |- _ => apply Z.eqb_eq in H
  | H : (_ =? _) = false |- _ => apply Z.eqb_neq in H
  end.

(** ** Lists and options *)

Section Lists.
Context {A : Type}.

(** [deque(maxlen=n).append]: the oldest entries fall off the left end. *)
Definition push_bounded (n : nat) (l : list A) (x : A) : list A :=
  let l' := l ++ [x] in drop (length l' - n) l'.

Lemma push_bounded_length n l x :
  (length l <= n)%nat -> (length (push_bounded n l x) <= n)%nat.
Proof. intros Hl. unfold push_bounded. rewrite length_drop, length_app. simpl. lia. Qed.

Lemma push_bounded_suffix n l x : push_bounded n l x `suffix_of` l ++ [x].
Proof.
  unfold push_bounded. exists (take (length (l ++ [x]) - n) (l ++ [x])).
  by rewrite take_drop.
Qed.

Lemma last_cons_app (l : list A) x : last (l ++ [x]) = Some x.
Proof. by rewrite last_snoc. Qed.
End Lists.

(** *** Filters *)

Lemma filter_all {A} (P : A -> Prop) `{forall x, Decision (P x)} (l : list A) : Forall P l -> filter P l = l.
Proof. induction 1 as [|x l Hx _ IH]; [done|]. by rewrite filter_cons, decide_True, IH. Qed.

Lemma filter_none {A} (P : A -> Prop) `{forall x, Decision (P x)} (l : list A) : Forall (fun x => ~ P x) l -> filter P l = [].
Proof. induction 1 as [|x l Hx _ IH]; [done|]. by rewrite filter_cons, decide_False. Qed.

(** ** Reachability *)

(** An invariant of every step is an invariant of every run. *)
Lemma rtc_invariant {A} (R : relation A) (P : A -> Prop) a b :
  (forall x y, P x -> R x y -> P y) -> rtc R a b -> P a -> P b.
Proof. intros HP Hr. induction Hr as [|x y z Hxy _ IH]; eauto. Qed.
