(* ===== verification/PyString.v ===== *)
(** * Python strings and byte strings

    A [str] or [bytes] value is a [string] whose characters are the code points
    0..255: every line of the protocol is ASCII, and the code points above 127
    keep the "not ASCII" branches of the source reachable. The file holds the
    standard-library operations the sources call (slicing, [split],
    [rpartition], [strip], [str.isspace], decimal and hexadecimal formatting,
    [repr]) with the lemmas the parsers are verified with. *)
From S2P Require Import Prelude.

Definition code (c : ascii) : Z := Z.of_N (N_of_ascii c).
Definition chr (z : Z) : ascii := ascii_of_N (Z.to_N z).
Definition slen (s : string) : Z := Z.of_nat (String.length s).

Lemma code_range c : 0 <= code c < 256.
Proof. unfold code. pose proof (N_ascii_bounded c). lia. Qed.

Lemma code_inj c d : code c = code d -> c = d.
Proof.
  unfold code. intros H. apply N2Z.inj in H.
  rewrite <- (ascii_N_embedding c), <- (ascii_N_embedding d). by f_equal.
Qed.

Lemma code_chr z : 0 <= z < 256 -> code (chr z) = z.
Proof. intros H. unfold code, chr. rewrite N_ascii_embedding; lia. Qed.

Fixpoint str_forall (f : ascii -> bool) (s : string) : bool :=
  match s with
  | "" => true
  | String c s => f c && str_forall f s
  end.

Definition str_exists (f : ascii -> bool) (s : string) : bool :=
  negb (str_forall (fun c => negb (f c)) s).

(** [c in s] *)
Definition str_mem (c : ascii) (s : string) : bool := str_exists (Ascii.eqb c) s.

(** [s.startswith(p)] *)
Definition startswith (s p : string) : bool := String.prefix p s.

(** [s[n:]] *)
Fixpoint str_drop (n : nat) (s : string) : string :=
  match n, s with
  | O, _ => s
  | S n, String _ s => str_drop n s
  | S _, "" => ""
  end.

(** the last character, [s[-1:]] *)
Fixpoint str_last (s : string) : option ascii :=
  match s with
  | "" => None
  | String c "" => Some c
  | String _ s => str_last s
  end.

(** [s[:-1]] *)
Fixpoint str_init (s : string) : string :=
  match s with
  | "" => ""
  | String _ "" => ""
  | String c s => String c (str_init s)
  end.

(** [s.split(sep)]: at least one piece, never merged. *)
Fixpoint str_split (sep : ascii) (s : string) : list string :=
  match s with
  | "" => [""]
  | String c s =>
      if Ascii.eqb c sep then "" :: str_split sep s
      else match str_split sep s with
           | h :: t => String c h :: t
           | [] => [String c ""]
           end
  end.

(** [s.split(sep, 1)]: the pieces around the first separator, if there is one. *)
Fixpoint str_partition (sep : ascii) (s : string) : option (string * string) :=
  match s with
  | "" => None
  | String c s =>
      if Ascii.eqb c sep then Some ("", s)
      else match str_partition sep s with
           | Some (a, b) => Some (String c a, b)
           | None => None
           end
  end.

(** [s.rpartition(sep)]: the pieces around the last separator, if there is one. *)
Fixpoint str_rpartition (sep : ascii) (s : string) : option (string * string) :=
  match s with
  | "" => None
  | String c s =>
      match str_rpartition sep s with
      | Some (a, b) => Some (String c a, b)
      | None => if Ascii.eqb c sep then Some ("", s) else None
      end
  end.

(** The longest prefix of characters satisfying [f], and the rest. *)
Fixpoint str_span (f : ascii -> bool) (s : string) : string * string :=
  match s with
  | "" => ("", "")
  | String c s' =>
      if f c then let '(a, b) := str_span f s' in (String c a, b) else ("", s)
  end.

(** [sep.join(l)] *)
Fixpoint str_join (sep : string) (l : list string) : string :=
  match l with
  | [] => ""
  | [x] => x
  | x :: l => x +:+ sep +:+ str_join sep l
  end.

(** [s.count(c)] *)
Fixpoint str_count (c : ascii) (s : string) : nat :=
  match s with
  | "" => 0
  | String d s => (if Ascii.eqb d c then 1 else 0) + str_count c s
  end.

Definition is_ascii (c : ascii) : bool := code c <? 128.
Definition is_printable (c : ascii) : bool := (0x20 <=? code c) && (code c <=? 0x7E).
Definition is_digit (c : ascii) : bool := (0x30 <=? code c) && (code c <=? 0x39).
Definition is_upper (c : ascii) : bool := (0x41 <=? code c) && (code c <=? 0x5A).
Definition is_lower (c : ascii) : bool := (0x61 <=? code c) && (code c <=? 0x7A).
Definition is_alpha (c : ascii) : bool := is_upper c || is_lower c.

(** [s.lower()] on code points 0..255. *)
Definition char_lower (c : ascii) : ascii :=
  if is_upper c || ((0xC0 <=? code c) && (code c <=? 0xDE) && negb (code c =? 0xD7)) then chr (code c + 32) else c.
Fixpoint str_lower (s : string) : string :=
  match s with "" => "" | String c s => String (char_lower c) (str_lower s) end.

(** [s.encode("utf-8")] on code points 0..255. *)
Fixpoint encode_utf8 (s : string) : string :=
  match s with
  | "" => ""
  | String c s =>
      if code c <? 128 then String c (encode_utf8 s)
      else String (chr (0xC0 + code c / 64)) (String (chr (0x80 + code c mod 64)) (encode_utf8 s))
  end.

(** [str.isspace] on code points 0..255. *)
Definition is_space (c : ascii) : bool :=
  let z := code c in
  ((9 <=? z) && (z <=? 13)) || ((28 <=? z) && (z <=? 32)) || (z =? 0x85) || (z =? 0xA0).

Fixpoint str_lstrip (s : string) : string :=
  match s with
  | String c s' => if is_space c then str_lstrip s' else s
  | "" => ""
  end.

Fixpoint str_rstrip (s : string) : string :=
  match s with
  | "" => ""
  | String c s' =>
      match str_rstrip s' with
      | "" => if is_space c then "" else String c ""
      | r => String c r
      end
  end.

(** [s.strip()] *)
Definition str_strip (s : string) : string := str_rstrip (str_lstrip s).

(** [s.strip(chars)] *)
Fixpoint strip_left (f : ascii -> bool) (s : string) : string :=
  match s with
  | String c rest => if f c then strip_left f rest else s
  | "" => ""
  end.
Fixpoint strip_right (f : ascii -> bool) (s : string) : string :=
  match s with
  | "" => ""
  | String c rest =>
      match strip_right f rest with
      | "" => if f c then "" else String c ""
      | r => String c r
      end
  end.

(** [int(s)] on a string of decimal digits. *)
Fixpoint dec_go (acc : Z) (s : string) : Z :=
  match s with
  | "" => acc
  | String c s => dec_go (10 * acc + (code c - 0x30)) s
  end.
Definition int_of_digits (s : string) : Z := dec_go 0 s.

(** [str(n)] for a non-negative [n]. *)
Definition str_of_Z (n : Z) : string := pretty n.

Definition hex_char (d : Z) : ascii :=
  if d <? 10 then chr (0x30 + d) else chr (0x41 + d - 10).
Definition is_hex_char (c : ascii) : bool :=
  is_digit c || ((0x41 <=? code c) && (code c <=? 0x46)).
Definition hex_lower (d : Z) : ascii :=
  if d <? 10 then chr (0x30 + d) else chr (0x61 + d - 10).

(** [f"{n:04X}"] for [0 <= n < 65536]. *)
Definition hex4 (n : Z) : string :=
  String (hex_char (n / 4096 mod 16)) (String (hex_char (n / 256 mod 16))
    (String (hex_char (n / 16 mod 16)) (String (hex_char (n mod 16)) ""))).

(** [repr(s)] *)
Definition repr_char (quote c : ascii) : string :=
  let z := code c in
  if Ascii.eqb c "\" then "\\"
  else if Ascii.eqb c quote then String "\" (String c "")
  else if z =? 9 then "\t" else if z =? 10 then "\n" else if z =? 13 then "\r"
  else if (z <? 0x20) || ((0x7F <=? z) && (z <=? 0xA0)) || (z =? 0xAD)
       then "\x" +:+ String (hex_lower (z / 16)) (String (hex_lower (z mod 16)) "")
  else String c "".

Definition squote : ascii := "'".
Definition dquote : ascii := chr 34.

Fixpoint repr_go (quote : ascii) (s : string) : string :=
  match s with
  | "" => ""
  | String c s => repr_char quote c +:+ repr_go quote s
  end.

Definition str_repr (s : string) : string :=
  let q := if str_mem squote s && negb (str_mem dquote s) then dquote else squote in
  String q (repr_go q s) +:+ String q "".

(** [repr(l)] of a list of strings. *)
Definition list_repr (l : list string) : string := "[" +:+ str_join ", " (str_repr <$> l) +:+ "]".

(** [sorted(l)] on strings. *)
Definition str_sorted (l : list string) : list string := merge_sort String.le l.

(** ** Lemmas *)

Lemma str_app_nil_r s : s +:+ "" = s.
Proof. induction s as [|c s IH]; [done|]. change (String c (s +:+ "") = String c s). by rewrite IH. Qed.

Lemma str_app_assoc a b c : a +:+ (b +:+ c) = (a +:+ b) +:+ c.
Proof. induction a as [|x a IH]; [done|]. change (String x (a +:+ (b +:+ c)) = String x ((a +:+ b) +:+ c)). by rewrite IH. Qed.

Lemma str_app_cons c a b : String c a +:+ b = String c (a +:+ b).
Proof. done. Qed.

Lemma slen_app a b : slen (a +:+ b) = slen a + slen b.
Proof.
  unfold slen. induction a as [|c a IH]; [done|].
  rewrite str_app_cons. simpl String.length. lia.
Qed.

Lemma str_length_app a b : String.length (a +:+ b) = (String.length a + String.length b)%nat.
Proof. pose proof (slen_app a b). unfold slen in *. lia. Qed.

Lemma slen_nonneg s : 0 <= slen s.
Proof. unfold slen. lia. Qed.

Lemma slen_cons c s : slen (String c s) = 1 + slen s.
Proof. unfold slen. simpl String.length. lia. Qed.

Lemma slen_0 s : slen s = 0 -> s = "".
Proof. destruct s; [done|]. unfold slen. simpl. lia. Qed.

Lemma str_forall_app f a b : str_forall f (a +:+ b) = str_forall f a && str_forall f b.
Proof. induction a as [|c a IH]; [done|]. rewrite str_app_cons. simpl. by rewrite IH, andb_assoc. Qed.

Lemma str_forall_impl (f g : ascii -> bool) s :
  (forall c, f c = true -> g c = true) -> str_forall f s = true -> str_forall g s = true.
Proof. intros Hfg. induction s; simpl; [done|]. intros H. bool_inv. apply andb_true_iff; auto. Qed.

Lemma str_exists_app f a b : str_exists f (a +:+ b) = str_exists f a || str_exists f b.
Proof. unfold str_exists. rewrite str_forall_app. by rewrite negb_andb. Qed.

Lemma str_exists_cons f c s : str_exists f (String c s) = f c || str_exists f s.
Proof. unfold str_exists. simpl. by rewrite negb_andb, negb_involutive. Qed.

Lemma str_mem_cons c d s : str_mem c (String d s) = Ascii.eqb c d || str_mem c s.
Proof. apply str_exists_cons. Qed.

Lemma str_mem_app c a b : str_mem c (a +:+ b) = str_mem c a || str_mem c b.
Proof. apply str_exists_app. Qed.

Lemma str_mem_forall (f : ascii -> bool) c s :
  str_forall f s = true -> f c = false -> str_mem c s = false.
Proof.
  intros Hs Hc. induction s as [|d s IH]; [done|]. simpl in Hs. bool_inv.
  rewrite str_mem_cons, IH by done.
  destruct (Ascii.eqb_spec c d) as [<-|]; [congruence|done].
Qed.

Lemma startswith_app p s : startswith (p +:+ s) p = true.
Proof.
  unfold startswith. induction p as [|c p IH]; [by destruct s|].
  rewrite str_app_cons. simpl. by destruct (ascii_dec c c).
Qed.

Lemma startswith_inv s p : startswith s p = true -> exists r, s = p +:+ r.
Proof.
  unfold startswith. revert s. induction p as [|c p IH]; intros s H; [by exists s|].
  destruct s as [|d s]; [done|]. simpl in H. destruct (ascii_dec c d) as [->|]; [|done].
  apply IH in H as [r ->]. by exists r.
Qed.

Lemma str_drop_app p s : str_drop (String.length p) (p +:+ s) = s.
Proof. induction p as [|c p IH]; [done|]. by rewrite str_app_cons. Qed.

Lemma str_last_snoc s c : str_last (s +:+ String c "") = Some c.
Proof.
  induction s as [|d s IH]; [done|]. rewrite str_app_cons. simpl.
  destruct (s +:+ String c "") eqn:E; [by destruct s|]. done.
Qed.

Lemma str_last_forall f s c : str_last s = Some c -> str_forall f s = true -> f c = true.
Proof.
  induction s as [|d s IH]; [done|]. simpl. destruct s as [|e s].
  - intros [= ->] H. by bool_inv.
  - intros E H. bool_inv. by apply IH.
Qed.

Lemma str_snoc_inv s : s = "" \/ exists s' c, s = s' +:+ String c "".
Proof.
  induction s as [|d s IH]; [by left|]. right. destruct IH as [->|(s' & c & ->)].
  - by exists "", d.
  - by exists (String d s'), c.
Qed.

Lemma str_init_snoc s c : str_init (s +:+ String c "") = s.
Proof.
  induction s as [|d s IH]; [done|]. rewrite str_app_cons. simpl.
  destruct (s +:+ String c "") eqn:E; [by destruct s|]. by rewrite IH.
Qed.

Lemma str_partition_spec sep s a b :
  str_partition sep s = Some (a, b) <-> s = a +:+ String sep b /\ str_mem sep a = false.
Proof.
  revert a b. induction s as [|c s IH]; intros a b; simpl.
  { split; [done|]. intros [H _]. by destruct a. }
  destruct (Ascii.eqb_spec c sep) as [->|Hne].
  - split; [intros [= <- <-]; done|]. intros [H Ha]. destruct a as [|d a].
    + by injection H as ->.
    + rewrite str_app_cons in H. injection H as <- _.
      rewrite str_mem_cons, Ascii.eqb_refl in Ha. done.
  - destruct (str_partition sep s) as [[a' b']|].
    + split.
      * intros [= <- <-]. destruct (proj1 (IH a' b') eq_refl) as [-> Ha']. split; [done|].
        rewrite str_mem_cons, Ha'. destruct (Ascii.eqb_spec sep c); [congruence|done].
      * intros [H Ha]. destruct a as [|d a]; [injection H as -> _; done|].
        rewrite str_app_cons in H. injection H as <- ->.
        rewrite str_mem_cons in Ha. bool_inv.
        assert (Some (a', b') = Some (a, b)) as [= -> ->] by (by apply IH). done.
    + split; [done|]. intros [H Ha]. destruct a as [|d a]; [injection H as -> _; done|].
      rewrite str_app_cons in H. injection H as <- ->.
      rewrite str_mem_cons in Ha. bool_inv.
      assert (None = Some (a, b)) by (by apply IH). done.
Qed.

Lemma str_rpartition_none sep s : str_rpartition sep s = None <-> str_mem sep s = false.
Proof.
  induction s as [|c s IH]; simpl; [done|]. rewrite str_mem_cons.
  destruct (str_rpartition sep s) as [[a b]|].
  - split; [done|]. intros H. bool_inv. by apply IH in H0.
  - destruct (Ascii.eqb_spec c sep) as [->|Hne].
    + rewrite Ascii.eqb_refl. done.
    + split; [|done]. intros _. destruct (Ascii.eqb_spec sep c); [congruence|].
      simpl. by apply IH.
Qed.

Lemma str_rpartition_spec sep s a b :
  str_rpartition sep s = Some (a, b) <-> s = a +:+ String sep b /\ str_mem sep b = false.
Proof.
  revert a b. induction s as [|c s IH]; intros a b; simpl.
  { split; [done|]. intros [H _]. by destruct a. }
  destruct (str_rpartition sep s) as [[a' b']|] eqn:E.
  - destruct (proj1 (IH a' b') eq_refl) as [-> Hb']. split.
    + intros [= <- <-]. done.
    + intros [H Hb]. destruct a as [|d a].
      * injection H as -> <-. rewrite str_mem_app, str_mem_cons, Ascii.eqb_refl in Hb.
        by rewrite orb_true_r in Hb.
      * rewrite str_app_cons in H. injection H as <- H.
        assert (Some (a', b') = Some (a, b)) as [= -> ->] by (by apply IH). done.
  - apply str_rpartition_none in E. destruct (Ascii.eqb_spec c sep) as [->|Hne]; split.
    + intros [= <- <-]. done.
    + intros [H Hb]. destruct a as [|d a]; [by injection H as <-|].
      rewrite str_app_cons in H. injection H as <- ->.
      rewrite str_mem_app, str_mem_cons, Ascii.eqb_refl, orb_true_r in E. done.
    + done.
    + intros [H Hb]. destruct a as [|d a]; [injection H as -> _; done|].
      rewrite str_app_cons in H. injection H as <- ->.
      rewrite str_mem_app, str_mem_cons, Ascii.eqb_refl, orb_true_r in E. done.
Qed.

Lemma str_split_nonnil sep s : str_split sep s <> [].
Proof. destruct s as [|c s]; simpl; [done|]. destruct (Ascii.eqb c sep); [done|]. by destruct (str_split sep s). Qed.

Lemma str_split_none sep s : str_mem sep s = false -> str_split sep s = [s].
Proof.
  induction s as [|c s IH]; [done|]. rewrite str_mem_cons. intros H. bool_inv. simpl.
  destruct (Ascii.eqb_spec c sep) as [->|]; [by rewrite Ascii.eqb_refl in H|].
  by rewrite IH.
Qed.

Lemma str_split_app sep a s :
  str_mem sep a = false -> str_split sep (a +:+ String sep s) = a :: str_split sep s.
Proof.
  induction a as [|c a IH]; intros H.
  { change ("" +:+ String sep s) with (String sep s). simpl. by rewrite Ascii.eqb_refl. }
  rewrite str_mem_cons in H. bool_inv. rewrite str_app_cons. simpl.
  destruct (Ascii.eqb_spec c sep) as [->|]; [by rewrite Ascii.eqb_refl in H|].
  by rewrite IH.
Qed.

Lemma str_split_join sep l :
  l <> [] -> Forall (fun t => str_mem sep t = false) l ->
  str_split sep (str_join (String sep "") l) = l.
Proof.
  induction l as [|x l IH]; [done|]. intros _ Hl. inversion_clear Hl as [|?? Hx Hl'].
  destruct l as [|y l].
  - by apply str_split_none.
  - change (str_join (String sep "") (x :: y :: l))
      with (x +:+ String sep (str_join (String sep "") (y :: l))).
    rewrite str_split_app by done. by rewrite IH.
Qed.

Lemma str_split_no_sep sep s : Forall (fun t => str_mem sep t = false) (str_split sep s).
Proof.
  induction s as [|c s IH]; simpl; [by constructor|].
  destruct (Ascii.eqb_spec c sep) as [->|Hne]; [by constructor|].
  destruct (str_split sep s) as [|h t]; inversion_clear IH; constructor; try done;
    rewrite str_mem_cons; destruct (Ascii.eqb_spec sep c); naive_solver.
Qed.

Lemma str_span_spec f s a b :
  str_span f s = (a, b) ->
  s = a +:+ b /\ str_forall f a = true /\ match b with "" => True | String c _ => f c = false end.
Proof.
  revert a b. induction s as [|c s IH]; intros a b; simpl; [by intros [= <- <-]|].
  destruct (f c) eqn:E.
  - destruct (str_span f s) as [a' b']. intros [= <- <-].
    destruct (IH a' b' eq_refl) as (-> & Ha & Hb). simpl. by rewrite E, Ha.
  - intros [= <- <-]. simpl. by rewrite E.
Qed.

Lemma str_span_app f a c b :
  str_forall f a = true -> f c = false -> str_span f (a +:+ String c b) = (a, String c b).
Proof.
  intros Ha Hc. induction a as [|d a IH].
  { change ("" +:+ String c b) with (String c b). simpl. by rewrite Hc. }
  simpl in Ha. bool_inv. rewrite str_app_cons. simpl. rewrite H. by rewrite IH.
Qed.

(** *** Decimal round trip *)

Lemma digit_char_code d : (d < 10)%N -> code (pretty_N_char d) = 0x30 + Z.of_N d.
Proof.
  intros H. assert (d = 0 \/ d = 1 \/ d = 2 \/ d = 3 \/ d = 4 \/ d = 5 \/ d = 6 \/ d = 7
    \/ d = 8 \/ d = 9)%N as Hd by lia.
  by repeat destruct Hd as [->|Hd]; [..|subst].
Qed.

Lemma dec_go_pretty n s : dec_go 0 (pretty_N_go n s) = dec_go (Z.of_N n) s.
Proof.
  revert s. induction (N.lt_wf_0 n) as [n _ IH]; intros s.
  destruct (decide (n = 0)%N) as [->|Hn]; [by rewrite pretty_N_go_0|].
  rewrite pretty_N_go_step by lia. rewrite IH by (apply N.div_lt; lia). simpl.
  rewrite digit_char_code by (apply N.mod_lt; lia). f_equal.
  pose proof (N.div_mod n 10). lia.
Qed.

Lemma str_of_Z_pos n : 0 <= n -> str_of_Z n =
  if decide (Z.to_N n = 0)%N then "0" else pretty_N_go (Z.to_N n) "".
Proof. intros Hn. unfold str_of_Z, pretty, pretty_Z. destruct n; [done|done|lia]. Qed.

Lemma int_of_str n : 0 <= n -> int_of_digits (str_of_Z n) = n.
Proof.
  intros Hn. rewrite str_of_Z_pos by done. case_decide as H.
  - assert (n = 0) as -> by lia. done.
  - unfold int_of_digits. rewrite dec_go_pretty. simpl. lia.
Qed.

Lemma digits_pretty n s : str_forall is_digit s = true -> str_forall is_digit (pretty_N_go n s) = true.
Proof.
  revert s. induction (N.lt_wf_0 n) as [n _ IH]; intros s Hs.
  destruct (decide (n = 0)%N) as [->|Hn]; [by rewrite pretty_N_go_0|].
  rewrite pretty_N_go_step by lia. apply IH; [apply N.div_lt; lia|]. simpl.
  rewrite Hs, andb_true_r. unfold is_digit. rewrite digit_char_code by (apply N.mod_lt; lia).
  pose proof (N.mod_lt n 10 ltac:(lia)) as Hd. revert Hd. generalize (n `mod` 10)%N. intros d Hd.
  apply andb_true_iff; split; apply Z.leb_le; lia.
Qed.

Lemma digits_str_of_Z n : 0 <= n -> str_forall is_digit (str_of_Z n) = true.
Proof.
  intros Hn. rewrite str_of_Z_pos by done. case_decide; [done|]. by apply digits_pretty.
Qed.

Lemma pretty_head n s : (0 < n)%N ->
  exists c r, pretty_N_go n s = String c r /\ 0x31 <= code c <= 0x39.
Proof.
  revert s. induction (N.lt_wf_0 n) as [n _ IH]; intros s Hn.
  rewrite pretty_N_go_step by lia. destruct (decide (n / 10 = 0)%N) as [E|E].
  - rewrite E, pretty_N_go_0. eexists _, _. split; [done|].
    apply N.div_small_iff in E; [|lia]. rewrite N.mod_small by lia.
    rewrite digit_char_code by lia. lia.
  - apply IH; [apply N.div_lt; lia|by apply N.neq_0_lt_0].
Qed.

Lemma str_of_Z_head n : 0 < n ->
  exists c r, str_of_Z n = String c r /\ 0x31 <= code c <= 0x39.
Proof.
  intros Hn. rewrite str_of_Z_pos by lia. rewrite decide_False by lia. apply pretty_head. lia.
Qed.

Lemma str_of_Z_nonempty n : 0 <= n -> str_of_Z n <> "".
Proof.
  intros Hn. rewrite str_of_Z_pos by done. case_decide; [done|].
  destruct (pretty_head (Z.to_N n) "") as (c & r & -> & _); [lia|done].
Qed.

Lemma slen_pretty n s k :
  0 <= k -> (Z.of_N n < 10 ^ k) -> slen (pretty_N_go n s) <= k + slen s.
Proof.
  revert s k. induction (N.lt_wf_0 n) as [n _ IH]; intros s k Hk Hn.
  destruct (decide (n = 0)%N) as [->|Hn0]; [rewrite pretty_N_go_0; lia|].
  assert (k <> 0) by (intros ->; simpl in Hn; lia).
  rewrite pretty_N_go_step by lia.
  etrans; [apply (IH _ (N.div_lt n 10 ltac:(lia) eq_refl) _ (k - 1)); [lia|]|].
  - rewrite N2Z.inj_div. apply Z.div_lt_upper_bound; [done|].
    change (Z.of_N 10) with 10. rewrite <- Z.pow_succ_r by lia. by replace (Z.succ (k - 1)) with k by lia.
  - rewrite slen_cons. lia.
Qed.

Lemma slen_str_of_Z n k : 1 <= k -> 0 <= n < 10 ^ k -> slen (str_of_Z n) <= k.
Proof.
  intros Hk Hn. rewrite str_of_Z_pos by lia. case_decide; [simpl; unfold slen; simpl; lia|].
  etrans; [apply (slen_pretty _ _ k); lia|]. unfold slen; simpl; lia.
Qed.

(** *** Hexadecimal *)

Lemma hex_char_code d : 0 <= d < 16 -> is_hex_char (hex_char d) = true.
Proof.
  intros Hd. unfold hex_char, is_hex_char, is_digit.
  destruct (d <? 10) eqn:E; bool_inv; rewrite code_chr by lia;
    apply orb_true_iff; rewrite !andb_true_iff, !Z.leb_le; lia.
Qed.

Lemma hex_char_inj d e : 0 <= d < 16 -> 0 <= e < 16 -> hex_char d = hex_char e -> d = e.
Proof.
  intros Hd He H. apply (f_equal code) in H. unfold hex_char in H.
  destruct (d <? 10) eqn:E1, (e <? 10) eqn:E2; bool_inv; rewrite !code_chr in H by lia; lia.
Qed.

Lemma hex4_hex n : str_forall is_hex_char (hex4 n) = true.
Proof. unfold hex4. simpl. by rewrite !hex_char_code by (apply Z.mod_pos_bound; lia). Qed.

Lemma hex4_digits n : 0 <= n < 65536 ->
  n = 4096 * (n / 4096 mod 16) + 256 * (n / 256 mod 16) + 16 * (n / 16 mod 16) + n mod 16.
Proof. intros Hn. Z.div_mod_to_equations. lia. Qed.

Lemma hex4_inj m n : 0 <= m < 65536 -> 0 <= n < 65536 -> hex4 m = hex4 n -> m = n.
Proof.
  intros Hm Hn H. unfold hex4 in H. injection H as H1 H2 H3 H4.
  apply hex_char_inj in H1, H2, H3, H4; try (apply Z.mod_pos_bound; lia).
  rewrite (hex4_digits m), (hex4_digits n) by done. by rewrite H1, H2, H3, H4.
Qed.
