(* ===== verification/PyFloat.v ===== *)
(** * Python floats

    What the vision service computes with floats: an integer as a float, the
    division of two integers, and rounding. *)
From Stdlib Require Export SpecFloat.
From S2P Require Import Prelude.

(** [float(n)] *)
Definition float_of_int (n : Z) : spec_float := binary_normalize 53 1024 n 0 false.

(** [a / b] on integers: exact operands below 2^53, one rounding. *)
Definition true_div (a b : Z) : spec_float := SFdiv 53 1024 (float_of_int a) (float_of_int b).

(** [round(x)]: to the nearest integer, a tie to the even one. *)
Definition round_half_even (x : spec_float) : Z :=
  match x with
  | S754_finite s m e =>
      let n :=
        if 0 <=? e then Zpos m * 2 ^ e
        else
          let d := 2 ^ (- e) in
          let q := Zpos m / d in
          let r := 2 * (Zpos m mod d) in
          if (d <? r) || ((d =? r) && Z.odd q) then q + 1 else q in
      if s then - n else n
  | _ => 0
  end.

Example round_examples :
  round_half_even (true_div 5 2) = 2 /\ round_half_even (true_div 7 2) = 4 /\ round_half_even (true_div (-7) 4) = -2.
Proof. by vm_compute. Qed.
