(* ===== verification/Errors.v ===== *)
(** * Exceptions

    One Python exception value: its class, its message and the two attributes
    some classes carry ([RecoveryError.recovered] and
    [DomainError.operation_id]). The class hierarchy of each package is an
    inductive type with its [parent] function; [isinstance] walks it. *)
From S2P Require Import Prelude.

(** host/src/cs71_protocol/errors.py *)
Inductive protocol_error :=
| ProtocolError | FramingError | ParseError | CrcError | TimeoutError
| RecoveryError | DtrSuppressionError | RequestStateError | RequestInterruptedError.

Definition protocol_parent (c : protocol_error) : option protocol_error :=
  match c with
  | ProtocolError => None
  | CrcError => Some ParseError
  | _ => Some ProtocolError
  end.

(** appliance/daemon/src/cs71d/serial_worker.py *)
Inductive serial_worker_error :=
| SerialWorkerError | WorkerNotRunningError | SessionNotReadyError | QueueFullError
| StopInProgressError | PreemptedByStopError | PreemptedByRecoveryError
| WorkerUncertainError | WorkerStartupError | WorkerShutdownTimeout.

(** appliance/daemon/src/cs71d/operations.py *)
Inductive domain_error :=
| DomainError | ValidationError | NotReadyError | UnsupportedOperationError
| InvalidTransitionError
| StaleGenerationError | IdempotencyConflictError | OperationQueueFullError
| DeadlineInvalidError | DeadlineExpiredError | JournalUnavailableError.

(** The [code] class attribute of the errors operations.py declares; the
    classes that do not override it inherit [DomainError.code]. *)
Definition operations_code (c : domain_error) : option string :=
  match c with
  | DomainError => Some "INTERNAL_ERROR"
  | ValidationError => Some "VALIDATION_FAILED"
  | NotReadyError => Some "NOT_READY"
  | UnsupportedOperationError => Some "UNSUPPORTED"
  | InvalidTransitionError => Some "INTERNAL_ERROR"
  | _ => None
  end.

(** The [code] class attribute of every domain error, domain.py's included. *)
Definition domain_code (c : domain_error) : string :=
  match c with
  | StaleGenerationError => "STALE_GENERATION"
  | IdempotencyConflictError => "IDEMPOTENCY_CONFLICT"
  | OperationQueueFullError => "QUEUE_FULL"
  | DeadlineInvalidError => "DEADLINE_INVALID"
  | DeadlineExpiredError => "DEADLINE_EXPIRED"
  | JournalUnavailableError => "JOURNAL_UNAVAILABLE"
  | _ => default "" (operations_code c)
  end.

(** appliance/daemon/src/cs71d/journal.py *)
Inductive journal_error := JournalError | JournalSchemaError.

(** The standard library's exceptions the sources raise or catch. *)
Inductive builtin_error :=
| ValueError | TypeError | KeyError | IndexError | OSError | RuntimeError | AssertionError
| OverflowError | SqliteError | SqliteIntegrityError.

Inductive exn_class :=
| Protocol (c : protocol_error)
| Worker (c : serial_worker_error)
| Domain (c : domain_error)
| JournalE (c : journal_error)
| Builtin (c : builtin_error).

#[export] Instance protocol_error_eq_dec : EqDecision protocol_error.
Proof. solve_decision. Defined.
#[export] Instance serial_worker_error_eq_dec : EqDecision serial_worker_error.
Proof. solve_decision. Defined.
#[export] Instance domain_error_eq_dec : EqDecision domain_error.
Proof. solve_decision. Defined.
#[export] Instance journal_error_eq_dec : EqDecision journal_error.
Proof. solve_decision. Defined.
#[export] Instance builtin_error_eq_dec : EqDecision builtin_error.
Proof. solve_decision. Defined.
#[export] Instance exn_class_eq_dec : EqDecision exn_class.
Proof. solve_decision. Defined.

Record exn := Exn {
  exn_cls : exn_class;
  exn_msg : string;
  exn_recovered : bool;
  exn_operation_id : option string;
}.

#[export] Instance exn_eq_dec : EqDecision exn.
Proof. solve_decision. Defined.

(** The direct superclass, [None] when it is [Exception] itself. *)
Definition parent (c : exn_class) : option exn_class :=
  match c with
  | Protocol c => Protocol <$> protocol_parent c
  | Worker SerialWorkerError => Some (Builtin RuntimeError)
  | Worker _ => Some (Worker SerialWorkerError)
  | Domain DomainError => Some (Builtin RuntimeError)
  | Domain _ => Some (Domain DomainError)
  | JournalE JournalError => Some (Builtin RuntimeError)
  | JournalE JournalSchemaError => Some (JournalE JournalError)
  | Builtin SqliteIntegrityError => Some (Builtin SqliteError)
  | Builtin _ => None
  end.

(** No class is more than three steps below [Exception]. *)
Fixpoint subclass_go (fuel : nat) (c d : exn_class) : bool :=
  bool_decide (c = d) ||
  match fuel, parent c with
  | S fuel, Some p => subclass_go fuel p d
  | _, _ => false
  end.
Definition subclass (c d : exn_class) : bool := subclass_go 4 c d.
Definition isinstance (e : exn) (c : exn_class) : bool := subclass (exn_cls e) c.

Definition mk_exn (c : exn_class) (msg : string) : exn := Exn c msg false None.
Definition recovery_error (msg : string) (recovered : bool) : exn :=
  Exn (Protocol RecoveryError) msg recovered None.
Definition domain_exn (c : domain_error) (msg : string) : exn := mk_exn (Domain c) msg.

(** [type(error).__name__] *)
Definition class_name (c : exn_class) : string :=
  match c with
  | Protocol ProtocolError => "ProtocolError"
  | Protocol FramingError => "FramingError"
  | Protocol ParseError => "ParseError"
  | Protocol CrcError => "CrcError"
  | Protocol TimeoutError => "TimeoutError"
  | Protocol RecoveryError => "RecoveryError"
  | Protocol DtrSuppressionError => "DtrSuppressionError"
  | Protocol RequestStateError => "RequestStateError"
  | Protocol RequestInterruptedError => "RequestInterruptedError"
  | Worker SerialWorkerError => "SerialWorkerError"
  | Worker WorkerNotRunningError => "WorkerNotRunningError"
  | Worker SessionNotReadyError => "SessionNotReadyError"
  | Worker QueueFullError => "QueueFullError"
  | Worker StopInProgressError => "StopInProgressError"
  | Worker PreemptedByStopError => "PreemptedByStopError"
  | Worker PreemptedByRecoveryError => "PreemptedByRecoveryError"
  | Worker WorkerUncertainError => "WorkerUncertainError"
  | Worker WorkerStartupError => "WorkerStartupError"
  | Worker WorkerShutdownTimeout => "WorkerShutdownTimeout"
  | Domain DomainError => "DomainError"
  | Domain ValidationError => "ValidationError"
  | Domain NotReadyError => "NotReadyError"
  | Domain UnsupportedOperationError => "UnsupportedOperationError"
  | Domain InvalidTransitionError => "InvalidTransitionError"
  | Domain StaleGenerationError => "StaleGenerationError"
  | Domain IdempotencyConflictError => "IdempotencyConflictError"
  | Domain OperationQueueFullError => "OperationQueueFullError"
  | Domain DeadlineInvalidError => "DeadlineInvalidError"
  | Domain DeadlineExpiredError => "DeadlineExpiredError"
  | Domain JournalUnavailableError => "JournalUnavailableError"
  | JournalE JournalError => "JournalError"
  | JournalE JournalSchemaError => "JournalSchemaError"
  | Builtin ValueError => "ValueError"
  | Builtin TypeError => "TypeError"
  | Builtin KeyError => "KeyError"
  | Builtin IndexError => "IndexError"
  | Builtin OSError => "OSError"
  | Builtin RuntimeError => "RuntimeError"
  | Builtin AssertionError => "AssertionError"
  | Builtin OverflowError => "OverflowError"
  | Builtin SqliteError => "OperationalError"
  | Builtin SqliteIntegrityError => "IntegrityError"
  end.

(** Results and computations of this development raise [exn]. *)
Abbreviation result := (res exn).

Definition throw {A} (c : exn_class) (msg : string) : result A := Err (mk_exn c msg).

(** ** Raising only one family of exceptions *)

Definition only_raises {A} (c : exn_class) (r : result A) : Prop :=
  match r with
  | Ok _ => True
  | Err e => isinstance e c = true
  | OutOfFuel => False
  end.

Lemma or_bind {A B} c (m : result A) (f : A -> result B) :
  only_raises c m -> (forall a, m = Ok a -> only_raises c (f a)) -> only_raises c (m ≫= f).
Proof. destruct m; simpl; auto. Qed.

Lemma or_ok {A} c (a : A) : only_raises c (Ok a).
Proof. done. Qed.

Lemma or_throw {A} c msg : only_raises (A:=A) c (throw c msg).
Proof. unfold throw, only_raises, isinstance, subclass. simpl. by rewrite bool_decide_true. Qed.

#[export] Hint Resolve or_ok or_throw : cs71.

(** Walks a fallible function, closing its leaves from [cs71]. *)
Ltac or_step :=
  match goal with
  | |- only_raises _ (_ ≫= _) => apply or_bind; [|intros]
  | |- only_raises _ (if ?b then _ else _) => destruct b
  | |- only_raises _ (match ?x with _ => _ end) => destruct x
  | |- only_raises _ _ => solve [eauto with cs71]
  end.
Ltac or_steps := repeat or_step.
