(* ===== verification/Sockets.v ===== *)
(** * Serving on a Unix socket (daemon/src/cs71d/api.py, vision/src/cs71vision/api.py)

    How [ApiServer] and [VisionApiServer] take the path of their socket, serve on it and give it back; the code of the two is the
    same but for the message and for what [close] closes besides. The path is one place that any number of processes share: a file that is there, and the
    sockets that are listening, each with the inode it was bound to. *)
From S2P Require Import Prelude PyString Errors.

Inductive Node := Socket (inode : nat) | OtherFile.
#[export] Instance Node_eq_dec : EqDecision Node.
Proof. solve_decision. Defined.

(** What is at the path, and the inodes whose sockets listen. *)
Record Net := mkNet { node : option Node; listening : gset nat; next_inode : nat }.
Abbreviation NM := (M Net exn).

Definition os_failure {A} (message : string) : NM A := raise (mk_exn (Builtin OSError) message).

(** [os.unlink(path)] *)
Definition unlink : NM unit :=
  n ← getS;
  match node n with
  | None => os_failure "No such file or directory"
  | Some _ => putS (mkNet None (listening n) (next_inode n))
  end.

(** [probe.connect(path)] returns: somebody listens there, and answers within the timeout. *)
Definition connects (busy : nat -> bool) (n : Net) : bool :=
  match node n with Some (Socket i) => bool_decide (i ∈ listening n) && negb (busy i) | _ => false end.

Definition claim_path (message : string) (busy : nat -> bool) : NM unit :=
  n ← getS;
  match node n with
  | None => mret tt
  | Some _ => if connects busy n then os_failure message else unlink
  end.

(** [bind] makes a new file, and only where there is none; [listen] makes its socket answer. *)
Definition bind : NM nat :=
  n ← getS;
  match node n with
  | Some _ => os_failure "Address already in use"
  | None => _ ← putS (mkNet (Some (Socket (next_inode n))) (listening n) (S (next_inode n))); mret (next_inode n)
  end.
Definition listen (i : nat) : NM unit := modifyS (fun n => mkNet (node n) ({[i]} ∪ listening n) (next_inode n)).

(** [_UnixHttpServer(path, _Handler)]: [server_bind] and [server_activate]. *)
Definition UnixHttpServer : NM nat := i ← bind; _ ← listen i; mret i.

Definition _unlink_stale_socket : NM unit := n ← getS; match node n with None => mret tt | Some _ => unlink end.

(** [server.shutdown(); server.server_close()] *)
Definition server_close (i : nat) : NM unit := modifyS (fun n => mkNet (node n) (listening n ∖ {[i]}) (next_inode n)).

Section Server.
Context (message : string) (busy : nat -> bool) (chmod : option exn).

(** [start] and [close], on [self._server]: what it is afterwards. *)
Definition serve (server : option nat) : NM (option nat) :=
  match server with
  | Some _ => mret server
  | None =>
      _ ← claim_path message busy;
      i ← UnixHttpServer;
      _ ← liftR (match chmod with Some e => Err e | None => Ok tt end);
      mret (Some i)
  end.

Definition unserve (server : option nat) : NM (option nat) :=
  match server with
  | None => mret None
  | Some i => _ ← server_close i; _ ← _unlink_stale_socket; mret None
  end.
End Server.

(** [ApiServer] *)
Definition daemon_message (path : string) : string := "another daemon is already serving " +:+ path.
Definition daemon_claim_socket_path (path : string) := claim_path (daemon_message path).
Definition daemon_start (path : string) := serve (daemon_message path).
Definition daemon_close := unserve.

(** [VisionApiServer]: closing closes the training job and the store too, served or not. *)
Definition vision_message (path : string) : string := "another cs71-vision api is already serving " +:+ path.
Definition vision_claim_socket_path (path : string) := claim_path (vision_message path).
Definition vision_start (path : string) := serve (vision_message path).
Definition vision_close (close_job close_store : result unit) (server : option nat) : NM (option nat) :=
  s ← unserve server; _ ← liftR close_job; _ ← liftR close_store; mret s.

(** ** Many processes on one path

    The same calls one by one, as processes interleave them: what a process does next. The look at the path and the
    probe of it are one step; [chmod] succeeds (where it fails is in DaemonRuntime). *)
Inductive phase :=
| Idle | Checking | Unlinking | Binding | Listening (i : nat) | Serving (i : nat) | Refused (e : exn)
| Closing (i : nat) | Cleaning.

Definition phase_step (message : string) (busy : nat -> bool) (ph : phase) : NM phase :=
  match ph with
  | Checking => n ← getS; mret (match node n with
                                | None => Binding
                                | Some _ => if connects busy n then Refused (mk_exn (Builtin OSError) message) else Unlinking
                                end)
  | Unlinking => _ ← unlink; mret Binding
  | Binding => i ← bind; mret (Listening i)
  | Listening i => _ ← listen i; mret (Serving i)
  | Closing i => _ ← server_close i; mret Cleaning
  | Cleaning => _ ← _unlink_stale_socket; mret Idle
  | ph => mret ph
  end.

Record Host := mkHost { net : Net; phases : gmap nat phase }.
Definition phase_of (h : Host) (p : nat) : phase := default Idle (phases h !! p).

(** A process that does nothing, or was refused, starts its server; one that serves closes it; any takes its next
    step; any dies, and the system closes its socket. *)
Inductive move := MStart (p : nat) | MClose (p : nat) | MStep (p : nat) | MDie (p : nat).

Definition socket_of (ph : phase) : option nat := match ph with Listening i | Serving i | Closing i => Some i | _ => None end.
Definition enter (p : nat) (ph : phase) (h : Host) : Host := mkHost (net h) (<[p := ph]> (phases h)).

Definition happen (message : string) (busy : nat -> bool) (m : move) (h : Host) : Host :=
  match m with
  | MStart p => match phase_of h p with Idle | Refused _ => enter p Checking h | _ => h end
  | MClose p => match phase_of h p with Serving i => enter p (Closing i) h | _ => h end
  | MStep p =>
      let q := phase_step message busy (phase_of h p) (net h) in
      mkHost q.1 (<[p := match q.2 with Ok ph => ph | Err e => Refused e | OutOfFuel => phase_of h p end]> (phases h))
  | MDie p =>
      mkHost (match socket_of (phase_of h p) with Some i => (server_close i (net h)).1 | None => net h end) (<[p := Idle]> (phases h))
  end.
Definition happens (message : string) (busy : nat -> bool) (ms : list move) (h : Host) : Host :=
  foldl (fun h m => happen message busy m h) h ms.

(** A step that raises ends the start. *)
Definition advance_phase (message : string) (busy : nat -> bool) (ph : phase) (n : Net) : Net * phase :=
  let q := phase_step message busy ph n in (q.1, match q.2 with Ok ph => ph | Err e => Refused e | OutOfFuel => ph end).
Fixpoint advance_phases (message : string) (busy : nat -> bool) (k : nat) (ph : phase) (n : Net) : Net * phase :=
  match k with O => (n, ph) | S k => let q := advance_phase message busy ph n in advance_phases message busy k q.2 q.1 end.

(** Uninterrupted, the steps are [start] and [close]. *)
Lemma start_is_steps message busy n :
  serve message busy None None n
  = match advance_phases message busy 4 Checking n with
    | (n', Serving i) => (n', Ok (Some i)) | (n', Refused e) => (n', Err e) | (n', _) => (n', OutOfFuel)
    end.
Proof.
  unfold serve, claim_path, UnixHttpServer, getS, mbind, M_bind. cbn [advance_phases]. unfold advance_phase. cbn [phase_step].
  unfold getS, mbind, M_bind, mret, M_ret. cbn [fst snd]. destruct (node n) as [x|] eqn:Hn.
  - destruct (connects busy n); [done|]. cbn [phase_step]. unfold unlink, getS, putS, mbind, M_bind, mret, M_ret. rewrite Hn. done.
  - cbn [phase_step]. unfold bind, getS, putS, mbind, M_bind, mret, M_ret. rewrite Hn. done.
Qed.
Lemma close_is_steps message busy i n :
  unserve (Some i) n
  = match advance_phases message busy 2 (Closing i) n with (n', Idle) => (n', Ok None) | (n', Refused e) => (n', Err e) | (n', _) => (n', OutOfFuel) end.
Proof.
  unfold unserve. cbn [advance_phases]. unfold advance_phase. cbn [phase_step]. unfold server_close, _unlink_stale_socket, unlink, getS, putS, modifyS, mbind, M_bind, mret, M_ret.
  cbn [fst snd phase_step node]. by destruct (node n).
Qed.

(** A whole start, and a whole close, with nobody between their steps. *)
Definition whole_start (p : nat) : list move := MStart p :: replicate 4 (MStep p).
Definition whole_close (p : nat) : list move := MClose p :: replicate 2 (MStep p).

Lemma phase_of_insert n m p q ph : phase_of (mkHost n (<[p := ph]> m)) q = if decide (p = q) then ph else phase_of (mkHost n m) q.
Proof. unfold phase_of. cbn. case_decide as E; [subst; by rewrite lookup_insert_eq|by rewrite lookup_insert_ne]. Qed.
Lemma phase_of_self n m p ph : phase_of (mkHost n (<[p := ph]> m)) p = ph.
Proof. rewrite phase_of_insert. by destruct (decide (p = p)). Qed.

Lemma steps_advance message busy k p ph n m :
  happens message busy (replicate k (MStep p)) (mkHost n (<[p := ph]> m))
  = let q := advance_phases message busy k ph n in mkHost q.1 (<[p := q.2]> m).
Proof.
  revert ph n. induction k as [|k IH]; intros ph n; [done|]. cbn [replicate]. unfold happens in *. cbn [foldl happen]. rewrite phase_of_self.
  cbn [net phases]. rewrite insert_insert_eq. rewrite IH. cbn [advance_phases]. unfold advance_phase. cbn [fst snd]. done.
Qed.

(** ** The invariant *)

(** Between the check and the socket that listens, and between the socket that is closed and the path that is
    given back, the path is in the process's hands. *)
Definition amid (ph : phase) : bool := match ph with Unlinking | Binding | Listening _ | Cleaning => true | _ => false end.
Definition alone (h : Host) : Prop := forall p q, amid (phase_of h p) = true -> amid (phase_of h q) = true -> p = q.

(** A socket listens on the file that is at the path. *)
Definition occupied (n : Net) : bool := connects (fun _ => false) n.

(** What a process knows of the path. *)
Definition place_ok (n : Net) (ph : phase) : Prop :=
  match ph with
  | Unlinking => is_Some (node n) /\ occupied n = false
  | Binding => node n = None
  | Listening i => node n = Some (Socket i) /\ i ∉ listening n
  | Serving i | Closing i => node n = Some (Socket i) /\ i ∈ listening n
  | Cleaning => occupied n = false
  | _ => True
  end.
Record host_ok (h : Host) : Prop := {
  ho_place : forall p, place_ok (net h) (phase_of h p);
  ho_one : forall p q i, socket_of (phase_of h p) = Some i -> socket_of (phase_of h q) = Some i -> p = q;
  ho_fresh : forall i, i ∈ listening (net h) \/ node (net h) = Some (Socket i) -> (i < next_inode (net h))%nat;
}.

Lemma occupied_node n i : node n = Some (Socket i) -> occupied n = bool_decide (i ∈ listening n).
Proof. intros Hn. unfold occupied, connects. by rewrite Hn, andb_true_r. Qed.
Lemma occupied_none n : node n = None -> occupied n = false.
Proof. intros Hn. unfold occupied, connects. by rewrite Hn. Qed.
Lemma connects_answered busy n : (forall i, i ∈ listening n -> busy i = false) -> connects busy n = occupied n.
Proof.
  intros Hb. unfold occupied, connects. destruct (node n) as [[i|]|]; [|done..]. case_bool_decide as Hi; [|done]. by rewrite Hb.
Qed.

(** The probe of a server that listens is answered in time. *)
Definition answering (busy : nat -> bool) (h : Host) : Prop := forall i, i ∈ listening (net h) -> busy i = false.

(** Where one process has the path in its hands, or serves, no other does. *)
Lemma holders h p q : host_ok h -> alone h -> p <> q ->
  (amid (phase_of h p) = true \/ is_Some (socket_of (phase_of h p))) -> amid (phase_of h q) = true \/ is_Some (socket_of (phase_of h q)) -> False.
Proof.
  intros [Hpl H1 Hf] Hal Hne Hp Hq. pose proof (Hpl p) as Pp. pose proof (Hpl q) as Pq. pose proof (Hal p q) as Hal'. pose proof (H1 p q) as H1'.
  assert (forall i, node (net h) = Some (Socket i) -> i ∈ listening (net h) -> occupied (net h) = false -> False) as Hocc
    by (intros i Hn Hi Ho; rewrite (occupied_node _ i Hn) in Ho; by rewrite bool_decide_true in Ho).
  destruct (phase_of h p) as [| | | |i|i| |i|], (phase_of h q) as [| | | |j|j| |j|]; cbn in *;
    try (by destruct Hp as [?|[? ?]]); try (by destruct Hq as [?|[? ?]]); try (by apply Hne, Hal');
    repeat match goal with H : _ /\ _ |- _ => destruct H end; try (eapply Hocc; eassumption); try congruence;
    (assert (i = j) as -> by congruence; first [contradiction|by apply Hne, (H1' j)]).
Qed.

Lemma host_ok_move h p n ph : host_ok h -> place_ok n ph ->
  (forall i, socket_of ph = Some i -> socket_of (phase_of h p) = Some i \/ i = next_inode (net h)) ->
  (forall i, i ∈ listening n \/ node n = Some (Socket i) -> (i < next_inode n)%nat) ->
  n = net h \/ (forall q, p <> q -> ~ (amid (phase_of h q) = true \/ is_Some (socket_of (phase_of h q)))) ->
  host_ok (mkHost n (<[p := ph]> (phases h))).
Proof.
  intros [Hpl H1 Hf] Hph Hs Hfr Hn.
  assert (forall q, p <> q -> phase_of (mkHost n (<[p := ph]> (phases h))) q = phase_of h q) as Hother
    by (intros q Hq; rewrite phase_of_insert; by destruct (decide (p = q))).
  assert (forall q i, p <> q -> socket_of ph = Some i -> socket_of (phase_of h q) = Some i -> False) as Hdis.
  { intros q i Hq Hi Hj. destruct (Hs i Hi) as [Hp| ->]; [by apply Hq, (H1 p q i)|].
    assert (node (net h) = Some (Socket (next_inode (net h)))) as Hnode by (specialize (Hpl q); destruct (phase_of h q); cbn in *; naive_solver).
    specialize (Hf (next_inode (net h)) (or_intror Hnode)). lia. }
  split; cbn [net].
  - intros q. destruct (decide (p = q)) as [<-|Hq]; [by rewrite phase_of_self|]. rewrite Hother by done.
    destruct Hn as [->|Hn]; [apply Hpl|]. specialize (Hn q Hq). destruct (phase_of h q); cbn in *; try done; by destruct Hn; (left + (right; by eexists)).
  - intros q q' i. destruct (decide (p = q)) as [<-|Hq], (decide (p = q')) as [<-|Hq']; rewrite ?phase_of_self, ?Hother by done; [done| | |apply H1];
      intros Hi Hj; exfalso; eauto.
  - exact Hfr.
Qed.

Lemma place_listening n ph i : place_ok n ph -> socket_of ph = Some i -> node n = Some (Socket i).
Proof. destruct ph; cbn; naive_solver. Qed.

Lemma happen_ok message busy m h : answering busy h -> host_ok h -> alone h -> host_ok (happen message busy m h).
Proof.
  intros Hb Hh Hal. pose proof Hh as [Hpl H1 Hf].
  assert (forall p ph, place_ok (net h) ph -> (forall i, socket_of ph = Some i -> socket_of (phase_of h p) = Some i) -> host_ok (enter p ph h)) as Henter
    by (intros p ph Hp Hs; apply host_ok_move; auto).
  assert (forall p, amid (phase_of h p) = true \/ is_Some (socket_of (phase_of h p)) ->
    forall q, p <> q -> ~ (amid (phase_of h q) = true \/ is_Some (socket_of (phase_of h q)))) as Hhold by (intros p Hp q Hq Hc; by eapply (holders h p q)).
  destruct m as [p|p|p|p]; cbn [happen].
  - destruct (phase_of h p) eqn:Ep; try done; by apply Henter.
  - pose proof (Hpl p) as Pp. destruct (phase_of h p) eqn:Ep; try done. apply Henter; [done|]. rewrite Ep. done.
  - pose proof (Hpl p) as Pp. pose proof (Hhold p) as Hq. destruct (phase_of h p) as [| | | |i|i|e|i|] eqn:Ep; cbn [phase_step];
      unfold getS, putS, modifyS, mbind, M_bind, mret, M_ret; cbn [fst snd].
    + apply (Henter p Idle); done.
    + apply (Henter p). { destruct (node (net h)) eqn:En; [|done]. rewrite (connects_answered busy _ Hb). destruct (occupied (net h)) eqn:Eo; [done|]. cbn. rewrite En. split; [by eexists|done]. }
      destruct (node (net h)); [by destruct (connects busy (net h))|done].
    + destruct Pp as [[x Hx] Ho]. unfold unlink, getS, putS, mbind, M_bind. rewrite Hx. cbn [fst snd]. apply host_ok_move; try done; [|right; apply Hq; by left].
      cbn. intros i [Hi|?]; [|done]. apply Hf. by left.
    + cbn in Pp. unfold bind, getS, putS, mbind, M_bind. rewrite Pp. cbn [fst snd]. apply host_ok_move; try done; [| | |right; apply Hq; by left].
      * cbn. split; [done|]. intros Hi. specialize (Hf _ (or_introl Hi)). lia.
      * cbn. intros i [= <-]. by right.
      * cbn. intros i [Hi|[= ->]]; [specialize (Hf _ (or_introl Hi)); lia|lia].
    + destruct Pp as [Hn Hi]. unfold listen, modifyS. cbn [fst snd]. apply host_ok_move; try done; [| | |right; apply Hq; by left].
      * cbn. split; [done|set_solver].
      * cbn. intros j [= <-]. left. by rewrite Ep.
      * cbn. intros j [[->%elem_of_singleton|Hj]%elem_of_union|Hj]; apply Hf; auto.
    + apply (Henter p (Serving i)); [done|by rewrite Ep].
    + apply (Henter p (Refused e)); done.
    + destruct Pp as [Hn Hi]. unfold server_close, modifyS. cbn [fst snd]. apply host_ok_move; try done; [| |right; apply Hq; right; by eexists].
      * cbn. rewrite (occupied_node _ i) by done. cbn. apply bool_decide_eq_false_2. set_solver.
      * cbn. intros j [Hj|Hj]; apply Hf; [left; set_solver|by right].
    + unfold _unlink_stale_socket, unlink, getS, putS, mbind, M_bind, mret, M_ret. destruct (node (net h)) as [x|] eqn:En; cbn [fst snd]; rewrite ?En; cbn [fst snd].
      * apply host_ok_move; try done; [|right; apply Hq; by left]. cbn. intros j [Hj|?]; [|done]. apply Hf. by left.
      * by apply (Henter p Idle).
  - destruct (socket_of (phase_of h p)) as [i|] eqn:Es; [|by apply (Henter p Idle)]. unfold server_close, modifyS. cbn [fst snd].
    apply host_ok_move; try done; [|right; apply Hhold; right; by rewrite Es]. cbn. intros j [Hj|Hj]; apply Hf; [left; set_solver|by right].
Qed.

(** ** Whole starts and closes *)

Lemma start_absent message busy n : node n = None ->
  serve message busy None None n
  = (mkNet (Some (Socket (next_inode n))) ({[next_inode n]} ∪ listening n) (S (next_inode n)), Ok (Some (next_inode n))).
Proof. intros Hn. unfold serve, claim_path, UnixHttpServer, bind, listen, liftR, getS, putS, modifyS, mbind, M_bind. rewrite Hn. cbn. by rewrite Hn. Qed.

(** The two ways in which a start ends. *)
Lemma start_cases message busy n : (forall i, i ∈ listening n -> busy i = false) ->
  serve message busy None None n
  = if occupied n then (n, Err (mk_exn (Builtin OSError) message))
    else (mkNet (Some (Socket (next_inode n))) ({[next_inode n]} ∪ listening n) (S (next_inode n)), Ok (Some (next_inode n))).
Proof.
  intros Hb. destruct (node n) as [x|] eqn:Hn; [|unfold occupied, connects; rewrite Hn; by apply start_absent].
  unfold serve, claim_path, getS, mbind, M_bind. cbn [fst snd]. rewrite Hn, connects_answered by done. destruct (occupied n); [done|].
  unfold unlink, UnixHttpServer, bind, listen, liftR, getS, putS, modifyS, mbind, M_bind. rewrite Hn. done.
Qed.

Definition resting (ph : phase) : Prop := match ph with Idle | Refused _ => True | _ => False end.

Lemma whole_start_ends message busy h p : answering busy h -> resting (phase_of h p) ->
  let h' := happens message busy (whole_start p) h in
  if occupied (net h) then net h' = net h /\ phase_of h' p = Refused (mk_exn (Builtin OSError) message)
  else phase_of h' p = Serving (next_inode (net h)) /\ node (net h') = Some (Socket (next_inode (net h))).
Proof.
  intros Hb Hp. cbv zeta. assert (happens message busy (whole_start p) h
    = happens message busy (replicate 4 (MStep p)) (mkHost (net h) (<[p := Checking]> (phases h)))) as ->
    by (unfold happens, whole_start; cbn [foldl happen]; by destruct (phase_of h p)).
  rewrite steps_advance. pose proof (start_is_steps message busy (net h)) as Hs. rewrite (start_cases message busy _ Hb) in Hs.
  destruct (advance_phases message busy 4 Checking (net h)) as [n' ph]. cbn [fst snd net]. rewrite phase_of_self.
  destruct (occupied (net h)); destruct ph; simplify_eq; done.
Qed.

Lemma whole_close_ends message busy h p i : phase_of h p = Serving i -> node (net h) = Some (Socket i) ->
  happens message busy (whole_close p) h = mkHost (mkNet None (listening (net h) ∖ {[i]}) (next_inode (net h))) (<[p := Idle]> (phases h)).
Proof.
  intros Hp Hn. assert (happens message busy (whole_close p) h
    = happens message busy (replicate 2 (MStep p)) (mkHost (net h) (<[p := Closing i]> (phases h)))) as ->
    by (unfold happens, whole_close; cbn [foldl happen]; by rewrite Hp).
  rewrite steps_advance. cbn [advance_phases]. unfold advance_phase. cbn [phase_step]. unfold server_close, _unlink_stale_socket, unlink, getS, putS, modifyS, mbind, M_bind, mret, M_ret.
  cbn [fst snd phase_step node listening next_inode]. by rewrite Hn.
Qed.

(** One move of one process, in any order, such that at most one process has the path in its hands at a time; and the
    probe of a server that listens is answered within its timeout. *)
Definition host_step (message : string) (h h' : Host) : Prop := exists busy m, answering busy h /\ h' = happen message busy m h /\ alone h'.

(** C19: one server on a path, if starts and closes do not overlap. Any number of processes start, close and lose servers on the path of a socket, step by
    step and interleaved, under two conditions that the code does not enforce: no process passes its check of the path, or
    closes its socket, while another is between its check and its listening socket or between closing and unlinking; and
    the probe of a server that listens is answered within its timeout. Then at most one of them serves; it listens on the file that is at the path,
    so a client that connects reaches it; a start while it serves is refused and changes nothing; and once it closed or died the next start serves.
    (What happens otherwise is in [starts_race], [close_races_start] and [busy_server_loses_its_path].) *)
Theorem socket_path_exclusive (message : string) (n : Net) (h : Host) (q i p : nat) (busy : nat -> bool) :
  (forall i, i ∈ listening n \/ node n = Some (Socket i) -> (i < next_inode n)%nat) ->
  rtc (host_step message) (mkHost n ∅) h -> answering busy h -> phase_of h q = Serving i ->
  connects busy (net h) = true /\ node (net h) = Some (Socket i)
  /\ (forall q' j, phase_of h q' = Serving j -> q' = q)
  /\ (resting (phase_of h p) ->
        let h' := happens message busy (whole_start p) h in net h' = net h /\ phase_of h' p = Refused (mk_exn (Builtin OSError) message))
  /\ (resting (phase_of h p) \/ p = q ->
        (exists j, let h' := happens message busy (whole_close q ++ whole_start p) h in phase_of h' p = Serving j /\ node (net h') = Some (Socket j))
        /\ (exists j, let h' := happens message busy (MDie q :: whole_start p) h in phase_of h' p = Serving j /\ node (net h') = Some (Socket j))).
Proof.
  intros Hfresh Hr Hb Hq. assert (host_ok h /\ alone h) as [Hh Hal].
  { apply (rtc_invariant (host_step message) (fun h => host_ok h /\ alone h) (mkHost n ∅)); [|done|split].
    - intros x y [Hok Ha] (b & e & Hx & -> & Hy). split; [by apply happen_ok|done].
    - split; [intros x|intros x y j|exact Hfresh]; unfold phase_of; cbn [phases]; by rewrite lookup_empty.
    - intros x y. unfold phase_of. cbn [phases]. by rewrite lookup_empty. }
  pose proof (ho_place h Hh q) as Hpl. rewrite Hq in Hpl. destruct Hpl as [Hn Hi].
  assert (occupied (net h) = true) as Ho by (rewrite (occupied_node _ i) by done; by apply bool_decide_eq_true_2).
  split_and!; [by rewrite connects_answered|done| | |].
  - intros q' j Hj. destruct (decide (q' = q)) as [|Hne]; [done|]. exfalso.
    eapply (holders h q' q); [done|done|done|right; rewrite Hj; by eexists|right; rewrite Hq; by eexists].
  - intros Hp. pose proof (whole_start_ends message busy h p Hb Hp) as Hs. cbv zeta in Hs. by rewrite Ho in Hs.
  - assert (forall ns, occupied ns = false -> listening ns ⊆ listening (net h) -> resting (phase_of h p) \/ p = q ->
      exists j, let h' := happens message busy (whole_start p) (mkHost ns (<[q := Idle]> (phases h))) in phase_of h' p = Serving j /\ node (net h') = Some (Socket j)) as Hgo.
    { intros ns Hns Hsub Hp. exists (next_inode ns). cbv zeta. assert (resting (phase_of (mkHost ns (<[q := Idle]> (phases h))) p)) as Hrest.
      { rewrite phase_of_insert. destruct (decide (q = p)) as [|Hne]; [done|]. destruct Hp as [Hp| ->]; done. }
      pose proof (whole_start_ends message busy (mkHost ns (<[q := Idle]> (phases h))) p (fun j Hj => Hb j (Hsub j Hj)) Hrest) as Hs. cbv zeta in Hs. cbn [net] in Hs. by rewrite Hns in Hs. }
    intros Hp. split.
    + unfold happens. rewrite foldl_app. fold (happens message busy (whole_close q) h). rewrite (whole_close_ends message busy h q i Hq Hn).
      apply Hgo; [done|apply subseteq_difference_l; reflexivity|done].
    + unfold happens. cbn [foldl happen]. rewrite Hq. cbn [socket_of]. apply Hgo; [|apply subseteq_difference_l; reflexivity|done].
      rewrite (occupied_node _ i) by done. apply bool_decide_eq_false_2. intros [_ Hx]%elem_of_difference. by apply Hx, elem_of_singleton.
Qed.

(** ** Where the check and the act come apart *)

(** Two processes find a stale file, and each unlinks what is there: the second unlinks the socket of the first. Both serve; the first
    is reached by nobody. *)
Example starts_race :
  let h := happens (daemon_message "api.sock") (fun _ => false)
    [MStart 1; MStart 2; MStep 1; MStep 2; MStep 1; MStep 1; MStep 1; MStep 2; MStep 2; MStep 2] (mkHost (mkNet (Some (Socket 0)) ∅ 1) ∅) in
  (phase_of h 1, phase_of h 2, node (net h)) = (Serving 1, Serving 2, Some (Socket 2)).
Proof. vm_compute. reflexivity. Qed.

(** A server closes; before it unlinks its path, another process finds the file stale, takes the path and serves; then the
    first unlinks the socket of the second. The second serves, and is reached by nobody. *)
Example close_races_start :
  let h := happens (daemon_message "api.sock") (fun _ => false)
    (whole_start 1 ++ [MClose 1; MStep 1] ++ whole_start 2 ++ [MStep 1]) (mkHost (mkNet None ∅ 0) ∅) in
  (phase_of h 1, phase_of h 2, node (net h), bool_decide (1%nat ∈ listening (net h))) = (Idle, Serving 1, None, true).
Proof. vm_compute. reflexivity. Qed.

(** A live server whose queue of connections is full answers the probe late: its path is taken from it. *)
Example busy_server_loses_its_path :
  let h := mkHost (mkNet (Some (Socket 0)) {[0%nat]} 1) {[ 1%nat := Serving 0 ]} in
  let h' := happens (daemon_message "api.sock") (fun _ => true) (whole_start 2) h in
  (phase_of h' 1, phase_of h' 2, node (net h')) = (Serving 0, Serving 1, Some (Socket 1)).
Proof. vm_compute. reflexivity. Qed.

Lemma alone_check h p : map_Forall (fun q ph => q = p \/ amid ph = false) (phases h) -> alone h.
Proof.
  intros Hall. assert (forall x, amid (phase_of h x) = true -> x = p) as Hp.
  { unfold phase_of. intros x Hx. destruct (phases h !! x) as [ph|] eqn:E; [|done]. cbn in Hx. destruct (Hall x ph E) as [?|?]; [done|congruence]. }
  intros x y Hx%Hp Hy%Hp. by subst.
Qed.

(** Two starts that interleave without overlapping: the second has begun, and has not looked at the path, when the first serves. *)
Lemma socket_path_exclusive_witness :
  let busy := fun _ : nat => false in
  let h0 := mkHost (mkNet (Some OtherFile) ∅ 0) ∅ in
  let h := happens "m" busy (MStart 2 :: whole_start 1) h0 in
  phase_of h 1 = Serving 0 /\ phase_of h 2 = Checking
  /\ (let h' := happens "m" busy (whole_start 3) h in net h' = net h /\ phase_of h' 3 = Refused (mk_exn (Builtin OSError) "m")).
Proof.
  intros busy h0 h. assert (phase_of h 1 = Serving 0) as H1 by (vm_compute; reflexivity).
  assert (rtc (host_step "m") h0 h) as Hr.
  { unfold h, happens, whole_start. cbn [foldl replicate app].
    do 6 (eapply rtc_r; [|exists busy; eexists; split; [intros ? _; reflexivity|split; [reflexivity|apply (alone_check _ 1);
      apply (bool_decide_unpack _); vm_compute; exact I]]]). apply rtc_refl. }
  split; [exact H1|]. split; [vm_compute; reflexivity|].
  destruct (socket_path_exclusive "m" (mkNet (Some OtherFile) ∅ 0) h 1 0 3 busy) as (_ & _ & _ & H2 & _).
  - intros i [Hi|Hi]; [by apply not_elem_of_empty in Hi|done].
  - exact Hr.
  - intros i _. reflexivity.
  - exact H1.
  - apply H2. exact I.
Defined.
