(* ===== verification/Crc.v ===== *)
(** * CRC-16/CCITT-FALSE (host/src/cs71_protocol/crc.py) *)
From S2P Require Import Prelude PyString Errors.

(** ** The algorithm *)

(** One of the eight shifts of the inner loop. *)
Definition crc_shift (crc : Z) : Z :=
  if Z.land crc 0x8000 =? 0
  then Z.land (Z.shiftl crc 1) 0xFFFF
  else Z.land (Z.lxor (Z.shiftl crc 1) 0x1021) 0xFFFF.

(** The body of the outer loop for one byte. *)
Definition crc_byte (crc byte : Z) : Z :=
  Nat.iter 8 crc_shift (Z.lxor crc (Z.shiftl byte 8)).

Fixpoint crc_go (crc : Z) (data : string) : Z :=
  match data with
  | "" => crc
  | String c data => crc_go (crc_byte crc (code c)) data
  end.

Definition crc16_ccitt_false (data : string) : Z := crc_go 0xFFFF data.

Definition format_crc (data : string) : string := hex4 (crc16_ccitt_false data).

(** [frame.encode("ascii")] fails on a code point above 127. *)
Definition encode_ascii (s : string) : option string :=
  if str_forall is_ascii s then Some s else None.

Definition append_crc (frame : string) : result string :=
  match encode_ascii frame with
  | None => throw (Protocol ParseError) "CRC frame must be ASCII"
  | Some encoded => Ok (frame +:+ "*" +:+ format_crc encoded)
  end.

Definition star : ascii := "*".

Definition remove_and_verify_crc (frame : string) (required : bool) : result string :=
  if negb (str_mem star frame) then
    if required then throw (Protocol CrcError) "CRC required but absent" else Ok frame
  else if negb required then throw (Protocol CrcError) "CRC present while CRC is disabled"
  else
    match str_rpartition star frame with
    | None => throw (Protocol CrcError) "invalid CRC suffix"
    | Some (body, supplied) =>
        if negb (slen supplied =? 4) || str_exists (fun c => negb (is_hex_char c)) supplied
        then throw (Protocol CrcError) "invalid CRC suffix"
        else
          match encode_ascii body with
          | None => throw (Protocol CrcError) "CRC frame must be ASCII"
          | Some encoded =>
              let expected := format_crc encoded in
              if bool_decide (supplied = expected) then Ok body
              else throw (Protocol CrcError)
                     ("bad CRC: expected " +:+ expected +:+ ", got " +:+ supplied)
          end
    end.

(** ** Range *)

Definition word16 (z : Z) : Prop := 0 <= z < 65536.

Lemma land_ffff z : Z.land z 0xFFFF = z mod 65536.
Proof. change 0xFFFF with (Z.ones 16). by rewrite Z.land_ones. Qed.

Lemma word16_mod z : word16 (z mod 65536).
Proof. unfold word16. apply Z.mod_pos_bound. lia. Qed.

Lemma word16_testbit z i : word16 z -> 16 <= i -> Z.testbit z i = false.
Proof.
  intros Hz Hi. rewrite <- (Z.mod_small z (2 ^ 16)) by done.
  by apply Z.mod_pow2_bits_high.
Qed.

Lemma word16_bits z : 0 <= z -> (forall i, 16 <= i -> Z.testbit z i = false) -> word16 z.
Proof.
  intros Hz Hb. assert (z = z mod 65536) as ->; [|apply word16_mod].
  apply Z.bits_inj'. intros i Hi. change 65536 with (2 ^ 16).
  destruct (decide (i < 16)); [by rewrite Z.mod_pow2_bits_low|].
  rewrite Z.mod_pow2_bits_high, Hb by lia. done.
Qed.

Lemma word16_lxor a b : word16 a -> word16 b -> word16 (Z.lxor a b).
Proof.
  intros Ha Hb. apply word16_bits.
  - apply Z.lxor_nonneg. unfold word16 in *. lia.
  - intros i Hi. by rewrite Z.lxor_spec, !word16_testbit.
Qed.

Lemma word16_shift_byte c : word16 (Z.shiftl (code c) 8).
Proof.
  pose proof (code_range c). rewrite Z.shiftl_mul_pow2 by lia. unfold word16. lia.
Qed.

Lemma crc_shift_word16 z : word16 (crc_shift z).
Proof. unfold crc_shift. destruct (_ =? _); rewrite land_ffff; apply word16_mod. Qed.

Lemma crc_iter_word16 n z : word16 z -> word16 (Nat.iter n crc_shift z).
Proof. destruct n; [done|]. intros _. apply crc_shift_word16. Qed.

Lemma crc_byte_word16 z b : word16 (crc_byte z b).
Proof. apply crc_shift_word16. Qed.

Lemma crc_go_word16 z s : word16 z -> word16 (crc_go z s).
Proof. revert z. induction s; intros z Hz; simpl; [done|]. apply IHs, crc_byte_word16. Qed.

Lemma crc16_word16 s : word16 (crc16_ccitt_false s).
Proof. by apply crc_go_word16. Qed.

(** ** Injectivity of the register update *)

Lemma crc_top_bit z : (Z.land z 0x8000 =? 0) = negb (Z.testbit z 15).
Proof.
  destruct (Z.testbit z 15) eqn:E; simpl.
  - apply Z.eqb_neq. intros H. apply (f_equal (fun y => Z.testbit y 15)) in H.
    by rewrite Z.land_spec, E in H.
  - apply Z.eqb_eq, Z.bits_inj'. intros i Hi. rewrite Z.land_spec, Z.bits_0.
    change 0x8000 with (2 ^ 15). rewrite Z.pow2_bits_eqb by lia.
    destruct (Z.eqb_spec 15 i) as [<-|]; [by rewrite E|apply andb_false_r].
Qed.

Lemma crc_shift_bit z i : 0 <= i < 16 ->
  Z.testbit (crc_shift z) i = xorb (Z.testbit z (i - 1)) (Z.testbit z 15 && Z.testbit 0x1021 i).
Proof.
  intros Hi. unfold crc_shift. rewrite crc_top_bit, !land_ffff. change 65536 with (2 ^ 16).
  destruct (Z.testbit z 15); simpl; rewrite Z.mod_pow2_bits_low by lia.
  - rewrite Z.lxor_spec, Z.shiftl_spec by lia. done.
  - rewrite Z.shiftl_spec by lia. by rewrite xorb_false_r.
Qed.

Lemma crc_shift_inj a b : word16 a -> word16 b -> crc_shift a = crc_shift b -> a = b.
Proof.
  intros Ha Hb H.
  assert (forall i, 0 <= i < 16 -> Z.testbit (crc_shift a) i = Z.testbit (crc_shift b) i) as Hi
    by (by rewrite H).
  assert (Z.testbit a 15 = Z.testbit b 15) as H15.
  { specialize (Hi 0 ltac:(lia)). rewrite !crc_shift_bit in Hi by lia.
    rewrite !Z.testbit_neg_r in Hi by lia. by rewrite !andb_true_r in Hi. }
  apply Z.bits_inj'. intros i Hi0. destruct (decide (i < 15)) as [Hlt|].
  - specialize (Hi (i + 1) ltac:(lia)). rewrite !crc_shift_bit, H15 in Hi by lia.
    replace (i + 1 - 1) with i in Hi by lia.
    by destruct (Z.testbit a i), (Z.testbit b i), (Z.testbit b 15 && _).
  - destruct (decide (i = 15)) as [->|]; [done|]. by rewrite !word16_testbit by (done || lia).
Qed.

Lemma crc_iter_inj n a b :
  word16 a -> word16 b -> Nat.iter n crc_shift a = Nat.iter n crc_shift b -> a = b.
Proof.
  intros Ha Hb. induction n as [|n IH]; [done|]. simpl. intros H.
  apply IH. apply crc_shift_inj in H; [done|by apply crc_iter_word16..].
Qed.

Lemma lxor_inj_r a b c : Z.lxor a c = Z.lxor b c -> a = b.
Proof.
  intros H. rewrite <- (Z.lxor_0_r a), <- (Z.lxor_0_r b), <- (Z.lxor_nilpotent c).
  by rewrite <- !Z.lxor_assoc, H.
Qed.

Lemma crc_byte_inj_crc a b c :
  word16 a -> word16 b -> crc_byte a (code c) = crc_byte b (code c) -> a = b.
Proof.
  intros Ha Hb H. pose proof (word16_shift_byte c).
  apply crc_iter_inj in H; [by apply lxor_inj_r in H|by apply word16_lxor..].
Qed.

Lemma crc_byte_inj_byte a c d :
  word16 a -> crc_byte a (code c) = crc_byte a (code d) -> c = d.
Proof.
  intros Ha H. apply crc_iter_inj in H; [|apply word16_lxor; auto using word16_shift_byte..].
  rewrite (Z.lxor_comm a), (Z.lxor_comm a) in H. apply lxor_inj_r in H.
  apply code_inj. rewrite !Z.shiftl_mul_pow2 in H by lia. lia.
Qed.

Lemma crc_go_inj a b s : word16 a -> word16 b -> crc_go a s = crc_go b s -> a = b.
Proof.
  revert a b. induction s as [|c s IH]; intros a b Ha Hb H; [done|]. simpl in H.
  apply IH in H; [|apply crc_byte_word16..]. by apply crc_byte_inj_crc in H.
Qed.

Lemma crc_go_app z a b : crc_go z (a +:+ b) = crc_go (crc_go z a) b.
Proof. revert z. induction a as [|c a IH]; intros z; [done|]. rewrite str_app_cons. apply IH. Qed.

Lemma crc16_single_byte p c d s :
  crc16_ccitt_false (p +:+ String c s) = crc16_ccitt_false (p +:+ String d s) -> c = d.
Proof.
  unfold crc16_ccitt_false. rewrite !crc_go_app. simpl. intros H.
  apply crc_go_inj in H; [|apply crc_byte_word16..].
  apply crc_byte_inj_byte in H; [done|by apply crc_go_word16].
Qed.

Lemma crc_changes p c d s : c <> d ->
  format_crc (p +:+ String c s) <> format_crc (p +:+ String d s).
Proof.
  intros Hne H. apply Hne, (crc16_single_byte p c d s).
  by apply hex4_inj in H; [|apply crc16_word16..].
Qed.

(** ** Appending and verifying *)

Lemma format_crc_hex s : str_forall is_hex_char (format_crc s) = true.
Proof. apply hex4_hex. Qed.

Lemma format_crc_no_star s : str_mem star (format_crc s) = false.
Proof. eapply str_mem_forall; [apply format_crc_hex|done]. Qed.

Lemma str_exists_neg f s : str_exists (fun c => negb (f c)) s = negb (str_forall f s).
Proof.
  unfold str_exists. f_equal. induction s; simpl; [done|]. by rewrite negb_involutive, IHs.
Qed.

(** A frame that carries a CRC suffix: the verdict depends only on its body
    being ASCII and on the CRC of that body. *)
Lemma verify_suffixed body supplied :
  slen supplied = 4 -> str_forall is_hex_char supplied = true ->
  remove_and_verify_crc (body +:+ "*" +:+ supplied) true =
    match encode_ascii body with
    | None => throw (Protocol CrcError) "CRC frame must be ASCII"
    | Some _ =>
        if bool_decide (supplied = format_crc body) then Ok body
        else throw (Protocol CrcError)
               ("bad CRC: expected " +:+ format_crc body +:+ ", got " +:+ supplied)
    end.
Proof.
  intros Hlen Hhex. unfold remove_and_verify_crc.
  change ("*" +:+ supplied) with (String star supplied).
  rewrite str_mem_app, str_mem_cons, Ascii.eqb_refl, orb_true_r. simpl negb. cbv iota.
  rewrite (proj2 (str_rpartition_spec star _ body supplied));
    [|split; [done|by eapply str_mem_forall]].
  rewrite Hlen, str_exists_neg, Hhex. simpl. unfold encode_ascii.
  by destruct (str_forall is_ascii body).
Qed.

Lemma append_verify frame protected :
  append_crc frame = Ok protected -> remove_and_verify_crc protected true = Ok frame.
Proof.
  unfold append_crc. destruct (encode_ascii frame) as [enc|] eqn:E; [|done].
  intros [= <-]. rewrite verify_suffixed by (done || apply format_crc_hex).
  rewrite E. unfold encode_ascii in E. destruct (str_forall is_ascii frame); [|done].
  injection E as <-. by rewrite bool_decide_true.
Qed.

Lemma verify_append protected frame :
  remove_and_verify_crc protected true = Ok frame -> append_crc frame = Ok protected.
Proof.
  unfold remove_and_verify_crc, append_crc. destruct (str_mem star protected) eqn:Hm; [|done].
  simpl. destruct (str_rpartition star protected) as [[body supplied]|] eqn:E; [|done].
  apply str_rpartition_spec in E as [-> _]. destruct (_ || _); [done|].
  destruct (encode_ascii body) as [enc|] eqn:Eb; [|done].
  case_bool_decide as Hs; [|done]. intros [= <-]. by rewrite Eb, Hs.
Qed.

(** ** Properties *)

(** Verification is the exact inverse of [append_crc]: a protected frame is
    accepted, with a given body, precisely when it is what appending the CRC to
    that body produces. *)
Theorem crc_roundtrip (frame protected : string) :
  remove_and_verify_crc protected true = Ok frame <-> append_crc frame = Ok protected.
Proof. split; [apply verify_append|apply append_verify]. Qed.

(** C33: changing any one character of a protected body, to any other
    character, is detected: the frame is refused with a [CrcError]. *)
Theorem crc_detects_corruption (p s : string) (c d : ascii) :
  c <> d ->
  exists e,
    remove_and_verify_crc (p +:+ String d s +:+ "*" +:+ format_crc (p +:+ String c s)) true = Err e
    /\ isinstance e (Protocol CrcError) = true.
Proof.
  intros Hne.
  replace (p +:+ String d s +:+ "*" +:+ format_crc (p +:+ String c s))
    with ((p +:+ String d s) +:+ "*" +:+ format_crc (p +:+ String c s))
    by (by rewrite <- str_app_assoc).
  rewrite verify_suffixed by (done || apply format_crc_hex).
  destruct (encode_ascii _); [|by eexists].
  rewrite bool_decide_false by (by apply crc_changes). by eexists.
Qed.

Lemma crc_detects_corruption_witness :
  exists e, remove_and_verify_crc ("@1 d" +:+ String "x" "ne" +:+ "*" +:+ format_crc "@1 done") true = Err e
    /\ isinstance e (Protocol CrcError) = true.
Proof. apply (crc_detects_corruption "@1 d" "ne" "o" "x"). discriminate. Defined.

(** The published check value of CRC-16/CCITT-FALSE. *)
Example crc_check_value : crc16_ccitt_false "123456789" = 0x29B1.
Proof. reflexivity. Qed.
