(* ===== verification/Models.v ===== *)
(** * Typed protocol values (host/src/cs71_protocol/models.py) *)
From S2P Require Import Prelude PyString Errors.

(** A [Mapping[str, str]]: field order is never observed by the sources. *)
Abbreviation fields := (gmap string string).

(** ** Scalars *)

(** The regular expression [_UINT] under [fullmatch]: a lone zero, or a
    non-empty run of digits that does not start with a zero. *)
Definition uint_syntax (value : string) : bool :=
  match value with
  | "" => false
  | String c rest =>
      (Ascii.eqb c "0" && bool_decide (rest = "")) ||
      (is_digit c && negb (Ascii.eqb c "0") && str_forall is_digit rest)
  end.

Definition uint (value name : string) (minimum : Z) (maximum : option Z) : result Z :=
  if negb (uint_syntax value)
  then throw (Protocol ParseError) (name +:+ " must be an unsigned decimal integer")
  else
    let r := int_of_digits value in
    if (r <? minimum) || match maximum with Some m => m <? r | None => false end
    then throw (Protocol ParseError) (name +:+ " is out of range")
    else Ok r.

Definition bit (value name : string) : result bool :=
  if negb (bool_decide (value = "0") || bool_decide (value = "1"))
  then throw (Protocol ParseError) (name +:+ " must be 0 or 1")
  else Ok (bool_decide (value = "1")).

(** ** Enumerations and frames *)

Inductive SessionMode := UNCERTAIN | V1 | V2.
Inductive ResponseKind := ACCEPTED | PROGRESS | DATA | DONE | ERROR.
Inductive EventKind := STATE | FAULT | REJECT.

#[export] Instance SessionMode_eq_dec : EqDecision SessionMode.
Proof. solve_decision. Defined.
#[export] Instance ResponseKind_eq_dec : EqDecision ResponseKind.
Proof. solve_decision. Defined.
#[export] Instance EventKind_eq_dec : EqDecision EventKind.
Proof. solve_decision. Defined.

Record Response := mkResponse {
  request_id : Z;
  kind : ResponseKind;
  r_fields : fields;
  r_code : option Z;
  r_name : option string;
}.

Definition terminal (r : Response) : bool :=
  match kind r with DONE | ERROR => true | _ => false end.

Record Event := mkEvent {
  sequence : Z;
  e_kind : EventKind;
  e_fields : fields;
  e_code : option Z;
  e_name : option string;
}.

#[export] Instance Response_eq_dec : EqDecision Response.
Proof. solve_decision. Defined.
#[export] Instance Event_eq_dec : EqDecision Event.
Proof. solve_decision. Defined.

Record Fault := mkFault {
  f_code : Z;
  f_name : string;
  f_fields : fields;
}.

Definition Fault_from_response (r : Response) : result Fault :=
  match kind r, r_code r, r_name r with
  | ERROR, Some c, Some n => Ok (mkFault c n (r_fields r))
  | _, _, _ => throw (Protocol ParseError) "response is not a fault/error"
  end.

Definition Fault_from_event (e : Event) : result Fault :=
  match e_kind e, e_code e, e_name e with
  | FAULT, Some c, Some n => Ok (mkFault c n (e_fields e))
  | _, _, _ => throw (Protocol ParseError) "event is not a fault"
  end.

Record Completion := mkCompletion {
  c_request_id : Z;
  succeeded : bool;
  c_fields : fields;
  responses : list Response;
  c_error : option Fault;
}.

(** [self.responses[-1]] raises [IndexError] on an empty tuple; [request] never
    builds one, and the lookup is kept explicit here. *)
Definition terminal_response (c : Completion) : result Response :=
  match last (responses c) with
  | None => throw (Builtin IndexError) "tuple index out of range"
  | Some r =>
      if negb (terminal r)
      then throw (Protocol ParseError) "completion does not end in a terminal response"
      else Ok r
  end.

Definition terminal_fields (c : Completion) : result fields :=
  r ← terminal_response c; mret (r_fields r).

(** ** Snapshots parsed from fields *)

(** [fields[key]] *)
Definition get_field (f : fields) (k : string) : result string :=
  match f !! k with
  | Some v => Ok v
  | None => throw (Builtin KeyError) k
  end.

Definition missing_of (required : list string) (f : fields) : list string :=
  filter (fun k => f !! k = None) required.

Definition require_fields (what : string) (required : list string) (f : fields) : result unit :=
  let missing := missing_of required f in
  raise_if (negb (bool_decide (missing = [])))
    (mk_exn (Protocol ParseError)
       (what +:+ " missing required fields: " +:+ str_join ", " (str_sorted missing))).

(** [{key: value for key, value in fields.items() if key not in required}] *)
Definition extras_of (required : list string) (f : fields) : fields :=
  filter (fun kv => kv.1 ∉ required) f.

Record Status := mkStatus {
  mode : string;
  phase : string;
  feed_homed : bool;
  sort_homed : bool;
  motor_enabled : bool;
  active_id : option Z;
  fault_code : Z;
  queue_previous : Z;
  queue_next : Z;
  config_generation : Z;
  st_extras : fields;
}.

Definition status_required : list string :=
  ["mode"; "phase"; "feed_homed"; "sort_homed"; "motor_enabled"; "active_id";
   "fault_code"; "queue_previous"; "queue_next"; "config_generation"].
Definition status_modes : list string := ["running"; "recovering"; "stopped"].
Definition status_phases : list string :=
  ["idle"; "feed_wait"; "feed_move"; "feed_home"; "sort_move"; "sort_home";
   "settling"; "airdrop"; "diagnostic"].

Definition get_uint (f : fields) (k : string) (minimum : Z) : result Z :=
  v ← get_field f k; uint v k minimum None.
Definition get_bit (f : fields) (k : string) : result bool :=
  v ← get_field f k; bit v k.

Definition Status_from_fields (f : fields) : result Status :=
  _ ← require_fields "status" status_required f;
  m ← get_field f "mode";
  _ ← raise_if (negb (bool_decide (m ∈ status_modes)))
        (mk_exn (Protocol ParseError) "invalid status mode");
  p ← get_field f "phase";
  _ ← raise_if (negb (bool_decide (p ∈ status_phases)))
        (mk_exn (Protocol ParseError) "invalid status phase");
  a ← get_field f "active_id";
  active ← (if bool_decide (a = "none") then Ok None
            else n ← uint a "active_id" 0 (Some 65535); mret (Some n));
  fh ← get_bit f "feed_homed";
  sh ← get_bit f "sort_homed";
  me ← get_bit f "motor_enabled";
  fc ← get_uint f "fault_code" 0;
  qp ← get_uint f "queue_previous" 0;
  qn ← get_uint f "queue_next" 0;
  cg ← get_uint f "config_generation" 0;
  mret (mkStatus m p fh sh me active fc qp qn cg (extras_of status_required f)).

Record Capabilities := mkCapabilities {
  protocol : Z;
  max_line : Z;
  crc : string;
  queue_depth : Z;
  slot_max : Z;
  slot_count : Z;
  pwm : bool;
  airdrop : bool;
  feed_sensor : bool;
  feed_home : bool;
  sort_home : bool;
  cap_extras : fields;
}.

Definition capabilities_required : list string :=
  ["protocol"; "max_line"; "crc"; "queue_depth"; "slot_max"; "slot_count"; "pwm";
   "airdrop"; "feed_sensor"; "feed_home"; "sort_home"].

Definition Capabilities_from_fields (f : fields) : result Capabilities :=
  _ ← require_fields "capabilities" capabilities_required f;
  pr ← get_uint f "protocol" 0;
  bad ← (if negb (pr =? 2) then Ok true
         else ml ← get_uint f "max_line" 0;
              if negb (ml =? 64) then Ok true
              else c ← get_field f "crc"; mret (negb (bool_decide (c ∈ ["none"; "optional"]))));
  _ ← raise_if bad (mk_exn (Protocol ParseError) "invalid required capability value");
  c ← get_field f "crc";
  qd ← get_uint f "queue_depth" 1;
  sm ← get_uint f "slot_max" 0;
  sc ← get_uint f "slot_count" 0;
  pw ← get_bit f "pwm";
  ad ← get_bit f "airdrop";
  fs ← get_bit f "feed_sensor";
  fh ← get_bit f "feed_home";
  sh ← get_bit f "sort_home";
  mret (mkCapabilities pr 64 c qd sm sc pw ad fs fh sh (extras_of capabilities_required f)).

Record QueueSnapshot := mkQueueSnapshot {
  q_depth : Z;
  q_previous : Z;
  q_next : Z;
  q_extras : fields;
}.

Definition queue_required : list string := ["queue_depth"; "queue_previous"; "queue_next"].

Definition QueueSnapshot_from_fields (f : fields) : result QueueSnapshot :=
  _ ← require_fields "queue" queue_required f;
  d ← get_uint f "queue_depth" 1;
  p ← get_uint f "queue_previous" 0;
  n ← get_uint f "queue_next" 0;
  mret (mkQueueSnapshot d p n (extras_of queue_required f)).

(** ** Scalars: the decimal grammar *)

Lemma digit_char c : is_digit c = true -> pretty_N_char (Z.to_N (code c - 0x30)) = c.
Proof.
  intros H. apply code_inj. unfold is_digit in H. bool_inv.
  rewrite digit_char_code by lia. lia.
Qed.

Lemma pretty_dec_go acc s t : 0 < acc -> str_forall is_digit s = true ->
  pretty_N_go (Z.to_N (dec_go acc s)) t = pretty_N_go (Z.to_N acc) (s +:+ t).
Proof.
  revert acc. induction s as [|c s IH]; intros acc Hacc Hs; [done|].
  simpl in Hs |- *. bool_inv. pose proof (digit_char c H) as Hc.
  unfold is_digit in H. bool_inv. rewrite IH by (done || lia).
  rewrite pretty_N_go_step by lia.
  replace (Z.to_N (10 * acc + (code c - 48))) with (Z.to_N acc * 10 + Z.to_N (code c - 48))%N by lia.
  rewrite N.div_add_l, N.div_small, N.add_0_r by lia.
  rewrite (N.add_comm (_ * _)), N.Div0.mod_add, N.mod_small by lia. by rewrite Hc.
Qed.

Lemma uint_syntax_canonical v : uint_syntax v = true -> str_of_Z (int_of_digits v) = v /\ 0 <= int_of_digits v.
Proof.
  destruct v as [|c rest]; [done|]. simpl. rewrite orb_true_iff. intros [H|H]; bool_inv.
  - destruct (Ascii.eqb_spec c "0") as [->|]; [|done]. by subst.
  - destruct (Ascii.eqb_spec c "0") as [->|Hc]; [done|]. pose proof (digit_char c H) as Hdc.
    assert (0 < code c - 48) as Hpos.
    { unfold is_digit in H. bool_inv. assert (code c <> 48); [|lia].
      intros E. apply Hc, code_inj. by rewrite E. }
    unfold int_of_digits. simpl. replace (10 * 0 + (code c - 48)) with (code c - 48) by lia.
    pose proof (pretty_dec_go (code c - 48) rest "" Hpos H0) as E.
    assert (0 < dec_go (code c - 48) rest) as Hd.
    { clear -Hpos H0. revert H0 Hpos. generalize (code c - 48). induction rest as [|x r IH]; intros z H Hz; [done|].
      simpl in H |- *. bool_inv. apply IH; [done|]. unfold is_digit in H. bool_inv. lia. }
    split; [|lia]. rewrite str_of_Z_pos, decide_False by lia. rewrite E, str_app_nil_r.
    rewrite pretty_N_go_step by lia. unfold is_digit in H. bool_inv.
    rewrite N.div_small, N.mod_small, pretty_N_go_0 by lia. by rewrite Hdc.
Qed.

Lemma uint_syntax_str n : 0 <= n -> uint_syntax (str_of_Z n) = true.
Proof.
  intros Hn. destruct (decide (n = 0)) as [->|]; [done|].
  pose proof (digits_str_of_Z n Hn) as Hd.
  destruct (str_of_Z_head n) as (c & r & E & Hc); [lia|]. rewrite E in Hd |- *.
  simpl in Hd |- *. bool_inv. rewrite H, H0. destruct (Ascii.eqb_spec c "0") as [->|].
  - change (code "0") with 48 in Hc. lia.
  - by rewrite orb_true_r.
Qed.

Lemma uint_ok v name lo hi n :
  uint v name lo hi = Ok n <->
  v = str_of_Z n /\ 0 <= n /\ lo <= n /\ match hi with Some m => n <= m | None => True end.
Proof.
  unfold uint. split.
  - destruct (uint_syntax v) eqn:E; [|done]. simpl. destruct (_ || _) eqn:Eb; [done|].
    intros [= <-]. apply uint_syntax_canonical in E as [-> E]. bool_inv.
    split_and!; [done|done|done|]. destruct hi; bool_inv; done.
  - intros (-> & Hn & Hlo & Hhi). rewrite uint_syntax_str, int_of_str by done. simpl.
    replace (n <? lo) with false by (symmetry; by apply Z.ltb_ge). simpl.
    destruct hi as [m|]; [|done]. by replace (m <? n) with false by (symmetry; by apply Z.ltb_ge).
Qed.

Lemma bit_ok v name b : bit v name = Ok b <-> v = if b then "1" else "0".
Proof.
  unfold bit. split.
  - destruct (decide (v = "1")) as [->|H1]; [by intros [= <-]|].
    destruct (decide (v = "0")) as [->|H0]; [by intros [= <-]|].
    rewrite !bool_decide_false by done. done.
  - intros ->. by destruct b.
Qed.

(** ** Every rejection is a [ParseError] *)

Definition parse_fail_only {A} (r : result A) : Prop :=
  match r with
  | Ok _ => True
  | Err e => isinstance e (Protocol ParseError) = true
  | OutOfFuel => False
  end.

Lemma pf_ok {A} (a : A) : parse_fail_only (Ok a).
Proof. done. Qed.
Lemma pf_ret {A} (a : A) : parse_fail_only (mret a).
Proof. done. Qed.
Lemma pf_bind {A B} (m : result A) (f : A -> result B) :
  parse_fail_only m -> (forall a, m = Ok a -> parse_fail_only (f a)) -> parse_fail_only (m ≫= f).
Proof. destruct m; simpl; auto. Qed.
Lemma pf_raise_if b msg : parse_fail_only (raise_if b (mk_exn (Protocol ParseError) msg)).
Proof. by destruct b. Qed.
Lemma pf_uint v name lo hi : parse_fail_only (uint v name lo hi).
Proof. unfold uint. destruct (negb _); [done|]. by destruct (_ || _). Qed.
Lemma pf_bit v name : parse_fail_only (bit v name).
Proof. unfold bit. by destruct (negb _). Qed.

Lemma require_fields_ok what req f u :
  require_fields what req f = Ok u -> forall k, k ∈ req -> is_Some (f !! k).
Proof.
  unfold require_fields. intros H. res_inv. bool_inv. intros k Hk.
  destruct (f !! k) as [v|] eqn:E; [by eexists|]. exfalso.
  assert (k ∈ missing_of req f) as Hm by (by apply list_elem_of_filter). rewrite H in Hm.
  by apply not_elem_of_nil in Hm.
Qed.

Lemma pf_get_field f k : is_Some (f !! k) -> parse_fail_only (get_field f k).
Proof. intros [v Hv]. unfold get_field. by rewrite Hv. Qed.

#[export] Hint Resolve pf_ok pf_ret pf_raise_if pf_uint pf_bit pf_get_field : cs71.

(** Walks a parser built from [bind], closing each leaf from [cs71]. *)
Ltac pf_step Hreq :=
  match goal with
  | |- parse_fail_only (_ ≫= _) => apply pf_bind; [|intros]
  | |- parse_fail_only (if ?b then _ else _) => destruct b
  | |- parse_fail_only (get_uint _ _ _) => unfold get_uint
  | |- parse_fail_only (get_bit _ _) => unfold get_bit
  | |- parse_fail_only (get_field _ _) => apply pf_get_field, Hreq; set_solver
  | |- parse_fail_only _ => solve [eauto with cs71]
  end.

Lemma pf_status f : parse_fail_only (Status_from_fields f).
Proof.
  unfold Status_from_fields. apply pf_bind; [apply pf_raise_if|intros u Hu].
  pose proof (require_fields_ok _ _ _ _ Hu) as Hreq. unfold status_required in Hreq.
  repeat pf_step Hreq.
Qed.

Lemma pf_capabilities f : parse_fail_only (Capabilities_from_fields f).
Proof.
  unfold Capabilities_from_fields. apply pf_bind; [apply pf_raise_if|intros u Hu].
  pose proof (require_fields_ok _ _ _ _ Hu) as Hreq. unfold capabilities_required in Hreq.
  repeat pf_step Hreq.
Qed.

Lemma pf_queue f : parse_fail_only (QueueSnapshot_from_fields f).
Proof.
  unfold QueueSnapshot_from_fields. apply pf_bind; [apply pf_raise_if|intros u Hu].
  pose proof (require_fields_ok _ _ _ _ Hu) as Hreq. unfold queue_required in Hreq.
  repeat pf_step Hreq.
Qed.

(** ** Status: printing specification and round trip *)

Definition str_of_bit (b : bool) : string := if b then "1" else "0".

(** The fields a controller in state [st] reports. *)
Definition status_pairs (st : Status) : list (string * string) :=
  [("mode", mode st); ("phase", phase st); ("feed_homed", str_of_bit (feed_homed st));
   ("sort_homed", str_of_bit (sort_homed st)); ("motor_enabled", str_of_bit (motor_enabled st));
   ("active_id", match active_id st with None => "none" | Some n => str_of_Z n end);
   ("fault_code", str_of_Z (fault_code st)); ("queue_previous", str_of_Z (queue_previous st));
   ("queue_next", str_of_Z (queue_next st));
   ("config_generation", str_of_Z (config_generation st))].

Definition status_to_fields (st : Status) : fields :=
  list_to_map (status_pairs st) ∪ st_extras st.

Record status_wf (st : Status) : Prop := {
  wf_mode : mode st ∈ status_modes;
  wf_phase : phase st ∈ status_phases;
  wf_active : match active_id st with None => True | Some n => 0 <= n <= 65535 end;
  wf_fault : 0 <= fault_code st;
  wf_prev : 0 <= queue_previous st;
  wf_next : 0 <= queue_next st;
  wf_gen : 0 <= config_generation st;
  wf_extras : forall k, k ∈ status_required -> st_extras st !! k = None;
}.

Lemma status_pairs_none st k : k ∉ status_required ->
  (list_to_map (status_pairs st) : fields) !! k = None.
Proof.
  intros Hk. apply not_elem_of_list_to_map_1. by change (status_pairs st).*1 with status_required.
Qed.

Lemma status_get st k v :
  (list_to_map (status_pairs st) : fields) !! k = Some v -> get_field (status_to_fields st) k = Ok v.
Proof. intros H. unfold get_field, status_to_fields. by rewrite (lookup_union_Some_l _ _ _ _ H). Qed.

Lemma status_lookup_required st k : k ∈ status_required ->
  is_Some ((list_to_map (status_pairs st) : fields) !! k).
Proof.
  intros Hk. unfold status_required in Hk.
  repeat (apply elem_of_cons in Hk as [->|Hk]; [by eexists|]). by apply not_elem_of_nil in Hk.
Qed.

Lemma status_extras st : status_wf st -> extras_of status_required (status_to_fields st) = st_extras st.
Proof.
  intros Hwf. apply map_eq. intros k. unfold extras_of, status_to_fields.
  destruct (decide (k ∈ status_required)) as [Hk|Hk].
  - rewrite (wf_extras st Hwf k Hk). apply map_lookup_filter_None. right. naive_solver.
  - rewrite map_lookup_filter, lookup_union_r by (by apply status_pairs_none).
    destruct (st_extras st !! k) as [v|]; [|done]. simpl. by rewrite option_guard_True.
Qed.

Lemma bit_str b name : bit (str_of_bit b) name = Ok b.
Proof. by destruct b. Qed.

Lemma uint_str n name lo : 0 <= n -> lo <= n -> uint (str_of_Z n) name lo None = Ok n.
Proof. intros. by apply uint_ok. Qed.

Lemma require_fields_all what req f :
  (forall k, k ∈ req -> is_Some (f !! k)) -> require_fields what req f = Ok tt.
Proof.
  intros H. unfold require_fields, raise_if, missing_of.
  rewrite bool_decide_true; [done|]. induction req as [|k req IH]; [done|].
  rewrite filter_cons_False; [apply IH; set_solver|].
  destruct (H k) as [v ->]; [set_solver|done].
Qed.

Lemma status_print_parse st : status_wf st -> Status_from_fields (status_to_fields st) = Ok st.
Proof.
  intros Hwf. unfold Status_from_fields. rewrite require_fields_all.
  2:{ intros k Hk. unfold status_to_fields. destruct (status_lookup_required st k Hk) as [v Hv].
      by rewrite (lookup_union_Some_l _ _ _ _ Hv). }
  rewrite status_extras by done. unfold get_uint, get_bit, mbind, res_bind.
  rewrite (status_get st "mode" (mode st) eq_refl), (status_get st "phase" (phase st) eq_refl).
  rewrite !bool_decide_true by (apply Hwf).
  rewrite (status_get st "active_id" (match active_id st with None => "none" | Some n => str_of_Z n end) eq_refl), (status_get st "feed_homed" (str_of_bit (feed_homed st)) eq_refl),
    (status_get st "sort_homed" (str_of_bit (sort_homed st)) eq_refl), (status_get st "motor_enabled" (str_of_bit (motor_enabled st)) eq_refl),
    (status_get st "fault_code" (str_of_Z (fault_code st)) eq_refl), (status_get st "queue_previous" (str_of_Z (queue_previous st)) eq_refl),
    (status_get st "queue_next" (str_of_Z (queue_next st)) eq_refl), (status_get st "config_generation" (str_of_Z (config_generation st)) eq_refl).
  rewrite !bit_str.
  rewrite !uint_str by (try apply Hwf; done). simpl.
  destruct st as [m p fh sh me [a|] fc qp qn cg ex]; simpl; [|done].
  destruct Hwf as [_ _ Ha _ _ _ _ _]; simpl in Ha.
  rewrite bool_decide_false.
  - assert (uint (str_of_Z a) "active_id" 0 (Some 65535) = Ok a) as -> by
      (apply uint_ok; split_and!; [done|lia..]). done.
  - intros E. pose proof (digits_str_of_Z a ltac:(lia)) as Hd. by rewrite E in Hd.
Qed.

(** A status is the faithful image of what the controller printed: printing
    any well-formed status as fields (required fields plus unknown extras) and
    parsing them gives that status back. *)
Theorem status_roundtrip (st : Status) :
  status_wf st -> Status_from_fields (status_to_fields st) = Ok st.
Proof. apply status_print_parse. Qed.

Definition sample_status : Status :=
  mkStatus "running" "sort_move" true true false (Some 7) 0 3 3 12 {["vendor" := "x"]}.

Lemma status_roundtrip_witness :
  Status_from_fields (status_to_fields sample_status) = Ok sample_status.
Proof.
  apply (status_roundtrip sample_status). constructor; try (simpl; lia).
  - by apply (bool_decide_unpack _).
  - by apply (bool_decide_unpack _).
  - intros k Hk. unfold status_required in Hk.
    repeat (apply elem_of_cons in Hk as [->|Hk]; [done|]). by apply not_elem_of_nil in Hk.
Defined.

(** Whatever fields a controller sends, the three snapshot parsers either
    accept them or raise [ParseError]: no [KeyError] or other exception leaks
    out of a malformed report. *)
Theorem snapshots_fail_only_with_parse_error (f : fields) :
  parse_fail_only (Status_from_fields f) /\ parse_fail_only (Capabilities_from_fields f)
  /\ parse_fail_only (QueueSnapshot_from_fields f).
Proof. split_and!; [apply pf_status|apply pf_capabilities|apply pf_queue]. Qed.
