(* ===== verification/Parsing.v ===== *)
(** * Strict v2 parsers and formatters (host/src/cs71_protocol/parsing.py) *)
From S2P Require Import Prelude PyString Errors Crc Models.

Definition colon : ascii := ":".
Definition space : ascii := " ".
Definition equals : ascii := "=".

(** ** Discovery *)

Inductive DiscoveryReply := AVAILABLE | LEGACY.

#[export] Instance DiscoveryReply_eq_dec : EqDecision DiscoveryReply.
Proof. solve_decision. Defined.

Definition classify_discovery (line : string) : result DiscoveryReply :=
  if bool_decide (line = "protocol:2 available") then Ok AVAILABLE
  else if bool_decide (line = "ok") then Ok LEGACY
  else throw (Protocol ParseError) ("unsafe discovery response: " +:+ str_repr line).

(** ** Fields *)

(** The regular expression [_NAME] under [fullmatch]. *)
Definition name_syntax (s : string) : bool :=
  match s with
  | "" => false
  | String c rest =>
      is_alpha c && str_forall (fun c => is_alpha c || is_digit c || Ascii.eqb c "_") rest
  end.

Fixpoint parse_tokens (acc : fields) (tokens : list string) : result fields :=
  match tokens with
  | [] => Ok acc
  | token :: rest =>
      if negb (str_count equals token =? 1)%nat
      then throw (Protocol ParseError) "expected key=value fields"
      else
        match str_partition equals token with
        | None => throw (Protocol ParseError) "expected key=value fields"
        | Some (key, value) =>
            if negb (name_syntax key) || bool_decide (value = "") || str_exists is_space value
            then throw (Protocol ParseError) "invalid key=value field"
            else if bool_decide (is_Some (acc !! key))
            then throw (Protocol ParseError) ("duplicate field " +:+ key)
            else parse_tokens (<[key := value]> acc) rest
        end
  end.

Definition parse_fields (text : string) : result fields :=
  if bool_decide (text = "") then Ok ∅ else parse_tokens ∅ (str_split space text).

Definition _nonempty_fields (text : string) : result fields :=
  if bool_decide (text = "")
  then throw (Protocol ParseError) "expected non-empty key=value fields"
  else parse_fields text.

Definition _error (text : string) : result (Z * string * fields) :=
  let '(head, tail) := default (text, "") (str_partition space text) in
  match str_split colon head with
  | [k; code; name] =>
      if negb (bool_decide (k ∈ ["error"; "fault"; "reject"])) || negb (name_syntax name)
      then throw (Protocol ParseError) "invalid error/fault form"
      else
        c ← uint code "error code" 1 (Some 65535);
        f ← parse_fields tail;
        mret (c, name, f)
  | _ => throw (Protocol ParseError) "invalid error/fault form"
  end.

(** ** Responses and events *)

Definition _response_body (id : Z) (body : string) : result Response :=
  if bool_decide (body = "accepted") then Ok (mkResponse id ACCEPTED ∅ None None)
  else if startswith body "accepted:" then
    f ← _nonempty_fields (str_drop 9 body); mret (mkResponse id ACCEPTED f None None)
  else if startswith body "progress:" then
    f ← _nonempty_fields (str_drop 9 body); mret (mkResponse id PROGRESS f None None)
  else if startswith body "data:" then
    f ← _nonempty_fields (str_drop 5 body); mret (mkResponse id DATA f None None)
  else if startswith body "done:" then
    f ← _nonempty_fields (str_drop 5 body); mret (mkResponse id DONE f None None)
  else if bool_decide (body = "done") then Ok (mkResponse id DONE ∅ None None)
  else if startswith body "error:" then
    '(c, n, f) ← _error body; mret (mkResponse id ERROR f (Some c) (Some n))
  else throw (Protocol ParseError) ("unknown v2 response terminal/form: " +:+ str_repr body).

Inductive v2_item :=
| VResponse (r : Response)
| VEvent (e : Event)
| VStopped.

(** The regular expression [m([0-9]+) (.+)] under [fullmatch], [m] being the
    marker character: the digits and the rest. *)
Definition match_frame (marker : ascii) (body : string) : option (string * string) :=
  match body with
  | String c s =>
      if Ascii.eqb c marker then
        let '(digits, rest) := str_span is_digit s in
        if bool_decide (digits = "") then None
        else match rest with
             | String d tail =>
                 if Ascii.eqb d space && negb (bool_decide (tail = ""))
                    && negb (str_mem (chr 10) tail)
                 then Some (digits, tail) else None
             | "" => None
             end
      else None
  | "" => None
  end.

Definition _event_body (seq : Z) (body event_body : string) : result Event :=
  if startswith event_body "state:" then
    f ← _nonempty_fields (str_drop 6 event_body); mret (mkEvent seq STATE f None None)
  else if startswith event_body "fault:" || startswith event_body "reject:" then
    '(c, n, f) ← _error event_body;
    mret (mkEvent seq (if startswith event_body "fault:" then FAULT else REJECT) f (Some c) (Some n))
  else throw (Protocol ParseError) ("unknown v2 frame form: " +:+ str_repr body).

Definition parse_v2_line (line : string) (crc_required : bool) : result v2_item :=
  match encode_ascii line with
  | None => throw (Protocol ParseError) "invalid v2 frame bytes"
  | Some encoded =>
      if bool_decide (line = "") || (64 <? slen encoded) || negb (str_forall is_printable line)
      then throw (Protocol ParseError) "invalid v2 frame bytes"
      else if bool_decide (line = "stopped") then Ok VStopped
      else
        body ← remove_and_verify_crc line crc_required;
        if startswith body "@" then
          match match_frame "@" body with
          | None => throw (Protocol ParseError) "invalid correlated response"
          | Some (digits, rest) =>
              id ← uint digits "response id" 0 (Some 65535);
              r ← _response_body id rest;
              mret (VResponse r)
          end
        else if startswith body "!" then
          match match_frame "!" body with
          | None => throw (Protocol ParseError) "invalid event"
          | Some (digits, rest) =>
              seq ← uint digits "event sequence" 1 (Some 65535);
              e ← _event_body seq body rest;
              mret (VEvent e)
          end
        else throw (Protocol ParseError) ("unknown v2 frame form: " +:+ str_repr body)
  end.

(** ** Requests *)

Definition format_request (id : Z) (command : string) (crc : bool) : result string :=
  if negb ((1 <=? id) && (id <=? 65535))
  then throw (Protocol ParseError) "request ID must be 1..65535"
  else if bool_decide (command = "") || negb (bool_decide (command = str_strip command))
          || str_mem star command || negb (str_forall is_printable command)
  then throw (Protocol ParseError) "invalid command whitespace"
  else
    let frame := "@" +:+ str_of_Z id +:+ " " +:+ command in
    match encode_ascii frame with
    | None => throw (Protocol ParseError) "v2 request must be ASCII"
    | Some _ =>
        formatted ← (if crc then append_crc frame else Ok frame);
        if 64 <? slen formatted
        then throw (Protocol ParseError) "v2 request exceeds 64 bytes"
        else Ok formatted
    end.

(** ** Totality: every refusal is a [ParseError] *)

Lemma pf_parse_tokens acc tokens : parse_fail_only (parse_tokens acc tokens).
Proof.
  revert acc. induction tokens as [|t ts IH]; intros acc; simpl; [done|].
  destruct (negb _); [done|]. destruct (str_partition _ _) as [[k v]|]; [|done].
  destruct (_ || _); [done|]. by destruct (bool_decide _).
Qed.

Lemma pf_parse_fields t : parse_fail_only (parse_fields t).
Proof. unfold parse_fields. destruct (bool_decide _); [done|]. apply pf_parse_tokens. Qed.

Lemma pf_nonempty_fields t : parse_fail_only (_nonempty_fields t).
Proof. unfold _nonempty_fields. destruct (bool_decide _); [done|]. apply pf_parse_fields. Qed.

#[export] Hint Resolve pf_parse_fields pf_nonempty_fields : cs71.

Lemma pf_error t : parse_fail_only (_error t).
Proof.
  unfold _error. destruct (default _ _) as [head tail].
  destruct (str_split colon head) as [|a [|b [|c [|]]]]; try done.
  destruct (_ || _); [done|]. apply pf_bind; [auto with cs71|intros].
  apply pf_bind; auto with cs71.
Qed.

Lemma pf_response_body id body : parse_fail_only (_response_body id body).
Proof.
  unfold _response_body. repeat case_match; try done;
    (apply pf_bind; [auto using pf_error with cs71|intros]); repeat case_match; done.
Qed.

Lemma pf_event_body seq b body : parse_fail_only (_event_body seq b body).
Proof.
  unfold _event_body. repeat case_match; try done;
    (apply pf_bind; [auto using pf_error with cs71|intros]); repeat case_match; done.
Qed.

Lemma pf_verify f req : parse_fail_only (remove_and_verify_crc f req).
Proof. unfold remove_and_verify_crc. repeat case_match; done. Qed.

Lemma pf_parse_v2_line line c : parse_fail_only (parse_v2_line line c).
Proof.
  unfold parse_v2_line. destruct (encode_ascii line); [|done]. destruct (_ || _ || _); [done|].
  destruct (bool_decide _); [done|]. apply pf_bind; [apply pf_verify|intros body _].
  destruct (startswith body "@"); [|destruct (startswith body "!"); [|done]];
    (destruct (match_frame _ body) as [[d r]|]; [|done]);
    (apply pf_bind; [apply pf_uint|intros]);
    (apply pf_bind; [auto using pf_response_body, pf_event_body|done]).
Qed.

Lemma pf_format_request id cmd c : parse_fail_only (format_request id cmd c).
Proof.
  unfold format_request. repeat case_match; try done.
  - apply pf_bind; [|intros; by case_match]. unfold append_crc. by case_match.
  - apply pf_bind; [done|intros; by case_match].
Qed.

(** ** What a parsed item is worth *)

(** A response the client can rely on: its ID fits 16 bits and an error
    terminal, and only an error terminal, carries a code and a name. *)
Record response_wf (r : Response) : Prop := {
  rw_id : 0 <= request_id r <= 65535;
  rw_code : is_Some (r_code r) <-> kind r = ERROR;
  rw_name : is_Some (r_name r) <-> kind r = ERROR;
}.

Lemma response_body_wf id body r :
  0 <= id <= 65535 -> _response_body id body = Ok r -> response_wf r /\ request_id r = id.
Proof.
  intros Hid. unfold _response_body. intros H. repeat case_match; res_inv; repeat case_match;
    res_inv; (split; [|done]); constructor; simpl; try done; split; try done;
    try (by intros [? ?]); intros; by eexists.
Qed.

Lemma parse_response_wf line c r : parse_v2_line line c = Ok (VResponse r) -> response_wf r.
Proof.
  unfold parse_v2_line. intros H. destruct (encode_ascii line); [|done].
  destruct (_ || _ || _); [done|]. destruct (bool_decide _); [done|].
  apply res_bind_ok in H as (body & _ & H).
  destruct (startswith body "@"); [|destruct (startswith body "!"); [|done]];
    (destruct (match_frame _ body) as [[d rest]|]; [|done]); res_inv; simplify_eq/=.
  apply uint_ok in H as (_ & ? & _ & ?).
  eapply response_body_wf; [|done]. done.
Qed.

(** ** Printing specification of the response grammar *)

Definition name_char (c : ascii) : bool := is_alpha c || is_digit c || Ascii.eqb c "_".
Definition value_char (c : ascii) : bool :=
  is_printable c && negb (Ascii.eqb c "=") && negb (Ascii.eqb c " ").

Definition field_ok (kv : string * string) : Prop :=
  name_syntax kv.1 = true /\ kv.2 <> "" /\ str_forall value_char kv.2 = true.

Definition render_field (kv : string * string) : string := kv.1 +:+ String equals kv.2.
Definition render_fields (kvs : list (string * string)) : string :=
  str_join (String space "") (map render_field kvs).

Lemma name_chars s : name_syntax s = true -> str_forall name_char s = true.
Proof.
  destruct s as [|c s]; [done|]. simpl. intros H. bool_inv. unfold name_char at 1.
  rewrite H. simpl. done.
Qed.

Lemma name_no_char s c : name_syntax s = true -> name_char c = false -> str_mem c s = false.
Proof. intros H. eapply str_mem_forall. by apply name_chars. Qed.

Lemma value_char_not_space c : value_char c = true -> is_space c = false.
Proof.
  unfold value_char, is_printable, is_space. intros H. bool_inv.
  assert (code c <> 32).
  { intros E. destruct (Ascii.eqb_spec c " ") as [->|Hn]; [done|]. apply Hn, code_inj. by rewrite E. }
  repeat (apply orb_false_iff; split); try (apply andb_false_iff; rewrite !Z.leb_gt; lia);
    apply Z.eqb_neq; lia.
Qed.

Lemma value_no_space v : str_forall value_char v = true -> str_exists is_space v = false.
Proof.
  intros H. unfold str_exists. apply negb_false_iff. revert H. apply str_forall_impl.
  intros c Hc. by rewrite value_char_not_space.
Qed.

Lemma str_count_0 c s : str_mem c s = false -> str_count c s = 0%nat.
Proof.
  induction s as [|d s IH]; [done|]. rewrite str_mem_cons. intros H. bool_inv. simpl.
  rewrite IH by done. destruct (Ascii.eqb_spec d c) as [->|]; [by rewrite Ascii.eqb_refl in H|done].
Qed.

Lemma str_count_app c a b : str_count c (a +:+ b) = (str_count c a + str_count c b)%nat.
Proof. induction a as [|d a IH]; [done|]. rewrite str_app_cons. simpl. rewrite IH. lia. Qed.

Lemma field_partition kv : field_ok kv ->
  str_count equals (render_field kv) = 1%nat /\
  str_partition equals (render_field kv) = Some (kv.1, kv.2) /\
  str_mem space (render_field kv) = false.
Proof.
  intros (Hn & _ & Hv). unfold render_field.
  assert (str_mem equals kv.1 = false) by (by apply name_no_char).
  assert (str_mem equals kv.2 = false) by (by eapply str_mem_forall).
  assert (str_mem space kv.1 = false) by (by apply name_no_char).
  assert (str_mem space kv.2 = false) by (by eapply str_mem_forall).
  split_and!.
  - rewrite str_count_app. simpl. by rewrite !str_count_0.
  - by apply str_partition_spec.
  - rewrite str_mem_app, str_mem_cons, H1, H2. done.
Qed.

Lemma parse_tokens_render kvs acc :
  Forall field_ok kvs -> NoDup kvs.*1 -> (forall k, k ∈ kvs.*1 -> acc !! k = None) ->
  parse_tokens acc (map render_field kvs) = Ok (list_to_map kvs ∪ acc).
Proof.
  revert acc. induction kvs as [|[k v] kvs IH]; intros acc Hok Hnd Hacc; simpl.
  { by rewrite (left_id_L ∅ (∪)). }
  apply Forall_cons in Hok as [Hkv Hok]. simpl in Hnd. apply NoDup_cons in Hnd as [Hk Hnd].
  destruct (field_partition _ Hkv) as (-> & -> & _). destruct Hkv as (Hn & Hv0 & Hv). simpl in *.
  rewrite Hn, (value_no_space v Hv), bool_decide_false by done. simpl.
  rewrite Hacc by set_solver. rewrite bool_decide_false by (by intros [? ?]).
  rewrite IH; [|done|done|].
  - f_equal. rewrite <- insert_union_r by (by apply not_elem_of_list_to_map_1).
    by rewrite insert_union_l.
  - intros k' Hk'. rewrite lookup_insert_ne by set_solver. apply Hacc. set_solver.
Qed.

Lemma str_join_nonempty sep (l : list string) :
  l <> [] -> Forall (fun s => s <> "") l -> str_join sep l <> "".
Proof.
  destruct l as [|x [|y l]]; [done|..]; intros _ H; inversion_clear H; [done|].
  simpl. destruct x; [done|]. by rewrite str_app_cons.
Qed.

Lemma render_fields_nonempty kvs : kvs <> [] -> render_fields kvs <> "".
Proof.
  intros H. apply str_join_nonempty; [by destruct kvs|].
  apply Forall_map, Forall_forall. intros [k v] _. unfold render_field. simpl.
  destruct k; [done|]. by rewrite str_app_cons.
Qed.

Lemma parse_fields_render kvs :
  Forall field_ok kvs -> NoDup kvs.*1 -> parse_fields (render_fields kvs) = Ok (list_to_map kvs).
Proof.
  intros Hok Hnd. unfold parse_fields. destruct kvs as [|kv kvs]; [done|].
  rewrite bool_decide_false by (by apply render_fields_nonempty). unfold render_fields.
  rewrite str_split_join; [|done|].
  - rewrite parse_tokens_render by done. by rewrite (right_id_L ∅ (∪)).
  - apply Forall_map. eapply Forall_impl; [done|]. intros kv' H. by apply field_partition.
Qed.

Definition suffix_fields (sep : ascii) (kvs : list (string * string)) : string :=
  match kvs with [] => "" | _ => String sep (render_fields kvs) end.

(** The body of a response; [c] and [n] are used by error terminals only. *)
Definition render_body (k : ResponseKind) (kvs : list (string * string)) (c : Z) (n : string) : string :=
  match k with
  | ACCEPTED => "accepted" +:+ suffix_fields colon kvs
  | PROGRESS => "progress" +:+ suffix_fields colon kvs
  | DATA => "data" +:+ suffix_fields colon kvs
  | DONE => "done" +:+ suffix_fields colon kvs
  | ERROR => "error:" +:+ str_of_Z c +:+ String colon n +:+ suffix_fields space kvs
  end.

Definition response_of (id : Z) (k : ResponseKind) (kvs : list (string * string)) (c : Z) (n : string) : Response :=
  mkResponse id k (list_to_map kvs)
    (if decide (k = ERROR) then Some c else None) (if decide (k = ERROR) then Some n else None).

Record body_ok (k : ResponseKind) (kvs : list (string * string)) (c : Z) (n : string) : Prop := {
  bo_fields : Forall field_ok kvs;
  bo_nodup : NoDup kvs.*1;
  bo_some : k = PROGRESS \/ k = DATA -> kvs <> [];
  bo_code : k = ERROR -> 1 <= c <= 65535;
  bo_name : k = ERROR -> name_syntax n = true;
}.

Lemma nonempty_fields_render kvs : kvs <> [] -> Forall field_ok kvs -> NoDup kvs.*1 ->
  _nonempty_fields (render_fields kvs) = Ok (list_to_map kvs).
Proof.
  intros. unfold _nonempty_fields. rewrite bool_decide_false by (by apply render_fields_nonempty).
  by apply parse_fields_render.
Qed.

Lemma error_render kvs c n : Forall field_ok kvs -> NoDup kvs.*1 -> 1 <= c <= 65535 ->
  name_syntax n = true ->
  _error ("error:" +:+ str_of_Z c +:+ String colon n +:+ suffix_fields space kvs)
  = Ok (c, n, list_to_map kvs).
Proof.
  intros Hok Hnd Hc Hn.
  pose proof (digits_str_of_Z c ltac:(lia)) as Hdig.
  set (head := "error:" +:+ str_of_Z c +:+ String colon n).
  assert (str_mem space head = false) as Hsp.
  { unfold head. rewrite !str_mem_app, (str_mem_cons space colon n).
    rewrite (str_mem_forall is_digit _ (str_of_Z c)), (name_no_char n) by done. done. }
  assert (str_split colon head = ["error"; str_of_Z c; n]) as Hsplit.
  { unfold head. change ("error:" +:+ str_of_Z c +:+ String colon n)
      with ("error" +:+ String colon (str_of_Z c +:+ String colon n)).
    rewrite !str_split_app, str_split_none; try done; [by apply name_no_char|].
    by eapply str_mem_forall. }
  replace ("error:" +:+ str_of_Z c +:+ String colon n +:+ suffix_fields space kvs)
    with (head +:+ suffix_fields space kvs)
    by (unfold head; by rewrite <- !str_app_assoc, str_app_cons).
  assert (default (head +:+ suffix_fields space kvs, "")
            (str_partition space (head +:+ suffix_fields space kvs))
          = (head, render_fields kvs)) as E.
  { destruct kvs as [|kv kvs].
    - change (suffix_fields space []) with "". rewrite str_app_nil_r.
      destruct (str_partition space head) as [[a b]|] eqn:E; [|done].
      apply str_partition_spec in E as [E _]. rewrite E in Hsp.
      by rewrite str_mem_app, str_mem_cons, Ascii.eqb_refl, orb_true_r in Hsp.
    - change (suffix_fields space (kv :: kvs)) with (String space (render_fields (kv :: kvs))).
      by rewrite (proj2 (str_partition_spec space _ head (render_fields (kv :: kvs)))). }
  unfold _error. rewrite E, Hsplit, Hn. simpl.
  assert (uint (str_of_Z c) "error code" 1 (Some 65535) = Ok c) as ->
    by (apply uint_ok; split_and!; [done|lia..]).
  rewrite parse_fields_render by done. done.
Qed.

(** Decides the guards of the goal that compute. *)
Ltac decide_ifs :=
  repeat match goal with
  | |- context [if ?b then _ else _] => first [change b with true | change b with false]; cbv iota
  end.

(** Resolves a prefix test whose subject is the prefix followed by [t]. *)
Ltac prefix_app t :=
  match goal with
  | |- context [startswith ?x ?p] => change x with (p +:+ t) at 1; rewrite startswith_app
  end.

Lemma response_body_render id k kvs c n : body_ok k kvs c n ->
  _response_body id (render_body k kvs c n) = Ok (response_of id k kvs c n).
Proof.
  intros [Hok Hnd Hsome Hc Hn]. destruct k; simpl.
  1-4: destruct kvs as [|kv kvs]; try (by exfalso; apply Hsome; auto); try done;
    change (suffix_fields colon (kv :: kvs)) with (String colon (render_fields (kv :: kvs)));
    unfold _response_body; pose proof (nonempty_fields_render (kv :: kvs) ltac:(done) Hok Hnd) as E;
    revert E; generalize (render_fields (kv :: kvs)); intros t E; decide_ifs;
    change (str_drop _ _) with t; rewrite E; prefix_app t; done.
  unfold _response_body.
  pose proof (error_render kvs c n Hok Hnd (Hc eq_refl) (Hn eq_refl)) as E.
  revert E. generalize (str_of_Z c +:+ String colon n +:+ suffix_fields space kvs). intros t E.
  decide_ifs. prefix_app t. by rewrite E.
Qed.

Definition render_frame (id : Z) (k : ResponseKind) (kvs : list (string * string)) (c : Z) (n : string) : string :=
  "@" +:+ str_of_Z id +:+ String space (render_body k kvs c n).

(** What goes on the wire for a frame, CRC protection on or off. *)
Definition on_wire (crc : bool) (frame line : string) : Prop :=
  if crc then append_crc frame = Ok line else line = frame /\ str_mem star frame = false.

Lemma printable_impl (f : ascii -> bool) s :
  (forall c, f c = true -> is_printable c = true) -> str_forall f s = true ->
  str_forall is_printable s = true.
Proof. apply str_forall_impl. Qed.

Lemma digit_printable c : is_digit c = true -> is_printable c = true.
Proof.
  unfold is_digit, is_printable. intros H. bool_inv.
  apply andb_true_iff; split; apply Z.leb_le; lia.
Qed.

Lemma hex_printable c : is_hex_char c = true -> is_printable c = true.
Proof.
  unfold is_hex_char. rewrite orb_true_iff. intros [H|H]; [by apply digit_printable|].
  unfold is_printable. bool_inv. apply andb_true_iff; split; apply Z.leb_le; lia.
Qed.

Lemma name_char_printable c : name_char c = true -> is_printable c = true.
Proof.
  unfold name_char, is_alpha, is_upper, is_lower. rewrite !orb_true_iff.
  intros [[[H|H]|H]|H]; [| |by apply digit_printable|by apply Ascii.eqb_eq in H; subst];
    unfold is_printable; bool_inv; apply andb_true_iff; split; apply Z.leb_le; lia.
Qed.

Lemma printable_str_of_Z n : 0 <= n -> str_forall is_printable (str_of_Z n) = true.
Proof. intros H. eapply printable_impl, digits_str_of_Z, H. apply digit_printable. Qed.

Lemma printable_name s : name_syntax s = true -> str_forall is_printable s = true.
Proof. intros H. eapply printable_impl, name_chars, H. apply name_char_printable. Qed.

Lemma printable_join sep l :
  is_printable sep = true -> Forall (fun s => str_forall is_printable s = true) l ->
  str_forall is_printable (str_join (String sep "") l) = true.
Proof.
  intros Hsep. induction l as [|x l IH]; intros H; [done|]. apply Forall_cons in H as [Hx Hl].
  destruct l as [|y l]; [done|].
  change (str_join (String sep "") (x :: y :: l))
    with (x +:+ String sep (str_join (String sep "") (y :: l))).
  rewrite str_forall_app, Hx. simpl str_forall at 1. rewrite Hsep. by apply IH.
Qed.

Lemma printable_fields kvs : Forall field_ok kvs -> str_forall is_printable (render_fields kvs) = true.
Proof.
  intros H. apply printable_join; [done|]. apply Forall_map. eapply Forall_impl; [done|].
  intros [k v] (Hk & _ & Hv). unfold render_field. rewrite str_forall_app, printable_name by done. simpl.
  eapply printable_impl, Hv. unfold value_char. intros. by bool_inv.
Qed.

Lemma printable_suffix sep kvs : is_printable sep = true -> Forall field_ok kvs ->
  str_forall is_printable (suffix_fields sep kvs) = true.
Proof.
  intros Hs Hk. destruct kvs; [done|]. simpl. rewrite Hs. by apply printable_fields.
Qed.

Lemma printable_body k kvs c n : body_ok k kvs c n ->
  str_forall is_printable (render_body k kvs c n) = true.
Proof.
  intros [Hok _ _ Hc Hn]. destruct k; simpl; rewrite str_forall_app;
    try (by rewrite printable_suffix).
  rewrite str_forall_app, printable_str_of_Z by (specialize (Hc eq_refl); lia).
  rewrite (str_app_cons colon). simpl. rewrite str_forall_app, printable_name, printable_suffix by auto.
  done.
Qed.

Lemma printable_ascii s : str_forall is_printable s = true -> str_forall is_ascii s = true.
Proof.
  apply str_forall_impl. intros c. unfold is_printable, is_ascii. intros H. bool_inv. apply Z.ltb_lt. lia.
Qed.

Lemma printable_no_newline s : str_forall is_printable s = true -> str_mem (chr 10) s = false.
Proof. intros H. by eapply str_mem_forall. Qed.

Lemma on_wire_verify crc frame line :
  on_wire crc frame line -> remove_and_verify_crc line crc = Ok frame.
Proof.
  destruct crc; simpl; [apply append_verify|]. intros [-> H].
  unfold remove_and_verify_crc. by rewrite H.
Qed.

Lemma on_wire_printable crc frame line :
  on_wire crc frame line -> str_forall is_printable frame = true ->
  str_forall is_printable line = true.
Proof.
  destruct crc; simpl; [|by intros [-> _]]. unfold append_crc. case_match; [|done].
  intros [= <-] H0. rewrite !str_forall_app, H0.
  by rewrite (printable_impl _ _ hex_printable (format_crc_hex _)).
Qed.

Lemma on_wire_prefix crc c frame line :
  on_wire crc (String c frame) line -> exists t, line = String c t.
Proof.
  destruct crc; simpl; [|intros [-> _]; by eexists]. unfold append_crc. case_match; [|done].
  intros [= <-]. rewrite str_app_cons. by eexists.
Qed.

Lemma match_frame_render marker n body : 0 <= n -> body <> "" ->
  str_forall is_printable body = true ->
  match_frame marker (String marker (str_of_Z n +:+ String space body)) = Some (str_of_Z n, body).
Proof.
  intros Hn Hb Hp. simpl. rewrite Ascii.eqb_refl.
  rewrite str_span_app by (done || by apply digits_str_of_Z).
  rewrite bool_decide_false by (by apply str_of_Z_nonempty). simpl.
  rewrite bool_decide_false by done. by rewrite printable_no_newline.
Qed.

Lemma body_nonempty k kvs c n : render_body k kvs c n <> "".
Proof. by destruct k. Qed.

(** A printable frame of 64 bytes at most reaches the body parser of its marker. *)
Lemma wire_frame (marker : ascii) n body crc line : (marker = "@"%char \/ marker = "!"%char) -> 0 <= n -> body <> "" -> str_forall is_printable body = true ->
  on_wire crc (String marker (str_of_Z n +:+ String space body)) line -> slen line <= 64 ->
  parse_v2_line line crc =
    if Ascii.eqb marker "@"
    then id ← uint (str_of_Z n) "response id" 0 (Some 65535); r ← _response_body id body; mret (VResponse r)
    else seq ← uint (str_of_Z n) "event sequence" 1 (Some 65535);
         e ← _event_body seq (String marker (str_of_Z n +:+ String space body)) body; mret (VEvent e).
Proof.
  intros Hm Hn Hb Hpb Hwire Hlen. pose proof (on_wire_verify _ _ _ Hwire) as Hver.
  assert (is_printable marker = true) as Hpm by (by destruct Hm as [-> | ->]).
  assert (str_forall is_printable line = true) as Hpr.
  { eapply on_wire_printable; [done|]. simpl. by rewrite Hpm, str_forall_app, printable_str_of_Z. }
  destruct (on_wire_prefix _ _ _ _ Hwire) as [t Et].
  assert (bool_decide (line = "stopped") = false) as Hst by (apply bool_decide_false; rewrite Et; by destruct Hm as [-> | ->]).
  unfold parse_v2_line, encode_ascii. rewrite (printable_ascii _ Hpr), Hpr, Hst, bool_decide_false by (by rewrite Et).
  replace (64 <? _) with false by (symmetry; by apply Z.ltb_ge). simpl.
  rewrite Hver. unfold mbind, res_bind. destruct Hm as [-> | ->].
  - rewrite (startswith_app "@" (str_of_Z n +:+ _) : startswith (String "@" _) _ = _).
    by rewrite match_frame_render.
  - change (startswith (String "!" ?x) "@") with false. cbv iota.
    rewrite (startswith_app "!" (str_of_Z n +:+ _) : startswith (String "!" _) _ = _).
    by rewrite match_frame_render.
Qed.

Lemma response_frame id body r crc line : 0 <= id <= 65535 -> body <> "" -> str_forall is_printable body = true ->
  _response_body id body = Ok r -> on_wire crc ("@" +:+ str_of_Z id +:+ String space body) line -> slen line <= 64 ->
  parse_v2_line line crc = Ok (VResponse r).
Proof.
  intros Hid Hb Hp Hr Hw Hl. rewrite (wire_frame "@" id body crc line) by (done || lia || by left). simpl.
  assert (uint (str_of_Z id) "response id" 0 (Some 65535) = Ok id) as -> by (apply uint_ok; split_and!; [done|lia..]).
  simpl. by rewrite Hr.
Qed.

Lemma event_frame seq body e crc line : 1 <= seq <= 65535 -> body <> "" -> str_forall is_printable body = true ->
  (forall whole, _event_body seq whole body = Ok e) -> on_wire crc ("!" +:+ str_of_Z seq +:+ String space body) line -> slen line <= 64 ->
  parse_v2_line line crc = Ok (VEvent e).
Proof.
  intros Hid Hb Hp Hr Hw Hl. rewrite (wire_frame "!" seq body crc line) by (done || lia || by right). simpl.
  assert (uint (str_of_Z seq) "event sequence" 1 (Some 65535) = Ok seq) as -> by (apply uint_ok; split_and!; [done|lia..]).
  simpl. by rewrite Hr.
Qed.

(** The response parser inverts the response grammar: any frame built from a
    16-bit ID, a kind, distinct well-formed fields and (for errors) a code and a
    name, sent with or without CRC protection within the 64-byte limit, parses
    to exactly that response. *)
Theorem response_roundtrip id k kvs c n (crc : bool) (line : string) :
  0 <= id <= 65535 -> body_ok k kvs c n ->
  on_wire crc (render_frame id k kvs c n) line -> slen line <= 64 ->
  parse_v2_line line crc = Ok (VResponse (response_of id k kvs c n)).
Proof.
  intros Hid Hbody Hwire Hlen. apply (response_frame id (render_body k kvs c n) _ crc); try done.
  - by apply body_nonempty.
  - by apply printable_body.
  - by apply response_body_render.
Qed.

Lemma response_roundtrip_witness :
  parse_v2_line "@7 done:slot=3*BEFE" true =
    Ok (VResponse (response_of 7 DONE [("slot", "3")] 0 "")).
Proof.
  apply (response_roundtrip 7 DONE [("slot", "3")] 0 "" true); [lia| |reflexivity|done].
  constructor; try done; [by repeat constructor|by apply (bool_decide_unpack _)].
Defined.

(** On any line at all, with or without CRC, [parse_v2_line] returns a value
    or raises a [ParseError] (a [CrcError] included), and an accepted response
    has a 16-bit ID and carries a code and a name exactly when it is an error
    terminal. *)
Theorem parse_v2_line_total (line : string) (crc : bool) :
  match parse_v2_line line crc with
  | Ok (VResponse r) => response_wf r
  | Ok _ => True
  | Err e => isinstance e (Protocol ParseError) = true
  | OutOfFuel => False
  end.
Proof.
  pose proof (pf_parse_v2_line line crc) as H.
  destruct (parse_v2_line line crc) as [[r| |]|e|] eqn:E; try done.
  by eapply parse_response_wf.
Qed.

Lemma format_request_inv id cmd crc line : format_request id cmd crc = Ok line ->
  1 <= id <= 65535 /\ cmd <> "" /\ str_forall is_printable cmd = true /\ str_mem star cmd = false
  /\ on_wire crc ("@" +:+ str_of_Z id +:+ String space cmd) line /\ slen line <= 64.
Proof.
  unfold format_request. destruct (negb _) eqn:Hid; [done|]. bool_inv.
  destruct (_ || _ || _ || _) eqn:Hc; [done|]. bool_inv.
  case_match; [|done]. intros Hl. res_inv.
  destruct (64 <? slen x) eqn:Hlen; [done|]. bool_inv. res_inv.
  split_and!; try done. destruct crc; [done|]. res_inv. simpl. split; [done|].
  assert (str_mem star cmd = false) as Hs by done.
  rewrite !str_mem_app, (str_mem_cons star space), Hs.
  rewrite (str_mem_forall is_digit star (str_of_Z id)); [done|apply digits_str_of_Z; lia|done].
Qed.

(** A formatted request is one printable line of at most 64 bytes (so no
    command can smuggle a line terminator), and a receiver that checks the CRC
    and splits the frame recovers exactly the ID and the command. *)
Theorem format_request_decodes id (command : string) (crc : bool) (line : string) :
  format_request id command crc = Ok line ->
  str_forall is_printable line = true /\ slen line <= 64 /\
  exists frame, remove_and_verify_crc line crc = Ok frame /\
    match_frame "@" frame = Some (str_of_Z id, command).
Proof.
  intros H. apply format_request_inv in H as (Hid & Hne & Hp & _ & Hw & Hlen).
  split_and!; [|done|].
  - eapply on_wire_printable; [done|]. rewrite !str_forall_app, printable_str_of_Z by lia. done.
  - eexists. split; [by apply on_wire_verify|].
    apply (match_frame_render "@" id command); [lia|done|done].
Qed.

Lemma format_request_decodes_witness :
  str_forall is_printable "@12 sortto:3*623C" = true /\ slen "@12 sortto:3*623C" <= 64 /\
  exists frame, remove_and_verify_crc "@12 sortto:3*623C" true = Ok frame /\
    match_frame "@" frame = Some (str_of_Z 12, "sortto:3").
Proof. apply (format_request_decodes 12 "sortto:3" true). reflexivity. Defined.
