(* ===== verification/Tracking.v ===== *)
(** * Request-ID lifecycle and event order (host/src/cs71_protocol/tracking.py) *)
From S2P Require Import Prelude PyString Errors Models.

(** ** RequestTracker *)

Record RequestTracker := mkRequestTracker {
  active : gset Z;
  terminal_ids : gset Z;
  _next : Z;
}.

Definition RequestTracker_init : RequestTracker := mkRequestTracker ∅ ∅ 1.

(** [for _ in range(fuel)] over the candidates. *)
Fixpoint allocate_go (fuel : nat) (t : RequestTracker) : RequestTracker * result Z :=
  match fuel with
  | O => (t, throw (Protocol RequestStateError) "all request IDs are active")
  | S fuel =>
      let candidate := _next t in
      let next := if candidate =? 65535 then 1 else candidate + 1 in
      if bool_decide (candidate ∈ active t)
      then allocate_go fuel (mkRequestTracker (active t) (terminal_ids t) next)
      else (mkRequestTracker ({[candidate]} ∪ active t) (terminal_ids t ∖ {[candidate]}) next,
            Ok candidate)
  end.

Definition id_count : nat := Z.to_nat 65535.

Definition allocate : M RequestTracker exn Z := allocate_go id_count.

Definition reserve (id : Z) : M RequestTracker exn unit := fun t =>
  if negb ((1 <=? id) && (id <=? 65535)) || bool_decide (id ∈ active t)
  then (t, throw (Protocol RequestStateError) "request ID unavailable")
  else (mkRequestTracker ({[id]} ∪ active t) (terminal_ids t ∖ {[id]}) (_next t), Ok tt).

Definition observe (r : Response) : M RequestTracker exn unit := fun t =>
  if negb (bool_decide (request_id r ∈ active t)) then
    if terminal r && bool_decide (request_id r ∈ terminal_ids t)
    then (t, throw (Protocol RequestStateError) ("duplicate terminal for ID " +:+ str_of_Z (request_id r)))
    else (t, throw (Protocol RequestStateError) ("unexpected response for ID " +:+ str_of_Z (request_id r)))
  else if terminal r then
    (mkRequestTracker (active t ∖ {[request_id r]}) ({[request_id r]} ∪ terminal_ids t) (_next t), Ok tt)
  else (t, Ok tt).

Definition release (id : Z) (t : RequestTracker) : RequestTracker :=
  mkRequestTracker (active t ∖ {[id]}) (terminal_ids t) (_next t).

Definition clear (_ : RequestTracker) : RequestTracker := mkRequestTracker ∅ ∅ 1.

(** ** EventTracker *)

Record EventTracker := mkEventTracker {
  last_sequence : option Z;
  resync_required : bool;
}.

Definition EventTracker_init : EventTracker := mkEventTracker None false.

Definition expected_sequence (t : EventTracker) : Z :=
  match last_sequence t with
  | None => 1
  | Some n => if n =? 65535 then 1 else n + 1
  end.

Definition observe_event (e : Event) (t : EventTracker) : EventTracker * bool :=
  let contiguous := sequence e =? expected_sequence t in
  (mkEventTracker (Some (sequence e)) (negb contiguous || resync_required t), contiguous).

Definition replace_status (t : EventTracker) : EventTracker :=
  mkEventTracker (last_sequence t) false.

(** ** Invariant of the request tracker *)

Record tracker_wf (t : RequestTracker) : Prop := {
  tw_next : 1 <= _next t <= 65535;
  tw_active : forall i, i ∈ active t -> 1 <= i <= 65535;
  tw_disjoint : active t ## terminal_ids t;
}.

(** The candidate after [n] further steps of the wrapping counter. *)
Definition candidate (next : Z) (n : nat) : Z := 1 + (next - 1 + Z.of_nat n) mod 65535.

Lemma candidate_0 next : 1 <= next <= 65535 -> candidate next 0 = next.
Proof. intros H. unfold candidate. rewrite Z.add_0_r, Z.mod_small by lia. lia. Qed.

Lemma candidate_range next n : 1 <= candidate next n <= 65535.
Proof. unfold candidate. pose proof (Z.mod_pos_bound (next - 1 + Z.of_nat n) 65535). lia. Qed.

Lemma next_step c : 1 <= c <= 65535 -> (if c =? 65535 then 1 else c + 1) = candidate c 1.
Proof.
  intros H. unfold candidate. destruct (Z.eqb_spec c 65535) as [->|]; [done|].
  rewrite Z.mod_small by lia. lia.
Qed.

Lemma candidate_shift c n : candidate (candidate c 1) n = candidate c (S n).
Proof.
  unfold candidate. f_equal.
  transitivity (((c - 1 + 1) mod 65535 + Z.of_nat n) mod 65535); [f_equal; lia|].
  rewrite Zplus_mod_idemp_l. f_equal. lia.
Qed.

(** Every ID is the candidate of some step of a full round. *)
Lemma candidate_onto next i : 1 <= next <= 65535 -> 1 <= i <= 65535 ->
  exists n, (n < id_count)%nat /\ candidate next n = i.
Proof.
  intros Hn Hi. exists (Z.to_nat ((i - next) mod 65535)).
  pose proof (Z.mod_pos_bound (i - next) 65535 ltac:(lia)).
  split; [unfold id_count; lia|]. unfold candidate. rewrite Z2Nat.id by lia.
  rewrite Zplus_mod_idemp_r. replace (next - 1 + (i - next)) with (i - 1) by lia.
  rewrite Z.mod_small by lia. lia.
Qed.

Lemma allocate_go_ok fuel t t' id : tracker_wf t ->
  allocate_go fuel t = (t', Ok id) ->
  tracker_wf t' /\ id ∉ active t /\ 1 <= id <= 65535 /\ active t' = {[id]} ∪ active t
  /\ terminal_ids t' = terminal_ids t ∖ {[id]}.
Proof.
  revert t. induction fuel as [|fuel IH]; intros t Hwf H; simpl in H; [done|].
  case_bool_decide as Hin.
  - apply IH in H; [naive_solver|]. destruct Hwf. constructor; simpl; [|done..].
    rewrite next_step by done. apply candidate_range.
  - injection H as <- <-. destruct Hwf as [Hn Ha Hd]. simpl. split_and!; try done; [|lia..].
    constructor; simpl; [rewrite next_step by done; apply candidate_range| |set_solver].
    intros i Hi. apply elem_of_union in Hi as [Hi|Hi]; [|auto]. set_solver.
Qed.

Lemma allocate_go_finds fuel t n : tracker_wf t -> (n < fuel)%nat ->
  candidate (_next t) n ∉ active t -> is_ok (allocate_go fuel t).2 = true.
Proof.
  revert t n. induction fuel as [|fuel IH]; intros t n Hwf Hn Hc; [lia|]. simpl.
  case_bool_decide as Hin; [|done]. destruct n as [|n].
  { rewrite candidate_0 in Hc by apply Hwf. done. }
  apply (IH _ n); simpl; [|lia|].
  - destruct Hwf. constructor; simpl; [|done..]. rewrite next_step by done. apply candidate_range.
  - by rewrite next_step, candidate_shift by apply Hwf.
Qed.

(** With nothing active the first candidate is free. *)
Lemma allocate_idle t : tracker_wf t -> active t = ∅ ->
  exists t', allocate t = (t', Ok (_next t)) /\ tracker_wf t' /\ active t' = {[_next t]}
    /\ 1 <= _next t <= 65535.
Proof.
  intros Hwf Ha. unfold allocate. assert (exists n, id_count = S n) as [n ->].
  { exists (pred id_count). unfold id_count. lia. }
  destruct (allocate_go (S n) t) as [t' [id|e|]] eqn:E; cbn [allocate_go] in E;
    rewrite bool_decide_false in E by (rewrite Ha; set_solver); [|done..].
  injection E as E1 E2. exists t'. split; [by subst|].
  destruct (allocate_go_ok 1 t t' (_next t) Hwf) as (? & _ & ? & Ha' & _).
  - cbn [allocate_go]. rewrite bool_decide_false by (rewrite Ha; set_solver). by subst.
  - split_and!; try done; [|lia..]. rewrite Ha', Ha. set_solver.
Qed.

Lemma observe_wf r t : tracker_wf t -> tracker_wf (observe r t).1.
Proof.
  intros [Hn Ha Hd]. unfold observe. case_bool_decide; simpl.
  - destruct (terminal r); constructor; simpl; set_solver.
  - by destruct (terminal r && _); constructor.
Qed.

Lemma reserve_wf id t : tracker_wf t -> tracker_wf (reserve id t).1.
Proof.
  intros [Hn Ha Hd]. unfold reserve. destruct (_ || _) eqn:E; [done|]. bool_inv.
  constructor; simpl; [done| |set_solver]. intros i Hi. apply elem_of_union in Hi as [Hi|Hi]; [|auto].
  apply elem_of_singleton in Hi as ->. lia.
Qed.

Lemma allocate_wf t : tracker_wf t -> tracker_wf (allocate t).1.
Proof.
  unfold allocate. generalize id_count. intros fuel. revert t.
  induction fuel as [|fuel IH]; intros t Hwf; simpl; [done|]. case_bool_decide.
  - apply IH. destruct Hwf. constructor; simpl; [|done..]. rewrite next_step by done. apply candidate_range.
  - destruct Hwf as [Hn Ha Hd].
    constructor; simpl; [rewrite next_step by done; apply candidate_range| |set_solver].
    intros i Hi. apply elem_of_union in Hi as [Hi|Hi]; [|auto]. set_solver.
Qed.

Lemma release_wf id t : tracker_wf t -> tracker_wf (release id t).
Proof. intros [Hn Ha Hd]. constructor; simpl; set_solver. Qed.

Lemma clear_wf t : tracker_wf (clear t).
Proof. constructor; simpl; [lia|set_solver|set_solver]. Qed.

#[export] Hint Resolve allocate_wf reserve_wf observe_wf release_wf clear_wf : cs71.

(** ** Properties *)

(** [allocate] hands out an ID that is in 1..65535 and not active, marks
    exactly it active, and refuses only when every one of the 65535 IDs is
    active: the bounded scan over the wrapping counter misses no free ID. *)
Theorem allocate_complete (t : RequestTracker) :
  tracker_wf t ->
  match (allocate t).2 with
  | Ok id => 1 <= id <= 65535 /\ id ∉ active t /\ active (allocate t).1 = {[id]} ∪ active t
             /\ id ∉ terminal_ids (allocate t).1
  | Err e => isinstance e (Protocol RequestStateError) = true
             /\ forall i, 1 <= i <= 65535 -> i ∈ active t
  | OutOfFuel => False
  end.
Proof.
  intros Hwf. unfold allocate.
  destruct (allocate_go id_count t) as [t' [id|e|]] eqn:E; simpl.
  - apply allocate_go_ok in E as (_ & ? & ? & ? & Ht); [|done]. split_and!; try lia; try done.
    rewrite Ht. set_solver.
  - split.
    + revert E. generalize id_count. intros fuel. clear Hwf. revert t.
      induction fuel as [|fuel IH]; intros t; simpl; [by intros [= _ <-]|].
      case_bool_decide; [apply IH|done].
    + intros i Hi. destruct (decide (i ∈ active t)) as [|Hni]; [done|].
      destruct (candidate_onto (_next t) i (tw_next t Hwf) Hi) as (n & Hn & <-).
      pose proof (allocate_go_finds id_count t n Hwf Hn Hni) as Hok. by rewrite E in Hok.
  - revert E. generalize id_count. intros fuel. clear Hwf. revert t.
    induction fuel as [|fuel IH]; intros t; simpl; [done|]. case_bool_decide; [apply IH|done].
Qed.

Lemma allocate_complete_witness :
  match (allocate RequestTracker_init).2 with
  | Ok id => 1 <= id <= 65535 /\ id ∉ active RequestTracker_init
             /\ active (allocate RequestTracker_init).1 = {[id]} ∪ active RequestTracker_init
             /\ id ∉ terminal_ids (allocate RequestTracker_init).1
  | Err e => isinstance e (Protocol RequestStateError) = true
             /\ forall i, 1 <= i <= 65535 -> i ∈ active RequestTracker_init
  | OutOfFuel => False
  end.
Proof. apply (allocate_complete RequestTracker_init). apply (clear_wf RequestTracker_init). Defined.
