(* ===== verification/Framing.v ===== *)
(** * Bounded line framing (host/src/cs71_protocol/framing.py)

    Times are integers in microseconds; [time.monotonic] and [time.sleep] are
    operations of the world the reader runs in, so that the clock may advance
    between any two statements. *)
From S2P Require Import Prelude PyString Errors Crc.

(** ** The transport interface

    [T] is the state of the transport together with the clock. [bs_clock] and
    [bs_pending] are the observations the termination arguments need: the
    current time, and how many bytes the transport will still deliver before it
    is written to or reset again. *)
Class ByteStream (T : Type) := {
  bs_read : Z -> option Z -> M T exn string;
  bs_write : string -> M T exn (option Z);
  bs_reset : option (M T exn unit);
  bs_monotonic : T -> T * Z;
  bs_sleep : Z -> T -> T;
  bs_clock : T -> Z;
  bs_pending : T -> nat;
}.

(** An exception of the language or the operating system, none of the library's. *)
Definition os_error (e : exn) : bool := match exn_cls e with Builtin _ => true | _ => false end.

Lemma os_error_not_protocol e c : os_error e = true -> isinstance e (Protocol c) = false.
Proof. unfold os_error, isinstance. destruct (exn_cls e) as [| | | |[]]; try done; by destruct c. Qed.

(** What a transport promises: time never goes back, [sleep(d)] lasts at least
    [d], a read returns at most the requested bytes and consumes what it
    returns, and its failures are exceptions of the operating system. *)
Class ByteStreamLaws (T : Type) `{ByteStream T} : Prop := {
  monotonic_now t : (bs_monotonic t).2 <= bs_clock (bs_monotonic t).1;
  monotonic_le t : bs_clock t <= (bs_monotonic t).2;
  monotonic_pending t : (bs_pending (bs_monotonic t).1 <= bs_pending t)%nat;
  sleep_clock d t : bs_clock t + d <= bs_clock (bs_sleep d t);
  sleep_pending d t : (bs_pending (bs_sleep d t) <= bs_pending t)%nat;
  read_clock n o t : bs_clock t <= bs_clock (bs_read n o t).1;
  read_pending n o t : 0 <= n ->
    match (bs_read n o t).2 with
    | Ok s => (bs_pending (bs_read n o t).1 + String.length s <= bs_pending t)%nat /\ slen s <= n
    | Err e => (bs_pending (bs_read n o t).1 <= bs_pending t)%nat
               /\ os_error e = true
    | OutOfFuel => False
    end;
  write_clock s t : bs_clock t <= bs_clock (bs_write s t).1;
  write_out s t :
    match (bs_write s t).2 with Ok _ => True | Err e => os_error e = true | OutOfFuel => False end;
}.

(** ** The reader *)

Record LineReader := mkLineReader {
  lr_pending : string;
  line : string;
  discarded_reason : option string;
  v1_limit : Z;
  v2_limit : Z;
}.

Definition LineReader_init : LineReader := mkLineReader "" "" None 4096 64.

Definition lr_clear (r : LineReader) : LineReader :=
  mkLineReader "" "" None (v1_limit r) (v2_limit r).

Definition set_line (s : string) (r : LineReader) : LineReader :=
  mkLineReader (lr_pending r) s (discarded_reason r) (v1_limit r) (v2_limit r).
Definition set_discarded (o : option string) (r : LineReader) : LineReader :=
  mkLineReader (lr_pending r) (line r) o (v1_limit r) (v2_limit r).
Definition set_pending (s : string) (r : LineReader) : LineReader :=
  mkLineReader s (line r) (discarded_reason r) (v1_limit r) (v2_limit r).

Definition limit_of (v2 : bool) (r : LineReader) : Z := if v2 then v2_limit r else v1_limit r.

Definition LF : ascii := chr 10.
Definition CR : ascii := chr 13.

Definition ends_with_cr (s : string) : bool :=
  match str_last s with Some c => Ascii.eqb c CR | None => false end.

(** [payload.decode("ascii")] *)
Definition decode_line (payload : string) : result string :=
  match encode_ascii payload with
  | Some s => Ok s
  | None => throw (Protocol FramingError) "non-ASCII protocol line"
  end.

(** The body of [for byte in chunk]; [Some] is a return or a raise. *)
Definition feed_byte (v2 : bool) (byte : ascii) (r : LineReader) : LineReader * option (result string) :=
  let limit := limit_of v2 r in
  if code byte =? 0x0A then
    match discarded_reason r with
    | Some reason =>
        (set_discarded None (set_line "" r), Some (throw (Protocol FramingError) reason))
    | None =>
        let payload := line r in
        let payload := if ends_with_cr payload then str_init payload else payload in
        (set_line "" r, Some (decode_line payload))
    end
  else
    match discarded_reason r with
    | Some _ => (r, None)
    | None =>
        if v2 && ends_with_cr (line r) then (set_discarded (Some "bare CR in v2 line") r, None)
        else if v2 && negb (code byte =? 0x0D) && ((code byte <? 0x20) || (0x7E <? code byte))
        then (set_discarded (Some "invalid non-printable v2 byte") r, None)
        else if (limit <=? slen (line r)) && (negb v2 || negb (code byte =? 0x0D))
        then (set_discarded (Some ("line exceeds " +:+ str_of_Z limit +:+ " bytes")) r, None)
        else (set_line (line r +:+ String byte "") r, None)
    end.

(** A return in the middle of a chunk drops the rest of the chunk. *)
Fixpoint feed_chunk (v2 : bool) (chunk : string) (r : LineReader) : LineReader * option (result string) :=
  match chunk with
  | "" => (r, None)
  | String byte chunk =>
      match feed_byte v2 byte r with
      | (r', Some res) => (r', Some res)
      | (r', None) => feed_chunk v2 chunk r'
      end
  end.

Section ReadLine.
Context {T : Type} `{ByteStream T}.

(** [self._pending] first, the stream otherwise. *)
Definition next_chunk (remaining : Z) : M (LineReader * T) exn string := fun '(r, t) =>
  match lr_pending r with
  | String c rest => ((set_pending rest r, t), Ok (String c ""))
  | "" => let '(t', o) := bs_read 1 (Some remaining) t in ((r, t'), o)
  end.

Fixpoint read_line_go (fuel : nat) (deadline : Z) (v2 : bool) : M (LineReader * T) exn string :=
  fun '(r, t) =>
  match fuel with
  | O => ((r, t), OutOfFuel)
  | S fuel =>
      let '(t, now) := bs_monotonic t in
      let remaining := deadline - now in
      if remaining <=? 0
      then ((r, t), throw (Protocol TimeoutError) "timed out waiting for a complete line")
      else
        match next_chunk remaining (r, t) with
        | ((r, t), Err e) => ((r, t), Err e)
        | ((r, t), OutOfFuel) => ((r, t), OutOfFuel)
        | ((r, t), Ok "") =>
            let '(t, now) := bs_monotonic t in
            read_line_go fuel deadline v2 (r, bs_sleep (Z.min 1000 (Z.max 0 (deadline - now))) t)
        | ((r, t), Ok chunk) =>
            match feed_chunk v2 chunk r with
            | (r, Some res) => ((r, t), res)
            | (r, None) => read_line_go fuel deadline v2 (r, t)
            end
        end
  end.

(** Every iteration consumes a byte or sleeps: a millisecond, or what is left. *)
Definition read_fuel (timeout : Z) (r : LineReader) (t : T) : nat :=
  String.length (lr_pending r) + bs_pending t + Z.to_nat (timeout / 1000) + 3.

Definition read_line (timeout : Z) (v2 : bool) : M (LineReader * T) exn string := fun '(r, t) =>
  let '(t, now) := bs_monotonic t in
  read_line_go (read_fuel timeout r t) (now + timeout) v2 (r, t).
End ReadLine.

(** ** The reference decoder

    What a complete raw line (everything before its LF) means, with no state
    machine: one optional trailing CR is dropped; a v2 line must then be
    printable and within the limit, a v1 line is bounded as received and must
    be ASCII. *)
Definition strip_cr (raw : string) : string := if ends_with_cr raw then str_init raw else raw.

Definition line_accepted (v2 : bool) (limit : Z) (raw : string) : bool :=
  if v2 then str_forall is_printable (strip_cr raw) && (slen (strip_cr raw) <=? limit)
  else slen raw <=? limit.

Definition line_spec (v2 : bool) (limit : Z) (raw : string) : option string :=
  if line_accepted v2 limit raw then encode_ascii (strip_cr raw) else None.

Definition reader_clean (r : LineReader) : Prop :=
  lr_pending r = "" /\ line r = "" /\ discarded_reason r = None.

Lemma strip_cr_snoc s c : strip_cr (s +:+ String c "") = if Ascii.eqb c CR then s else s +:+ String c "".
Proof. unfold strip_cr, ends_with_cr. rewrite str_last_snoc. destruct (Ascii.eqb c CR); [apply str_init_snoc|done]. Qed.

Lemma eqb_cr c : Ascii.eqb c CR = (code c =? 0x0D).
Proof.
  destruct (Ascii.eqb_spec c CR) as [->|Hn]; [done|]. symmetry. apply Z.eqb_neq. intros E.
  apply Hn, code_inj. by rewrite E.
Qed.

Lemma printable_not_cr s : str_forall is_printable s = true -> ends_with_cr s = false.
Proof.
  unfold ends_with_cr. intros H. destruct (str_last s) as [c|] eqn:E; [|done].
  apply str_last_forall with (f := is_printable) in E; [|done].
  destruct (Ascii.eqb_spec c CR) as [->|]; done.
Qed.

Lemma accepted_not_cr limit s : ends_with_cr s = false ->
  line_accepted true limit s = str_forall is_printable s && (slen s <=? limit).
Proof. intros H. unfold line_accepted, strip_cr. by rewrite H. Qed.

(** The acceptance predicate one byte at a time, as the loop tests it. *)
Lemma line_accepted_snoc v2 limit s c : 0 <= limit ->
  line_accepted v2 limit (s +:+ String c "") =
    line_accepted v2 limit s
    && negb (v2 && ends_with_cr s)
    && negb (v2 && negb (code c =? 0x0D) && ((code c <? 0x20) || (0x7E <? code c)))
    && negb ((limit <=? slen s) && (negb v2 || negb (code c =? 0x0D))).
Proof.
  intros Hlim. destruct v2; cbn [andb negb orb].
  - unfold line_accepted at 1. rewrite strip_cr_snoc, eqb_cr.
    destruct (code c =? 13) eqn:Ec; cbn [andb negb orb];
      rewrite ?andb_false_r; cbn [andb negb orb]; rewrite ?andb_true_r.
    + destruct (ends_with_cr s) eqn:Es; cbn [negb]; rewrite ?andb_false_r, ?andb_true_r.
      * apply not_true_is_false. intros H. bool_inv. by rewrite printable_not_cr in Es.
      * by rewrite accepted_not_cr.
    + destruct (ends_with_cr s) eqn:Es; cbn [negb]; rewrite ?andb_false_r, ?andb_true_r; cbn [andb].
      * apply not_true_is_false. rewrite str_forall_app. intros H. bool_inv.
        by rewrite printable_not_cr in Es.
      * rewrite accepted_not_cr, str_forall_app, slen_app by done. simpl str_forall at 2.
        unfold is_printable at 2. change (slen (String c "")) with 1.
        apply eq_true_iff_eq. rewrite !andb_true_iff, !negb_true_iff, orb_false_iff, !Z.leb_le, Z.leb_gt, !Z.ltb_ge.
        split; intros; destruct_and?; split_and?; try done; lia.
  - unfold line_accepted. rewrite slen_app. change (slen (String c "")) with 1.
    apply eq_true_iff_eq. rewrite !andb_true_iff, !negb_true_iff, andb_false_iff, !Z.leb_le, Z.leb_gt.
    split; intros; destruct_and?; split_and?; try done; lia.
Qed.

Lemma feed_byte_step v2 c r s : 0 <= limit_of v2 r -> code c <> 0x0A ->
  line r = s -> discarded_reason r = None -> line_accepted v2 (limit_of v2 r) s = true ->
  exists reason,
    feed_byte v2 c r =
      (if line_accepted v2 (limit_of v2 r) (s +:+ String c "")
       then set_line (s +:+ String c "") r else set_discarded (Some reason) r, None).
Proof.
  intros Hlim Hc Hl Hd Ha. rewrite line_accepted_snoc, Ha by done. unfold feed_byte.
  rewrite Hd, Hl. rewrite (proj2 (Z.eqb_neq _ _) Hc). simpl andb.
  destruct (v2 && ends_with_cr s); [by eexists|]. simpl.
  destruct (v2 && _ && _); [by eexists|]. simpl.
  destruct (_ && _); [by eexists|]. by exists "".
Qed.

Lemma feed_discarded v2 s r reason : discarded_reason r = Some reason -> str_mem LF s = false ->
  feed_chunk v2 s r = (r, None).
Proof.
  intros Hd. induction s as [|c s IH]; [done|]. rewrite str_mem_cons. intros H. bool_inv.
  simpl. unfold feed_byte. rewrite Hd.
  replace (code c =? 10) with false; [by apply IH|]. symmetry. apply Z.eqb_neq. intros E.
  apply Ascii.eqb_neq in H. apply H. symmetry. apply code_inj. by rewrite E.
Qed.

Lemma not_lf c s : str_mem LF (String c s) = false -> code c <> 0x0A /\ str_mem LF s = false.
Proof.
  rewrite str_mem_cons. intros H. bool_inv. split; [|done]. intros E. apply Ascii.eqb_neq in H.
  apply H. symmetry. apply code_inj. by rewrite E.
Qed.

Lemma line_accepted_prefix v2 limit a s : 0 <= limit ->
  line_accepted v2 limit a = false -> line_accepted v2 limit (a +:+ s) = false.
Proof.
  intros Hlim. revert a. induction s as [|c s IH]; intros a Ha; [by rewrite str_app_nil_r|].
  replace (a +:+ String c s) with ((a +:+ String c "") +:+ s) by (by rewrite <- str_app_assoc).
  apply IH. by rewrite line_accepted_snoc, Ha.
Qed.

(** After a prefix of a line the reader holds it, or remembers a refusal. *)
Lemma feed_prefix v2 s acc r : 0 <= limit_of v2 r -> str_mem LF s = false ->
  line r = acc -> discarded_reason r = None -> line_accepted v2 (limit_of v2 r) acc = true ->
  exists reason l,
    feed_chunk v2 s r =
      (if line_accepted v2 (limit_of v2 r) (acc +:+ s)
       then set_line (acc +:+ s) r else set_discarded (Some reason) (set_line l r), None).
Proof.
  revert acc r. induction s as [|c s IH]; intros acc r Hlim Hs Hl Hd Ha.
  - exists "", "". rewrite str_app_nil_r, Ha. destruct r; simpl in *. by subst.
  - apply not_lf in Hs as [Hc Hs]. simpl feed_chunk.
    destruct (feed_byte_step v2 c r acc Hlim Hc Hl Hd Ha) as [reason ->].
    replace (acc +:+ String c s) with ((acc +:+ String c "") +:+ s) by (by rewrite <- str_app_assoc).
    destruct (line_accepted v2 _ (acc +:+ String c "")) eqn:E.
    + apply (IH (acc +:+ String c "") (set_line (acc +:+ String c "") r)); done.
    + rewrite (feed_discarded v2 s _ reason) by done. exists reason, (line r).
      rewrite line_accepted_prefix by done. by destruct r.
Qed.

Lemma accepted_empty v2 limit : 0 <= limit -> line_accepted v2 limit "" = true.
Proof. intros H. destruct v2; simpl; by apply Z.leb_le. Qed.

Lemma feed_app v2 a b r : feed_chunk v2 (a +:+ b) r =
  match feed_chunk v2 a r with (r', Some x) => (r', Some x) | (r', None) => feed_chunk v2 b r' end.
Proof.
  revert r. induction a as [|c a IH]; intros r; [done|]. rewrite str_app_cons. simpl.
  destruct (feed_byte v2 c r) as [r' [x|]]; [done|]. apply IH.
Qed.

(** The outcome the reference decoder prescribes. *)
Definition decodes_to (o : option string) (res : result string) : Prop :=
  match o with
  | Some p => res = Ok p
  | None => exists e, res = Err e /\ isinstance e (Protocol FramingError) = true
  end.

Lemma feed_whole_line v2 raw r : 0 <= limit_of v2 r -> str_mem LF raw = false -> reader_clean r ->
  exists res, feed_chunk v2 (raw +:+ String LF "") r = (r, Some res)
    /\ decodes_to (line_spec v2 (limit_of v2 r) raw) res.
Proof.
  intros Hlim Hraw (Hp & Hl & Hd). rewrite feed_app.
  destruct (feed_prefix v2 raw "" r) as (reason & l & ->); auto using accepted_empty.
  rewrite (eq_refl : "" +:+ raw = raw). unfold line_spec.
  destruct (line_accepted v2 _ raw); cbn [feed_chunk]; unfold feed_byte; cbn; rewrite ?Hd.
  - eexists. split; [by destruct r; simpl in *; subst|]. unfold decode_line. by fold (strip_cr raw);
      destruct (encode_ascii (strip_cr raw)); [|eexists].
  - eexists. split; [by destruct r; simpl in *; subst|]. by eexists.
Qed.

(** ** Memory *)

(** The partial line of a reader, whatever has been read in either mode: at
    most the larger limit, and one CR that may still end the line. *)
Definition reader_bounded (r : LineReader) : Prop :=
  slen (strip_cr (line r)) <= Z.max (v1_limit r) (v2_limit r)
  /\ 0 <= v1_limit r /\ 0 <= v2_limit r.

Lemma strip_cr_le s : slen s <= slen (strip_cr s) + 1 /\ slen (strip_cr s) <= slen s.
Proof.
  destruct (str_snoc_inv s) as [->|(s' & c & ->)]; [done|]. rewrite strip_cr_snoc, slen_app.
  change (slen (String c "")) with 1. destruct (Ascii.eqb c CR); rewrite ?slen_app; [lia|].
  change (slen (String c "")) with 1. lia.
Qed.

Lemma feed_byte_bounded v2 c r : reader_bounded r -> reader_bounded (feed_byte v2 c r).1.
Proof.
  intros (Hb & H1 & H2). unfold feed_byte, reader_bounded.
  repeat (case_match; simpl; try (split_and!; (done || (unfold slen; simpl; lia)))).
  split_and!; try done. rewrite strip_cr_snoc. pose proof (strip_cr_le (line r)) as [Hs _].
  destruct (Ascii.eqb c CR) eqn:Ec; rewrite eqb_cr in Ec; rewrite ?slen_app.
  - unfold limit_of in *. destruct v2; simpl in *.
    + replace (line r) with (strip_cr (line r)); [done|]. unfold strip_cr. by destruct (ends_with_cr (line r)).
    + rewrite andb_true_r in *. bool_inv. lia.
  - change (slen (String c "")) with 1. unfold limit_of in *.
    destruct v2; simpl in *; rewrite ?Ec, ?andb_true_r in *; bool_inv; lia.
Qed.

Lemma feed_chunk_bounded v2 s r : reader_bounded r -> reader_bounded (feed_chunk v2 s r).1.
Proof.
  revert r. induction s as [|c s IH]; intros r Hr; [done|]. simpl.
  pose proof (feed_byte_bounded v2 c r Hr). destruct (feed_byte v2 c r) as [r' [x|]]; [done|]. by apply IH.
Qed.

Lemma feed_byte_pending v2 c r : lr_pending (feed_byte v2 c r).1 = lr_pending r.
Proof. unfold feed_byte. by repeat case_match. Qed.

Lemma feed_chunk_pending v2 s r : lr_pending (feed_chunk v2 s r).1 = lr_pending r.
Proof.
  revert r. induction s as [|c s IH]; intros r; [done|]. simpl.
  pose proof (feed_byte_pending v2 c r). destruct (feed_byte v2 c r) as [r' [x|]]; [done|].
  rewrite IH. done.
Qed.

#[export] Hint Resolve feed_chunk_bounded : cs71.

(** Rounds of a loop that lets [u] elapse per round, or what is left of [d]. *)
Definition rounds (u d : Z) : nat := if d <=? 0 then 1 else S (S (Z.to_nat (d / u))).

Lemma rounds_pos u d : (1 <= rounds u d)%nat.
Proof. unfold rounds. case_match; lia. Qed.

Lemma rounds_mono u d e : 0 < u -> d <= e -> (rounds u d <= rounds u e)%nat.
Proof.
  intros Hu Hde. unfold rounds. destruct (d <=? 0) eqn:E1, (e <=? 0) eqn:E2; bool_inv; try lia.
  assert (d / u <= e / u) by (apply Z.div_le_mono; lia). lia.
Qed.

Lemma rounds_step u d e : 0 < u -> 0 < d -> e <= d - Z.min u d -> (S (rounds u e) <= rounds u d)%nat.
Proof.
  intros Hu Hd He. unfold rounds. rewrite (proj2 (Z.leb_gt d 0)) by done.
  destruct (e <=? 0) eqn:E; bool_inv; [lia|].
  assert (d / u = (d - u) / u + 1) as ->.
  { replace d with (d - u + 1 * u) at 1 by lia. by rewrite Z.div_add by lia. }
  assert (e / u <= (d - u) / u) by (apply Z.div_le_mono; lia).
  assert (0 <= e / u) by (apply Z.div_pos; lia). lia.
Qed.

Lemma rounds_le u d : 0 < u -> (rounds u d <= Z.to_nat (d / u) + 2)%nat.
Proof. intros Hu. unfold rounds. case_match; lia. Qed.

Section ReadLineFacts.
Context {T : Type} `{ByteStreamLaws T}.

Lemma next_chunk_spec remaining r t :
  let '((r', t'), o) := next_chunk remaining (r, t) in
  line r' = line r /\ discarded_reason r' = discarded_reason r
  /\ v1_limit r' = v1_limit r /\ v2_limit r' = v2_limit r /\ bs_clock t <= bs_clock t'
  /\ (String.length (lr_pending r') <= String.length (lr_pending r))%nat
  /\ match o with
     | Ok s => (String.length (lr_pending r') + bs_pending t' + String.length s
                <= String.length (lr_pending r) + bs_pending t)%nat
     | Err e => (bs_pending t' <= bs_pending t)%nat /\ os_error e = true
     | OutOfFuel => False
     end.
Proof.
  unfold next_chunk. destruct (lr_pending r) as [|c rest] eqn:E.
  - pose proof (read_clock 1 (Some remaining) t). pose proof (read_pending 1 (Some remaining) t ltac:(lia)) as Hp.
    destruct (bs_read 1 (Some remaining) t) as [t' [s|e|]]; simpl in *; rewrite ?E; simpl; split_and!; try done; lia || apply Hp.
  - destruct r; simpl in *; subst; simpl. split_and!; done || lia.
Qed.

Definition undelivered (w : LineReader * T) : nat := (String.length (lr_pending w.1) + bs_pending w.2)%nat.

(** What one call of the reader guarantees, from world [w] to [w']. *)
Definition read_post (deadline : Z) (w w' : LineReader * T) (o : result string) : Prop :=
  bs_clock w.2 <= bs_clock w'.2 /\ (undelivered w' <= undelivered w)%nat
  /\ (reader_bounded w.1 -> reader_bounded w'.1)
  /\ match o with
     | Ok _ => (undelivered w' < undelivered w)%nat
     | Err e => (isinstance e (Protocol TimeoutError) = true -> deadline <= bs_clock w'.2)
                /\ isinstance e (Protocol RecoveryError) = false
     | OutOfFuel => False
     end.

Lemma feed_byte_not_timeout v2 c r e :
  (feed_byte v2 c r).2 = Some (Err e) -> exn_cls e = Protocol FramingError.
Proof.
  unfold feed_byte, decode_line. repeat case_match; simpl; try done; by intros [= <-].
Qed.

Lemma feed_byte_halts v2 c r : (feed_byte v2 c r).2 <> Some OutOfFuel.
Proof. unfold feed_byte, decode_line. by repeat case_match. Qed.

Lemma feed_chunk_out v2 s r x : (feed_chunk v2 s r).2 = Some x ->
  match x with Ok _ => True | Err e => exn_cls e = Protocol FramingError | OutOfFuel => False end.
Proof.
  revert r. induction s as [|c s IH]; intros r; [done|]. cbn [feed_chunk].
  pose proof (feed_byte_not_timeout v2 c r) as Hn. pose proof (feed_byte_halts v2 c r) as Hh.
  destruct (feed_byte v2 c r) as [r' [y|]]; simpl in *; [|apply IH].
  intros [= <-]. destruct y; auto.
Qed.

#[local] Arguments next_chunk : simpl never.
#[local] Arguments feed_chunk : simpl never.

Lemma read_post_trans deadline w w' w'' o :
  bs_clock w.2 <= bs_clock w'.2 -> (undelivered w' <= undelivered w)%nat ->
  (reader_bounded w.1 -> reader_bounded w'.1) -> read_post deadline w' w'' o -> read_post deadline w w'' o.
Proof.
  intros H1 H2 H3 (H4 & H5 & H6 & H7). unfold read_post. split_and!; [lia|lia|auto|].
  destruct o; auto. lia.
Qed.

Lemma read_line_go_spec fuel deadline v2 w :
  (undelivered w + rounds 1000 (deadline - bs_clock w.2) <= fuel)%nat ->
  let p := read_line_go fuel deadline v2 w in read_post deadline w p.1 p.2.
Proof.
  revert w. induction fuel as [|fuel IH]; intros [r t] Hf; simpl in Hf;
    pose proof (rounds_pos 1000 (deadline - bs_clock t)); [lia|]. simpl.
  pose proof (monotonic_now t) as Hn. pose proof (monotonic_le t) as Hl.
  pose proof (monotonic_pending t) as Hp. destruct (bs_monotonic t) as [t1 now]. simpl in *.
  destruct (deadline - now <=? 0) eqn:Erem; bool_inv.
  { unfold read_post, undelivered; simpl. split_and!; [lia|lia|done|intros; lia|done]. }
  pose proof (next_chunk_spec (deadline - now) r t1) as Hc.
  destruct (next_chunk (deadline - now) (r, t1)) as [[r2 t2] o].
  destruct Hc as (El & Ed & E1 & E2 & Hck & Hpl & Ho).
  assert (reader_bounded r -> reader_bounded r2) as Hrb
    by (unfold reader_bounded; rewrite El, E1, E2; done).
  destruct o as [[|c s]|e|]; [..|done].
  - (* an empty read sleeps *)
    pose proof (monotonic_now t2) as Hn2. pose proof (monotonic_le t2) as Hl2.
    pose proof (monotonic_pending t2) as Hp2. destruct (bs_monotonic t2) as [t3 now2]. simpl in *.
    set (d := Z.min 1000 (Z.max 0 (deadline - now2))).
    pose proof (sleep_clock d t3) as Hs. pose proof (sleep_pending d t3) as Hsp.
    eapply (read_post_trans _ _ (r2, bs_sleep d t3)); simpl; [lia|unfold undelivered; simpl in *; lia|done|].
    apply IH. unfold undelivered in *; simpl in *.
    assert (S (rounds 1000 (deadline - bs_clock (bs_sleep d t3))) <= rounds 1000 (deadline - bs_clock t))%nat; [|lia].
    destruct (decide (0 < deadline - bs_clock t)).
    + etrans; [|apply (rounds_mono 1000 (Z.max 1 (deadline - now2))); lia].
      apply rounds_step; lia.
    + lia.
  - (* a byte arrived *)
    pose proof (feed_chunk_out v2 (String c s) r2) as Hout.
    pose proof (feed_chunk_bounded v2 (String c s) r2) as Hfb.
    pose proof (feed_chunk_pending v2 (String c s) r2) as Hfp.
    destruct (feed_chunk v2 (String c s) r2) as [r3 [x|]]; cbn [fst snd] in *;
      unfold undelivered in *; simpl in *.
    + specialize (Hout x eq_refl). unfold read_post, undelivered. cbn [fst snd].
      rewrite Hfp. split_and!; [lia|lia|auto|]. destruct x; [lia|by unfold isinstance; rewrite Hout|done].
    + eapply (read_post_trans _ _ (r3, t2)); unfold undelivered; simpl; [lia|rewrite Hfp; lia|auto|].
      apply IH. unfold undelivered; simpl. rewrite Hfp.
      assert (rounds 1000 (deadline - bs_clock t2) <= rounds 1000 (deadline - bs_clock t))%nat
        by (apply rounds_mono; lia). lia.
  - destruct Ho as [Hle Hto]. unfold read_post, undelivered; simpl. split_and!; [lia|lia|done|..];
      by rewrite (os_error_not_protocol e _ Hto).
Qed.

Lemma read_line_spec timeout v2 w :
  let p := read_line timeout v2 w in read_post (bs_clock w.2 + timeout) w p.1 p.2.
Proof.
  destruct w as [r t]. unfold read_line. pose proof (monotonic_now t) as Hn.
  pose proof (monotonic_le t) as Hl. pose proof (monotonic_pending t) as Hp.
  destruct (bs_monotonic t) as [t1 now]. simpl in *.
  eapply (read_post_trans _ _ (r, t1)); simpl; [lia|unfold undelivered; simpl; lia|done|].
  pose proof (read_line_go_spec (read_fuel timeout r t1) (now + timeout) v2 (r, t1)) as Hgo.
  destruct (read_line_go _ _ _ _) as [w' o]. destruct Hgo as (H1 & H2 & H3 & H4).
  - unfold undelivered, read_fuel; simpl.
    assert (rounds 1000 (now + timeout - bs_clock t1) <= Z.to_nat (timeout / 1000) + 2)%nat; [|lia].
    etrans; [apply (rounds_mono 1000 _ timeout); lia|by apply rounds_le].
  - unfold read_post. split_and!; try done. destruct o; try done. destruct H4 as [H4 H5].
    split; [|done]. intros E. specialize (H4 E). simpl in *. lia.
Qed.
End ReadLineFacts.
