(* ===== verification/Transport.v ===== *)
(** * The scripted transport (host/src/cs71_protocol/transport.py)

    [ScriptedTransport] is the deterministic no-hardware byte stream of the
    protocol library; with a clock that only [sleep] advances it implements the
    [ByteStream] interface, and the reader's theorems are stated over it. *)
From S2P Require Import Prelude PyString Errors Crc Framing.

Record ScriptedTransport := mkScripted {
  incoming : list string;
  reset_incoming : list string;
  writes : list string;
  resets : Z;
  closed : bool;
  sc_clock : Z;
}.

Definition ScriptedTransport_init (inc rst : list string) : ScriptedTransport :=
  mkScripted inc rst [] 0 false 0.

Definition set_incoming (l : list string) (t : ScriptedTransport) : ScriptedTransport :=
  mkScripted l (reset_incoming t) (writes t) (resets t) (closed t) (sc_clock t).

(** [s[:n]] *)
Definition str_take (n : nat) (s : string) : string := String.substring 0 n s.

Definition sc_read (size : Z) (timeout : option Z) : M ScriptedTransport exn string := fun t =>
  match incoming t with
  | [] => (t, Ok "")
  | item :: rest =>
      if size <? slen item
      then (set_incoming (str_drop (Z.to_nat size) item :: rest) t, Ok (str_take (Z.to_nat size) item))
      else (set_incoming rest t, Ok item)
  end.

Definition sc_write (data : string) : M ScriptedTransport exn (option Z) := fun t =>
  (mkScripted (incoming t) (reset_incoming t) (writes t ++ [data]) (resets t) (closed t) (sc_clock t),
   Ok (Some (slen data))).

Definition sc_reset : M ScriptedTransport exn unit := fun t =>
  (mkScripted (incoming t ++ reset_incoming t) (reset_incoming t) (writes t) (resets t + 1)
     (closed t) (sc_clock t), Ok tt).

Definition sc_close (t : ScriptedTransport) : ScriptedTransport :=
  mkScripted (incoming t) (reset_incoming t) (writes t) (resets t) true (sc_clock t).

Definition sc_sleep (d : Z) (t : ScriptedTransport) : ScriptedTransport :=
  mkScripted (incoming t) (reset_incoming t) (writes t) (resets t) (closed t) (sc_clock t + Z.max 0 d).

(** Everything still to be delivered, in order. *)
Definition content (t : ScriptedTransport) : string := str_join "" (incoming t).

#[export] Instance scripted_stream : ByteStream ScriptedTransport := {
  bs_read := sc_read;
  bs_write := sc_write;
  bs_reset := Some sc_reset;
  bs_monotonic t := (t, sc_clock t);
  bs_sleep := sc_sleep;
  bs_clock := sc_clock;
  bs_pending t := String.length (content t);
}.

Lemma str_take_drop n s : str_take n s +:+ str_drop n s = s.
Proof.
  unfold str_take. revert n. induction s as [|c s IH]; intros [|n]; simpl; try done.
  rewrite str_app_cons. by rewrite IH.
Qed.

Lemma slen_take n s : slen (str_take n s) <= Z.of_nat n.
Proof.
  unfold str_take. revert n. induction s as [|c s IH]; intros [|n]; simpl; try (unfold slen; simpl; lia).
  rewrite slen_cons. specialize (IH n). lia.
Qed.

Lemma join_cons x l : str_join "" (x :: l) = x +:+ str_join "" l.
Proof. destruct l; simpl; [by rewrite str_app_nil_r|done]. Qed.

(** A read splits the content: what it returns, then what is left. *)
Lemma sc_read_content n o t : 0 <= n ->
  exists s, (sc_read n o t).2 = Ok s /\ content t = s +:+ content (sc_read n o t).1 /\ slen s <= n
    /\ sc_clock (sc_read n o t).1 = sc_clock t.
Proof.
  intros Hn. unfold sc_read, content. destruct (incoming t) as [|item rest] eqn:E.
  - exists "". simpl. rewrite E. split_and!; done.
  - destruct (n <? slen item) eqn:En; bool_inv; cbn [fst snd incoming set_incoming sc_clock].
    + eexists. split; [done|]. rewrite !join_cons, str_app_assoc, str_take_drop. split_and!; try done.
      etrans; [apply slen_take|lia].
    + exists item. by rewrite join_cons.
Qed.


#[export] Instance scripted_laws : ByteStreamLaws ScriptedTransport.
Proof.
  split; simpl; try done; try lia.
  - intros n o t. unfold sc_read. repeat case_match; simpl; lia.
  - intros n o t Hn. destruct (sc_read_content n o t) as (s & -> & -> & ? & _); [done|].
    rewrite str_length_app. lia.
Qed.

(** ** Reading lines off a scripted transport *)

Definition no_empty_chunk (t : ScriptedTransport) : Prop := Forall (fun s => s <> "") (incoming t).

Lemma sc_read_byte c k o t : no_empty_chunk t -> content t = String c k ->
  exists t', sc_read 1 o t = (t', Ok (String c "")) /\ content t' = k /\ no_empty_chunk t'
    /\ sc_clock t' = sc_clock t /\ writes t' = writes t.
Proof.
  unfold no_empty_chunk, content, sc_read. intros Hn. destruct (incoming t) as [|item rest]; [done|].
  apply Forall_cons in Hn as [Hi Hr]. destruct item as [|d item]; [done|].
  rewrite join_cons, str_app_cons. intros [= -> <-]. rewrite slen_cons. pose proof (slen_nonneg item).
  destruct (1 <? 1 + slen item) eqn:E; bool_inv.
  - exists (set_incoming (item :: rest) t). split; [|cbn [incoming set_incoming sc_clock]; split_and!; [by rewrite join_cons| |done..]].
    + change (Z.to_nat 1) with 1%nat. unfold str_take. simpl. by destruct item.
    + constructor; [|done]. intros ->. unfold slen in E. simpl in E. lia.
  - assert (item = "") as -> by (apply slen_0; lia). by eexists.
Qed.

Lemma feed_byte_lf v2 c r : is_Some (feed_byte v2 c r).2 <-> code c = 0x0A.
Proof.
  unfold feed_byte. destruct (Z.eqb_spec (code c) 10).
  - split; [done|]. intros _. by destruct (discarded_reason r).
  - split; [|done]. repeat case_match; simpl; by intros [? ?].
Qed.

Lemma scripted_read_go fuel deadline v2 raw rest r t : lr_pending r = "" -> no_empty_chunk t ->
  content t = raw +:+ String LF rest -> str_mem LF raw = false -> sc_clock t < deadline ->
  (String.length raw < fuel)%nat ->
  exists r' t' x, read_line_go fuel deadline v2 (r, t) = ((r', t'), x)
    /\ feed_chunk v2 (raw +:+ String LF "") r = (r', Some x) /\ content t' = rest
    /\ no_empty_chunk t' /\ writes t' = writes t.
Proof.
  revert fuel r t. induction raw as [|c raw IH]; intros fuel r t Hp Hne Hc Hlf Hd Hf;
    (destruct fuel as [|fuel]; [simpl in Hf; lia|]); cbn [read_line_go bs_monotonic scripted_stream];
    rewrite (proj2 (Z.leb_gt _ _)) by lia; unfold next_chunk; rewrite Hp; cbn [bs_read scripted_stream];
    destruct (sc_read_byte _ _ (Some (deadline - sc_clock t)) t Hne Hc) as (t' & -> & Hc' & Hn' & Ht' & Hw').
  - cbn [feed_chunk]. destruct (feed_byte_lf v2 LF r) as [_ Hx]. destruct (Hx eq_refl) as [x Ex].
    change ("" +:+ String LF "") with (String LF ""). cbn [feed_chunk].
    destruct (feed_byte v2 LF r) as [r' o]. simpl in Ex. subst o. by exists r', t', x.
  - apply not_lf in Hlf as [Hc1 Hlf]. rewrite str_app_cons. cbn [feed_chunk].
    pose proof (feed_byte_pending v2 c r) as Hpend.
    destruct (feed_byte_lf v2 c r) as [Hx _]. destruct (feed_byte v2 c r) as [r' [x|]]; simpl in *.
    + exfalso. by apply Hc1, Hx.
    + destruct (IH fuel r' t') as (r2 & t2 & y & H1 & H2 & H3 & H4 & H5); try done; try lia; [congruence|].
      exists r2, t2, y. split_and!; try done. congruence.
Qed.

(** ** Properties *)

(** C31: [read_line] implements the reference decoder. When the bytes waiting in
    the transport are a raw line, its LF and a remainder, in any chunking
    without empty chunks, one call with a positive timeout returns the payload
    the decoder prescribes (dropping one CR before the LF) or raises a
    [FramingError] where it prescribes a refusal (too long, a bare CR, a
    non-printable v2 byte, a non-ASCII byte); either way exactly that line is
    consumed and the reader is clean, so the next line is framed afresh. *)
Theorem read_line_refines (v2 : bool) (timeout : Z) (raw rest : string) (r : LineReader) (t : ScriptedTransport) :
  0 < timeout -> 0 <= limit_of v2 r -> reader_clean r -> no_empty_chunk t ->
  content t = raw +:+ String LF rest -> str_mem LF raw = false ->
  exists t' res, read_line timeout v2 (r, t) = ((r, t'), res)
    /\ decodes_to (line_spec v2 (limit_of v2 r) raw) res
    /\ content t' = rest /\ no_empty_chunk t'.
Proof.
  intros Ht Hlim Hcl Hne Hc Hlf. unfold read_line. cbn [bs_monotonic scripted_stream].
  destruct (scripted_read_go (read_fuel timeout r t) (sc_clock t + timeout) v2 raw rest r t)
    as (r' & t' & x & -> & Hfeed & Hrest & Hn' & _); try done; try apply Hcl; [lia| |].
  - unfold read_fuel. cbn [bs_pending scripted_stream]. rewrite Hc, str_length_app. simpl. lia.
  - destruct (feed_whole_line v2 raw r Hlim Hlf Hcl) as (res & E & Hres).
    rewrite Hfeed in E. injection E as -> ->. by exists t', res.
Qed.

Lemma read_line_refines_witness :
  exists t' res, read_line 1000 true (LineReader_init, ScriptedTransport_init ["@1 d"; "one" +:+ String CR (String LF "Re"); "ady"] [])
      = ((LineReader_init, t'), res)
    /\ decodes_to (line_spec true 64 ("@1 done" +:+ String CR "")) res
    /\ content t' = "Ready" /\ no_empty_chunk t'.
Proof.
  apply (read_line_refines true 1000 ("@1 done" +:+ String CR "") "Ready" LineReader_init);
    try done. unfold no_empty_chunk. by repeat constructor.
Defined.

(** C32: over any transport that keeps the interface's promises, [read_line]
    always returns or raises (the loop cannot spin for ever), it raises
    [TimeoutError] only once the whole timeout has elapsed, a returned line
    consumed input, and the partial line kept in memory stays within the larger
    of the two limits plus a trailing CR. *)
Theorem read_line_safe {T : Type} `{ByteStreamLaws T} (timeout : Z) (v2 : bool) (r : LineReader) (t : T) :
  reader_bounded r ->
  let p := read_line timeout v2 (r, t) in
  slen (line p.1.1) <= Z.max (v1_limit p.1.1) (v2_limit p.1.1) + 1
  /\ match p.2 with
     | Ok _ => (undelivered p.1 < undelivered (r, t))%nat
     | Err e => isinstance e (Protocol TimeoutError) = true -> bs_clock t + timeout <= bs_clock p.1.2
     | OutOfFuel => False
     end.
Proof.
  intros Hb. pose proof (read_line_spec timeout v2 (r, t)) as Hs.
  destruct (read_line timeout v2 (r, t)) as [[r' t'] o]. destruct Hs as (_ & _ & Hb' & Ho).
  split; [|destruct o; try done; by destruct Ho]. destruct (Hb' Hb) as [Hl _]. simpl in *. pose proof (strip_cr_le (line r')). lia.
Qed.

Lemma read_line_safe_witness :
  let t := ScriptedTransport_init ["abc"] [] in
  let p := read_line 5000 true (LineReader_init, t) in
  slen (line p.1.1) <= Z.max (v1_limit p.1.1) (v2_limit p.1.1) + 1
  /\ match p.2 with
     | Ok _ => (undelivered p.1 < undelivered (LineReader_init, t))%nat
     | Err e => isinstance e (Protocol TimeoutError) = true -> bs_clock t + 5000 <= bs_clock p.1.2
     | OutOfFuel => False
     end.
Proof.
  intros t. apply (@read_line_safe ScriptedTransport scripted_stream scripted_laws 5000 true LineReader_init t).
  by split.
Defined.
