(* ===== verification/Client.v ===== *)
(** * The protocol client (host/src/cs71_protocol/client.py)

    [ProtocolClient] over any [ByteStream]. The injected callables ([reset],
    [on_event], [on_recovery] and the interruption check of a request) act on
    the world [T] the transport lives in. The [__cause__] of a raised exception
    is not part of the model. *)
From S2P Require Import Prelude PyString Errors Crc Models Parsing Tracking Framing.

(** The constructor's arguments that never change. *)
Record ClientConfig (T : Type) := mkClientConfig {
  cfg_timeout : Z;
  reset_hook : option (M T exn unit);
  on_event : option (Event -> bool -> M T exn unit);
  on_recovery : option (M T exn unit);
}.
Arguments mkClientConfig {T}.
Arguments cfg_timeout {T}.
Arguments reset_hook {T}.
Arguments on_event {T}.
Arguments on_recovery {T}.

Record ProtocolClient (T : Type) := mkClient {
  transport : T;
  reader : LineReader;
  cl_mode : SessionMode;
  crc_enabled : bool;
  requests : RequestTracker;
  events : EventTracker;
  cl_status : option Status;
}.
Arguments mkClient {T}.
Arguments transport {T}.
Arguments reader {T}.
Arguments cl_mode {T}.
Arguments crc_enabled {T}.
Arguments requests {T}.
Arguments events {T}.
Arguments cl_status {T}.

Section Setters.
Context {T : Type}.
Implicit Types c : ProtocolClient T.

Definition set_io (r : LineReader) (t : T) c :=
  mkClient t r (cl_mode c) (crc_enabled c) (requests c) (events c) (cl_status c).
Definition set_mode (m : SessionMode) c :=
  mkClient (transport c) (reader c) m (crc_enabled c) (requests c) (events c) (cl_status c).
Definition set_crc (b : bool) c :=
  mkClient (transport c) (reader c) (cl_mode c) b (requests c) (events c) (cl_status c).
Definition set_requests (q : RequestTracker) c :=
  mkClient (transport c) (reader c) (cl_mode c) (crc_enabled c) q (events c) (cl_status c).
Definition set_events (e : EventTracker) c :=
  mkClient (transport c) (reader c) (cl_mode c) (crc_enabled c) (requests c) e (cl_status c).
Definition set_status (s : option Status) c :=
  mkClient (transport c) (reader c) (cl_mode c) (crc_enabled c) (requests c) (events c) s.
End Setters.

(** [ProtocolClient.__init__]; times are integers, hence finite. *)
Definition ProtocolClient_init {T} (cfg : ClientConfig T) (t : T) : result (ProtocolClient T) :=
  if cfg_timeout cfg <=? 0
  then throw (Builtin ValueError) "timeout must be finite and positive"
  else Ok (mkClient t LineReader_init V1 false RequestTracker_init EventTracker_init None).

(** [command.encode("ascii")] *)
Definition encode_bytes (s : string) : result string :=
  match encode_ascii s with
  | Some b => Ok b
  | None => throw (Builtin ValueError) "ordinal not in range(128)"
  end.

Section Client.
Context {T : Type} `{ByteStream T} (cfg : ClientConfig T).

Abbreviation CM := (M (ProtocolClient T) exn).

(** *** Access to the parts of the client *)

Definition on_reader {A} (m : M (LineReader * T) exn A) : CM A := fun c =>
  let '((r, t), o) := m (reader c, transport c) in (set_io r t c, o).
Definition on_transport {A} (m : M T exn A) : CM A := fun c =>
  let '(t, o) := m (transport c) in (set_io (reader c) t c, o).
Definition on_requests {A} (m : M RequestTracker exn A) : CM A := fun c =>
  let '(q, o) := m (requests c) in (set_requests q c, o).
Definition monotonic : CM Z := on_transport (fun t => let '(t, now) := bs_monotonic t in (t, Ok now)).
Definition clear_requests : CM unit := modifyS (fun c => set_requests (clear (requests c)) c).
Definition raise_new {A} (cls : exn_class) (msg : string) : CM A := raise (mk_exn cls msg).

(** *** Lines *)

Definition _write_bytes (data : string) : CM unit :=
  written ← on_transport (bs_write data);
  match written with
  | Some n =>
      if negb (n =? slen data)
      then raise_new (Builtin OSError)
             ("short transport write: wrote " +:+ str_of_Z n +:+ " of " +:+ str_of_Z (slen data) +:+ " bytes")
      else mret tt
  | None => mret tt
  end.

Definition _write_v1 (command : string) : CM unit :=
  if str_mem LF command || str_mem CR command
  then raise_new (Protocol ParseError) "commands must not contain a line terminator"
  else data ← liftR (encode_bytes command);
       _write_bytes (data +:+ String LF "").

Definition _read_v1 (timeout : option Z) : CM string :=
  on_reader (read_line (default (cfg_timeout cfg) timeout) false).

Definition _read_v2 (crc_required : option bool) (timeout : option Z) : CM v2_item :=
  l ← on_reader (read_line (default (cfg_timeout cfg) timeout) true);
  c ← getS;
  liftR (parse_v2_line l (default (crc_enabled c) crc_required)).

Definition wait_ready : CM unit :=
  l ← _read_v1 None;
  if negb (bool_decide (l = "Ready"))
  then raise_new (Protocol ParseError) "expected exact v1 Ready" else mret tt.

(** *** Recovery *)

(** The loop of [recover_to_v1] and [out_of_band_stop]: lines are consumed until
    the literal [stopped]; every round consumes a line or ends. *)
Fixpoint await_stopped (fuel : nat) (deadline : Z) : CM unit :=
  match fuel with
  | O => fun c => (c, OutOfFuel)
  | S fuel =>
      now ← monotonic;
      let remaining := deadline - now in
      if remaining <=? 0
      then raise_new (Protocol TimeoutError) "timed out waiting for exact stop terminal"
      else l ← on_reader (read_line remaining false);
           if bool_decide (l = "stopped") then mret tt else await_stopped fuel deadline
  end.

Definition stop_fuel (c : ProtocolClient T) : nat := S (undelivered (reader c, transport c)).

Definition stop_and_await : CM unit :=
  _ ← _write_v1 "stop";
  now ← monotonic;
  c ← getS;
  await_stopped (stop_fuel c) (now + cfg_timeout cfg).

(** The verification after a reset: exact [Ready], then [ping] and exact [ ok],
    under one deadline. *)
Definition verify_v1 (verify_deadline : Z) : CM unit :=
  now ← monotonic;
  _ ← (if verify_deadline - now <=? 0
       then raise_new (Protocol TimeoutError) "timed out waiting for exact v1 Ready" else mret tt);
  l ← _read_v1 (Some (verify_deadline - now));
  _ ← (if negb (bool_decide (l = "Ready"))
       then raise_new (Protocol ParseError) "expected exact v1 Ready" else mret tt);
  _ ← _write_v1 "ping";
  now ← monotonic;
  _ ← (if verify_deadline - now <=? 0
       then raise_new (Protocol TimeoutError) "timed out waiting for exact legacy ping response" else mret tt);
  l ← _read_v1 (Some (verify_deadline - now));
  if negb (bool_decide (l = " ok"))
  then raise_new (Protocol ParseError) "expected exact legacy ping response ' ok'" else mret tt.

Definition recover_to_v1 : CM unit :=
  _ ← clear_requests;
  _ ← modifyS (set_mode UNCERTAIN);
  _ ← modifyS (set_crc false);
  _ ← try_except stop_and_await (fun _ => mret tt);
  match reset_hook cfg with
  | None => raise (recovery_error "session is uncertain and no reset hook is available" false)
  | Some hook =>
      _ ← try_except (on_transport hook)
            (fun _ => raise (recovery_error "reset failed; could not verify a v1 session" false));
      _ ← modifyS (fun c => set_io (lr_clear (reader c)) (transport c) c);
      now ← monotonic;
      _ ← try_except (verify_v1 (now + cfg_timeout cfg))
            (fun _ => raise (recovery_error "reset did not verify a v1 session" false));
      _ ← modifyS (set_mode V1);
      _ ← modifyS (set_crc false);
      _ ← clear_requests;
      _ ← modifyS (set_events EventTracker_init);
      _ ← modifyS (set_status None);
      match on_recovery cfg with Some f => on_transport f | None => mret tt end
  end.

(** Runs [recover_to_v1] and raises [RecoveryError] with the given prefix in
    either case; the body [_fail_request] and the handlers of
    [activate_known_available] and [leave_v2] share. *)
Definition recover_and_raise {A} (message : string) : CM A :=
  _ ← try_except recover_to_v1
        (fun e => if isinstance e (Protocol RecoveryError)
                  then raise (recovery_error (message +:+ "; v1 recovery failed") false)
                  else raise e);
  raise (recovery_error (message +:+ "; recovered to v1") true).

Definition _fail_request {A} (message : string) : CM A :=
  _ ← clear_requests;
  recover_and_raise message.

(** *** Discovery *)

Definition v1_ping_barrier : CM unit :=
  try_except
    (_ ← _write_v1 "ping";
     l ← _read_v1 None;
     if negb (bool_decide (l = " ok"))
     then raise_new (Protocol ParseError) "expected exact legacy ping response ' ok'" else mret tt)
    (fun _ => _fail_request "v1 ping barrier was unsafe").

(** [except RecoveryError: raise / except Exception as exc: handler]. *)
Definition keep_recovery {A} (m : CM A) (handler : exn -> CM A) : CM A :=
  try_except m (fun e => if isinstance e (Protocol RecoveryError) then raise e else handler e).

Fixpoint discover_attempts (attempts : list nat) : CM bool :=
  match attempts with
  | [] => raise_new (Builtin AssertionError) "unreachable"
  | attempt :: attempts =>
      _ ← _write_v1 "protocol:2?";
      l ← _read_v1 None;
      if bool_decide (l = "error:busy") && (attempt =? 0)%nat
      then _ ← v1_ping_barrier; discover_attempts attempts
      else reply ← liftR (classify_discovery l);
           mret (bool_decide (reply = AVAILABLE))
  end.

Definition discover : CM bool :=
  keep_recovery (discover_attempts [0%nat; 1%nat]) (fun _ => _fail_request "discovery was unsafe").

(** *** Requests *)

Definition _observe_event (e : Event) : CM unit :=
  c ← getS;
  let '(ev, contiguous) := observe_event e (events c) in
  _ ← modifyS (set_events ev);
  match on_event cfg with
  | Some f => on_transport (f e contiguous)
  | None => mret tt
  end.

Definition _start (command : string) (request_id : option Z) : CM Z :=
  c ← getS;
  if negb (bool_decide (cl_mode c = V2))
  then raise_new (Protocol ProtocolError) "v2 request attempted outside an active v2 session"
  else
    id ← match request_id with
         | None => on_requests allocate
         | Some id => _ ← on_requests (reserve id); mret id
         end;
    frame ← try_except (liftR (format_request id command (crc_enabled c)))
              (fun e => if isinstance e (Protocol ProtocolError)
                        then _ ← modifyS (fun c => set_requests (release id (requests c)) c); raise e
                        else raise e);
    _ ← try_except (data ← liftR (encode_bytes (frame +:+ String LF "")); _write_bytes data)
          (fun _ => _fail_request "request transmission failed");
    mret id.

Definition out_of_band_stop : CM unit :=
  try_except (_ ← stop_and_await; clear_requests)
    (fun _ => _fail_request "out-of-band stop was unsafe").

(** The correlation of one received item that is not an event. *)
Definition correlate (request_id : Z) (item : v2_item) : CM Response :=
  match item with
  | VResponse r =>
      _ ← on_requests (observe r);
      if negb (Models.request_id r =? request_id)
      then raise_new (Protocol ProtocolError)
             ("interleaved response for active ID " +:+ str_of_Z (Models.request_id r))
      else mret r
  | _ => raise_new (Protocol ProtocolError) "out-of-band stop cancelled request"
  end.

(** [fields.update(response.fields)] over the responses in order. *)
Definition merge_fields (rs : list Response) : fields :=
  fold_left (fun acc r => r_fields r ∪ acc) rs ∅.

Definition complete (id : Z) (item : Response) (rs : list Response) : result Completion :=
  if bool_decide (kind item = DONE)
  then Ok (mkCompletion id true (merge_fields rs) rs None)
  else f ← Fault_from_response item; Ok (mkCompletion id false (merge_fields rs) rs (Some f)).

(** The interruption check at the top of the loop; [true] after a trusted stop
    would be a raise, so the result is the remaining time. *)
Definition check_interrupt (id : Z) (deadline remaining : Z) (check : M T exn bool) : CM Z :=
  should_interrupt ← try_except (on_transport check)
                       (fun _ => _fail_request "request interruption check failed");
  now ← monotonic;
  let remaining := deadline - now in
  if remaining <=? 0 then _fail_request "request timed out"
  else if should_interrupt : bool
  then _ ← out_of_band_stop;
       raise_new (Protocol RequestInterruptedError)
         ("request " +:+ str_of_Z id +:+ " cancelled by trusted out-of-band stop")
  else mret remaining.

(** One read of the loop: [None] is the [continue] of a poll timeout. *)
Definition read_item (deadline remaining : Z) (response_crc : option bool)
    (interrupt : option (M T exn bool)) (poll : Z) : CM (option v2_item) :=
  let read_timeout := match interrupt with Some _ => Z.min remaining poll | None => remaining end in
  try_except (item ← _read_v2 response_crc (Some read_timeout); mret (Some item))
    (fun e =>
       if isinstance e (Protocol TimeoutError) then
         match interrupt with
         | Some _ => now ← monotonic;
                     if 0 <? deadline - now then mret None else _fail_request "request timed out"
         | None => _fail_request "request timed out"
         end
       else _fail_request "request response was unsafe").

(** The rest of the loop body after a read; [loop] is the next iteration. *)
Definition handle_item (loop : list Response -> CM Completion) (id : Z) (responses : list Response)
    (item : option v2_item) : CM Completion :=
  match item with
  | None => loop responses
  | Some (VEvent e) => _ ← _observe_event e; loop responses
  | Some item =>
      r ← try_except (correlate id item)
            (fun e => if isinstance e (Protocol ProtocolError)
                      then _fail_request "request response was unsafe" else raise e);
      let responses := responses ++ [r] in
      if terminal r then liftR (complete id r responses) else loop responses
  end.

Fixpoint request_loop (fuel : nat) (id deadline : Z) (response_crc : option bool)
    (interrupt : option (M T exn bool)) (poll : Z) (responses : list Response) : CM Completion :=
  match fuel with
  | O => fun c => (c, OutOfFuel)
  | S fuel =>
      now ← monotonic;
      let remaining := deadline - now in
      if remaining <=? 0 then _fail_request "request timed out"
      else
        remaining ← match interrupt with
                    | Some check => check_interrupt id deadline remaining check
                    | None => mret remaining
                    end;
        item ← read_item deadline remaining response_crc interrupt poll;
        handle_item (request_loop fuel id deadline response_crc interrupt poll) id responses item
  end.

(** Every round consumes a line or, when polling, lets [poll] elapse. *)
Definition request_fuel (timeout poll : Z) (c : ProtocolClient T) : nat :=
  undelivered (reader c, transport c) + Z.to_nat (timeout / poll) + 3.

Definition request (command : string) (request_id : option Z) (timeout : option Z)
    (response_crc : option bool) (interrupt : option (M T exn bool)) (poll : Z) : CM Completion :=
  if poll <=? 0
  then raise_new (Builtin ValueError) "interrupt_poll_interval must be finite and positive"
  else
    let effective_timeout := default (cfg_timeout cfg) timeout in
    if effective_timeout <=? 0
    then raise_new (Builtin ValueError) "timeout must be finite and positive"
    else
      id ← _start command request_id;
      now ← monotonic;
      c ← getS;
      request_loop (request_fuel effective_timeout poll c) id (now + effective_timeout)
        response_crc interrupt poll [].

(** [interrupt_poll_interval]'s default, in microseconds. *)
Definition default_poll : Z := 10000.

Definition simple_request (command : string) (request_id : option Z) : CM Completion :=
  request command request_id None None None default_poll.

(** [completion.terminal_fields.get(key) != value] *)
Definition terminal_field_differs (c : Completion) (key value : string) : result bool :=
  f ← terminal_fields c; mret (negb (bool_decide (f !! key = Some value))).

Definition boundary_unconfirmed (c : Completion) (key value : string) : result bool :=
  if negb (succeeded c) then Ok true else terminal_field_differs c key value.

Definition enable_crc (request_id : option Z) : CM Completion :=
  c ← getS;
  if crc_enabled c then raise_new (Protocol ProtocolError) "CRC is already enabled"
  else
    completion ← request "crc:on" request_id None (Some true) None default_poll;
    bad ← liftR (boundary_unconfirmed completion "crc" "on");
    _ ← (if bad : bool then _fail_request "CRC enable boundary was not confirmed" else mret tt);
    _ ← modifyS (set_crc true);
    mret completion.

Definition disable_crc (request_id : option Z) : CM Completion :=
  c ← getS;
  if negb (crc_enabled c) then raise_new (Protocol ProtocolError) "CRC is already disabled"
  else
    completion ← simple_request "crc:off" request_id;
    bad ← liftR (boundary_unconfirmed completion "crc" "off");
    _ ← (if bad : bool then _fail_request "CRC disable boundary was not confirmed" else mret tt);
    _ ← modifyS (set_crc false);
    mret completion.

Definition leave_v2 (request_id : option Z) : CM Completion :=
  completion ←
    keep_recovery
      (completion ← simple_request "protocol:1" request_id;
       bad ← liftR (boundary_unconfirmed completion "protocol" "1");
       if bad : bool then raise_new (Protocol ProtocolError) "protocol:1 was not confirmed"
       else mret completion)
      (fun e => if isinstance e (Protocol ProtocolError)
                then recover_and_raise "v2 leave was uncertain" else raise e);
  _ ← modifyS (set_mode V1);
  _ ← modifyS (set_crc false);
  _ ← clear_requests;
  _ ← modifyS (set_events EventTracker_init);
  mret completion.

(** [if not completion.succeeded: raise ProtocolError(...)]; the message's
    rendering of the fault is left out. *)
Definition require_success (what : string) (c : Completion) : CM unit :=
  if negb (succeeded c) then raise_new (Protocol ProtocolError) (what +:+ " failed") else mret tt.

Definition get_status (request_id : option Z) : CM Status :=
  completion ← simple_request "status" request_id;
  _ ← require_success "status" completion;
  st ← liftR (Status_from_fields (c_fields completion));
  _ ← modifyS (set_status (Some st));
  _ ← modifyS (fun c => set_events (replace_status (events c)) c);
  mret st.

Definition get_protocol_version (request_id : option Z) : CM Z :=
  completion ← simple_request "protocolversion" request_id;
  _ ← require_success "protocolversion" completion;
  match c_fields completion !! "protocol" with
  | None => raise_new (Protocol ParseError) "protocolversion missing required protocol"
  | Some v =>
      version ← liftR (uint v "protocol" 0 None);
      if negb (version =? 2) then raise_new (Protocol ParseError) "unsupported protocol version"
      else mret version
  end.

Definition get_capabilities (request_id : option Z) : CM Capabilities :=
  completion ← simple_request "capabilities" request_id;
  _ ← require_success "capabilities" completion;
  liftR (Capabilities_from_fields (c_fields completion)).

Definition get_queue (request_id : option Z) : CM QueueSnapshot :=
  completion ← simple_request "queue" request_id;
  _ ← require_success "queue" completion;
  liftR (QueueSnapshot_from_fields (c_fields completion)).

Definition activate_known_available : CM bool :=
  keep_recovery
    (_ ← _write_v1 "protocol:2";
     l ← _read_v1 None;
     _ ← (if negb (bool_decide (l = "protocol:2 ready"))
          then raise_new (Protocol ParseError) "activation requires exact 'protocol:2 ready'" else mret tt);
     _ ← modifyS (set_mode V2);
     _ ← modifyS (set_crc false);
     _ ← clear_requests;
     _ ← modifyS (set_events EventTracker_init);
     _ ← get_protocol_version None;
     _ ← get_capabilities None;
     _ ← get_status None;
     mret true)
    (fun _ => recover_and_raise "activation was uncertain").

Definition activate : CM bool :=
  available ← discover;
  if negb (available : bool) then mret false else activate_known_available.
End Client.
