(* ===== verification/ClientSpec.v ===== *)
(** * Correctness of the protocol client

    Every operation of [ProtocolClient] is verified by symbolic execution of
    its weakest precondition against one description of the client's state,
    [shape]; the theorems about each operation follow. *)
From S2P Require Import Prelude PyString Errors Crc Models Parsing Tracking Framing Transport Client.

(** What the callables given to the client promise: the callbacks return, and
    none of them makes bytes appear or time run backwards. *)
Class ClientLaws {T} `{ByteStream T} (cfg : ClientConfig T) : Prop := {
  cfg_timeout_pos : 0 < cfg_timeout cfg;
  reset_hook_halts h t : reset_hook cfg = Some h -> halts (h t).2;
  on_event_ok f e b t : on_event cfg = Some f ->
    (f e b t).2 = Ok tt /\ bs_clock t <= bs_clock (f e b t).1
    /\ (bs_pending (f e b t).1 <= bs_pending t)%nat;
  on_recovery_ok f t : on_recovery cfg = Some f -> (f t).2 = Ok tt;
}.

Definition interrupt_ok {T} `{ByteStream T} (check : M T exn bool) : Prop :=
  forall t, halts (check t).2 /\ bs_clock t <= bs_clock (check t).1
    /\ (bs_pending (check t).1 <= bs_pending t)%nat.

Section Spec.
Context {T : Type} `{ByteStreamLaws T} (cfg : ClientConfig T) `{!ClientLaws cfg}.
Implicit Types c : ProtocolClient T.

Abbreviation CM := (M (ProtocolClient T) exn).

(** The state of a client: its active IDs, its mode and its CRC setting. *)
Record shape (A : gset Z) (m : SessionMode) (b : bool) (c : ProtocolClient T) : Prop := {
  sh_tracker : tracker_wf (requests c);
  sh_reader : reader_bounded (reader c);
  sh_active : active (requests c) = A;
  sh_mode : cl_mode c = m;
  sh_crc : crc_enabled c = b;
}.

Definition client_le c c' : Prop :=
  bs_clock (transport c) <= bs_clock (transport c')
  /\ (undelivered (reader c', transport c') <= undelivered (reader c, transport c))%nat.

Lemma shape_io A m b c r t :
  shape A m b c -> reader_bounded r -> shape A m b (set_io r t c).
Proof. by intros [? ? ? ? ?]. Qed.

(** *** Time and lines *)

Lemma wp_monotonic A m b c Q : shape A m b c ->
  (forall c' now, shape A m b c' -> client_le c c' -> bs_clock (transport c) <= now ->
     now <= bs_clock (transport c') -> cl_status c' = cl_status c -> Q c' (Ok now)) ->
  wp monotonic Q c.
Proof.
  intros Hc HQ. unfold wp, monotonic, on_transport.
  pose proof (monotonic_now (transport c)) as H1. pose proof (monotonic_le (transport c)) as H2.
  pose proof (monotonic_pending (transport c)) as H3.
  destruct (bs_monotonic (transport c)) as [t now]. simpl in *. apply HQ; try done.
  - apply shape_io; [done|apply Hc].
  - split; simpl; [lia|unfold undelivered; simpl; lia].
Qed.

(** One line from the reader: a returned line consumed input; a timeout means
    the time has passed; no failure is a [RecoveryError]. *)
Lemma wp_read_line A m b timeout v2 c Q : shape A m b c ->
  (forall c' l, shape A m b c' -> client_le c c' ->
     (undelivered (reader c', transport c') < undelivered (reader c, transport c))%nat -> Q c' (Ok l)) ->
  (forall c' e, shape A m b c' -> client_le c c' -> isinstance e (Protocol RecoveryError) = false ->
     (isinstance e (Protocol TimeoutError) = true ->
      bs_clock (transport c) + timeout <= bs_clock (transport c')) -> Q c' (Err e)) ->
  wp (on_reader (read_line timeout v2)) Q c.
Proof.
  intros Hc HOk HErr. unfold wp, on_reader.
  pose proof (read_line_spec timeout v2 (reader c, transport c)) as Hs.
  destruct (read_line timeout v2 (reader c, transport c)) as [[r t] o].
  destruct Hs as (H1 & H2 & H3 & H4). simpl in *.
  assert (shape A m b (set_io r t c)) by (apply shape_io; [done|apply H3, Hc]).
  assert (client_le c (set_io r t c)) by (split; simpl; done).
  destruct o as [l|e|]; [by apply HOk|by apply HErr; destruct H4|done].
Qed.

(** Writes end, and their failures are not [RecoveryError]s. *)
Lemma wp_write_bytes A m b data c Q : shape A m b c ->
  (forall c', shape A m b c' -> Q c' (Ok tt)) ->
  (forall c' e, shape A m b c' -> isinstance e (Protocol RecoveryError) = false -> Q c' (Err e)) ->
  wp (_write_bytes data) Q c.
Proof.
  intros Hc HOk HErr. unfold _write_bytes. wp_step. unfold wp, on_transport.
  pose proof (write_out data (transport c)) as Hw.
  destruct (bs_write data (transport c)) as [t [[n|]|e|]]; simpl in *; [..|done];
    assert (shape A m b (set_io (reader c) t c)) by (apply shape_io; [done|apply Hc]).
  - destruct (negb _); [apply HErr|apply HOk]; done.
  - by apply HOk.
  - apply HErr; [done|by apply os_error_not_protocol].
Qed.

Lemma wp_write_v1 A m b s c Q : shape A m b c ->
  (forall c', shape A m b c' -> Q c' (Ok tt)) ->
  (forall c' e, shape A m b c' -> isinstance e (Protocol RecoveryError) = false -> Q c' (Err e)) ->
  wp (_write_v1 s) Q c.
Proof.
  intros Hc HOk HErr. unfold _write_v1. destruct (_ || _); [by apply HErr|].
  wp_steps. unfold encode_bytes. destruct (encode_ascii s); wp_steps.
  - by eapply wp_write_bytes.
  - by apply HErr.
Qed.

Lemma wp_read_v1 A m b timeout c Q : shape A m b c ->
  (forall c' l, shape A m b c' -> Q c' (Ok l)) ->
  (forall c' e, shape A m b c' -> isinstance e (Protocol RecoveryError) = false -> Q c' (Err e)) ->
  wp (_read_v1 cfg timeout) Q c.
Proof. intros Hc HOk HErr. unfold _read_v1. eapply wp_read_line; eauto. Qed.

(** *** Recovery *)

Lemma wp_await_stopped A m b fuel deadline c Q : shape A m b c ->
  (undelivered (reader c, transport c) < fuel)%nat ->
  (forall c', shape A m b c' -> Q c' (Ok tt)) ->
  (forall c' e, shape A m b c' -> isinstance e (Protocol RecoveryError) = false -> Q c' (Err e)) ->
  wp (await_stopped fuel deadline) Q c.
Proof.
  intros Hc Hf HOk HErr. revert c Hc Hf. induction fuel as [|fuel IH]; intros c Hc Hf; [lia|].
  cbn [await_stopped]. wp_step. eapply wp_monotonic; [done|]. intros c1 now Hc1 [_ Hu1] _ _ _. wp_steps.
  destruct (_ <=? _); [by apply HErr|]. wp_step. eapply wp_read_line; [done|..]; wp_steps.
  - intros c2 l Hc2 _ Hu2. wp_steps. case_bool_decide; [by apply HOk|]. apply IH; [done|lia].
  - intros c2 e Hc2 _ He _. by apply HErr.
Qed.

Lemma wp_stop_and_await A m b c Q : shape A m b c ->
  (forall c', shape A m b c' -> Q c' (Ok tt)) ->
  (forall c' e, shape A m b c' -> isinstance e (Protocol RecoveryError) = false -> Q c' (Err e)) ->
  wp (stop_and_await cfg) Q c.
Proof.
  intros Hc HOk HErr. unfold stop_and_await. wp_step. eapply wp_write_v1; [done|..]; [|by auto].
  intros c1 Hc1. wp_steps. eapply wp_monotonic; [done|]. intros c2 now Hc2 _ _ _ _. wp_steps.
  eapply wp_await_stopped; eauto.
Qed.

Lemma wp_verify_v1 A m b deadline c Q : shape A m b c ->
  (forall c', shape A m b c' -> Q c' (Ok tt)) ->
  (forall c' e, shape A m b c' -> isinstance e (Protocol RecoveryError) = false -> Q c' (Err e)) ->
  wp (verify_v1 cfg deadline) Q c.
Proof.
  intros Hc HOk HErr. unfold verify_v1. wp_step. eapply wp_monotonic; [done|].
  intros c1 now1 Hc1 _ _ _ _. wp_steps. destruct (_ <=? _); [by apply HErr|]. wp_steps.
  eapply wp_read_v1; [done| |by auto]. intros c2 l Hc2. wp_steps. destruct (negb _); [by apply HErr|].
  wp_steps. eapply wp_write_v1; [done| |by auto]. intros c3 Hc3. wp_steps. eapply wp_monotonic; [done|].
  intros c4 now4 Hc4 _ _ _ _. wp_steps. destruct (_ <=? _); [by apply HErr|]. wp_steps.
  eapply wp_read_v1; [done| |by auto]. intros c5 l5 Hc5. wp_steps.
  destruct (negb _); [by apply HErr|by apply HOk].
Qed.

(** Forgetting every request makes the active set empty in any mode. *)
Lemma shape_clear A m b c : shape A m b c -> shape ∅ m b (set_requests (clear (requests c)) c).
Proof. intros [? ? ? ? ?]. split; simpl; auto with cs71. Qed.

Lemma wp_clear_requests A m b c Q : shape A m b c ->
  (forall c', shape ∅ m b c' -> transport c' = transport c -> reader c' = reader c -> Q c' (Ok tt)) ->
  wp clear_requests Q c.
Proof. intros Hc HQ. unfold clear_requests. wp_step. apply HQ; [by eapply shape_clear|done..]. Qed.

Lemma wp_on_transport {A} (f : M T exn A) c Q :
  Q (set_io (reader c) (f (transport c)).1 c) (f (transport c)).2 -> wp (on_transport f) Q c.
Proof. unfold wp, on_transport. by destruct (f (transport c)). Qed.

(** The stop of a recovery is best effort. *)
Lemma wp_stop_best_effort A m b c Q : shape A m b c ->
  (forall c', shape A m b c' -> Q c' (Ok tt)) ->
  wp (try_except (stop_and_await cfg) (fun _ => mret tt)) Q c.
Proof. intros Hc HQ. wp_step. eapply wp_stop_and_await; [done|intros; wp_steps; by apply HQ..]. Qed.

Lemma shape_lr_clear A m b c : shape A m b c -> shape A m b (set_io (lr_clear (reader c)) (transport c) c).
Proof.
  intros [? [? ?] ? ? ?]. split; simpl; try done. split; [|done]. simpl. unfold slen. simpl. lia.
Qed.

(** Recovery ends in a verified, empty v1 session, or in an uncertain one with
    a [RecoveryError] that says so. *)
Lemma wp_recover A m b c Q : shape A m b c ->
  (forall c', shape ∅ V1 false c' -> cl_status c' = None -> Q c' (Ok tt)) ->
  (forall c' msg, shape ∅ UNCERTAIN false c' -> Q c' (Err (recovery_error msg false))) ->
  wp (recover_to_v1 cfg) Q c.
Proof.
  intros Hc HOk HErr. unfold recover_to_v1. wp_step. eapply wp_clear_requests; [done|].
  intros c1 Hc1 _ _. do 8 wp_step.
  eapply (wp_stop_best_effort ∅ UNCERTAIN false); [by destruct Hc1|]. intros c3 Hc3. wp_steps.
  destruct (reset_hook cfg) as [hook|] eqn:Eh; [|by apply HErr]. wp_steps. apply wp_on_transport.
  pose proof (reset_hook_halts hook (transport c3) Eh) as Hh.
  assert (forall t, shape ∅ UNCERTAIN false (set_io (reader c3) t c3)) as Hio
    by (intros t; apply shape_io; [done|apply Hc3]).
  destruct (hook (transport c3)) as [t3 [u|er|]]; simpl fst; simpl snd; wp_steps; [|by apply HErr|done].
  eapply wp_monotonic; [by apply shape_lr_clear|]. intros c4 now Hc4 _ _ _ _. wp_steps.
  eapply wp_verify_v1; [done| |intros; wp_steps; by apply HErr]. intros c5 Hc5. wp_steps.
  eapply (wp_clear_requests ∅ V1 false); [by destruct Hc5|]. intros c6 Hc6 _ _. wp_steps.
  assert (shape ∅ V1 false (set_status None (set_events EventTracker_init c6))) as Hc7 by (by destruct Hc6).
  destruct (on_recovery cfg) as [f|] eqn:Ef; [|by apply HOk]. apply wp_on_transport.
  rewrite (on_recovery_ok f _ Ef). apply HOk; [apply shape_io; [done|apply Hc7]|done].
Qed.

(** Where an operation that fails closed leaves the client. *)
Definition failed_closed c (e : exn) : Prop :=
  isinstance e (Protocol RecoveryError) = true
  /\ shape ∅ (if exn_recovered e then V1 else UNCERTAIN) false c
  /\ (exn_recovered e = true -> cl_status c = None).

Lemma wp_recover_and_raise {B} A m b msg c (Q : _ -> result B -> Prop) : shape A m b c ->
  (forall c' e, failed_closed c' e -> Q c' (Err e)) -> wp (recover_and_raise cfg msg) Q c.
Proof.
  intros Hc HQ. unfold recover_and_raise. wp_steps. eapply wp_recover; [done|..].
  - intros c' Hc' Hs. wp_steps. apply HQ. by split_and!.
  - intros c' msg' Hc'. cbv beta iota. wp_steps. apply HQ. by split_and!.
Qed.

Lemma wp_fail_request {B} A m b msg c (Q : _ -> result B -> Prop) : shape A m b c ->
  (forall c' e, failed_closed c' e -> Q c' (Err e)) -> wp (_fail_request cfg msg) Q c.
Proof.
  intros Hc HQ. unfold _fail_request. wp_step. eapply wp_clear_requests; [done|]. intros c1 Hc1 _ _.
  wp_steps. by eapply wp_recover_and_raise.
Qed.

(** *** Requests *)

(** A failed operation either failed closed or left mode and CRC alone with no
    request outstanding. *)
Definition op_failed (m : SessionMode) (b : bool) c (e : exn) : Prop :=
  failed_closed c e \/ (shape ∅ m b c /\ isinstance e (Protocol RecoveryError) = false).

Lemma wp_observe_event A m b e c Q : shape A m b c ->
  (forall c', shape A m b c' -> client_le c c' -> Q c' (Ok tt)) -> wp (_observe_event cfg e) Q c.
Proof.
  intros Hc HQ. unfold _observe_event. wp_steps.
  destruct (observe_event e (events c)) as [ev cont]. wp_steps.
  assert (shape A m b (set_events ev c)) as Hc' by (by destruct Hc).
  destruct (on_event cfg) as [f|] eqn:Ef; wp_steps; [|by apply HQ].
  apply wp_on_transport. destruct (on_event_ok f e cont (transport (set_events ev c)) Ef) as (-> & H1 & H2).
  apply HQ; [apply shape_io; [done|apply Hc']|]. split; simpl in *; [done|unfold undelivered; simpl; lia].
Qed.

Lemma wp_on_requests {B} (f : M RequestTracker exn B) c Q :
  Q (set_requests (f (requests c)).1 c) (f (requests c)).2 -> wp (on_requests f) Q c.
Proof. unfold wp, on_requests. by destruct (f (requests c)). Qed.

Lemma wp_take_id m b oid c Q : shape ∅ m b c ->
  (forall c' id, shape {[id]} m b c' -> 1 <= id <= 65535 -> Q c' (Ok id)) ->
  (forall c' e, shape ∅ m b c' -> isinstance e (Protocol RecoveryError) = false -> Q c' (Err e)) ->
  wp (match oid with
      | None => on_requests allocate
      | Some id => _ ← on_requests (reserve id); mret id
      end) Q c.
Proof.
  intros Hc HOk HErr. destruct Hc as [Hwf Hr Ha Hm Hb]. destruct oid as [id|]; wp_steps; apply wp_on_requests.
  - pose proof (reserve_wf id (requests c) Hwf) as Hwf'. unfold reserve in *.
    destruct (_ || _) eqn:E; simpl; wp_steps; [by apply HErr|]. bool_inv.
    apply HOk; [|lia]. split; simpl; try done. rewrite Ha. set_solver.
  - destruct (allocate_idle _ Hwf Ha) as (q' & -> & Hwf' & Ha' & Hid). by apply HOk.
Qed.

Lemma shape_release m b id c : shape {[id]} m b c -> shape ∅ m b (set_requests (release id (requests c)) c).
Proof.
  intros [? ? Ha ? ?]. split; simpl; try done; [by apply release_wf|]. rewrite Ha. set_solver.
Qed.

Lemma format_request_errors id cmd crc e : format_request id cmd crc = Err e ->
  isinstance e (Protocol ProtocolError) = true /\ isinstance e (Protocol RecoveryError) = false.
Proof.
  unfold format_request, append_crc, encode_ascii.
  repeat (case_match; simpl; try done); by intros [= <-].
Qed.

Lemma wp_start m b cmd oid c Q : shape ∅ m b c ->
  (forall c' id, m = V2 -> shape {[id]} m b c' -> 1 <= id <= 65535 -> Q c' (Ok id)) ->
  (forall c' e, op_failed m b c' e -> Q c' (Err e)) ->
  wp (_start cfg cmd oid) Q c.
Proof.
  intros Hc HOk HErr. unfold _start. wp_steps. rewrite (sh_mode _ _ _ _ Hc).
  case_bool_decide as Hm; simpl; [|apply HErr; by right]. wp_step. eapply wp_take_id; [done|..].
  2: { intros c' e Hc' He. wp_steps. apply HErr. by right. }
  intros c1 id Hc1 Hid. wp_steps. destruct (format_request _ _ _) as [frame|e|] eqn:Ef.
  - wp_steps. unfold encode_bytes. destruct (encode_ascii _); wp_steps.
    + eapply wp_write_bytes; [done|intros; wp_steps; by apply HOk|].
      intros c2 e Hc2 _. wp_steps. eapply wp_fail_request; [done|]. intros. apply HErr. by left.
    + eapply wp_fail_request; [done|]. intros. apply HErr. by left.
  - apply format_request_errors in Ef as [-> He]. wp_steps. apply HErr. right.
    split; [by apply shape_release|done].
  - unfold format_request, append_crc in Ef. exfalso. revert Ef. repeat (case_match; simpl; try done).
Qed.

Lemma client_le_refl c : client_le c c.
Proof. split; lia. Qed.
Lemma client_le_trans c1 c2 c3 : client_le c1 c2 -> client_le c2 c3 -> client_le c1 c3.
Proof. intros [? ?] [? ?]. split; lia. Qed.

Lemma wp_out_of_band_stop A m b c Q : shape A m b c ->
  (forall c', shape ∅ m b c' -> Q c' (Ok tt)) ->
  (forall c' e, failed_closed c' e -> Q c' (Err e)) ->
  wp (out_of_band_stop cfg) Q c.
Proof.
  intros Hc HOk HErr. unfold out_of_band_stop. wp_steps. eapply wp_stop_and_await; [done|..].
  - intros c1 Hc1. wp_steps. eapply wp_clear_requests; [done|]. intros c2 Hc2 _ _. by apply HOk.
  - intros c1 e Hc1 _. wp_steps. by eapply wp_fail_request.
Qed.

Lemma wp_check_interrupt A m b id deadline remaining check c Q : interrupt_ok check -> shape A m b c ->
  (forall c' rem, shape A m b c' -> client_le c c' -> deadline - bs_clock (transport c') <= rem ->
     0 < rem -> Q c' (Ok rem)) ->
  (forall c' e, op_failed m b c' e -> Q c' (Err e)) ->
  wp (check_interrupt cfg id deadline remaining check) Q c.
Proof.
  intros Hi Hc HOk HErr. unfold check_interrupt. wp_steps. apply wp_on_transport.
  destruct (Hi (transport c)) as (Hh & Hck & Hp). destruct (check (transport c)) as [t [si|e|]]; simpl in *; [..|done];
    assert (shape A m b (set_io (reader c) t c)) as Hc1 by (apply shape_io; [done|apply Hc]).
  - wp_steps. eapply wp_monotonic; [done|]. intros c2 now Hc2 Hle _ Hnow _. wp_steps.
    destruct (deadline - now <=? 0) eqn:E; bool_inv.
    + eapply wp_fail_request; [done|]. intros. apply HErr. by left.
    + destruct si; wp_steps.
      * eapply wp_out_of_band_stop; [done|..]; intros; wp_steps; apply HErr; [by right|by left].
      * apply HOk; [done| |lia|lia]. eapply client_le_trans; [|done].
        split; simpl; [done|unfold undelivered; simpl; lia].
  - wp_steps. eapply wp_fail_request; [done|]. intros. wp_steps. apply HErr. by left.
Qed.

(** A received item comes from a line the parser accepted. *)
Definition item_wf (item : v2_item) : Prop :=
  match item with VResponse r => response_wf r | _ => True end.

Lemma wp_read_v2 A m b crc timeout c Q : shape A m b c ->
  (forall c' item, shape A m b c' -> item_wf item -> client_le c c' ->
     (undelivered (reader c', transport c') < undelivered (reader c, transport c))%nat -> Q c' (Ok item)) ->
  (forall c' e, shape A m b c' -> client_le c c' ->
     (isinstance e (Protocol TimeoutError) = true ->
      bs_clock (transport c) + default (cfg_timeout cfg) timeout <= bs_clock (transport c')) -> Q c' (Err e)) ->
  wp (_read_v2 cfg crc timeout) Q c.
Proof.
  intros Hc HOk HErr. unfold _read_v2. wp_step. eapply wp_read_line; [done|..].
  - intros c1 l Hc1 Hle Hu. wp_steps. set (crc' := default _ crc).
    pose proof (pf_parse_v2_line l crc') as Hpf. destruct (parse_v2_line l crc') as [item|e|] eqn:E; [..|done].
    + apply HOk; try done. destruct item; try done. by eapply parse_response_wf.
    + apply HErr; try done. intros Ht. revert Hpf Ht. unfold parse_fail_only, isinstance.
      by destruct (exn_cls e) as [[]|[]|[]|[]|[]].
  - intros c1 e Hc1 Hle _ Ht. wp_steps. by apply HErr.
Qed.

Lemma wp_read_item A m b deadline remaining crc interrupt poll c Q : shape A m b c ->
  (forall c' item, shape A m b c' -> item_wf item -> client_le c c' ->
     (undelivered (reader c', transport c') < undelivered (reader c, transport c))%nat ->
     Q c' (Ok (Some item))) ->
  (forall c', shape A m b c' -> client_le c c' -> is_Some interrupt ->
     bs_clock (transport c) + Z.min remaining poll <= bs_clock (transport c') ->
     bs_clock (transport c) + Z.min remaining poll < deadline -> Q c' (Ok None)) ->
  (forall c' e, failed_closed c' e -> Q c' (Err e)) ->
  wp (read_item cfg deadline remaining crc interrupt poll) Q c.
Proof.
  intros Hc HSome HNone HErr. unfold read_item. wp_steps. eapply wp_read_v2; [done|..].
  - intros. wp_steps. by apply HSome.
  - intros c1 e Hc1 Hle Ht. wp_steps. destruct (isinstance e _); [|by eapply wp_fail_request].
    specialize (Ht eq_refl). destruct interrupt as [check|]; [|by eapply wp_fail_request]. simpl in Ht.
    wp_step. eapply wp_monotonic; [done|]. intros c2 now Hc2 Hle2 Hn1 Hn2 _. wp_steps.
    destruct (0 <? deadline - now) eqn:E; bool_inv; [|by eapply wp_fail_request].
    destruct Hle2 as [? ?].
    wp_step. apply HNone; [done|by eapply client_le_trans|by eexists|lia|lia].
Qed.

(** A completed request: its responses all carry its ID, exactly the last one is
    terminal, and the verdict and the fault are those of that terminal. *)
Record completion_ok (id : Z) (k : Completion) : Prop := {
  ck_id : c_request_id k = id;
  ck_responses : exists rs r, responses k = rs ++ [r] /\ terminal r = true
    /\ Forall (fun r => terminal r = false) rs
    /\ (succeeded k = true <-> kind r = DONE)
    /\ match c_error k with
       | None => kind r = DONE
       | Some f => kind r = ERROR /\ r_code r = Some (f_code f) /\ r_name r = Some (f_name f)
       end;
  ck_ids : Forall (fun r => Models.request_id r = id /\ response_wf r) (responses k);
  ck_fields : c_fields k = merge_fields (responses k);
}.

Lemma complete_ok id r rs : response_wf r -> terminal r = true -> Models.request_id r = id ->
  Forall (fun r => terminal r = false /\ Models.request_id r = id /\ response_wf r) rs ->
  exists k, complete id r (rs ++ [r]) = Ok k /\ completion_ok id k.
Proof.
  intros Hw Ht Hid Hrs.
  assert (Forall (fun r => Models.request_id r = id /\ response_wf r) (rs ++ [r])) as Hall.
  { apply Forall_app. split; [eapply Forall_impl; [done|naive_solver]|by apply Forall_singleton]. }
  assert (Forall (fun r => terminal r = false) rs) as Hnt by (eapply Forall_impl; [done|naive_solver]).
  unfold complete. unfold terminal in Ht. case_bool_decide as Hk.
  - eexists. split; [done|]. split; try done. exists rs, r. rewrite Hk. unfold terminal. by rewrite Hk.
  - destruct (kind r) eqn:Ek; try done. destruct Hw as [_ Hc Hn].
    destruct (proj2 Hc Ek) as [cd Hcd], (proj2 Hn Ek) as [nm Hnm].
    unfold Fault_from_response. rewrite Ek, Hcd, Hnm. eexists. split; [done|]. split; try done.
    exists rs, r. simpl. unfold terminal. by rewrite Ek.
Qed.

(** Correlation: the response is for this request, or the request fails closed. *)
Lemma wp_correlate m b id item c Q : item_wf item -> shape {[id]} m b c ->
  (forall c' r, Models.request_id r = id -> response_wf r -> transport c' = transport c ->
     reader c' = reader c -> shape (if terminal r then ∅ else {[id]}) m b c' -> Q c' (Ok r)) ->
  (forall c' e A, shape A m b c' -> isinstance e (Protocol ProtocolError) = true -> Q c' (Err e)) ->
  wp (correlate id item) Q c.
Proof.
  intros Hwf Hc HOk HErr. unfold correlate. destruct item as [r|e|]; [|by eapply HErr..].
  wp_step. apply wp_on_requests. unfold observe. pose proof (sh_active _ _ _ _ Hc) as Ha. rewrite Ha.
  pose proof (observe_wf r _ (sh_tracker _ _ _ _ Hc)) as Hwf'. unfold observe in Hwf'. rewrite Ha in Hwf'.
  destruct Hc as [Ht Hr _ Hm Hb]. case_bool_decide as Hin; simpl in *.
  - apply elem_of_singleton in Hin as Hid. destruct (terminal r) eqn:Et; wp_steps;
      rewrite Hid, Z.eqb_refl; simpl; apply HOk; try done; rewrite Et; split; simpl; try done.
    + by rewrite Hid in Hwf'.
    + set_solver.
  - destruct (terminal r && _); wp_steps; by eapply HErr.
Qed.

Definition partial_ok (id : Z) (rs : list Response) : Prop :=
  Forall (fun r => terminal r = false /\ Models.request_id r = id /\ response_wf r) rs.

(** After an item the loop goes on with less input, completes, or fails. *)
Lemma wp_handle_item b loop id rs item c Q :
  item_wf item -> shape {[id]} V2 b c -> partial_ok id rs ->
  (forall c' rs', shape {[id]} V2 b c' -> client_le c c' -> partial_ok id rs' -> wp (loop rs') Q c') ->
  (forall c' k, shape ∅ V2 b c' -> completion_ok id k -> Q c' (Ok k)) ->
  (forall c' e, op_failed V2 b c' e -> Q c' (Err e)) ->
  wp (handle_item cfg loop id rs (Some item)) Q c.
Proof.
  intros Hwf Hc Hrs Hloop HOk HErr.
  assert (wp (try_except (correlate id item)
               (fun e => if isinstance e (Protocol ProtocolError)
                         then _fail_request cfg "request response was unsafe" else raise e))
            (bind_post (fun r => if terminal r then liftR (complete id r (rs ++ [r]))
                                 else loop (rs ++ [r])) Q) c) as Hcor.
  { wp_steps. eapply wp_correlate; [done..| |].
    - intros c4 r Hid Hrw Ht Hr Hc4. wp_steps. destruct (terminal r) eqn:Et.
      + wp_steps. destruct (complete_ok id r rs Hrw Et Hid Hrs) as (k & -> & Hk). by apply HOk.
      + apply Hloop; [done|unfold client_le; rewrite Ht, Hr; apply client_le_refl|].
        apply Forall_app. split; [done|]. by apply Forall_singleton.
    - intros c4 e A Hc4 He. cbv beta iota. rewrite He.
      eapply wp_fail_request; [done|]. intros. apply HErr. by left. }
  unfold handle_item. destruct item as [r|e|]; [by apply wp_bind, Hcor| |by apply wp_bind, Hcor].
  wp_step. eapply wp_observe_event; [done|]. intros c4 Hc4 Hle4. wp_steps. by apply Hloop.
Qed.

(** The round counter goes down: input was consumed, or a poll interval passed. *)
Lemma loop_measure_read poll deadline fuel c1 c2 : 0 < poll -> client_le c1 c2 ->
  (undelivered (reader c2, transport c2) < undelivered (reader c1, transport c1))%nat ->
  (undelivered (reader c1, transport c1) + rounds poll (deadline - bs_clock (transport c1)) <= S fuel)%nat ->
  (undelivered (reader c2, transport c2) + rounds poll (deadline - bs_clock (transport c2)) <= fuel)%nat.
Proof.
  intros Hp [Hk Hu] Hlt Hf. pose proof (rounds_mono poll (deadline - bs_clock (transport c2))
    (deadline - bs_clock (transport c1))). lia.
Qed.

Lemma loop_measure_poll poll deadline fuel c1 c2 : 0 < poll -> client_le c1 c2 ->
  0 < deadline - bs_clock (transport c1) ->
  bs_clock (transport c1) + Z.min (deadline - bs_clock (transport c1)) poll <= bs_clock (transport c2) ->
  (undelivered (reader c1, transport c1) + rounds poll (deadline - bs_clock (transport c1)) <= S fuel)%nat ->
  (undelivered (reader c2, transport c2) + rounds poll (deadline - bs_clock (transport c2)) <= fuel)%nat.
Proof.
  intros Hp [Hk Hu] Hd Hlt Hf. pose proof (rounds_step poll (deadline - bs_clock (transport c1))
    (deadline - bs_clock (transport c2))). lia.
Qed.

Lemma wp_request_loop b id deadline crc interrupt poll rs fuel c Q :
  0 < poll -> (forall check, interrupt = Some check -> interrupt_ok check) ->
  shape {[id]} V2 b c ->
  (undelivered (reader c, transport c) + rounds poll (deadline - bs_clock (transport c)) <= fuel)%nat ->
  partial_ok id rs ->
  (forall c' k, shape ∅ V2 b c' -> completion_ok id k -> Q c' (Ok k)) ->
  (forall c' e, op_failed V2 b c' e -> Q c' (Err e)) ->
  wp (request_loop cfg fuel id deadline crc interrupt poll rs) Q c.
Proof.
  intros Hpoll Hi Hc Hf Hrs HOk HErr. revert c rs Hc Hf Hrs. induction fuel as [|fuel IH]; intros c rs Hc Hf Hrs.
  { pose proof (rounds_pos poll (deadline - bs_clock (transport c))). lia. }
  cbn [request_loop]. wp_step. eapply wp_monotonic; [done|]. intros c1 now Hc1 Hle1 _ Hnow _. wp_step.
  destruct (deadline - now <=? 0) eqn:E; bool_inv.
  { eapply wp_fail_request; [done|]. intros. apply HErr. by left. }
  wp_step. apply (wp_conseq _ (fun c2 r =>
    match r with
    | Ok rem => shape {[id]} V2 b c2 /\ client_le c1 c2 /\ deadline - bs_clock (transport c2) <= rem
    | Err e => op_failed V2 b c2 e
    | OutOfFuel => False
    end)).
  { destruct interrupt as [check|]; [|wp_step; split_and!; [done|apply client_le_refl|lia]].
    eapply wp_check_interrupt; [by apply Hi|done|..]; [|by auto]. intros c2 rem Hc2 Hle2 H1 H2. done. }
  intros c2 [rem|e|] Hr; wp_step; [..|done]; [|by apply HErr]. destruct Hr as (Hc2 & Hle2 & Hrem).
  pose proof (client_le_trans _ _ _ Hle1 Hle2) as Hle. wp_step. eapply wp_read_item; [done|..].
  - intros c3 item Hc3 Hwf Hle3 Hu. wp_step. eapply wp_handle_item; [done..| |done|done].
    intros c4 rs' Hc4 Hle4 Hrs'. apply IH; [done| |done].
    eapply loop_measure_read; [done| | |exact Hf].
    + eauto using client_le_trans.
    + destruct Hle, Hle4. lia.
  - intros c3 Hc3 Hle3 _ Hck Hdl. wp_step. cbn [handle_item]. apply IH; [done| |done].
    pose proof Hle as [? ?]. eapply loop_measure_poll; [done| | | |exact Hf]; [by eapply client_le_trans|lia..].
  - intros c3 e Hf3. wp_step. apply HErr. by left.
Qed.

Definition lawful_interrupt (interrupt : option (M T exn bool)) : Prop :=
  forall check, interrupt = Some check -> interrupt_ok check.

Lemma wp_request m b cmd oid timeout crc interrupt poll c Q :
  lawful_interrupt interrupt -> shape ∅ m b c ->
  (forall c' id k, m = V2 -> shape ∅ V2 b c' -> 1 <= id <= 65535 -> completion_ok id k -> Q c' (Ok k)) ->
  (forall c' e, op_failed m b c' e -> Q c' (Err e)) ->
  wp (request cfg cmd oid timeout crc interrupt poll) Q c.
Proof.
  intros Hi Hc HOk HErr. unfold request. destruct (poll <=? 0) eqn:Ep; [apply HErr; by right|]. bool_inv.
  destruct (_ <=? 0); [apply HErr; by right|]. wp_step. eapply wp_start; [done| |by auto].
  intros c1 id -> Hc1 Hid. wp_steps. eapply wp_monotonic; [done|]. intros c2 now Hc2 Hle2 _ Hnow _. wp_steps.
  eapply wp_request_loop; try done; [|by constructor|by eauto].
  unfold request_fuel. set (tm := default _ timeout).
  pose proof (rounds_mono poll (now + tm - bs_clock (transport c2)) tm).
  pose proof (rounds_le poll tm). lia.
Qed.

Lemma wp_simple_request m b cmd oid c Q : shape ∅ m b c ->
  (forall c' id k, m = V2 -> shape ∅ V2 b c' -> 1 <= id <= 65535 -> completion_ok id k -> Q c' (Ok k)) ->
  (forall c' e, op_failed m b c' e -> Q c' (Err e)) ->
  wp (simple_request cfg cmd oid) Q c.
Proof. intros. unfold simple_request. by eapply wp_request. Qed.

Lemma boundary_ok id k key v : completion_ok id k -> exists bad, boundary_unconfirmed k key v = Ok bad.
Proof.
  intros [_ (rs & r & Hr & Ht & _) _ _]. unfold boundary_unconfirmed, terminal_field_differs, terminal_fields, terminal_response.
  destruct (succeeded k); [|by eexists]. simpl. rewrite Hr, last_snoc, Ht. by eexists.
Qed.

Lemma wp_enable_crc m b oid c Q : shape ∅ m b c ->
  (forall c' k, m = V2 -> shape ∅ V2 true c' -> Q c' (Ok k)) ->
  (forall c' e, op_failed m b c' e -> Q c' (Err e)) -> wp (enable_crc cfg oid) Q c.
Proof.
  intros Hc HOk HErr. unfold enable_crc. wp_steps. destruct (crc_enabled c); [apply HErr; by right|].
  wp_step. eapply wp_request; [by intros ?|done| |by auto]. intros c1 id k -> Hc1 _ Hk. wp_steps.
  destruct (boundary_ok id k "crc" "on" Hk) as [[] ->]; wp_steps.
  - eapply wp_fail_request; [done|]. intros. wp_steps. apply HErr. by left.
  - apply HOk; [done|]. by destruct Hc1.
Qed.

Lemma wp_disable_crc m b oid c Q : shape ∅ m b c ->
  (forall c' k, m = V2 -> shape ∅ V2 false c' -> Q c' (Ok k)) ->
  (forall c' e, op_failed m b c' e -> Q c' (Err e)) -> wp (disable_crc cfg oid) Q c.
Proof.
  intros Hc HOk HErr. unfold disable_crc. wp_steps. destruct (negb _); [apply HErr; by right|].
  wp_step. eapply wp_simple_request; [done| |by auto]. intros c1 id k -> Hc1 _ Hk. wp_steps.
  destruct (boundary_ok id k "crc" "off" Hk) as [[] ->]; wp_steps.
  - eapply wp_fail_request; [done|]. intros. wp_steps. apply HErr. by left.
  - apply HOk; [done|]. by destruct Hc1.
Qed.

(** A handler that keeps [RecoveryError]s and handles the rest from a state
    that satisfies [R]. *)
Lemma wp_keep_recovery {B} (R : ProtocolClient T -> Prop) (f : CM B) handler c (Q : _ -> result B -> Prop) :
  wp f (fun c' r => match r with
                    | Err e => failed_closed c' e \/ (R c' /\ isinstance e (Protocol RecoveryError) = false)
                    | r => Q c' r
                    end) c ->
  (forall c' e, failed_closed c' e -> Q c' (Err e)) ->
  (forall c' e, R c' -> isinstance e (Protocol RecoveryError) = false -> wp (handler e) Q c') ->
  wp (keep_recovery f handler) Q c.
Proof.
  intros Hf HErr Hh. unfold keep_recovery. wp_steps. eapply wp_conseq; [done|]. intros c' [x|e|]; try done.
  intros [Hcl|[Hs He]]; cbv beta iota.
  - rewrite (proj1 Hcl). wp_steps. by apply HErr.
  - rewrite He. by apply Hh.
Qed.

Lemma wp_leave_v2 m b oid c Q : shape ∅ m b c ->
  (forall c' k, m = V2 -> shape ∅ V1 false c' -> Q c' (Ok k)) ->
  (forall c' e, op_failed m b c' e -> Q c' (Err e)) -> wp (leave_v2 cfg oid) Q c.
Proof.
  intros Hc HOk HErr. unfold leave_v2. wp_step. apply (wp_keep_recovery (shape ∅ m b)).
  - wp_step. eapply wp_simple_request; [done|..].
    + intros c1 id k -> Hc1 _ Hk. wp_steps. destruct (boundary_ok id k "protocol" "1" Hk) as [[] ->].
      { right. by split. }
      wp_steps. eapply (wp_clear_requests ∅ V1 false); [by destruct Hc1|]. intros c2 Hc2 _ _. wp_steps.
      apply HOk; [done|by destruct Hc2].
    + intros c1 e He. wp_steps. destruct He as [He|He]; [by left|by right].
  - intros c1 e He. wp_steps. apply HErr. by left.
  - intros c1 e Hc1 He. destruct (isinstance e (Protocol ProtocolError)); wp_steps.
    + eapply wp_recover_and_raise; [done|]. intros. wp_steps. apply HErr. by left.
    + apply HErr. by right.
Qed.

Lemma wp_require_success m b what k c Q : shape ∅ m b c ->
  Q c (Ok tt) -> (forall e, op_failed m b c e -> Q c (Err e)) -> wp (require_success what k) Q c.
Proof. intros Hc HOk HErr. unfold require_success. destruct (negb _); [apply HErr; by right|done]. Qed.

(** A parser error of a snapshot leaves the session as it was. *)
Lemma parse_failed m b c e : shape ∅ m b c -> isinstance e (Protocol ParseError) = true -> op_failed m b c e.
Proof.
  intros Hc He. right. split; [done|]. revert He. unfold isinstance. by destruct (exn_cls e) as [[]|[]|[]|[]|[]].
Qed.

Lemma wp_get_status m b oid c Q : shape ∅ m b c ->
  (forall c' st, m = V2 -> shape ∅ V2 b c' -> cl_status c' = Some st -> Q c' (Ok st)) ->
  (forall c' e, op_failed m b c' e -> Q c' (Err e)) -> wp (get_status cfg oid) Q c.
Proof.
  intros Hc HOk HErr. unfold get_status. wp_step. eapply wp_simple_request; [done| |by auto].
  intros c1 id k -> Hc1 _ Hk. wp_steps. eapply wp_require_success; [done| |intros; by apply HErr]. wp_steps.
  pose proof (pf_status (c_fields k)) as Hp. destruct (Status_from_fields _) as [st|e|]; wp_steps; [..|done].
  - apply HOk; [done|by destruct Hc1|done].
  - by apply HErr, parse_failed.
Qed.

Lemma wp_get_protocol_version m b oid c Q : shape ∅ m b c ->
  (forall c', m = V2 -> shape ∅ V2 b c' -> Q c' (Ok 2)) ->
  (forall c' e, op_failed m b c' e -> Q c' (Err e)) -> wp (get_protocol_version cfg oid) Q c.
Proof.
  intros Hc HOk HErr. unfold get_protocol_version. wp_step. eapply wp_simple_request; [done| |by auto].
  intros c1 id k -> Hc1 _ Hk. wp_steps. eapply wp_require_success; [done| |intros; by apply HErr]. wp_steps.
  destruct (c_fields k !! "protocol") as [v|]; [|by apply HErr, parse_failed].
  wp_steps. pose proof (pf_uint v "protocol" 0 None) as Hp. destruct (uint _ _ _ _) as [n|e|]; wp_steps; [..|done].
  - destruct (Z.eqb_spec n 2) as [->|]; simpl; [by apply HOk|by apply HErr, parse_failed].
  - by apply HErr, parse_failed.
Qed.

Lemma wp_get_capabilities m b oid c Q : shape ∅ m b c ->
  (forall c' cap, m = V2 -> shape ∅ V2 b c' -> Q c' (Ok cap)) ->
  (forall c' e, op_failed m b c' e -> Q c' (Err e)) -> wp (get_capabilities cfg oid) Q c.
Proof.
  intros Hc HOk HErr. unfold get_capabilities. wp_step. eapply wp_simple_request; [done| |by auto].
  intros c1 id k -> Hc1 _ Hk. wp_steps. eapply wp_require_success; [done| |intros; by apply HErr]. wp_steps.
  pose proof (pf_capabilities (c_fields k)) as Hp. destruct (Capabilities_from_fields _) as [st|e|]; [..|done].
  - by apply HOk.
  - by apply HErr, parse_failed.
Qed.

Lemma wp_get_queue m b oid c Q : shape ∅ m b c ->
  (forall c' q, m = V2 -> shape ∅ V2 b c' -> Q c' (Ok q)) ->
  (forall c' e, op_failed m b c' e -> Q c' (Err e)) -> wp (get_queue cfg oid) Q c.
Proof.
  intros Hc HOk HErr. unfold get_queue. wp_step. eapply wp_simple_request; [done| |by auto].
  intros c1 id k -> Hc1 _ Hk. wp_steps. eapply wp_require_success; [done| |intros; by apply HErr]. wp_steps.
  pose proof (pf_queue (c_fields k)) as Hp. destruct (QueueSnapshot_from_fields _) as [st|e|]; [..|done].
  - by apply HOk.
  - by apply HErr, parse_failed.
Qed.

(** *** Discovery and activation *)

Lemma wp_wait_ready m b c Q : shape ∅ m b c ->
  (forall c', shape ∅ m b c' -> Q c' (Ok tt)) ->
  (forall c' e, op_failed m b c' e -> Q c' (Err e)) -> wp (wait_ready cfg) Q c.
Proof.
  intros Hc HOk HErr. unfold wait_ready. wp_step. eapply wp_read_v1; [done|..].
  - intros c1 l Hc1. wp_steps. destruct (negb _); [apply HErr; by right|by apply HOk].
  - intros c1 e Hc1 He. wp_steps. apply HErr. by right.
Qed.

Lemma wp_ping_barrier m b c Q : shape ∅ m b c ->
  (forall c', shape ∅ m b c' -> Q c' (Ok tt)) ->
  (forall c' e, failed_closed c' e -> Q c' (Err e)) -> wp (v1_ping_barrier cfg) Q c.
Proof.
  intros Hc HOk HErr. unfold v1_ping_barrier. wp_steps. eapply wp_write_v1; [done|..].
  - intros c1 Hc1. wp_steps. eapply wp_read_v1; [done|..].
    + intros c2 l Hc2. wp_steps. destruct (negb _); wp_steps; [by eapply wp_fail_request|by apply HOk].
    + intros c2 e Hc2 He. wp_steps. by eapply wp_fail_request.
  - intros c1 e Hc1 He. wp_steps. by eapply wp_fail_request.
Qed.

Lemma classify_not_recovery l e : classify_discovery l = Err e -> isinstance e (Protocol RecoveryError) = false.
Proof. unfold classify_discovery. repeat case_match; try done; by intros [= <-]. Qed.

Lemma wp_discover_attempts m b l c Q : shape ∅ m b c ->
  (forall c' v, shape ∅ m b c' -> Q c' (Ok v)) ->
  (forall c' e, op_failed m b c' e -> Q c' (Err e)) -> wp (discover_attempts cfg l) Q c.
Proof.
  intros Hc HOk HErr. revert c Hc. induction l as [|a l IH]; intros c Hc; cbn [discover_attempts].
  { apply HErr. by right. }
  wp_step. eapply wp_write_v1; [done|..]; [|intros; apply HErr; by right].
  intros c1 Hc1. wp_steps. eapply wp_read_v1; [done|..]; [|intros; apply HErr; by right].
  intros c2 ln Hc2. wp_step. destruct (_ && _).
  - wp_step. eapply wp_ping_barrier; [done|intros; wp_step; by apply IH|]. intros. apply HErr. by left.
  - wp_steps. destruct (classify_discovery ln) as [r|e|] eqn:E; wp_steps; [by apply HOk| |].
    + apply HErr. right. split; [done|by eapply classify_not_recovery].
    + exfalso. revert E. unfold classify_discovery. repeat (case_match; try done).
Qed.

Lemma wp_discover m b c Q : shape ∅ m b c ->
  (forall c' v, shape ∅ m b c' -> Q c' (Ok v)) ->
  (forall c' e, failed_closed c' e -> Q c' (Err e)) -> wp (discover cfg) Q c.
Proof.
  intros Hc HOk HErr. unfold discover. apply (wp_keep_recovery (shape ∅ m b)); [|done|].
  - by eapply wp_discover_attempts.
  - intros. by eapply wp_fail_request.
Qed.

Lemma wp_activate_known m b c Q : shape ∅ m b c ->
  (forall c' st, shape ∅ V2 false c' -> cl_status c' = Some st -> Q c' (Ok true)) ->
  (forall c' e, failed_closed c' e -> Q c' (Err e)) -> wp (activate_known_available cfg) Q c.
Proof.
  intros Hc HOk HErr. unfold activate_known_available.
  apply (wp_keep_recovery (fun c' => exists m' b', shape ∅ m' b' c')); [|done|].
  2: { intros c' e (m' & b' & Hc') _. by eapply wp_recover_and_raise. }
  assert (forall m' b' c' e, op_failed m' b' c' e -> failed_closed c' e \/
    ((exists m' b', shape ∅ m' b' c') /\ isinstance e (Protocol RecoveryError) = false)) as Hop.
  { intros m' b' c' e [?|[? ?]]; [by left|]. right. split; [by eexists _, _|done]. }
  wp_step. eapply wp_write_v1; [done|..]; [|intros; apply (Hop m b); by right].
  intros c1 Hc1. wp_steps. eapply wp_read_v1; [done|..]; [|intros; apply (Hop m b); by right].
  intros c2 l Hc2. wp_step. wp_step. destruct (negb _); [apply (Hop m b); by right|]. wp_steps.
  eapply (wp_clear_requests ∅ V2 false); [by destruct Hc2|]. intros c3 Hc3 _ _. wp_steps.
  eapply (wp_get_protocol_version V2 false); [by destruct Hc3| |intros; by eapply Hop]. intros c4 _ Hc4. wp_steps.
  eapply wp_get_capabilities; [done| |intros; by eapply Hop]. intros c5 cap _ Hc5. wp_steps.
  eapply wp_get_status; [done| |intros; by eapply Hop]. intros c6 st _ Hc6 Hst. wp_steps. by eapply HOk.
Qed.

Lemma wp_activate m b c Q : shape ∅ m b c ->
  (forall c', shape ∅ m b c' -> Q c' (Ok false)) ->
  (forall c' st, shape ∅ V2 false c' -> cl_status c' = Some st -> Q c' (Ok true)) ->
  (forall c' e, failed_closed c' e -> Q c' (Err e)) -> wp (activate cfg) Q c.
Proof.
  intros Hc HF HT HErr. unfold activate. wp_step. eapply wp_discover; [done|..]; [|by auto].
  intros c1 [] Hc1; wp_steps; [by eapply wp_activate_known|by apply HF].
Qed.

(** ** The client as a state machine *)

(** The public operations. *)
Inductive client_op :=
| OpWaitReady | OpPingBarrier | OpDiscover | OpActivate | OpActivateKnown | OpRecover | OpStop
| OpRequest (command : string) (request_id timeout : option Z) (response_crc : option bool)
    (interrupt : option (M T exn bool)) (poll : Z)
| OpEnableCrc (request_id : option Z) | OpDisableCrc (request_id : option Z)
| OpLeave (request_id : option Z) | OpStatus (request_id : option Z)
| OpVersion (request_id : option Z) | OpCapabilities (request_id : option Z)
| OpQueue (request_id : option Z).

Definition op_lawful (op : client_op) : Prop :=
  match op with OpRequest _ _ _ _ interrupt _ => lawful_interrupt interrupt | _ => True end.

Definition forget {A} (m : CM A) : CM unit := _ ← m; mret tt.

Definition run_op (op : client_op) : CM unit :=
  match op with
  | OpWaitReady => wait_ready cfg
  | OpPingBarrier => v1_ping_barrier cfg
  | OpDiscover => forget (discover cfg)
  | OpActivate => forget (activate cfg)
  | OpActivateKnown => forget (activate_known_available cfg)
  | OpRecover => recover_to_v1 cfg
  | OpStop => out_of_band_stop cfg
  | OpRequest cmd oid tm crc i poll => forget (request cfg cmd oid tm crc i poll)
  | OpEnableCrc oid => forget (enable_crc cfg oid)
  | OpDisableCrc oid => forget (disable_crc cfg oid)
  | OpLeave oid => forget (leave_v2 cfg oid)
  | OpStatus oid => forget (get_status cfg oid)
  | OpVersion oid => forget (get_protocol_version cfg oid)
  | OpCapabilities oid => forget (get_capabilities cfg oid)
  | OpQueue oid => forget (get_queue cfg oid)
  end.

(** One call, whatever its outcome. *)
Definition client_step c c' : Prop := exists op, op_lawful op /\ c' = (run_op op c).1.

(** Between calls nothing is outstanding, and CRC is only on inside v2. *)
Definition client_idle c : Prop := exists m b, shape ∅ m b c /\ (m <> V2 -> b = false).

Lemma failed_idle m b c e : (m <> V2 -> b = false) -> op_failed m b c e -> client_idle c.
Proof.
  intros Hm [(_ & Hs & _)|[Hs _]]; [|by exists m, b]. eexists _, false. by split.
Qed.

Lemma run_op_spec op m b c : op_lawful op -> shape ∅ m b c -> (m <> V2 -> b = false) ->
  wp (run_op op) (fun c' r =>
    match r with Ok _ => client_idle c' | Err e => op_failed m b c' e | OutOfFuel => False end) c.
Proof.
  intros Hop Hc Hm.
  assert (forall c', shape ∅ m b c' -> client_idle c') as Hsame by (intros c' ?; by exists m, b).
  assert (forall c' b', shape ∅ V2 b' c' -> client_idle c') as Hv2 by (intros c' b' ?; by exists V2, b').
  assert (forall c', shape ∅ V1 false c' -> client_idle c') as Hv1 by (intros c' ?; by exists V1, false).
  assert (forall c' e, failed_closed c' e -> op_failed m b c' e) as Hf by (intros c' e ?; by left).
  destruct op; simpl; unfold forget; try wp_step;
    first [ eapply wp_wait_ready | eapply wp_ping_barrier | eapply wp_discover | eapply wp_activate
          | eapply wp_activate_known | eapply wp_recover | eapply wp_out_of_band_stop | eapply wp_request
          | eapply wp_enable_crc | eapply wp_disable_crc | eapply wp_leave_v2 | eapply wp_get_status
          | eapply wp_get_protocol_version | eapply wp_get_capabilities | eapply wp_get_queue ];
    try done; intros; subst; repeat (wp_step; try done); eauto.
  left. by split_and!.
Qed.
End Spec.

(** ** Properties *)

Section Properties.
Context {T : Type} `{ByteStreamLaws T} (cfg : ClientConfig T) `{!ClientLaws cfg}.


(** In every state reachable from a new client by any sequence of
    operations, whatever their outcomes, no request is outstanding, CRC
    protection is on only inside a v2 session, the ID counter is in range and
    the line buffer is bounded. *)
Theorem client_reachable_idle (t : T) (c0 c : ProtocolClient T) :
  ProtocolClient_init cfg t = Ok c0 -> rtc (client_step cfg) c0 c ->
  active (requests c) = ∅ /\ (cl_mode c <> V2 -> crc_enabled c = false)
  /\ tracker_wf (requests c) /\ reader_bounded (reader c).
Proof.
  intros Hi Hr. assert (client_idle c) as (m & b & [? ? ? ? ?] & Hm).
  - assert (client_idle c0) as Hidle.
    { unfold ProtocolClient_init in Hi. destruct (_ <=? _); [done|]. injection Hi as <-.
      exists V1, false. split; [|done]. by split. }
    clear Hi. induction Hr as [|c1 c2 c3 (op & Hop & ->) _ IH]; [done|]. apply IH.
    destruct Hidle as (m & b & Hc & Hm). pose proof (run_op_spec cfg op m b c1 Hop Hc Hm) as Hs.
    unfold wp in Hs. destruct (run_op cfg op c1) as [c' [u|e|]]; simpl in *; [done| |done].
    by eapply failed_idle.
  - subst. split_and!; auto.
Qed.


(** Outside an active v2 session a request is refused with a
    [ProtocolError] before anything is written: the client and the transport
    are exactly as they were. *)
Theorem request_refused_outside_v2 (cmd : string) (oid timeout : option Z) (crc : option bool)
    (interrupt : option (M T exn bool)) (poll : Z) (c : ProtocolClient T) :
  cl_mode c <> V2 -> 0 < poll -> 0 < default (cfg_timeout cfg) timeout ->
  request cfg cmd oid timeout crc interrupt poll c =
    (c, throw (Protocol ProtocolError) "v2 request attempted outside an active v2 session").
Proof.
  intros Hm Hp Ht. unfold request. rewrite (proj2 (Z.leb_gt poll 0)) by done.
  rewrite (proj2 (Z.leb_gt _ 0)) by done. unfold _start.
  unfold mbind, M_bind, getS. by rewrite bool_decide_false.
Qed.

(** Activation either enters v2 (mode V2, CRC off, a status snapshot
    cached, nothing outstanding), or reports a legacy device and stays in the
    mode it was in, or raises [RecoveryError] with the session closed (V1 when
    recovered, UNCERTAIN otherwise); it never raises anything else. *)
Theorem activation_outcome (c : ProtocolClient T) :
  client_idle c ->
  match activate cfg c with
  | (c', Ok true) => cl_mode c' = V2 /\ crc_enabled c' = false /\ is_Some (cl_status c')
                     /\ active (requests c') = ∅
  | (c', Ok false) => cl_mode c' = cl_mode c /\ active (requests c') = ∅
  | (c', Err e) => failed_closed c' e
  | (_, OutOfFuel) => False
  end.
Proof.
  intros (m & b & Hc & Hm).
  assert (wp (activate cfg) (fun c' r =>
    match r with
    | Ok true => shape ∅ V2 false c' /\ is_Some (cl_status c')
    | Ok false => shape ∅ m b c'
    | Err e => failed_closed c' e
    | OutOfFuel => False
    end) c) as Hw.
  { by apply (wp_activate cfg m b). }
  unfold wp in Hw. destruct (activate cfg c) as [c' [[]|e|]]; simpl in *; try done.
  - by destruct Hw as [[? ? ? ? ?] ?].
  - rewrite (sh_mode _ _ _ _ Hc). by destruct Hw.
Qed.
End Properties.

(** ** Witnesses over the scripted transport *)

Definition demo_config : ClientConfig ScriptedTransport :=
  mkClientConfig 1000000 (Some sc_reset) None None.

Definition nl (s : string) : string := s +:+ String LF "".

Definition demo_client (m : SessionMode) (inc : list string) : ProtocolClient ScriptedTransport :=
  mkClient (ScriptedTransport_init (nl <$> inc) (nl <$> ["Ready"; " ok"])) LineReader_init m false
    RequestTracker_init EventTracker_init None.

#[export] Instance demo_laws : ClientLaws demo_config.
Proof. split; try done. intros h t [= <-]. done. Qed.

Lemma demo_idle m inc : client_idle (demo_client m inc).
Proof.
  exists m, false. split; [|done]. by split.
Qed.


Lemma client_reachable_idle_witness :
  let c := demo_client V1 ["protocol:2 available"] in
  active (requests c) = ∅ /\ (cl_mode c <> V2 -> crc_enabled c = false)
  /\ tracker_wf (requests c) /\ reader_bounded (reader c).
Proof.
  intros c. apply (client_reachable_idle demo_config (transport c) c c); [done|]. apply rtc_refl.
Defined.


Lemma request_refused_outside_v2_witness :
  let c := demo_client V1 [] in
  request demo_config "sort:3" None None None None default_poll c =
    (c, throw (Protocol ProtocolError) "v2 request attempted outside an active v2 session").
Proof. apply (request_refused_outside_v2 demo_config); [discriminate|reflexivity|reflexivity]. Defined.

Lemma activation_outcome_witness :
  match activate demo_config (demo_client V1 ["protocol:2 available"; "protocol:2 ready"; "@1 done:protocol=1"]) with
  | (c', Ok true) => cl_mode c' = V2 /\ crc_enabled c' = false /\ is_Some (cl_status c')
                     /\ active (requests c') = ∅
  | (c', Ok false) => cl_mode c' = V1 /\ active (requests c') = ∅
  | (c', Err e) => failed_closed c' e
  | (_, OutOfFuel) => False
  end.
Proof.
  apply (activation_outcome demo_config
    (demo_client V1 ["protocol:2 available"; "protocol:2 ready"; "@1 done:protocol=1"])).
  apply demo_idle.
Defined.
