(* ===== verification/Wiretap.v ===== *)
(** * What a client says and hears on its transport

    A recorder around any byte stream: it behaves as the stream it wraps and keeps every write, every reset and
    every chunk that was read. From what it keeps, a dialogue is read off: what was said, when the controller was reset, and the
    lines that were heard. What the operations of [ProtocolClient] (client.py) say and hear is proved here once, for the
    programs that are clients. *)
From S2P Require Import Prelude PyString Errors Crc Models Parsing Tracking Framing Transport Client ClientSpec.

Inductive io := Wrote (data : string) | Restarted | Got (data : string).

Record Tapped (T : Type) := mkTapped { inner : T; tape : list io }.
Arguments mkTapped {T}.
Arguments inner {T}.
Arguments tape {T}.

Definition tapped {T A} (m : M T exn A) (note : res exn A -> list io) : M (Tapped T) exn A := fun w =>
  let '(t, r) := m (inner w) in (mkTapped t (tape w ++ note r), r).
Definition note_read (r : res exn string) : list io := match r with Ok (String c s) => [Got (String c s)] | _ => [] end.

#[export] Instance tapped_stream {T} `{ByteStream T} : ByteStream (Tapped T) := {
  bs_read n o := tapped (bs_read n o) note_read;
  bs_write d := tapped (bs_write d) (fun _ => [Wrote d]);
  bs_reset := (fun m => tapped m (fun _ => [Restarted])) <$> bs_reset;
  bs_monotonic w := let '(t, now) := bs_monotonic (inner w) in (mkTapped t (tape w), now);
  bs_sleep d w := mkTapped (bs_sleep d (inner w)) (tape w);
  bs_clock w := bs_clock (inner w);
  bs_pending w := bs_pending (inner w);
}.

#[export] Instance tapped_laws {T} `{ByteStreamLaws T} : ByteStreamLaws (Tapped T).
Proof.
  split; cbn [bs_read bs_write bs_monotonic bs_sleep bs_clock bs_pending tapped_stream].
  - intros [t l]. pose proof (monotonic_now t). simpl. by destruct (bs_monotonic t).
  - intros [t l]. pose proof (monotonic_le t). simpl. by destruct (bs_monotonic t).
  - intros [t l]. pose proof (monotonic_pending t). simpl. by destruct (bs_monotonic t).
  - intros d [t l]. apply sleep_clock.
  - intros d [t l]. apply sleep_pending.
  - intros n o [t l]. pose proof (read_clock n o t). unfold tapped. simpl. by destruct (bs_read n o t).
  - intros n o [t l] Hn. pose proof (read_pending n o t Hn). unfold tapped. simpl. by destruct (bs_read n o t).
  - intros s [t l]. pose proof (write_clock s t). unfold tapped. simpl. by destruct (bs_write s t).
  - intros s [t l]. pose proof (write_out s t). unfold tapped. simpl. by destruct (bs_write s t).
Qed.

(** ** Dialogues *)

Inductive talk := Say (data : string) | Restart | Hear (line : string).

(** The chunks that were read make up whole lines, each accepted by the v1 reader. *)
Inductive speaks : list io -> list talk -> Prop :=
| sp_end : speaks [] []
| sp_say d es ts : speaks es ts -> speaks (Wrote d :: es) (Say d :: ts)
| sp_restart es ts : speaks es ts -> speaks (Restarted :: es) (Restart :: ts)
| sp_hear gs raw l es ts : str_join "" gs = raw +:+ String LF "" -> line_spec false 4096 raw = Some l ->
    speaks es ts -> speaks ((Got <$> gs) ++ es) (Hear l :: ts).

Lemma speaks_app es1 ts1 es2 ts2 : speaks es1 ts1 -> speaks es2 ts2 -> speaks (es1 ++ es2) (ts1 ++ ts2).
Proof.
  intros H1 H2. induction H1 as [|d es ts _ IH|es ts _ IH|gs raw l es ts Hg Hl _ IH]; cbn [app]; [done|by constructor..|].
  rewrite <- app_assoc. by econstructor.
Qed.

Section Tap.
Context {T : Type} `{ByteStreamLaws T}.
Abbreviation W := (Tapped T).

(** ** The reader *)

Lemma tap_read_go fuel deadline v2 r w : lr_pending r = "" ->
  let p := read_line_go fuel deadline v2 (r, w) in
  exists gs, tape p.1.2 = tape w ++ (Got <$> gs)
  /\ forall l, p.2 = Ok l -> exists raw, str_join "" gs = raw +:+ String LF "" /\ str_mem LF raw = false
      /\ feed_chunk v2 (raw +:+ String LF "") r = (p.1.1, Some (Ok l)).
Proof.
  revert r w. induction fuel as [|fuel IH]; intros r w Hp; cbv zeta.
  { exists []. cbn. by rewrite app_nil_r. }
  cbn [read_line_go]. cbn [bs_monotonic tapped_stream]. destruct (bs_monotonic (inner w)) as [t1 now].
  destruct (_ <=? 0); [exists []; cbn; by rewrite app_nil_r|].
  unfold next_chunk. rewrite Hp. cbn [bs_read tapped_stream]. unfold tapped. cbn [inner tape].
  pose proof (read_pending 1 (Some (deadline - now)) t1 ltac:(lia)) as Hr.
  destruct (bs_read 1 (Some (deadline - now)) t1) as [t2 [s|e|]]; cbn [fst snd] in Hr; [|exists []; cbn; by rewrite app_nil_r|done].
  destruct s as [|c s]; cbn [note_read].
  - cbn [bs_monotonic bs_sleep tapped_stream inner tape]. destruct (bs_monotonic t2) as [t3 now2]. rewrite app_nil_r.
    destruct (IH r (mkTapped (bs_sleep (Z.min 1000 (Z.max 0 (deadline - now2))) t3) (tape w)) Hp) as (gs & Ht & Hl). by exists gs.
  - destruct Hr as [_ Hr]. rewrite slen_cons in Hr. pose proof (slen_nonneg s). assert (s = "") as -> by (apply slen_0; lia).
    cbn [feed_chunk]. destruct (feed_byte_lf v2 c r) as [Hx Hy]. pose proof (feed_byte_pending v2 c r) as Hpend.
    destruct (feed_byte v2 c r) as [r' [x|]] eqn:Ef; cbn [fst snd] in *.
    + exists [String c ""]. split; [done|]. intros l ->. exists "".
      assert (c = LF) as -> by (apply code_inj; rewrite Hx by (by eexists); done).
      split_and!; [done|done|]. cbn [String.append feed_chunk]. change ("" +:+ String LF "") with (String LF ""). cbn [feed_chunk]. by rewrite Ef.
    + destruct (IH r' (mkTapped t2 (tape w ++ [Got (String c "")])) ltac:(congruence)) as (gs & Ht & Hl).
      exists (String c "" :: gs). cbn [tape] in Ht. split; [by rewrite Ht, <- app_assoc|]. intros l Hp2.
      destruct (Hl l Hp2) as (raw & Hraw & Hlf & Hfeed). exists (String c raw). rewrite join_cons, Hraw. split_and!; [done| |].
      * rewrite str_mem_cons, Hlf, orb_false_r. apply Ascii.eqb_neq. intros <-. by destruct (Hy eq_refl).
      * rewrite str_app_cons. cbn [feed_chunk]. by rewrite Ef.
Qed.

Lemma tap_read_line timeout r w : reader_clean r -> v1_limit r = 4096 ->
  let p := read_line timeout false (r, w) in
  forall l, p.2 = Ok l -> p.1.1 = r /\ exists es, tape p.1.2 = tape w ++ es /\ speaks es [Hear l].
Proof.
  intros Hcl Hlim. cbv zeta. unfold read_line. cbn [bs_monotonic tapped_stream]. destruct (bs_monotonic (inner w)) as [t now]. intros l Hl.
  destruct (tap_read_go (read_fuel timeout r (mkTapped t (tape w))) (now + timeout) false r (mkTapped t (tape w)) (proj1 Hcl)) as (gs & Ht & Hr).
  destruct (Hr l Hl) as (raw & Hg & Hlf & Hfeed).
  destruct (feed_whole_line false raw r) as (x & E & Hx); [unfold limit_of; rewrite Hlim; lia|done|done|].
  rewrite Hfeed in E. injection E as Hrd <-. split; [done|]. exists (Got <$> gs). split; [done|].
  rewrite <- (app_nil_r (Got <$> gs)). eapply sp_hear; [done| |constructor].
  unfold limit_of in Hx. rewrite Hlim in Hx. destruct (line_spec false 4096 raw) as [l'|]; cbn in Hx; [congruence|by destruct Hx as (? & ? & ?)].
Qed.

(** ** Clients *)

Context (cfg : ClientConfig W).
Abbreviation CM := (M (ProtocolClient W) exn).

(** The reader holds no part of a line. *)
Definition tuned (c : ProtocolClient W) : Prop := reader_clean (reader c) /\ v1_limit (reader c) = 4096.

(** When [m] returns, what it said and heard is [R] of what it returns. *)
Definition says {A} (m : CM A) (R : A -> list talk -> Prop) : Prop := forall c, tuned c ->
  match m c with
  | (c', Ok a) => tuned c' /\ exists es ts, tape (transport c') = tape (transport c) ++ es /\ speaks es ts /\ R a ts
  | _ => True
  end.
Definition never_returns {A} (m : CM A) : Prop := forall c, match m c with (_, Ok _) => False | _ => True end.

Lemma dialogue_bind {A B} (m : CM A) (f : A -> CM B) R1 R : says m R1 ->
  (forall a ts, R1 a ts -> says (f a) (fun b ts' => R b (ts ++ ts'))) -> says (m ≫= f) R.
Proof.
  intros Hm Hf c Hc. unfold mbind, M_bind. specialize (Hm c Hc). destruct (m c) as [c1 [a|e|]]; [|done|done].
  destruct Hm as (Hc1 & es1 & ts1 & Ht1 & Hs1 & HR). specialize (Hf a ts1 HR c1 Hc1). destruct (f a c1) as [c2 [b|e|]]; [|done|done].
  destruct Hf as (Hc2 & es2 & ts2 & Ht2 & Hs2 & HR'). split; [done|]. exists (es1 ++ es2), (ts1 ++ ts2).
  split; [by rewrite Ht2, Ht1, app_assoc|]. split; [by apply speaks_app|done].
Qed.
Lemma says_weaken {A} (m : CM A) (R R' : A -> list talk -> Prop) : says m R -> (forall a ts, R a ts -> R' a ts) -> says m R'.
Proof.
  intros Hm HR c Hc. specialize (Hm c Hc). destruct (m c) as [c1 [a|e|]]; [|done|done].
  destruct Hm as (? & es & ts & ? & ? & ?). split; [done|]. exists es, ts. auto.
Qed.
Lemma says_quiet {A} (m : CM A) (R : A -> list talk -> Prop) :
  (forall c, match m c with (c', Ok a) => reader c' = reader c /\ tape (transport c') = tape (transport c) /\ R a [] | _ => True end) -> says m R.
Proof.
  intros Hm c Hc. specialize (Hm c). destruct (m c) as [c1 [a|e|]]; [|done|done]. destruct Hm as (Hr & Ht & HR).
  unfold tuned. rewrite Hr, Ht. split; [done|]. exists [], []. rewrite app_nil_r. split_and!; [done|constructor|done].
Qed.
Lemma says_ret {A} (a : A) (R : A -> list talk -> Prop) : R a [] -> says (mret a) R.
Proof. intros HR. by apply says_quiet. Qed.
Lemma says_never {A} (m : CM A) R : never_returns m -> says m R.
Proof. intros Hm c _. specialize (Hm c). by destruct (m c) as [c1 [a|e|]]. Qed.
Lemma says_try {A} (m : CM A) h R : says m R -> (forall e, never_returns (h e)) -> says (try_except m h) R.
Proof.
  intros Hm Hh c Hc. unfold try_except. specialize (Hm c Hc). destruct (m c) as [c1 [a|e|]]; [done| |done].
  specialize (Hh e c1). by destruct (h e c1) as [c2 [a|e'|]].
Qed.
Lemma never_raise {A} e : never_returns (raise e : CM A).
Proof. done. Qed.
Lemma never_bind {A B} (m : CM A) (f : A -> CM B) : (forall a, never_returns (f a)) -> never_returns (m ≫= f).
Proof. intros Hf c. unfold mbind, M_bind. destruct (m c) as [c1 [a|e|]]; [apply Hf|done|done]. Qed.
Lemma never_fail_request {A} msg : never_returns (_fail_request cfg msg : CM A).
Proof. unfold _fail_request, recover_and_raise. apply never_bind. intros ?. by apply never_bind. Qed.

Lemma says_monotonic : says monotonic (fun _ ts => ts = []).
Proof. apply says_quiet. intros c. unfold monotonic, on_transport. cbn. by destruct (bs_monotonic _). Qed.
Lemma says_get : says getS (fun _ ts => ts = []).
Proof. by apply says_quiet. Qed.
Lemma says_clear_requests : says clear_requests (fun _ ts => ts = []).
Proof. by apply says_quiet. Qed.

Lemma says_write_bytes d : says (_write_bytes d) (fun _ ts => ts = [Say d]).
Proof.
  intros c Hc. unfold _write_bytes, mbind, M_bind, on_transport. cbn [bs_write tapped_stream]. unfold tapped.
  destruct (bs_write d (inner (transport c))) as [t [[n|]|e|]]; cbn; [|..]; try done; [destruct (negb _); [done|]|];
    (split; [done|]; exists [Wrote d], [Say d]; split; [done|split; [apply sp_say, sp_end|done]]).
Qed.
Lemma says_write s : encode_ascii s = Some s -> says (_write_v1 s) (fun _ ts => ts = [Say (s +:+ String LF "")]).
Proof.
  intros Hs. unfold _write_v1. destruct (_ || _); [by apply says_never|].
  unfold encode_bytes. rewrite Hs. intros c Hc. exact (says_write_bytes (s +:+ String LF "") c Hc).
Qed.
Lemma says_read timeout : says (on_reader (read_line timeout false)) (fun l ts => ts = [Hear l]).
Proof.
  intros c [Hcl Hlim]. unfold on_reader. pose proof (tap_read_line timeout (reader c) (transport c) Hcl Hlim) as Hr.
  destruct (read_line timeout false (reader c, transport c)) as [[r w] [l|e|]]; [|done|done].
  destruct (Hr l eq_refl) as [Hr' (es & Ht & Hs)]. cbn [fst snd] in *. subst r. split; [done|]. by exists es, [Hear l].
Qed.
Lemma says_read_v1 timeout : says (_read_v1 cfg timeout) (fun l ts => ts = [Hear l]).
Proof. apply says_read. Qed.

(** Lines are heard until the literal [stopped]. *)
Lemma says_await fuel deadline : says (await_stopped fuel deadline) (fun _ ts => exists ls, ts = (Hear <$> ls) ++ [Hear "stopped"]).
Proof.
  induction fuel as [|fuel IH]; [by apply says_never|]. cbn [await_stopped].
  eapply dialogue_bind; [apply says_monotonic|]. intros now ts ->. cbn [app].
  destruct (_ <=? 0); [apply says_never, never_raise|]. eapply dialogue_bind; [apply says_read|]. intros l ts ->.
  case_bool_decide as El; [subst; apply says_ret; by exists []|].
  eapply says_weaken; [apply IH|]. intros [] ts [ls ->]. by exists (l :: ls).
Qed.

Definition stop_exchange (ts : list talk) : Prop := exists ls, ts = Say ("stop" +:+ String LF "") :: (Hear <$> ls) ++ [Hear "stopped"].
Lemma says_stop_and_await : says (stop_and_await cfg) (fun _ => stop_exchange).
Proof.
  unfold stop_and_await. eapply dialogue_bind; [by apply says_write|]. intros [] ts ->.
  eapply dialogue_bind; [apply says_monotonic|]. intros now ts ->. eapply dialogue_bind; [apply says_get|]. intros c ts ->.
  eapply says_weaken; [apply says_await|]. intros [] ts [ls ->]. by exists ls.
Qed.
Lemma says_stop : says (out_of_band_stop cfg) (fun _ => stop_exchange).
Proof.
  unfold out_of_band_stop. apply says_try; [|intros e; apply never_fail_request].
  eapply dialogue_bind; [apply says_stop_and_await|]. intros [] ts Hts. eapply says_weaken; [apply says_clear_requests|]. intros [] ts' ->. by rewrite app_nil_r.
Qed.

Lemma says_ready : says (wait_ready cfg) (fun _ ts => ts = [Hear "Ready"]).
Proof.
  unfold wait_ready. eapply dialogue_bind; [apply says_read_v1|]. intros l ts ->.
  case_bool_decide as El; cbn [negb]; [subst; by apply says_ret|apply says_never, never_raise].
Qed.
Definition ping_exchange : list talk := [Say ("ping" +:+ String LF ""); Hear " ok"].
Lemma says_ping : says (v1_ping_barrier cfg) (fun _ ts => ts = ping_exchange).
Proof.
  unfold v1_ping_barrier. apply says_try; [|intros e; apply never_fail_request].
  eapply dialogue_bind; [by apply says_write|]. intros [] ts ->. eapply dialogue_bind; [apply says_read_v1|]. intros l ts ->.
  case_bool_decide as El; cbn [negb]; [subst; by apply says_ret|apply says_never, never_raise].
Qed.

(** What detection asks and is answered; one [error:busy] is followed by the idle barrier and a second question. *)
Definition question : talk := Say ("protocol:2?" +:+ String LF "").
Definition answer_of (available : bool) : talk := Hear (if available then "protocol:2 available" else "ok").
Definition discovery (available : bool) (ts : list talk) : Prop :=
  ts = [question; answer_of available] \/ ts = [question; Hear "error:busy"] ++ ping_exchange ++ [question; answer_of available].

Lemma says_attempt_last : says (discover_attempts cfg [1%nat]) (fun b ts => ts = [question; answer_of b]).
Proof.
  cbn [discover_attempts]. eapply dialogue_bind; [by apply says_write|]. intros [] ts ->. eapply dialogue_bind; [apply says_read_v1|]. intros l ts ->.
  cbn [Nat.eqb]. rewrite andb_false_r. unfold classify_discovery.
  case_bool_decide as E1; [subst; by apply says_ret|]. case_bool_decide as E2; [subst; by apply says_ret|by apply says_never].
Qed.
Lemma says_discover : says (discover cfg) discovery.
Proof.
  unfold discover, keep_recovery. apply says_try; [|intros e; destruct (isinstance _ _); [apply never_raise|apply never_fail_request]].
  change (discover_attempts cfg [0%nat; 1%nat]) with
    (_ ← _write_v1 "protocol:2?"; l ← _read_v1 cfg None;
     if bool_decide (l = "error:busy") && (0 =? 0)%nat then _ ← v1_ping_barrier cfg; discover_attempts cfg [1%nat]
     else reply ← liftR (classify_discovery l); mret (bool_decide (reply = AVAILABLE))).
  eapply dialogue_bind; [by apply says_write|]. intros [] ts ->. eapply dialogue_bind; [apply says_read_v1|]. intros l ts ->.
  cbn [Nat.eqb]. rewrite andb_true_r. case_bool_decide as Eb.
  - subst. eapply dialogue_bind; [apply says_ping|]. intros [] ts ->. eapply says_weaken; [apply says_attempt_last|]. intros b ts ->. by right.
  - unfold classify_discovery. case_bool_decide as E1; [subst; apply says_ret; by left|]. case_bool_decide as E2; [subst; apply says_ret; by left|by apply says_never].
Qed.

(** ** What may be written *)

Context (P : string -> Prop).
Definition permitted (e : io) : Prop := match e with Wrote d => P d | _ => True end.
(** Whatever its outcome, [m] adds to the tape and writes only what [P] permits. *)
Definition writes_only {S A} (tape_of : S -> list io) (m : M S exn A) : Prop := forall s, exists es,
  tape_of (m s).1 = tape_of s ++ es /\ Forall permitted es.
Abbreviation careful := (writes_only (fun c : ProtocolClient W => tape (transport c))).

Context (Hstop : P ("stop" +:+ String LF "")) (Hping : P ("ping" +:+ String LF "")).
Context (Hreset : forall h, reset_hook cfg = Some h -> writes_only tape h)
  (Hevent : on_event cfg = None) (Hrecovery : on_recovery cfg = None).

Lemma careful_quiet {A} (m : CM A) : (forall c, tape (transport (m c).1) = tape (transport c)) -> careful m.
Proof. intros Hm c. exists []. by rewrite Hm, app_nil_r. Qed.
Lemma careful_bind_ok {A B} (m : CM A) (f : A -> CM B) : careful m -> (forall a c, (m c).2 = Ok a -> careful (f a)) -> careful (m ≫= f).
Proof.
  intros Hm Hf c. pose proof (fun a => Hf a c) as Hfc. clear Hf. rename Hfc into Hf. unfold mbind, M_bind. destruct (Hm c) as (e1 & H1 & F1). destruct (m c) as [c1 [a|e|]]; cbn [fst snd] in *; [|by exists e1..].
  destruct (Hf a eq_refl c1) as (e2 & H2 & F2). exists (e1 ++ e2). rewrite H2, H1, app_assoc. split; [done|by apply Forall_app].
Qed.
Lemma careful_bind {A B} (m : CM A) (f : A -> CM B) : careful m -> (forall a, careful (f a)) -> careful (m ≫= f).
Proof. intros Hm Hf. apply careful_bind_ok; [done|by intros]. Qed.
Lemma careful_try {A} (m : CM A) h : careful m -> (forall e, careful (h e)) -> careful (try_except m h).
Proof.
  intros Hm Hh c. unfold try_except. destruct (Hm c) as (e1 & H1 & F1). destruct (m c) as [c1 [a|e|]]; cbn [fst] in *; [by exists e1| |by exists e1].
  destruct (Hh e c1) as (e2 & H2 & F2). exists (e1 ++ e2). rewrite H2, H1, app_assoc. split; [done|by apply Forall_app].
Qed.
Lemma careful_on_transport {A} (m : M W exn A) : writes_only tape m -> careful (on_transport m).
Proof. intros Hm c. unfold on_transport. destruct (Hm (transport c)) as (es & Ht & Hf). destruct (m (transport c)) as [t o]. by exists es. Qed.

Lemma read_go_notes fuel deadline v2 : writes_only (fun s : LineReader * W => tape s.2) (read_line_go fuel deadline v2).
Proof.
  induction fuel as [|fuel IH]; intros [r w]; [exists []; cbn; by rewrite app_nil_r|].
  cbn [read_line_go bs_monotonic tapped_stream]. destruct (bs_monotonic (inner w)) as [t1 now].
  destruct (_ <=? 0); [exists []; cbn; by rewrite app_nil_r|].
  assert (forall o, exists es, tape (next_chunk o (r, mkTapped t1 (tape w))).1.2 = tape w ++ es /\ Forall permitted es) as Hn.
  { intros o. unfold next_chunk. destruct (lr_pending r) as [|c rest]; [|exists []; cbn; by rewrite app_nil_r].
    cbn [bs_read tapped_stream]. unfold tapped. cbn [inner tape]. destruct (bs_read 1 (Some o) t1) as [t2 x]. exists (note_read x). split; [done|].
    unfold note_read. repeat case_match; by repeat constructor. }
  destruct (Hn (deadline - now)) as (es & Ht & Hf). destruct (next_chunk _ _) as [[r2 w2] [s|e|]]; cbn [fst snd] in Ht; [|by exists es..].
  assert (forall r3 w3, tape w3 = tape w2 -> exists es', tape (read_line_go fuel deadline v2 (r3, w3)).1.2 = tape w ++ es' /\ Forall permitted es') as Hgo.
  { intros r3 w3 Hw3. destruct (IH (r3, w3)) as (e2 & H2 & F2). exists (es ++ e2). cbn [snd] in H2. rewrite H2, Hw3, Ht, app_assoc. split; [done|by apply Forall_app]. }
  destruct s as [|c s].
  - cbn [bs_monotonic bs_sleep tapped_stream]. destruct (bs_monotonic (inner w2)) as [t3 now2]. by apply Hgo.
  - destruct (feed_chunk v2 (String c s) r2) as [r3 [x|]]; [by exists es|by apply Hgo].
Qed.

Lemma careful_read timeout v2 : careful (on_reader (read_line timeout v2)).
Proof.
  intros c. unfold on_reader, read_line. cbn [bs_monotonic tapped_stream]. destruct (bs_monotonic (inner (transport c))) as [t now].
  destruct (read_go_notes (read_fuel timeout (reader c) (mkTapped t (tape (transport c)))) (now + timeout) v2 (reader c, mkTapped t (tape (transport c)))) as (es & Ht & Hf).
  destruct (read_line_go _ _ _ _) as [[r w] x]. by exists es.
Qed.
Lemma careful_monotonic : careful monotonic.
Proof. apply careful_quiet. intros c. unfold monotonic, on_transport. cbn. by destruct (bs_monotonic _). Qed.
Lemma careful_ret {A} (a : A) : careful (mret a).
Proof. by apply careful_quiet. Qed.
Lemma careful_raise {A} e : careful (raise e : CM A).
Proof. by apply careful_quiet. Qed.
Lemma careful_lift {A} (r : result A) : careful (liftR r).
Proof. by apply careful_quiet. Qed.
Lemma careful_get : careful getS.
Proof. by apply careful_quiet. Qed.
Lemma careful_modify f : (forall c : ProtocolClient W, transport (f c) = transport c) -> careful (modifyS f).
Proof. intros Hf. apply careful_quiet. intros c. cbn. by rewrite Hf. Qed.
Lemma careful_fuel {A} : careful (fun c => (c, OutOfFuel) : _ * result A).
Proof. by apply careful_quiet. Qed.
Lemma careful_on_requests {A} (m : M RequestTracker exn A) : careful (on_requests m).
Proof. apply careful_quiet. intros c. unfold on_requests. by destruct (m _). Qed.
Lemma careful_write_bytes d : P d -> careful (_write_bytes d).
Proof.
  intros Hd. unfold _write_bytes. apply careful_bind.
  - apply careful_on_transport. intros w. cbn [bs_write tapped_stream]. unfold tapped. destruct (bs_write d (inner w)) as [t r]. exists [Wrote d]. by repeat constructor.
  - intros [n|]; [destruct (negb _)|]; [apply careful_raise|apply careful_ret..].
Qed.
Lemma careful_encoded s : P s -> careful (data ← liftR (encode_bytes s); _write_bytes data).
Proof.
  intros Hs. unfold encode_bytes, encode_ascii. destruct (str_forall is_ascii s); [by apply careful_write_bytes|apply careful_raise].
Qed.
Lemma careful_write_v1 s : P (s +:+ String LF "") -> careful (_write_v1 s).
Proof.
  intros Hs. unfold _write_v1. destruct (_ || _); [apply careful_raise|]. unfold encode_bytes, encode_ascii.
  destruct (str_forall is_ascii s); [by apply careful_write_bytes|apply careful_raise].
Qed.

(** One construct of a client operation. *)
Ltac careful :=
  unfold raise_new, clear_requests, _read_v1, _read_v2 in *;
  repeat (cbv beta;
    lazymatch goal with
    | |- writes_only _ (_ ≫= _) => apply careful_bind; [|intros]
    | |- writes_only _ (try_except _ _) => apply careful_try; [|intros]
    | |- writes_only _ (mret _) => apply careful_ret
    | |- writes_only _ (raise _) => apply careful_raise
    | |- writes_only _ (liftR _) => apply careful_lift
    | |- writes_only _ getS => apply careful_get
    | |- writes_only _ (fun _ => (_, OutOfFuel)) => apply careful_fuel
    | |- writes_only _ (on_reader _) => apply careful_read
    | |- writes_only _ monotonic => apply careful_monotonic
    | |- writes_only _ (on_requests _) => apply careful_on_requests
    | |- writes_only _ (modifyS _) => by apply careful_modify
    | |- writes_only _ (_write_v1 _) => by apply careful_write_v1
    | |- writes_only _ (if ?x then _ else _) => destruct x
    | |- writes_only _ (match ?x with _ => _ end) => destruct x eqn:?
    | H : writes_only _ ?m |- writes_only _ ?m => exact H
    | IH : forall x, writes_only _ _ |- _ => apply IH
    end).

Lemma careful_await fuel deadline : careful (await_stopped fuel deadline).
Proof. induction fuel as [|fuel IH]; cbn [await_stopped]; careful. Qed.
Lemma careful_stop_and_await : careful (stop_and_await cfg).
Proof. unfold stop_and_await. apply careful_bind; [by apply careful_write_v1|]. intros. careful. apply careful_await. Qed.
Lemma careful_recover : careful (recover_to_v1 cfg).
Proof.
  unfold recover_to_v1, verify_v1. rewrite Hrecovery. careful; [apply careful_stop_and_await|]. apply careful_on_transport. by apply Hreset.
Qed.
Lemma careful_fail_request {A} msg : careful (_fail_request cfg msg : CM A).
Proof. unfold _fail_request, recover_and_raise. careful. apply careful_recover. Qed.
Lemma careful_recover_and_raise {A} msg : careful (recover_and_raise cfg msg : CM A).
Proof. unfold recover_and_raise. careful. apply careful_recover. Qed.
Lemma careful_ping : careful (v1_ping_barrier cfg).
Proof. unfold v1_ping_barrier. careful. apply careful_fail_request. Qed.
Lemma careful_stop : careful (out_of_band_stop cfg).
Proof. unfold out_of_band_stop. careful; [apply careful_stop_and_await|apply careful_fail_request]. Qed.
Lemma careful_ready : careful (wait_ready cfg).
Proof. unfold wait_ready. careful. Qed.
Lemma careful_discover : P ("protocol:2?" +:+ String LF "") -> careful (discover cfg).
Proof.
  intros Hq. unfold discover, keep_recovery. apply careful_try; [|intros; careful; apply careful_fail_request].
  generalize [0%nat; 1%nat]. intros l. induction l as [|a l IH]; cbn [discover_attempts]; careful. apply careful_ping.
Qed.

(** *** Requests *)

(** The frames of a command. *)
Definition permits (command : string) : Prop := forall id crc frame, format_request id command crc = Ok frame -> P (frame +:+ String LF "").

Lemma careful_start command oid : permits command -> careful (_start cfg command oid).
Proof.
  intros Hc. unfold _start. apply careful_bind; [careful|]. intros c0. destruct (negb _); [careful|].
  apply careful_bind; [destruct oid; careful|]. intros id. apply careful_bind_ok; [careful|]. intros frame c Hf.
  apply careful_bind; [|intros; careful]. apply careful_try; [|intros; apply careful_fail_request].
  apply careful_encoded, (Hc id (crc_enabled c0)). revert Hf. unfold try_except, liftR. destruct (format_request _ _ _) as [f|e|]; cbn; [congruence| |done].
  by case_match.
Qed.

Lemma careful_event e : careful (_observe_event cfg e).
Proof. unfold _observe_event. rewrite Hevent. careful. Qed.
Lemma careful_correlate id item : careful (correlate id item).
Proof. unfold correlate. careful. Qed.
Lemma careful_read_item deadline remaining crc poll : careful (read_item cfg deadline remaining crc None poll).
Proof. unfold read_item. careful; apply careful_fail_request. Qed.

Lemma careful_loop fuel id deadline crc poll rs : careful (request_loop cfg fuel id deadline crc None poll rs).
Proof.
  revert rs. induction fuel as [|fuel IH]; intros rs; cbn [request_loop]; careful; [apply careful_fail_request|apply careful_read_item|].
  unfold handle_item. careful; try apply careful_event; try apply careful_correlate; apply careful_fail_request.
Qed.
Lemma careful_request command oid timeout crc poll : permits command -> careful (request cfg command oid timeout crc None poll).
Proof. intros Hc. unfold request. careful; [by apply careful_start|apply careful_loop]. Qed.
Lemma careful_simple command oid : permits command -> careful (simple_request cfg command oid).
Proof. apply careful_request. Qed.

Lemma careful_enable_crc oid : permits "crc:on" -> careful (enable_crc cfg oid).
Proof. intros Hc. unfold enable_crc. careful; [by apply careful_request|apply careful_fail_request]. Qed.

Lemma careful_activate : P ("protocol:2" +:+ String LF "") -> permits "protocolversion" -> permits "capabilities" -> permits "status" ->
  careful (activate_known_available cfg).
Proof.
  intros Hp H1 H2 H3. unfold activate_known_available, keep_recovery, get_protocol_version, get_capabilities, get_status, require_success.
  careful; try (by apply careful_simple); apply careful_recover_and_raise.
Qed.
End Tap.
