(* ===== verification/IsoTime.v ===== *)
(** * UTC timestamps as ISO-8601 text

    [datetime.isoformat] of an aware UTC moment and its inverse
    [datetime.fromisoformat] on that form, over microseconds since 1970. The
    calendar is the proleptic Gregorian one, computed per 400-year era. *)
From S2P Require Import Prelude PyString Errors.

(** ** The calendar

    Days are counted from 1 March of year 0; the years of the computation start
    in March, so that the leap day is the last of its year. *)
Definition year_start (y : Z) : Z := 365 * y + y / 4 - y / 100 + y / 400.

Definition march_year (z : Z) : Z :=
  let era := z / 146097 in
  let r := z mod 146097 in
  let century := Z.min 3 (r / 36524) in
  let r := r - 36524 * century in
  let quad := r / 1461 in
  let r := r - 1461 * quad in
  400 * era + 100 * century + 4 * quad + Z.min 3 (r / 365).

(** The first day of the month, counted from March = 0. *)
Definition month_start (mp : Z) : Z := (153 * mp + 2) / 5.

Definition civil_of_days (days : Z) : Z * Z * Z :=
  let z := days + 719468 in
  let y := march_year z in
  let doy := z - year_start y in
  let mp := (5 * doy + 2) / 153 in
  let d := doy - month_start mp + 1 in
  if mp <? 10 then (y, mp + 3, d) else (y + 1, mp - 9, d).

Definition days_of_civil (y m d : Z) : Z :=
  let y := if m <=? 2 then y - 1 else y in
  let mp := if m <=? 2 then m + 9 else m - 3 in
  year_start y + month_start mp + d - 1 - 719468.

(** ** Text *)

(** [f"{n:0wd}"] for a number that fits. *)
Fixpoint pad (w : nat) (n : Z) : string :=
  match w with
  | O => ""
  | S w => pad w (n / 10) +:+ String (chr (0x30 + n mod 10)) ""
  end.

Definition us_per_day : Z := 86400000000.

(** The text before an offset, and the offset. *)
Definition iso_with (offset : string) (us : Z) : string :=
  let '(y, m, d) := civil_of_days (us / us_per_day) in
  let t := us mod us_per_day in
  pad 4 y +:+ "-" +:+ pad 2 m +:+ "-" +:+ pad 2 d +:+ "T"
  +:+ pad 2 (t / 3600000000) +:+ ":" +:+ pad 2 (t / 60000000 mod 60) +:+ ":" +:+ pad 2 (t / 1000000 mod 60)
  +:+ (if t mod 1000000 =? 0 then "" else "." +:+ pad 6 (t mod 1000000)) +:+ offset.
Definition isoformat (us : Z) : string := iso_with "+00:00" us.

(** [w] digits, and the rest. *)
Fixpoint digits_go (w : nat) (acc : Z) (s : string) : option (Z * string) :=
  match w with
  | O => Some (acc, s)
  | S w =>
      match s with
      | String c rest => if is_digit c then digits_go w (10 * acc + (code c - 0x30)) rest else None
      | "" => None
      end
  end.
Definition digits (w : nat) (s : string) : option (Z * string) := digits_go w 0 s.

Definition expect (c : ascii) (s : string) : option string :=
  match s with String d rest => if Ascii.eqb c d then Some rest else None | "" => None end.

Definition parse_iso (s : string) : option Z :=
  '(y, s) ← digits 4 s; s ← expect "-" s;
  '(m, s) ← digits 2 s; s ← expect "-" s;
  '(d, s) ← digits 2 s; s ← expect "T" s;
  '(hh, s) ← digits 2 s; s ← expect ":" s;
  '(mi, s) ← digits 2 s; s ← expect ":" s;
  '(ss, s) ← digits 2 s;
  '(us, s) ← match expect "." s with Some s => digits 6 s | None => Some (0, s) end;
  if bool_decide (s = "+00:00") || bool_decide (s = "Z")
  then Some (days_of_civil y m d * us_per_day + ((hh * 60 + mi) * 60 + ss) * 1000000 + us)
  else None.

(** [datetime.fromisoformat(value).astimezone(UTC)] on the form [isoformat]
    writes, with that offset or [Z]; any other text is refused. *)
Definition fromisoformat (s : string) : result Z :=
  match parse_iso s with
  | Some us => Ok us
  | None => throw (Builtin ValueError) "Invalid isoformat string"
  end.

(** The range of [datetime]: years 1 to 9999. *)
Definition valid_moment (us : Z) : Prop := -62135596800000000 <= us <= 253402300799999999.

(** ** The calendar is a bijection *)

(** The start of the year after year [100 c + 4 q + k] of era [e]. *)
Lemma year_next e c q k : 0 <= c <= 3 -> 0 <= q <= 24 -> 0 <= k <= 3 ->
  year_start (400 * e + 100 * c + 4 * q + k + 1) =
    146097 * e + 36524 * c + 1461 * q + 365 * k + 365
    + (if (k =? 3) && (negb (q =? 24) || (c =? 3)) then 1 else 0).
Proof.
  intros Hc Hq Hk. unfold year_start.
  destruct (k =? 3) eqn:Ek, (q =? 24) eqn:Eq, (c =? 3) eqn:Ec; simpl; bool_inv; Z.div_mod_to_equations; lia.
Qed.

Lemma march_year_spec z : year_start (march_year z) <= z < year_start (march_year z + 1).
Proof.
  unfold march_year. pose proof (Z.div_mod z 146097 ltac:(lia)) as Hz.
  pose proof (Z.mod_pos_bound z 146097 ltac:(lia)) as Hr.
  revert Hz Hr. generalize (z / 146097) (z mod 146097). intros e r -> Hr.
  assert (exists c r1, Z.min 3 (r / 36524) = c /\ r - 36524 * c = r1 /\ 0 <= c <= 3 /\ 0 <= r1 <= 36524
    /\ (c < 3 -> r1 < 36524)) as (c & r1 & -> & E1 & Hc & Hr1 & Hr1').
  { eexists _, _. split_and!; [done|done|..]; Z.div_mod_to_equations; lia. }
  rewrite E1. assert (exists q r2, r1 / 1461 = q /\ r1 - 1461 * q = r2 /\ 0 <= q <= 24 /\ 0 <= r2 <= 1460
    /\ (r1 < 36524 -> q = 24 -> r2 < 1460)) as (q & r2 & -> & E2 & Hq & Hr2 & Hr2').
  { eexists _, _. split_and!; [done|done|..]; Z.div_mod_to_equations; lia. }
  rewrite E2. assert (exists k, Z.min 3 (r2 / 365) = k /\ 0 <= k <= 3 /\ 0 <= r2 - 365 * k <= 365
    /\ (k < 3 -> r2 - 365 * k < 365)) as (k & -> & Hk & Hr3 & Hr3').
  { eexists _. split_and!; [done|..]; Z.div_mod_to_equations; lia. }
  assert (year_start (400 * e + 100 * c + 4 * q + k) = 146097 * e + 36524 * c + 1461 * q + 365 * k) as ->.
  { unfold year_start. Z.div_mod_to_equations. lia. }
  split; [lia|]. rewrite year_next by done.
  destruct (k =? 3) eqn:Ek, (q =? 24) eqn:Eq, (c =? 3) eqn:Ec; simpl; bool_inv; lia.
Qed.

Lemma month_bounds doy : 0 <= doy <= 365 ->
  let mp := (5 * doy + 2) / 153 in
  0 <= mp <= 11 /\ month_start mp <= doy < month_start (mp + 1) /\ doy - month_start mp <= 30.
Proof. intros H. unfold month_start. cbv zeta. Z.div_mod_to_equations. lia. Qed.

Lemma year_length y : 365 <= year_start (y + 1) - year_start y <= 366.
Proof. unfold year_start. Z.div_mod_to_equations. lia. Qed.

Lemma civil_inverse days : let '(y, m, d) := civil_of_days days in days_of_civil y m d = days.
Proof.
  unfold civil_of_days. set (z := days + 719468). pose proof (march_year_spec z) as Hy.
  pose proof (year_length (march_year z)) as Hl. set (y := march_year z) in *.
  pose proof (month_bounds (z - year_start y) ltac:(lia)) as Hm. simpl in Hm.
  set (mp := (5 * (z - year_start y) + 2) / 153) in *. unfold days_of_civil.
  destruct (mp <? 10) eqn:E; bool_inv.
  - rewrite (proj2 (Z.leb_gt _ _)) by lia. replace (mp + 3 - 3) with mp by lia. lia.
  - rewrite (proj2 (Z.leb_le _ _)) by lia. replace (mp - 9 + 9) with mp by lia.
    replace (y + 1 - 1) with y by lia. lia.
Qed.

(** Year-month-day order. *)
Definition civil_lt (a b : Z * Z * Z) : Prop :=
  a.1.1 < b.1.1 \/ (a.1.1 = b.1.1 /\ (a.1.2 < b.1.2 \/ (a.1.2 = b.1.2 /\ a.2 < b.2))).

Lemma year_start_mono a b : a <= b -> year_start a <= year_start b.
Proof. intros H. unfold year_start. Z.div_mod_to_equations. lia. Qed.

Lemma month_start_mono a b : a <= b -> month_start a <= month_start b.
Proof. intros H. unfold month_start. apply Z.div_le_mono; lia. Qed.

Lemma civil_mono a b : a < b -> civil_lt (civil_of_days a) (civil_of_days b).
Proof.
  intros Hab. unfold civil_of_days.
  set (za := a + 719468). set (zb := b + 719468). assert (za < zb) as Hz by lia.
  pose proof (march_year_spec za) as Ha. pose proof (march_year_spec zb) as Hb.
  pose proof (year_length (march_year za)). pose proof (year_length (march_year zb)).
  set (ya := march_year za) in *. set (yb := march_year zb) in *.
  assert (ya <= yb) as Hle.
  { destruct (decide (ya <= yb)); [done|]. pose proof (year_start_mono (yb + 1) ya). lia. }
  pose proof (month_bounds (za - year_start ya) ltac:(lia)) as Hma.
  pose proof (month_bounds (zb - year_start yb) ltac:(lia)) as Hmb. simpl in Hma, Hmb.
  set (ma := (5 * (za - year_start ya) + 2) / 153) in *.
  set (mb := (5 * (zb - year_start yb) + 2) / 153) in *.
  assert (ya = yb -> ma <= mb) as Hmm.
  { intros E. destruct (decide (ma <= mb)); [done|]. pose proof (month_start_mono (mb + 1) ma).
    rewrite E in *. lia. }
  assert (ya = yb -> ma = mb -> za - year_start ya - month_start ma + 1 < zb - year_start yb - month_start mb + 1) as Hd.
  { intros -> ->. lia. }
  clearbody ya yb ma mb za zb. unfold civil_lt.
  destruct (ma <? 10) eqn:Ea, (mb <? 10) eqn:Eb; bool_inv; cbn [fst snd];
    destruct (decide (ya = yb)); try specialize (Hmm ltac:(done)); try specialize (Hd ltac:(done));
    destruct (decide (ma = mb)); try specialize (Hd ltac:(done)); lia.
Qed.

(** ** Round trip *)

Lemma pad_length w n : String.length (pad w n) = w.
Proof.
  revert n. induction w as [|w IH]; intros n; [done|]. cbn [pad].
  assert (forall a c, String.length (a +:+ String c "") = S (String.length a)) as E.
  { intros a c. induction a as [|d a IHa]; [done|]. rewrite str_app_cons. simpl. by rewrite IHa. }
  by rewrite E, IH.
Qed.

Lemma digits_go_cons w acc c s :
  digits_go (S w) acc (String c s) = if is_digit c then digits_go w (10 * acc + (code c - 0x30)) s else None.
Proof. done. Qed.

Lemma digits_go_snoc w acc s :
  digits_go (S w) acc s = digits_go w acc s ≫= fun '(a, s') => digits_go 1 a s'.
Proof.
  revert acc s. induction w as [|w IH]; intros acc s; [done|].
  destruct s as [|c rest]; [done|]. rewrite !(digits_go_cons _ acc c rest). destruct (is_digit c); [apply IH|done].
Qed.

Lemma digits_pad_go w n acc s : 0 <= n < 10 ^ Z.of_nat w ->
  digits_go w acc (pad w n +:+ s) = Some (acc * 10 ^ Z.of_nat w + n, s).
Proof.
  revert n acc s. induction w as [|w IH]; intros n acc s Hn.
  - simpl in *. change (10 ^ Z.of_nat 0) with 1 in *. assert (n = 0) as -> by lia.
    change ("" +:+ s) with s. f_equal. f_equal. lia.
  - replace (Z.of_nat (S w)) with (Z.succ (Z.of_nat w)) in * by lia. rewrite Z.pow_succ_r in * by lia.
    rewrite digits_go_snoc. cbn [pad]. rewrite <- str_app_assoc, IH.
    + cbn [mbind option_bind]. rewrite str_app_cons. change ("" +:+ s) with s. cbn [digits_go].
      pose proof (Z.mod_pos_bound n 10 ltac:(lia)). unfold is_digit. rewrite code_chr by lia.
      rewrite !(proj2 (Z.leb_le _ _)) by lia. simpl. f_equal. f_equal.
      pose proof (Z.div_mod n 10 ltac:(lia)). nia.
    + split; [apply Z.div_pos; lia|]. apply Z.div_lt_upper_bound; lia.
Qed.

Lemma digits_pad w n s : 0 <= n < 10 ^ Z.of_nat w -> digits w (pad w n +:+ s) = Some (n, s).
Proof. intros H. unfold digits. rewrite digits_pad_go by done. f_equal. Qed.

Lemma expect_cons c s : expect c (String c "" +:+ s) = Some s.
Proof. change (String c "" +:+ s) with (String c s). simpl. by rewrite Ascii.eqb_refl. Qed.

(** The calendar fields of a valid moment fit their widths. *)
Lemma civil_month_day n : let '(y, m, d) := civil_of_days n in 1 <= m <= 12 /\ 1 <= d <= 31.
Proof.
  unfold civil_of_days. set (z := n + 719468). pose proof (march_year_spec z) as Hy.
  pose proof (year_length (march_year z)) as Hl. set (y := march_year z) in *.
  pose proof (month_bounds (z - year_start y) ltac:(lia)) as Hm. simpl in Hm.
  set (mp := (5 * (z - year_start y) + 2) / 153) in *.
  destruct (mp <? 10) eqn:E; bool_inv; lia.
Qed.

Lemma civil_year n : -719162 <= n <= 2932896 -> 1 <= (civil_of_days n).1.1 <= 9999.
Proof.
  intros Hn. pose proof (civil_mono (-719162) n) as Hlo. pose proof (civil_mono n 2932896) as Hhi.
  change (civil_of_days (-719162)) with (1, 1, 1) in Hlo.
  change (civil_of_days 2932896) with (9999, 12, 31) in Hhi. unfold civil_lt in *. cbn [fst snd] in *.
  destruct (decide (n = -719162)) as [->|]; [by vm_compute|].
  destruct (decide (n = 2932896)) as [->|]; [by vm_compute|]. lia.
Qed.

Lemma civil_fields us : valid_moment us ->
  let '(y, m, d) := civil_of_days (us / us_per_day) in 1 <= y <= 9999 /\ 1 <= m <= 12 /\ 1 <= d <= 31.
Proof.
  unfold valid_moment, us_per_day. intros Hus.
  pose proof (civil_year (us / 86400000000) ltac:(Z.div_mod_to_equations; lia)) as Hy.
  pose proof (civil_month_day (us / 86400000000)) as Hm.
  destruct (civil_of_days _) as [[y m] d]. by split.
Qed.

(** The time-of-day fields. *)
Lemma clock_fields t : 0 <= t < us_per_day ->
  0 <= t / 3600000000 < 24 /\ 0 <= t / 60000000 mod 60 < 60 /\ 0 <= t / 1000000 mod 60 < 60
  /\ 0 <= t mod 1000000 < 1000000
  /\ t = ((t / 3600000000 * 60 + t / 60000000 mod 60) * 60 + t / 1000000 mod 60) * 1000000 + t mod 1000000.
Proof. unfold us_per_day. intros Ht. Z.div_mod_to_equations. lia. Qed.

Lemma iso_roundtrip_with offset us : offset = "+00:00" \/ offset = "Z" -> valid_moment us -> parse_iso (iso_with offset us) = Some us.
Proof.
  intros Ho Hus. pose proof (civil_fields us Hus) as Hf. pose proof (civil_inverse (us / us_per_day)) as Hi.
  unfold iso_with. destruct (civil_of_days (us / us_per_day)) as [[y m] d].
  destruct Hf as (Hy & Hm & Hd).
  pose proof (clock_fields (us mod us_per_day) (Z.mod_pos_bound us us_per_day eq_refl)) as (H1 & H2 & H3 & H4 & H5).
  set (t := us mod us_per_day) in *. unfold parse_iso.
  rewrite digits_pad by lia. cbn [mbind option_bind]. rewrite (expect_cons "-").
  cbn [mbind option_bind]. rewrite digits_pad by lia. cbn [mbind option_bind]. rewrite (expect_cons "-").
  cbn [mbind option_bind]. rewrite digits_pad by lia. cbn [mbind option_bind]. rewrite (expect_cons "T").
  cbn [mbind option_bind]. rewrite digits_pad by lia. cbn [mbind option_bind]. rewrite (expect_cons ":").
  cbn [mbind option_bind]. rewrite digits_pad by lia. cbn [mbind option_bind]. rewrite (expect_cons ":").
  cbn [mbind option_bind]. rewrite digits_pad by lia. cbn [mbind option_bind].
  assert (us = us / us_per_day * us_per_day + t) as Hus2
    by (subst t; pose proof (Z.div_mod us us_per_day ltac:(done)); lia).
  assert (bool_decide (offset = "+00:00") || bool_decide (offset = "Z") = true) as Hacc by by destruct Ho as [-> | ->].
  destruct (t mod 1000000 =? 0) eqn:E; bool_inv.
  - assert (expect "." ("" +:+ offset) = None) as -> by by destruct Ho as [-> | ->].
    simpl. change ("" +:+ offset) with offset. rewrite Hacc. f_equal. rewrite Hi. lia.
  - rewrite <- (str_app_assoc "."). rewrite (expect_cons "."). rewrite digits_pad by lia.
    cbn [mbind option_bind]. rewrite Hacc. f_equal. rewrite Hi. lia.
Qed.

Lemma iso_roundtrip us : valid_moment us -> parse_iso (isoformat us) = Some us.
Proof. apply iso_roundtrip_with. by left. Qed.

Lemma iso_offset offset us : iso_with offset us = iso_with "" us +:+ offset.
Proof.
  unfold iso_with. destruct (civil_of_days _) as [[y m] d]. by rewrite <- !str_app_assoc.
Qed.

Lemma pad_digits w n : str_forall is_digit (pad w n) = true.
Proof.
  revert n. induction w as [|w IH]; intros n; [done|]. simpl. rewrite str_forall_app, IH. simpl.
  pose proof (Z.mod_pos_bound n 10 ltac:(lia)). unfold is_digit. rewrite code_chr by lia.
  by rewrite !(proj2 (Z.leb_le _ _)) by lia.
Qed.

(** ** Text order *)

(** SQLite's BINARY collation. *)
Fixpoint str_ltb (a b : string) : bool :=
  match a, b with
  | _, "" => false
  | "", String _ _ => true
  | String c a, String d b => (code c <? code d) || ((code c =? code d) && str_ltb a b)
  end.

Lemma str_ltb_irrefl a : str_ltb a a = false.
Proof. induction a as [|c a IH]; [done|]. simpl. by rewrite Z.ltb_irrefl, Z.eqb_refl. Qed.

Lemma str_ltb_asym a b : str_ltb a b = true -> str_ltb b a = false.
Proof.
  revert b. induction a as [|c a IH]; intros [|d b]; simpl; try done. rewrite !orb_true_iff, !andb_true_iff.
  intros [H|[H H']]; bool_inv.
  - apply orb_false_iff. split; [apply Z.ltb_ge; lia|]. apply andb_false_iff. left. apply Z.eqb_neq. lia.
  - apply orb_false_iff. split; [apply Z.ltb_ge; lia|]. apply andb_false_iff. right. by apply IH.
Qed.

Lemma str_ltb_same p a b : str_ltb (p +:+ a) (p +:+ b) = str_ltb a b.
Proof.
  induction p as [|c p IH]; [done|]. rewrite !str_app_cons. simpl. by rewrite Z.ltb_irrefl, Z.eqb_refl.
Qed.

Lemma str_ltb_prefix p q a b : String.length p = String.length q ->
  str_ltb p q = true -> str_ltb (p +:+ a) (q +:+ b) = true.
Proof.
  revert q. induction p as [|c p IH]; intros [|d q] Hl; try done. rewrite !str_app_cons. simpl.
  rewrite !orb_true_iff, !andb_true_iff. intros [H|[H H']]; [by left|right]. split; [done|]. apply IH; [by injection Hl|done].
Qed.

Lemma pad_lt w m n : 0 <= m -> n < 10 ^ Z.of_nat w -> m < n -> str_ltb (pad w m) (pad w n) = true.
Proof.
  revert m n. induction w as [|w IH]; intros m n Hm Hn Hmn; [simpl in Hn; change (10 ^ Z.of_nat 0) with 1 in Hn; lia|].
  replace (Z.of_nat (S w)) with (Z.succ (Z.of_nat w)) in Hn by lia. rewrite Z.pow_succ_r in Hn by lia.
  cbn [pad]. destruct (decide (m / 10 = n / 10)) as [E|E].
  - rewrite E, str_ltb_same. simpl. pose proof (Z.mod_pos_bound m 10). pose proof (Z.mod_pos_bound n 10).
    rewrite !code_chr by lia. apply orb_true_iff. left. apply Z.ltb_lt.
    pose proof (Z.div_mod m 10). pose proof (Z.div_mod n 10). lia.
  - apply str_ltb_prefix; [by rewrite !pad_length|]. apply IH; [apply Z.div_pos; lia|apply Z.div_lt_upper_bound; lia|].
    assert (m / 10 <= n / 10) by (apply Z.div_le_mono; lia). lia.
Qed.

(** Comparing two texts field by field: a smaller field decides, an equal one
    passes the comparison on. *)
Lemma field_lt w m n a b : 0 <= m -> n < 10 ^ Z.of_nat w ->
  m < n \/ (m = n /\ str_ltb a b = true) -> str_ltb (pad w m +:+ a) (pad w n +:+ b) = true.
Proof.
  intros Hm Hn [H|[-> H]]; [|by rewrite str_ltb_same].
  apply str_ltb_prefix; [by rewrite !pad_length|by apply pad_lt].
Qed.

Lemma iso_text_lt a b : valid_moment a -> valid_moment b -> a < b -> str_ltb (isoformat a) (isoformat b) = true.
Proof.
  intros Ha Hb Hab. pose proof (civil_fields a Ha) as Fa. pose proof (civil_fields b Hb) as Fb.
  pose proof (civil_mono (a / us_per_day) (b / us_per_day)) as Hmono. unfold isoformat, iso_with.
  assert (a / us_per_day <= b / us_per_day) as Hle by (apply Z.div_le_mono; [done|lia]).
  pose proof (Z.div_mod a us_per_day ltac:(done)) as Da. pose proof (Z.div_mod b us_per_day ltac:(done)) as Db.
  pose proof (clock_fields (a mod us_per_day) (Z.mod_pos_bound a us_per_day eq_refl)) as (A1 & A2 & A3 & A4 & A5).
  pose proof (clock_fields (b mod us_per_day) (Z.mod_pos_bound b us_per_day eq_refl)) as (B1 & B2 & B3 & B4 & B5).
  set (ta := a mod us_per_day) in *. set (tb := b mod us_per_day) in *. clearbody ta tb.
  destruct (decide (a / us_per_day = b / us_per_day)) as [E|E].
  - rewrite E in *. destruct (civil_of_days (b / us_per_day)) as [[y m] d]. rewrite !str_ltb_same.
    apply field_lt; [lia|change (10 ^ Z.of_nat 2) with 100; lia|].
    destruct (decide (ta / 3600000000 < tb / 3600000000)); [by left|right]. split; [lia|]. rewrite str_ltb_same.
    apply field_lt; [lia|change (10 ^ Z.of_nat 2) with 100; lia|].
    destruct (decide (ta / 60000000 mod 60 < tb / 60000000 mod 60)); [by left|right]. split; [lia|]. rewrite str_ltb_same.
    apply field_lt; [lia|change (10 ^ Z.of_nat 2) with 100; lia|].
    destruct (decide (ta / 1000000 mod 60 < tb / 1000000 mod 60)); [by left|right]. split; [lia|].
    rewrite (proj2 (Z.eqb_neq (tb mod 1000000) 0)) by lia.
    destruct (ta mod 1000000 =? 0) eqn:E0; bool_inv; [done|]. rewrite <- !str_app_assoc, str_ltb_same.
    apply field_lt; [lia|change (10 ^ Z.of_nat 6) with 1000000; lia|]. left. lia.
  - specialize (Hmono ltac:(lia)). unfold civil_lt in Hmono.
    destruct (civil_of_days (a / us_per_day)) as [[y m] d], (civil_of_days (b / us_per_day)) as [[y' m'] d'].
    cbn [fst snd] in Hmono.
    apply field_lt; [lia|change (10 ^ Z.of_nat 4) with 10000; lia|].
    destruct Hmono as [?|[-> Hmono]]; [by left|right; split; [done|]]. rewrite str_ltb_same.
    apply field_lt; [lia|change (10 ^ Z.of_nat 2) with 100; lia|].
    destruct Hmono as [?|[-> Hmono]]; [by left|right; split; [done|]]. rewrite str_ltb_same.
    apply field_lt; [lia|change (10 ^ Z.of_nat 2) with 100; lia|]. by left.
Qed.

Lemma iso_text_order a b : valid_moment a -> valid_moment b ->
  str_ltb (isoformat a) (isoformat b) = true <-> a < b.
Proof.
  intros Ha Hb. split; [|by apply iso_text_lt]. intros H.
  destruct (decide (a < b)); [done|]. destruct (decide (a = b)) as [->|].
  - by rewrite str_ltb_irrefl in H.
  - apply str_ltb_asym in H. rewrite iso_text_lt in H; [done|done|done|lia].
Qed.

(** ** Properties *)

(** The stored form of a timestamp is faithful: reading it back gives the
    same moment, and comparing two stored timestamps as text is comparing them
    in time, although the fraction is omitted for whole seconds. *)
Theorem stored_time_faithful (a b : Z) : valid_moment a -> valid_moment b ->
  fromisoformat (isoformat a) = Ok a
  /\ (str_ltb (isoformat a) (isoformat b) = true <-> a < b).
Proof. intros Ha Hb. unfold fromisoformat. by rewrite iso_roundtrip, iso_text_order. Qed.

Lemma stored_time_faithful_witness :
  fromisoformat (isoformat 1709164800000000) = Ok 1709164800000000
  /\ (str_ltb (isoformat 1709164800000000) (isoformat 1709164800000001) = true <->
      1709164800000000 < 1709164800000001).
Proof. apply (stored_time_faithful 1709164800000000 1709164800000001); by split. Defined.

Example isoformat_leap_day : isoformat 1709164800000000 = "2024-02-29T00:00:00+00:00".
Proof. vm_compute. reflexivity. Qed.
