(* ===== verification/Json.v ===== *)
(** * JSON as the daemon writes and reads it

    The escapes, integers and separators of [json.dumps] with its defaults
    ([ensure_ascii]), and a [json.loads] for values without floating-point
    numbers (the daemon stores none) whose escapes stay in 0..255. *)
From S2P Require Import Prelude PyString Errors.

(** ** Writing *)

(** [json.dumps] of a string with [ensure_ascii]. *)
Definition json_char (c : ascii) : string :=
  let z := code c in
  if z =? 34 then String "\" (String dquote "")
  else if z =? 92 then "\\"
  else if z =? 10 then "\n" else if z =? 13 then "\r" else if z =? 9 then "\t"
  else if z =? 12 then "\f" else if z =? 8 then "\b"
  else if (z <? 0x20) || (0x7e <? z)
  then "\u00" +:+ String (hex_lower (z / 16)) (String (hex_lower (z mod 16)) "")
  else String c "".

Fixpoint json_chars (s : string) : string :=
  match s with
  | "" => ""
  | String c s => json_char c +:+ json_chars s
  end.

Definition json_str (s : string) : string := String dquote (json_chars s) +:+ String dquote "".

Definition json_int (n : Z) : string := if n <? 0 then String "-" (str_of_Z (- n)) else str_of_Z n.

(** The values [json.loads] builds; a float is kept as its [repr]. *)
Inductive json :=
| JNull | JBool (b : bool) | JInt (n : Z) | JFloat (text : string) | JStr (s : string)
| JArr (l : list json) | JObj (l : list (string * json)).

(** ** Reading *)

Definition json_ws (c : ascii) : bool :=
  Ascii.eqb c " " || Ascii.eqb c (chr 9) || Ascii.eqb c (chr 10) || Ascii.eqb c (chr 13).

Fixpoint skip_ws (s : string) : string :=
  match s with
  | String c r => if json_ws c then skip_ws r else s
  | "" => ""
  end.

Definition hex_val (c : ascii) : option Z :=
  let z := code c in
  if is_digit c then Some (z - 0x30)
  else if (0x41 <=? z) && (z <=? 0x46) then Some (z - 0x41 + 10)
  else if (0x61 <=? z) && (z <=? 0x66) then Some (z - 0x61 + 10)
  else None.

(** The character after a backslash, other than [u]. *)
Definition unescape (c : ascii) : option ascii :=
  if Ascii.eqb c dquote then Some dquote
  else if Ascii.eqb c "\" then Some "\"%char
  else if Ascii.eqb c "/" then Some "/"%char
  else if Ascii.eqb c "b" then Some (chr 8)
  else if Ascii.eqb c "f" then Some (chr 12)
  else if Ascii.eqb c "n" then Some (chr 10)
  else if Ascii.eqb c "r" then Some (chr 13)
  else if Ascii.eqb c "t" then Some (chr 9)
  else None.

(** The rest of a string literal after its opening quote. *)
Fixpoint parse_chars (s : string) : option (string * string) :=
  match s with
  | "" => None
  | String c r =>
      if Ascii.eqb c dquote then Some ("", r)
      else if Ascii.eqb c "\" then
        match r with
        | String e r' =>
            if Ascii.eqb e "u" then
              match r' with
              | String h1 (String h2 (String h3 (String h4 r''))) =>
                  match hex_val h1, hex_val h2, hex_val h3, hex_val h4 with
                  | Some 0, Some 0, Some a, Some b =>
                      match parse_chars r'' with
                      | Some (x, t) => Some (String (chr (16 * a + b)) x, t)
                      | None => None
                      end
                  | _, _, _, _ => None
                  end
              | _ => None
              end
            else
              match unescape e, parse_chars r' with
              | Some d, Some (x, t) => Some (String d x, t)
              | _, _ => None
              end
        | "" => None
        end
      else if code c <? 0x20 then None
      else match parse_chars r with Some (x, t) => Some (String c x, t) | None => None end
  end.

Definition parse_number (s : string) : option (Z * string) :=
  let '(neg, s) := match s with String c r => if Ascii.eqb c "-" then (true, r) else (false, s) | "" => (false, s) end in
  let '(ds, rest) := str_span is_digit s in
  let ok := match ds with
            | "" => false
            | String c r => negb (Ascii.eqb c "0") || bool_decide (r = "")
            end in
  let float := match rest with String c _ => str_mem c ".eE" | "" => false end in
  if ok && negb float then Some ((if neg then - int_of_digits ds else int_of_digits ds), rest) else None.

Definition strip_word (w s : string) : option string :=
  if startswith s w then Some (str_drop (String.length w) s) else None.

Section Containers.
Context (value : string -> option (json * string)).

Fixpoint parse_elements (fuel : nat) (s : string) : option (list json * string) :=
  match fuel with
  | O => None
  | S fuel =>
      '(v, s) ← value s;
      match skip_ws s with
      | String c r =>
          if Ascii.eqb c "," then '(l, t) ← parse_elements fuel r; Some (v :: l, t)
          else if Ascii.eqb c "]" then Some ([v], r) else None
      | "" => None
      end
  end.

Fixpoint parse_members (fuel : nat) (s : string) : option (list (string * json) * string) :=
  match fuel with
  | O => None
  | S fuel =>
      match skip_ws s with
      | String q r =>
          if Ascii.eqb q dquote then
            '(k, s) ← parse_chars r;
            match skip_ws s with
            | String c r =>
                if Ascii.eqb c ":" then
                  '(v, s) ← value r;
                  match skip_ws s with
                  | String c r =>
                      if Ascii.eqb c "," then '(l, t) ← parse_members fuel r; Some ((k, v) :: l, t)
                      else if Ascii.eqb c "}" then Some ([(k, v)], r) else None
                  | "" => None
                  end
                else None
            | "" => None
            end
          else None
      | "" => None
      end
  end.
End Containers.

Fixpoint parse_value (fuel : nat) (s : string) : option (json * string) :=
  match fuel with
  | O => None
  | S fuel =>
      match skip_ws s with
      | "" => None
      | String c r =>
          if Ascii.eqb c dquote then '(x, t) ← parse_chars r; Some (JStr x, t)
          else if Ascii.eqb c "{" then
            match skip_ws r with
            | String d r' =>
                if Ascii.eqb d "}" then Some (JObj [], r')
                else '(l, t) ← parse_members (parse_value fuel) fuel r; Some (JObj l, t)
            | "" => None
            end
          else if Ascii.eqb c "[" then
            match skip_ws r with
            | String d r' =>
                if Ascii.eqb d "]" then Some (JArr [], r')
                else '(l, t) ← parse_elements (parse_value fuel) fuel r; Some (JArr l, t)
            | "" => None
            end
          else if Ascii.eqb c "n" then t ← strip_word "null" (String c r); Some (JNull, t)
          else if Ascii.eqb c "t" then t ← strip_word "true" (String c r); Some (JBool true, t)
          else if Ascii.eqb c "f" then t ← strip_word "false" (String c r); Some (JBool false, t)
          else '(n, t) ← parse_number (String c r); Some (JInt n, t)
      end
  end.

(** Nothing nests deeper than the text is long. *)
Definition loads (s : string) : option json :=
  '(v, t) ← parse_value (S (String.length s)) s;
  if bool_decide (skip_ws t = "") then Some v else None.

(** ** Values as Python uses them *)

(** ** Python objects from JSON

    A [dict] in the order of its keys. *)
Abbreviation pydict := (list (string * json)).

(** An existing key keeps its place. *)
Fixpoint obj_set (k : string) (v : json) (d : pydict) : pydict :=
  match d with
  | [] => [(k, v)]
  | (k', v') :: d => if bool_decide (k = k') then (k, v) :: d else (k', v') :: obj_set k v d
  end.
Definition py_dict (l : pydict) : pydict := fold_left (fun d kv => obj_set kv.1 kv.2 d) l [].
Fixpoint obj_get (k : string) (d : pydict) : option json :=
  match d with
  | [] => None
  | (k', v) :: d => if bool_decide (k = k') then Some v else obj_get k d
  end.
Definition obj_keys (d : pydict) : gset string := list_to_set d.*1.

(** [str(value)] of a loaded JSON value. *)
Fixpoint py_repr (v : json) : string :=
  match v with
  | JNull => "None"
  | JBool b => if b then "True" else "False"
  | JInt n => json_int n
  | JStr s => str_repr s
  | JFloat text => text
  | JArr l => "[" +:+ str_join ", " (py_repr <$> l) +:+ "]"
  | JObj l => "{" +:+ str_join ", " ((fun kv => str_repr kv.1 +:+ ": " +:+ py_repr kv.2) <$> l) +:+ "}"
  end.
Definition py_str (v : json) : string := match v with JStr s => s | _ => py_repr v end.

(** A Python dict built from pairs: the last value of a key wins. *)
Definition dict_of {A} (l : list (string * A)) : gmap string A := list_to_map (reverse l).

(** The decimal digits [int(s)] accepts: single underscores between digits. *)
Fixpoint dec_digits_go (after_digit : bool) (acc : Z) (s : string) : option Z :=
  match s with
  | "" => if after_digit then Some acc else None
  | String c rest =>
      if Ascii.eqb c "_" then if after_digit then dec_digits_go false acc rest else None
      else if is_digit c then dec_digits_go true (10 * acc + (code c - 0x30)) rest else None
  end.

(** The characters [int(s)] skips at both ends. *)
Definition int_space (c : ascii) : bool :=
  let z := code c in ((9 <=? z) && (z <=? 13)) || (z =? 32) || (z =? 0x85) || (z =? 0xA0).

(** [sys.int_info.default_max_str_digits] *)
Definition max_str_digits : nat := 4300.

(** [int(s)] *)
Definition int_of_text (s : string) : result Z :=
  let t := strip_right int_space (strip_left int_space s) in
  let '(sign, ds) := match t with
                     | String c rest =>
                         if Ascii.eqb c "-" then (-1, rest) else if Ascii.eqb c "+" then (1, rest) else (1, t)
                     | "" => (1, "")
                     end in
  match dec_digits_go false 0 ds with
  | Some n =>
      if (max_str_digits <? String.length ds - str_count "_" ds)%nat
      then throw (Builtin ValueError) "Exceeds the limit (4300 digits) for integer string conversion"
      else Ok (sign * n)
  | None => throw (Builtin ValueError) ("invalid literal for int() with base 10: " +:+ str_repr s)
  end.

(** [int(value)] of a loaded JSON value. *)
Definition py_int (v : json) : result Z :=
  match v with
  | JInt n => Ok n
  | JBool b => Ok (if b then 1 else 0)
  | JStr s => int_of_text s
  | _ => throw (Builtin TypeError) "int() argument must be a string or a real number"
  end.

(** ** Escapes can be read back and do not run together *)

Lemma str_app_inj_l p a b : p +:+ a = p +:+ b -> a = b.
Proof. induction p as [|c p IH]; [done|]. rewrite !str_app_cons. intros [= H]. by apply IH. Qed.

Lemma hex_val_lower d : 0 <= d < 16 -> hex_val (hex_lower d) = Some d.
Proof.
  intros H. unfold hex_lower, hex_val, is_digit. destruct (d <? 10) eqn:E; bool_inv; rewrite code_chr by lia.
  - rewrite !(proj2 (Z.leb_le _ _)) by lia. simpl. f_equal. lia.
  - rewrite (proj2 (Z.leb_gt (0x61 + d - 10) 0x39)), (proj2 (Z.leb_gt (0x61 + d - 10) 0x46)) by lia.
    rewrite !andb_false_r, !(proj2 (Z.leb_le _ _)) by lia. simpl. f_equal. lia.
Qed.

Lemma eqb_code c d : code c <> code d -> Ascii.eqb c d = false.
Proof. intros H. apply Ascii.eqb_neq. by intros ->. Qed.

Lemma chr_code c : chr (code c) = c.
Proof. unfold chr, code. by rewrite N2Z.id, ascii_N_embedding. Qed.

Lemma parse_json_char c rest :
  parse_chars (json_char c +:+ rest) =
    match parse_chars rest with Some (x, t) => Some (String c x, t) | None => None end.
Proof.
  unfold json_char.
  destruct (Z.eqb_spec (code c) 34) as [E|H1]; [by rewrite <- (chr_code c), E|].
  destruct (Z.eqb_spec (code c) 92) as [E|H2]; [by rewrite <- (chr_code c), E|].
  destruct (Z.eqb_spec (code c) 10) as [E|H3]; [by rewrite <- (chr_code c), E|].
  destruct (Z.eqb_spec (code c) 13) as [E|H4]; [by rewrite <- (chr_code c), E|].
  destruct (Z.eqb_spec (code c) 9) as [E|H5]; [by rewrite <- (chr_code c), E|].
  destruct (Z.eqb_spec (code c) 12) as [E|H6]; [by rewrite <- (chr_code c), E|].
  destruct (Z.eqb_spec (code c) 8) as [E|H7]; [by rewrite <- (chr_code c), E|].
  pose proof (code_range c) as Hr.
  destruct (_ || _) eqn:Eb.
  - change (("\u00" +:+ String (hex_lower (code c / 16)) (String (hex_lower (code c mod 16)) "")) +:+ rest)
      with (String "\" (String "u" (String "0" (String "0" (String (hex_lower (code c / 16))
        (String (hex_lower (code c mod 16)) rest)))))).
    cbn [parse_chars]. change (Ascii.eqb "\" dquote) with false. change (Ascii.eqb "\" "\") with true.
    change (Ascii.eqb "u" "u") with true. change (hex_val "0") with (Some 0). cbv iota beta.
    rewrite !hex_val_lower by (Z.div_mod_to_equations; lia).
    rewrite <- (Z.div_mod (code c) 16), chr_code by lia. done.
  - apply orb_false_iff in Eb as [E1 E2]. bool_inv. change (String c "" +:+ rest) with (String c rest).
    cbn [parse_chars]. rewrite (eqb_code c dquote) by (change (code dquote) with 34; lia).
    rewrite (eqb_code c "\") by (change (code "\") with 92; lia).
    rewrite (proj2 (Z.ltb_ge (code c) 32)) by lia. done.
Qed.

Lemma parse_json_chars s t : parse_chars (json_chars s +:+ String dquote t) = Some (s, t).
Proof.
  induction s as [|c s IH]; [done|].
  change (json_chars (String c s)) with (json_char c +:+ json_chars s).
  rewrite <- str_app_assoc, parse_json_char, IH. done.
Qed.

Lemma json_chars_sep a b t u :
  json_chars a +:+ String dquote t = json_chars b +:+ String dquote u -> a = b /\ t = u.
Proof. intros H. apply (f_equal parse_chars) in H. rewrite !parse_json_chars in H. by injection H as <- <-. Qed.

Lemma json_str_sep a b t u : json_str a +:+ t = json_str b +:+ u -> a = b /\ t = u.
Proof.
  unfold json_str. rewrite !str_app_cons, <- !str_app_assoc, !str_app_cons. intros [= H].
  by apply json_chars_sep in H.
Qed.

(** The characters that may follow a value. *)
Definition delim (c : ascii) : Prop := c = ","%char \/ c = "}"%char.

Lemma digits_sep a b d e t u : str_forall is_digit a = true -> str_forall is_digit b = true ->
  delim d -> delim e -> a +:+ String d t = b +:+ String e u -> a = b /\ String d t = String e u.
Proof.
  intros Ha Hb Hd He H. apply (f_equal (str_span is_digit)) in H.
  rewrite !str_span_app in H by (done || (destruct Hd, He; by subst)). by injection H as <- <- <-.
Qed.

Lemma str_of_Z_inj a b : 0 <= a -> 0 <= b -> str_of_Z a = str_of_Z b -> a = b.
Proof. intros Ha Hb H. by rewrite <- (int_of_str a), <- (int_of_str b), H. Qed.

Lemma json_int_sep m n d e t u : delim d -> delim e ->
  json_int m +:+ String d t = json_int n +:+ String e u -> m = n /\ String d t = String e u.
Proof.
  intros Hd He. unfold json_int. destruct (m <? 0) eqn:Em, (n <? 0) eqn:En; bool_inv.
  - rewrite !str_app_cons. intros [= H].
    apply digits_sep in H as [H ->]; try done; try (apply digits_str_of_Z; lia).
    apply str_of_Z_inj in H; [|lia..]. split; [lia|done].
  - pose proof (digits_str_of_Z n En) as Hn. pose proof (str_of_Z_nonempty n En).
    destruct (str_of_Z n); [done|]. rewrite !str_app_cons. intros [= <- _]. simpl in Hn. done.
  - pose proof (digits_str_of_Z m Em) as Hn. pose proof (str_of_Z_nonempty m Em).
    destruct (str_of_Z m); [done|]. rewrite !str_app_cons. intros [= -> _]. simpl in Hn. done.
  - intros H. apply digits_sep in H as [H ->]; try done; try (apply digits_str_of_Z; lia).
    apply str_of_Z_inj in H; [done|lia..].
Qed.

Lemma json_int_head n : exists c r, json_int n = String c r /\ is_digit c || Ascii.eqb c "-" = true.
Proof.
  unfold json_int. destruct (n <? 0) eqn:En; bool_inv.
  - eexists _, _. split; [done|]. by rewrite orb_true_r.
  - pose proof (digits_str_of_Z n En) as Hn. pose proof (str_of_Z_nonempty n En).
    destruct (str_of_Z n) as [|c r]; [done|]. exists c, r. split; [done|]. simpl in Hn. bool_inv.
    by rewrite H0.
Qed.


(** ** Objects of scalars *)

(** The values the daemon stores: strings and integers. *)
Inductive scalar := SStr (s : string) | SInt (n : Z).

Definition scalar_json (v : scalar) : json := match v with SStr s => JStr s | SInt n => JInt n end.
Definition scalar_text (v : scalar) : string := match v with SStr s => json_str s | SInt n => json_int n end.

Definition scalar_key_le (a b : string * scalar) : Prop := String.le a.1 b.1.
#[export] Instance scalar_key_le_dec a b : Decision (scalar_key_le a b) := String.le_dec a.1 b.1.

Definition scalar_items (m : gmap string scalar) : list (string * scalar) :=
  merge_sort scalar_key_le (map_to_list m).

Definition member_text (kv : string * scalar) : string := json_str kv.1 +:+ ": " +:+ scalar_text kv.2.

(** [json.dumps(dict(m), sort_keys=True)] *)
Definition dumps_object (m : gmap string scalar) : string :=
  "{" +:+ str_join ", " (member_text <$> scalar_items m) +:+ "}".

(** ** Reading back what was written *)

Lemma json_str_app s t : json_str s +:+ t = String dquote (json_chars s +:+ String dquote t).
Proof. unfold json_str. by rewrite !str_app_cons, <- str_app_assoc. Qed.

Lemma parse_value_str fuel s t : parse_value (S fuel) (json_str s +:+ t) = Some (JStr s, t).
Proof. rewrite json_str_app. cbn [parse_value]. simpl skip_ws. cbn. by rewrite parse_json_chars. Qed.

Lemma digit_head_cases c : is_digit c = true ->
  json_ws c = false /\ Ascii.eqb c dquote = false /\ Ascii.eqb c "{" = false /\ Ascii.eqb c "[" = false
  /\ Ascii.eqb c "n" = false /\ Ascii.eqb c "t" = false /\ Ascii.eqb c "f" = false /\ Ascii.eqb c "-" = false.
Proof.
  intros H. unfold json_ws.
  assert (forall d, is_digit d = false -> Ascii.eqb c d = false) as Hd
    by (intros d E; apply Ascii.eqb_neq; intros ->; congruence).
  rewrite !Hd by done. done.
Qed.

Lemma parse_number_int n d t : delim d -> parse_number (json_int n +:+ String d t) = Some (n, String d t).
Proof.
  intros Hd. assert (is_digit d = false /\ str_mem d ".eE" = false) as [Hdd Hdf] by (by destruct Hd; subst).
  assert (forall k, 0 <= k -> match str_of_Z k with "" => false
    | String c r => negb (Ascii.eqb c "0") || bool_decide (r = "") end = true) as Hlead.
  { intros k Hk. destruct (decide (k = 0)) as [->|]; [done|].
    destruct (str_of_Z_head k) as (c & r & -> & Hc); [lia|].
    destruct (Ascii.eqb_spec c "0") as [->|]; [change (code "0") with 48 in Hc; lia|done]. }
  unfold json_int. destruct (n <? 0) eqn:En; bool_inv.
  - rewrite str_app_cons. unfold parse_number. change (Ascii.eqb "-" "-") with true. cbv iota beta.
    rewrite str_span_app by (done || (apply digits_str_of_Z; lia)).
    rewrite Hlead, Hdf, int_of_str by lia. simpl. f_equal. f_equal. lia.
  - unfold parse_number. pose proof (digits_str_of_Z n En) as Hds. pose proof (str_of_Z_nonempty n En) as Hne.
    destruct (str_of_Z n) as [|c r] eqn:Es; [done|]. rewrite str_app_cons. simpl in Hds.
    apply andb_true_iff in Hds as Hds'. destruct Hds' as [Hc _].
    destruct (digit_head_cases c Hc) as (_ & _ & _ & _ & _ & _ & _ & ->). cbv iota beta.
    rewrite <- str_app_cons. rewrite str_span_app by done.
    specialize (Hlead n En). rewrite Es in Hlead. rewrite Hlead, Hdf. simpl. rewrite <- Es, int_of_str by done. done.
Qed.

Lemma parse_value_int fuel n d t : delim d -> parse_value (S fuel) (json_int n +:+ String d t) = Some (JInt n, String d t).
Proof.
  intros Hd. pose proof (parse_number_int n d t Hd) as Hn. destruct (json_int_head n) as (c & r & Ec & Hc).
  rewrite Ec, str_app_cons in Hn |- *. cbn [parse_value]. apply orb_true_iff in Hc as [Hc|Hc].
  - destruct (digit_head_cases c Hc) as (E1 & E2 & E3 & E4 & E5 & E6 & E7 & _). simpl skip_ws. rewrite E1, E2, E3, E4, E5, E6, E7.
    by rewrite Hn.
  - apply Ascii.eqb_eq in Hc as ->. simpl skip_ws. cbn -[parse_number]. by rewrite Hn.
Qed.

Lemma parse_value_scalar fuel v d t : delim d ->
  parse_value (S fuel) (scalar_text v +:+ String d t) = Some (scalar_json v, String d t).
Proof. intros Hd. destruct v; [apply parse_value_str|by apply parse_value_int]. Qed.

(** Leading blanks before a value. *)
Lemma parse_value_space fuel s : parse_value fuel (String " " s) = parse_value fuel s.
Proof. by destruct fuel. Qed.

Definition member_json (kv : string * scalar) : string * json := (kv.1, scalar_json kv.2).

Lemma member_app kv t : member_text kv +:+ t =
  String dquote (json_chars kv.1 +:+ String dquote (String ":" (String " " (scalar_text kv.2 +:+ t)))).
Proof.
  unfold member_text. rewrite <- !str_app_assoc, json_str_app. done.
Qed.

Lemma parse_members_space f fuel s : parse_members f fuel (String " " s) = parse_members f fuel s.
Proof. by destruct fuel. Qed.

Lemma parse_members_text fuel vf l t : l <> [] -> (length l <= fuel)%nat -> (0 < vf)%nat ->
  parse_members (parse_value vf) fuel (str_join ", " (member_text <$> l) +:+ String "}" t)
    = Some (member_json <$> l, t).
Proof.
  intros Hl Hf Hvf. destruct vf as [|vf]; [lia|]. revert fuel Hf. induction l as [|kv l IH]; intros fuel Hf; [done|].
  destruct fuel as [|fuel]; [simpl in Hf; lia|]. simpl in Hf. destruct l as [|kv' l].
  - rewrite fmap_cons, fmap_nil. cbn [str_join]. rewrite member_app. cbn [parse_members]. simpl skip_ws at 1. cbv iota beta.
    rewrite Ascii.eqb_refl. rewrite parse_json_chars. cbn [mbind option_bind]. simpl skip_ws at 1. cbn -[parse_value].
    rewrite parse_value_space, parse_value_scalar by (by right). done.
  - rewrite fmap_cons. change (str_join ", " (member_text kv :: (member_text <$> kv' :: l)))
      with (member_text kv +:+ ", " +:+ str_join ", " (member_text <$> kv' :: l)).
    rewrite <- !str_app_assoc, member_app. cbn [parse_members]. simpl skip_ws at 1. cbv iota beta.
    rewrite Ascii.eqb_refl. rewrite parse_json_chars. cbn [mbind option_bind]. simpl skip_ws at 1.
    change (Ascii.eqb ":" ":") with true. cbv iota beta.
    change (", " +:+ ?x) with (String "," (String " " x)).
    rewrite parse_value_space, parse_value_scalar by (by left). cbn [mbind option_bind]. simpl skip_ws at 1.
    change (Ascii.eqb "," ",") with true. cbv iota beta.
    rewrite parse_members_space, IH by (done || lia). done.
Qed.

Lemma skip_ws_stop c r : json_ws c = false -> skip_ws (String c r) = String c r.
Proof. intros H. simpl. by rewrite H. Qed.

Lemma join_members_length l :
  (length l <= String.length (str_join ", " (member_text <$> l)))%nat.
Proof.
  assert (forall kv, 1 <= String.length (member_text kv))%nat as Hm.
  { intros kv. pose proof (member_app kv "") as E. rewrite str_app_nil_r in E. rewrite E. simpl. lia. }
  induction l as [|kv [|kv' l] IH]; [done|by apply Hm|].
  change (str_join ", " (member_text <$> kv :: kv' :: l))
    with (member_text kv +:+ ", " +:+ str_join ", " (member_text <$> kv' :: l)).
  rewrite !str_length_app. specialize (Hm kv). simpl length in *. lia.
Qed.

(** What was dumped loads back, as the sorted list of its members. *)
Lemma loads_dumps_object m : loads (dumps_object m) = Some (JObj (member_json <$> scalar_items m)).
Proof.
  unfold loads, dumps_object. rewrite str_length_app. pose proof (join_members_length (scalar_items m)) as Hlen.
  destruct (scalar_items m) as [|kv l]; [done|].
  rewrite str_length_app. set (n := String.length (str_join _ _)) in *.
  change (String.length "{") with 1%nat. replace (S (1 + (n + String.length "}")))%nat with (S (S (n + 1))) by (simpl; lia).
  change ("{" +:+ ?x) with (String "{" x). remember (S (n + 1)) as f eqn:Ef. cbn [parse_value].
  rewrite (skip_ws_stop "{") by done. cbv iota beta.
  change (Ascii.eqb "{" dquote) with false. change (Ascii.eqb "{" "{") with true. cbv iota beta.
  assert (exists r, str_join ", " (member_text <$> kv :: l) +:+ "}" = String dquote r) as [r Er].
  { destruct l as [|kv' l]; rewrite fmap_cons; [rewrite fmap_nil; cbn [str_join]; rewrite member_app; by eexists|].
    change (str_join ", " (member_text kv :: (member_text <$> kv' :: l)))
      with (member_text kv +:+ ", " +:+ str_join ", " (member_text <$> kv' :: l)).
    rewrite <- !str_app_assoc, member_app. by eexists. }
  rewrite Er, (skip_ws_stop dquote) by done. cbv iota beta. change (Ascii.eqb dquote "}") with false. cbv iota. rewrite <- Er.
  rewrite (parse_members_text f f (kv :: l) "") by (done || (simpl length in *; lia)). done.
Qed.

(** ** [int] of a decimal text *)

Lemma strip_left_none f s : str_forall (fun c => negb (f c)) s = true -> strip_left f s = s.
Proof. destruct s as [|c s]; [done|]. simpl. intros [Hc _]%andb_true_iff. apply negb_true_iff in Hc. by rewrite Hc. Qed.
Lemma strip_right_none f s : str_forall (fun c => negb (f c)) s = true -> strip_right f s = s.
Proof.
  induction s as [|c s IH]; [done|]. simpl. intros [Hc Hs]%andb_true_iff. rewrite IH by done. apply negb_true_iff in Hc.
  destruct s; [by rewrite Hc|done].
Qed.

Lemma digit_is_no_sign c : is_digit c = true -> negb (int_space c) = true /\ Ascii.eqb c "-" = false /\ Ascii.eqb c "+" = false
  /\ Ascii.eqb c "_" = false.
Proof.
  intros H. assert (forall d, is_digit d = false -> Ascii.eqb c d = false) as Hd by (intros d E; apply Ascii.eqb_neq; intros ->; congruence).
  rewrite !Hd by done. split; [|done]. unfold is_digit in H. unfold int_space. bool_inv. apply negb_true_iff.
  rewrite (proj2 (Z.leb_gt (code c) 13)), andb_false_r by lia. simpl.
  rewrite !(proj2 (Z.eqb_neq _ _)) by lia. done.
Qed.

Lemma digits_parse s b acc : str_forall is_digit s = true -> (b = true \/ s <> "") ->
  dec_digits_go b acc s = Some (dec_go acc s) /\ str_count "_" s = 0%nat /\ str_forall (fun c => negb (int_space c)) s = true.
Proof.
  revert b acc. induction s as [|c s IH]; intros b acc; simpl; [intros _ [->|]; done|]. intros [Hc Hs]%andb_true_iff _.
  destruct (digit_is_no_sign c Hc) as (H1 & _ & _ & H2). rewrite H2, Hc, H1.
  destruct (IH true (10 * acc + (code c - 48)) Hs) as (-> & -> & ->); [by left|]. done.
Qed.

Lemma int_of_text_str n : 0 <= n < 2 ^ 63 -> int_of_text (str_of_Z n) = Ok n.
Proof.
  intros Hn. pose proof (digits_str_of_Z n (proj1 Hn)) as Hd. pose proof (str_of_Z_nonempty n (proj1 Hn)) as Hne.
  pose proof (int_of_str n (proj1 Hn)) as Hi. assert (slen (str_of_Z n) <= 19) as Hl.
  { apply slen_str_of_Z; [lia|]. split; [lia|]. apply (Z.lt_le_trans _ (2 ^ 63)); [lia|]. by vm_compute. }
  destruct (str_of_Z n) as [|c s]; [done|]. unfold int_of_digits in Hi.
  destruct (digits_parse (String c s) false 0 Hd (or_intror Hne)) as (Hp & Hc & Hs).
  unfold int_of_text. rewrite strip_left_none, strip_right_none by done. simpl in Hd. apply andb_true_iff in Hd as [Hd _].
  destruct (digit_is_no_sign c Hd) as (_ & -> & -> & _). rewrite Hp, Hc, Hi. unfold slen in Hl.
  rewrite (proj2 (Nat.ltb_ge _ _)); [f_equal; lia|]. unfold max_str_digits. apply Nat2Z.inj_le.
  rewrite Nat2Z.inj_sub by lia. lia.
Qed.

(** ** Objects whose keys are distinct *)

Lemma obj_set_new k v d : k ∉ d.*1 -> obj_set k v d = d ++ [(k, v)].
Proof.
  induction d as [|[k' v'] d IH]; [done|]. csimpl. intros [Hk Hd]%not_elem_of_cons. rewrite bool_decide_false by done. by rewrite IH.
Qed.

Lemma py_dict_unique l : NoDup l.*1 -> py_dict l = l.
Proof.
  unfold py_dict. enough (forall d, NoDup (d ++ l).*1 -> fold_left (fun d kv => obj_set kv.1 kv.2 d) l d = d ++ l) as H by apply (H []).
  induction l as [|[k v] l IH]; intros d Hd; [by rewrite app_nil_r|]. cbn [fold_left fst snd].
  rewrite fmap_app in Hd. apply NoDup_app in Hd as (Hd & Hn & Hl). csimpl in *. rewrite obj_set_new.
  - rewrite IH; [by rewrite <- app_assoc|]. rewrite <- app_assoc, fmap_app. apply NoDup_app. csimpl. done.
  - intros Hk. apply (Hn k Hk). by left.
Qed.

Lemma obj_get_lookup l k : NoDup l.*1 -> obj_get k l = (list_to_map l : gmap string json) !! k.
Proof.
  induction l as [|[k' v] l IH]; [done|]. csimpl. intros [_ Hl]%NoDup_cons. cbn [obj_get]. case_bool_decide as E.
  - by rewrite E, lookup_insert_eq.
  - rewrite lookup_insert_ne by done. by apply IH.
Qed.
