(* ===== verification/JsonText.v ===== *)
(** * Compact JSON text

    [json.dumps(value, separators=(",", ":"))] on any value, and its inversion by
    [json.loads]. *)
From S2P Require Import Prelude PyString Errors Json.

(** The separators are [","] and [":"], each followed by [sp]. *)
Fixpoint dumps_with (sp : string) (v : json) : string :=
  match v with
  | JNull => "null"
  | JBool b => if b then "true" else "false"
  | JInt n => json_int n
  | JFloat text => text
  | JStr s => json_str s
  | JArr l => "[" +:+ str_join ("," +:+ sp) (dumps_with sp <$> l) +:+ "]"
  | JObj l => "{" +:+ str_join ("," +:+ sp) ((fun kv => json_str kv.1 +:+ ":" +:+ sp +:+ dumps_with sp kv.2) <$> l) +:+ "}"
  end.

(** [json.dumps(value, separators=(",", ":"))], and with the default separators. *)
Definition dumps : json -> string := dumps_with "".
Definition dumps_default : json -> string := dumps_with " ".

(** The number of nodes, which bounds the fuel [parse_value] needs. *)
Fixpoint jsize (v : json) : nat :=
  match v with
  | JArr l => S (sum_list (jsize <$> l))
  | JObj l => S (sum_list ((fun kv => jsize kv.2) <$> l))
  | _ => 1
  end.

(** No float anywhere. *)
Fixpoint exact (v : json) : bool :=
  match v with
  | JFloat _ => false
  | JArr l => forallb id (exact <$> l)
  | JObj l => forallb id ((fun kv => exact kv.2) <$> l)
  | _ => true
  end.

Lemma json_ind' (P : json -> Prop) : (forall v, (forall w, (jsize w < jsize v)%nat -> P w) -> P v) -> forall v, P v.
Proof. intros H v. induction v as [v IH] using (induction_ltof1 _ jsize). by apply H. Qed.

Lemma jsize_pos v : (1 <= jsize v)%nat.
Proof. destruct v; simpl; lia. Qed.

Lemma sum_elem {A} (f : A -> nat) x l : x ∈ l -> (f x <= sum_list (f <$> l))%nat.
Proof. induction 1; csimpl; lia. Qed.

Lemma sum_length {A} (f : A -> nat) l : (forall x, 1 <= f x)%nat -> (length l <= sum_list (f <$> l))%nat.
Proof. intros H. induction l as [|x l IH]; csimpl; [lia|]. specialize (H x). lia. Qed.

Lemma forallb_elem {A} (f : A -> bool) x l : forallb id (f <$> l) = true -> x ∈ l -> f x = true.
Proof. intros H. induction 1; csimpl in *; apply andb_true_iff in H as [? ?]; auto. Qed.

(** ** What may follow a value *)

Definition follows (t : string) : Prop :=
  match t with "" => True | String c _ => c = ","%char \/ c = "]"%char \/ c = "}"%char \/ c = chr 10 end.

Lemma str_span_end f a : str_forall f a = true -> str_span f a = (a, "").
Proof.
  induction a as [|c a IH]; [done|]. simpl. intros [Hc Ha]%andb_true_iff. by rewrite Hc, IH.
Qed.

Lemma span_follows a t : str_forall is_digit a = true -> follows t -> str_span is_digit (a +:+ t) = (a, t).
Proof.
  intros Ha Ht. destruct t as [|c t]; [rewrite str_app_nil_r; by apply str_span_end|].
  apply str_span_app; [done|]. by destruct Ht as [-> | [-> | [-> | ->]]].
Qed.

Lemma follows_no_float t : follows t -> match t with String c _ => str_mem c ".eE" | "" => false end = false.
Proof. destruct t as [|c t]; [done|]. simpl. intros Hc. by destruct Hc as [-> | [-> | [-> | ->]]]. Qed.

Lemma lead_digits k : 0 <= k ->
  match str_of_Z k with "" => false | String c r => negb (Ascii.eqb c "0") || bool_decide (r = "") end = true.
Proof.
  intros Hk. destruct (decide (k = 0)) as [->|]; [done|].
  destruct (str_of_Z_head k) as (c & r & -> & Hc); [lia|].
  destruct (Ascii.eqb_spec c "0") as [->|]; [change (code "0") with 48 in Hc; lia|done].
Qed.

Lemma parse_number_follows n t : follows t -> parse_number (json_int n +:+ t) = Some (n, t).
Proof.
  intros Ht. unfold json_int. destruct (n <? 0) eqn:En; bool_inv.
  - rewrite str_app_cons. unfold parse_number. change (Ascii.eqb "-" "-") with true. cbv iota beta.
    rewrite span_follows by (done || (apply digits_str_of_Z; lia)).
    rewrite lead_digits, (follows_no_float _ Ht), int_of_str by lia. simpl. f_equal. f_equal. lia.
  - unfold parse_number. pose proof (digits_str_of_Z n En) as Hds. pose proof (str_of_Z_nonempty n En) as Hne.
    pose proof (lead_digits n En) as Hlead. pose proof (int_of_str n En) as Hi.
    destruct (str_of_Z n) as [|c r]; [done|]. rewrite str_app_cons. simpl in Hds.
    apply andb_true_iff in Hds as Hds'. destruct Hds' as [Hc _].
    destruct (digit_head_cases c Hc) as (_ & _ & _ & _ & _ & _ & _ & ->). cbv iota beta.
    rewrite <- str_app_cons, span_follows by done. rewrite Hlead, (follows_no_float _ Ht). simpl. by rewrite Hi.
Qed.

Lemma parse_value_int' fuel n t : follows t -> parse_value (S fuel) (json_int n +:+ t) = Some (JInt n, t).
Proof.
  intros Ht. pose proof (parse_number_follows n t Ht) as Hn. destruct (json_int_head n) as (c & r & Ec & Hc).
  rewrite Ec, str_app_cons in Hn |- *. cbn [parse_value]. apply orb_true_iff in Hc as [Hc|Hc].
  - destruct (digit_head_cases c Hc) as (E1 & E2 & E3 & E4 & E5 & E6 & E7 & _). simpl skip_ws.
    rewrite E1, E2, E3, E4, E5, E6, E7. by rewrite Hn.
  - apply Ascii.eqb_eq in Hc as ->. simpl skip_ws. cbn -[parse_number]. by rewrite Hn.
Qed.

(** ** Values start with no blank *)

Section Text.
Context (sp : string) (Hsp : sp = "" \/ sp = " ").
Abbreviation dumps := (dumps_with sp).

Definition member (kv : string * json) : string := json_str kv.1 +:+ ":" +:+ sp +:+ dumps kv.2.

Definition solid (s : string) : Prop :=
  match s with "" => False | String c _ => json_ws c = false /\ c <> "]"%char /\ c <> "}"%char end.

Lemma solid_skip s t : solid s -> skip_ws (s +:+ t) = s +:+ t.
Proof. destruct s as [|c s]; [done|]. intros (H & _). simpl. by rewrite H. Qed.

Lemma dumps_solid v : exact v = true -> solid (dumps v).
Proof.
  destruct v as [|b|n|x|s|l|l]; try done; [by destruct b| |done..].
  intros _. simpl. destruct (json_int_head n) as (c & r & -> & Hc). apply orb_true_iff in Hc as [Hc|Hc].
  - destruct (digit_head_cases c Hc) as (E & _). split; [done|]. split; intros ->; discriminate.
  - apply Ascii.eqb_eq in Hc as ->. done.
Qed.

Lemma str_join_cons sep x y (l : list string) : str_join sep (x :: y :: l) = x +:+ sep +:+ str_join sep (y :: l).
Proof. done. Qed.

(** ** Containers

    [value] reads each of the items, whatever follows them. *)
Section Read.
Context (value : string -> option (json * string)) (Hvalue : forall s, value (String " " s) = value s).

Lemma value_sp s : value (sp +:+ s) = value s.
Proof. destruct Hsp as [-> | ->]; [done|apply Hvalue]. Qed.
Lemma elements_sp fuel s : parse_elements value fuel (sp +:+ s) = parse_elements value fuel s.
Proof. destruct Hsp as [-> | ->]; [done|]. destruct fuel; [done|]. cbn [parse_elements].
  change (" " +:+ s) with (String " " s). by rewrite Hvalue.
Qed.
Lemma members_sp fuel s : parse_members value fuel (sp +:+ s) = parse_members value fuel s.
Proof. destruct Hsp as [-> | ->]; [done|]. apply parse_members_space. Qed.

Definition reads_back (v : json) : Prop := forall t, follows t -> value (dumps v +:+ t) = Some (v, t).

Lemma parse_elements_dumps l fuel t : l <> [] -> (length l <= fuel)%nat -> (forall v, v ∈ l -> reads_back v) ->
  parse_elements value fuel (str_join ("," +:+ sp) (dumps <$> l) +:+ String "]" t) = Some (l, t).
Proof.
  intros Hl. revert fuel. induction l as [|v l IH]; [done|]. intros [|fuel] Hf Hv; simpl in Hf; [lia|].
  assert (reads_back v) as Hr by (apply Hv; by left). destruct l as [|w l].
  - simpl fmap. cbn [str_join parse_elements]. rewrite Hr by (simpl; auto). done.
  - rewrite !fmap_cons, str_join_cons, <- fmap_cons, <- !str_app_assoc. cbn [parse_elements].
    change ("," +:+ ?x) with (String "," x). rewrite Hr by (simpl; auto). cbn [mbind option_bind]. rewrite skip_ws_stop by done.
    change (Ascii.eqb "," ",") with true. cbv iota. rewrite elements_sp, IH; [done|done|simpl in *; lia|]. intros x Hx. apply Hv. by right.
Qed.

Lemma parse_members_dumps l fuel t : l <> [] -> (length l <= fuel)%nat -> (forall kv, kv ∈ l -> reads_back kv.2) ->
  parse_members value fuel (str_join ("," +:+ sp) (member <$> l) +:+ String "}" t) = Some (l, t).
Proof.
  intros Hl. revert fuel. induction l as [|[k v] l IH]; [done|]. intros [|fuel] Hf Hv; simpl in Hf; [lia|].
  assert (reads_back v) as Hr by (apply (Hv (k, v)); by left).
  assert (forall u, member (k, v) +:+ u = String dquote (json_chars k +:+ String dquote (String ":" (sp +:+ dumps v +:+ u)))) as Hm.
  { intros u. unfold member. cbn [fst snd]. rewrite <- !str_app_assoc, json_str_app. done. }
  destruct l as [|w l].
  - simpl fmap. cbn [str_join parse_members]. rewrite Hm, skip_ws_stop by done. rewrite Ascii.eqb_refl, parse_json_chars.
    cbn [mbind option_bind]. rewrite skip_ws_stop by done. change (Ascii.eqb ":" ":") with true. cbv iota.
    rewrite value_sp, Hr by (simpl; auto). done.
  - rewrite !fmap_cons, str_join_cons, <- fmap_cons, <- !str_app_assoc. cbn [parse_members].
    rewrite Hm, skip_ws_stop by done. rewrite Ascii.eqb_refl, parse_json_chars. cbn [mbind option_bind].
    rewrite skip_ws_stop by done. change (Ascii.eqb ":" ":") with true. cbv iota.
    change ("," +:+ ?x) with (String "," x). rewrite value_sp, Hr by (simpl; auto). cbn [mbind option_bind]. rewrite skip_ws_stop by done.
    change (Ascii.eqb "," ",") with true. cbv iota. rewrite members_sp, IH; [done|done|simpl in *; lia|]. intros x Hx. apply Hv. by right.
Qed.
End Read.

Lemma join_solid x l t : solid x -> exists c r, str_join ("," +:+ sp) (x :: l) +:+ t = String c r /\ json_ws c = false /\ c <> "]"%char /\ c <> "}"%char.
Proof.
  intros Hx. destruct x as [|c x]; [done|]. destruct l as [|y l].
  - by eexists _, _.
  - rewrite str_join_cons, <- !str_app_assoc. by eexists _, _.
Qed.

Lemma parse_value_dumps v : exact v = true -> forall fuel, (jsize v <= fuel)%nat -> reads_back (parse_value fuel) v.
Proof.
  induction v as [v IH] using json_ind'. intros He fuel Hf t Ht.
  pose proof (jsize_pos v). destruct fuel as [|fuel]; [lia|].
  destruct v as [|b|n|x|s|l|l]; [by destruct t|by destruct b, t|by apply parse_value_int'|done|by apply parse_value_str| |]; simpl in He, Hf.
  - change (dumps (JArr l) +:+ t) with (String "[" ((str_join ("," +:+ sp) (dumps <$> l) +:+ "]") +:+ t)).
    rewrite <- str_app_assoc. change ("]" +:+ t) with (String "]" t). cbn [parse_value]. rewrite skip_ws_stop by done.
    destruct l as [|v l]; [done|]. change (Ascii.eqb "[" dquote) with false. change (Ascii.eqb "[" "{") with false.
    change (Ascii.eqb "[" "[") with true. cbv iota.
    destruct (join_solid (dumps v) (dumps <$> l) (String "]" t)) as (c & r & E & Hc & Hc1 & _);
      [apply dumps_solid; by apply (forallb_elem exact v (v :: l)); [|left]|].
    rewrite fmap_cons in *. rewrite E, skip_ws_stop by done. rewrite (proj2 (Ascii.eqb_neq c "]")) by done. rewrite <- E, <- fmap_cons.
    rewrite (parse_elements_dumps (parse_value fuel) (parse_value_space fuel)); [done|done| |].
    + pose proof (sum_length jsize (v :: l) jsize_pos). lia.
    + intros w Hw. pose proof (sum_elem jsize w (v :: l) Hw). apply IH; [simpl in *; lia|by apply (forallb_elem exact w (v :: l))|lia].
  - change (dumps (JObj l) +:+ t) with (String "{" ((str_join ("," +:+ sp) (member <$> l) +:+ "}") +:+ t)).
    rewrite <- str_app_assoc. change ("}" +:+ t) with (String "}" t). cbn [parse_value]. rewrite skip_ws_stop by done.
    destruct l as [|kv l]; [done|]. change (Ascii.eqb "{" dquote) with false.
    change (Ascii.eqb "{" "{") with true. cbv iota.
    destruct (join_solid (member kv) (member <$> l) (String "}" t)) as (c & r & E & Hc & _ & Hc1); [done|].
    rewrite fmap_cons in *. rewrite E, skip_ws_stop by done. rewrite (proj2 (Ascii.eqb_neq c "}")) by done. rewrite <- E, <- fmap_cons.
    rewrite (parse_members_dumps (parse_value fuel) (parse_value_space fuel)); [done|done| |].
    + pose proof (sum_length (fun kv : string * json => jsize kv.2) (kv :: l) (fun kv => jsize_pos _)). lia.
    + intros w Hw. pose proof (sum_elem (fun kv : string * json => jsize kv.2) w (kv :: l) Hw).
      apply IH; [simpl in *; lia|by apply (forallb_elem (fun kv : string * json => exact kv.2) w (kv :: l))|lia].
Qed.

(** ** The text is at least as long as the value has nodes *)

Lemma join_length {A} (f : A -> string) (g : A -> nat) l : (forall x, x ∈ l -> g x <= String.length (f x))%nat ->
  (sum_list (g <$> l) <= String.length (str_join ("," +:+ sp) (f <$> l)))%nat.
Proof.
  induction l as [|x l IH]; intros H; [done|]. assert (g x <= String.length (f x))%nat by (apply H; by left).
  destruct l as [|y l]; [simpl; lia|]. rewrite !fmap_cons, str_join_cons, !str_length_app, <- fmap_cons.
  simpl sum_list. rewrite <- fmap_cons. assert (sum_list (g <$> y :: l) <= String.length (str_join ("," +:+ sp) (f <$> y :: l)))%nat as HI
    by (apply IH; intros z Hz; apply H; by right). simpl in HI |- *. lia.
Qed.

Lemma dumps_length v : exact v = true -> (jsize v <= String.length (dumps v))%nat.
Proof.
  induction v as [v IH] using json_ind'. intros He.
  destruct v as [|b|n|x|s|l|l]; [simpl; lia|destruct b; simpl; lia| |done|unfold json_str; simpl; lia| |].
  - simpl. destruct (json_int_head n) as (c & r & -> & _). simpl. lia.
  - simpl jsize. change (dumps (JArr l)) with (String "[" (str_join ("," +:+ sp) (dumps <$> l) +:+ "]")). simpl String.length.
    rewrite str_length_app. assert (sum_list (jsize <$> l) <= String.length (str_join ("," +:+ sp) (dumps <$> l)))%nat; [|lia].
    apply join_length. intros x Hx. pose proof (sum_elem jsize x l Hx).
    apply IH; [simpl; lia|by apply (forallb_elem exact x l)].
  - simpl jsize. change (dumps (JObj l)) with (String "{" (str_join ("," +:+ sp) (member <$> l) +:+ "}")). simpl String.length.
    rewrite str_length_app. assert (sum_list ((fun kv => jsize kv.2) <$> l) <= String.length (str_join ("," +:+ sp) (member <$> l)))%nat; [|lia].
    apply join_length. intros kv Hx. pose proof (sum_elem (fun kv : string * json => jsize kv.2) kv l Hx).
    assert (jsize kv.2 <= String.length (dumps kv.2))%nat
      by (apply IH; [simpl; lia|by apply (forallb_elem (fun kv : string * json => exact kv.2) kv l)]).
    unfold member. rewrite !str_length_app. lia.
Qed.

Lemma loads_dumps_with v : exact v = true -> loads (dumps v) = Some v.
Proof.
  intros He. unfold loads. pose proof (parse_value_dumps v He (S (String.length (dumps v)))) as Hp.
  rewrite <- (str_app_nil_r (dumps v)) at 2. rewrite Hp; [done| |done]. pose proof (dumps_length v He). lia.
Qed.
End Text.

(** What [json.dumps] writes, [json.loads] reads back. *)
Lemma loads_dumps v : exact v = true -> loads (dumps v) = Some v.
Proof. apply loads_dumps_with. by left. Qed.
Lemma loads_dumps_default v : exact v = true -> loads (dumps_default v) = Some v.
Proof. apply loads_dumps_with. by right. Qed.

(** ** Indented text with sorted keys *)

(** [json.dumps(value, indent=2, sort_keys=True)] at a depth. *)
Definition newline : string := String (chr 10) "".
Fixpoint dumps_indent (pad : string) (v : json) : string :=
  let inner := pad +:+ "  " in
  match v with
  | JArr [] => "[]"
  | JArr l => "[" +:+ newline +:+ inner +:+ str_join ("," +:+ newline +:+ inner) (dumps_indent inner <$> l) +:+ newline +:+ pad +:+ "]"
  | JObj [] => "{}"
  | JObj l =>
      "{" +:+ newline +:+ inner
      +:+ str_join ("," +:+ newline +:+ inner)
            (snd <$> merge_sort (fun a b : string * string => String.le a.1 b.1)
               ((fun kv => (kv.1, json_str kv.1 +:+ ": " +:+ dumps_indent inner kv.2)) <$> l))
      +:+ newline +:+ pad +:+ "}"
  | v => dumps_default v
  end.

(** What [sort_keys] makes of a value. *)
Definition key_le (a b : string * json) : Prop := String.le a.1 b.1.
Fixpoint sort_keys (v : json) : json :=
  match v with
  | JArr l => JArr (sort_keys <$> l)
  | JObj l => JObj (merge_sort key_le ((fun kv => (kv.1, sort_keys kv.2)) <$> l))
  | v => v
  end.

(** Sorting the images of a list is sorting the list, where the order looks through the images. *)
Section SortImages.
Context {A B : Type} (R : relation A) (R' : relation B) `{!forall x y, Decision (R x y)} `{!forall x y, Decision (R' x y)}.
Context (f : A -> B) (Hf : forall x y, R' (f x) (f y) <-> R x y).

Lemma list_merge_images l1 l2 : list_merge R' (f <$> l1) (f <$> l2) = f <$> list_merge R l1 l2.
Proof.
  revert l2. induction l1 as [|x l1 IH1]; intros l2; [by destruct l2|]. induction l2 as [|y l2 IH2]; [done|].
  rewrite !fmap_cons, !list_merge_cons. rewrite (decide_ext (R' (f x) (f y)) (R x y)) by apply Hf.
  destruct (decide (R x y)).
  - rewrite fmap_cons. f_equal. apply (IH1 (y :: l2)).
  - rewrite fmap_cons. f_equal. exact IH2.
Qed.
Lemma merge_to_stack_images (st : list (option (list A))) l :
  merge_list_to_stack R' (fmap (M:=option) (fmap (M:=list) f) <$> st) (f <$> l) = fmap (M:=option) (fmap (M:=list) f) <$> merge_list_to_stack R st l.
Proof.
  revert l. induction st as [|[l'|] st IH]; intros l; [done| |done]. cbn [fmap list_fmap merge_list_to_stack option_fmap option_map].
  f_equal. rewrite <- IH. f_equal. apply list_merge_images.
Qed.
Lemma merge_stack_images (st : list (option (list A))) :
  merge_stack R' (fmap (M:=option) (fmap (M:=list) f) <$> st) = f <$> merge_stack R st.
Proof.
  induction st as [|[l|] st IH]; [done| |done]. cbn [fmap list_fmap merge_stack option_fmap option_map].
  change (list_merge R' (f <$> l) (merge_stack R' (fmap (M:=option) (fmap (M:=list) f) <$> st)) = f <$> list_merge R l (merge_stack R st)).
  rewrite IH. apply list_merge_images.
Qed.
Lemma merge_sort_images l : merge_sort R' (f <$> l) = f <$> merge_sort R l.
Proof.
  unfold merge_sort. change (@nil (option (list B))) with (fmap (M:=option) (fmap (M:=list) f) <$> @nil (option (list A))).
  generalize (@nil (option (list A))). induction l as [|x l IH]; intros st; [apply merge_stack_images|].
  cbn [fmap list_fmap merge_sort_aux]. rewrite <- IH. f_equal. apply (merge_to_stack_images st [x]).
Qed.
End SortImages.

(** Blanks before a value, and between the parts of a container, are skipped. *)
Definition blank (w : string) : Prop := str_forall json_ws w = true.

Lemma skip_blank w s : blank w -> skip_ws (w +:+ s) = skip_ws s.
Proof.
  unfold blank. induction w as [|c w IH]; [done|]. cbn [str_forall]. intros [Hc Hw]%andb_true_iff. rewrite str_app_cons. simpl skip_ws at 1. rewrite Hc. by apply IH.
Qed.
Lemma value_blank fuel w s : blank w -> parse_value fuel (w +:+ s) = parse_value fuel s.
Proof. intros Hw. destruct fuel as [|fuel]; [done|]. cbn [parse_value]. by rewrite skip_blank. Qed.
Lemma members_blank f fuel w s : blank w -> parse_members f fuel (w +:+ s) = parse_members f fuel s.
Proof. intros Hw. destruct fuel as [|fuel]; [done|]. cbn [parse_members]. by rewrite skip_blank. Qed.
Lemma blank_app w w' : blank w -> blank w' -> blank (w +:+ w').
Proof. unfold blank. intros Hw Hw'. by rewrite str_forall_app, Hw, Hw'. Qed.

(** [inner] before every item, [outer] before the closing bracket. *)
Section Indented.
Context (fuel : nat) (inner outer : string) (Hinner : blank inner) (Houter : blank outer).
Abbreviation value := (parse_value fuel).
Abbreviation sep := ("," +:+ newline +:+ inner).

(** A text that is read as a value, whatever follows it. *)
Definition reads (x : string * json) : Prop := forall t, follows t -> value (x.1 +:+ t) = Some (x.2, t).

Lemma newline_inner : blank (newline +:+ inner).
Proof. by apply blank_app. Qed.

Lemma elements_indented (l : list (string * json)) n t : l <> [] -> (length l <= n)%nat -> Forall reads l ->
  parse_elements value n (str_join sep l.*1 +:+ newline +:+ outer +:+ String "]" t) = Some (l.*2, t).
Proof.
  intros Hl. revert n. induction l as [|x l IH]; [done|]. intros [|n] Hn Hr; simpl in Hn; [lia|]. apply Forall_cons in Hr as [Hx Hr].
  destruct l as [|y l].
  - cbn [fmap list_fmap str_join parse_elements]. rewrite Hx by (right; right; right; reflexivity). cbn [mbind option_bind].
    rewrite (str_app_assoc newline), skip_blank by by apply blank_app. done.
  - rewrite fmap_cons, fmap_cons, str_join_cons, <- fmap_cons, <- !str_app_assoc. cbn [parse_elements].
    change ("," +:+ ?r) with (String "," r). rewrite Hx by (left; reflexivity). cbn [mbind option_bind]. rewrite skip_ws_stop by done.
    change (Ascii.eqb "," ",") with true. cbv iota. destruct n as [|n]; [simpl in Hn; lia|].
    rewrite (str_app_assoc newline inner). assert (forall u, parse_elements value (S n) ((newline +:+ inner) +:+ u) = parse_elements value (S n) u) as ->
      by (intros u; cbn [parse_elements]; by rewrite (value_blank fuel (newline +:+ inner)) by apply newline_inner).
    rewrite IH; [done|done|simpl in *; lia|done].
Qed.

Definition member_at (x : string * (string * json)) : string := json_str x.1 +:+ ": " +:+ x.2.1.

Lemma members_indented (l : list (string * (string * json))) n t : l <> [] -> (length l <= n)%nat -> Forall (fun x => reads x.2) l ->
  parse_members value n (str_join sep (member_at <$> l) +:+ newline +:+ outer +:+ String "}" t) = Some ((fun x => (x.1, x.2.2)) <$> l, t).
Proof.
  intros Hl. revert n. induction l as [|[k x] l IH]; [done|]. intros [|n] Hn Hr; simpl in Hn; [lia|]. apply Forall_cons in Hr as [Hx Hr]. cbn [snd] in Hx.
  assert (forall u, member_at (k, x) +:+ u = String dquote (json_chars k +:+ String dquote (String ":" (" " +:+ x.1 +:+ u)))) as Hm.
  { intros u. unfold member_at. cbn [fst snd]. rewrite <- !str_app_assoc, json_str_app. done. }
  destruct l as [|y l].
  - cbn [fmap list_fmap str_join parse_members]. rewrite Hm, skip_ws_stop by done. rewrite Ascii.eqb_refl, parse_json_chars.
    cbn [mbind option_bind]. rewrite skip_ws_stop by done. change (Ascii.eqb ":" ":") with true. cbv iota.
    rewrite value_blank, Hx by (done || (right; right; right; reflexivity)). cbn [mbind option_bind].
    rewrite (str_app_assoc newline), skip_blank by by apply blank_app. done.
  - rewrite fmap_cons, fmap_cons, str_join_cons, <- fmap_cons, <- !str_app_assoc. cbn [parse_members].
    rewrite Hm, skip_ws_stop by done. rewrite Ascii.eqb_refl, parse_json_chars. cbn [mbind option_bind].
    rewrite skip_ws_stop by done. change (Ascii.eqb ":" ":") with true. cbv iota.
    change ("," +:+ ?r) with (String "," r). rewrite value_blank, Hx by (done || (left; reflexivity)). cbn [mbind option_bind]. rewrite skip_ws_stop by done.
    change (Ascii.eqb "," ",") with true. cbv iota. rewrite (str_app_assoc newline inner), members_blank by apply newline_inner.
    rewrite IH; [done|done|simpl in *; lia|done].
Qed.
End Indented.

(** A text of an indented value starts with no blank and no closing bracket. *)
Lemma indent_solid pad v : exact v = true -> solid (dumps_indent pad v).
Proof. intros He. destruct v as [|b|n|x|s|[|]|[|]]; try done; by apply (dumps_solid " "). Qed.

(** The members of an indented object in the order of their keys, each with its text and what it is read back as. *)
Definition indent_member (inner : string) (kv : string * json) : string * (string * json) := (kv.1, (dumps_indent inner kv.2, sort_keys kv.2)).
Definition member_le (a b : string * (string * json)) : Prop := String.le a.1 b.1.
Definition indent_members (inner : string) (l : list (string * json)) : list (string * (string * json)) :=
  merge_sort member_le (indent_member inner <$> l).

Lemma indent_members_text inner l :
  snd <$> merge_sort (fun a b : string * string => String.le a.1 b.1) ((fun kv => (kv.1, json_str kv.1 +:+ ": " +:+ dumps_indent inner kv.2)) <$> l)
  = member_at <$> indent_members inner l.
Proof.
  unfold indent_members. set (f := fun x : string * (string * json) => (x.1, member_at x)).
  transitivity (snd <$> (f <$> merge_sort member_le (indent_member inner <$> l))); [|by rewrite <- list_fmap_compose].
  f_equal. rewrite <- (merge_sort_images member_le (fun a b : string * string => String.le a.1 b.1) f) by done.
  f_equal. by rewrite <- list_fmap_compose.
Qed.
Lemma indent_members_value inner l : merge_sort key_le ((fun kv => (kv.1, sort_keys kv.2)) <$> l) = (fun x => (x.1, x.2.2)) <$> indent_members inner l.
Proof.
  unfold indent_members. set (f := fun x : string * (string * json) => (x.1, x.2.2)).
  rewrite <- (merge_sort_images member_le key_le f) by done. f_equal. by rewrite <- list_fmap_compose.
Qed.
Lemma elem_of_indent inner l x : x ∈ indent_members inner l -> exists kv, kv ∈ l /\ x = indent_member inner kv.
Proof. unfold indent_members. rewrite merge_sort_Permutation, list_elem_of_fmap. intros (kv & -> & Hkv). by exists kv. Qed.
Lemma indent_members_size inner l : length (indent_members inner l) = length l.
Proof. unfold indent_members. by rewrite merge_sort_Permutation, length_fmap. Qed.

Lemma array_indented fuel inner pad (x : string * json) ps t : blank inner -> blank pad -> (length (x :: ps) <= fuel)%nat -> solid x.1 ->
  Forall (reads fuel) (x :: ps) ->
  parse_value (S fuel) (("[" +:+ newline +:+ inner +:+ str_join ("," +:+ newline +:+ inner) (x :: ps).*1 +:+ newline +:+ pad +:+ "]") +:+ t)
  = Some (JArr (x :: ps).*2, t).
Proof.
  intros Hi Hp Hn Hx Hr. rewrite <- !str_app_assoc. change ("]" +:+ t) with (String "]" t). change ("[" +:+ ?r) with (String "[" r).
  cbn [parse_value]. rewrite (skip_ws_stop "[") by done.
  change (Ascii.eqb "[" dquote) with false. change (Ascii.eqb "[" "{") with false. change (Ascii.eqb "[" "[") with true. cbv iota.
  rewrite (str_app_assoc newline inner). assert (blank (newline +:+ inner)) as Hb by by apply blank_app. rewrite skip_blank by done.
  assert (exists c r, str_join ("," +:+ newline +:+ inner) (x :: ps).*1 +:+ newline +:+ pad +:+ String "]" t = String c r /\ json_ws c = false /\ c <> "]"%char) as (c & r & E & Hc & Hc').
  { cbn [fmap list_fmap]. destruct x as [[|c x] v]; [done|]. destruct Hx as (? & ? & _). destruct ps as [|y ps]; cbn [fmap list_fmap]; [by eexists _, _|].
    rewrite str_join_cons, <- str_app_assoc. by eexists _, _. }
  rewrite E, skip_ws_stop by done. rewrite (proj2 (Ascii.eqb_neq c "]")) by done. rewrite <- E.
  assert (forall u, parse_elements (parse_value fuel) fuel ((newline +:+ inner) +:+ u) = parse_elements (parse_value fuel) fuel u) as ->
    by (intros u; destruct fuel; [done|]; cbn [parse_elements]; by rewrite value_blank).
  by rewrite elements_indented.
Qed.

Lemma object_indented fuel inner pad (x : string * (string * json)) ps t : blank inner -> blank pad -> (length (x :: ps) <= fuel)%nat ->
  Forall (fun x => reads fuel x.2) (x :: ps) ->
  parse_value (S fuel) (("{" +:+ newline +:+ inner +:+ str_join ("," +:+ newline +:+ inner) (member_at <$> x :: ps) +:+ newline +:+ pad +:+ "}") +:+ t)
  = Some (JObj ((fun x => (x.1, x.2.2)) <$> x :: ps), t).
Proof.
  intros Hi Hp Hn Hr. rewrite <- !str_app_assoc. change ("}" +:+ t) with (String "}" t). change ("{" +:+ ?r) with (String "{" r).
  cbn [parse_value]. rewrite (skip_ws_stop "{") by done.
  change (Ascii.eqb "{" dquote) with false. change (Ascii.eqb "{" "{") with true. cbv iota.
  rewrite (str_app_assoc newline inner). assert (blank (newline +:+ inner)) as Hb by by apply blank_app. rewrite skip_blank by done.
  assert (exists r, str_join ("," +:+ newline +:+ inner) (member_at <$> x :: ps) +:+ newline +:+ pad +:+ String "}" t = String dquote r) as (r & E).
  { destruct ps as [|y ps]; cbn [fmap list_fmap]; [by eexists|]. rewrite str_join_cons, <- str_app_assoc. by eexists. }
  rewrite E, skip_ws_stop by done. change (Ascii.eqb dquote "}") with false. cbv iota. rewrite <- E.
  rewrite members_blank by done. by rewrite members_indented.
Qed.

Lemma parse_value_indent v : exact v = true -> forall pad fuel, blank pad -> (jsize v <= fuel)%nat -> reads fuel (dumps_indent pad v, sort_keys v).
Proof.
  induction v as [v IH] using json_ind'. intros He pad fuel Hpad Hf t Ht. cbn [fst snd]. pose proof (jsize_pos v). destruct fuel as [|fuel]; [lia|].
  assert (blank (pad +:+ "  ")) as Hin by by apply blank_app.
  destruct v as [|b|n|x|s|[|v l]|[|kv l]]; [by destruct t|by destruct b, t|by apply parse_value_int'|done|by apply parse_value_str|done| |done|].
  - cbn [dumps_indent sort_keys]. set (inner := pad +:+ "  ") in *. clearbody inner.
    set (f := fun w => (dumps_indent inner w, sort_keys w)).
    assert (dumps_indent inner <$> v :: l = (f <$> v :: l).*1) as -> by by rewrite <- list_fmap_compose.
    assert (sort_keys <$> v :: l = (f <$> v :: l).*2) as -> by by rewrite <- list_fmap_compose.
    simpl in He, Hf. change (f <$> v :: l) with (f v :: (f <$> l)). apply (array_indented fuel inner pad (f v) (f <$> l)); [done|done| | |].
    + pose proof (sum_length jsize (v :: l) jsize_pos). rewrite <- fmap_cons, length_fmap. simpl in *. lia.
    + apply indent_solid. by apply (forallb_elem exact v (v :: l)); [|left].
    + rewrite <- fmap_cons. apply Forall_fmap, Forall_forall. intros w Hw. pose proof (sum_elem jsize w (v :: l) Hw). unfold f, compose.
      apply IH; [simpl in *; lia|by apply (forallb_elem exact w (v :: l))|done|simpl in *; lia].
  - cbn [dumps_indent sort_keys]. set (inner := pad +:+ "  ") in *. clearbody inner.
    rewrite indent_members_text, (indent_members_value inner). pose proof (indent_members_size inner (kv :: l)) as Hlen.
    assert (Forall (fun x => reads fuel x.2) (indent_members inner (kv :: l))) as Hall.
    { apply Forall_forall. intros x Hx. apply elem_of_indent in Hx as (w & Hw & ->). pose proof (sum_elem (fun kv : string * json => jsize kv.2) w (kv :: l) Hw).
      simpl in He. apply IH; [simpl in *; lia|by apply (forallb_elem (fun kv : string * json => exact kv.2) w (kv :: l))|done|simpl in *; lia]. }
    pose proof (sum_length (fun kv : string * json => jsize kv.2) (kv :: l) (fun kv => jsize_pos _)).
    destruct (indent_members inner (kv :: l)) as [|x ps]; [done|]. apply object_indented; [done|done| |done]. rewrite Hlen. simpl in *. lia.
Qed.

(** The indented text has a character for every node at least. *)
Lemma join_size {A} (sep : string) (f : A -> string) (g : A -> nat) l : (forall x, x ∈ l -> g x <= String.length (f x))%nat ->
  (sum_list (g <$> l) <= String.length (str_join sep (f <$> l)))%nat.
Proof.
  induction l as [|x l IH]; intros H; [done|]. assert (g x <= String.length (f x))%nat by (apply H; by left).
  destruct l as [|y l]; [simpl; lia|]. rewrite !fmap_cons, str_join_cons, !str_length_app, <- fmap_cons.
  simpl sum_list. rewrite <- fmap_cons. assert (sum_list (g <$> y :: l) <= String.length (str_join sep (f <$> y :: l)))%nat as HI
    by (apply IH; intros z Hz; apply H; by right). simpl in HI |- *. lia.
Qed.

Lemma sum_le {A} (f g : A -> nat) l : (forall x, x ∈ l -> f x <= g x)%nat -> (sum_list (f <$> l) <= sum_list (g <$> l))%nat.
Proof.
  induction l as [|x l IH]; intros H; [done|]. csimpl. assert (f x <= g x)%nat by (apply H; by left).
  assert (sum_list (f <$> l) <= sum_list (g <$> l))%nat by (apply IH; intros y Hy; apply H; by right). lia.
Qed.

Lemma indent_length v : exact v = true -> forall pad, (jsize v <= String.length (dumps_indent pad v))%nat.
Proof.
  induction v as [v IH] using json_ind'. intros He pad. destruct v as [|b|n|x|s|[|v l]|[|kv l]]; try (by apply (dumps_length " ")).
  - cbn [dumps_indent]. set (inner := pad +:+ "  "). rewrite !str_length_app. change (jsize (JArr (v :: l))) with (S (sum_list (jsize <$> v :: l))).
    assert (sum_list (jsize <$> v :: l) <= String.length (str_join ("," +:+ newline +:+ inner) (dumps_indent inner <$> v :: l)))%nat as Hj; [|cbn [String.length]; lia].
    apply join_size. intros w Hw. pose proof (sum_elem jsize w (v :: l) Hw). simpl in He.
    apply IH; [simpl in *; lia|by apply (forallb_elem exact w (v :: l))].
  - cbn [dumps_indent]. set (inner := pad +:+ "  "). rewrite indent_members_text, !str_length_app. change (jsize (JObj (kv :: l))) with (S (sum_list ((fun kv => jsize kv.2) <$> kv :: l))).
    assert (sum_list ((fun x : string * (string * json) => String.length x.2.1) <$> indent_members inner (kv :: l))
      <= String.length (str_join ("," +:+ newline +:+ inner) (member_at <$> indent_members inner (kv :: l))))%nat as Hj.
    { apply join_size. intros x _. unfold member_at. rewrite !str_length_app. lia. }
    assert (sum_list ((fun kv => jsize kv.2) <$> kv :: l)
      <= sum_list ((fun x : string * (string * json) => String.length x.2.1) <$> indent_members inner (kv :: l)))%nat; [|cbn [String.length]; lia].
    unfold indent_members. rewrite merge_sort_Permutation, <- list_fmap_compose. apply sum_le. intros w Hw.
    pose proof (sum_elem (fun kv : string * json => jsize kv.2) w (kv :: l) Hw). simpl in He.
    apply IH; [simpl in *; lia|by apply (forallb_elem (fun kv : string * json => exact kv.2) w (kv :: l))].
Qed.

(** What [json.dumps] writes with an indentation and sorted keys, [json.loads] reads back, its keys sorted. *)
Lemma loads_dumps_indent v : exact v = true -> loads (dumps_indent "" v) = Some (sort_keys v).
Proof.
  intros He. unfold loads. pose proof (indent_length v He "").
  pose proof (parse_value_indent v He "" (S (String.length (dumps_indent "" v))) eq_refl ltac:(lia) "" I) as Hp. cbn [fst snd] in Hp.
  rewrite str_app_nil_r in Hp. by rewrite Hp.
Qed.
