(* ===== verification/V1Response.v ===== *)
(** * Legacy lines (host/src/cs71_protocol/parsing.py)

    The classification of the lines of a v1 controller. [json.loads] is a parameter, [None] standing for
    [JSONDecodeError]. *)
From S2P Require Import Prelude PyString Json.

Inductive V1ResponseKind := READY | OK | PING | DONE | STOPPED | WAITING | ERROR | CONFIG | UNKNOWN.

#[export] Instance V1ResponseKind_eq_dec : EqDecision V1ResponseKind.
Proof. solve_decision. Defined.

(** [V1ResponseKind.value] *)
Definition v1_kind_value (k : V1ResponseKind) : string :=
  match k with
  | READY => "ready" | OK => "ok" | PING => "ping" | DONE => "done" | STOPPED => "stopped"
  | WAITING => "waiting" | ERROR => "error" | CONFIG => "config" | UNKNOWN => "unknown"
  end.

(** The dict [exact]. *)
Definition exact_lines : list (string * V1ResponseKind) :=
  [("Ready", READY); ("ok", OK); (" ok", PING); ("done", DONE); ("stopped", STOPPED); ("waiting for brass", WAITING)].

Definition exact_line (line : string) : option V1ResponseKind :=
  snd <$> (snd <$> list_find (fun kv => kv.1 = line) exact_lines).

Definition str_last_is (c : ascii) (s : string) : bool := match str_last s with Some d => Ascii.eqb c d | None => false end.

Definition classify_v1_response (json_loads : string -> option json) (line : string) : V1ResponseKind :=
  match exact_line line with
  | Some k => k
  | None =>
      if startswith line "error:" then ERROR
      else if startswith line "{" && str_last_is "}" line
      then match json_loads line with Some (JObj _) => CONFIG | _ => UNKNOWN end
      else UNKNOWN
  end.

Lemma exact_line_spec line k : exact_line line = Some k <-> (line, k) ∈ exact_lines.
Proof.
  unfold exact_line. split.
  - destruct (list_find _ _) as [[i [l k']]|] eqn:E; [|done]. apply list_find_Some in E as (Hi & <- & _). cbn. intros [= <-]. by eapply list_elem_of_lookup_2.
  - intros Hin. unfold exact_lines in Hin. repeat (apply elem_of_cons in Hin as [Hin|Hin]; [injection Hin as -> ->; vm_compute; reflexivity|]).
    by apply not_elem_of_nil in Hin.
Qed.

(** Each of the six literal lines has its own kind and nothing else has it, the leading blank of a [ping] answer counting;
    an error is every other line that starts with [error:]; a configuration is a line in braces that is a JSON
    object. *)
Theorem classify_v1_exact (json_loads : string -> option json) (line : string) (k : V1ResponseKind) :
  classify_v1_response json_loads line = k <->
  match k with
  | ERROR => startswith line "error:" = true
  | CONFIG => startswith line "{" = true /\ str_last_is "}" line = true /\ exists l, json_loads line = Some (JObj l)
  | UNKNOWN => exact_line line = None /\ startswith line "error:" = false
      /\ (startswith line "{" = true -> str_last_is "}" line = true -> forall l, json_loads line <> Some (JObj l))
  | k => (line, k) ∈ exact_lines
  end.
Proof.
  assert (forall l, (line, l) ∈ exact_lines -> startswith line "error:" = false /\ startswith line "{" = false /\ l <> ERROR /\ l <> CONFIG /\ l <> UNKNOWN) as Hsep.
  { intros l Hin. unfold exact_lines in Hin. repeat (apply elem_of_cons in Hin as [Hin|Hin]; [injection Hin as -> ->; by vm_compute|]). by apply not_elem_of_nil in Hin. }
  unfold classify_v1_response. destruct (exact_line line) as [k'|] eqn:Ee.
  - pose proof Ee as Hin. apply exact_line_spec in Hin. destruct (Hsep _ Hin) as (H1 & H2 & H3 & H4 & H5). split.
    + intros <-. by destruct k'.
    + intros Hk. assert (forall k2, (line, k2) ∈ exact_lines -> k' = k2) as Hu by (intros k2 Hk2; apply exact_line_spec in Hk2; congruence).
      destruct k; try (by apply Hu); [congruence|by destruct Hk; congruence|by destruct Hk].
  - assert (forall k2, (line, k2) ∈ exact_lines -> False) as Hno by (intros k2 Hk2; apply exact_line_spec in Hk2; congruence).
    destruct (startswith line "error:") eqn:E1.
    + assert (startswith line "{" = false) as Hb by (destruct line as [|c line]; [done|]; unfold startswith in *; cbn [String.prefix] in *; by destruct (ascii_dec "e" c) as [<-|]).
      split; [by intros <-|]. destruct k; try (intros Hk; by destruct (Hno _ Hk)); [done|intros (? & _); congruence|intros (_ & ? & _); congruence].
    + destruct (startswith line "{") eqn:E2, (str_last_is "}" line) eqn:E3; cbn [andb];
        [destruct (json_loads line) as [[]|] eqn:E4|..]; (split; [intros <-; repeat split; try done; try (intros; congruence); eauto|]);
        destruct k; try (intros Hk; by destruct (Hno _ Hk)); try done; try (by intros (? & ? & ? & ?)); by intros (_ & _ & Hk); destruct (Hk eq_refl eq_refl _ eq_refl).
Qed.
