(* ===== verification/Manifest.v ===== *)
(** * The manifest of a backup (appliance/ops/lib/manifest.py)

    Building the checksummed manifest of a backup, and verifying a backup against it before a restore trusts it. SHA-256,
    [json.loads], the decoding of UTF-8 and [git] are parameters; a file is its bytes, and a regular file that cannot be read
    is not modelled. *)
From S2P Require Import Prelude PyString Json JsonText.

Definition MANIFEST_FILES : list string := ["machine.db"; "web.db"; "vision.db"; "cs71d.toml"; "web.env"].
Definition REQUIRED_FILES : list string := ["machine.db"; "web.db"].

(** [ManifestError], or what the source lets escape. *)
Inductive manifest_exn := ManifestError (message : string) | Escaped (what : string).
Abbreviation mresult := (res manifest_exn).
Definition manifest_error {A} (message : string) : mresult A := Err (ManifestError message).

(** The regular files: their bytes by path. *)
Abbreviation Tree := (string -> option string).

(** [directory / name] *)
Definition path_join (directory name : string) : string :=
  if bool_decide (name = "") then directory else if startswith name "/" then name else directory +:+ "/" +:+ name.

Section Manifest.
Context (sha256_hexdigest : string -> string) (json_loads : string -> option json) (decode : string -> option string).

(** [path.read_text(encoding="utf-8")] of bytes that were read. *)
Definition text_of (bytes : string) : mresult string :=
  match decode bytes with Some s => Ok s | None => Err (Escaped "UnicodeDecodeError") end.

Definition sha256_of (fs : Tree) (path : string) : option string := sha256_hexdigest <$> fs path.

(** ** What was built *)

(** [commit], the stripped output of git; [None] when it could not be run or failed. *)
Definition source_commit (git : option string) : string :=
  match git with
  | None => "unknown"
  | Some out => let commit := str_strip out in if bool_decide (commit = "") then "unknown" else commit
  end.

Definition skip_spaces (s : string) : string := str_lstrip s.
(** The regular expression of [daemon_version] at the start of a line. *)
Definition match_version (s : string) : option string :=
  if startswith s "version" then
    let s := skip_spaces (str_drop 7 s) in
    if startswith s "=" then
      let s := skip_spaces (str_drop 1 s) in
      if startswith s (String dquote "") then
        match str_partition dquote (str_drop 1 s) with
        | Some (v, _) => if bool_decide (v = "") then None else Some v
        | None => None
        end
      else None
    else None
  else None.
(** [re.search] with [(?m)^]: the first line that matches. *)
Fixpoint search_version (at_start : bool) (s : string) : option string :=
  match (if at_start then match_version s else None), s with
  | Some v, _ => Some v
  | None, "" => None
  | None, String c s => search_version (Ascii.eqb c (chr 10)) s
  end.

Definition daemon_version (fs : Tree) (source_root : string) : mresult string :=
  match fs (path_join source_root "appliance/daemon/pyproject.toml") with
  | None => Ok "unknown"
  | Some bytes => text ← text_of bytes; Ok (default "unknown" (search_version true text))
  end.

(** [str(document.get(name, "unknown"))] of a dict. *)
Definition text_field (name : string) (d : pydict) : string := py_str (default (JStr "unknown") (obj_get name d)).

Definition web_version (fs : Tree) (source_root : string) : mresult string :=
  match fs (path_join source_root "appliance/web/package.json") with
  | None => Ok "unknown"
  | Some bytes =>
      text ← text_of bytes;
      match json_loads text with
      | None => Err (Escaped "JSONDecodeError")
      | Some (JObj l) => Ok (text_field "version" (py_dict l))
      | Some _ => Err (Escaped "AttributeError")
      end
  end.

Definition build_release_info (git : option string) (fs : Tree) (source_root installed_at : string) : mresult pydict :=
  daemon ← daemon_version fs source_root;
  web ← web_version fs source_root;
  Ok [("installed_at", JStr installed_at); ("source_commit", JStr (source_commit git)); ("daemon_version", JStr daemon); ("web_version", JStr web)].

Definition load_release_info (fs : Tree) (path : string) : mresult pydict :=
  match fs path with
  | None => Ok []
  | Some bytes => text ← text_of bytes; Ok (match json_loads text with Some (JObj l) => py_dict l | _ => [] end)
  end.

(** ** The manifest *)

Definition file_entry (fs : Tree) (backup_dir name : string) : option (string * json) :=
  bytes ← fs (path_join backup_dir name);
  Some (name, JObj [("sha256", JStr (sha256_hexdigest bytes)); ("bytes", JInt (slen bytes))]).

Definition build_manifest (fs : Tree) (backup_dir release_info_path created_at : string) : mresult pydict :=
  info ← load_release_info fs release_info_path;
  Ok [("created_at", JStr created_at); ("source_commit", JStr (text_field "source_commit" info));
      ("daemon_version", JStr (text_field "daemon_version" info)); ("web_version", JStr (text_field "web_version" info));
      ("files", JObj (omap (file_entry fs backup_dir) MANIFEST_FILES))].

(** The body of the loop of [verify]. *)
Definition verify_entry (fs : Tree) (backup_dir : string) (kv : string * json) : mresult unit :=
  let '(name, entry) := kv in
  match sha256_of fs (path_join backup_dir name) with
  | None => manifest_error ("manifest lists " +:+ name +:+ ", missing from " +:+ backup_dir)
  | Some actual =>
      match (match entry with JObj l => obj_get "sha256" (py_dict l) | _ => None end) with
      | Some (JStr expected) =>
          if bool_decide (actual = expected) then Ok tt
          else manifest_error (name +:+ " does not match its manifest checksum; the backup may be corrupt")
      | _ => manifest_error ("manifest entry for " +:+ name +:+ " has no sha256")
      end
  end.
Fixpoint verify_entries (fs : Tree) (backup_dir : string) (l : pydict) : mresult unit :=
  match l with [] => Ok tt | kv :: l => _ ← verify_entry fs backup_dir kv; verify_entries fs backup_dir l end.

(** The first required file that [files] does not list. *)
Definition missing_required (files : pydict) : option string :=
  snd <$> list_find (fun n => obj_get n files = None) REQUIRED_FILES.

Definition verify (fs : Tree) (backup_dir : string) : mresult unit :=
  let path := path_join backup_dir "manifest.json" in
  match fs path with
  | None => manifest_error ("no manifest at " +:+ path)
  | Some bytes =>
      text ← text_of bytes;
      match json_loads text with
      | None => manifest_error ("manifest at " +:+ path +:+ " is not valid JSON")
      | Some document =>
          match (match document with JObj l => obj_get "files" (py_dict l) | _ => None end) with
          | Some (JObj ((_ :: _) as l)) =>
              let files := py_dict l in
              match missing_required files with
              | Some n => manifest_error ("manifest at " +:+ path +:+ " does not include " +:+ n)
              | None => verify_entries fs backup_dir files
              end
          | _ => manifest_error ("manifest at " +:+ path +:+ " lists no files")
          end
      end
  end.

(** ** The command *)

(** [json.dumps(document, indent=2, sort_keys=True)] *)
Definition document_text (d : pydict) : string := dumps_indent "" (JObj d).

(** What the command wrote to a file and to standard output, and its exit status; [USAGE] stands for the usage text. *)
Inductive effect := WroteFile (path text : string) | Printed (text : string) | Complained (text : string) | USAGE.

Definition status_of (r : mresult (list effect)) : mresult (list effect * Z) :=
  match r with
  | Ok effects => Ok (effects, 0)
  | Err (ManifestError m) => Ok ([Complained ("manifest.py: " +:+ m)], 1)
  | Err e => Err e
  | OutOfFuel => OutOfFuel
  end.

Definition main (git : option string) (fs : Tree) (argv : list string) : mresult (list effect * Z) :=
  match argv with
  | [_; "release-info"; source_root; output; installed_at] =>
      status_of (info ← build_release_info git fs source_root installed_at; Ok [WroteFile output (document_text info)])
  | [_; "write"; backup_dir; release_info_path; created_at] =>
      status_of (m ← build_manifest fs backup_dir release_info_path created_at; Ok [Printed (document_text m)])
  | [_; "verify"; backup_dir] => status_of (_ ← verify fs backup_dir; Ok [Printed "manifest verified"])
  | _ => Ok ([USAGE], 2)
  end.
End Manifest.

(** ** What verification means *)

Section Proofs.
Context (sha256_hexdigest : string -> string) (json_loads : string -> option json) (decode : string -> option string).
(** [json.loads] reads what the model of it without floats reads. *)
Context (Hloads : forall text v, loads text = Some v -> json_loads text = Some v).
Abbreviation checks := (verify sha256_hexdigest json_loads decode).

(** The recorded digest of an entry, and that the file there is has it. *)
Definition recorded_digest (entry : json) : option string :=
  match entry with JObj l => match obj_get "sha256" (py_dict l) with Some (JStr d) => Some d | _ => None end | _ => None end.
Definition matches (fs : Tree) (backup_dir : string) (kv : string * json) : Prop :=
  exists bytes, fs (path_join backup_dir kv.1) = Some bytes /\ recorded_digest kv.2 = Some (sha256_hexdigest bytes).

Lemma verify_entry_exact fs dir kv :
  match verify_entry sha256_hexdigest fs dir kv with
  | Ok _ => matches fs dir kv
  | Err e => ~ matches fs dir kv /\ exists m, e = ManifestError m
  | OutOfFuel => False
  end.
Proof.
  destruct kv as [name entry]. unfold verify_entry, sha256_of, matches, recorded_digest. cbn [fst snd].
  destruct (fs (path_join dir name)) as [bytes|]; cbn; [|split; [by intros (? & ? & _)|by eexists]].
  destruct entry as [| | | | | |l]; try (split; [by intros (? & _ & ?)|by eexists]).
  destruct (obj_get "sha256" (py_dict l)) as [[| | | |d| |]|]; try (split; [by intros (? & _ & ?)|by eexists]).
  case_bool_decide as E; [exists bytes; by subst|]. split; [|by eexists]. intros (b & [= <-] & [= ->]). by apply E.
Qed.

Lemma verify_entries_exact fs dir l :
  match verify_entries sha256_hexdigest fs dir l with
  | Ok _ => Forall (matches fs dir) l
  | Err e => (exists kv, kv ∈ l /\ ~ matches fs dir kv) /\ exists m, e = ManifestError m
  | OutOfFuel => False
  end.
Proof.
  induction l as [|kv l IH]; cbn [verify_entries]; [done|]. pose proof (verify_entry_exact fs dir kv) as He.
  destruct (verify_entry _ _ _ _) as [[]|e|]; cbn; [| |done].
  - destruct (verify_entries _ _ _ l) as [[]|e|]; [by constructor| |done]. destruct IH as [(kv' & ? & ?) ?]. split; [|done]. exists kv'. split; [by right|done].
  - destruct He as [Hn ?]. split; [|done]. exists kv. split; [by left|done].
Qed.

(** The files a manifest text lists. *)
Definition listed (text : string) : option pydict :=
  match json_loads text with
  | Some (JObj l) => match obj_get "files" (py_dict l) with Some (JObj f) => Some (py_dict f) | _ => None end
  | _ => None
  end.

Lemma verify_listed fs dir bytes text files : fs (path_join dir "manifest.json") = Some bytes -> decode bytes = Some text ->
  listed text = Some files -> (forall n, n ∈ REQUIRED_FILES -> obj_get n files <> None) ->
  checks fs dir = verify_entries sha256_hexdigest fs dir files.
Proof.
  intros Hb Hd Hl Hr. unfold verify, text_of. rewrite Hb, Hd. cbn [mbind res_bind]. revert Hl. unfold listed.
  destruct (json_loads text) as [[| | | | | |l]|]; try done. cbv beta iota. destruct (obj_get "files" (py_dict l)) as [[| | | | | |f]|]; try done. intros [= <-].
  destruct f as [|kv f].
  { exfalso. apply (Hr "machine.db"); [by left|done]. }
  cbv beta iota zeta. assert (missing_required (py_dict (kv :: f)) = None) as ->; [|done].
  unfold missing_required. destruct (list_find _ _) as [[i n]|] eqn:E; [|done]. apply list_find_Some in E as (Hi & Hn & _).
  exfalso. by apply (Hr n); [eapply list_elem_of_lookup_2|].
Qed.

Definition sorted_members (l : pydict) : pydict := merge_sort key_le ((fun kv => (kv.1, sort_keys kv.2)) <$> l).

Lemma sorted_permuted l : sorted_members l ≡ₚ (fun kv => (kv.1, sort_keys kv.2)) <$> l.
Proof. apply merge_sort_Permutation. Qed.
Lemma sorted_distinct l : NoDup l.*1 -> NoDup (sorted_members l).*1.
Proof. intros Hl. rewrite sorted_permuted, <- list_fmap_compose. by change ((fst ∘ fun kv : string * json => (kv.1, sort_keys kv.2)) <$> l) with (l.*1). Qed.
Lemma sorted_dict l : NoDup l.*1 -> py_dict (sorted_members l) = sorted_members l.
Proof. intros Hl. by apply py_dict_unique, sorted_distinct. Qed.
Lemma obj_get_map (f : json -> json) l k : obj_get k ((fun kv => (kv.1, f kv.2)) <$> l) = f <$> obj_get k l.
Proof. induction l as [|[k' v] l IH]; [done|]. csimpl. cbn [obj_get]. case_bool_decide; [done|apply IH]. Qed.
Lemma sorted_get l k : NoDup l.*1 -> obj_get k (py_dict (sorted_members l)) = sort_keys <$> obj_get k l.
Proof.
  intros Hl. rewrite sorted_dict, obj_get_lookup by (done || by apply sorted_distinct).
  rewrite (list_to_map_proper _ ((fun kv : string * json => (kv.1, sort_keys kv.2)) <$> l)); [|by apply sorted_distinct|apply sorted_permuted].
  rewrite <- obj_get_lookup, obj_get_map; [done|]. rewrite <- list_fmap_compose. exact Hl.
Qed.

Lemma entries_keys fs dir l : (omap (file_entry sha256_hexdigest fs dir) l).*1 = filter (fun n => is_Some (fs (path_join dir n))) l.
Proof.
  induction l as [|n l IH]; [done|]. rewrite filter_cons. cbn [omap list_omap]. unfold file_entry at 1. destruct (fs (path_join dir n)) as [b|] eqn:E; cbn.
  - rewrite decide_True by (by eexists). cbn. by f_equal.
  - rewrite decide_False by (by intros [? ?]). done.
Qed.
Lemma entries_distinct fs dir : NoDup (omap (file_entry sha256_hexdigest fs dir) MANIFEST_FILES).*1.
Proof. rewrite entries_keys. apply NoDup_filter, (bool_decide_unpack _). by vm_compute. Qed.

Lemma recorded_of_built bytes : recorded_digest (sort_keys (JObj [("sha256", JStr (sha256_hexdigest bytes)); ("bytes", JInt (slen bytes))])) = Some (sha256_hexdigest bytes).
Proof. unfold recorded_digest. cbn [sort_keys]. fold (sorted_members [("sha256", JStr (sha256_hexdigest bytes)); ("bytes", JInt (slen bytes))]). rewrite sorted_get; [done|]. apply (bool_decide_unpack _). by vm_compute. Qed.

(** What [write] prints is read back with its keys sorted. *)
Lemma document_read_back fs dir release_info created_at m :
  build_manifest sha256_hexdigest json_loads decode fs dir release_info created_at = Ok m -> json_loads (document_text m) = Some (sort_keys (JObj m)).
Proof.
  unfold build_manifest. destruct (load_release_info _ _ _ _) as [info|e|]; [|done|done]. cbn [mbind res_bind]. intros [= <-].
  assert (forall l, forallb id ((fun kv => exact kv.2) <$> omap (file_entry sha256_hexdigest fs dir) l) = true) as He.
  { induction l as [|n l IH]; [done|]. cbn [omap list_omap]. unfold file_entry at 1. destruct (fs (path_join dir n)); [|exact IH]. exact IH. }
  apply Hloads, loads_dumps_indent. change (forallb id ((fun kv => exact kv.2) <$> omap (file_entry sha256_hexdigest fs dir) MANIFEST_FILES) && true = true).
  by rewrite He.
Qed.

(** C34: a backup is accepted by [verify] exactly when every file that was there when its manifest was written is
    still there with the bytes' digest it had then: the manifest being the text [write] printed, saved as
    [manifest.json] beside the two databases a backup must have. A missing, truncated or altered file is refused with a [ManifestError]. *)
Theorem manifest_detects (fs fs' : Tree) (dir release_info created_at : string) (m : pydict) (bytes : string) :
  build_manifest sha256_hexdigest json_loads decode fs dir release_info created_at = Ok m ->
  (forall n, n ∈ REQUIRED_FILES -> is_Some (fs (path_join dir n))) ->
  fs' (path_join dir "manifest.json") = Some bytes -> decode bytes = Some (document_text m) ->
  match checks fs' dir with
  | Ok _ => forall n b, n ∈ MANIFEST_FILES -> fs (path_join dir n) = Some b -> exists b', fs' (path_join dir n) = Some b' /\ sha256_hexdigest b' = sha256_hexdigest b
  | Err e => (exists msg, e = ManifestError msg)
      /\ exists n b, n ∈ MANIFEST_FILES /\ fs (path_join dir n) = Some b /\ forall b', fs' (path_join dir n) = Some b' -> sha256_hexdigest b' <> sha256_hexdigest b
  | OutOfFuel => False
  end.
Proof.
  intros Hb Hreq Hm Hd. pose proof (document_read_back fs dir release_info created_at m Hb) as Hj. set (es := omap (file_entry sha256_hexdigest fs dir) MANIFEST_FILES) in *.
  assert (listed (document_text m) = Some (sorted_members es)) as Hl.
  { unfold listed. rewrite Hj. unfold build_manifest in Hb. destruct (load_release_info _ _ _ _) as [info|e|]; [|done|done]. cbn [mbind res_bind] in Hb. injection Hb as <-.
    cbn [sort_keys]. match goal with |- context [merge_sort key_le ?l] => change (merge_sort key_le l) with (sorted_members [("created_at", JStr created_at); ("source_commit", JStr (text_field "source_commit" info));
      ("daemon_version", JStr (text_field "daemon_version" info)); ("web_version", JStr (text_field "web_version" info)); ("files", JObj es)]) end.
    rewrite sorted_get by (apply (bool_decide_unpack _); by vm_compute). cbn [obj_get]. rewrite !bool_decide_false, bool_decide_true by done. cbn [fmap option_fmap option_map sort_keys].
    fold (sorted_members es). by rewrite sorted_dict by apply entries_distinct. }
  assert (forall n b, fs (path_join dir n) = Some b -> n ∈ MANIFEST_FILES ->
    (n, JObj [("sha256", JStr (sha256_hexdigest b)); ("bytes", JInt (slen b))]) ∈ es) as Hin.
  { intros n b Hn Hmem. apply list_elem_of_omap. exists n. split; [done|]. unfold file_entry. by rewrite Hn. }
  rewrite (verify_listed fs' dir bytes (document_text m) (sorted_members es)); try done.
  2: { intros n Hn. destruct (Hreq n Hn) as [b Hnb].
       assert (n ∈ MANIFEST_FILES) as Hmem by (revert Hn; unfold REQUIRED_FILES, MANIFEST_FILES; set_solver).
       rewrite <- (sorted_dict es), sorted_get by apply entries_distinct. rewrite obj_get_lookup by apply entries_distinct.
       rewrite (elem_of_list_to_map_1 es n _ (entries_distinct fs dir) (Hin n b Hnb Hmem)). done. }
  pose proof (verify_entries_exact fs' dir (sorted_members es)) as He.
  assert (Forall (matches fs' dir) (sorted_members es) <-> forall n b, n ∈ MANIFEST_FILES -> fs (path_join dir n) = Some b ->
     exists b', fs' (path_join dir n) = Some b' /\ sha256_hexdigest b' = sha256_hexdigest b) as Hiff.
  { rewrite sorted_permuted, Forall_fmap, Forall_forall. split.
    - intros Hall n b Hn Hnb. destruct (Hall _ (Hin n b Hnb Hn)) as (b' & Hb' & Hr). cbn [fst snd compose] in *. rewrite recorded_of_built in Hr. exists b'. split; [done|congruence].
    - intros Hall [n v] Hnv. apply list_elem_of_omap in Hnv as (n' & Hn' & Hf). unfold file_entry in Hf. destruct (fs (path_join dir n')) as [b|] eqn:Eb; [|done]. injection Hf as <- <-.
      destruct (Hall n' b Hn' Eb) as (b' & Hb' & Heq). exists b'. cbn [fst snd compose]. rewrite recorded_of_built, Heq. done. }
  destruct (verify_entries _ _ _ _) as [[]|e|]; [by apply Hiff| |done]. destruct He as [(kv & Hkv & Hn) ?]. split; [done|].
  rewrite sorted_permuted in Hkv. apply list_elem_of_fmap in Hkv as ([n v] & -> & Hnv). apply list_elem_of_omap in Hnv as (n' & Hn' & Hf).
  unfold file_entry in Hf. destruct (fs (path_join dir n')) as [b|] eqn:Eb; [|done]. injection Hf as <- <-. exists n', b. split; [done|]. split; [done|].
  intros b' Hb' Heq. apply Hn. exists b'. cbn [fst snd]. by rewrite recorded_of_built, Heq.
Qed.
End Proofs.

(** ** A backup *)

Definition demo_tree (l : list (string * string)) : Tree := fun path => (list_to_map l : gmap string string) !! path.
Definition demo_files : list (string * string) :=
  [("/b/machine.db", "M"); ("/b/web.db", "W"); ("/b/cs71d.toml", "T"); ("/r.json", "{" +:+ json_str "source_commit" +:+ ": " +:+ json_str "abc" +:+ "}")].
Definition demo_manifest : pydict :=
  match build_manifest (fun s => s) loads Some (demo_tree demo_files) "/b" "/r.json" "now" with Ok m => m | _ => [] end.
(** The databases are restored; the configuration was altered. *)
Definition demo_restored : Tree := demo_tree [("/b/machine.db", "M"); ("/b/web.db", "W"); ("/b/cs71d.toml", "t"); ("/b/manifest.json", document_text demo_manifest)].

Lemma manifest_detects_witness :
  match verify (fun s => s) loads Some demo_restored "/b" with
  | Ok _ => forall n b, n ∈ MANIFEST_FILES -> demo_tree demo_files (path_join "/b" n) = Some b -> exists b', demo_restored (path_join "/b" n) = Some b' /\ b' = b
  | Err e => (exists msg, e = ManifestError msg)
      /\ exists n b, n ∈ MANIFEST_FILES /\ demo_tree demo_files (path_join "/b" n) = Some b /\ forall b', demo_restored (path_join "/b" n) = Some b' -> b' <> b
  | OutOfFuel => False
  end.
Proof.
  apply (manifest_detects (fun s => s) loads Some (fun _ _ H => H) (demo_tree demo_files) demo_restored "/b" "/r.json" "now" demo_manifest (document_text demo_manifest)).
  - vm_compute. reflexivity.
  - intros n Hn. unfold REQUIRED_FILES in Hn. apply elem_of_cons in Hn as [->|[->|[]%not_elem_of_nil]%elem_of_cons]; vm_compute; by eexists.
  - vm_compute. reflexivity.
  - reflexivity.
Defined.
Example altered_configuration : verify (fun s => s) loads Some demo_restored "/b" = manifest_error "cs71d.toml does not match its manifest checksum; the backup may be corrupt".
Proof. vm_compute. reflexivity. Qed.

(** A manifest that is not UTF-8 is no [ManifestError]: the command ends in a traceback. *)
Example undecodable_manifest : main (fun s => s) loads (fun _ => None) None demo_restored ["manifest.py"; "verify"; "/b"] = Err (Escaped "UnicodeDecodeError").
Proof. vm_compute. reflexivity. Qed.

Example version_of_toml : search_version true ("[project]" +:+ String (chr 10) "version = " +:+ json_str "1.4.0") = Some "1.4.0".
Proof. vm_compute. reflexivity. Qed.
