(* ===== verification/HostCli.v ===== *)
(** * The compatibility switcher (host/src/cs71_protocol/cli.py)

    [execute] and [main] of the [cs71-protocol] command over any byte stream, with the injected
    [Dependencies] of the source. Parsing the arguments is argparse's; what it returns is [Namespace]. *)
From S2P Require Import Prelude PyString Errors Crc Models Parsing Tracking Framing Transport Client Json JsonText.

Definition EXIT_SUCCESS : Z := 0.
Definition EXIT_USAGE : Z := 2.
Definition EXIT_PORT_UNAVAILABLE : Z := 3.
Definition EXIT_PROTOCOL : Z := 4.
Definition EXIT_RECOVERY : Z := 5.
Definition EXIT_DTR_GUARANTEE : Z := 6.
Definition EXIT_CHILD_LAUNCH : Z := 7.

(** The exceptions of the command: its own and [PortLockError], the last a subclass of [OSError], the others of
    [RuntimeError]; and those of the library, the driver and the language. *)
Inductive cli_exn :=
| Raised (e : exn)
| DtrGuaranteeError (message : string)
| SafetyGuaranteeError (message : string)
| PortLockError (message : string).
Definition cli_message (e : cli_exn) : string :=
  match e with Raised e => exn_msg e | DtrGuaranteeError m | SafetyGuaranteeError m | PortLockError m => m end.

(** The subcommands of [build_parser]. *)
Inductive Command := Detect | EnterV2 | LeaveV2 | PrepareLegacy | RunLegacy.
#[export] Instance Command_eq_dec : EqDecision Command.
Proof. solve_decision. Defined.

(** [--timeout], a float: microseconds, or an infinity or a nan. *)
Inductive seconds := Finite (us : Z) | NotFinite.

Record Namespace := mkNamespace {
  command : Command;
  port : string;
  timeout : seconds;
  no_reset : bool;
  crc : bool;
  application : list string;
  global_json : bool;
  command_json : bool;
}.

(** [not math.isfinite(args.timeout) or args.timeout <= 0], and the timeout otherwise. *)
Definition usable (t : seconds) : option Z :=
  match t with Finite us => if us <=? 0 then None else Some us | NotFinite => None end.

(** [args.application[1:] if args.application[:1] == ["--"] else []] *)
Definition child_argv (application : list string) : list string :=
  match application with x :: l => if bool_decide (x = "--") then l else [] | [] => [] end.

(** The injected callables. [lock_acquire] and [lock_release] are the two methods of the lock of a port;
    [runner] is the exit status of the child. *)
Record Dependencies (T : Type) := mkDependencies {
  opener : string -> Z -> Z -> res cli_exn T;
  dtr_suppression_guaranteed : T -> bool;
  transport_reset : M T exn unit;
  transport_close : M T cli_exn unit;
  lock_acquire : string -> res cli_exn unit;
  lock_release : string -> res cli_exn unit;
  runner : list string -> result Z;
}.
Arguments opener {T}.
Arguments dtr_suppression_guaranteed {T}.
Arguments transport_reset {T}.
Arguments transport_close {T}.
Arguments lock_acquire {T}.
Arguments lock_release {T}.
Arguments runner {T}.

(** What the command did to the port and to other processes. *)
Inductive step := Locked (port : string) | Opened (port : string) (baudrate timeout : Z) | Closed | Unlocked | Launched (argv : list string).

(** The process: the device it opened, the client it made of it, and its steps. *)
Record Cli (T : Type) := mkCli { device : option T; client : option (ProtocolClient T); steps : list step }.
Arguments mkCli {T}.
Arguments device {T}.
Arguments client {T}.
Arguments steps {T}.
Definition Cli_start {T} : Cli T := mkCli None None [].

Definition document := list (string * json).

Section Cli.
Context {T : Type} `{ByteStream T} (deps : Dependencies T).
Abbreviation EM := (M (Cli T) cli_exn).
Abbreviation CM := (M (ProtocolClient T) exn).

Definition note (x : step) : EM unit := modifyS (fun s => mkCli (device s) (client s) (steps s ++ [x])).
Definition set_device (t : T) : EM unit := modifyS (fun s => mkCli (Some t) (client s) (steps s)).

(** [try: m finally: cleanup]: an exception of the cleanup replaces the outcome. *)
Definition finally {A} (m : EM A) (cleanup : EM unit) : EM A :=
  try_case m (fun a => _ ← cleanup; mret a) (fun e => _ ← cleanup; raise e).

(** [_close(transport)] on the device as it is now. *)
Definition close_device (t : T) : EM unit := fun s =>
  let '(t', r) := transport_close deps (default t (device s)) in
  (mkCli (Some t') (client s) (steps s ++ [Closed]), r).

Definition release_lock (port : string) : EM unit := _ ← note Unlocked; liftR (lock_release deps port).

Definition _session {A} (port : string) (timeout : Z) (body : T -> EM A) : EM A :=
  _ ← liftR (lock_acquire deps port);
  _ ← note (Locked port);
  finally
    (t ← liftR (opener deps port 9600 (Z.min timeout 50000));
     _ ← set_device t;
     _ ← note (Opened port 9600 (Z.min timeout 50000));
     finally
       (if negb (dtr_suppression_guaranteed deps t)
        then raise (DtrGuaranteeError "could not guarantee DTR suppression while opening the port; no safe stop was sent")
        else body t)
       (close_device t))
    (release_lock port).

(** [ProtocolClient(transport, timeout=timeout, reset=transport.reset)] *)
Definition client_config (timeout : Z) : ClientConfig T := mkClientConfig timeout (Some (transport_reset deps)) None None.
Definition with_client {A} (timeout : Z) (t : T) (m : CM A) : EM A := fun s =>
  match ProtocolClient_init (client_config timeout) t with
  | Ok c =>
      let '(c', r) := m c in
      (mkCli (Some (Client.transport c')) (Some c') (steps s), match r with Ok a => Ok a | Err e => Err (Raised e) | OutOfFuel => OutOfFuel end)
  | Err e => (s, Err (Raised e))
  | OutOfFuel => (s, OutOfFuel)
  end.

Definition _reset_and_verify_v1 (timeout : Z) : CM unit :=
  let cfg := client_config timeout in
  _ ← out_of_band_stop cfg;
  try_except
    (_ ← on_transport (transport_reset deps);
     _ ← modifyS (fun c => set_io (lr_clear (reader c)) (Client.transport c) c);
     _ ← wait_ready cfg;
     v1_ping_barrier cfg)
    (fun e =>
       if isinstance e (Protocol RecoveryError) && exn_recovered e then raise e
       else raise (recovery_error "reset did not verify a v1 session" false)).

(** The document of [_detect]. *)
Definition detected (available : bool) (version : string) : document :=
  [("v2_available", JBool available); ("firmware", JStr (if available then "v2-capable" else "v1-only"));
   ("mode", JStr "v1"); ("version", JStr version); ("reset", JBool true)].

Definition _detect (timeout : Z) : CM (bool * string) :=
  let cfg := client_config timeout in
  _ ← _reset_and_verify_v1 timeout;
  _ ← _write_v1 "version";
  version ← _read_v1 cfg None;
  available ← discover cfg;
  mret (available, version).

Definition _prepare (port : string) (timeout : Z) : EM document :=
  _session port timeout (fun t =>
    with_client timeout t (_ ← _reset_and_verify_v1 timeout; mret [("mode", JStr "v1"); ("volatile_settings_reset", JBool true)])).

(** [client.mode.value] *)
Definition mode_value (m : SessionMode) : string := match m with V1 => "v1" | V2 => "v2" | UNCERTAIN => "uncertain" end.

(** [enter-v2] on its client: the document of [_detect], and with v2 the mode and the CRC that are now in force. *)
Definition enter_v2 (crc_wanted : bool) (timeout : Z) : CM document :=
  let cfg := client_config timeout in
  result ← _detect timeout;
  let '(available, version) := result in
  if negb available then mret (detected available version)
  else
    _ ← activate_known_available cfg;
    _ ← (if crc_wanted then _ ← enable_crc cfg None; mret tt else mret tt);
    c ← getS;
    mret (obj_set "validated" (JArr [JStr "protocolversion"; JStr "capabilities"; JStr "status"])
            (obj_set "crc" (JBool (crc_enabled c)) (obj_set "mode" (JStr (mode_value (cl_mode c))) (detected available version)))).

(** The body of the [try] of [execute]. *)
Definition perform (args : Namespace) : EM (Z * document) :=
  match usable (timeout args) with
  | None => mret (EXIT_USAGE, [("error", JStr "--timeout must be finite and greater than zero")])
  | Some us =>
      if (bool_decide (command args = Detect) || bool_decide (command args = EnterV2)) && no_reset args
      then raise (SafetyGuaranteeError "--no-reset cannot verify v1 after universal stop; use the required reset barrier")
      else
        match command args with
        | PrepareLegacy => doc ← _prepare (port args) us; mret (EXIT_SUCCESS, doc)
        | RunLegacy =>
            _ ← _prepare (port args) us;
            let application := child_argv (application args) in
            if bool_decide (application = []) then mret (EXIT_USAGE, [("error", JStr "run-legacy requires an application after --")])
            else
              _ ← note (Launched application);
              match runner deps application with
              | Ok status => mret (status, [("prepared", JBool true); ("child_exit", JInt status)])
              | Err e =>
                  if isinstance e (Builtin OSError) then mret (EXIT_CHILD_LAUNCH, [("error", JStr (exn_msg e)); ("prepared", JBool true)])
                  else raise (Raised e)
              | OutOfFuel => liftR OutOfFuel
              end
        | Detect =>
            _session (port args) us (fun t =>
              with_client us t (result ← _detect us; mret (EXIT_SUCCESS, detected result.1 result.2)))
        | EnterV2 => _session (port args) us (fun t => with_client us t (doc ← enter_v2 (crc args) us; mret (EXIT_SUCCESS, doc)))
        | LeaveV2 =>
            _session (port args) us (fun t =>
              with_client us t (_ ← _reset_and_verify_v1 us;
                                mret (EXIT_SUCCESS, [("mode", JStr (mode_value V1)); ("method", JStr "safe-stop-reset-fallback")])))
        end
  end.

(** The [except] clauses of [execute], in their order; [None] is an exception that none of them names. *)
Definition exit_of (e : cli_exn) : option (Z * document) :=
  let error := ("error", JStr (cli_message e)) in
  match e with
  | DtrGuaranteeError _ => Some (EXIT_DTR_GUARANTEE, [error; ("dtr_suppression_guaranteed", JBool false)])
  | SafetyGuaranteeError _ => Some (EXIT_DTR_GUARANTEE, [error; ("safety_guarantee", JBool false)])
  | PortLockError _ => Some (EXIT_PORT_UNAVAILABLE, [error])
  | Raised x =>
      if isinstance x (Protocol DtrSuppressionError) then Some (EXIT_DTR_GUARANTEE, [error; ("dtr_suppression_guaranteed", JBool false)])
      else if isinstance x (Builtin OSError) || isinstance x (Builtin RuntimeError) then Some (EXIT_PORT_UNAVAILABLE, [error])
      else if isinstance x (Protocol RecoveryError)
      then Some (if exn_recovered x then (EXIT_PROTOCOL, [error; ("mode", JStr "v1"); ("recovered", JBool true)])
                 else (EXIT_RECOVERY, [error; ("mode", JStr "uncertain")]))
      else if isinstance x (Protocol ProtocolError) then Some (EXIT_PROTOCOL, [error])
      else None
  end.

Definition execute (args : Namespace) : EM (Z * document) :=
  try_except (perform args) (fun e => match exit_of e with Some r => mret r | None => raise e end).
End Cli.

(** ** What is printed *)

(** A line on standard output or on standard error. *)
Inductive printed := Stdout (line : string) | Stderr (line : string).

(** [json.dumps(document, sort_keys=True)] *)
Definition sorted_dumps (d : document) : string := dumps_default (JObj (merge_sort (fun a b => String.le a.1 b.1) d)).

Definition render (args : Namespace) (code : Z) (result : document) : printed :=
  if global_json args || command_json args
  then Stdout (sorted_dumps (fold_left (fun d kv => obj_set kv.1 kv.2 d) result [("ok", JBool (code =? EXIT_SUCCESS)); ("exit_code", JInt code)]))
  else if code =? EXIT_SUCCESS then Stdout ("success: " +:+ str_join ", " ((fun kv => kv.1 +:+ "=" +:+ py_str kv.2) <$> result))
  else
    match obj_get "child_exit" result with
    | Some status => Stderr ("legacy application exited with status " +:+ py_str status)
    | None => Stderr ("error: " +:+ py_str (default JNull (obj_get "error" result)))
    end.

(** The checks of [main] after [parse_args]: the message of [parser.error]. *)
Definition refused (args : Namespace) : option string :=
  if bool_decide (command args = RunLegacy) && bool_decide (child_argv (application args) = [])
  then Some "run-legacy requires an application after --"
  else match usable (timeout args) with None => Some "--timeout must be finite and greater than zero" | Some _ => None end.

(** What [main] prints for a usage error; the usage text itself is argparse's. *)
Definition usage_error (raw_argv : list string) (usage message : string) : list printed :=
  if bool_decide ("--json" ∈ raw_argv)
  then [Stdout (sorted_dumps [("ok", JBool false); ("exit_code", JInt EXIT_USAGE); ("error", JStr message)])]
  else [Stderr usage; Stderr ("error: " +:+ message)].

(** [main], from what argparse makes of the arguments: a namespace, or the message of a usage error. *)
Definition main {T} `{ByteStream T} (deps : Dependencies T) (raw_argv : list string) (usage : string) (parsed : string + Namespace)
    : M (Cli T) cli_exn (Z * list printed) :=
  match parsed with
  | inl message => mret (EXIT_USAGE, usage_error raw_argv usage message)
  | inr args =>
      match refused args with
      | Some message => mret (EXIT_USAGE, usage_error raw_argv usage message)
      | None => result ← execute deps args; mret (result.1, [render args result.1 result.2])
      end
  end.
