(* ===== verification/HostCliSpec.v ===== *)
(** * What a run of the compatibility switcher does to the port

    Every run releases the port it took, writes only what its subcommand may write, and claims success only after the
    dialogue the protocol document prescribes; proved over any recorded byte stream. *)
From S2P Require Import Prelude PyString Errors Crc Models Parsing Tracking Framing Transport Client ClientSpec Wiretap Json.
From S2P Require Import JsonText HostCli.

(** What the injected callables promise: they return, the port opens with nothing said on it, a reset and
    a close write nothing. *)
Class CliLaws {T} `{ByteStream T} (deps : Dependencies (Tapped T)) : Prop := {
  opener_halts p b us : halts (opener deps p b us);
  opener_fresh p b us w : opener deps p b us = Ok w -> tape w = [];
  reset_halts w : halts (transport_reset deps w).2;
  reset_notes w : tape (transport_reset deps w).1 = tape w ++ [Restarted];
  close_halts w : halts (transport_close deps w).2;
  close_quiet w : tape (transport_close deps w).1 = tape w;
  acquire_halts p : halts (lock_acquire deps p);
  release_halts p : halts (lock_release deps p);
  runner_halts argv : halts (runner deps argv);
}.

Section CliSpec.
Context {T : Type} `{ByteStreamLaws T} (deps : Dependencies (Tapped T)) `{!CliLaws deps}.
Abbreviation W := (Tapped T).
Abbreviation CM := (M (ProtocolClient W) exn).

(** ** Sessions *)

Definition fresh_client (t : W) : ProtocolClient W := mkClient t LineReader_init V1 false RequestTracker_init EventTracker_init None.

Definition opening (p : string) (us : Z) : step := Opened p 9600 (Z.min us 50000).

(** How a session ends whose body is [m] on a new client. *)
Inductive session_ends {A} (p : string) (us : Z) (m : CM A) : Cli W -> res cli_exn A -> Prop :=
| se_locked e : session_ends p us m Cli_start (Err e)
| se_unopened e : session_ends p us m (mkCli None None [Locked p; Unlocked]) (Err e)
| se_unsafe t w e : opener deps p 9600 (Z.min us 50000) = Ok t -> dtr_suppression_guaranteed deps t = false -> tape w = [] ->
    session_ends p us m (mkCli (Some w) None [Locked p; opening p us; Closed; Unlocked]) (Err e)
| se_ran t c r w x : opener deps p 9600 (Z.min us 50000) = Ok t -> dtr_suppression_guaranteed deps t = true -> tape t = [] ->
    m (fresh_client t) = (c, r) -> tape w = tape (Client.transport c) ->
    match x with Ok a => r = Ok a | Err _ => True | OutOfFuel => False end ->
    session_ends p us m (mkCli (Some w) (Some c) [Locked p; opening p us; Closed; Unlocked]) x.

Lemma session_spec {A} p us (m : CM A) : 0 < us -> (forall t, tape t = [] -> halts (m (fresh_client t)).2) ->
  let r := _session deps p us (fun t => with_client deps us t m) Cli_start in session_ends p us m r.1 r.2.
Proof.
  intros Hus Hm. cbv zeta. unfold _session, finally, release_lock, close_device, with_client, ProtocolClient_init, try_case, mbind, M_bind, liftR, note, set_device, modifyS, raise.
  cbn [cfg_timeout client_config]. rewrite (proj2 (Z.leb_gt us 0)) by lia.
  pose proof (acquire_halts p) as Ha. pose proof (release_halts p) as Hr. pose proof (opener_halts p 9600 (Z.min us 50000)) as Ho.
  destruct (lock_acquire deps p) as [u|e|]; [|constructor|done].
  destruct (opener deps p 9600 (Z.min us 50000)) as [t|e|] eqn:Eo; [|destruct (lock_release deps p); [constructor..|done]|done].
  pose proof (opener_fresh _ _ _ _ Eo) as Ht. cbn [device client steps Cli_start app from_option id].
  destruct (dtr_suppression_guaranteed deps t) eqn:Ed; cbn [negb].
  - change (mkClient t LineReader_init V1 false RequestTracker_init EventTracker_init None) with (fresh_client t).
    specialize (Hm t Ht). destruct (m (fresh_client t)) as [c r] eqn:Em. cbn [device client steps from_option id].
    pose proof (close_halts (Client.transport c)) as Hc. pose proof (close_quiet (Client.transport c)) as Hq.
    destruct r as [a|e|]; [..|done]; destruct (transport_close deps (Client.transport c)) as [w [v|e1|]]; cbn [fst snd device client steps app] in *; try done;
      destruct (lock_release deps p) as [v'|e'|]; cbn [fst snd device client steps app] in *; try done; by eapply se_ran.
  - cbn [device client steps from_option id app]. pose proof (close_halts t) as Hc. pose proof (close_quiet t) as Hq. rewrite Ht in Hq.
    destruct (transport_close deps t) as [w [v|e|]]; cbn [fst snd device client steps app] in *; [..|done];
      destruct (lock_release deps p) as [v'|e'|]; cbn [fst snd device client steps app] in *; try done; by eapply se_unsafe.
Qed.

(** ** What the bodies say *)

Definition line (s : string) : string := s +:+ String LF "".

(** Stop, reset, [Ready], ping: the barrier that verifies v1. *)
Definition v1_barrier (ts : list talk) : Prop :=
  exists ls, ts = Say (line "stop") :: (Hear <$> ls) ++ [Hear "stopped"] ++ [Restart; Hear "Ready"] ++ ping_exchange.
(** The barrier, the version, and the question whether v2 is there. *)
Definition detection (available : bool) (version : string) (ts : list talk) : Prop :=
  exists t1 t2, v1_barrier t1 /\ discovery available t2 /\ ts = t1 ++ [Say (line "version"); Hear version] ++ t2.

Definition v1_word (d : string) : Prop := d = line "stop" \/ d = line "ping".
Definition detect_word (d : string) : Prop := v1_word d \/ d = line "version" \/ d = line "protocol:2?".
Definition v2_word (d : string) : Prop := v1_word d \/ d = line "protocol:2" \/
  exists q id crc frame, q ∈ ["protocolversion"; "capabilities"; "status"; "crc:on"] /\ format_request id q crc = Ok frame /\ d = line frame.

Section Body.
Context (us : Z).
Abbreviation cfg := (client_config deps us).

Lemma reset_permitted P : forall h, reset_hook cfg = Some h -> writes_only P tape h.
Proof. intros h [= <-] w. exists [Restarted]. split; [apply reset_notes|by repeat constructor]. Qed.

Lemma says_reset : says (on_transport (transport_reset deps)) (fun _ ts => ts = [Restart]).
Proof.
  intros c Hc. unfold on_transport. pose proof (reset_notes (Client.transport c)) as Hn.
  destruct (transport_reset deps (Client.transport c)) as [w [u|e|]]; cbn [fst] in Hn; [|done|done].
  split; [done|]. exists [Restarted], [Restart]. split; [done|split; [apply sp_restart, sp_end|done]].
Qed.
Lemma says_lr_clear : says (modifyS (fun c : ProtocolClient W => set_io (lr_clear (reader c)) (Client.transport c) c)) (fun _ ts => ts = []).
Proof. intros c [[? [? ?]] ?]. split; [done|]. exists [], []. cbn. rewrite app_nil_r. split; [done|split; [constructor|done]]. Qed.

Lemma says_verify : says (_reset_and_verify_v1 deps us) (fun _ => v1_barrier).
Proof.
  unfold _reset_and_verify_v1. eapply dialogue_bind; [apply says_stop|]. intros [] ts [ls ->].
  apply says_try; [|intros e; by destruct (_ && _)].
  eapply dialogue_bind; [apply says_reset|]. intros [] t1 ->. eapply dialogue_bind; [apply says_lr_clear|]. intros [] t2 ->.
  eapply dialogue_bind; [apply says_ready|]. intros [] t3 ->. eapply says_weaken; [apply says_ping|]. intros [] t4 ->.
  exists ls. by rewrite !app_comm_cons, <- !app_assoc.
Qed.
Lemma says_detect : says (_detect deps us) (fun r => detection r.1 r.2).
Proof.
  unfold _detect. eapply dialogue_bind; [apply says_verify|]. intros [] t1 H1. eapply dialogue_bind; [by apply says_write|]. intros [] t2 ->.
  eapply dialogue_bind; [apply says_read_v1|]. intros v t3 ->. eapply dialogue_bind; [apply says_discover|]. intros b t4 H4.
  apply says_ret. exists t1, t4. rewrite app_nil_r. split_and!; done.
Qed.

Section Words.
Context (P : string -> Prop) (HP : forall d, v1_word d -> P d).
Lemma verify_permitted : writes_only P (fun c => tape (Client.transport c)) (_reset_and_verify_v1 deps us).
Proof.
  assert (P (line "stop")) as Hs by (apply HP; by left). assert (P (line "ping")) as Hp by (apply HP; by right).
  unfold _reset_and_verify_v1. apply careful_bind; [by apply careful_stop; try apply reset_permitted|]. intros [].
  apply careful_try; [|intros e; destruct (_ && _); apply careful_raise].
  apply careful_bind; [apply careful_on_transport; by apply (reset_permitted P)|]. intros [].
  apply careful_bind; [by apply careful_modify|]. intros [].
  apply careful_bind; [apply careful_ready|]. intros []. by apply careful_ping; try apply reset_permitted.
Qed.

Lemma detect_permitted : P (line "version") -> P (line "protocol:2?") -> writes_only P (fun c => tape (Client.transport c)) (_detect deps us).
Proof.
  intros Hv Hq. assert (P (line "stop")) as Hs by (apply HP; by left). assert (P (line "ping")) as Hp by (apply HP; by right).
  unfold _detect. apply careful_bind; [apply verify_permitted|]. intros []. apply careful_bind; [by apply careful_write_v1|]. intros [].
  apply careful_bind; [apply careful_read|]. intros v. apply careful_bind; [by apply careful_discover; try apply reset_permitted|]. intros b. apply careful_ret.
Qed.

Lemma activation_permitted (c : ProtocolClient W) : P (line "protocol:2") ->
  (forall q id crc frame, q ∈ ["protocolversion"; "capabilities"; "status"; "crc:on"] -> format_request id q crc = Ok frame -> P (line frame)) ->
  writes_only P (fun c => tape (Client.transport c)) (activate_known_available cfg)
  /\ writes_only P (fun c => tape (Client.transport c)) (enable_crc cfg None).
Proof.
  intros Hp2 Hf. assert (P (line "stop")) as Hs by (apply HP; by left). assert (P (line "ping")) as Hp by (apply HP; by right).
  assert (forall q, q ∈ ["protocolversion"; "capabilities"; "status"; "crc:on"] -> permits P q) as Hq by (intros q Hin id crc frame; by apply Hf).
  split; [apply careful_activate|apply careful_enable_crc]; try done; try apply reset_permitted; apply Hq; set_solver.
Qed.
End Words.

(** The first thing written is the universal stop. *)
Abbreviation extends := (writes_only (fun _ => True) (fun c : ProtocolClient W => tape (Client.transport c))).
Definition leads {A} (m : CM A) : Prop := forall c, exists es, tape (Client.transport (m c).1) = tape (Client.transport c) ++ Wrote (line "stop") :: es.

Lemma leads_bind {A B} (m : CM A) (f : A -> CM B) : leads m -> (forall a, extends (f a)) -> leads (m ≫= f).
Proof.
  intros Hm Hf c. unfold mbind, M_bind. destruct (Hm c) as [e1 H1]. destruct (m c) as [c1 [a|e|]]; cbn [fst] in *; [|by exists e1..].
  destruct (Hf a c1) as (e2 & H2 & _). exists (e1 ++ e2). by rewrite H2, H1, <- app_assoc.
Qed.
Lemma leads_try {A} (m : CM A) h : leads m -> (forall e, extends (h e)) -> leads (try_except m h).
Proof.
  intros Hm Hf c. unfold try_except. destruct (Hm c) as [e1 H1]. destruct (m c) as [c1 [a|e|]]; cbn [fst] in *; [by exists e1| |by exists e1].
  destruct (Hf e c1) as (e2 & H2 & _). exists (e1 ++ e2). by rewrite H2, H1, <- app_assoc.
Qed.
Lemma leads_stop : leads (out_of_band_stop cfg).
Proof.
  unfold out_of_band_stop. apply leads_try; [|intros e; apply careful_fail_request; try done; apply reset_permitted].
  apply leads_bind; [|intros []; by apply careful_modify]. unfold stop_and_await. apply leads_bind.
  - intros c. change (_write_v1 "stop" c) with (_write_bytes (line "stop") c). unfold _write_bytes, mbind, M_bind, on_transport. cbn [bs_write tapped_stream]. unfold tapped.
    destruct (bs_write (line "stop") (inner (Client.transport c))) as [t [[n|]|e|]]; [destruct (negb (n =? slen (line "stop"))) eqn:En|..]; cbn; rewrite ?En; by exists [].
  - intros []. apply careful_bind; [apply careful_monotonic|]. intros now. apply careful_bind; [apply careful_get|]. intros c. apply careful_await.
Qed.
Lemma leads_verify : leads (_reset_and_verify_v1 deps us).
Proof.
  unfold _reset_and_verify_v1. apply leads_bind; [apply leads_stop|]. intros [].
  apply careful_try; [|intros e; destruct (_ && _); apply careful_raise].
  apply careful_bind; [apply careful_on_transport; by apply (reset_permitted (fun _ => True))|]. intros [].
  apply careful_bind; [by apply careful_modify|]. intros [].
  apply careful_bind; [apply careful_ready|]. intros []. apply careful_ping; try done. apply reset_permitted.
Qed.

(** ** Every body ends *)

Context (Hus : 0 < us).
#[local] Instance cfg_laws : ClientLaws cfg.
Proof. split; cbn; [done|intros h t [= <-]; apply reset_halts|done..]. Qed.

Lemma fresh_shape t : shape ∅ V1 false (fresh_client t).
Proof. split; try done; apply (clear_wf RequestTracker_init). Qed.
Lemma fresh_tuned t : tuned (fresh_client t).
Proof. done. Qed.

Abbreviation ends_in post := (fun c r => match r with Ok a => post c a | Err _ => True | OutOfFuel => False end).

Lemma wp_reset m b c Q : shape ∅ m b c -> (forall c', shape ∅ m b c' -> Q c' (Ok tt)) -> (forall c' e, shape ∅ m b c' -> Q c' (Err e)) ->
  wp (on_transport (transport_reset deps)) Q c.
Proof.
  intros Hc HOk HErr. unfold wp, on_transport. pose proof (reset_halts (Client.transport c)) as Hh.
  destruct (transport_reset deps (Client.transport c)) as [w [[]|e|]]; cbn in *; [apply HOk|apply HErr|done]; apply shape_io; try done; apply Hc.
Qed.

Lemma verify_ends c : shape ∅ V1 false c -> wp (_reset_and_verify_v1 deps us) (ends_in (fun c' _ => shape ∅ V1 false c')) c.
Proof.
  intros Hc. unfold _reset_and_verify_v1. wp_step. eapply wp_out_of_band_stop; [apply _|done| |by intros; wp_steps]. intros c1 Hc1. wp_steps.
  assert (forall (c' : ProtocolClient W) e, wp (if isinstance e (Protocol RecoveryError) && exn_recovered e then raise e
       else raise (recovery_error "reset did not verify a v1 session" false)) (ends_in (fun (c' : ProtocolClient W) (_ : unit) => shape ∅ V1 false c')) c') as Herr by (intros c' e; by destruct (_ && _)).
  eapply wp_reset; [done| |intros; wp_steps; apply Herr]. intros c2 Hc2. wp_steps.
  eapply wp_wait_ready; [by apply shape_lr_clear| |intros; wp_steps; apply Herr]. intros c3 Hc3. wp_steps.
  eapply wp_ping_barrier; [apply _|done|done|intros; wp_steps; apply Herr].
Qed.

Lemma detect_ends c : shape ∅ V1 false c -> wp (_detect deps us) (ends_in (fun c' _ => shape ∅ V1 false c')) c.
Proof.
  intros Hc. unfold _detect. wp_step. eapply wp_conseq; [by apply verify_ends|]. intros c1 [[]|e|]; [|done|done]. intros Hc1. wp_steps.
  eapply wp_write_v1; [done| |done]. intros c2 Hc2. wp_steps. eapply wp_read_v1; [done| |done]. intros c3 v Hc3. wp_steps.
  eapply wp_discover; [apply _|done| |done]. intros c4 b Hc4. by wp_steps.
Qed.

(** What [enter-v2] reports once v2 is active. *)
Definition entered (version : string) (crc_wanted : bool) : document :=
  [("v2_available", JBool true); ("firmware", JStr "v2-capable"); ("mode", JStr "v2"); ("version", JStr version); ("reset", JBool true);
   ("crc", JBool crc_wanted); ("validated", JArr [JStr "protocolversion"; JStr "capabilities"; JStr "status"])].

Definition activated (crc_wanted : bool) (version : string) : CM document :=
  _ ← activate_known_available cfg;
  _ ← (if crc_wanted then _ ← enable_crc cfg None; mret tt else mret tt);
  c ← getS;
  mret (obj_set "validated" (JArr [JStr "protocolversion"; JStr "capabilities"; JStr "status"])
          (obj_set "crc" (JBool (crc_enabled c)) (obj_set "mode" (JStr (mode_value (cl_mode c))) (detected true version)))).
Lemma activated_ends crc_wanted v c : shape ∅ V1 false c ->
  wp (activated crc_wanted v) (ends_in (fun c' doc => shape ∅ V2 crc_wanted c' /\ doc = entered v crc_wanted)) c.
Proof.
  intros Hc. unfold activated. wp_step. eapply wp_activate_known; [apply _|done| |done]. intros c1 st Hc1 _. wp_steps.
  assert (forall c' : ProtocolClient W, shape ∅ V2 crc_wanted c' -> obj_set "validated" (JArr [JStr "protocolversion"; JStr "capabilities"; JStr "status"])
          (obj_set "crc" (JBool (crc_enabled c')) (obj_set "mode" (JStr (mode_value (cl_mode c'))) (detected true v))) = entered v crc_wanted) as Hdoc
    by (intros c' [_ _ _ Hm Hb]; rewrite Hm, Hb; by destruct crc_wanted).
  destruct crc_wanted; wp_steps; [|by split; auto]. eapply wp_enable_crc; [apply _|done| |done]. intros c2 k _ Hc2. wp_steps. by split; auto.
Qed.

(** ** Runs of the bodies on a port that was just opened *)

Lemma leading {A} (m : CM A) P t : leads m -> writes_only P (fun c => tape (Client.transport c)) m -> tape t = [] ->
  exists es, tape (Client.transport (m (fresh_client t)).1) = Wrote (line "stop") :: es /\ Forall (permitted P) es.
Proof.
  intros Hl Hp Ht. destruct (Hl (fresh_client t)) as [es Hes], (Hp (fresh_client t)) as (es' & Hes' & Hf). cbn [Client.transport fresh_client] in *.
  rewrite Ht in *. exists es. rewrite Hes in Hes'. cbn [app] in *. subst es'. by apply Forall_cons in Hf as [_ ?].
Qed.

Lemma verify_run {A} (a : A) t : tape t = [] ->
  let p := (_ ← _reset_and_verify_v1 deps us; mret a) (fresh_client t) in
  halts p.2 /\ (exists es, tape (Client.transport p.1) = Wrote (line "stop") :: es /\ Forall (permitted v1_word) es)
  /\ forall x, p.2 = Ok x -> x = a /\ shape ∅ V1 false p.1 /\ exists ts, speaks (tape (Client.transport p.1)) ts /\ v1_barrier ts.
Proof.
  intros Ht. cbv zeta. destruct (leading _ v1_word t leads_verify (verify_permitted v1_word (fun _ H => H)) Ht) as (es & Hes & Hf).
  pose proof (verify_ends (fresh_client t) (fresh_shape t)) as He. pose proof (says_verify (fresh_client t) (fresh_tuned t)) as Hs.
  unfold wp in He. unfold mbind, M_bind, mret, M_ret. destruct (_reset_and_verify_v1 deps us (fresh_client t)) as [c [[]|e|]]; cbn [fst snd] in *; [| |done].
  - destruct Hs as (_ & es' & ts & Htp & Hsp & Hb). cbn [Client.transport fresh_client] in Htp. rewrite Ht in Htp. cbn [app] in Htp.
    split; [done|]. split; [by exists es|]. intros x [= <-]. split; [done|]. split; [done|]. exists ts. by rewrite Htp.
  - split; [done|]. split; [by exists es|done].
Qed.

Lemma detect_leads : leads (_detect deps us).
Proof.
  apply (leads_bind (_reset_and_verify_v1 deps us)); [apply leads_verify|]. intros []. apply careful_bind; [by apply careful_write_v1|]. intros [].
  apply careful_bind; [apply careful_read|]. intros v. apply careful_bind; [|intros b; apply careful_ret]. apply careful_discover; try done. apply reset_permitted.
Qed.
Lemma detect_words : writes_only detect_word (fun c => tape (Client.transport c)) (_detect deps us).
Proof. apply detect_permitted; [by left|by right; left|by right; right]. Qed.

Lemma detect_run t : tape t = [] ->
  let p := _detect deps us (fresh_client t) in
  halts p.2 /\ (exists es, tape (Client.transport p.1) = Wrote (line "stop") :: es /\ Forall (permitted detect_word) es)
  /\ forall b v, p.2 = Ok (b, v) -> shape ∅ V1 false p.1 /\ exists ts, speaks (tape (Client.transport p.1)) ts /\ detection b v ts.
Proof.
  intros Ht. cbv zeta. destruct (leading _ detect_word t detect_leads detect_words Ht) as (es & Hes & Hf).
  pose proof (detect_ends (fresh_client t) (fresh_shape t)) as He. pose proof (says_detect (fresh_client t) (fresh_tuned t)) as Hs.
  unfold wp in He. cbv zeta. destruct (_detect deps us (fresh_client t)) as [c [[b v]|e|]]; cbn [fst snd] in *; [| |done].
  - destruct Hs as (_ & es' & ts & Htp & Hsp & Hb). cbn [Client.transport fresh_client] in Htp. rewrite Ht in Htp. cbn [app] in Htp.
    split; [done|]. split; [by exists es|]. intros b' v' [= <- <-]. split; [done|]. exists ts. by rewrite Htp.
  - split; [done|]. split; [by exists es|done].
Qed.

(** How [enter-v2] ends: without v2 as [detect] does; with it, everything before the activation is a detection that was
    answered with [protocol:2 available]. *)
Lemma enter_run crc_wanted t : tape t = [] ->
  let p := enter_v2 deps crc_wanted us (fresh_client t) in
  halts p.2 /\ (exists e1 e2, tape (Client.transport p.1) = (Wrote (line "stop") :: e1) ++ e2 /\ Forall (permitted detect_word) e1
    /\ (e2 = [] \/ exists v ts, speaks (Wrote (line "stop") :: e1) ts /\ detection true v ts /\ Forall (permitted v2_word) e2)
    /\ forall doc, p.2 = Ok doc -> exists v ts, speaks (Wrote (line "stop") :: e1) ts /\
        (e2 = [] /\ doc = detected false v /\ detection false v ts /\ shape ∅ V1 false p.1
         \/ doc = entered v crc_wanted /\ detection true v ts /\ shape ∅ V2 crc_wanted p.1)).
Proof.
  intros Ht. destruct (detect_run t Ht) as (Hh & (es & Hes & Hf) & Hok). cbv zeta. unfold enter_v2. rewrite bind_case.
  destruct (_detect deps us (fresh_client t)) as [c [[b v]|e|]]; cbn [fst snd] in *; [| |done].
  2: { split; [done|]. exists es, []. rewrite app_nil_r. split; [done|]. split; [done|]. split; [by left|done]. }
  destruct (Hok b v eq_refl) as (Hc & ts & Hsp & Hd). destruct b; cbn [negb].
  - change (activate_known_available cfg ≫= _) with (activated crc_wanted v).
    destruct (activation_permitted v2_word ltac:(by left) c ltac:(by right; left)) as [Ha Hcrc].
    { intros q id crc frame Hq Hfr. right; right. by exists q, id, crc, frame. }
    assert (writes_only v2_word (fun c => tape (Client.transport c)) (activated crc_wanted v)) as Hw.
    { unfold activated. apply careful_bind; [done|]. intros _. apply careful_bind; [destruct crc_wanted; [apply careful_bind; [done|intros; apply careful_ret]|apply careful_ret]|].
      intros _. apply careful_bind; [apply careful_get|intros; apply careful_ret]. }
    destruct (Hw c) as (e2 & He2 & Hf2). pose proof (activated_ends crc_wanted v c Hc) as He. unfold wp in He.
    rewrite Hes in Hsp. destruct (activated crc_wanted v c) as [c2 [doc|e|]]; cbn [fst snd] in *; [| |done].
    + split; [done|]. exists es, e2. rewrite He2, Hes. split; [done|]. split; [done|]. split; [right; by exists v, ts|]. intros doc' [= <-].
      destruct He as [? ->]. exists v, ts. split; [done|]. by right.
    + split; [done|]. exists es, e2. rewrite He2, Hes. split; [done|]. split; [done|]. split; [right; by exists v, ts|done].
  - cbn [fst snd]. rewrite Hes in Hsp. split; [done|]. exists es, []. rewrite app_nil_r. split; [done|]. split; [done|]. split; [by left|]. intros doc [= <-].
    exists v, ts. split; [done|]. left. done.
Qed.
End Body.

(** ** Conduct *)

(** What may be on the tape of a run: nothing; or the universal stop, and then the words of v1; for [detect] and
    [enter-v2] the version and the question too; and for [enter-v2] the words of v2, but only after a detection
    that was answered with [protocol:2 available]. *)
Inductive conduct : Command -> list io -> Prop :=
| cd_silent cmd : conduct cmd []
| cd_v1 cmd es : cmd ∈ [LeaveV2; PrepareLegacy; RunLegacy] -> Forall (permitted v1_word) es -> conduct cmd (Wrote (line "stop") :: es)
| cd_detect cmd es : cmd ∈ [Detect; EnterV2] -> Forall (permitted detect_word) es -> conduct cmd (Wrote (line "stop") :: es)
| cd_enter e1 e2 v ts : Forall (permitted detect_word) e1 -> speaks (Wrote (line "stop") :: e1) ts -> detection true v ts ->
    Forall (permitted v2_word) e2 -> conduct EnterV2 ((Wrote (line "stop") :: e1) ++ e2).

(** What the run took and gave back. *)
Inductive took (p : string) : list step -> option W -> Prop :=
| tk_nothing : took p [] None
| tk_lock : took p [Locked p; Unlocked] None
| tk_port us w : took p [Locked p; opening p us; Closed; Unlocked] (Some w).

(** A success and the dialogue it stands on. *)
Definition verified (args : Namespace) (doc : document) (s : Cli W) : Prop :=
  exists w ts, device s = Some w /\
  match command args with
  | PrepareLegacy => doc = [("mode", JStr "v1"); ("volatile_settings_reset", JBool true)] /\ speaks (tape w) ts /\ v1_barrier ts
  | LeaveV2 => doc = [("mode", JStr "v1"); ("method", JStr "safe-stop-reset-fallback")] /\ speaks (tape w) ts /\ v1_barrier ts
  | Detect => exists b v, doc = detected b v /\ speaks (tape w) ts /\ detection b v ts
  | EnterV2 => exists v,
      (doc = detected false v /\ speaks (tape w) ts /\ detection false v ts)
      \/ (doc = entered v (crc args) /\ (exists e1 e2, tape w = e1 ++ e2 /\ speaks e1 ts /\ detection true v ts)
          /\ exists c, client s = Some c /\ shape ∅ V2 (crc args) c)
  | RunLegacy => False
  end.

(** The child is launched only after a verified v1 session whose port was released. *)
Definition handed_over (args : Namespace) (argv : list string) (s : Cli W) : Prop :=
  command args = RunLegacy /\ argv = child_argv (application args) /\ argv <> []
  /\ exists w c ts, device s = Some w /\ client s = Some c /\ shape ∅ V1 false c /\ speaks (tape w) ts /\ v1_barrier ts.

Record contained (args : Namespace) (p : Cli W * res cli_exn (Z * document)) : Prop := {
  ct_halts : halts p.2;
  ct_tape : forall w, device p.1 = Some w -> conduct (command args) (tape w);
  ct_steps : exists taken, took (port args) taken (device p.1) /\
    (steps p.1 = taken \/ exists argv, steps p.1 = taken ++ [Launched argv] /\ handed_over args argv p.1);
  ct_success : forall doc, p.2 = Ok (EXIT_SUCCESS, doc) -> command args <> RunLegacy -> verified args doc p.1;
}.

(** A session that ran the body of a command. *)
Lemma session_took {A} p us (m : CM A) s x : session_ends p us m s x -> took p (steps s) (device s).
Proof. destruct 1; econstructor. Qed.

Lemma session_conduct {A} p us (m : CM A) cmd s x : session_ends p us m s x ->
  (forall t, tape t = [] -> conduct cmd (tape (Client.transport (m (fresh_client t)).1))) -> forall w, device s = Some w -> conduct cmd (tape w).
Proof.
  intros Hs Hm w Hw. destruct Hs as [e|e|t w' e Ho Hd Ht|t c r w' x Ho Hd Ht Hr Htp Hx]; cbn in Hw; try done; injection Hw as <-.
  - rewrite Ht. constructor.
  - specialize (Hm t Ht). rewrite Hr in Hm. by rewrite Htp.
Qed.

Lemma session_returns {A} p us (m : CM A) s a : session_ends p us m s (Ok a) ->
  exists t c w, tape t = [] /\ m (fresh_client t) = (c, Ok a) /\ s = mkCli (Some w) (Some c) [Locked p; opening p us; Closed; Unlocked] /\ tape w = tape (Client.transport c).
Proof.
  intros Hs. inversion Hs as [| | |t c r w x Ho Hd Ht Hm Htp Hx]; subst. by exists t, c, w.
Qed.

Lemma usable_pos t us : usable t = Some us -> 0 < us.
Proof. unfold usable. destruct t as [u|]; [|done]. destruct (u <=? 0) eqn:E; [done|]. intros [= <-]. bool_inv. lia. Qed.

(** A command whose whole work is one session. *)
Lemma one_session args us (m : CM (Z * document)) : usable (timeout args) = Some us ->
  (forall t, tape t = [] -> halts (m (fresh_client t)).2) ->
  (forall t, tape t = [] -> conduct (command args) (tape (Client.transport (m (fresh_client t)).1))) ->
  (forall t c w doc, tape t = [] -> m (fresh_client t) = (c, Ok (EXIT_SUCCESS, doc)) -> tape w = tape (Client.transport c) ->
     verified args doc (mkCli (Some w) (Some c) [Locked (port args); opening (port args) us; Closed; Unlocked])) ->
  contained args (_session deps (port args) us (fun t => with_client deps us t m) Cli_start).
Proof.
  intros Hu Hh Hc Hv. pose proof (session_spec (port args) us m (usable_pos _ _ Hu) Hh) as Hs. cbv zeta in Hs.
  destruct (_session _ _ _ _ _) as [s x]; cbn [fst snd] in Hs. split; cbn [fst snd].
  - destruct Hs as [e|e|t w e Ho Hd Ht|t c r w x Ho Hd Ht Hr Htp Hx]; try done. by destruct x.
  - by eapply session_conduct.
  - exists (steps s). split; [by eapply session_took|by left].
  - intros doc -> _. apply session_returns in Hs as (t & c & w & Ht & Hm & -> & Hw). by eapply Hv.
Qed.

Definition prepared : document := [("mode", JStr "v1"); ("volatile_settings_reset", JBool true)].

Lemma v1_conduct {A} us (a : A) cmd t : 0 < us -> cmd ∈ [LeaveV2; PrepareLegacy; RunLegacy] -> tape t = [] ->
  conduct cmd (tape (Client.transport ((_ ← _reset_and_verify_v1 deps us; mret a) (fresh_client t)).1)).
Proof. intros Hus Hcmd Ht. destruct (verify_run us Hus a t Ht) as (_ & (es & -> & Hf) & _). by apply cd_v1. Qed.

Lemma prepare_ends args us : usable (timeout args) = Some us -> command args = PrepareLegacy \/ command args = RunLegacy ->
  let p := _prepare deps (port args) us Cli_start in
  halts p.2 /\ (forall w, device p.1 = Some w -> conduct (command args) (tape w)) /\ took (port args) (steps p.1) (device p.1)
  /\ forall doc, p.2 = Ok doc -> doc = prepared /\ exists w c ts, device p.1 = Some w /\ client p.1 = Some c
       /\ shape ∅ V1 false c /\ speaks (tape w) ts /\ v1_barrier ts.
Proof.
  intros Hu Hcmd. pose proof (usable_pos _ _ Hu) as Hus. cbv zeta. unfold _prepare.
  pose proof (session_spec (port args) us (_ ← _reset_and_verify_v1 deps us; mret prepared) Hus
    (fun t Ht => proj1 (verify_run us Hus prepared t Ht))) as Hs. cbv zeta in Hs. fold prepared.
  destruct (_session _ _ _ _ _) as [s x]; cbn [fst snd] in *. split_and!.
  - destruct Hs as [e|e|t w e Ho Hd Ht|t c r w x Ho Hd Ht Hr Htp Hx]; try done. by destruct x.
  - eapply session_conduct; [done|]. intros t Ht. apply v1_conduct; [done| |done]. destruct Hcmd as [->| ->]; set_solver.
  - by eapply session_took.
  - intros doc ->. apply session_returns in Hs as (t & c & w & Ht & Hm & -> & Hw).
    destruct (verify_run us Hus prepared t Ht) as (_ & _ & Hok). rewrite Hm in Hok. destruct (Hok doc eq_refl) as (-> & Hc & ts & Hsp & Hb).
    split; [done|]. exists w, c, ts. rewrite Hw. done.
Qed.

Lemma detect_body us t : 0 < us -> tape t = [] ->
  let p := (result ← _detect deps us; mret (EXIT_SUCCESS, detected result.1 result.2)) (fresh_client t) in
  halts p.2 /\ (exists es, tape (Client.transport p.1) = Wrote (line "stop") :: es /\ Forall (permitted detect_word) es)
  /\ forall doc, p.2 = Ok (EXIT_SUCCESS, doc) -> exists b v ts, doc = detected b v /\ speaks (tape (Client.transport p.1)) ts /\ detection b v ts.
Proof.
  intros Hus Ht. destruct (detect_run us Hus t Ht) as (Hh & Hes & Hok). rewrite bind_case.
  destruct (_detect deps us (fresh_client t)) as [c [[b v]|e|]]; cbn [fst snd] in *; [| |done].
  - split; [done|]. split; [done|]. intros doc [= <-]. destruct (Hok b v eq_refl) as (_ & ts & ? & ?). by exists b, v, ts.
  - split; [done|]. split; [done|]. done.
Qed.

Lemma enter_body us crc_wanted t : 0 < us -> tape t = [] ->
  let p := (doc ← enter_v2 deps crc_wanted us; mret (EXIT_SUCCESS, doc)) (fresh_client t) in
  halts p.2 /\ conduct EnterV2 (tape (Client.transport p.1))
  /\ forall doc, p.2 = Ok (EXIT_SUCCESS, doc) -> exists v ts,
      (doc = detected false v /\ speaks (tape (Client.transport p.1)) ts /\ detection false v ts)
      \/ (doc = entered v crc_wanted /\ (exists e1 e2, tape (Client.transport p.1) = e1 ++ e2 /\ speaks e1 ts /\ detection true v ts)
          /\ shape ∅ V2 crc_wanted p.1).
Proof.
  intros Hus Ht. destruct (enter_run us Hus crc_wanted t Ht) as (Hh & e1 & e2 & Htp & Hf1 & He2 & Hok). rewrite bind_case.
  destruct (enter_v2 deps crc_wanted us (fresh_client t)) as [c x]; cbn [fst snd] in *.
  assert (conduct EnterV2 (tape (Client.transport c))) as Hc.
  { rewrite Htp. destruct He2 as [->|(v & ts & ? & ? & ?)]; [rewrite app_nil_r; apply cd_detect; [set_solver|done]|by eapply cd_enter]. }
  destruct x as [d|e|]; unfold mret, M_ret; cbn [fst snd]; [|by split; [|split]|done]. split; [done|]. split; [done|]. intros doc [= <-].
  destruct (Hok d eq_refl) as (v & ts & Hsp & [(-> & -> & Hd & _)|(-> & Hd & Hs)]); exists v, ts; rewrite Htp.
  - left. by rewrite app_nil_r.
  - right. split; [done|]. split; [by eexists _, _|done].
Qed.

(** ** Runs *)

Lemma no_session args r : halts r -> (forall doc, r = Ok (EXIT_SUCCESS, doc) -> False) -> contained args (Cli_start, r).
Proof.
  intros Hh Hr. split; cbn [fst snd]; [done|done| |].
  - exists []. split; [constructor|by left].
  - intros doc Hd. by destruct (Hr doc).
Qed.

Lemma legacy_contained args us : usable (timeout args) = Some us -> command args = RunLegacy ->
  contained args ((_ ← _prepare deps (port args) us;
            let application := child_argv (application args) in
            if bool_decide (application = []) then mret (EXIT_USAGE, [("error", JStr "run-legacy requires an application after --")])
            else
              _ ← note (Launched application);
              match runner deps application with
              | Ok status => mret (status, [("prepared", JBool true); ("child_exit", JInt status)])
              | Err e =>
                  if isinstance e (Builtin OSError) then mret (EXIT_CHILD_LAUNCH, [("error", JStr (exn_msg e)); ("prepared", JBool true)])
                  else raise (Raised e)
              | OutOfFuel => liftR OutOfFuel
              end) Cli_start).
Proof.
  intros Hu Hcmd. destruct (prepare_ends args us Hu (or_intror Hcmd)) as (Hh & Hc & Ht & Hok). rewrite bind_case.
  destruct (_prepare deps (port args) us Cli_start) as [s [doc|e|]]; cbn [fst snd] in *; [| |done].
  - destruct (Hok doc eq_refl) as (_ & w & c & ts & Hd & Hcl & Hsh & Hsp & Hb). cbv zeta. case_bool_decide as Ha.
    + split; cbn; [done|done| |done]. exists (steps s). split; [done|by left].
    + rewrite bind_case. cbn [note modifyS]. unfold note, modifyS. pose proof (runner_halts (child_argv (application args))) as Hrun.
      assert (forall r : res cli_exn (Z * document), halts r -> contained args (mkCli (device s) (client s) (steps s ++ [Launched (child_argv (application args))]), r)) as Hgo.
      { intros r Hr. split; cbn [fst snd device client steps]; [done|done| |done]. exists (steps s). split; [done|]. right.
        exists (child_argv (application args)). split; [done|]. split_and!; try done. by exists w, c, ts. }
      destruct (runner deps _) as [n|e|]; [by apply Hgo| |done]. by destruct (isinstance e _); apply Hgo.
  - split; cbn [fst snd]; [done|done| |done]. exists (steps s). split; [done|by left].
Qed.

Lemma perform_contained args : contained args (perform deps args Cli_start).
Proof.
  unfold perform. destruct (usable (timeout args)) as [us|] eqn:Hu; [|by apply no_session]. pose proof (usable_pos _ _ Hu) as Hus.
  destruct (_ && no_reset args); [by apply no_session|]. destruct (command args) eqn:Hcmd.
  - apply one_session; [done| | |]; rewrite ?Hcmd.
    + intros t Ht. by apply detect_body.
    + intros t Ht. destruct (detect_body us t Hus Ht) as (_ & (es & -> & Hf) & _). apply cd_detect; [set_solver|done].
    + intros t c w doc Ht Hm Hw. destruct (detect_body us t Hus Ht) as (_ & _ & Hok). rewrite Hm in Hok. destruct (Hok doc eq_refl) as (b & v & ts & ? & ? & ?).
      exists w, ts. rewrite Hcmd, Hw. split; [done|]. by exists b, v.
  - apply one_session; [done| | |]; rewrite ?Hcmd.
    + intros t Ht. by apply enter_body.
    + intros t Ht. by apply enter_body.
    + intros t c w doc Ht Hm Hw. destruct (enter_body us (crc args) t Hus Ht) as (_ & _ & Hok). rewrite Hm in Hok.
      destruct (Hok doc eq_refl) as (v & ts & [Hv|(? & ? & ?)]); exists w, ts; rewrite Hcmd, Hw; (split; [done|]); exists v; [by left|right].
      split; [done|]. split; [done|]. by exists c.
  - apply one_session; [done| | |]; rewrite ?Hcmd.
    + intros t Ht. by apply verify_run.
    + intros t Ht. apply v1_conduct; [done|set_solver|done].
    + intros t c w doc Ht Hm Hw. destruct (verify_run us Hus (EXIT_SUCCESS, [("mode", JStr (mode_value V1)); ("method", JStr "safe-stop-reset-fallback")]) t Ht) as (_ & _ & Hok).
      rewrite Hm in Hok. destruct (Hok _ eq_refl) as (Hd & _ & ts & ? & ?). injection Hd as ->. exists w, ts. by rewrite Hcmd, Hw.
  - destruct (prepare_ends args us Hu (or_introl Hcmd)) as (Hh & Hc & Ht & Hok). rewrite bind_case.
    destruct (_prepare deps (port args) us Cli_start) as [s [doc|e|]]; cbn [fst snd] in *; [| |done].
    + destruct (Hok doc eq_refl) as (-> & w & c & ts & Hd & _ & _ & Hsp & Hb). split; cbn [fst snd]; [done|done| |].
      * exists (steps s). split; [done|by left].
      * intros doc [= <-] _. exists w, ts. by rewrite Hcmd.
    + split; cbn [fst snd]; [done|done| |done]. exists (steps s). split; [done|by left].
  - by apply legacy_contained.
Qed.

Lemma exit_nonzero e code doc : exit_of e = Some (code, doc) -> code <> EXIT_SUCCESS.
Proof. unfold exit_of. destruct e as [x|m|m|m]; repeat case_match; intros [= <- <-]; done. Qed.

Lemma execute_contained args : contained args (execute deps args Cli_start).
Proof.
  pose proof (perform_contained args) as [Hh Ht Hs Hok]. unfold execute, try_except.
  destruct (perform deps args Cli_start) as [s [x|e|]]; cbn [fst snd] in *; [by split|..|done].
  destruct (exit_of e) as [[code doc]|] eqn:Ee; split; cbn; try done. intros doc' [= -> ->]. by apply exit_nonzero in Ee.
Qed.

(** C8: whatever the controller, the driver, the lock and the child do, a run of the switcher ends; it
    gives back what it took; the first thing it writes is the universal stop; it writes the
    words of its subcommand only, and no activation before a detection that was answered with [protocol:2 available]; a
    legacy application is started only by [run-legacy], after a session that heard [Ready] after its reset and the
    answer to [ping], and after the port was released; and exit 0 is given only for the dialogue that the subcommand
    promises, with the client in the mode and the CRC setting that are reported. *)
Theorem cli_run_contained (args : Namespace) : contained args (execute deps args Cli_start).
Proof. apply execute_contained. Qed.
End CliSpec.

(** ** Runs of the compatibility switcher

    The switcher on scripted controllers: a v1-only one, one with v2, and one that never says [Ready]. *)

Definition nl (s : string) : string := s +:+ String LF "".

Definition scripted_close : M (Tapped ScriptedTransport) cli_exn unit := fun w => (mkTapped (sc_close (inner w)) (tape w), Ok tt).

(** A port of Windows, where DTR is suppressed, or of another system, where it is not. *)
Definition demo_deps (guaranteed : bool) (inc rst : list string) : Dependencies (Tapped ScriptedTransport) :=
  mkDependencies _ (fun _ _ _ => Ok (mkTapped (ScriptedTransport_init (nl <$> inc) (nl <$> rst)) []))
    (fun _ => guaranteed) (tapped sc_reset (fun _ => [Restarted])) scripted_close (fun _ => Ok tt) (fun _ => Ok tt) (fun _ => Ok 7).

#[export] Instance demo_laws guaranteed inc rst : CliLaws (demo_deps guaranteed inc rst).
Proof. by split; try done; intros p b us w [= <-]. Qed.

Definition demo_args (c : Command) (app : list string) : Namespace := mkNamespace c "COM3" (Finite 1000000) false true app false true.

Definition started : list string := ["Ready"; " ok"; "CS71 1.0"].
Definition activation : list string :=
  ["protocol:2 available"; "protocol:2 ready"; "@1 data:protocol=2"; "@1 done";
   "@2 data:protocol=2 max_line=64 crc=none"; "@2 data:queue_depth=2 slot_max=102 slot_count=8"; "@2 data:pwm=0 airdrop=1 feed_sensor=1";
   "@2 data:feed_home=1 sort_home=1"; "@2 done";
   "@3 data:mode=running phase=idle feed_homed=1"; "@3 data:sort_homed=1 motor_enabled=0 active_id=none";
   "@3 data:fault_code=0 queue_previous=0 queue_next=0"; "@3 data:config_generation=0"; "@3 done"].
Definition with_crc : string := match append_crc "@4 done:crc=on" with Ok s => s | _ => "" end.

Definition demo_run (guaranteed : bool) (rst : list string) (args : Namespace) := execute (demo_deps guaranteed ["stopped"] rst) args Cli_start.
Definition written (s : Cli (Tapped ScriptedTransport)) : list string := default [] ((fun w => writes (inner w)) <$> device s).

(** Old firmware is told apart and never activated. *)
Example detect_old : let p := demo_run true (started ++ ["ok"]) (demo_args Detect []) in
  (p.2, written p.1) = (Ok (EXIT_SUCCESS, detected false "CS71 1.0"), nl <$> ["stop"; "ping"; "version"; "protocol:2?"]).
Proof. vm_compute. reflexivity. Qed.

Example enter_new : let p := demo_run true (started ++ activation ++ [with_crc]) (demo_args EnterV2 []) in
  (p.2, written p.1) = (Ok (EXIT_SUCCESS, entered "CS71 1.0" true),
    nl <$> ["stop"; "ping"; "version"; "protocol:2?"; "protocol:2"; "@1 protocolversion"; "@2 capabilities"; "@3 status"; "@4 crc:on"]).
Proof. vm_compute. reflexivity. Qed.

(** On a system that does not suppress DTR nothing at all is written. *)
Example unsafe_port : let p := demo_run false started (demo_args PrepareLegacy []) in
  (fst <$> match p.2 with Ok x => Some x | _ => None end, written p.1, steps p.1)
  = (Some EXIT_DTR_GUARANTEE, [], [Locked "COM3"; Opened "COM3" 9600 50000; Closed; Unlocked]).
Proof. vm_compute. reflexivity. Qed.

(** The application is started when the port was released, and its status is the tool's. *)
Example run_child : let p := demo_run true started (demo_args RunLegacy ["--"; "sorter.exe"; "--json"]) in
  (p.2, steps p.1) = (Ok (7, [("prepared", JBool true); ("child_exit", JInt 7)]),
    [Locked "COM3"; Opened "COM3" 9600 50000; Closed; Unlocked; Launched ["sorter.exe"; "--json"]]).
Proof. vm_compute. reflexivity. Qed.

(** A controller that does not start again. *)
Example no_ready : fst <$> match (demo_run true ["Hello"] (demo_args PrepareLegacy [])).2 with Ok x => Some x | _ => None end = Some EXIT_RECOVERY.
Proof. vm_compute. reflexivity. Qed.

(** A usage error is printed as JSON when [--json] is an argument of the child only. *)
Example json_of_the_child : usage_error ["run-legacy"; "--port"; "COM3"; "--timeout"; "0"; "--"; "sorter.exe"; "--json"] "usage" "--timeout must be finite and greater than zero"
  = [Stdout (sorted_dumps [("ok", JBool false); ("exit_code", JInt 2); ("error", JStr "--timeout must be finite and greater than zero")])].
Proof. vm_compute. reflexivity. Qed.

Lemma cli_run_contained_witness :
  contained (demo_args EnterV2 [])
    (execute (demo_deps true ["stopped"] (started ++ activation ++ [with_crc])) (demo_args EnterV2 []) Cli_start).
Proof. apply (cli_run_contained (demo_deps true ["stopped"] (started ++ activation ++ [with_crc])) (demo_args EnterV2 [])). Defined.
