(* ===== verification/SerialPort.v ===== *)
(** * The serial port and its lock (host/src/cs71_protocol/transport.py, locking.py)

    [SerialTransport] over pyserial, which is a parameter, and [PortLock] over the advisory file locks of the operating
    system: a file is locked by at most one open handle, and closing the handle unlocks it. At the end both are the
    default dependencies of the switcher, and the theorems of HostCliSpec hold of it as it is installed. *)
From S2P Require Import Prelude PyString Errors Framing Transport Client Wiretap HostCli HostCliSpec.

(** ** [SerialTransport] *)

(** What the source uses of a [serial.Serial] object: its construction without a port, with or without
    [exclusive], its attributes, and its methods. *)
Record Pyserial (S : Type) := mkPyserial {
  importable : bool;
  new_serial : bool -> Z -> Z -> result S;
  backend_module : S -> string;
  set_dtr : bool -> M S exn unit;
  assign_port : string -> M S exn unit;
  open_port : M S exn unit;
  is_open : S -> bool;
  close_port : M S exn unit;
  serial_timeout : S -> option Z;
  set_timeout : option Z -> M S exn unit;
  serial_read : Z -> M S exn string;
  serial_write : string -> M S exn (option Z);
}.
Arguments importable {S}.
Arguments new_serial {S}.
Arguments backend_module {S}.
Arguments set_dtr {S}.
Arguments assign_port {S}.
Arguments open_port {S}.
Arguments is_open {S}.
Arguments close_port {S}.
Arguments serial_timeout {S}.
Arguments set_timeout {S}.
Arguments serial_read {S}.
Arguments serial_write {S}.

Record SerialTransport (S : Type) := mkSerialTransport { serial : S; guaranteed : bool }.
Arguments mkSerialTransport {S}.
Arguments serial {S}.
Arguments guaranteed {S}.

Definition supports_preopen_dtr_suppression (platform module : string) : bool :=
  bool_decide (platform = "win32") && bool_decide (module = "serial.serialwin32").

Section Serial.
Context {S : Type} (py : Pyserial S) (platform : string).

(** What [SerialTransport.open] leaves: the pyserial object it made, and its outcome. *)
Definition left_with (s : S) {A} (r : result A) : option S * result A := (Some s, r).

Definition construct (baudrate timeout : Z) : result S :=
  match new_serial py true baudrate timeout with
  | Err e => if isinstance e (Builtin TypeError) then new_serial py false baudrate timeout else Err e
  | r => r
  end.

(** From [raw.dtr = False] on. *)
Definition open_suppressed (port : string) (raw : S) : option S * result (SerialTransport S) :=
  match set_dtr py false raw with
  | (raw, Err _) => left_with raw (throw (Protocol DtrSuppressionError) "serial driver cannot suppress DTR before opening the port")
  | (raw, OutOfFuel) => left_with raw OutOfFuel
  | (raw, Ok _) =>
      if negb (supports_preopen_dtr_suppression platform (backend_module py raw))
      then left_with (close_port py raw).1
             (throw (Protocol DtrSuppressionError) "pre-open DTR suppression is only guaranteed for the Windows pyserial backend")
      else
        match (_ ← assign_port py port; open_port py) raw with
        | (raw, Ok _) => left_with raw (Ok (mkSerialTransport raw true))
        | (raw, Err e) =>
            if is_open py raw then
              match close_port py raw with
              | (raw, Err e') => left_with raw (Err e')
              | (raw, _) => left_with raw (Err e)
              end
            else left_with raw (Err e)
        | (raw, OutOfFuel) => left_with raw OutOfFuel
        end
  end.

Definition SerialTransport_open (port : string) (baudrate timeout : Z) : option S * result (SerialTransport S) :=
  if negb (importable py) then (None, throw (Builtin RuntimeError) "Install cs71-protocol[serial] to open serial ports")
  else
    match construct baudrate timeout with
    | Err e => (None, Err e)
    | OutOfFuel => (None, OutOfFuel)
    | Ok raw => open_suppressed port raw
    end.

(** The methods of an open transport, on its pyserial object. *)
Definition st_read (size : Z) (timeout : option Z) : M S exn string :=
  match timeout with
  | None => serial_read py size
  | Some timeout => fun s =>
      let previous := serial_timeout py s in
      let limited := match previous with None => timeout | Some p => Z.min p timeout end in
      try_case (_ ← set_timeout py (Some limited); serial_read py size)
        (fun data => _ ← set_timeout py previous; mret data)
        (fun e => _ ← set_timeout py previous; raise e) s
  end.
Definition st_write (data : string) : M S exn (option Z) := serial_write py data.
Definition st_reset : M S exn unit := _ ← set_dtr py false; set_dtr py true.
Definition st_close : M S exn unit := close_port py.

(** The port is opened on the supported backend only, after DTR was set low; nowhere else is [open] called: a
    refusal leaves the object as it was made, or closed. *)
Theorem serial_open_suppressed (port : string) (baudrate timeout : Z) :
  match SerialTransport_open port baudrate timeout with
  | (o, Ok tr) => exists raw low,
      construct baudrate timeout = Ok raw /\ set_dtr py false raw = (low, Ok tt)
      /\ platform = "win32" /\ backend_module py low = "serial.serialwin32"
      /\ (_ ← assign_port py port; open_port py) low = (serial tr, Ok tt) /\ o = Some (serial tr) /\ guaranteed tr = true
  | (_, Err e) => platform <> "win32" -> isinstance e (Protocol DtrSuppressionError) = true \/ construct baudrate timeout = Err e
      \/ importable py = false
  | (_, OutOfFuel) => True
  end.
Proof.
  unfold SerialTransport_open. destruct (importable py); cbn [negb]; [|cbn; by auto].
  destruct (construct baudrate timeout) as [raw|e|] eqn:Ec; [|by auto|done].
  unfold open_suppressed. destruct (set_dtr py false raw) as [low [[]|e|]] eqn:Ed; [|by left|done].
  destruct (supports_preopen_dtr_suppression _ _) eqn:Es; cbn [negb]; [|by left].
  apply andb_true_iff in Es as [Hp%bool_decide_eq_true Hm%bool_decide_eq_true].
  destruct ((_ ← assign_port py port; open_port py) low) as [raw2 [[]|e|]] eqn:Eo; [|destruct (is_open py raw2); [destruct (close_port py raw2) as [? [?|?|]]|]; intros Hn; by destruct (Hn Hp)|done].
  by exists raw, low.
Qed.
End Serial.

(** A bounded read gives the timeout back, whatever the read does. *)
Theorem read_restores_timeout {S} (py : Pyserial S) (size t : Z) (s : S) :
  (forall o s, (set_timeout py o s).2 = Ok tt /\ serial_timeout py (set_timeout py o s).1 = o) ->
  (forall n s, halts (serial_read py n s).2) ->
  serial_timeout py (st_read py size (Some t) s).1 = serial_timeout py s.
Proof.
  intros Hset Hread. unfold st_read, try_case, mbind, M_bind. destruct (Hset (Some (match serial_timeout py s with None => t | Some p => Z.min p t end)) s) as [H1 _].
  destruct (set_timeout py _ s) as [s1 [[]|e|]]; cbn in H1; try done. specialize (Hread size s1).
  destruct (serial_read py size s1) as [s2 [d|e|]]; cbn in *; [| |done];
    destruct (Hset (serial_timeout py s) s2) as [H2 H3]; destruct (set_timeout py (serial_timeout py s) s2) as [s3 [[]|e'|]]; cbn in *; done.
Qed.

(** ** [PortLock] *)

(** One process's lock object; [_file] is its handle. *)
Record PortLock := mkPortLock { path : string; _file : option nat }.

(** What is open and locked on the machine. [fcntl.flock] locks a whole file, [msvcrt.locking] bytes of it: those that
    start where the file pointer stands, which an appended byte leaves at the end of the file. Both belong to a handle,
    and a byte that one handle locked is written by no other. *)
Record Locks := mkLocks {
  open_files : gset nat;
  locked : gmap string nat;
  file_length : gmap string nat;
  byte_locks : gmap (string * nat) nat;
  next_handle : nat;
}.
Definition length_of (l : Locks) (q : string) : nat := default 0%nat (file_length l !! q).

(** What the system answers: its [os.name], and whether the directory can be made, the file opened and written, and a
    file unlocked. *)
Record FileSystem := mkFileSystem {
  os_name : string;
  mkdir : string -> option exn;
  open_append : string -> option exn;
  append_fails : string -> option exn;
  unlock_fails : option exn;
}.
Definition nt (fs : FileSystem) : bool := bool_decide (os_name fs = "nt").

Definition PortLock_init (digest : string -> string) (root port : string) : PortLock :=
  mkPortLock (root +:+ "/cs71-protocol/locks/" +:+ digest port +:+ ".lock") None.

Definition LM := M (PortLock * Locks) cli_exn.

(** [except OSError as exc: raise PortLockError(...)]; what is no [OSError] passes. *)
Definition lock_error (message : string) (e : exn) : cli_exn := if isinstance e (Builtin OSError) then PortLockError message else Raised e.

(** [handle.close()]: the system lets go of what the handle locked. *)
Definition close_handle (h : nat) (l : Locks) : Locks :=
  mkLocks (open_files l ∖ {[h]}) (filter (fun kv => kv.2 <> h) (locked l)) (file_length l) (filter (fun kv => kv.2 <> h) (byte_locks l))
    (next_handle l).

(** [open(self.path, "a+b")] *)
Definition open_handle (q : string) (l : Locks) : Locks :=
  mkLocks ({[next_handle l]} ∪ open_files l) (locked l) (<[q := length_of l q]> (file_length l)) (byte_locks l) (Datatypes.S (next_handle l)).

Definition permission_denied : exn := mk_exn (Builtin OSError) "[Errno 13] Permission denied".

(** [handle.seek(0); handle.write(b"0"); handle.flush()]: the file is open for appending, so the byte goes to its end,
    and the pointer stands behind it. *)
Definition append_byte (fs : FileSystem) (q : string) (l : Locks) : Locks * (nat + exn) :=
  let size := length_of l q in
  match append_fails fs q, byte_locks l !! (q, size) with
  | Some e, _ => (l, inr e)
  | None, Some _ => (l, inr permission_denied)
  | None, None => (mkLocks (open_files l) (locked l) (<[q := Datatypes.S size]> (file_length l)) (byte_locks l) (next_handle l), inl (Datatypes.S size))
  end.

(** The Windows branch: when the byte cannot be written the handle is not closed, but holds nothing. *)
Definition acquire_nt (fs : FileSystem) (h : nat) : LM unit := fun '(p, l) =>
  match append_byte fs (path p) l with
  | (l, inr e) => ((p, l), Err (lock_error ("cannot lock serial port: " +:+ path p) e))
  | (l, inl pos) =>
      match byte_locks l !! (path p, pos) with
      | Some _ => ((p, close_handle h l), Err (PortLockError ("serial port is already locked: " +:+ path p)))
      | None => ((mkPortLock (path p) (Some h),
                  mkLocks (open_files l) (locked l) (file_length l) (<[(path p, pos) := h]> (byte_locks l)) (next_handle l)), Ok tt)
      end
  end.

Definition acquire_posix (h : nat) : LM unit := fun '(p, l) =>
  match locked l !! path p with
  | Some _ => ((p, close_handle h l), Err (PortLockError ("serial port is already locked: " +:+ path p)))
  | None => ((mkPortLock (path p) (Some h),
              mkLocks (open_files l) (<[path p := h]> (locked l)) (file_length l) (byte_locks l) (next_handle l)), Ok tt)
  end.

Definition acquire (fs : FileSystem) : LM unit := fun '(p, l) =>
  match mkdir fs (path p) with
  | Some e => ((p, l), Err (Raised e))
  | None =>
      match open_append fs (path p) with
      | Some e => ((p, l), Err (lock_error ("cannot lock serial port: " +:+ path p) e))
      | None =>
          let h := next_handle l in
          (if nt fs then acquire_nt fs h else acquire_posix h) (p, open_handle (path p) l)
      end
  end.

(** [handle.seek(0); msvcrt.locking(handle.fileno(), msvcrt.LK_UNLCK, 1)]: the byte must have been locked before. *)
Definition unlock_first_byte (q : string) (h : nat) (l : Locks) : option exn :=
  if bool_decide (byte_locks l !! (q, 0%nat) = Some h) then None else Some permission_denied.

(** [release]: unlocking may fail, closing the handle unlocks all the same. *)
Definition release (fs : FileSystem) : LM unit := fun '(p, l) =>
  match _file p with
  | None => ((p, l), Ok tt)
  | Some h =>
      let unlock := if nt fs then unlock_first_byte (path p) h l else unlock_fails fs in
      ((mkPortLock (path p) None, close_handle h l), match unlock with None => Ok tt | Some e => Err (Raised e) end)
  end.

(** The process dies: the system closes its handle. *)
Definition crash (p : PortLock) (l : Locks) : Locks := match _file p with None => l | Some h => close_handle h l end.

(** Locks belong to open handles, given out once; a locked byte is the end of its file, and never its first. *)
Record locks_ok (l : Locks) : Prop := {
  lo_open : forall q h, locked l !! q = Some h -> h ∈ open_files l;
  lo_byte : forall q k h, byte_locks l !! (q, k) = Some h -> h ∈ open_files l /\ k = length_of l q /\ (0 < k)%nat;
  lo_next : forall h, h ∈ open_files l -> (h < next_handle l)%nat;
}.
Definition holder (fs : FileSystem) (l : Locks) (q : string) : option nat :=
  if nt fs then byte_locks l !! (q, length_of l q) else locked l !! q.
Definition same_locks (l l' : Locks) : Prop := locked l' = locked l /\ byte_locks l' = byte_locks l.

Section Locking.
Context (fs : FileSystem).

(** A handle just given out has locked nothing; closing it gives the locks back as they were. *)
Lemma fresh_holds_nothing l : locks_ok l ->
  (forall q h, locked l !! q = Some h -> h <> next_handle l) /\ (forall qk h, byte_locks l !! qk = Some h -> h <> next_handle l)
  /\ next_handle l ∉ open_files l.
Proof.
  intros [Ho Hb Hn]. split; [|split]; [intros q h Hq ->; specialize (Hn _ (Ho _ _ Hq)); lia| |intros Hin; specialize (Hn _ Hin); lia].
  intros [q k] h Hq ->. destruct (Hb _ _ _ Hq) as [Hin _]. specialize (Hn _ Hin). lia.
Qed.

Lemma close_handle_ok h l : locks_ok l -> locks_ok (close_handle h l).
Proof.
  intros [Ho Hb Hn]. split; cbn.
  - intros q h' [Hq Hne]%map_lookup_filter_Some. cbn in Hne. apply elem_of_difference. split; [by eapply Ho|by intros ->%elem_of_singleton].
  - intros q k h' [Hq Hne]%map_lookup_filter_Some. cbn in Hne. destruct (Hb _ _ _ Hq) as (H1 & H2 & H3). split_and!; [|done|done].
    apply elem_of_difference. split; [done|by intros ->%elem_of_singleton].
  - intros h' [Hh _]%elem_of_difference. by apply Hn.
Qed.

Lemma length_of_insert a b c d e q n q' : length_of (mkLocks a b (<[q := n]> c) d e) q' = if decide (q = q') then n else default 0%nat (c !! q').
Proof. unfold length_of. cbn. case_decide as E; [subst; by rewrite lookup_insert_eq|by rewrite lookup_insert_ne]. Qed.

Lemma open_handle_length q l q' : length_of (open_handle q l) q' = length_of l q'.
Proof. unfold open_handle. rewrite length_of_insert. by case_decide; subst. Qed.

Lemma open_handle_ok q l : locks_ok l -> locks_ok (open_handle q l).
Proof.
  intros [Ho Hb Hn]. split.
  - intros q' h Hq. specialize (Ho _ _ Hq). cbn. set_solver.
  - intros q' k h Hq. rewrite open_handle_length. destruct (Hb _ _ _ Hq) as (H1 & H2 & H3). split_and!; [cbn; set_solver|done|done].
  - cbn. intros h [->%elem_of_singleton|Hin]%elem_of_union; [lia|specialize (Hn _ Hin); lia].
Qed.

(** What acquiring came to, from the locks [l] before: *)
Definition acquired (p : PortLock) (l : Locks) : (PortLock * Locks) * res cli_exn unit -> Prop := fun '((p', l'), r) =>
  locks_ok l' /\ path p' = path p
  /\ match r with
     | Ok _ =>
         holder fs l (path p) = None /\ _file p' = Some (next_handle l) /\ holder fs l' (path p) = Some (next_handle l)
         /\ (forall q, q <> path p -> holder fs l' q = holder fs l q)
         /\ same_locks l (release fs (p', l')).1.2 /\ same_locks l (crash p' l')
         /\ (release fs (p', l')).2 = match (if nt fs then Some permission_denied else unlock_fails fs) with None => Ok tt | Some e => Err (Raised e) end
     | Err e =>
         p' = p /\ same_locks l l'
         /\ (is_Some (holder fs l (path p)) \/ is_Some (mkdir fs (path p)) \/ is_Some (open_append fs (path p))
             \/ nt fs = true /\ is_Some (append_fails fs (path p)))
     | OutOfFuel => False
     end.

Lemma posix_acquired p l : locks_ok l -> nt fs = false -> acquired p l (acquire_posix (next_handle l) (p, open_handle (path p) l)).
Proof.
  intros Hok Hp. pose proof (open_handle_ok (path p) _ Hok) as Hok1. destruct (fresh_holds_nothing _ Hok) as (Fl & Fb & Fo).
  unfold acquire_posix. cbn [locked open_handle].
  destruct (locked l !! path p) as [h|] eqn:El; unfold acquired, holder, release, crash, same_locks; rewrite ?Hp; cbn [path _file locked byte_locks close_handle fst snd open_handle].
  - split; [by apply close_handle_ok|split; [done|split; [done|split; [|by left]]]].
    split; apply map_filter_id; intros ? ? Hq; cbn; naive_solver.
  - assert (filter (fun kv : string * nat => kv.2 <> next_handle l) (locked l) = locked l) as E1 by (apply map_filter_id; intros ? ? Hq; cbn; naive_solver).
    assert (filter (fun kv : string * nat * nat => kv.2 <> next_handle l) (byte_locks l) = byte_locks l) as E2 by (apply map_filter_id; intros ? ? Hq; cbn; naive_solver).
    assert (filter (fun kv : string * nat => kv.2 <> next_handle l) (<[path p := next_handle l]> (locked l)) = locked l) as E3
      by (rewrite map_filter_insert_False by (cbn; tauto); by rewrite map_filter_delete, E1, delete_id).
    split; [|split_and!; try done; [by rewrite lookup_insert_eq|intros q Hq; by rewrite lookup_insert_ne]].
    destruct Hok1 as [Ho Hb Hn]. split; cbn; [|exact Hb|exact Hn].
    intros q h [[<- <-]|[_ Hq]]%lookup_insert_Some; [set_solver|by apply (Ho q)].
Qed.

Lemma nt_acquired p l : locks_ok l -> nt fs = true -> acquired p l (acquire_nt fs (next_handle l) (p, open_handle (path p) l)).
Proof.
  intros Hok Hp. pose proof (open_handle_ok (path p) _ Hok) as Hok1. destruct (fresh_holds_nothing _ Hok) as (Fl & Fb & Fo).
  assert (filter (fun kv : string * nat => kv.2 <> next_handle l) (locked l) = locked l) as E1 by (apply map_filter_id; intros ? ? Hq; cbn; naive_solver).
  assert (filter (fun kv : string * nat * nat => kv.2 <> next_handle l) (byte_locks l) = byte_locks l) as E2 by (apply map_filter_id; intros ? ? Hq; cbn; naive_solver).
  unfold acquire_nt, append_byte. rewrite open_handle_length. destruct (append_fails fs (path p)) as [e|] eqn:Ea.
  { split_and!; try done. unfold holder. rewrite Hp. right. right. right. by split; eexists. }
  cbn [byte_locks open_handle]. destruct (byte_locks l !! (path p, length_of l (path p))) as [h|] eqn:Eb.
  { split_and!; try done. left. unfold holder. rewrite Hp. by eexists. }
  assert (forall k, byte_locks l !! (path p, k) = None) as Hfree.
  { intros k. destruct (byte_locks l !! (path p, k)) as [h|] eqn:Ek; [|done]. destruct (lo_byte _ Hok _ _ _ Ek) as (_ & -> & _). congruence. }
  rewrite Hfree. unfold acquired, holder, release, crash, same_locks, unlock_first_byte; rewrite Hp; cbn [path _file locked byte_locks close_handle fst snd open_handle open_files file_length next_handle].
  assert (filter (fun kv : string * nat * nat => kv.2 <> next_handle l) (<[(path p, S (length_of l (path p))) := next_handle l]> (byte_locks l)) = byte_locks l) as E3.
  { rewrite map_filter_insert_False by (cbn; tauto). rewrite map_filter_delete, E2. apply delete_id, Hfree. }
  rewrite length_of_insert. destruct (decide (path p = path p)) as [_|]; [|done].
  split; [|split; [done|split; [done|split; [done|split; [by rewrite lookup_insert_eq|split; [|split; [done|split; [done|]]]]]]]].
  - destruct Hok1 as [Ho Hb Hn]. split; [exact Ho| |exact Hn]. cbn [byte_locks open_files].
    intros q k h [[[= <- <-] <-]|[Hne Hq]]%lookup_insert_Some.
    + rewrite length_of_insert. destruct (decide (path p = path p)) as [_|]; [|done]. split_and!; [cbn; set_solver|done|lia].
    + destruct (decide (path p = q)) as [<-|Hqp]; [by rewrite Hfree in Hq|]. destruct (Hb _ _ _ Hq) as (H1 & H2 & H3). split_and!; [done| |done].
      rewrite length_of_insert. destruct (decide (path p = q)); [done|]. exact H2.
  - intros q Hq. rewrite length_of_insert. destruct (decide (path p = q)); [by subst|]. rewrite lookup_insert_ne by congruence.
    f_equal. f_equal. exact (open_handle_length (path p) l q).
  - rewrite bool_decide_eq_false_2; [done|]. rewrite lookup_insert_ne by (intros [= ?]; lia). by rewrite Hfree.
Qed.

(** A port is locked by one lock object at a time, whoever made it, on either system: acquiring succeeds exactly when
    no other handle holds the file (and the file can be opened, and on Windows written); a refusal holds nothing;
    releasing, or dying, frees the port for the next one. But on Windows [release] always raises: it unlocks the first
    byte of the file, and locked is the byte behind the one that [acquire] wrote. *)
Theorem port_lock_exclusive (p : PortLock) (l : Locks) : locks_ok l -> acquired p l (acquire fs (p, l)).
Proof.
  intros Hok. unfold acquire. destruct (mkdir fs (path p)) eqn:Em; [split_and!; try done; right; left; by eexists|].
  destruct (open_append fs (path p)) eqn:Eo; [split_and!; try done; right; right; left; by eexists|].
  destruct (nt fs) eqn:En; [by apply nt_acquired|by apply posix_acquired].
Qed.
End Locking.

(** ** The default [Dependencies]: [SerialTransport.open], [PortLock] and [subprocess.run] *)

(** A pyserial object with the clock of the process beside it. *)
Class SerialDriver (S : Type) := {
  driver : Pyserial S;
  process_monotonic : S -> S * Z;
  process_sleep : Z -> S -> S;
  process_clock : S -> Z;
  undelivered : S -> nat;
}.

(** What pyserial documents: [read] returns at most what was asked, and consumes it; what its methods raise are
    [SerialException] (an [OSError]) and [ValueError]; every call returns; time does not go back. *)
Class SerialDriverLaws (S : Type) `{SerialDriver S} : Prop := {
  now_le s : process_clock s <= (process_monotonic s).2;
  now_after s : (process_monotonic s).2 <= process_clock (process_monotonic s).1;
  now_undelivered s : (undelivered (process_monotonic s).1 <= undelivered s)%nat;
  sleep_lasts d s : process_clock s + d <= process_clock (process_sleep d s);
  sleep_undelivered d s : (undelivered (process_sleep d s) <= undelivered s)%nat;
  serial_read_clock n s : process_clock s <= process_clock (serial_read driver n s).1;
  serial_read_out n s : 0 <= n ->
    match (serial_read driver n s).2 with
    | Ok d => (undelivered (serial_read driver n s).1 + String.length d <= undelivered s)%nat /\ slen d <= n
    | Err e => (undelivered (serial_read driver n s).1 <= undelivered s)%nat /\ os_error e = true
    | OutOfFuel => False
    end;
  serial_read_ends n s : halts (serial_read driver n s).2;
  serial_write_clock d s : process_clock s <= process_clock (serial_write driver d s).1;
  serial_write_out d s : match (serial_write driver d s).2 with Ok _ => True | Err e => os_error e = true | OutOfFuel => False end;
  timeout_clock o s : process_clock s <= process_clock (set_timeout driver o s).1;
  timeout_undelivered o s : (undelivered (set_timeout driver o s).1 <= undelivered s)%nat;
  timeout_out o s : match (set_timeout driver o s).2 with Ok _ => True | Err e => os_error e = true | OutOfFuel => False end;
  new_ends x b t : halts (new_serial driver x b t);
  dtr_ends b s : halts (set_dtr driver b s).2;
  assign_ends p s : halts (assign_port driver p s).2;
  open_ends s : halts (open_port driver s).2;
  close_ends s : halts (close_port driver s).2;
}.

Definition on_serial {S A} (m : M S exn A) : M (SerialTransport S) exn A := fun t =>
  let p := m (serial t) in (mkSerialTransport p.1 (guaranteed t), p.2).

#[export] Instance serial_stream {S} `{SerialDriver S} : ByteStream (SerialTransport S) := {
  bs_read n o := on_serial (st_read driver n o);
  bs_write d := on_serial (st_write driver d);
  bs_reset := Some (on_serial (st_reset driver));
  bs_monotonic t := (mkSerialTransport (process_monotonic (serial t)).1 (guaranteed t), (process_monotonic (serial t)).2);
  bs_sleep d t := mkSerialTransport (process_sleep d (serial t)) (guaranteed t);
  bs_clock t := process_clock (serial t);
  bs_pending t := undelivered (serial t);
}.

(** A bounded read is as good as the read inside it: the two assignments of the timeout around it may fail, but take
    nothing and go nowhere back in time. *)
Lemma st_read_out {S} `{SerialDriverLaws S} n o s :
  process_clock s <= process_clock (st_read driver n o s).1 /\
  (0 <= n -> match (st_read driver n o s).2 with
             | Ok d => (undelivered (st_read driver n o s).1 + String.length d <= undelivered s)%nat /\ slen d <= n
             | Err e => (undelivered (st_read driver n o s).1 <= undelivered s)%nat /\ os_error e = true
             | OutOfFuel => False
             end).
Proof.
  destruct o as [t|]; cbn [st_read]; [|split; [apply serial_read_clock|apply serial_read_out]].
  unfold try_case, mbind, M_bind, raise. set (l := Some _).
  pose proof (timeout_clock l s) as C1. pose proof (timeout_undelivered l s) as U1. pose proof (timeout_out l s) as O1.
  destruct (set_timeout driver l s) as [s1 [[]|e|]]; cbn [fst snd] in *; [| |done].
  - pose proof (serial_read_clock n s1) as C2. pose proof (serial_read_out n s1) as U2. pose proof (serial_read_ends n s1) as O2.
    destruct (serial_read driver n s1) as [s2 r]; cbn [fst snd] in *.
    pose proof (timeout_clock (serial_timeout driver s) s2) as C3. pose proof (timeout_undelivered (serial_timeout driver s) s2) as U3.
    pose proof (timeout_out (serial_timeout driver s) s2) as O3. destruct r as [d|e|]; [| |done];
      destruct (set_timeout driver (serial_timeout driver s) s2) as [s3 [[]|e'|]]; cbn [fst snd mret M_ret] in *;
      (split; [lia|]); intros Hn; specialize (U2 Hn); try done; destruct U2; (split; [lia|done]).
  - pose proof (timeout_clock (serial_timeout driver s) s1) as C3. pose proof (timeout_undelivered (serial_timeout driver s) s1) as U3.
    pose proof (timeout_out (serial_timeout driver s) s1) as O3.
    destruct (set_timeout driver (serial_timeout driver s) s1) as [s3 [[]|e'|]]; cbn [fst snd] in *; (split; [lia|]); intros _; try done; (split; [lia|done]).
Qed.

#[export] Instance serial_laws {S} `{SerialDriverLaws S} : ByteStreamLaws (SerialTransport S).
Proof.
  split; cbn [bs_read bs_write bs_monotonic bs_sleep bs_clock bs_pending serial_stream on_serial serial fst snd]; intros.
  - apply now_after.
  - apply now_le.
  - apply now_undelivered.
  - apply sleep_lasts.
  - apply sleep_undelivered.
  - apply st_read_out.
  - by apply st_read_out.
  - apply serial_write_clock.
  - apply serial_write_out.
Qed.

(** What the system is besides the driver: [sys.platform], the file system, where the locks of ports live, the locks
    that are held when the command starts, and running a child. *)
Record System := mkSystem {
  platform : string;
  file_system : FileSystem;
  lock_digest : string -> string;
  lock_root : string;
  held : Locks;
  run_child : list string -> result Z;
}.

Section Default.
Context {S : Type} `{SerialDriver S} (sys : System).

Definition default_lock (port : string) : PortLock := PortLock_init (lock_digest sys) (lock_root sys) port.
Definition default_opener (port : string) (baudrate timeout : Z) : res cli_exn (SerialTransport S) :=
  match (SerialTransport_open driver (platform sys) port baudrate timeout).2 with
  | Ok t => Ok t | Err e => Err (Raised e) | OutOfFuel => OutOfFuel
  end.
Definition raising {T A} (m : M T exn A) : M T cli_exn A := fun t =>
  ((m t).1, match (m t).2 with Ok a => Ok a | Err e => Err (Raised e) | OutOfFuel => OutOfFuel end).

Definition default_dependencies : Dependencies (SerialTransport S) :=
  mkDependencies _ default_opener guaranteed (on_serial (st_reset driver)) (raising (on_serial (st_close driver)))
    (fun port => (acquire (file_system sys) (default_lock port, held sys)).2)
    (fun port => (release (file_system sys) (acquire (file_system sys) (default_lock port, held sys)).1).2)
    (run_child sys).
End Default.

(** Any dependencies with their transport recorded. *)
Definition recorded {T} (deps : Dependencies T) : Dependencies (Tapped T) :=
  mkDependencies _
    (fun port baudrate timeout => match opener deps port baudrate timeout with Ok t => Ok (mkTapped t []) | Err e => Err e | OutOfFuel => OutOfFuel end)
    (fun w => dtr_suppression_guaranteed deps (inner w))
    (tapped (transport_reset deps) (fun _ => [Restarted]))
    (fun w => (mkTapped (transport_close deps (inner w)).1 (tape w), (transport_close deps (inner w)).2))
    (lock_acquire deps) (lock_release deps) (runner deps).

(** A run that succeeds, or launches a child, has locked and opened its port and released the lock again. *)
Section Unopened.
Context {T : Type} `{ByteStream T} (deps : Dependencies T).

Definition usable_port (port : string) (us : Z) : Prop :=
  lock_acquire deps port = Ok tt /\ (exists t, opener deps port 9600 (Z.min us 50000) = Ok t /\ dtr_suppression_guaranteed deps t = true)
  /\ lock_release deps port = Ok tt.

Ltac open_session :=
  unfold _session, finally, release_lock, close_device, try_case, mbind, M_bind, liftR, note, set_device, modifyS, raise.

Lemma session_usable {A} p us (body : T -> M (Cli T) cli_exn A) s a :
  (_session deps p us body s).2 = Ok a -> usable_port p us.
Proof.
  open_session. unfold usable_port. destruct (lock_acquire deps p) as [[]|e|]; [|done..].
  destruct (opener deps p 9600 (Z.min us 50000)) as [t|e|]; [|by destruct (lock_release deps p)|done].
  destruct (dtr_suppression_guaranteed deps t) eqn:Ed; cbn [negb].
  - destruct (body t _) as [s1 [v|e|]]; [| |done]; (destruct (transport_close deps _) as [w [v'|e'|]]; cbn [snd]; [..|done]; destruct (lock_release deps p) as [[]|e2|]; try done).
    intros _. split; [done|split; [|done]]. by exists t.
  - destruct (transport_close deps _) as [w [v'|e'|]]; cbn [snd]; [..|done]; by destruct (lock_release deps p).
Qed.

Lemma session_opened {A} p us (body : T -> M (Cli T) cli_exn A) s w :
  device s = None -> device (_session deps p us body s).1 = Some w ->
  lock_acquire deps p = Ok tt /\ exists t, opener deps p 9600 (Z.min us 50000) = Ok t.
Proof.
  intros Hs. open_session. destruct (lock_acquire deps p) as [[]|e|]; [|cbn; congruence..].
  destruct (opener deps p 9600 (Z.min us 50000)) as [t|e|]; [intros _; split; [done|by exists t]| |cbn; congruence].
  destruct (lock_release deps p); cbn; congruence.
Qed.

(** A lock that cannot be released replaces whatever the session came to. *)
Lemma session_unreleased {A} p us (body : T -> M (Cli T) cli_exn A) s e :
  lock_acquire deps p = Ok tt -> lock_release deps p = Err e -> let r := (_session deps p us body s).2 in r = Err e \/ r = OutOfFuel.
Proof.
  intros Ha Hr. cbv zeta. open_session. rewrite Ha, Hr. destruct (opener deps p 9600 (Z.min us 50000)) as [t|e1|]; [|by left|by right].
  destruct (dtr_suppression_guaranteed deps t) eqn:Ed; cbn [negb].
  - destruct (body t _) as [s1 [v|e1|]]; [| |by right]; destruct (transport_close deps _) as [w [v'|e'|]]; cbn [snd]; try (by left); by right.
  - destruct (transport_close deps _) as [w [v'|e'|]]; cbn [snd]; try (by left); by right.
Qed.

Lemma prepare_usable p us s doc : (_prepare deps p us s).2 = Ok doc -> usable_port p us.
Proof. apply session_usable. Qed.

Lemma perform_opened args w : device (perform deps args Cli_start).1 = Some w ->
  exists us, usable (timeout args) = Some us /\ lock_acquire deps (port args) = Ok tt /\ (exists t, opener deps (port args) 9600 (Z.min us 50000) = Ok t)
    /\ forall e, lock_release deps (port args) = Err e -> let r := (perform deps args Cli_start).2 in r = Err e \/ r = OutOfFuel.
Proof.
  unfold perform. destruct (usable (timeout args)) as [us|]; [|done]. destruct (_ && no_reset args); [done|]. intros Hw. exists us. split; [done|].
  assert (forall {A} (m : T -> M (Cli T) cli_exn A) (k : A -> M (Cli T) cli_exn (Z * document)),
    device (_session deps (port args) us m Cli_start).1 = Some w ->
    lock_acquire deps (port args) = Ok tt /\ (exists t, opener deps (port args) 9600 (Z.min us 50000) = Ok t)
    /\ forall e, lock_release deps (port args) = Err e -> let r := ((_session deps (port args) us m ≫= k) Cli_start).2 in r = Err e \/ r = OutOfFuel) as Hk.
  { intros A m k Hd. pose proof (session_opened _ us m Cli_start w eq_refl Hd) as [Ha Ho]. split_and!; [done|done|]. intros e Hr. cbv zeta. rewrite bind_case.
    pose proof (session_unreleased _ us m Cli_start e Ha Hr) as Hs. destruct (_session _ _ _ _ _) as [s1 [v|e1|]]; cbn in *; destruct Hs; by simplify_eq; auto. }
  assert (forall (m : T -> M (Cli T) cli_exn (Z * document)), device (_session deps (port args) us m Cli_start).1 = Some w ->
    lock_acquire deps (port args) = Ok tt /\ (exists t, opener deps (port args) 9600 (Z.min us 50000) = Ok t)
    /\ forall e, lock_release deps (port args) = Err e -> let r := (_session deps (port args) us m Cli_start).2 in r = Err e \/ r = OutOfFuel) as Hm.
  { intros m Hd. pose proof (session_opened _ us m Cli_start w eq_refl Hd) as [Ha Ho]. split_and!; [done|done|]. intros e. by apply session_unreleased. }
  destruct (command args); [by apply Hm|by apply Hm|by apply Hm| |]; unfold _prepare; apply Hk; revert Hw; unfold _prepare; rewrite bind_case;
    destruct (_session _ _ _ _ _) as [s1 [v|e1|]]; try done.
  case_bool_decide; [done|]. rewrite bind_case. unfold note, modifyS. destruct (runner deps _) as [|e1|]; [done| |done]. by destruct (isinstance e1 (Builtin OSError)).
Qed.
End Unopened.

Section Installed.
Context {S : Type} `{SerialDriverLaws S} (sys : System).
Abbreviation deps := (recorded (default_dependencies (S:=S) sys)).

Lemma open_suppressed_halts p raw : halts (open_suppressed (driver (S:=S)) (platform sys) p raw).2.
Proof.
  unfold open_suppressed, left_with, mbind, M_bind. pose proof (dtr_ends false raw) as Hd.
  destruct (set_dtr driver false raw) as [low [u|e|]]; cbn [snd] in Hd; [|done|done].
  destruct (supports_preopen_dtr_suppression _ _); [|done]. cbn [negb]. pose proof (assign_ends p low) as Ha.
  destruct (assign_port driver p low) as [r1 [v|e|]]; cbn [snd] in Ha; [|by destruct (is_open driver r1); [destruct (close_port driver r1) as [? [?|?|]]|]|done].
  pose proof (open_ends r1) as Ho. destruct (open_port driver r1) as [r2 [v'|e|]]; cbn [snd] in Ho; [done| |done].
  by destruct (is_open driver r2); [destruct (close_port driver r2) as [? [?|?|]]|].
Qed.

Lemma default_opener_halts p b us : halts (default_opener (S:=S) sys p b us).
Proof.
  unfold default_opener, SerialTransport_open, construct. destruct (importable driver); [|done]. cbn [negb].
  pose proof (new_ends true b us) as Hn. pose proof (new_ends false b us) as Hn'. pose proof (open_suppressed_halts p) as Hgo.
  destruct (new_serial driver true b us) as [raw|e|]; [|destruct (isinstance e _); [|done]; destruct (new_serial driver false b us) as [raw|e'|]; [|done|done]|done];
    specialize (Hgo raw); by destruct (open_suppressed _ _ p raw) as [? []].
Qed.

(** The lock of the default dependencies always answers. *)
Lemma default_lock_halts p : halts (acquire (file_system sys) (default_lock sys p, held sys)).2.
Proof. unfold acquire, acquire_nt, acquire_posix, append_byte. cbn. by repeat case_match. Qed.
Lemma default_unlock_halts p : halts (release (file_system sys) (acquire (file_system sys) (default_lock sys p, held sys)).1).2.
Proof. unfold release. destruct (acquire _ _).1 as [[? [h|]] l]; [|done]. cbn. by repeat case_match. Qed.

Context (Hrun : forall argv, halts (run_child sys argv)).

Lemma default_laws : CliLaws deps.
Proof.
  split; cbn [opener transport_reset transport_close lock_acquire lock_release runner recorded default_dependencies]; intros.
  - pose proof (default_opener_halts p b us). by destruct (default_opener sys p b us).
  - destruct (default_opener sys p b us); by simplify_eq.
  - unfold tapped, on_serial, st_reset, mbind, M_bind. pose proof (dtr_ends false (serial (inner w))).
    destruct (set_dtr driver false (serial (inner w))) as [s1 [u|e|]]; cbn [fst snd] in *; [apply dtr_ends|done|done].
  - unfold tapped. by destruct (on_serial _ (inner w)).
  - unfold raising, on_serial, st_close. pose proof (close_ends (serial (inner w))). cbn [fst snd]. by destruct (close_port driver (serial (inner w))) as [? []].
  - done.
  - apply default_lock_halts.
  - apply default_unlock_halts.
  - apply Hrun.
Qed.

#[local] Existing Instance default_laws.

Lemma perform_succeeds args doc : (perform deps args Cli_start).2 = Ok (EXIT_SUCCESS, doc) -> exists us, usable_port deps (port args) us.
Proof.
  unfold perform. destruct (usable (timeout args)) as [us|]; [|done]. intros Hx. exists us. revert Hx. destruct (_ && no_reset args); [done|].
  pose proof (prepare_usable deps (port args) us Cli_start) as Hp.
  destruct (command args); [intros Hx; by eapply session_usable..| |]; rewrite bind_case;
    destruct (_prepare deps (port args) us Cli_start) as [s1 [doc'|e|]]; try done; intros _; by eapply Hp.
Qed.

(** The steps of a session launch nothing. *)
Lemma took_launches_nothing {W} p taken (o : option (Tapped W)) argv : took p taken o -> Launched argv ∉ taken.
Proof. destruct 1; set_solver. Qed.

Lemma perform_launched args argv : Launched argv ∈ steps (perform deps args Cli_start).1 -> exists us, usable_port deps (port args) us.
Proof.
  intros Hin. destruct (ct_steps _ _ (perform_contained deps args)) as (taken & Ht & [Hs|(argv' & Hs & Hc & _)]).
  { rewrite Hs in Hin. by eapply took_launches_nothing in Hin. }
  clear Ht Hs. revert Hin. unfold perform. destruct (usable (timeout args)) as [us|] eqn:Hu; [|set_solver]. intros Hin. exists us. revert Hin.
  destruct (_ && no_reset args); [set_solver|]. rewrite Hc. destruct (prepare_ends deps args us Hu (or_intror Hc)) as (_ & _ & Ht & _). rewrite bind_case.
  pose proof (prepare_usable deps (port args) us Cli_start) as Hp. destruct (_prepare deps (port args) us Cli_start) as [s1 [doc|e|]]; cbn [fst snd] in *; intros Hin.
  - by eapply Hp.
  - by eapply took_launches_nothing in Hin.
  - by eapply took_launches_nothing in Hin.
Qed.
Context (Hlocks : locks_ok (held sys)) (Hwindows : platform sys = "win32" -> os_name (file_system sys) = "nt").

(** The port, as it was opened: by a lock that was free, on Windows, with DTR low before. *)
Definition opened_safely (args : Namespace) : Prop :=
  holder (file_system sys) (held sys) (path (default_lock sys (port args))) = None
  /\ platform sys = "win32"
  /\ exists us raw low tr, usable (timeout args) = Some us
     /\ construct (driver (S:=S)) 9600 (Z.min us 50000) = Ok raw /\ set_dtr driver false raw = (low, Ok tt)
     /\ backend_module driver low = "serial.serialwin32"
     /\ (_ ← assign_port driver (port args); open_port driver) low = (serial tr, Ok tt) /\ guaranteed tr = true.

Lemma default_acquired p : acquired (file_system sys) (default_lock sys p) (held sys) (acquire (file_system sys) (default_lock sys p, held sys)).
Proof. by apply port_lock_exclusive. Qed.

Lemma opened_is_safe args us t : usable (timeout args) = Some us -> lock_acquire deps (port args) = Ok tt ->
  opener deps (port args) 9600 (Z.min us 50000) = Ok t -> opened_safely args.
Proof.
  cbn [lock_acquire opener recorded default_dependencies]. intros Hu Ha Ho. pose proof (default_acquired (port args)) as Hq. unfold acquired in Hq. unfold opened_safely.
  destruct (acquire (file_system sys) (default_lock sys (port args), held sys)) as [[p' l'] r]; cbn [fst snd] in *. rewrite Ha in Hq. destruct Hq as (_ & _ & Hfree & _).
  split; [done|]. unfold default_opener in Ho. pose proof (serial_open_suppressed (driver (S:=S)) (platform sys) (port args) 9600 (Z.min us 50000)) as Hs.
  destruct (SerialTransport_open driver (platform sys) (port args) 9600 (Z.min us 50000)) as [o [tr|e|]]; [|done..].
  destruct Hs as (raw & low & H1 & H2 & H3 & H4 & H5 & _ & H6). split; [done|]. exists us, raw, low, tr. by split_and!.
Qed.

(** On Windows a lock that was taken is not released without an exception. *)
Lemma default_release p : lock_acquire deps p = Ok tt -> platform sys = "win32" -> lock_release deps p = Err (Raised permission_denied).
Proof.
  cbn [lock_acquire lock_release recorded default_dependencies]. intros Ha Hp. pose proof (default_acquired p) as Hq. unfold acquired in Hq.
  destruct (acquire (file_system sys) (default_lock sys p, held sys)) as [[p' l'] r]; cbn [fst snd] in *. rewrite Ha in Hq. destruct Hq as (_ & _ & _ & _ & _ & _ & _ & _ & Hr).
  unfold nt in Hr. rewrite Hwindows in Hr by done. exact Hr.
Qed.

Lemma opener_platform p b us t : opener deps p b us = Ok t -> platform sys = "win32".
Proof.
  cbn. unfold default_opener. pose proof (serial_open_suppressed (driver (S:=S)) (platform sys) p b us) as Hs.
  destruct (SerialTransport_open _ _ _ _ _) as [o [tr|e|]]; [|done..]. by destruct Hs as (? & ? & _ & _ & ? & _).
Qed.

Lemma never_usable p us : ~ usable_port deps p us.
Proof.
  intros (Ha & (t & Ho & _) & Hr). pose proof (default_release p Ha (opener_platform _ _ _ _ Ho)) as Hr'. congruence.
Qed.

(** C9: the switcher as it is installed - [SerialTransport.open], [PortLock] and [subprocess.run] - keeps every promise of
    [cli_run_contained] whatever pyserial, the controller, the file system and the child do. A port is opened only when its
    lock was free, and only by the Windows backend of pyserial after DTR was set low. But nothing succeeds: elsewhere no port
    is opened, and on Windows releasing the lock raises, because it unlocks a byte other than the one that was locked;
    so a run that opened the port - and did, perhaps, all that was asked - exits 3, and no child is ever launched.
    (Assumed: the locks that others hold are those of open handles, each on the end of its file; and Python's
    [os.name] is nt where [sys.platform] is win32.) *)
Theorem installed_switcher_contained (args : Namespace) :
  let p := execute deps args Cli_start in
  contained args p
  /\ (forall w, device p.1 = Some w -> opened_safely args /\ exists doc, p.2 = Ok (EXIT_PORT_UNAVAILABLE, doc))
  /\ (forall argv, Launched argv ∉ steps p.1)
  /\ forall doc, p.2 <> Ok (EXIT_SUCCESS, doc).
Proof.
  cbv zeta. pose proof (execute_contained deps args) as Hc. pose proof (ct_halts _ _ Hc) as Hh. split; [done|]. revert Hh. unfold execute, try_except. clear Hc.
  pose proof (perform_opened deps args) as Ho. pose proof (perform_launched args) as Hl. pose proof (perform_succeeds args) as Hs.
  destruct (perform deps args Cli_start) as [s r]; cbn [fst snd] in *. intros Hh.
  assert (forall w, device s = Some w -> opened_safely args /\ (r = Err (Raised permission_denied) \/ r = OutOfFuel)) as Hw.
  { intros w Hw. destruct (Ho w Hw) as (us & Hu & Ha & (t & Hop) & Hr). pose proof (opener_platform _ _ _ _ Hop) as Hp.
    split; [|apply Hr; by apply default_release]. by eapply opened_is_safe. }
  assert (forall argv, Launched argv ∉ steps s) as Hn by (intros argv Hin; destruct (Hl argv Hin) as [us Hu]; by eapply never_usable).
  destruct r as [[code doc]|e|]; cbn [fst snd]; [split_and!; try done| |done].
  - intros w Hd. by destruct (Hw w Hd) as [_ [?|?]].
  - intros doc' [= -> ->]. destruct (Hs doc' eq_refl) as [us Hu]. by eapply never_usable.
  - destruct (exit_of e) as [[code doc]|] eqn:Ee; cbn [fst snd mret M_ret raise]; split_and!; try done.
    + intros w Hd. destruct (Hw w Hd) as [Hsafe [[= ->]|?]]; [|done]. split; [done|]. cbn in Ee. injection Ee as <- <-. by eexists.
    + intros doc' [= -> ->]. by apply exit_nonzero in Ee.
    + intros w Hd. destruct (Hw w Hd) as [Hsafe [[= ->]|?]]; done.
Qed.
End Installed.

(** ** The installed switcher on a scripted controller *)

(** A pyserial of Windows whose controller follows a script; raising DTR resets it. *)
Definition demo_pyserial (rst : list string) : Pyserial ScriptedTransport :=
  mkPyserial _ true
    (fun exclusive _ _ => if exclusive : bool then throw (Builtin TypeError) "exclusive"
                          else Ok (ScriptedTransport_init (nl <$> ["stopped"]) (nl <$> rst)))
    (fun _ => "serial.serialwin32") (fun high => if high : bool then sc_reset else mret tt) (fun _ => mret tt) (mret tt)
    (fun _ => true) (fun t => (sc_close t, Ok tt)) (fun _ => Some 50000) (fun _ => mret tt)
    (fun n => bs_read n (Some 50000)) bs_write.
Definition demo_driver (rst : list string) : SerialDriver ScriptedTransport :=
  Build_SerialDriver _ (demo_pyserial rst) bs_monotonic bs_sleep bs_clock bs_pending.

Lemma demo_driver_laws rst : @SerialDriverLaws _ (demo_driver rst).
Proof.
  split; intros; try (apply (monotonic_le s) || apply (monotonic_now s) || apply (monotonic_pending s) || apply (sleep_clock d s) || apply (sleep_pending d s)
    || apply (read_clock n (Some 50000) s) || (by apply (read_pending n (Some 50000) s)) || apply (write_clock d s) || apply (write_out d s));
    try done; cbn; unfold sc_read; by repeat case_match.
Qed.

Definition demo_system (platform : string) (others : Locks) : System :=
  mkSystem platform
    (mkFileSystem (if bool_decide (platform = "win32") then "nt" else "posix") (fun _ => None) (fun _ => None) (fun _ => None) None)
    (fun port => port) "/run/user/1000" others (fun _ => Ok 0).
Definition no_locks : Locks := mkLocks ∅ ∅ ∅ ∅ 0.
Definition demo_lock_file : string := "/run/user/1000/cs71-protocol/locks/COM3.lock".
Definition other_holder : Locks := mkLocks {[0%nat]} ∅ {[ demo_lock_file := 1%nat ]} {[ (demo_lock_file, 1%nat) := 0%nat ]} 1.

Definition installed_run (platform : string) (others : Locks) (rst : list string) (args : Namespace) :=
  let D := demo_driver rst in execute (recorded (default_dependencies (demo_system platform others))) args Cli_start.
Definition exit_code {T} (p : Cli T * res cli_exn (Z * document)) : option Z := match p.2 with Ok x => Some x.1 | _ => None end.

(** Two processes lock the same file on Windows, one after the other: the second is refused, and the first, when it
    is done, unlocks byte 0 of a file whose byte 1 it locked. *)
Example windows_lock_misses :
  let fs := file_system (demo_system "win32" no_locks) in
  let '((p1, l1), r1) := acquire fs (mkPortLock demo_lock_file None, no_locks) in
  let '((p2, l2), r2) := acquire fs (mkPortLock demo_lock_file None, l1) in
  let '((p3, l3), r3) := release fs (p1, l2) in
  (r1, map_to_list (byte_locks l2), r2, r3, map_to_list (byte_locks l3))
  = (Ok tt, [((demo_lock_file, 1%nat), 0%nat)], Err (PortLockError ("cannot lock serial port: " +:+ demo_lock_file)),
     Err (Raised permission_denied), []).
Proof. vm_compute. reflexivity. Qed.

(** On Windows the old firmware is detected, and then the run fails on its own lock; elsewhere, or beside another
    holder, the port is not opened. *)
Example installed_detects :
  let p := installed_run "win32" no_locks (started ++ ["ok"]) (demo_args Detect []) in
  (p.2, (fun w => writes (serial (inner w))) <$> device p.1)
  = (Ok (EXIT_PORT_UNAVAILABLE, [("error", Json.JStr "[Errno 13] Permission denied")]), Some (nl <$> ["stop"; "ping"; "version"; "protocol:2?"])).
Proof. vm_compute. reflexivity. Qed.
Example installed_refuses :
  ((fun p => (exit_code p, steps p.1)) <$> [installed_run "linux" no_locks started (demo_args PrepareLegacy []);
                                       installed_run "win32" other_holder started (demo_args PrepareLegacy [])])
  = [(Some EXIT_DTR_GUARANTEE, [Locked "COM3"; Unlocked]); (Some EXIT_PORT_UNAVAILABLE, [])].
Proof. vm_compute. reflexivity. Qed.

Lemma demo_locks_ok : locks_ok other_holder.
Proof.
  split.
  - intros q h. cbn [locked other_holder]. by rewrite lookup_empty.
  - intros q k h. cbn [byte_locks other_holder]. intros [[= <- <-] <-]%lookup_singleton_Some. split_and!; [set_solver|by vm_compute|lia].
  - cbn. intros h ->%elem_of_singleton. lia.
Qed.
Lemma no_locks_ok : locks_ok no_locks.
Proof.
  split; [intros q h|intros q k h|intros h]; cbn [locked byte_locks open_files no_locks]; [by rewrite lookup_empty..|set_solver].
Qed.

Lemma installed_switcher_contained_witness :
  let p := installed_run "win32" no_locks (started ++ ["ok"]) (demo_args Detect []) in
  (forall w, device p.1 = Some w ->
     @opened_safely _ (demo_driver (started ++ ["ok"])) (demo_system "win32" no_locks) (demo_args Detect [])
     /\ exists doc, p.2 = Ok (EXIT_PORT_UNAVAILABLE, doc))
  /\ (forall w, device (installed_run "win32" other_holder (started ++ ["ok"]) (demo_args Detect [])).1 = Some w ->
     @opened_safely _ (demo_driver (started ++ ["ok"])) (demo_system "win32" other_holder) (demo_args Detect [])
     /\ exists doc, (installed_run "win32" other_holder (started ++ ["ok"]) (demo_args Detect [])).2 = Ok (EXIT_PORT_UNAVAILABLE, doc)).
Proof.
  pose proof (demo_driver_laws (started ++ ["ok"])). split.
  - apply (installed_switcher_contained (demo_system "win32" no_locks)); [done|apply no_locks_ok|done].
  - apply (installed_switcher_contained (demo_system "win32" other_holder)); [done|apply demo_locks_ok|done].
Defined.
