(* ===== verification/Operations.v ===== *)
(** * Durable operation identity and lifecycle (appliance/daemon/src/cs71d/operations.py)

    Moments are aware datetimes: microseconds and a UTC offset; a record keeps
    the normalised UTC microseconds. SHA-256 is a parameter. *)
From S2P Require Import Prelude PyString Errors Json.

(** ** Enumerations *)

Module OperationAction.
Inductive OperationAction := CONNECT | RECOVER | HOME | SORT | FEED | STOP | CONFIGURE.

Definition value (a : OperationAction) : string :=
  match a with
  | CONNECT => "connect" | RECOVER => "recover" | HOME => "home" | SORT => "sort"
  | FEED => "feed" | STOP => "stop" | CONFIGURE => "configure"
  end.

#[export] Instance eq_dec : EqDecision OperationAction.
Proof. solve_decision. Defined.
End OperationAction.
Export (hints) OperationAction.

Module OperationState.
Inductive OperationState :=
| QUEUED | ACCEPTED | RUNNING | SUCCEEDED | FAILED | CANCELLED | UNCERTAIN.

Definition value (s : OperationState) : string :=
  match s with
  | QUEUED => "queued" | ACCEPTED => "accepted" | RUNNING => "running" | SUCCEEDED => "succeeded"
  | FAILED => "failed" | CANCELLED => "cancelled" | UNCERTAIN => "uncertain"
  end.

#[export] Instance eq_dec : EqDecision OperationState.
Proof. solve_decision. Defined.

Definition TERMINAL_STATES : list OperationState := [SUCCEEDED; FAILED; CANCELLED; UNCERTAIN].

Definition _UNRESOLVED : list OperationState := [FAILED; CANCELLED; UNCERTAIN].

Definition _ALLOWED_TRANSITIONS (s : OperationState) : list OperationState :=
  match s with
  | QUEUED => ACCEPTED :: _UNRESOLVED
  | ACCEPTED => RUNNING :: _UNRESOLVED
  | RUNNING => SUCCEEDED :: _UNRESOLVED
  | SUCCEEDED | FAILED | CANCELLED | UNCERTAIN => []
  end.

Definition is_terminal (s : OperationState) : bool := bool_decide (s ∈ TERMINAL_STATES).
Definition can_transition (from to : OperationState) : bool :=
  bool_decide (to ∈ _ALLOWED_TRANSITIONS from).
End OperationState.
Export (hints) OperationState.

Abbreviation op_action := OperationAction.OperationAction.
Abbreviation op_state := OperationState.OperationState.

Definition MAX_ACTOR_FIELD_LENGTH : Z := 64.
Definition MAX_IDEMPOTENCY_KEY_LENGTH : Z := 200.
Definition MAX_BODY_FIELDS : Z := 16.
Definition MAX_BODY_STRING_LENGTH : Z := 128.
Definition MAX_REASON_LENGTH : Z := 512.
Definition MAX_TERMINAL_FIELDS : Z := 16.
Definition MAX_TERMINAL_VALUE_LENGTH : Z := 64.

(** ** Validators *)

Definition invalid {A} (msg : string) : result A := throw (Domain ValidationError) msg.

(** The regular expressions under [fullmatch]. *)
Definition _ACTOR_FIELD (s : string) : bool :=
  match s with
  | "" => false
  | String c rest =>
      (is_alpha c || is_digit c) &&
      str_forall (fun c => is_alpha c || is_digit c || str_mem c "_.:@-") rest
  end.

Definition lower_snake (s : string) : bool :=
  match s with
  | "" => false
  | String c rest => is_lower c && str_forall (fun c => is_lower c || is_digit c || Ascii.eqb c "_") rest
  end.
Definition _BODY_FIELD (s : string) : bool := lower_snake s.
Definition _TERMINAL_FIELD (s : string) : bool := lower_snake s.

Definition _IDEMPOTENCY_KEY (s : string) : bool :=
  negb (bool_decide (s = "")) && str_forall (fun c => (0x21 <=? code c) && (code c <=? 0x7e)) s.

Definition _require_token (value name : string) : result string :=
  if negb (_ACTOR_FIELD value) then invalid (name +:+ " must be a restricted attribution token")
  else if MAX_ACTOR_FIELD_LENGTH <? slen value
  then invalid (name +:+ " must be at most " +:+ str_of_Z MAX_ACTOR_FIELD_LENGTH +:+ " characters")
  else Ok value.

(** A [datetime]: wall-clock microseconds and the UTC offset of its time zone. *)
Record datetime := mkDatetime { wall_us : Z; tz_offset : option Z }.
Definition utc (us : Z) : datetime := mkDatetime us (Some 0).

Definition _require_utc (value : datetime) (name : string) : result Z :=
  match tz_offset value with
  | None => invalid (name +:+ " must be a timezone-aware datetime")
  | Some off => Ok (wall_us value - off)
  end.

Definition require_idempotency_key (key : string) : result string :=
  if negb (_IDEMPOTENCY_KEY key) then invalid "idempotency key must be printable ASCII without spaces"
  else if MAX_IDEMPOTENCY_KEY_LENGTH <? slen key
  then invalid ("idempotency key must be at most " +:+ str_of_Z MAX_IDEMPOTENCY_KEY_LENGTH +:+ " characters")
  else Ok key.

Definition require_reason (reason : string) : result string :=
  if bool_decide (str_strip reason = "") then invalid "a transition reason is required"
  else if MAX_REASON_LENGTH <? slen reason
  then invalid ("reason must be at most " +:+ str_of_Z MAX_REASON_LENGTH +:+ " characters")
  else Ok reason.

Definition terminal_field_check (name value : string) : result unit :=
  if negb (_TERMINAL_FIELD name)
  then invalid ("terminal field " +:+ str_repr name +:+ " is not a protocol field name")
  else if MAX_TERMINAL_VALUE_LENGTH <? slen value
  then invalid ("terminal field " +:+ str_repr name +:+ " has an unusable value")
  else Ok tt.

(** Runs a check over the items of a mapping, first failure first. *)
Fixpoint check_items {V} (f : string -> V -> result unit) (l : list (string * V)) : result unit :=
  match l with
  | [] => Ok tt
  | (k, v) :: l => _ ← f k v; check_items f l
  end.

Definition require_terminal_fields (fields : gmap string string) : result (gmap string string) :=
  if MAX_TERMINAL_FIELDS <? Z.of_nat (size fields)
  then invalid ("a terminal carries at most " +:+ str_of_Z MAX_TERMINAL_FIELDS +:+ " fields")
  else _ ← check_items terminal_field_check (map_to_list fields); Ok fields.

(** ** UUID syntax *)

(** [s.replace(p, "")] for a non-empty [p]. *)
Fixpoint str_remove (fuel : nat) (p s : string) : string :=
  match fuel with
  | O => s
  | S fuel =>
      match s with
      | "" => ""
      | String c rest =>
          if startswith s p then str_remove fuel p (str_drop (String.length p) s)
          else String c (str_remove fuel p rest)
      end
  end.
Definition str_removed (p s : string) : string := str_remove (String.length s) p s.

Definition is_hex_digit (c : ascii) : bool :=
  is_digit c || ((0x41 <=? code c) && (code c <=? 0x46)) || ((0x61 <=? code c) && (code c <=? 0x66)).

(** The digits [int(s, 16)] accepts: single underscores between digits. *)
Fixpoint hex_digits_go (after_digit : bool) (s : string) : bool :=
  match s with
  | "" => after_digit
  | String c rest =>
      if Ascii.eqb c "_" then after_digit && hex_digits_go false rest
      else is_hex_digit c && hex_digits_go true rest
  end.

Definition int16_syntax (s : string) : bool :=
  let s := str_strip s in
  let s := match s with
           | String c rest => if Ascii.eqb c "+" || Ascii.eqb c "-" then rest else s
           | "" => s
           end in
  if startswith s "0x" || startswith s "0X" then
    let r := str_drop 2 s in
    match r with
    | String c rest => if Ascii.eqb c "_" then hex_digits_go false rest else hex_digits_go false r
    | "" => false
    end
  else hex_digits_go false s.

(** [UUID(s)] raises [ValueError] unless this holds. *)
Definition uuid_syntax (s : string) : bool :=
  let h := str_removed "uuid:" (str_removed "urn:" s) in
  let brace c := Ascii.eqb c "{" || Ascii.eqb c "}" in
  let h := str_removed "-" (strip_right brace (strip_left brace h)) in
  (slen h =? 32) && int16_syntax h.

(** ** Records *)

Record Actor := mkActor { user_id : string; role : string }.

Definition Actor_make (user_id role : string) : result Actor :=
  _ ← _require_token user_id "actor user_id";
  _ ← _require_token role "actor role";
  Ok (mkActor user_id role).

Record OperationRecord := mkOperationRecord {
  operation_id : string;
  action : op_action;
  fingerprint : string;
  op_st : op_state;
  generation : Z;
  created_at : Z;
  deadline_at : Z;
  actor : Actor;
  trusted_terminal : bool;
  outcome : option string;
  terminal_at : option Z;
  protocol_request_id : option Z;
  op_terminal_fields : option (gmap string string);
}.

(** [OperationRecord.__init__] followed by [__post_init__]. *)
Definition OperationRecord_make (operation_id : string) (action : op_action) (fingerprint : string)
    (state : op_state) (generation : Z) (created_at deadline_at : datetime) (actor : Actor)
    (trusted_terminal : bool) (outcome : option string) (terminal_at : option datetime)
    (protocol_request_id : option Z) (terminal_fields : option (gmap string string))
    : result OperationRecord :=
  if negb (uuid_syntax operation_id) then invalid "operation_id must be a UUID"
  else if generation <? 1 then invalid "generation must be positive"
  else
    created ← _require_utc created_at "created_at";
    deadline ← _require_utc deadline_at "deadline_at";
    if deadline <=? created then invalid "deadline_at must be a finite deadline after created_at"
    else
      term_at ← match terminal_at with
                | None => Ok None
                | Some t => u ← _require_utc t "terminal_at"; Ok (Some u)
                end;
      if trusted_terminal && negb (bool_decide (state = OperationState.SUCCEEDED))
      then invalid "only a succeeded operation records a trusted terminal"
      else if bool_decide (state = OperationState.SUCCEEDED) && negb trusted_terminal
      then invalid "a succeeded operation requires a trusted firmware terminal"
      else
        tf ← match terminal_fields with
             | None => Ok None
             | Some f => g ← require_terminal_fields f; Ok (Some g)
             end;
        Ok (mkOperationRecord operation_id action fingerprint state generation created deadline actor
              trusted_terminal outcome term_at protocol_request_id tf).

Definition record_is_terminal (r : OperationRecord) : bool := OperationState.is_terminal (op_st r).

Definition expired_at (r : OperationRecord) (moment : datetime) : result bool :=
  m ← _require_utc moment "moment"; Ok (deadline_at r <=? m).

Record TransitionRecord := mkTransitionRecord {
  transition_id : Z;
  tr_operation_id : string;
  from_state : option op_state;
  to_state : op_state;
  tr_generation : Z;
  occurred_at : Z;
  tr_reason : string;
}.

Record IdempotencyRecord := mkIdempotencyRecord {
  idem_key : string;
  idem_fingerprint : string;
  idem_operation_id : string;
  idem_created_at : Z;
  expires_at : Z;
}.

Definition IdempotencyRecord_make (key fingerprint operation_id : string) (created_at expires_at : datetime)
    : result IdempotencyRecord :=
  _ ← require_idempotency_key key;
  created ← _require_utc created_at "created_at";
  expires ← _require_utc expires_at "expires_at";
  if expires <=? created then invalid "expires_at must be after created_at"
  else Ok (mkIdempotencyRecord key fingerprint operation_id created expires).

Definition live_at (r : IdempotencyRecord) (moment : datetime) : result bool :=
  m ← _require_utc moment "moment"; Ok (m <? expires_at r).

(** ** The canonical request *)

(** [BOther] stands for a value that is no JSON scalar. *)
Inductive BodyValue := BStr (s : string) | BInt (n : Z) | BBool (b : bool) | BNull | BOther.

#[export] Instance BodyValue_eq_dec : EqDecision BodyValue.
Proof. solve_decision. Defined.

Abbreviation RequestBody := (gmap string BodyValue).

Definition _require_body_value (name : string) (v : BodyValue) : result BodyValue :=
  match v with
  | BNull | BBool _ => Ok v
  | BInt n =>
      if negb ((- 2 ^ 31 <=? n) && (n <? 2 ^ 31))
      then invalid ("request body field " +:+ str_repr name +:+ " is out of range") else Ok v
  | BStr s =>
      if MAX_BODY_STRING_LENGTH <? slen s
      then invalid ("request body field " +:+ str_repr name +:+ " is too long") else Ok v
  | BOther => invalid ("request body field " +:+ str_repr name +:+ " must be a JSON scalar")
  end.

Definition body_field_check (name : string) (v : BodyValue) : result unit :=
  if negb (_BODY_FIELD name)
  then invalid ("request body field " +:+ str_repr name +:+ " is not lower_snake_case")
  else _ ← _require_body_value name v; Ok tt.

Definition json_value (v : BodyValue) : string :=
  match v with
  | BStr s => json_str s
  | BInt n => json_int n
  | BBool true => "true"
  | BBool false => "false"
  | BNull | BOther => "null"
  end.

Definition json_pair (kv : string * BodyValue) : string := json_str kv.1 +:+ ":" +:+ json_value kv.2.

Definition key_le (a b : string * BodyValue) : Prop := String.le a.1 b.1.
#[export] Instance key_le_dec a b : Decision (key_le a b) := String.le_dec a.1 b.1.

(** [sort_keys=True] *)
Definition sorted_items (body : RequestBody) : list (string * BodyValue) :=
  merge_sort key_le (map_to_list body).

Definition json_body (body : RequestBody) : string :=
  "{" +:+ str_join "," (json_pair <$> sorted_items body) +:+ "}".

Definition canonical_request (a : op_action) (body : RequestBody) (who : Actor) : result string :=
  if MAX_BODY_FIELDS <? Z.of_nat (size body)
  then invalid ("request body must have at most " +:+ str_of_Z MAX_BODY_FIELDS +:+ " fields")
  else
    _ ← check_items body_field_check (map_to_list body);
    Ok ("{" +:+ json_str "action" +:+ ":" +:+ json_str (OperationAction.value a)
        +:+ "," +:+ json_str "actor" +:+ ":{" +:+ json_str "role" +:+ ":" +:+ json_str (role who)
        +:+ "," +:+ json_str "user_id" +:+ ":" +:+ json_str (user_id who) +:+ "}"
        +:+ "," +:+ json_str "body" +:+ ":" +:+ json_body body +:+ "}").

Section Fingerprint.
Context (sha256_hexdigest : string -> string).

Definition request_fingerprint (a : op_action) (body : RequestBody) (who : Actor) : result string :=
  c ← canonical_request a body who; Ok (sha256_hexdigest c).
End Fingerprint.

(** ** The canonical encoding is injective *)

Lemma json_value_sep v w d e t u : v <> BOther -> w <> BOther -> delim d -> delim e ->
  json_value v +:+ String d t = json_value w +:+ String e u -> v = w /\ String d t = String e u.
Proof.
  intros Hv Hw Hd He H.
  assert (forall n s, json_int n +:+ String d t = s +:+ String e u \/ s +:+ String d t = json_int n +:+ String e u ->
    match s with String c _ => is_digit c || Ascii.eqb c "-" = true | "" => False end) as Hint.
  { intros n s. destruct (json_int_head n) as (c & r & -> & Hc). destruct s as [|x s].
    - rewrite str_app_cons. change ("" +:+ ?z) with z. intros [E|E]; injection E as E _; subst;
        destruct Hd, He; subst; done.
    - rewrite !str_app_cons. intros [E|E]; injection E as E _; by subst. }
  destruct v as [a|m|[]| |], w as [b|n|[]| |]; try done; simpl json_value in H;
    try (apply json_str_sep in H as [-> H]; done);
    try (apply json_int_sep in H as [-> H]; done);
    try (by specialize (Hint _ _ (or_introl H)));
    try (by specialize (Hint _ _ (or_intror H))).
  all: try (split; [done|]; by apply str_app_inj_l in H).
Qed.

Lemma json_pair_sep p q d e t u : p.2 <> BOther -> q.2 <> BOther -> delim d -> delim e ->
  json_pair p +:+ String d t = json_pair q +:+ String e u -> p = q /\ String d t = String e u.
Proof.
  intros Hp Hq Hd He. unfold json_pair. rewrite <- !str_app_assoc. intros H.
  apply json_str_sep in H as [H1 H]. apply str_app_inj_l, json_value_sep in H as [H2 H]; try done.
  destruct p, q. simpl in *. by subst.
Qed.

Definition json_items (l : list (string * BodyValue)) (t : string) : string :=
  str_join "," (json_pair <$> l) +:+ String "}" t.

Lemma json_items_cons p q l t :
  json_items (p :: q :: l) t = json_pair p +:+ String "," (json_items (q :: l) t).
Proof.
  unfold json_items. rewrite (fmap_cons json_pair p (q :: l)).
  change (str_join "," (json_pair p :: (json_pair <$> q :: l)))
    with (json_pair p +:+ "," +:+ str_join "," (json_pair <$> q :: l)).
  by rewrite <- !str_app_assoc.
Qed.

Lemma json_pair_not_close p s t : json_pair p +:+ s <> String "}" t.
Proof. done. Qed.

Definition scalars (l : list (string * BodyValue)) : Prop := Forall (fun p => p.2 <> BOther) l.

Lemma json_items_sep l l' t u : scalars l -> scalars l' ->
  json_items l t = json_items l' u -> l = l' /\ t = u.
Proof.
  revert l'. induction l as [|p l IH]; intros l' Hl Hl' H.
  - destruct l' as [|q l']; [by injection H|]. exfalso. destruct l' as [|q' l'].
    + exact (json_pair_not_close _ _ _ (eq_sym H)).
    + rewrite json_items_cons in H. exact (json_pair_not_close _ _ _ (eq_sym H)).
  - apply Forall_cons in Hl as [Hp Hl]. destruct l' as [|q l'].
    { exfalso. destruct l; [|rewrite json_items_cons in H]; exact (json_pair_not_close _ _ _ H). }
    apply Forall_cons in Hl' as [Hq Hl'].
    destruct l as [|p' l], l' as [|q' l']; rewrite ?json_items_cons in H;
      apply json_pair_sep in H as [-> H]; try done; try (by left); try (by right).
    + by injection H as ->.
    + injection H as H. apply IH in H as [-> ->]; done.
Qed.

Lemma sorted_items_inj b b' : sorted_items b = sorted_items b' -> b = b'.
Proof.
  intros H. apply (map_to_list_inj). unfold sorted_items in H.
  rewrite <- (merge_sort_Permutation key_le (map_to_list b)), <- (merge_sort_Permutation key_le (map_to_list b')).
  by rewrite H.
Qed.

Lemma json_body_sep b b' t u : scalars (map_to_list b) -> scalars (map_to_list b') ->
  json_body b +:+ t = json_body b' +:+ u -> b = b' /\ t = u.
Proof.
  intros Hs Hs' H. unfold json_body in H. rewrite <- !str_app_assoc in H. apply str_app_inj_l in H.
  apply (json_items_sep (sorted_items b) (sorted_items b') t u) in H as [H ->].
  - by apply sorted_items_inj in H.
  - unfold scalars, sorted_items. by rewrite merge_sort_Permutation.
  - unfold scalars, sorted_items. by rewrite merge_sort_Permutation.
Qed.

Lemma check_items_ok {V} f (l : list (string * V)) u :
  check_items f l = Ok u <-> Forall (fun kv => f kv.1 kv.2 = Ok tt) l.
Proof.
  destruct u. induction l as [|[k v] l IH]; simpl; [split; [constructor|done]|].
  rewrite Forall_cons, <- IH, res_bind_ok. simpl. split.
  - intros ([] & H & H'). done.
  - intros [H H']. by exists tt.
Qed.

Lemma check_items_scalars l u : check_items body_field_check l = Ok u -> scalars l.
Proof.
  rewrite check_items_ok. intros Hl. eapply Forall_impl; [done|]. intros [k v] H Hv. simpl in Hv. subst v.
  unfold body_field_check in H. simpl in H. by destruct (negb _).
Qed.

Lemma action_value_inj a b : OperationAction.value a = OperationAction.value b -> a = b.
Proof. by destruct a, b. Qed.

(** ** Properties *)



Definition lifecycle_step (s s' : op_state) : Prop := OperationState.can_transition s s' = true.

(** The lifecycle is finite and honest: from [QUEUED] at most three
    transitions happen, a state is terminal exactly when nothing follows it, and
    [SUCCEEDED] is reached only by the full path through [ACCEPTED] and
    [RUNNING]. *)
Theorem lifecycle_paths (n : nat) (s : op_state) :
  nsteps lifecycle_step n OperationState.QUEUED s ->
  (n <= 3)%nat
  /\ (OperationState.is_terminal s = true <-> forall s', ~ lifecycle_step s s')
  /\ (s = OperationState.SUCCEEDED -> n = 3%nat
      /\ lifecycle_step OperationState.QUEUED OperationState.ACCEPTED
      /\ lifecycle_step OperationState.ACCEPTED OperationState.RUNNING
      /\ lifecycle_step OperationState.RUNNING s).
Proof.
  intros Hn.
  assert (forall s s', lifecycle_step s s' -> OperationState.is_terminal s' = true \/
    (s = OperationState.QUEUED /\ s' = OperationState.ACCEPTED) \/
    (s = OperationState.ACCEPTED /\ s' = OperationState.RUNNING)) as Hstep.
  { intros a b Hab. destruct a, b; try discriminate Hab; naive_solver. }
  assert (forall s, OperationState.is_terminal s = true -> forall s', ~ lifecycle_step s s') as Hterm.
  { intros a Ha b Hab. destruct a, b; discriminate. }
  assert (forall m a b, OperationState.is_terminal a = true -> nsteps lifecycle_step m a b -> m = 0%nat /\ a = b) as Habs.
  { intros m a b Ha Hm. destruct Hm as [|m a c b Hac]; [done|]. by apply Hterm in Hac. }
  split_and!; [| |intros ->; split_and!; try done].
  - inversion_clear Hn as [|k ? y ? H1 H2]; [lia|]. apply Hstep in H1 as [H1|[[_ ->]|[? _]]]; [..|done].
    { apply Habs in H2 as [-> _]; [lia|done]. }
    inversion_clear H2 as [|k' ? y' ? H1 H3]; [lia|]. apply Hstep in H1 as [H1|[[? _]|[_ ->]]]; [|done|].
    { apply Habs in H3 as [-> _]; [lia|done]. }
    inversion_clear H3 as [|k'' ? y'' ? H1 H4]; [lia|]. apply Hstep in H1 as [H1|[[? _]|[? _]]]; [|done..].
    apply Habs in H4 as [-> _]; [lia|done].
  - split; [by auto|]. intros Hno. destruct s; try done; exfalso.
    + by apply (Hno OperationState.ACCEPTED).
    + by apply (Hno OperationState.RUNNING).
    + by apply (Hno OperationState.SUCCEEDED).
  - inversion_clear Hn as [|k ? y ? H1 H2]. destruct y; try discriminate H1;
      try (apply Habs in H2 as [_ ?]; done).
    inversion_clear H2 as [|k' ? y' ? H3 H4]. destruct y'; try discriminate H3;
      try (apply Habs in H4 as [_ ?]; done).
    inversion_clear H4 as [|k'' ? y'' ? H5 H6]. destruct y''; try discriminate H5;
      by apply Habs in H6 as [-> ?].
Qed.

Lemma lifecycle_paths_witness :
  (3 <= 3)%nat
  /\ (OperationState.is_terminal OperationState.SUCCEEDED = true <->
      forall s', ~ lifecycle_step OperationState.SUCCEEDED s')
  /\ (OperationState.SUCCEEDED = OperationState.SUCCEEDED -> 3%nat = 3%nat
      /\ lifecycle_step OperationState.QUEUED OperationState.ACCEPTED
      /\ lifecycle_step OperationState.ACCEPTED OperationState.RUNNING
      /\ lifecycle_step OperationState.RUNNING OperationState.SUCCEEDED).
Proof.
  apply (lifecycle_paths 3 OperationState.SUCCEEDED).
  apply (nsteps_l _ _ _ OperationState.ACCEPTED); [reflexivity|].
  apply (nsteps_l _ _ _ OperationState.RUNNING); [reflexivity|].
  apply (nsteps_l _ _ _ OperationState.SUCCEEDED); [reflexivity|]. apply nsteps_O.
Defined.

(** What a constructed record satisfies. *)
Record record_wf (r : OperationRecord) : Prop := {
  rwf_uuid : uuid_syntax (operation_id r) = true;
  rwf_generation : 1 <= generation r;
  rwf_deadline : created_at r < deadline_at r;
  rwf_trusted : trusted_terminal r = true <-> op_st r = OperationState.SUCCEEDED;
  rwf_fields : forall f, op_terminal_fields r = Some f ->
    Z.of_nat (size f) <= MAX_TERMINAL_FIELDS
    /\ map_Forall (fun k v => _TERMINAL_FIELD k = true /\ slen v <= MAX_TERMINAL_VALUE_LENGTH) f;
}.

Lemma terminal_fields_ok f g : require_terminal_fields f = Ok g ->
  f = g /\ Z.of_nat (size f) <= MAX_TERMINAL_FIELDS
  /\ map_Forall (fun k v => _TERMINAL_FIELD k = true /\ slen v <= MAX_TERMINAL_VALUE_LENGTH) f.
Proof.
  unfold require_terminal_fields. destruct (_ <? _) eqn:E; [done|]. bool_inv. intros H.
  apply res_bind_ok in H as (u & Hc & [= ->]). split_and!; try done.
  apply map_Forall_to_list. apply check_items_ok in Hc. eapply Forall_impl; [done|].
  intros [k v]. simpl. unfold terminal_field_check. destruct (_TERMINAL_FIELD k); [|done]. simpl.
  destruct (_ <? slen v) eqn:Ev; [done|]. by bool_inv.
Qed.

Lemma record_make_wf oid a fp st g ca da who tt oc ta pr tf r :
  OperationRecord_make oid a fp st g ca da who tt oc ta pr tf = Ok r ->
  record_wf r /\ operation_id r = oid /\ action r = a /\ fingerprint r = fp /\ op_st r = st
  /\ generation r = g /\ actor r = who /\ trusted_terminal r = tt /\ outcome r = oc
  /\ protocol_request_id r = pr /\ op_terminal_fields r = tf.
Proof.
  unfold OperationRecord_make. intros H. destruct (uuid_syntax oid) eqn:Eu; [|done]. simpl in H.
  destruct (g <? 1) eqn:Eg; [done|]. bool_inv. apply res_bind_ok in H as (c & _ & H).
  apply res_bind_ok in H as (d & _ & H). destruct (d <=? c) eqn:Ed; [done|]. bool_inv.
  apply res_bind_ok in H as (t & _ & H).
  destruct (tt && _) eqn:E1; [done|]. destruct (_ && negb tt) eqn:E2; [done|].
  apply res_bind_ok in H as (f & Hf & [= <-]).
  assert (f = tf /\ forall g, f = Some g -> Z.of_nat (size g) <= MAX_TERMINAL_FIELDS
    /\ map_Forall (fun k v => _TERMINAL_FIELD k = true /\ slen v <= MAX_TERMINAL_VALUE_LENGTH) g) as [-> Hfs].
  { destruct tf as [f0|]; [|by injection Hf as <-]. apply res_bind_ok in Hf as (g0 & Hg & [= <-]).
    apply terminal_fields_ok in Hg as (-> & ? & ?). split; [done|]. by intros ? [= ->]. }
  split; [|done]. split; simpl; try done.
  destruct tt; simpl in *; bool_inv; split; try done. intros ->. by rewrite bool_decide_true in E2.
Qed.

Lemma or_check_items {V} c f (l : list (string * V)) :
  (forall k v, only_raises c (f k v)) -> only_raises c (check_items f l).
Proof. intros Hf. induction l as [|[k v] l IH]; simpl; [done|]. by or_steps. Qed.

Lemma or_terminal_fields f : only_raises (Domain ValidationError) (require_terminal_fields f).
Proof.
  unfold require_terminal_fields, invalid. or_steps; apply or_check_items.
  intros k v. unfold terminal_field_check, invalid. or_steps.
Qed.

Lemma or_require_utc d n : only_raises (Domain ValidationError) (_require_utc d n).
Proof. unfold _require_utc, invalid. or_steps. Qed.

#[export] Hint Resolve or_terminal_fields or_require_utc : cs71.

(** A constructed operation record is well formed: a UUID identity, a
    positive generation, a deadline after its creation, a trusted terminal
    exactly when it succeeded, bounded lower_snake_case terminal fields; and a
    refused one is refused with a [ValidationError]. *)
Theorem operation_record_valid oid a fp st g ca da who tt oc ta pr tf :
  let r := OperationRecord_make oid a fp st g ca da who tt oc ta pr tf in
  only_raises (Domain ValidationError) r
  /\ forall rec, r = Ok rec -> record_wf rec /\ op_st rec = st /\ operation_id rec = oid.
Proof.
  simpl. split.
  - unfold OperationRecord_make, invalid. or_steps.
  - intros rec E. apply record_make_wf in E. naive_solver.
Qed.
