(* ===== verification/Session.v ===== *)
(** * Connection session state (appliance/daemon/src/cs71d/session.py)

    The lock makes every method one atomic step; the observer is the caller's
    continuation on the published snapshot, so [transition] returns it. *)
From S2P Require Import Prelude PyString Errors.

Module ConnectionState.
Inductive ConnectionState :=
| DISCONNECTED | CONNECTING | VERIFYING_V1 | ACTIVATING_V2 | READY | RECOVERING | UNCERTAIN.

Definition value (s : ConnectionState) : string :=
  match s with
  | DISCONNECTED => "disconnected" | CONNECTING => "connecting" | VERIFYING_V1 => "verifying_v1"
  | ACTIVATING_V2 => "activating_v2" | READY => "ready" | RECOVERING => "recovering"
  | UNCERTAIN => "uncertain"
  end.

#[export] Instance eq_dec : EqDecision ConnectionState.
Proof. solve_decision. Defined.
End ConnectionState.
Export (hints) ConnectionState.
Abbreviation conn_state := ConnectionState.ConnectionState.

Record SessionSnapshot := mkSessionSnapshot {
  ss_state : conn_state;
  ss_generation : Z;
  ss_reason : string;
}.

#[export] Instance SessionSnapshot_eq_dec : EqDecision SessionSnapshot.
Proof. solve_decision. Defined.

Definition ss_admits_work (s : SessionSnapshot) : bool :=
  bool_decide (ss_state s = ConnectionState.READY).

Record SessionState := mkSessionState {
  s_snapshot : SessionSnapshot;
  s_history : list SessionSnapshot;
}.

Definition SessionState_init : SessionState :=
  let s := mkSessionSnapshot ConnectionState.DISCONNECTED 1 "initial" in mkSessionState s [s].

(** The new state, and the snapshot handed to the observer when there was a
    material change. *)
Definition session_transition (state : conn_state) (reason : string) (st : SessionState)
    : SessionState * option SessionSnapshot :=
  if bool_decide (state = ss_state (s_snapshot st)) then (st, None)
  else
    let s := mkSessionSnapshot state (ss_generation (s_snapshot st) + 1) reason in
    (mkSessionState s (s_history st ++ [s]), Some s).

(** ** Invariant *)

(** The history counts generations from 1, its last entry is the published
    snapshot, and neighbours differ in state. *)
Record session_wf (st : SessionState) : Prop := {
  sw_last : last (s_history st) = Some (s_snapshot st);
  sw_generations : forall i s, s_history st !! i = Some s -> ss_generation s = Z.of_nat i + 1;
  sw_material : forall i a b, s_history st !! i = Some a -> s_history st !! S i = Some b ->
    ss_state a <> ss_state b;
}.

Lemma session_wf_init : session_wf SessionState_init.
Proof. split; [done|intros [|i] s H; simplify_eq/=; done|intros [|i] a b H H'; simplify_eq/=]. Qed.

Lemma session_generation st : session_wf st ->
  ss_generation (s_snapshot st) = Z.of_nat (length (s_history st)).
Proof.
  intros [Hl Hg _]. pose proof Hl as Hl'. rewrite last_lookup in Hl. apply Hg in Hl.
  destruct (s_history st); [done|]. simpl in *. lia.
Qed.

Lemma session_transition_wf state reason st :
  session_wf st -> session_wf (session_transition state reason st).1.
Proof.
  intros Hwf. pose proof (session_generation st Hwf) as Hgen. destruct Hwf as [Hl Hg Hm].
  unfold session_transition. case_bool_decide as Hs; [done|]. split; simpl.
  - by rewrite last_snoc.
  - intros i s. rewrite lookup_app_Some. intros [?|[Hle Hi]]; [by apply Hg|].
    apply list_lookup_singleton_Some in Hi as [Hi <-]. simpl. lia.
  - intros i a b. rewrite !lookup_app_Some. intros [Ha|[Hle Ha]] [Hb|[Hle' Hb]].
    + by eapply Hm.
    + apply list_lookup_singleton_Some in Hb as [Hi <-]. simpl. rewrite last_lookup in Hl.
      replace (pred (length (s_history st))) with i in Hl by (apply lookup_lt_Some in Ha; lia).
      simplify_eq. intros E. by apply Hs.
    + apply lookup_lt_Some in Hb. lia.
    + apply list_lookup_singleton_Some in Ha as [? _], Hb as [? _]. lia.
Qed.

(** Any published transition. *)
Definition session_step (st st' : SessionState) : Prop :=
  exists state reason, st' = (session_transition state reason st).1.

Lemma session_step_grows st st' : session_step st st' ->
  st = st' \/ ss_generation (s_snapshot st) < ss_generation (s_snapshot st').
Proof.
  intros (state & reason & ->). unfold session_transition. case_bool_decide; [by left|right; simpl; lia].
Qed.

Lemma session_run_grows st st' : rtc session_step st st' ->
  st = st' \/ ss_generation (s_snapshot st) < ss_generation (s_snapshot st').
Proof.
  induction 1 as [|a b c Hab _ IH]; [by left|]. apply session_step_grows in Hab as [->|Hab]; [done|].
  right. destruct IH as [->|IH]; lia.
Qed.

(** Over any sequence of transitions the session's history is the exact
    audit of its generations: they count 1, 2, 3, ... without gap, the last
    entry is the published snapshot, neighbours differ in state, and between
    two moments either nothing at all changed or the generation grew, so a
    caller that still observes the same generation observes the same session. *)
Theorem session_history_exact (st st' : SessionState) :
  rtc session_step SessionState_init st -> rtc session_step st st' ->
  session_wf st'
  /\ ss_generation (s_snapshot st') = Z.of_nat (length (s_history st'))
  /\ (st = st' \/ ss_generation (s_snapshot st) < ss_generation (s_snapshot st')).
Proof.
  intros H1 H2. assert (session_wf st') as Hwf.
  { apply (rtc_invariant session_step session_wf SessionState_init st').
    - intros x y Hx (s & r & ->). by apply session_transition_wf.
    - by etrans.
    - apply session_wf_init. }
  split_and!; [done|by apply session_generation|by apply session_run_grows].
Qed.

Lemma session_history_exact_witness :
  let st' := (session_transition ConnectionState.CONNECTING "open" SessionState_init).1 in
  session_wf st'
  /\ ss_generation (s_snapshot st') = Z.of_nat (length (s_history st'))
  /\ (SessionState_init = st' \/ ss_generation (s_snapshot SessionState_init) < ss_generation (s_snapshot st')).
Proof.
  intros st'. apply (session_history_exact SessionState_init st'); [apply rtc_refl|].
  apply rtc_once. by exists ConnectionState.CONNECTING, "open".
Defined.
