(* ===== verification/Machine.v ===== *)
(** * The machine view (appliance/daemon/src/cs71d/machine.py) *)
From S2P Require Import Prelude PyString Errors Session.

Module FaultState.
Inductive FaultState := CLEAR | ACTIVE | LATCHED | UNCERTAIN.
#[export] Instance eq_dec : EqDecision FaultState.
Proof. solve_decision. Defined.
End FaultState.
Export (hints) FaultState.
Abbreviation fault_state := FaultState.FaultState.

Record FirmwareProfile := mkFirmwareProfile {
  protocol_version : Z;
  fp_slot_max : Z;
  fp_slot_count : Z;
  fp_queue_depth : Z;
  fp_feed_sensor : bool;
  fp_feed_home : bool;
  fp_sort_home : bool;
}.

Record MachineReadiness := mkMachineReadiness {
  mr_feed_homed : bool;
  mr_sort_homed : bool;
  mr_fault_code : Z;
  mr_mode : string;
  mr_phase : string;
}.

#[export] Instance FirmwareProfile_eq_dec : EqDecision FirmwareProfile.
Proof. solve_decision. Defined.
#[export] Instance MachineReadiness_eq_dec : EqDecision MachineReadiness.
Proof. solve_decision. Defined.

Record MachineSnapshot := mkMachineSnapshot {
  ms_generation : Z;
  connection : conn_state;
  ms_reason : string;
  active_operation_id : option string;
  fault : fault_state;
  journal_available : bool;
  firmware : option FirmwareProfile;
  readiness : option MachineReadiness;
  fault_id : option string;
  fault_opened_at : option Z;
}.

Definition admits_work (s : MachineSnapshot) : bool :=
  bool_decide (connection s = ConnectionState.READY) && journal_available s
  && bool_decide (fault s = FaultState.CLEAR).

Record MachineState := mkMachineState {
  m_snapshot : MachineSnapshot;
  m_history : list MachineSnapshot;
}.

Definition MachineState_init : MachineState :=
  let s := mkMachineSnapshot 1 ConnectionState.DISCONNECTED "initial" None FaultState.CLEAR true
             None None None None in
  mkMachineState s [s].

Definition m_generation (m : MachineState) : Z := ms_generation (m_snapshot m).

(** [replace(snapshot, ...)] for the field groups the methods update. *)
Definition with_generation (g : Z) (s : MachineSnapshot) : MachineSnapshot :=
  mkMachineSnapshot g (connection s) (ms_reason s) (active_operation_id s) (fault s)
    (journal_available s) (firmware s) (readiness s) (fault_id s) (fault_opened_at s).
Definition with_active (a : option string) (reason : string) (s : MachineSnapshot) : MachineSnapshot :=
  mkMachineSnapshot (ms_generation s) (connection s) reason a (fault s)
    (journal_available s) (firmware s) (readiness s) (fault_id s) (fault_opened_at s).
Definition with_connection (c : conn_state) (reason : string) (s : MachineSnapshot) : MachineSnapshot :=
  mkMachineSnapshot (ms_generation s) c reason (active_operation_id s) (fault s)
    (journal_available s) (firmware s) (readiness s) (fault_id s) (fault_opened_at s).
Definition with_profile (f : FirmwareProfile) (r : MachineReadiness) (s : MachineSnapshot) : MachineSnapshot :=
  mkMachineSnapshot (ms_generation s) (connection s) "observed controller capabilities and readiness"
    (active_operation_id s) (fault s) (journal_available s) (Some f) (Some r) (fault_id s) (fault_opened_at s).
Definition with_journal_fault (reason : string) (fid : option string) (at_ : option Z) (s : MachineSnapshot)
    : MachineSnapshot :=
  mkMachineSnapshot (ms_generation s) (connection s) reason (active_operation_id s) FaultState.LATCHED
    false (firmware s) (readiness s) fid at_.

(** [_publish]; the observer is run by the owner on the new last snapshot. *)
Definition _publish (candidate : MachineSnapshot) (m : MachineState) : MachineState :=
  let published := with_generation (m_generation m + 1) candidate in
  mkMachineState published (m_history m ++ [published]).

(** [transition]: the generation to make durable, and the publication that
    follows when the block did not raise. *)
Definition transition_generation (m : MachineState) : Z := m_generation m + 1.
Definition publish_transition (active : option string) (reason : string) (m : MachineState) : MachineState :=
  _publish (with_active active reason (m_snapshot m)) m.

Definition observe_connection (session : SessionSnapshot) (m : MachineState) : MachineState :=
  if bool_decide (ss_state session = connection (m_snapshot m)) then m
  else _publish (with_connection (ss_state session) (ss_reason session) (m_snapshot m)) m.

Definition observe_profile (f : FirmwareProfile) (r : MachineReadiness) (m : MachineState) : MachineState :=
  if bool_decide ((Some f, Some r) = (firmware (m_snapshot m), readiness (m_snapshot m))) then m
  else _publish (with_profile f r (m_snapshot m)) m.

Definition record_journal_fault (reason : string) (fid : option string) (opened_at : option Z)
    (m : MachineState) : MachineState :=
  if negb (journal_available (m_snapshot m)) then m
  else _publish (with_journal_fault reason fid opened_at (m_snapshot m)) m.

(** ** Invariant and steps *)

Inductive machine_step : relation MachineState :=
| step_transition m active reason : machine_step m (publish_transition active reason m)
| step_connection m s : machine_step m (observe_connection s m)
| step_profile m f r : machine_step m (observe_profile f r m)
| step_fault m reason fid at_ : machine_step m (record_journal_fault reason fid at_ m).

Record machine_wf (m : MachineState) : Prop := {
  mw_last : last (m_history m) = Some (m_snapshot m);
  mw_generations : forall i s, m_history m !! i = Some s -> ms_generation s = Z.of_nat i + 1;
  mw_latched : forall i j a b, m_history m !! i = Some a -> m_history m !! j = Some b -> (i <= j)%nat ->
    journal_available a = false -> journal_available b = false;
  mw_fault : Forall (fun s => journal_available s = false <-> fault s = FaultState.LATCHED) (m_history m);
}.

Lemma machine_wf_init : machine_wf MachineState_init.
Proof.
  split; [done| | |by repeat constructor].
  - intros [|i] s H; simplify_eq/=; done.
  - intros [|i] [|j] a b H H'; simplify_eq/=; done.
Qed.

Lemma machine_generation m : machine_wf m -> m_generation m = Z.of_nat (length (m_history m)).
Proof.
  intros [Hl Hg _ _]. pose proof Hl as Hl'. rewrite last_lookup in Hl. apply Hg in Hl.
  unfold m_generation. destruct (m_history m); [done|]. simpl in *. lia.
Qed.

Lemma machine_last_latched m i a : machine_wf m -> m_history m !! i = Some a ->
  journal_available a = false -> journal_available (m_snapshot m) = false.
Proof.
  intros [Hl _ Hj _] Ha. rewrite last_lookup in Hl. apply (Hj _ _ _ _ Ha Hl).
  apply lookup_lt_Some in Ha. lia.
Qed.

Lemma publish_wf s m : machine_wf m ->
  (journal_available (m_snapshot m) = false -> journal_available s = false) ->
  (journal_available s = false <-> fault s = FaultState.LATCHED) ->
  machine_wf (_publish s m).
Proof.
  intros Hwf Hj Hf. pose proof (machine_generation m Hwf) as Hgen.
  pose proof (machine_last_latched m) as Hll. pose proof Hwf as [Hl Hg Hla Hfa]. split; simpl.
  - by rewrite last_snoc.
  - intros i x. rewrite lookup_app_Some. intros [?|[Hle Hi]]; [by apply Hg|].
    apply list_lookup_singleton_Some in Hi as [Hi <-]. simpl. lia.
  - intros i j a b. rewrite !lookup_app_Some. intros [Ha|[Hle Ha]] [Hb|[Hle' Hb]] Hij Hna.
    + exact (Hla _ _ _ _ Ha Hb Hij Hna).
    + apply list_lookup_singleton_Some in Hb as [Hi <-]. simpl. apply Hj. exact (Hll i a Hwf Ha Hna).
    + apply lookup_lt_Some in Hb. lia.
    + apply list_lookup_singleton_Some in Ha as [? <-], Hb as [? <-]. done.
  - apply Forall_app. split; [done|]. by apply Forall_singleton.
Qed.

Lemma machine_snapshot_fault m : machine_wf m ->
  journal_available (m_snapshot m) = false <-> fault (m_snapshot m) = FaultState.LATCHED.
Proof. intros [Hl _ _ Hf]. apply last_Some_elem_of in Hl. rewrite Forall_forall in Hf. by apply Hf. Qed.

Lemma machine_step_wf m m' : machine_wf m -> machine_step m m' -> machine_wf m'.
Proof.
  intros Hwf Hs. pose proof (machine_snapshot_fault m Hwf) as Hf.
  destruct Hs; [by apply publish_wf|unfold observe_connection, observe_profile, record_journal_fault;
    case_match; [done|by apply publish_wf]..].
Qed.

Lemma machine_step_grows m m' : machine_step m m' -> m = m' \/ m_generation m < m_generation m'.
Proof.
  destruct 1; unfold observe_connection, observe_profile, record_journal_fault; try case_match;
    [right|left|right|left|right|left|right]; try done; unfold m_generation; simpl; unfold m_generation; lia.
Qed.

Lemma machine_run_grows m m' : rtc machine_step m m' -> m = m' \/ m_generation m < m_generation m'.
Proof.
  induction 1 as [|a b c Hab _ IH]; [by left|]. apply machine_step_grows in Hab as [->|Hab]; [done|].
  right. destruct IH as [->|IH]; lia.
Qed.

Lemma machine_run_latched m m' : rtc machine_step m m' ->
  journal_available (m_snapshot m) = false -> journal_available (m_snapshot m') = false.
Proof.
  intros Hr. apply (rtc_invariant machine_step (fun x => journal_available (m_snapshot x) = false)); [|done].
  intros x y Hx Hs. destruct Hs; simpl; try done; unfold observe_connection, observe_profile, record_journal_fault;
    case_match; done.
Qed.

(** ** Properties *)

(** Over any interleaving of operation transitions, connection changes,
    profile observations and journal faults, the published history carries the
    generations 1, 2, 3, ... without gap or repetition; an observer that still
    sees generation N sees an unchanged machine; and once durability was lost
    the machine is latched for good: no later snapshot admits work. *)
Theorem machine_history_exact (m m' : MachineState) :
  rtc machine_step MachineState_init m -> rtc machine_step m m' ->
  machine_wf m'
  /\ m_generation m' = Z.of_nat (length (m_history m'))
  /\ (m = m' \/ m_generation m < m_generation m')
  /\ (journal_available (m_snapshot m) = false -> admits_work (m_snapshot m') = false).
Proof.
  intros H1 H2. assert (machine_wf m') as Hwf.
  { apply (rtc_invariant machine_step machine_wf MachineState_init); [apply machine_step_wf|by etrans|apply machine_wf_init]. }
  split_and!; [done|by apply machine_generation|by apply machine_run_grows|].
  intros Hj. unfold admits_work. rewrite (machine_run_latched m m' H2 Hj). by rewrite andb_false_r.
Qed.

Lemma machine_history_exact_witness :
  let m := record_journal_fault "disk" None None MachineState_init in
  let m' := publish_transition (Some "op") "admitted" m in
  machine_wf m'
  /\ m_generation m' = Z.of_nat (length (m_history m'))
  /\ (m = m' \/ m_generation m < m_generation m')
  /\ (journal_available (m_snapshot m) = false -> admits_work (m_snapshot m') = false).
Proof.
  intros m m'. apply (machine_history_exact m m').
  - apply rtc_once, step_fault.
  - apply rtc_once, step_transition.
Defined.
