(* ===== verification/Journal.v ===== *)
(** * The durable journal (appliance/daemon/src/cs71d/journal.py)

    SQLite is modelled by its tables, its constraints and triggers, and its
    transaction state: [committed] is what survives, [working] the open
    transaction of the connection. Every statement may fail, as an oracle
    decides; a failure may also roll the transaction back on its own, as SQLite
    documents for full disks and I/O errors. The connection lock makes every
    method one step. *)
From S2P Require Import Prelude PyString Errors IsoTime Json Operations.

(** ** Rows *)

Record op_row := mkOpRow {
  c_operation_id : string;
  c_action : string;
  c_fingerprint : string;
  c_state : string;
  c_generation : Z;
  c_created_at : string;
  c_deadline_at : string;
  c_actor_user_id : string;
  c_actor_role : string;
  c_trusted_terminal : Z;
  c_outcome : option string;
  c_terminal_at : option string;
  c_protocol_request_id : option Z;
  c_terminal_fields : option string;
}.

Record tr_row := mkTrRow {
  t_transition_id : Z;
  t_operation_id : string;
  t_from_state : option string;
  t_to_state : string;
  t_generation : Z;
  t_occurred_at : string;
  t_reason : string;
}.

Record idem_row := mkIdemRow {
  i_key : string;
  i_fingerprint : string;
  i_operation_id : string;
  i_created_at : string;
  i_expires_at : string;
}.

Record config_row := mkConfigRow {
  g_config_id : string;
  g_generation : Z;
  g_payload : string;
  g_source : string;
  g_created_at : string;
}.

Record DB := mkDB {
  operations : list op_row;
  operation_transitions : list tr_row;
  idempotency_records : list idem_row;
  configuration_snapshots : list config_row;
}.

Definition DB_empty : DB := mkDB [] [] [] [].

(** ** Encoding *)

Definition _encode_time (us : Z) : string := isoformat us.
Definition _decode_time (s : string) : result Z := fromisoformat s.
Definition _encode_optional_time (o : option Z) : option string := _encode_time <$> o.
Definition _decode_optional_time (o : option string) : result (option Z) :=
  match o with None => Ok None | Some s => t ← _decode_time s; Ok (Some t) end.

Definition _require_moment (d : datetime) : result Z :=
  match tz_offset d with
  | None => throw (Domain ValidationError) "journal timestamps must be timezone-aware"
  | Some off => Ok (wall_us d - off)
  end.

Definition _encode_fields (o : option (gmap string string)) : option string :=
  (fun f => dumps_object (SStr <$> f)) <$> o.

Definition _decode_fields (o : option string) : result (option (gmap string string)) :=
  match o with
  | None => Ok None
  | Some s =>
      match loads s with
      | None => throw (Builtin ValueError) "invalid JSON"
      | Some (JObj l) => Ok (Some (py_str <$> dict_of l))
      | Some _ => throw (JournalE JournalError) "stored terminal fields are not a mapping"
      end
  end.

(** [OperationAction(value)] and [OperationState(value)]. *)
Definition action_of (s : string) : result op_action :=
  match list_find (fun a => OperationAction.value a = s)
          [OperationAction.CONNECT; OperationAction.RECOVER; OperationAction.HOME; OperationAction.SORT;
           OperationAction.FEED; OperationAction.STOP; OperationAction.CONFIGURE] with
  | Some (_, a) => Ok a
  | None => throw (Builtin ValueError) (str_repr s +:+ " is not a valid OperationAction")
  end.

Definition state_of (s : string) : result op_state :=
  match list_find (fun a => OperationState.value a = s)
          [OperationState.QUEUED; OperationState.ACCEPTED; OperationState.RUNNING; OperationState.SUCCEEDED;
           OperationState.FAILED; OperationState.CANCELLED; OperationState.UNCERTAIN] with
  | Some (_, a) => Ok a
  | None => throw (Builtin ValueError) (str_repr s +:+ " is not a valid OperationState")
  end.

Definition _decode_operation (row : op_row) : result OperationRecord :=
  a ← action_of (c_action row);
  st ← state_of (c_state row);
  ca ← _decode_time (c_created_at row);
  da ← _decode_time (c_deadline_at row);
  who ← Actor_make (c_actor_user_id row) (c_actor_role row);
  ta ← _decode_optional_time (c_terminal_at row);
  tf ← _decode_fields (c_terminal_fields row);
  OperationRecord_make (c_operation_id row) a (c_fingerprint row) st (c_generation row)
    (utc ca) (utc da) who (negb (c_trusted_terminal row =? 0)) (c_outcome row) (utc <$> ta)
    (c_protocol_request_id row) tf.

Definition _decode_transition (row : tr_row) : result TransitionRecord :=
  from ← match t_from_state row with None => Ok None | Some s => x ← state_of s; Ok (Some x) end;
  to ← state_of (t_to_state row);
  at_ ← _decode_time (t_occurred_at row);
  Ok (mkTransitionRecord (t_transition_id row) (t_operation_id row) from to (t_generation row) at_ (t_reason row)).

Definition _decode_idempotency (row : idem_row) : result IdempotencyRecord :=
  ca ← _decode_time (i_created_at row);
  ea ← _decode_time (i_expires_at row);
  IdempotencyRecord_make (i_key row) (i_fingerprint row) (i_operation_id row) (utc ca) (utc ea).

(** ** Statements *)

Definition integrity {A} (msg : string) : result A := throw (Builtin SqliteIntegrityError) msg.

Definition has_operation (id : string) (db : DB) : bool :=
  bool_decide (Exists (fun r => c_operation_id r = id) (operations db)).

(** The two triggers on [operations]. *)
Definition untrusted_success (r : op_row) : bool :=
  bool_decide (c_state r = "succeeded") && negb (c_trusted_terminal r =? 1).

Definition insert_operation (r : op_row) (db : DB) : result (DB * unit) :=
  if untrusted_success r then integrity "succeeded requires a trusted firmware terminal"
  else if has_operation (c_operation_id r) db then integrity "UNIQUE constraint failed: operations.operation_id"
  else Ok (mkDB (operations db ++ [r]) (operation_transitions db) (idempotency_records db)
             (configuration_snapshots db), tt).

Definition select_operation (id : string) (db : DB) : result (DB * option op_row) :=
  Ok (db, snd <$> list_find (fun r => c_operation_id r = id) (operations db)).

(** [UPDATE operations SET ... WHERE operation_id = id] *)
Definition update_operation (id : string) (f : op_row -> op_row) (db : DB) : result (DB * unit) :=
  let upd r := if bool_decide (c_operation_id r = id) then f r else r in
  if bool_decide (Exists (fun r => c_operation_id r = id /\ untrusted_success (f r) = true) (operations db))
  then integrity "succeeded requires a trusted firmware terminal"
  else Ok (mkDB (upd <$> operations db) (operation_transitions db) (idempotency_records db)
             (configuration_snapshots db), tt).

Definition insert_transition (id : string) (from : option string) (to : string) (gen : Z) (at_ reason : string)
    (db : DB) : result (DB * unit) :=
  if negb (has_operation id db) then integrity "FOREIGN KEY constraint failed"
  else
    let row := mkTrRow (Z.of_nat (length (operation_transitions db)) + 1) id from to gen at_ reason in
    Ok (mkDB (operations db) (operation_transitions db ++ [row]) (idempotency_records db)
          (configuration_snapshots db), tt).

Definition insert_idempotency (r : idem_row) (db : DB) : result (DB * unit) :=
  if bool_decide (Exists (fun x => i_key x = i_key r) (idempotency_records db))
  then integrity "UNIQUE constraint failed: idempotency_records.key"
  else if negb (has_operation (i_operation_id r) db) then integrity "FOREIGN KEY constraint failed"
  else Ok (mkDB (operations db) (operation_transitions db) (idempotency_records db ++ [r])
             (configuration_snapshots db), tt).

Definition insert_configuration (r : config_row) (db : DB) : result (DB * unit) :=
  if bool_decide (Exists (fun x => g_config_id x = g_config_id r) (configuration_snapshots db))
  then integrity "UNIQUE constraint failed: configuration_snapshots.config_id"
  else Ok (mkDB (operations db) (operation_transitions db) (idempotency_records db)
             (configuration_snapshots db ++ [r]), tt).

(** [DELETE FROM idempotency_records WHERE expires_at <= moment] *)
Definition delete_expired (moment : string) (db : DB) : result (DB * Z) :=
  let keep := filter (fun r => str_ltb moment (i_expires_at r) = true) (idempotency_records db) in
  Ok (mkDB (operations db) (operation_transitions db) keep (configuration_snapshots db),
      Z.of_nat (length (idempotency_records db)) - Z.of_nat (length keep)).

(** ** The connection *)

(** What the oracle makes of the next statement: it succeeds, it fails, or it
    fails and SQLite rolls the transaction back by itself. *)
Inductive stmt_fault := FOk | FFail | FAbort.

Record Journal := mkJournal {
  committed : DB;
  working : option DB;
  _closed : bool;
  faults : list stmt_fault;
}.

Definition Journal_init (db : DB) (fs : list stmt_fault) : Journal := mkJournal db None false fs.

Abbreviation JM := (M Journal exn).

Definition current (j : Journal) : DB := default (committed j) (working j).
Definition set_working (w : option DB) (j : Journal) : Journal :=
  mkJournal (committed j) w (_closed j) (faults j).
Definition set_current (db : DB) (j : Journal) : Journal :=
  match working j with
  | Some _ => mkJournal (committed j) (Some db) (_closed j) (faults j)
  | None => mkJournal db None (_closed j) (faults j)
  end.

(** Consults the oracle before a statement runs. *)
Definition with_fault {A} (m : JM A) : JM A := fun j =>
  let rest := mkJournal (committed j) (working j) (_closed j) (tail (faults j)) in
  match faults j with
  | FFail :: _ => (rest, throw (Builtin SqliteError) "disk I/O error")
  | FAbort :: _ => (set_working None rest, throw (Builtin SqliteError) "database or disk is full")
  | _ => m rest
  end.

(** [cursor.execute(...)] *)
Definition execute {A} (f : DB -> result (DB * A)) : JM A :=
  with_fault (fun j =>
    match f (current j) with
    | Ok (db, a) => (set_current db j, Ok a)
    | Err e => (j, Err e)
    | OutOfFuel => (j, OutOfFuel)
    end).

Definition begin_immediate : JM unit :=
  with_fault (fun j =>
    match working j with
    | Some _ => (j, throw (Builtin SqliteError) "cannot start a transaction within a transaction")
    | None => (set_working (Some (committed j)) j, Ok tt)
    end).

Definition rollback : JM unit :=
  with_fault (fun j =>
    match working j with
    | None => (j, throw (Builtin SqliteError) "cannot rollback - no transaction is active")
    | Some _ => (set_working None j, Ok tt)
    end).

Definition commit : JM unit :=
  with_fault (fun j =>
    match working j with
    | None => (j, throw (Builtin SqliteError) "cannot commit - no transaction is active")
    | Some db => (mkJournal db None (_closed j) (faults j), Ok tt)
    end).

Definition journal_error (msg : string) : exn := mk_exn (JournalE JournalError) msg.
Definition is_sqlite_error (e : exn) : bool := isinstance e (Builtin SqliteError).

Definition _require_open : JM unit := fun j =>
  if _closed j then (j, Err (journal_error "journal is closed")) else (j, Ok tt).

(** [with self._guard() as cursor: body] *)
Definition _guard {A} (body : JM A) : JM A :=
  _ ← _require_open;
  try_except body (fun e =>
    if is_sqlite_error e then raise (journal_error ("journal read failed: " +:+ exn_msg e)) else raise e).

(** [with self._transaction() as cursor: body] *)
Definition _transaction {A} (body : JM A) : JM A :=
  _ ← _require_open;
  try_case (_ ← begin_immediate; body)
    (fun a =>
       _ ← try_except commit (fun e =>
             if is_sqlite_error e then raise (journal_error ("journal commit failed: " +:+ exn_msg e)) else raise e);
       mret a)
    (fun e =>
       _ ← rollback;
       if is_sqlite_error e then raise (journal_error ("journal write failed: " +:+ exn_msg e)) else raise e).

Definition close : JM unit := fun j =>
  if _closed j then (j, Ok tt) else (mkJournal (committed j) None true (faults j), Ok tt).

(** ** Methods *)

Definition invalid_transition {A} (msg : string) : JM A := raise (domain_exn InvalidTransitionError msg).

Definition encode_operation (r : OperationRecord) : op_row :=
  mkOpRow (operation_id r) (OperationAction.value (action r)) (fingerprint r)
    (OperationState.value (op_st r)) (generation r) (_encode_time (created_at r))
    (_encode_time (deadline_at r)) (user_id (actor r)) (role (actor r))
    (if trusted_terminal r then 1 else 0) (outcome r) (_encode_optional_time (terminal_at r))
    (protocol_request_id r) (_encode_fields (op_terminal_fields r)).

Definition encode_idempotency (r : IdempotencyRecord) : idem_row :=
  mkIdemRow (idem_key r) (idem_fingerprint r) (idem_operation_id r)
    (_encode_time (idem_created_at r)) (_encode_time (expires_at r)).

Definition _append_transition (id : string) (from : option op_state) (to : op_state) (gen occurred_at : Z)
    (reason : string) : JM unit :=
  execute (insert_transition id (OperationState.value <$> from) (OperationState.value to) gen
             (_encode_time occurred_at) reason).

Definition _read_operation (id : string) : JM (option OperationRecord) :=
  row ← execute (select_operation id);
  match row with
  | None => mret None
  | Some row => r ← liftR (_decode_operation row); mret (Some r)
  end.

Definition record_admission (op : OperationRecord) (reason : string) (idem : option IdempotencyRecord) : JM unit :=
  if negb (bool_decide (op_st op = OperationState.QUEUED))
  then invalid_transition "an admitted operation must start queued"
  else
    _ ← liftR (require_reason reason);
    _ ← liftR (match idem with
               | None => Ok tt
               | Some i =>
                   if negb (bool_decide (idem_operation_id i = operation_id op))
                   then invalid "idempotency record must reference its own operation"
                   else if negb (bool_decide (idem_fingerprint i = fingerprint op))
                   then invalid "idempotency record must carry the request fingerprint"
                   else Ok tt
               end);
    _transaction (
      _ ← execute (insert_operation (encode_operation op));
      _ ← _append_transition (operation_id op) None (op_st op) (generation op) (created_at op) reason;
      match idem with
      | None => mret tt
      | Some i => execute (insert_idempotency (encode_idempotency i))
      end).

(** The [SET] clause of [record_transition]. *)
Definition apply_transition (to : op_state) (gen : Z) (trusted : bool) (oc : option string)
    (term_at : option Z) (request_id : option Z) (fields : option string) (r : op_row) : op_row :=
  mkOpRow (c_operation_id r) (c_action r) (c_fingerprint r) (OperationState.value to) gen
    (c_created_at r) (c_deadline_at r) (c_actor_user_id r) (c_actor_role r)
    (if trusted then 1 else 0) oc (_encode_optional_time term_at)
    (match request_id with Some n => Some n | None => c_protocol_request_id r end)
    (match fields with Some f => Some f | None => c_terminal_fields r end).

Definition record_transition (id : string) (to : op_state) (gen : Z) (occurred_at : datetime)
    (reason : string) (trusted : bool) (oc : option string) (request_id : option Z)
    (fields : option (gmap string string)) : JM OperationRecord :=
  _ ← liftR (require_reason reason);
  if bool_decide (to = OperationState.SUCCEEDED) && negb trusted
  then invalid_transition "succeeded requires a trusted correlated firmware terminal"
  else if trusted && negb (bool_decide (to = OperationState.SUCCEEDED))
  then invalid_transition "only a succeeded operation records a trusted terminal"
  else
    updated ← _transaction (
      cur ← _read_operation id;
      match cur with
      | None => raise (journal_error ("unknown operation " +:+ id))
      | Some cur =>
          if negb (OperationState.can_transition (op_st cur) to)
          then invalid_transition ("operation " +:+ id +:+ " cannot move from "
                 +:+ OperationState.value (op_st cur) +:+ " to " +:+ OperationState.value to)
          else if gen <? generation cur
          then invalid_transition "snapshot generation must not move backwards"
          else
            moment ← liftR (_require_moment occurred_at);
            let term_at := if OperationState.is_terminal to then Some moment else None in
            checked ← liftR (match fields with
                             | None => Ok None
                             | Some f => g ← require_terminal_fields f; Ok (Some g)
                             end);
            _ ← execute (update_operation id
                   (apply_transition to gen trusted oc term_at request_id (_encode_fields checked)));
            _ ← _append_transition id (Some (op_st cur)) to gen moment reason;
            _read_operation id
      end);
    match updated with
    | None => raise (journal_error ("operation " +:+ id +:+ " disappeared during transition"))
    | Some r => mret r
    end.

Definition operation (id : string) : JM (option OperationRecord) := _guard (_read_operation id).

(** Decodes every row, first failure first. *)
Fixpoint decode_all {A B} (f : A -> result B) (l : list A) : result (list B) :=
  match l with
  | [] => Ok []
  | x :: l => y ← f x; ys ← decode_all f l; Ok (y :: ys)
  end.

(** The rows of a page, newest first, with their storage row identity. *)
Definition page_rows (limit : Z) (before : option Z) (state : option op_state) (action : option op_action)
    (db : DB) : list (Z * op_row) :=
  let numbered := imap (fun i r => (Z.of_nat i + 1, r)) (operations db) in
  let keep := filter (fun x =>
      match before with Some b => x.1 <? b | None => true end
      && match state with Some s => bool_decide (c_state x.2 = OperationState.value s) | None => true end
      && match action with Some a => bool_decide (c_action x.2 = OperationAction.value a) | None => true end
      = true) numbered in
  take (Z.to_nat limit) (reverse keep).

(** The [sqlite3] module refuses an integer parameter of more than 64 bits. *)
Definition bind_optional_integer (n : option Z) : result unit :=
  match n with
  | Some n => if (- 2 ^ 63 <=? n) && (n <? 2 ^ 63) then Ok tt
              else throw (Builtin OverflowError) "Python int too large to convert to SQLite INTEGER"
  | None => Ok tt
  end.

Definition recent_operations (limit : Z) (before : option Z) (state : option op_state)
    (action : option op_action) : JM (list (Z * OperationRecord)) :=
  if limit <? 1 then raise (domain_exn ValidationError "limit must be positive")
  else
    rows ← _guard (_ ← liftR (bind_optional_integer before);
                   execute (fun db => Ok (db, page_rows limit before state action db)));
    liftR (decode_all (fun '(cur, row) => r ← _decode_operation row; Ok (cur, r)) rows).

Definition record_configuration (config_id : string) (gen : Z) (values : gmap string Z) (source : string)
    (created : datetime) : JM unit :=
  _transaction (
    at_ ← liftR (_require_moment created);
    execute (insert_configuration
      (mkConfigRow config_id gen (dumps_object (SInt <$> values)) source (_encode_time at_)))).

(** [ORDER BY generation DESC, rowid DESC LIMIT 1] *)
Definition latest_configuration (db : DB) : option config_row :=
  fold_left (fun best r =>
      match best with
      | Some b => if g_generation b <=? g_generation r then Some r else best
      | None => Some r
      end) (configuration_snapshots db) None.

Definition applied_configuration : JM (option (gmap string Z * Z * Z)) :=
  row ← _guard (execute (fun db => Ok (db, latest_configuration db)));
  match row with
  | None => mret None
  | Some row =>
      payload ← liftR (match loads (g_payload row) with
                       | Some v => Ok v | None => throw (Builtin ValueError) "invalid JSON" end);
      match payload with
      | JObj l =>
          vs ← liftR (decode_all (fun kv => n ← py_int kv.2; Ok (kv.1, n)) l);
          at_ ← liftR (_decode_time (g_created_at row));
          mret (Some (dict_of vs, g_generation row, at_))
      | _ => raise (journal_error "a stored configuration payload is not a mapping")
      end
  end.

Definition transitions (id : string) : JM (list TransitionRecord) :=
  rows ← _guard (execute (fun db =>
           Ok (db, filter (fun r => t_operation_id r = id) (operation_transitions db))));
  liftR (decode_all _decode_transition rows).

Definition idempotency_record (key : string) (at_ : datetime) : JM (option IdempotencyRecord) :=
  row ← _guard (execute (fun db =>
          Ok (db, snd <$> list_find (fun r => i_key r = key) (idempotency_records db))));
  match row with
  | None => mret None
  | Some row =>
      r ← liftR (_decode_idempotency row);
      moment ← liftR (_require_moment at_);
      live ← liftR (live_at r (utc moment));
      mret (if live : bool then Some r else None)
  end.

Definition prune_idempotency (at_ : datetime) : JM Z :=
  moment ← liftR (_require_moment at_);
  _transaction (execute (delete_expired (_encode_time moment))).
