(* ===== verification/JournalSpec.v ===== *)
(** * Correctness of the journal

    The abstract journal is a list of operation records, each with the audit
    chain of its transitions; [db_inv] says which tables represent one. Every
    method is shown to keep the committed tables in that relation and to be
    atomic, whatever statements fail. *)
From S2P Require Import Prelude PyString Errors IsoTime Json Operations Journal.

(** ** Rows decode to what was encoded *)

(** Records whose stored form can be read back. *)
Record stored_ok (r : OperationRecord) : Prop := {
  so_wf : record_wf r;
  so_actor : Actor_make (user_id (actor r)) (role (actor r)) = Ok (actor r);
  so_created : valid_moment (created_at r);
  so_deadline : valid_moment (deadline_at r);
  so_terminal : forall t, terminal_at r = Some t -> valid_moment t;
}.

Lemma action_of_value a : action_of (OperationAction.value a) = Ok a.
Proof. by destruct a. Qed.
Lemma state_of_value s : state_of (OperationState.value s) = Ok s.
Proof. by destruct s. Qed.

Lemma decode_encode_time t : valid_moment t -> _decode_time (_encode_time t) = Ok t.
Proof. intros H. unfold _decode_time, _encode_time, fromisoformat. by rewrite iso_roundtrip. Qed.

Lemma dict_of_items (m : gmap string scalar) : dict_of (member_json <$> scalar_items m) = scalar_json <$> m.
Proof.
  unfold dict_of, scalar_items.
  assert (merge_sort scalar_key_le (map_to_list m) ≡ₚ map_to_list m) as Hp by apply merge_sort_Permutation.
  assert (NoDup (merge_sort scalar_key_le (map_to_list m)).*1) as Hnd
    by (rewrite Hp; apply NoDup_fst_map_to_list).
  set (l := merge_sort scalar_key_le (map_to_list m)) in *.
  assert ((member_json <$> l).*1 = l.*1) as Hfst.
  { rewrite <- list_fmap_compose. by apply list_fmap_ext. }
  rewrite <- (list_to_map_proper (member_json <$> l)).
  - change member_json with (prod_map (@id string) scalar_json). rewrite list_to_map_fmap. f_equal.
    rewrite (list_to_map_proper l (map_to_list m)) by done. apply list_to_map_to_list.
  - by rewrite Hfst.
  - by rewrite reverse_Permutation.
Qed.

Lemma decode_encode_fields o : _decode_fields (_encode_fields o) = Ok o.
Proof.
  destruct o as [f|]; [|done]. simpl. rewrite loads_dumps_object, dict_of_items. f_equal. f_equal.
  rewrite <- !map_fmap_compose. rewrite (map_fmap_ext _ id); [by rewrite map_fmap_id|done].
Qed.

Lemma terminal_fields_valid f :
  Z.of_nat (size f) <= MAX_TERMINAL_FIELDS ->
  map_Forall (fun k v => _TERMINAL_FIELD k = true /\ slen v <= MAX_TERMINAL_VALUE_LENGTH) f ->
  require_terminal_fields f = Ok f.
Proof.
  intros Hs Hm. unfold require_terminal_fields. rewrite (proj2 (Z.ltb_ge _ _)) by done.
  assert (check_items terminal_field_check (map_to_list f) = Ok tt) as ->; [|done].
  apply check_items_ok. apply map_Forall_to_list in Hm. eapply Forall_impl; [done|].
  intros [k v] [H1 H2]. simpl in *. unfold terminal_field_check. rewrite H1. simpl.
  by rewrite (proj2 (Z.ltb_ge _ _)).
Qed.

Lemma record_remake r : stored_ok r ->
  OperationRecord_make (operation_id r) (action r) (fingerprint r) (op_st r) (generation r)
    (utc (created_at r)) (utc (deadline_at r)) (actor r) (trusted_terminal r) (outcome r)
    (utc <$> terminal_at r) (protocol_request_id r) (op_terminal_fields r) = Ok r.
Proof.
  intros [[Hu Hg Hd Ht Hf] _ _ _ _]. unfold OperationRecord_make. rewrite Hu. simpl.
  rewrite (proj2 (Z.ltb_ge _ _)) by lia. unfold _require_utc, utc, mbind, res_bind. simpl.
  rewrite (proj2 (Z.leb_gt _ _)) by lia.
  destruct r as [id a fp st g ca da who tt oc ta pr tf]; simpl in *.
  assert (tt && negb (bool_decide (st = OperationState.SUCCEEDED)) = false) as ->.
  { destruct tt; [|done]. simpl. by rewrite bool_decide_true by (by apply Ht). }
  assert (bool_decide (st = OperationState.SUCCEEDED) && negb tt = false) as ->.
  { case_bool_decide as E; [|done]. apply Ht in E as ->. done. }
  replace (ca - 0) with ca by lia. replace (da - 0) with da by lia.
  destruct ta as [ta|]; simpl; [replace (ta - 0) with ta by lia|];
    (destruct tf as [f|]; [|done]; destruct (Hf f eq_refl) as [H1 H2];
     by rewrite terminal_fields_valid).
Qed.

Lemma decode_encode_operation r : stored_ok r -> _decode_operation (encode_operation r) = Ok r.
Proof.
  intros H. pose proof (record_remake r H) as Hr. destruct H as [_ Ha Hc Hd Ht].
  unfold _decode_operation, encode_operation. cbn [c_operation_id c_action c_fingerprint c_state c_generation
    c_created_at c_deadline_at c_actor_user_id c_actor_role c_trusted_terminal c_outcome c_terminal_at
    c_protocol_request_id c_terminal_fields].
  rewrite action_of_value, state_of_value, !decode_encode_time, Ha by done.
  unfold mbind, res_bind.
  assert (_decode_optional_time (_encode_optional_time (terminal_at r)) = Ok (terminal_at r)) as ->.
  { destruct (terminal_at r) as [t|]; [|done]. simpl. by rewrite decode_encode_time by (by apply Ht). }
  rewrite decode_encode_fields. by destruct (trusted_terminal r).
Qed.

Lemma decode_encode_idempotency r : _IDEMPOTENCY_KEY (idem_key r) = true ->
  slen (idem_key r) <= MAX_IDEMPOTENCY_KEY_LENGTH -> idem_created_at r < expires_at r ->
  valid_moment (idem_created_at r) -> valid_moment (expires_at r) ->
  _decode_idempotency (encode_idempotency r) = Ok r.
Proof.
  intros Hk Hl He Hc Hx. unfold _decode_idempotency, encode_idempotency. cbn.
  rewrite !decode_encode_time by done. unfold mbind, res_bind, IdempotencyRecord_make, require_idempotency_key.
  rewrite Hk. simpl. rewrite (proj2 (Z.ltb_ge _ _)) by done. unfold mbind, res_bind, _require_utc, utc. simpl.
  replace (idem_created_at r - 0) with (idem_created_at r) by lia.
  replace (expires_at r - 0) with (expires_at r) by lia.
  rewrite (proj2 (Z.leb_gt _ _)) by lia. by destruct r.
Qed.

(** ** Statements and transactions *)

(** Every statement ends. *)
Ltac stmt_halts :=
  unfold halts, insert_operation, insert_transition, insert_idempotency, insert_configuration,
    update_operation, select_operation, delete_expired, integrity, throw;
  repeat case_match; discriminate.

Lemma wp_with_fault {A} (m : JM A) j Q :
  (forall j', committed j' = committed j -> working j' = working j -> _closed j' = _closed j ->
     faults j' = tail (faults j) -> (forall f fs, faults j = f :: fs -> f = FOk) -> wp m Q j') ->
  (forall j' msg, committed j' = committed j -> _closed j' = _closed j ->
     working j' = working j \/ working j' = None ->
     (exists f fs, faults j = f :: fs /\ f <> FOk) -> Q j' (throw (Builtin SqliteError) msg)) ->
  wp (with_fault m) Q j.
Proof.
  intros Hok Herr. unfold wp, with_fault. destruct (faults j) as [|[] fs] eqn:E.
  - apply Hok; try done.
  - apply Hok; try done. by intros f fs' [= <- <-].
  - apply Herr; try done; [by left|by eexists _, _].
  - apply Herr; try done; [by right|by eexists _, _].
Qed.

(** A statement inside an open transaction touches only the working copy. *)
Lemma wp_execute {A} (f : DB -> result (DB * A)) j w Q : working j = Some w -> halts (f w) ->
  (forall j' db a, f w = Ok (db, a) -> working j' = Some db -> committed j' = committed j -> Q j' (Ok a)) ->
  (forall j' e, committed j' = committed j -> f w = Err e \/ is_sqlite_error e = true -> Q j' (Err e)) ->
  wp (execute f) Q j.
Proof.
  intros Hw Hh HOk HErr. unfold execute. apply wp_with_fault.
  - intros j' Hc Hw' _ _ _. unfold wp, current. rewrite Hw', Hw. simpl.
    destruct (f w) as [[db a]|e|] eqn:E; simpl; [..|done].
    + apply (HOk _ db a); [done| |]; unfold set_current; rewrite Hw', Hw; simpl; done.
    + apply HErr; [done|by left].
  - intros j' msg Hc _ _ _. apply HErr; [done|by right].
Qed.

(** Reading outside a transaction changes nothing. *)
Lemma wp_read {A} (f : DB -> A) j Q :
  (forall j', committed j' = committed j -> working j' = working j -> Q j' (Ok (f (current j)))) ->
  (forall j' e, committed j' = committed j -> is_sqlite_error e = true -> Q j' (Err e)) ->
  wp (execute (fun db => Ok (db, f db))) Q j.
Proof.
  intros HOk HErr. unfold execute. apply wp_with_fault.
  - intros j' Hc Hw _ _ _. unfold wp, current, set_current. rewrite Hw, Hc.
    destruct (working j) as [w|] eqn:E; simpl; unfold current in HOk; rewrite E in HOk; simpl in HOk; apply HOk; try done.
  - intros j' msg Hc _ _ _. by apply HErr.
Qed.

(** What a transaction body owes: it leaves the committed tables alone, and when
    it returns [a] the working copy [w] satisfies [P a w]. *)
Definition body_post {A} (db0 : DB) (P : A -> DB -> Prop) (j' : Journal) (r : result A) : Prop :=
  committed j' = db0 /\
  match r with
  | Ok a => exists w, working j' = Some w /\ P a w
  | Err _ => True
  | OutOfFuel => False
  end.

(** A transaction commits what its body did or leaves the committed tables
    exactly as they were, whichever statement fails. *)
Lemma wp_transaction {A} (body : JM A) (P : A -> DB -> Prop) j Q :
  (forall j0, working j0 = Some (committed j) -> committed j0 = committed j ->
     wp body (body_post (committed j) P) j0) ->
  (forall j' a, P a (committed j') -> working j' = None -> Q j' (Ok a)) ->
  (forall j' e, committed j' = committed j -> Q j' (Err e)) ->
  wp (_transaction body) Q j.
Proof.
  intros Hbody HOk HErr. unfold _transaction. wp_step. unfold _require_open. unfold wp at 1.
  destruct (_closed j); simpl; [by apply HErr|]. wp_steps.
  assert (forall j' e, committed j' = committed j -> wp (_ ← rollback;
    if is_sqlite_error e then raise (journal_error ("journal write failed: " +:+ exn_msg e)) else raise (A:=A) e) Q j') as Hrb.
  { intros j' e Hc. wp_step. unfold rollback. apply wp_with_fault.
    - intros j1 Hc1 _ _ _ _. unfold wp. destruct (working j1); simpl.
      + destruct (is_sqlite_error e); apply HErr; simpl; congruence.
      + apply HErr; congruence.
    - intros j1 msg Hc1 _ _ _. apply HErr. congruence. }
  unfold begin_immediate. apply wp_with_fault.
  2: { intros j1 msg Hc _ _ _. unfold throw. wp_steps. by apply wp_bind_inv, Hrb. }
  intros j1 Hc1 Hw1 _ _ _. unfold wp at 1, throw. destruct (working j1); cbn [fst snd]; wp_steps; [by apply wp_bind_inv, Hrb|].
  eapply wp_conseq; [apply Hbody; simpl; congruence|]. intros j2 [a|e|] [Hc2 Hr]; [| |done].
  - destruct Hr as (w & Hw & HP). wp_steps. unfold commit. apply wp_with_fault.
    + intros j3 Hc3 Hw3 _ _ _. unfold wp. rewrite Hw3, Hw. simpl. by apply HOk.
    + intros j3 msg Hc3 _ _ _. unfold throw. wp_steps. apply HErr. simpl. congruence.
  - by apply Hrb.
Qed.

(** ** The invariant of the tables *)

(** An audit chain ends in a state at a generation. *)
Inductive chain : list (option op_state * op_state * Z) -> op_state -> Z -> Prop :=
| chain_admitted g : chain [(None, OperationState.QUEUED, g)] OperationState.QUEUED g
| chain_step l s g s' g' :
    chain l s g -> OperationState.can_transition s s' = true -> g <= g' ->
    chain (l ++ [(Some s, s', g')]) s' g'.

Definition encode_step (x : option op_state * op_state * Z) : option string * string * Z :=
  (OperationState.value <$> x.1.1, OperationState.value x.1.2, x.2).

Definition step_of_row (r : tr_row) : option string * string * Z :=
  (t_from_state r, t_to_state r, t_generation r).

(** The stored audit of one operation, in storage order. *)
Definition audit (id : string) (db : DB) : list (option string * string * Z) :=
  step_of_row <$> filter (fun r => t_operation_id r = id) (operation_transitions db).

(** [db] represents the operation records [ops]. *)
Record db_inv (ops : list OperationRecord) (db : DB) : Prop := {
  di_rows : operations db = encode_operation <$> ops;
  di_ok : Forall stored_ok ops;
  di_ids : NoDup (operation_id <$> ops);
  di_chain : forall r, r ∈ ops -> exists l, chain l (op_st r) (generation r)
    /\ audit (operation_id r) db = encode_step <$> l;
  di_fk : forall t, t ∈ operation_transitions db -> exists r, r ∈ ops /\ operation_id r = t_operation_id t;
  di_seq : forall i t, operation_transitions db !! i = Some t -> t_transition_id t = Z.of_nat i + 1;
  di_keys : NoDup (i_key <$> idempotency_records db);
  di_idem : forall i, i ∈ idempotency_records db ->
    exists r, r ∈ ops /\ operation_id r = i_operation_id i /\ fingerprint r = i_fingerprint i;
}.

Lemma db_inv_empty : db_inv [] DB_empty.
Proof. split; try done; try constructor; set_solver. Qed.

Lemma has_operation_spec ops db id : operations db = encode_operation <$> ops ->
  has_operation id db = bool_decide (id ∈ operation_id <$> ops).
Proof.
  intros Hr. unfold has_operation. rewrite Hr. apply bool_decide_ext.
  rewrite Exists_exists, list_elem_of_fmap. split.
  - intros (x & Hx & <-). apply list_elem_of_fmap in Hx as (r & -> & Hin). by exists r.
  - intros (r & -> & Hin). exists (encode_operation r). split; [by apply list_elem_of_fmap_2|done].
Qed.

Lemma ids_unique (ops : list OperationRecord) r r' : NoDup (operation_id <$> ops) ->
  r ∈ ops -> r' ∈ ops -> operation_id r = operation_id r' -> r = r'.
Proof.
  intros Hnd Hr Hr' E. apply list_elem_of_lookup in Hr as [i Hi], Hr' as [k Hk].
  assert (i = k) as ->; [|by rewrite Hi in Hk; injection Hk].
  eapply NoDup_lookup; [done| |]; rewrite list_lookup_fmap; [rewrite Hi|rewrite Hk]; simpl; [done|by rewrite E].
Qed.

Lemma select_found ops db id r : db_inv ops db -> r ∈ ops -> operation_id r = id ->
  select_operation id db = Ok (db, Some (encode_operation r)).
Proof.
  intros Hi Hr Hid. unfold select_operation. f_equal. f_equal. rewrite (di_rows _ _ Hi).
  destruct (list_find (fun x => c_operation_id x = id) (encode_operation <$> ops)) as [[i x]|] eqn:E; simpl.
  - f_equal. apply list_find_Some in E as (Hl & Hx & _). rewrite list_lookup_fmap in Hl.
    apply fmap_Some in Hl as (r' & Hl & ->). simpl in Hx. f_equal.
    eapply (ids_unique ops); [apply Hi|by eapply list_elem_of_lookup_2|done|congruence].
  - apply list_find_None in E. rewrite Forall_fmap, Forall_forall in E. by destruct (E r Hr).
Qed.

Lemma select_missing ops db id : db_inv ops db -> id ∉ operation_id <$> ops ->
  select_operation id db = Ok (db, None).
Proof.
  intros Hi Hid. unfold select_operation. f_equal. f_equal. rewrite (di_rows _ _ Hi).
  assert (list_find (fun x => c_operation_id x = id) (encode_operation <$> ops) = None) as ->; [|done].
  apply list_find_None, Forall_fmap, Forall_forall. intros r Hr E. apply Hid. rewrite <- E.
  by apply (list_elem_of_fmap_2 operation_id).
Qed.

Lemma audit_snoc id db db' row : operation_transitions db' = operation_transitions db ++ [row] ->
  audit id db' = audit id db ++ (if bool_decide (t_operation_id row = id) then [step_of_row row] else []).
Proof.
  intros E. unfold audit. rewrite E, filter_app, fmap_app. f_equal.
  rewrite filter_cons, filter_nil. case_decide as Ei; [rewrite bool_decide_true by done|rewrite bool_decide_false by done]; done.
Qed.

(** An operation the tables do not know has no audit. *)
Lemma audit_unknown ops db id : db_inv ops db -> id ∉ operation_id <$> ops -> audit id db = [].
Proof.
  intros Hi Hid. unfold audit.
  assert (filter (fun r => t_operation_id r = id) (operation_transitions db) = []) as ->; [|done].
  destruct (filter _ _) as [|t l] eqn:E; [done|]. exfalso.
  assert (t ∈ filter (fun r => t_operation_id r = id) (operation_transitions db)) as Ht by (rewrite E; by left).
  apply list_elem_of_filter in Ht as [<- Ht]. apply (di_fk _ _ Hi) in Ht as (r & Hr & E'). apply Hid. rewrite <- E'.
  by apply list_elem_of_fmap_2.
Qed.

(** ** Admission *)

Definition admitted_rows (op : OperationRecord) (reason : string) (idem : option IdempotencyRecord) (db : DB) : DB :=
  mkDB (operations db ++ [encode_operation op])
    (operation_transitions db ++
       [mkTrRow (Z.of_nat (length (operation_transitions db)) + 1) (operation_id op) None
          (OperationState.value (op_st op)) (generation op) (_encode_time (created_at op)) reason])
    (idempotency_records db ++ option_list (encode_idempotency <$> idem))
    (configuration_snapshots db).

Definition idem_fits (op : OperationRecord) (idem : option IdempotencyRecord) (db : DB) : Prop :=
  forall i, idem = Some i -> idem_operation_id i = operation_id op /\ idem_fingerprint i = fingerprint op
    /\ idem_key i ∉ i_key <$> idempotency_records db.

Lemma admitted_inv ops db op reason idem : db_inv ops db -> stored_ok op ->
  op_st op = OperationState.QUEUED -> operation_id op ∉ operation_id <$> ops -> idem_fits op idem db ->
  db_inv (ops ++ [op]) (admitted_rows op reason idem db).
Proof.
  intros Hi Hop Hq Hnew Hif. pose proof (audit_unknown _ _ _ Hi Hnew) as Hau.
  pose proof Hi as [Hr Hok Hnd Hch Hfk Hsq Hk Hid]. split; [cbn| | | |cbn|cbn|cbn|cbn].
  - by rewrite Hr, fmap_app.
  - apply Forall_app. split; [done|by apply Forall_singleton].
  - rewrite fmap_app. apply NoDup_app. split_and!; [done| |apply NoDup_singleton]. simpl. set_solver.
  - intros r Hin. rewrite (audit_snoc _ db (admitted_rows op reason idem db) _ eq_refl). cbn. apply elem_of_app in Hin as [Hin|Hin].
    + rewrite bool_decide_false, app_nil_r by (intros E; apply Hnew; rewrite E; by apply list_elem_of_fmap_2). by apply Hch.
    + apply list_elem_of_singleton in Hin as ->. rewrite bool_decide_true, Hau by done.
      exists [(None, OperationState.QUEUED, generation op)]. rewrite Hq. split; [constructor|].
      unfold step_of_row, encode_step. cbn. by rewrite ?Hq.
  - intros t [Ht|Ht]%elem_of_app.
    + destruct (Hfk t Ht) as (r & ? & ?). exists r. split; [by apply elem_of_app; left|done].
    + apply list_elem_of_singleton in Ht as ->. exists op. split; [by apply elem_of_app; right; left|done].
  - intros i t. rewrite lookup_app_Some. intros [Ht|[Hl Ht]]; [by apply Hsq|].
    apply list_lookup_singleton_Some in Ht as [Hz <-]. cbn. lia.
  - rewrite fmap_app. destruct idem as [i|]; simpl; [|by rewrite app_nil_r].
    destruct (Hif i eq_refl) as (_ & _ & Hki). apply NoDup_app. split_and!; [done| |apply NoDup_singleton].
    intros x Hx Hx'. apply list_elem_of_singleton in Hx' as ->. done.
  - intros i [Hin|Hin]%elem_of_app.
    + destruct (Hid i Hin) as (r & ? & ? & ?). exists r. split_and!; [by apply elem_of_app; left|done|done].
    + destruct idem as [d|]; simpl in Hin; [|by apply not_elem_of_nil in Hin]. apply list_elem_of_singleton in Hin as ->.
      destruct (Hif d eq_refl) as (? & ? & _). exists op. split_and!; [by apply elem_of_app; right; left|done|done].
Qed.

(** [record_admission] inserts the three rows together or none of them. *)
Lemma record_admission_spec ops op reason idem j Q :
  db_inv ops (committed j) -> stored_ok op ->
  (forall j', working j' = None -> committed j' = admitted_rows op reason idem (committed j) ->
     db_inv (ops ++ [op]) (committed j') -> Q j' (Ok tt)) ->
  (forall j' e, committed j' = committed j -> Q j' (Err e)) ->
  wp (record_admission op reason idem) Q j.
Proof.
  intros Hi Hop HOk HErr. unfold record_admission. case_bool_decide as Hq; simpl; [|by apply HErr].
  wp_steps. destruct (require_reason reason) as [rs|e|] eqn:Er; [|by apply HErr|by unfold require_reason, invalid in Er; repeat case_match].
  wp_steps. match goal with |- bind_post _ _ _ ?m => destruct m as [[]|e|] eqn:Em end;
    [|by apply HErr|exfalso; by repeat (case_match; try done)].
  wp_steps. eapply (wp_transaction _ (fun _ w => w = admitted_rows op reason idem (committed j)
      /\ db_inv (ops ++ [op]) w)); [|intros j' [] [E Hdb] Hw; by apply HOk|done].
  intros j0 Hw0 Hc0. assert (forall j' (e : exn), committed j' = committed j0 -> body_post (committed j)
    (fun _ w => w = admitted_rows op reason idem (committed j) /\ db_inv (ops ++ [op]) w) j' (Err (A:=unit) e)) as Hfail
    by (intros; split; [congruence|done]).
  wp_step. eapply wp_execute; [done|stmt_halts| |intros; by apply Hfail].
  intros j1 db1 [] Hf1 Hw1 Hc1. unfold insert_operation in Hf1. destruct (untrusted_success _); [done|].
  rewrite (has_operation_spec ops) in Hf1 by apply Hi. case_bool_decide as Hnew; [done|]. injection Hf1 as <-.
  wp_steps. unfold _append_transition.
  eapply wp_execute; [done|stmt_halts| |intros; apply Hfail; congruence].
  intros j2 db2 [] Hf2 Hw2 Hc2. unfold insert_transition in Hf2. destruct (negb (has_operation _ _)); [done|]. injection Hf2 as <-.
  assert (idem_fits op idem (committed j) -> db_inv (ops ++ [op]) (admitted_rows op reason idem (committed j))) as Hfin
    by (intros; by apply admitted_inv).
  wp_steps. destruct idem as [i|]; wp_steps.
  - destruct (bool_decide (idem_operation_id i = _)) eqn:E1; [|done].
    destruct (bool_decide (idem_fingerprint i = _)) eqn:E2; [|done]. bool_inv.
    eapply wp_execute; [done|stmt_halts| |intros; apply Hfail; congruence].
    intros j3 db3 [] Hf3 Hw3 Hc3. unfold insert_idempotency in Hf3. case_bool_decide as Hex; [done|].
    destruct (negb (has_operation _ _)); [done|]. injection Hf3 as <-. split; [congruence|]. eexists. split; [done|]. split; [done|].
    apply Hfin. intros i' [= <-]. split_and!; try done. intros Hin. apply Hex, Exists_exists.
    apply list_elem_of_fmap in Hin as (x & Hx & Hin). exists x. by split.
  - split; [congruence|]. eexists. split; [done|]. unfold admitted_rows in *. simpl in *. rewrite app_nil_r in *.
    split; [done|]. by apply Hfin.
Qed.

(** ** Transitions *)

(** The record after a transition. *)
Definition transitioned (to : op_state) (gen : Z) (trusted : bool) (oc : option string)
    (moment : Z) (request_id : option Z) (fields : option (gmap string string)) (r : OperationRecord)
    : OperationRecord :=
  mkOperationRecord (operation_id r) (action r) (fingerprint r) to gen (created_at r) (deadline_at r)
    (actor r) trusted oc (if OperationState.is_terminal to then Some moment else None)
    (match request_id with Some n => Some n | None => protocol_request_id r end)
    (match fields with Some f => Some f | None => op_terminal_fields r end).

Definition trusted_iff (to : op_state) (trusted : bool) : Prop :=
  trusted = true <-> to = OperationState.SUCCEEDED.

Definition fields_valid (fields : option (gmap string string)) : Prop :=
  forall f, fields = Some f -> Z.of_nat (size f) <= MAX_TERMINAL_FIELDS
    /\ map_Forall (fun k v => _TERMINAL_FIELD k = true /\ slen v <= MAX_TERMINAL_VALUE_LENGTH) f.

Lemma transitioned_ok to gen trusted oc moment req fields r : stored_ok r -> generation r <= gen ->
  trusted_iff to trusted -> valid_moment moment -> fields_valid fields ->
  stored_ok (transitioned to gen trusted oc moment req fields r).
Proof.
  intros [[Hu Hg Hd Ht Hf] Ha Hc Hdl Hta] Hgen Htr Hm Hfv. split; [split|..]; simpl; try done; [lia| |].
  - intros f E. destruct fields as [g|]; [apply (Hfv f); done|by apply Hf].
  - intros t E. destruct (OperationState.is_terminal to); [by injection E as <-|done].
Qed.

Lemma encode_transitioned to gen trusted oc moment req fields r :
  encode_operation (transitioned to gen trusted oc moment req fields r) =
  apply_transition to gen trusted oc (if OperationState.is_terminal to then Some moment else None) req
    (_encode_fields fields) (encode_operation r).
Proof. unfold apply_transition, encode_operation, transitioned. simpl. f_equal; by destruct fields. Qed.

Definition transition_rows (id : string) (from to : op_state) (gen moment : Z) (reason : string)
    (f : op_row -> op_row) (db : DB) : DB :=
  mkDB ((fun r => if bool_decide (c_operation_id r = id) then f r else r) <$> operations db)
    (operation_transitions db ++
       [mkTrRow (Z.of_nat (length (operation_transitions db)) + 1) id (Some (OperationState.value from))
          (OperationState.value to) gen (_encode_time moment) reason])
    (idempotency_records db) (configuration_snapshots db).

(** Replaces the record with this identity. *)
Definition replace_record (r' : OperationRecord) (ops : list OperationRecord) : list OperationRecord :=
  (fun x => if bool_decide (operation_id x = operation_id r') then r' else x) <$> ops.

Lemma replace_ids r' ops : operation_id <$> replace_record r' ops = operation_id <$> ops.
Proof.
  unfold replace_record. rewrite <- list_fmap_compose. apply list_fmap_ext. intros i x _. simpl.
  by case_bool_decide.
Qed.

Lemma elem_of_replace r' ops x : x ∈ replace_record r' ops <->
  (x = r' /\ operation_id r' ∈ operation_id <$> ops) \/ (x ∈ ops /\ operation_id x <> operation_id r').
Proof.
  unfold replace_record. rewrite list_elem_of_fmap. split.
  - intros (y & -> & Hy). case_bool_decide as E; [|by right]. left. split; [done|]. rewrite <- E. by apply list_elem_of_fmap_2.
  - intros [[-> Hin]|[Hx Hne]].
    + apply list_elem_of_fmap in Hin as (y & E & Hy). exists y. by rewrite bool_decide_true.
    + exists x. by rewrite bool_decide_false.
Qed.

Lemma transition_inv ops db r to gen trusted oc moment req fields reason :
  db_inv ops db -> r ∈ ops -> OperationState.can_transition (op_st r) to = true -> generation r <= gen ->
  trusted_iff to trusted -> valid_moment moment -> fields_valid fields ->
  let r' := transitioned to gen trusted oc moment req fields r in
  db_inv (replace_record r' ops)
    (transition_rows (operation_id r) (op_st r) to gen moment reason
       (apply_transition to gen trusted oc (if OperationState.is_terminal to then Some moment else None) req
          (_encode_fields fields)) db).
Proof.
  intros Hi Hr Hct Hgen Htr Hm Hfv r'. pose proof Hi as [Hrow Hok Hnd Hch Hfk Hsq Hk Hid].
  assert (stored_ok r') as Hok' by (apply transitioned_ok; try done; rewrite Forall_forall in Hok; by apply Hok).
  assert (forall x, x ∈ ops -> exists y, y ∈ replace_record r' ops /\ operation_id y = operation_id x
            /\ fingerprint y = fingerprint x) as Hkeep.
  { intros x Hx. destruct (decide (operation_id x = operation_id r')) as [E|E].
    - exists r'. assert (x = r) as -> by (by eapply ids_unique). split_and!; try done.
      apply elem_of_replace. left. split; [done|]. rewrite <- E. by apply list_elem_of_fmap_2.
    - exists x. split_and!; try done. apply elem_of_replace. by right. }
  split; [cbn| | | |cbn|cbn|cbn|cbn].
  - rewrite Hrow. unfold replace_record. rewrite <- !list_fmap_compose. apply list_fmap_ext. intros i x Hx. cbn.
    case_bool_decide as E; [|done]. assert (x = r) as -> by (eapply ids_unique; [done|by eapply list_elem_of_lookup_2|done|done]).
    exact (eq_sym (encode_transitioned to gen trusted oc moment req fields r)).
  - apply Forall_forall. intros x [[-> _]|[Hx _]]%elem_of_replace; [done|]. rewrite Forall_forall in Hok. by apply Hok.
  - by rewrite replace_ids.
  - intros x Hx. rewrite (audit_snoc _ db (transition_rows _ _ _ _ _ _ _ db) _ eq_refl). cbn.
    apply elem_of_replace in Hx as [[-> _]|[Hx Hne]].
    + rewrite bool_decide_true by done. destruct (Hch r Hr) as (l & Hl & Ha).
      exists (l ++ [(Some (op_st r), to, gen)]). split; [by econstructor|]. rewrite fmap_app. cbn. by f_equal.
    + rewrite bool_decide_false, app_nil_r by (intros E; by apply Hne). by apply Hch.
  - intros t [Ht|Ht]%elem_of_app.
    + destruct (Hfk t Ht) as (x & Hx & E). destruct (Hkeep x Hx) as (y & Hy & E' & _). exists y. by rewrite E'.
    + apply list_elem_of_singleton in Ht as ->. destruct (Hkeep r Hr) as (y & Hy & E' & _). by exists y.
  - intros i t. rewrite lookup_app_Some. intros [Ht|[Hl Ht]]; [by apply Hsq|].
    apply list_lookup_singleton_Some in Ht as [Hz <-]. cbn. lia.
  - done.
  - intros i Hin. destruct (Hid i Hin) as (x & Hx & E1 & E2). destruct (Hkeep x Hx) as (y & Hy & E3 & E4).
    exists y. split_and!; congruence.
Qed.

(** A moment the daemon can represent. *)
Definition valid_datetime (d : datetime) : Prop := forall t, _require_moment d = Ok t -> valid_moment t.

Lemma or_moment d : only_raises (Domain ValidationError) (_require_moment d).
Proof. unfold _require_moment. or_steps. Qed.

Lemma require_reason_halts reason : halts (require_reason reason).
Proof. unfold halts, require_reason, invalid, throw. repeat case_match; discriminate. Qed.

(** Reading one operation in a transaction. *)
Lemma wp_read_operation ops id j w Q : working j = Some w -> db_inv ops w ->
  (forall j' r, r ∈ ops -> operation_id r = id -> working j' = Some w -> committed j' = committed j ->
     Q j' (Ok (Some r))) ->
  (forall j', id ∉ operation_id <$> ops -> working j' = Some w -> committed j' = committed j -> Q j' (Ok None)) ->
  (forall j' e, committed j' = committed j -> Q j' (Err e)) ->
  wp (_read_operation id) Q j.
Proof.
  intros Hw Hi HS HN HErr. unfold _read_operation. wp_step.
  eapply wp_execute; [done|stmt_halts| |intros; by apply HErr]. intros j' db row Hf Hw' Hc'. wp_steps.
  destruct (decide (id ∈ operation_id <$> ops)) as [Hin|Hin].
  - apply list_elem_of_fmap in Hin as (r & -> & Hr). rewrite (select_found ops w _ r) in Hf by done.
    injection Hf as <- <-. wp_steps. rewrite decode_encode_operation by (eapply Forall_forall; [apply Hi|done]).
    wp_steps. by apply HS.
  - rewrite (select_missing ops) in Hf by done. injection Hf as <- <-. wp_steps. by apply HN.
Qed.

Lemma wp_update_operation ops j w id f Q : working j = Some w -> db_inv ops w ->
  (forall r, r ∈ ops -> operation_id r = id -> untrusted_success (f (encode_operation r)) = false) ->
  (forall j', working j' = Some (mkDB ((fun r => if bool_decide (c_operation_id r = id) then f r else r) <$> operations w)
       (operation_transitions w) (idempotency_records w) (configuration_snapshots w)) ->
     committed j' = committed j -> Q j' (Ok tt)) ->
  (forall j' e, committed j' = committed j -> Q j' (Err e)) ->
  wp (execute (update_operation id f)) Q j.
Proof.
  intros Hw Hi Hf HOk HErr. eapply wp_execute; [done|stmt_halts| |intros; by apply HErr].
  intros j' db [] Hu Hw' Hc'. unfold update_operation in Hu. case_bool_decide; [done|]. injection Hu as <-. by apply HOk.
Qed.

Definition transition_post (ops : list OperationRecord) (db : DB) (id : string) (to : op_state) (gen : Z)
    (d : datetime) (reason : string) (trusted : bool) (oc : option string) (req : option Z)
    (fields : option (gmap string string)) (r' : OperationRecord) (db' : DB) : Prop :=
  exists r moment, r ∈ ops /\ operation_id r = id /\ _require_moment d = Ok moment
    /\ OperationState.can_transition (op_st r) to = true /\ generation r <= gen
    /\ r' = transitioned to gen trusted oc moment req fields r
    /\ db' = transition_rows id (op_st r) to gen moment reason
               (apply_transition to gen trusted oc (if OperationState.is_terminal to then Some moment else None)
                  req (_encode_fields fields)) db
    /\ db_inv (replace_record r' ops) db'.

(** [record_transition] moves one operation along a permitted edge, with its
    audit row, or changes nothing. *)
Lemma record_transition_spec ops id to gen d reason trusted oc req fields j Q :
  db_inv ops (committed j) -> valid_datetime d ->
  (forall j' r', working j' = None ->
     transition_post ops (committed j) id to gen d reason trusted oc req fields r' (committed j') ->
     trusted_iff to trusted -> Q j' (Ok r')) ->
  (forall j' e, committed j' = committed j -> Q j' (Err e)) ->
  wp (record_transition id to gen d reason trusted oc req fields) Q j.
Proof.
  intros Hi Hd HOk HErr. unfold record_transition. wp_steps. pose proof (require_reason_halts reason) as Hh.
  destruct (require_reason reason) as [rs|e|]; [|by apply HErr|done]. wp_steps.
  destruct (_ && negb trusted) eqn:E1; [by apply HErr|].
  destruct (trusted && _) eqn:E2; [by apply HErr|].
  assert (trusted_iff to trusted) as Htr.
  { unfold trusted_iff. destruct trusted; simpl in *; bool_inv; [done|].
    split; [done|]. intros ->. by rewrite bool_decide_true in E1. }
  wp_step. eapply (wp_transaction _ (fun o w => exists r', o = Some r' /\
    transition_post ops (committed j) id to gen d reason trusted oc req fields r' w)).
  2: { intros j' o (r' & -> & Hp) Hw. wp_steps. by apply HOk. }
  2: { intros j' e Hc. wp_steps. by apply HErr. }
  intros j0 Hw0 Hc0. assert (forall j' (e : exn), committed j' = committed j0 -> body_post (committed j)
    (fun o w => exists r', o = Some r' /\
      transition_post ops (committed j) id to gen d reason trusted oc req fields r' w) j' (Err e)) as Hfail
    by (intros; split; [congruence|done]).
  wp_step. eapply wp_read_operation; [done|done| |intros; by apply Hfail|intros; by apply Hfail].
  intros j1 r Hr Hid Hw1 Hc1. wp_steps. destruct (OperationState.can_transition (op_st r) to) eqn:Hct; simpl; [|by apply Hfail].
  destruct (gen <? generation r) eqn:Hg; [by apply Hfail|]. bool_inv. wp_steps.
  pose proof (or_moment d) as Hom. destruct (_require_moment d) as [moment|e|] eqn:Em; [|by apply Hfail|done]. wp_steps.
  pose proof (Hd moment Em) as Hvm.
  assert (halts (match fields with None => Ok None | Some f => g ← require_terminal_fields f; Ok (Some g) end)) as Hhf.
  { destruct fields as [f|]; [|done]. pose proof (or_terminal_fields f). by destruct (require_terminal_fields f). }
  destruct (match fields with None => Ok None | Some f => g ← require_terminal_fields f; Ok (Some g) end)
    as [checked|e|] eqn:Ef; [|by apply Hfail|done].
  assert (checked = fields /\ fields_valid fields) as [-> Hfv].
  { destruct fields as [f|]; [|injection Ef as <-; by split]. apply res_bind_ok in Ef as (g & Hg' & [= <-]).
    apply terminal_fields_ok in Hg' as (-> & ? & ?). split; [done|]. by intros ? [= <-]. }
  wp_steps. rewrite <- Hid. eapply wp_update_operation; [done|done| | |intros; apply Hfail; congruence].
  { intros x _ _. unfold untrusted_success. cbn [apply_transition c_state c_trusted_terminal].
    destruct trusted; [apply andb_false_r|]. rewrite bool_decide_false; [done|]. intros Es.
    assert (false = true); [|done]. apply Htr. by destruct to. }
  intros j2 Hw2 Hc2. wp_steps. unfold _append_transition.
  eapply wp_execute; [done|stmt_halts| |intros; apply Hfail; congruence].
  intros j3 db3 [] Hf3 Hw3 Hc3. unfold insert_transition in Hf3. destruct (negb (has_operation _ _)); [done|]. injection Hf3 as <-.
  pose proof (transition_inv ops (committed j) r to gen trusted oc moment req fields reason Hi Hr Hct Hg Htr Hvm Hfv) as Hinv.
  simpl in Hinv. wp_steps. eapply (wp_read_operation (replace_record (transitioned to gen trusted oc moment req fields r) ops));
    [done|exact Hinv| | |intros; apply Hfail; congruence].
  - intros j4 r4 Hr4 Hid4 Hw4 Hc4. split; [congruence|]. eexists. split; [done|]. exists r4. split; [done|].
    apply elem_of_replace in Hr4 as [[-> _]|[_ Hne]]; [|by destruct Hne].
    exists r, moment. split_and!; try done.
  - intros j4 Hnin. exfalso. apply Hnin. rewrite replace_ids. by apply list_elem_of_fmap_2.
Qed.

(** ** Configuration, pruning and reads *)

Lemma configuration_inv ops db cfg : db_inv ops db ->
  db_inv ops (mkDB (operations db) (operation_transitions db) (idempotency_records db) cfg).
Proof. by intros [? ? ? ? ? ? ? ?]. Qed.

Lemma record_configuration_spec ops id gen values source d j Q :
  db_inv ops (committed j) ->
  (forall j' row, g_generation row = gen -> working j' = None -> committed j' =
     mkDB (operations (committed j)) (operation_transitions (committed j)) (idempotency_records (committed j))
       (configuration_snapshots (committed j) ++ [row]) -> Q j' (Ok tt)) ->
  (forall j' e, committed j' = committed j -> Q j' (Err e)) ->
  wp (record_configuration id gen values source d) Q j.
Proof.
  intros Hi HOk HErr. unfold record_configuration.
  eapply (wp_transaction _ (fun _ w => exists row, g_generation row = gen /\ w =
     mkDB (operations (committed j)) (operation_transitions (committed j)) (idempotency_records (committed j))
       (configuration_snapshots (committed j) ++ [row])));
    [|intros j' [] (row & Hg & E) Hw; by eapply HOk|done].
  intros j0 Hw0 Hc0. wp_steps. pose proof (or_moment d). destruct (_require_moment d) as [t|e|]; wp_steps; [..|done].
  - eapply wp_execute; [done|stmt_halts| |intros; split; [congruence|done]].
    intros j1 db [] Hf Hw1 Hc1. unfold insert_configuration in Hf. case_bool_decide; [done|]. injection Hf as <-.
    split; [congruence|]. eexists. split; [done|]. by eexists (mkConfigRow _ _ _ _ _).
  - split; [congruence|done].
Qed.

Lemma filter_keys_NoDup (P : idem_row -> Prop) `{forall x, Decision (P x)} l :
  NoDup (i_key <$> l) -> NoDup (i_key <$> filter P l).
Proof.
  induction l as [|x l IH]; [done|]. rewrite fmap_cons, NoDup_cons. intros [Hx Hl]. rewrite filter_cons.
  case_decide; [|by apply IH]. rewrite fmap_cons. constructor; [|by apply IH]. intros Hin. apply Hx.
  apply list_elem_of_fmap in Hin as (y & E & Hy). apply list_elem_of_filter in Hy as [_ Hy]. rewrite E.
  by apply list_elem_of_fmap_2.
Qed.

Definition pruned (moment : string) (db : DB) : DB :=
  mkDB (operations db) (operation_transitions db)
    (filter (fun r => str_ltb moment (i_expires_at r) = true) (idempotency_records db))
    (configuration_snapshots db).

Lemma prune_inv ops db moment : db_inv ops db -> db_inv ops (pruned moment db).
Proof.
  intros [? ? ? ? ? ? Hk Hid]. split; try done; simpl.
  - by apply filter_keys_NoDup.
  - intros i [_ Hi]%list_elem_of_filter. by apply Hid.
Qed.

Lemma prune_spec d j Q :
  (forall j' moment n, working j' = None -> _require_moment d = Ok moment ->
     committed j' = pruned (_encode_time moment) (committed j) -> Q j' (Ok n)) ->
  (forall j' e, committed j' = committed j -> Q j' (Err e)) ->
  wp (prune_idempotency d) Q j.
Proof.
  intros HOk HErr. unfold prune_idempotency. wp_steps. pose proof (or_moment d).
  destruct (_require_moment d) as [t|e|]; wp_steps; [|by apply HErr|done].
  eapply (wp_transaction _ (fun _ w => w = pruned (_encode_time t) (committed j))); [|by eauto|done].
  intros j0 Hw0 Hc0. eapply wp_execute; [done|stmt_halts| |intros; split; [congruence|done]].
  intros j1 db n Hf Hw1 Hc1. injection Hf as <- _. split; [congruence|]. by eexists.
Qed.

(** A guarded read leaves the tables alone. *)
Lemma wp_guard_read {A} (f : DB -> A) j Q :
  (forall j' r, committed j' = committed j -> r <> OutOfFuel -> Q j' r) ->
  wp (_guard (execute (fun db => Ok (db, f db)))) Q j.
Proof.
  intros HQ. unfold _guard. wp_step. unfold _require_open. unfold wp at 1. destruct (_closed j); simpl; [by apply HQ|].
  wp_steps. apply wp_read.
  - intros j' Hc _. by apply HQ.
  - intros j' e Hc He. rewrite He. wp_steps. by apply HQ.
Qed.

(** Methods that only read. *)
Definition reads_only {A} (m : JM A) : Prop := forall j, committed (m j).1 = committed j.

Lemma ro_bind {A B} (m : JM A) (f : A -> JM B) :
  reads_only m -> (forall a, reads_only (f a)) -> reads_only (m ≫= f).
Proof.
  intros Hm Hf j. unfold mbind, M_bind. specialize (Hm j). destruct (m j) as [j' [a|e|]]; simpl in *; [|done..].
  by rewrite (Hf a j').
Qed.
Lemma ro_lift {A} (r : result A) : reads_only (liftR r).
Proof. done. Qed.
Lemma ro_ret {A} (a : A) : reads_only (mret a : JM A).
Proof. done. Qed.
Lemma ro_raise {A} e : reads_only (raise e : JM A).
Proof. done. Qed.
Lemma ro_guard_read {A} (f : DB -> A) : reads_only (_guard (execute (fun db => Ok (db, f db)))).
Proof. intros j. apply (wp_guard_read f j (fun j' _ => committed j' = committed j)). done. Qed.
Lemma ro_execute_read {A} (f : DB -> A) : reads_only (execute (fun db => Ok (db, f db))).
Proof. intros j. by apply (wp_read f j (fun j' _ => committed j' = committed j)). Qed.
Lemma ro_require_open : reads_only _require_open.
Proof. intros j. unfold _require_open. by destruct (_closed j). Qed.
Lemma ro_try {A} (m : JM A) h : reads_only m -> (forall e, reads_only (h e)) -> reads_only (try_except m h).
Proof.
  intros Hm Hh j. unfold try_except. specialize (Hm j). destruct (m j) as [j' [a|e|]]; simpl in *; [done| |done].
  by rewrite (Hh e j').
Qed.
Lemma ro_select id : reads_only (execute (select_operation id)).
Proof.
  intros j. apply (wp_read (fun db => snd <$> list_find (fun r => c_operation_id r = id) (operations db)) j
    (fun j' _ => committed j' = committed j)); done.
Qed.
#[export] Hint Resolve ro_lift ro_ret ro_raise ro_guard_read ro_execute_read ro_require_open ro_select : cs71.

Ltac ro_step :=
  match goal with
  | |- reads_only (_ ≫= _) => apply ro_bind; [|intros]
  | |- reads_only (try_except _ _) => apply ro_try; [|intros]
  | |- reads_only (if ?b then _ else _) => destruct b
  | |- reads_only (match ?x with _ => _ end) => destruct x
  | |- reads_only _ => solve [eauto with cs71]
  end.

Lemma ro_operation id : reads_only (operation id).
Proof. unfold operation, _guard, _read_operation. repeat ro_step. Qed.
Lemma ro_recent l b s a : reads_only (recent_operations l b s a).
Proof. unfold recent_operations, _guard. repeat ro_step. Qed.
Lemma ro_applied : reads_only applied_configuration.
Proof. unfold applied_configuration. repeat ro_step. Qed.
Lemma ro_transitions id : reads_only (transitions id).
Proof. unfold transitions. repeat ro_step. Qed.
Lemma ro_idempotency k d : reads_only (idempotency_record k d).
Proof. unfold idempotency_record. repeat ro_step. Qed.

(** ** The journal as a state machine *)

Inductive journal_call :=
| CallAdmit (op : OperationRecord) (reason : string) (idem : option IdempotencyRecord)
| CallTransition (id : string) (to : op_state) (gen : Z) (d : datetime) (reason : string) (trusted : bool)
    (oc : option string) (req : option Z) (fields : option (gmap string string))
| CallConfigure (id : string) (gen : Z) (values : gmap string Z) (source : string) (d : datetime)
| CallPrune (d : datetime)
| CallOperation (id : string) | CallRecent (limit : Z) (before : option Z) (s : option op_state) (a : option op_action)
| CallApplied | CallTransitions (id : string) | CallIdempotency (key : string) (d : datetime)
| CallClose.

Definition discard {A} (m : JM A) : JM unit := _ ← m; mret tt.

Definition run_call (c : journal_call) : JM unit :=
  match c with
  | CallAdmit op reason idem => record_admission op reason idem
  | CallTransition id to gen d reason trusted oc req fields =>
      discard (record_transition id to gen d reason trusted oc req fields)
  | CallConfigure id gen values source d => record_configuration id gen values source d
  | CallPrune d => discard (prune_idempotency d)
  | CallOperation id => discard (operation id)
  | CallRecent l b s a => discard (recent_operations l b s a)
  | CallApplied => discard applied_configuration
  | CallTransitions id => discard (transitions id)
  | CallIdempotency k d => discard (idempotency_record k d)
  | CallClose => close
  end.

(** The arguments are values the daemon can build: constructed records and
    representable moments. *)
Definition call_ok (c : journal_call) : Prop :=
  match c with
  | CallAdmit op _ _ => stored_ok op
  | CallTransition _ _ _ d _ _ _ _ _ => valid_datetime d
  | _ => True
  end.

(** One call: what it may do to the committed tables. *)
Definition call_post (ops : list OperationRecord) (db : DB) (j' : Journal) (r : result unit) : Prop :=
  match r with
  | Err _ => committed j' = db
  | _ => exists ops', db_inv ops' (committed j')
         /\ operation_transitions db `prefix_of` operation_transitions (committed j')
         /\ (forall r, r ∈ ops -> exists r', r' ∈ ops' /\ operation_id r' = operation_id r
              /\ fingerprint r' = fingerprint r /\ generation r <= generation r'
              /\ (r' = r \/ OperationState.can_transition (op_st r) (op_st r') = true))
  end.

Lemma call_post_same ops db j' r : db_inv ops db -> committed j' = db -> call_post ops db j' r.
Proof.
  intros Hi Hc. destruct r as [a|e|]; simpl; [|done|]; exists ops; rewrite Hc;
    (split_and!; [done|done|intros x Hx; exists x; split_and!; try done; by left]).
Qed.

Lemma call_post_ro {A} (m : JM A) ops j : reads_only m -> db_inv ops (committed j) ->
  wp (discard m) (call_post ops (committed j)) j.
Proof.
  intros Hro Hi. unfold wp. apply call_post_same; [done|].
  apply (ro_bind m (fun _ => mret tt)); [done|intros; apply ro_ret].
Qed.

Lemma run_call_spec c ops j : call_ok c -> db_inv ops (committed j) ->
  wp (run_call c) (call_post ops (committed j)) j.
Proof.
  intros Hok Hi. destruct c; cbn [run_call call_ok] in *; try solve [apply call_post_ro; [|done]; auto using
    ro_operation, ro_recent, ro_applied, ro_transitions, ro_idempotency].
  - eapply record_admission_spec; [done|done| |done]. intros j' _ E Hdb. exists (ops ++ [op]).
    split_and!; [done|rewrite E; by eexists|]. intros r Hr. exists r. split_and!; try done; [|by left].
    by apply elem_of_app; left.
  - unfold discard. wp_step. eapply record_transition_spec; [done|done| |done].
    intros j' r' _ (r & m & Hr & Hid & _ & Hct & Hg & -> & E & Hdb) _. wp_steps.
    eexists. split_and!; [done|rewrite E; by eexists|]. intros x Hx.
    destruct (decide (operation_id x = operation_id r)) as [Ex|Ex].
    + assert (x = r) as -> by (eapply ids_unique; [apply Hi|done..]).
      exists (transitioned to gen trusted oc m req fields r).
      split_and!; [|done|done|done|by right]. apply elem_of_replace. left. split; [done|].
      by apply (list_elem_of_fmap_2 operation_id ops r).
    + exists x. split_and!; try done; [|by left]. apply elem_of_replace. by right.
  - eapply record_configuration_spec; [done| |done]. intros j' row _ _ E. exists ops. rewrite E.
    split_and!; [by apply configuration_inv|done|]. intros r Hr. exists r. split_and!; try done. by left.
  - unfold discard. wp_step. apply prune_spec; [|done]. intros j' m n _ _ E. wp_steps. exists ops. rewrite E.
    split_and!; [by apply prune_inv|done|]. intros r Hr. exists r. split_and!; try done. by left.
  - unfold wp, close. destruct (_closed j); by apply call_post_same.
Qed.
