(* ===== verification/JournalSafety.v ===== *)
(** * What the journal promises, and where it does not

    The histories of the journal's tables under any sequence of calls and any
    statement failures, the exact effect of the two writing methods on a
    healthy connection, and the failure paths that leave the typed errors. *)
From S2P Require Import Prelude PyString Errors IsoTime Json Operations Journal JournalSpec.

(** ** Histories *)

Definition journal_step (j j' : Journal) : Prop := exists c, call_ok c /\ j' = (run_call c j).1.

(** Operations of [ops'] continue those of [ops]: none is lost, none is rewritten, and
    each moved along permitted edges at generations that never decrease. *)
Definition continues (ops ops' : list OperationRecord) : Prop :=
  forall r, r ∈ ops -> exists r', r' ∈ ops' /\ operation_id r' = operation_id r
    /\ fingerprint r' = fingerprint r /\ generation r <= generation r'
    /\ rtc (fun a b => OperationState.can_transition a b = true) (op_st r) (op_st r').

Lemma continues_refl ops : continues ops ops.
Proof. intros r Hr. exists r. split_and!; try done. Qed.

Lemma continues_trans a b c : continues a b -> continues b c -> continues a c.
Proof.
  intros H1 H2 r Hr. destruct (H1 r Hr) as (r1 & Hr1 & E1 & F1 & G1 & S1).
  destruct (H2 r1 Hr1) as (r2 & Hr2 & E2 & F2 & G2 & S2). exists r2.
  split_and!; [done|congruence|congruence|lia|by etrans].
Qed.

(** One call keeps the tables representable and only extends the history. *)
Lemma run_call_continues c ops j : call_ok c -> db_inv ops (committed j) ->
  exists ops', db_inv ops' (committed (run_call c j).1) /\ continues ops ops'
    /\ operation_transitions (committed j) `prefix_of` operation_transitions (committed (run_call c j).1).
Proof.
  intros Hok Hi. pose proof (run_call_spec c ops j Hok Hi) as H. unfold wp in H.
  destruct (run_call c j).2 as [[]|e|]; unfold call_post in H; [|rewrite H; exists ops; split_and!; [done|apply continues_refl|done]|];
    destruct H as (ops' & Hi' & Hp & Hc); exists ops'; split_and!; try done;
    intros r Hr; destruct (Hc r Hr) as (r' & Hr' & E & F & G & S); exists r'; split_and!; try done;
    (destruct S as [->|S]; [done|by apply rtc_once]).
Qed.

(** C15: whatever sequence of journal calls runs and whichever statements fail or abort, the tables
    stay those of a list of well-formed operation records with unique identities, each with an audit
    chain that starts queued, follows permitted edges and ends in its stored state; no operation is
    lost or rewritten, states only move along permitted edges at non-decreasing generations, and the
    audit log only grows at its end. *)
Theorem journal_history_exact (j j' : Journal) (ops : list OperationRecord) :
  db_inv ops (committed j) -> rtc journal_step j j' ->
  exists ops', db_inv ops' (committed j') /\ continues ops ops'
    /\ operation_transitions (committed j) `prefix_of` operation_transitions (committed j').
Proof.
  intros Hi Hr. revert ops Hi. induction Hr as [j|j j1 j2 [c [Hc ->]] _ IH]; intros ops Hi.
  - exists ops. split_and!; [done|apply continues_refl|done].
  - destruct (run_call_continues c ops j Hc Hi) as (ops1 & Hi1 & Hc1 & Hp1).
    destruct (IH ops1 Hi1) as (ops2 & Hi2 & Hc2 & Hp2). exists ops2.
    split_and!; [done|by eapply continues_trans|by etrans].
Qed.

(** C17: a journal call that raises, at whatever statement and for whatever reason, leaves the
    committed tables exactly as they were: the operation row, its audit row and its idempotency row
    become durable together or not at all. *)
Theorem journal_atomic (c : journal_call) (ops : list OperationRecord) (j : Journal) (e : exn) :
  call_ok c -> db_inv ops (committed j) -> (run_call c j).2 = Err e ->
  committed (run_call c j).1 = committed j.
Proof.
  intros Hok Hi He. pose proof (run_call_spec c ops j Hok Hi) as H. unfold wp in H. by rewrite He in H.
Qed.

(** ** A healthy connection *)

Lemma execute_quiet {A} (f : DB -> result (DB * A)) db w w' a :
  f w = Ok (w', a) ->
  execute f (mkJournal db (Some w) false []) = (mkJournal db (Some w') false [], Ok a).
Proof. intros H. unfold execute, with_fault, current. simpl. by rewrite H. Qed.

Lemma read_quiet {A} (f : DB -> A) db :
  execute (fun db => Ok (db, f db)) (Journal_init db []) = (Journal_init db [], Ok (f db)).
Proof. done. Qed.

Lemma transaction_quiet {A} (body : JM A) db w a :
  body (mkJournal db (Some db) false []) = (mkJournal db (Some w) false [], Ok a) ->
  _transaction body (Journal_init db []) = (Journal_init w [], Ok a).
Proof.
  intros H. unfold _transaction, begin_immediate, with_fault, try_case, mbind, M_bind, Journal_init, _require_open,
    set_working. simpl. by rewrite H.
Qed.

Lemma transaction_quiet_err {A} (body : JM A) db w e :
  body (mkJournal db (Some db) false []) = (mkJournal db (Some w) false [], Err e) ->
  _transaction body (Journal_init db []) = (Journal_init db [],
    Err (if is_sqlite_error e then journal_error ("journal write failed: " +:+ exn_msg e) else e)).
Proof.
  intros H. unfold _transaction, begin_immediate, with_fault, try_case, mbind, M_bind, Journal_init, _require_open,
    set_working. simpl. rewrite H. unfold rollback, with_fault. simpl. by destruct (is_sqlite_error e).
Qed.

Lemma bind_quiet {A B} (m : JM A) (f : A -> JM B) j j' a : m j = (j', Ok a) -> (m ≫= f) j = f a j'.
Proof. intros H. unfold mbind, M_bind. by rewrite H. Qed.

Lemma read_operation_quiet ops db w r : db_inv ops w -> r ∈ ops ->
  _read_operation (operation_id r) (mkJournal db (Some w) false []) =
    (mkJournal db (Some w) false [], Ok (Some r)).
Proof.
  intros Hi Hr. unfold _read_operation.
  rewrite (bind_quiet _ _ _ _ _ (execute_quiet _ db w _ _ (select_found ops w _ r Hi Hr eq_refl))).
  unfold mbind, M_bind, liftR. by rewrite decode_encode_operation by (eapply Forall_forall; [apply Hi|done]).
Qed.

Lemma operation_quiet ops db r : db_inv ops db -> r ∈ ops ->
  operation (operation_id r) (Journal_init db []) = (Journal_init db [], Ok (Some r)).
Proof.
  intros Hi Hr. unfold operation, _guard, try_except, _read_operation, mbind, M_bind. simpl.
  pose proof (select_found ops db _ r Hi Hr eq_refl) as Hs. unfold select_operation in Hs. injection Hs as Hs.
  unfold execute, with_fault, current, select_operation. simpl. rewrite Hs. unfold liftR.
  by rewrite decode_encode_operation by (eapply Forall_forall; [apply Hi|done]).
Qed.

Lemma replaced_in r r' ops : r ∈ ops -> operation_id r' = operation_id r -> r' ∈ replace_record r' ops.
Proof.
  intros Hr E. apply elem_of_replace. left. split; [done|]. rewrite E. by apply list_elem_of_fmap_2.
Qed.

Lemma applied_not_untrusted to gen trusted oc t req f row : trusted_iff to trusted ->
  untrusted_success (apply_transition to gen trusted oc t req f row) = false.
Proof.
  intros Htr. unfold untrusted_success. simpl. case_bool_decide as E; [|done].
  assert (to = OperationState.SUCCEEDED) as Hto by (by destruct to). apply Htr in Hto as ->. done.
Qed.

Lemma guards_trusted to trusted : trusted_iff to trusted ->
  bool_decide (to = OperationState.SUCCEEDED) && negb trusted = false
  /\ trusted && negb (bool_decide (to = OperationState.SUCCEEDED)) = false.
Proof.
  intros Htr. unfold trusted_iff in Htr. case_bool_decide as E; destruct trusted; naive_solver.
Qed.

(** The exact run of a transition that passes every check. *)
Lemma record_transition_quiet ops db r to gen d moment reason trusted oc req fields :
  db_inv ops db -> r ∈ ops ->
  OperationState.can_transition (op_st r) to = true -> generation r <= gen -> trusted_iff to trusted ->
  require_reason reason = Ok reason -> _require_moment d = Ok moment -> valid_moment moment ->
  fields_valid fields ->
  let r' := transitioned to gen trusted oc moment req fields r in
  exists db', record_transition (operation_id r) to gen d reason trusted oc req fields (Journal_init db [])
      = (Journal_init db' [], Ok r')
    /\ db_inv (replace_record r' ops) db'
    /\ audit (operation_id r) db' = audit (operation_id r) db ++
         [(Some (OperationState.value (op_st r)), OperationState.value to, gen)].
Proof.
  intros Hi Hr Hct Hg Htr Hre Hm Hvm Hfv r'.
  pose proof (transition_inv ops db r to gen trusted oc moment req fields reason Hi Hr Hct Hg Htr Hvm Hfv) as Hi'.
  fold r' in Hi'. set (db' := transition_rows _ _ _ _ _ _ _ db) in Hi'. exists db'. split_and!; [|done|].
  - destruct (guards_trusted to trusted Htr) as [G1 G2]. unfold record_transition. rewrite Hre, G1, G2.
    erewrite bind_quiet by done.
    refine (eq_trans (bind_quiet _ _ _ (Journal_init db' []) (Some r') _) eq_refl). apply transaction_quiet.
    erewrite bind_quiet by (by eapply read_operation_quiet). cbv beta iota.
    rewrite Hct, (proj2 (Z.ltb_ge _ _) Hg), Hm. cbv beta iota delta [negb].
    erewrite bind_quiet by done.
    assert (match fields with None => Ok None | Some f => g ← require_terminal_fields f; Ok (Some g) end
      = Ok fields :> result (option (gmap string string))) as ->.
    { destruct fields as [f|]; [|done]. destruct (Hfv f eq_refl). by rewrite terminal_fields_valid. }
    erewrite bind_quiet by done.
    erewrite bind_quiet; [|apply execute_quiet; unfold update_operation; rewrite bool_decide_false; [done|]].
    2: { intros Hex. apply Exists_exists in Hex as (row & _ & _ & Hu). by rewrite applied_not_untrusted in Hu. }
    erewrite bind_quiet; [|apply execute_quiet; unfold insert_transition; rewrite (has_operation_spec (replace_record r' ops)),
      bool_decide_true; [done| |apply (di_rows _ _ Hi')]; rewrite replace_ids; by apply list_elem_of_fmap_2].
    apply (read_operation_quiet (replace_record r' ops) db db' r' Hi'). by apply (replaced_in r).
  - rewrite (audit_snoc _ db db' _ eq_refl). by rewrite bool_decide_true.
Qed.

(** On a healthy connection a transition along a permitted edge, at a generation that does not
    move backwards and with a terminal mark exactly for success, is recorded: the method returns the
    updated record, commits the row and one audit row together, and a later read of the operation
    returns the same record. *)
Theorem transition_recorded ops db r to gen d moment reason trusted oc req fields :
  db_inv ops db -> r ∈ ops ->
  OperationState.can_transition (op_st r) to = true -> generation r <= gen -> trusted_iff to trusted ->
  require_reason reason = Ok reason -> _require_moment d = Ok moment -> valid_moment moment ->
  fields_valid fields ->
  let r' := transitioned to gen trusted oc moment req fields r in
  let p := record_transition (operation_id r) to gen d reason trusted oc req fields (Journal_init db []) in
  p.2 = Ok r' /\ db_inv (replace_record r' ops) (committed p.1)
  /\ audit (operation_id r) (committed p.1) = audit (operation_id r) db ++
       [(Some (OperationState.value (op_st r)), OperationState.value to, gen)]
  /\ operation (operation_id r) p.1 = (p.1, Ok (Some r')).
Proof.
  intros Hi Hr Hct Hg Htr Hre Hm Hvm Hfv. cbv zeta.
  destruct (record_transition_quiet ops db r to gen d moment reason trusted oc req fields Hi Hr Hct Hg Htr Hre Hm Hvm Hfv)
    as (db' & E & Hi' & Ha). rewrite E. cbn [fst snd Journal_init committed]. split_and!; try done.
  apply (operation_quiet _ db' (transitioned to gen trusted oc moment req fields r) Hi'). by apply (replaced_in r).
Qed.

(** An idempotency record whose stored form can be read back. *)
Record idem_ok (i : IdempotencyRecord) : Prop := {
  ik_key : _IDEMPOTENCY_KEY (idem_key i) = true;
  ik_len : slen (idem_key i) <= MAX_IDEMPOTENCY_KEY_LENGTH;
  ik_order : idem_created_at i < expires_at i;
  ik_created : valid_moment (idem_created_at i);
  ik_expires : valid_moment (expires_at i);
}.

Lemma admission_guards op i reason : op_st op = OperationState.QUEUED -> require_reason reason = Ok reason ->
  idem_operation_id i = operation_id op -> idem_fingerprint i = fingerprint op ->
  record_admission op reason (Some i) = _transaction (
      _ ← execute (insert_operation (encode_operation op));
      _ ← _append_transition (operation_id op) None (op_st op) (generation op) (created_at op) reason;
      execute (insert_idempotency (encode_idempotency i))).
Proof.
  intros Hq Hr Hi Hf. unfold record_admission. rewrite Hr, Hi, Hf, !bool_decide_true by done. done.
Qed.

Lemma queued_insert ops db op : db_inv ops db -> op_st op = OperationState.QUEUED ->
  operation_id op ∉ operation_id <$> ops ->
  insert_operation (encode_operation op) db = Ok (mkDB (operations db ++ [encode_operation op])
    (operation_transitions db) (idempotency_records db) (configuration_snapshots db), tt).
Proof.
  intros Hi Hq Hn. unfold insert_operation, untrusted_success. cbn [c_state c_operation_id encode_operation].
  rewrite Hq, (has_operation_spec ops db) by apply Hi. rewrite bool_decide_false by done. cbn [andb].
  by rewrite bool_decide_false.
Qed.

Lemma admitted_known db op trs rest cfg :
  has_operation (operation_id op) (mkDB (operations db ++ [encode_operation op]) trs rest cfg) = true.
Proof. apply bool_decide_eq_true. apply Exists_exists. exists (encode_operation op). split; [|done]. set_solver. Qed.

Lemma replay_quiet db i at_ m :
  NoDup (i_key <$> idempotency_records db) -> encode_idempotency i ∈ idempotency_records db -> idem_ok i ->
  _require_moment at_ = Ok m ->
  idempotency_record (idem_key i) at_ (Journal_init db []) =
    (Journal_init db [], Ok (if m <? expires_at i then Some i else None)).
Proof.
  intros Hnd Hin [? ? ? ? ?] Hm. unfold idempotency_record, _guard, try_except, mbind, M_bind. simpl.
  unfold execute, with_fault, current. simpl.
  destruct (list_find (fun r => i_key r = idem_key i) (idempotency_records db)) as [[k x]|] eqn:E.
  2: { apply list_find_None in E. rewrite Forall_forall in E. by destruct (E _ Hin). }
  apply list_find_Some in E as (Hl & Hx & _). assert (x = encode_idempotency i) as ->.
  { apply list_elem_of_lookup in Hin as [k' Hk']. assert (k = k') as ->; [|congruence].
    eapply (NoDup_lookup _ k k' (idem_key i) Hnd); rewrite list_lookup_fmap; [rewrite Hl|rewrite Hk']; simpl; by rewrite ?Hx. }
  simpl. unfold liftR. rewrite decode_encode_idempotency, Hm by done. cbn.
  by replace (m - 0) with m by lia.
Qed.

(** C27: on a healthy connection the admission of a new operation under a new key makes the
    operation, its first audit entry and its key durable in one transaction; from then on the key
    answers with that operation exactly until the key expires. *)
Theorem admission_recorded ops db op reason i at_ m :
  db_inv ops db -> stored_ok op -> op_st op = OperationState.QUEUED ->
  operation_id op ∉ operation_id <$> ops -> require_reason reason = Ok reason -> idem_ok i ->
  idem_operation_id i = operation_id op -> idem_fingerprint i = fingerprint op ->
  idem_key i ∉ i_key <$> idempotency_records db -> _require_moment at_ = Ok m ->
  let p := record_admission op reason (Some i) (Journal_init db []) in
  p.2 = Ok tt /\ db_inv (ops ++ [op]) (committed p.1)
  /\ operation (operation_id op) p.1 = (p.1, Ok (Some op))
  /\ idempotency_record (idem_key i) at_ p.1 = (p.1, Ok (if m <? expires_at i then Some i else None)).
Proof.
  intros Hi Hop Hq Hn Hre Hik Ho Hf Hk Hm.
  assert (idem_fits op (Some i) db) as Hfit by (by intros i' [= <-]).
  pose proof (admitted_inv ops db op reason (Some i) Hi Hop Hq Hn Hfit) as Hi'.
  assert (record_admission op reason (Some i) (Journal_init db []) =
    (Journal_init (admitted_rows op reason (Some i) db) [], Ok tt)) as ->.
  { rewrite admission_guards by done. apply transaction_quiet.
    erewrite bind_quiet by (apply execute_quiet; by apply (queued_insert ops)).
    erewrite bind_quiet by (apply execute_quiet; unfold insert_transition; by rewrite admitted_known).
    apply execute_quiet. unfold insert_idempotency. simpl. rewrite Ho, admitted_known.
    rewrite bool_decide_false; [done|]. intros Hex. apply Exists_exists in Hex as (x & Hx & E). apply Hk.
    rewrite <- E. by apply list_elem_of_fmap_2. }
  cbn [fst snd Journal_init committed]. split_and!; [done|done| |].
  - apply (operation_quiet _ _ _ Hi'). set_solver.
  - apply replay_quiet; [apply Hi'| |done|done]. cbn. set_solver.
Qed.

(** ** Failure paths that leave the contract *)

(** Once a key has expired the journal answers as if it were unused, but its row is still there
    until it is pruned: a new operation under that key is refused as a failed write, not admitted. *)
Theorem expired_key_not_reusable ops db old at_ m op reason i :
  db_inv ops db -> encode_idempotency old ∈ idempotency_records db -> idem_ok old ->
  _require_moment at_ = Ok m -> expires_at old <= m ->
  op_st op = OperationState.QUEUED -> operation_id op ∉ operation_id <$> ops ->
  require_reason reason = Ok reason -> idem_operation_id i = operation_id op ->
  idem_fingerprint i = fingerprint op -> idem_key i = idem_key old ->
  idempotency_record (idem_key i) at_ (Journal_init db []) = (Journal_init db [], Ok None)
  /\ record_admission op reason (Some i) (Journal_init db []) = (Journal_init db [],
       Err (journal_error "journal write failed: UNIQUE constraint failed: idempotency_records.key")).
Proof.
  intros Hi Hold Hok Hm Hexp Hq Hn Hre Ho Hf Hk. split.
  - rewrite Hk, (replay_quiet _ old at_ m) by (try done; apply Hi). by rewrite (proj2 (Z.ltb_ge _ _)).
  - rewrite admission_guards by done. 
    eapply (transaction_quiet_err _ db _
      (mk_exn (Builtin SqliteIntegrityError) "UNIQUE constraint failed: idempotency_records.key")).
    erewrite bind_quiet by (apply execute_quiet; by apply (queued_insert ops)).
    erewrite bind_quiet by (apply execute_quiet; unfold insert_transition; by rewrite admitted_known).
    unfold execute, with_fault, current, insert_idempotency. simpl. rewrite bool_decide_true; [done|].
    apply Exists_exists. exists (encode_idempotency old). by split.
Qed.

(** When the transaction cannot even start, the handler's [ROLLBACK] finds no transaction and
    raises in its turn, so the caller gets the bare sqlite3 error and not the [JournalError] the
    write path is documented to raise. *)
Theorem begin_failure_escapes {A} (body : JM A) (db : DB) (fs : list stmt_fault) :
  exists e, (_transaction body (Journal_init db (FFail :: fs))).2 = Err e
    /\ isinstance e (Builtin SqliteError) = true /\ isinstance e (JournalE JournalError) = false.
Proof. destruct fs as [|[] fs]; eexists; (split; [reflexivity|done]). Qed.

(** ** Concrete runs *)

Definition demo_actor : Actor := mkActor "operator-1" "operator".
Definition demo_op (id : string) : OperationRecord :=
  mkOperationRecord id OperationAction.SORT "fp-1" OperationState.QUEUED 3 1700000000000000 1700000030000000
    demo_actor false None None None None.
Definition demo_id : string := "6f1c1c52-0a5e-4c57-9b53-6f0a4be0d001".
Definition demo_id2 : string := "6f1c1c52-0a5e-4c57-9b53-6f0a4be0d002".
Definition demo_key (id : string) : IdempotencyRecord :=
  mkIdempotencyRecord "key-000000000001" "fp-1" id 1700000000000000 1700086400000000.
Definition demo_db : DB := admitted_rows (demo_op demo_id) "admitted" (Some (demo_key demo_id)) DB_empty.

Lemma demo_op_ok id : uuid_syntax id = true -> stored_ok (demo_op id).
Proof. intros H. split; [split|..]; try done; try (by vm_compute). Qed.
Lemma demo_key_ok id : idem_ok (demo_key id).
Proof. split; by vm_compute. Qed.
Lemma demo_db_inv : db_inv [demo_op demo_id] demo_db.
Proof.
  apply (admitted_inv []); [apply db_inv_empty|by apply demo_op_ok|done|by apply not_elem_of_nil|].
  intros i [= <-]. split_and!; [done|done|by apply not_elem_of_nil].
Qed.

Lemma journal_history_exact_witness :
  let j' := (run_call (CallAdmit (demo_op demo_id) "admitted" None) (Journal_init DB_empty [FOk; FOk; FFail])).1 in
  exists ops', db_inv ops' (committed j') /\ continues [] ops'
    /\ operation_transitions DB_empty `prefix_of` operation_transitions (committed j').
Proof.
  apply (journal_history_exact (Journal_init DB_empty [FOk; FOk; FFail]) _ []); [apply db_inv_empty|].
  apply rtc_once. exists (CallAdmit (demo_op demo_id) "admitted" None). split; [by apply demo_op_ok|done].
Defined.

Lemma journal_atomic_witness :
  let c := CallAdmit (demo_op demo_id) "admitted" None in
  committed (run_call c (Journal_init DB_empty [FOk; FOk; FFail])).1 = DB_empty.
Proof.
  cbv zeta. eapply (journal_atomic _ [] (Journal_init DB_empty [FOk; FOk; FFail]));
    [by apply demo_op_ok|apply db_inv_empty|vm_compute; reflexivity].
Defined.

Lemma transition_recorded_witness :
  let p := record_transition demo_id OperationState.ACCEPTED 4 (utc 1700000001000000) "accepted" false None
             (Some 7) None (Journal_init demo_db []) in
  operation demo_id p.1 = (p.1, Ok (Some
    (transitioned OperationState.ACCEPTED 4 false None 1700000001000000 (Some 7) None (demo_op demo_id)))).
Proof.
  apply (transition_recorded [demo_op demo_id] demo_db (demo_op demo_id) OperationState.ACCEPTED 4
    (utc 1700000001000000) 1700000001000000 "accepted" false None (Some 7) None);
    [apply demo_db_inv|by left|done|by vm_compute|done|done|done|by vm_compute|done].
Defined.

Lemma admission_recorded_witness :
  let p := record_admission (demo_op demo_id) "admitted" (Some (demo_key demo_id)) (Journal_init DB_empty []) in
  p.2 = Ok tt /\ idempotency_record "key-000000000001" (utc 1700000000000001) p.1
    = (p.1, Ok (Some (demo_key demo_id))).
Proof.
  destruct (admission_recorded [] DB_empty (demo_op demo_id) "admitted" (demo_key demo_id)
    (utc 1700000000000001) 1700000000000001) as (H1 & _ & _ & H2);
    [apply db_inv_empty|by apply demo_op_ok|done|by apply not_elem_of_nil|done|apply demo_key_ok|done|done
    |by apply not_elem_of_nil|done|]. split; [exact H1|exact H2].
Defined.

Lemma expired_key_not_reusable_witness :
  record_admission (demo_op demo_id2) "admitted" (Some (demo_key demo_id2)) (Journal_init demo_db []) =
    (Journal_init demo_db [],
       Err (journal_error "journal write failed: UNIQUE constraint failed: idempotency_records.key")).
Proof.
  apply (expired_key_not_reusable [demo_op demo_id] demo_db (demo_key demo_id) (utc 1700086400000000)
    1700086400000000); [apply demo_db_inv|by left|apply demo_key_ok|done|by vm_compute|done| |done..].
  cbn. intros H%list_elem_of_singleton. discriminate H.
Defined.
