(* ===== verification/Configuration.v ===== *)
(** * Daemon policy values (appliance/daemon/src/cs71d/configuration.py)

    A change is a mapping of JSON scalars; the values keep integers only, so the
    type checks of the constructor are part of the model. *)
From S2P Require Import Prelude PyString Errors Json Operations.

Definition _BOUNDS : list (string * (Z * Z)) :=
  [("heartbeat_interval_ms", (1000, 60000));
   ("event_retention_count", (100, 100000));
   ("operation_retention_days", (1, 365));
   ("max_deadline_ms", (1000, 120000))].

Record ConfigurationValues := mkConfigurationValues {
  heartbeat_interval_ms : Z;
  event_retention_count : Z;
  operation_retention_days : Z;
  max_deadline_ms : Z;
}.

#[export] Instance ConfigurationValues_eq_dec : EqDecision ConfigurationValues.
Proof. solve_decision. Defined.

Definition ConfigurationValues_default : ConfigurationValues :=
  mkConfigurationValues 15000 5000 30 120000.

(** One turn of the [__post_init__] loop. *)
Definition check_bound (name : string) (lowest highest : Z) (v : BodyValue) : result Z :=
  match v with
  | BInt n =>
      if (lowest <=? n) && (n <=? highest) then Ok n
      else invalid (name +:+ " must be between " +:+ str_of_Z lowest +:+ " and " +:+ str_of_Z highest)
  | _ => invalid (name +:+ " must be an integer")
  end.

Definition ConfigurationValues_make (heartbeat events days deadline : BodyValue) : result ConfigurationValues :=
  h ← check_bound "heartbeat_interval_ms" 1000 60000 heartbeat;
  e ← check_bound "event_retention_count" 100 100000 events;
  d ← check_bound "operation_retention_days" 1 365 days;
  m ← check_bound "max_deadline_ms" 1000 120000 deadline;
  Ok (mkConfigurationValues h e d m).

Definition as_mapping (v : ConfigurationValues) : gmap string Z :=
  <["heartbeat_interval_ms" := heartbeat_interval_ms v]>
  (<["event_retention_count" := event_retention_count v]>
  (<["operation_retention_days" := operation_retention_days v]>
  {["max_deadline_ms" := max_deadline_ms v]})).

(** [sorted(set(changes) - set(_BOUNDS))] *)
Definition unknown_fields {V} (changes : gmap string V) : list string :=
  str_sorted (filter (fun k => k ∉ _BOUNDS.*1) (map_to_list changes).*1).


(** [replace(self, **changes)] once the names are known. *)
Definition replace_values (v : ConfigurationValues) (changes : gmap string BodyValue) : result ConfigurationValues :=
  ConfigurationValues_make
    (default (BInt (heartbeat_interval_ms v)) (changes !! "heartbeat_interval_ms"))
    (default (BInt (event_retention_count v)) (changes !! "event_retention_count"))
    (default (BInt (operation_retention_days v)) (changes !! "operation_retention_days"))
    (default (BInt (max_deadline_ms v)) (changes !! "max_deadline_ms")).

Definition with_changes (v : ConfigurationValues) (changes : gmap string BodyValue) : result ConfigurationValues :=
  if bool_decide (changes = ∅) then invalid "a configuration change must change something"
  else
    let unknown := unknown_fields changes in
    if negb (bool_decide (unknown = [])) then invalid ("unknown configuration field(s): " +:+ list_repr unknown)
    else replace_values v changes.

Definition from_mapping (values : gmap string Z) : result ConfigurationValues :=
  let unknown := unknown_fields values in
  if negb (bool_decide (unknown = [])) then invalid ("unknown configuration field(s): " +:+ list_repr unknown)
  else replace_values ConfigurationValues_default (BInt <$> values).

(** ** Correctness *)

Definition in_bounds (v : ConfigurationValues) : Prop :=
  1000 <= heartbeat_interval_ms v <= 60000 /\ 100 <= event_retention_count v <= 100000
  /\ 1 <= operation_retention_days v <= 365 /\ 1000 <= max_deadline_ms v <= 120000.

Lemma or_check_bound name lo hi v : only_raises (Domain ValidationError) (check_bound name lo hi v).
Proof. unfold check_bound, invalid. or_steps. Qed.
#[export] Hint Resolve or_check_bound : cs71.

Lemma check_bound_ok name lo hi v n : check_bound name lo hi v = Ok n -> v = BInt n /\ lo <= n <= hi.
Proof.
  unfold check_bound. destruct v; try done. destruct (_ && _) eqn:E; [|done]. intros [= ->]. bool_inv. done.
Qed.

Lemma check_bound_int name lo hi n : lo <= n <= hi -> check_bound name lo hi (BInt n) = Ok n.
Proof. intros [H1 H2]. simpl. apply Z.leb_le in H1, H2. by rewrite H1, H2. Qed.

Lemma make_ok h e d m v : ConfigurationValues_make h e d m = Ok v <->
  in_bounds v /\ h = BInt (heartbeat_interval_ms v) /\ e = BInt (event_retention_count v)
  /\ d = BInt (operation_retention_days v) /\ m = BInt (max_deadline_ms v).
Proof.
  unfold ConfigurationValues_make, in_bounds. split.
  - intros H. res_inv. repeat match goal with H : check_bound _ _ _ _ = Ok _ |- _ => apply check_bound_ok in H as [-> ?] end.
    done.
  - destruct v; simpl. intros ((? & ? & ? & ?) & -> & -> & -> & ->). by rewrite !check_bound_int.
Qed.

Lemma unknown_nil {V} (m : gmap string V) :
  unknown_fields m = [] <-> forall k, is_Some (m !! k) -> k ∈ _BOUNDS.*1.
Proof.
  unfold unknown_fields, str_sorted. split.
  - intros H k [v Hk]. destruct (decide (k ∈ _BOUNDS.*1)) as [|Hn]; [done|].
    assert (k ∈ filter (fun k => k ∉ _BOUNDS.*1) (map_to_list m).*1) as Hin.
    { apply list_elem_of_filter. split; [done|]. apply (list_elem_of_fmap_2 fst _ (k, v)). by apply elem_of_map_to_list. }
    rewrite <- (merge_sort_Permutation String.le), H in Hin. by apply not_elem_of_nil in Hin.
  - intros H. apply Permutation_nil. rewrite (merge_sort_Permutation String.le).
    destruct (filter _ _) as [|k l] eqn:E; [done|]. exfalso.
    assert (k ∈ filter (fun k => k ∉ _BOUNDS.*1) (map_to_list m).*1) as Hin by (rewrite E; by left).
    apply list_elem_of_filter in Hin as [Hn Hin]. apply list_elem_of_fmap in Hin as ([k' v] & -> & Hk).
    apply elem_of_map_to_list in Hk. by apply Hn, H.
Qed.

Lemma as_mapping_known v : unknown_fields (as_mapping v) = [].
Proof.
  apply unknown_nil. intros k [x Hk]. unfold as_mapping in Hk.
  repeat (apply lookup_insert_Some in Hk as [[<- _]|[_ Hk]]; [by vm_compute; repeat constructor|]).
  apply lookup_singleton_Some in Hk as [<- _]. by vm_compute; repeat constructor.
Qed.

Lemma as_mapping_lookup v k : as_mapping v !! k =
  if bool_decide (k = "heartbeat_interval_ms") then Some (heartbeat_interval_ms v)
  else if bool_decide (k = "event_retention_count") then Some (event_retention_count v)
  else if bool_decide (k = "operation_retention_days") then Some (operation_retention_days v)
  else if bool_decide (k = "max_deadline_ms") then Some (max_deadline_ms v) else None.
Proof. unfold as_mapping. rewrite !lookup_insert, lookup_singleton. repeat case_bool_decide; repeat case_decide; subst; try done. Qed.

(** [json]-free reading of a change: what the field [k] becomes. *)
Definition changed (old : option Z) (c : option BodyValue) : option Z :=
  match c with Some (BInt n) => Some n | Some _ => None | None => old end.

(** Policy values survive storage (reading the stored mapping gives the same values back), and
    an accepted change sets exactly the fields it names, to integers within the contract's bounds,
    leaves every other field alone and names nothing unknown; anything else is refused with a
    [ValidationError]. *)
Theorem configuration_change_exact (v : ConfigurationValues) (changes : gmap string BodyValue) :
  (in_bounds v -> from_mapping (as_mapping v) = Ok v)
  /\ only_raises (Domain ValidationError) (with_changes v changes)
  /\ forall v', with_changes v changes = Ok v' ->
       in_bounds v' /\ changes <> ∅ /\ dom changes ⊆ dom (as_mapping v)
       /\ forall k, as_mapping v' !! k = changed (as_mapping v !! k) (changes !! k).
Proof.
  split_and!.
  - intros Hb. unfold from_mapping. rewrite as_mapping_known. simpl. unfold replace_values.
    rewrite !lookup_fmap, !as_mapping_lookup. simpl. by apply make_ok.
  - unfold with_changes, replace_values, ConfigurationValues_make, invalid. or_steps.
  - intros v' H. unfold with_changes in H. case_bool_decide as Hne; [done|].
    destruct (negb (bool_decide (unknown_fields changes = []))) eqn:Hu; [done|]. bool_inv.
    rewrite unknown_nil in Hu. apply make_ok in H as (Hb & E1 & E2 & E3 & E4). split_and!; [done|done| |].
    + intros k [x Hk]%elem_of_dom. apply elem_of_dom. rewrite as_mapping_lookup.
      assert (k ∈ _BOUNDS.*1) as Hin by (by apply Hu). unfold _BOUNDS in Hin. simpl in Hin.
      rewrite !elem_of_cons, elem_of_nil in Hin. destruct Hin as [->|[->|[->|[->|[]]]]]; by eexists.
    + intros k. rewrite !as_mapping_lookup. unfold changed.
      destruct (changes !! k) as [c|] eqn:Hk.
      * assert (k ∈ _BOUNDS.*1) as Hin by (apply Hu; by eexists). unfold _BOUNDS in Hin. simpl in Hin.
        rewrite !elem_of_cons, elem_of_nil in Hin.
        destruct Hin as [->|[->|[->|[->|[]]]]]; simpl; rewrite Hk in *; simpl in *; by subst.
      * repeat case_bool_decide; subst; rewrite ?Hk in *; simpl in *; congruence.
Qed.

Lemma configuration_change_exact_witness :
  from_mapping (as_mapping ConfigurationValues_default) = Ok ConfigurationValues_default
  /\ with_changes ConfigurationValues_default {["max_deadline_ms" := BInt 30000]}
     = Ok (mkConfigurationValues 15000 5000 30 30000)
  /\ as_mapping (mkConfigurationValues 15000 5000 30 30000) !! "max_deadline_ms" = Some 30000.
Proof.
  destruct (configuration_change_exact ConfigurationValues_default {["max_deadline_ms" := BInt 30000]}) as (H1 & _ & H2).
  assert (with_changes ConfigurationValues_default {["max_deadline_ms" := BInt 30000]}
     = Ok (mkConfigurationValues 15000 5000 30 30000)) as Hc by (vm_compute; reflexivity).
  split_and!; [apply H1; repeat split; by vm_compute|done|].
  destruct (H2 _ Hc) as (_ & _ & _ & Hk). rewrite Hk. vm_compute. reflexivity.
Defined.
