(* ===== verification/Adapters.v ===== *)
(** * Worker intents and the typed adapters (appliance/daemon/src/cs71d/adapters.py,
    and the intent types of serial_worker.py) *)
From S2P Require Import Prelude PyString Errors Json Operations Session Machine.

(** ** Intents *)

Inductive QueryKind := QSTATUS | QCAPABILITIES | QQUEUE.

Module SessionAction.
Inductive SessionAction := CONNECT | RECOVER.
Definition value (a : SessionAction) : string := match a with CONNECT => "connect" | RECOVER => "recover" end.
End SessionAction.

Module HomeAxis.
Inductive HomeAxis := FEEDER | SORTER | BOTH.
Definition value (a : HomeAxis) : string :=
  match a with FEEDER => "feeder" | SORTER => "sorter" | BOTH => "both" end.
End HomeAxis.

Inductive WorkerIntent :=
| SessionIntent (action : SessionAction.SessionAction)
| QueryIntent (kind : QueryKind)
| HomeIntent (axis : HomeAxis.HomeAxis)
| SortIntent (slot : Z).

#[export] Instance QueryKind_eq_dec : EqDecision QueryKind.
Proof. solve_decision. Defined.
#[export] Instance SessionAction_eq_dec : EqDecision SessionAction.SessionAction.
Proof. solve_decision. Defined.
#[export] Instance HomeAxis_eq_dec : EqDecision HomeAxis.HomeAxis.
Proof. solve_decision. Defined.
#[export] Instance WorkerIntent_eq_dec : EqDecision WorkerIntent.
Proof. solve_decision. Defined.

(** [SortIntent(slot)] with its [__post_init__]. *)
Definition SortIntent_make (slot : Z) : result WorkerIntent :=
  if (0 <=? slot) && (slot <=? 102) then Ok (SortIntent slot)
  else throw (Builtin ValueError) "slot must be an integer in range 0..102".

(** [HomeAxis(axis)] *)
Definition axis_of (s : string) : option HomeAxis.HomeAxis :=
  if bool_decide (s = "feeder") then Some HomeAxis.FEEDER
  else if bool_decide (s = "sorter") then Some HomeAxis.SORTER
  else if bool_decide (s = "both") then Some HomeAxis.BOTH else None.

(** ** Adapters *)

Definition FEED_LIFECYCLE_GATE : string := "NOT_EXECUTED".

Definition _HOME_AXIS_CAPABILITY (a : HomeAxis.HomeAxis) : list (string * (FirmwareProfile -> bool)) :=
  match a with
  | HomeAxis.FEEDER => [("feed_home", fp_feed_home)]
  | HomeAxis.SORTER => [("sort_home", fp_sort_home)]
  | HomeAxis.BOTH => [("feed_home", fp_feed_home); ("sort_home", fp_sort_home)]
  end.

Definition _home_intent (body : RequestBody) : result WorkerIntent :=
  if negb (bool_decide (dom body = {["axis"]})) then invalid "home takes exactly an axis"
  else
    match body !! "axis" with
    | Some (BStr s) =>
        match axis_of s with
        | Some a => Ok (HomeIntent a)
        | None => invalid ("unknown home axis " +:+ str_repr s)
        end
    | _ => invalid "home axis must be a string"
    end.

Definition _sort_intent (body : RequestBody) : result WorkerIntent :=
  if negb (bool_decide (dom body = {["slot"]})) then invalid "sort takes exactly a slot"
  else
    match body !! "slot" with
    | Some (BInt n) =>
        match SortIntent_make n with
        | Err e => invalid (exn_msg e)
        | r => r
        end
    | _ => invalid "sort slot must be an integer"
    end.

Definition _feed_intent (body : RequestBody) : result WorkerIntent :=
  if negb (bool_decide (dom body = {["slot"]})) then invalid "feed takes exactly a slot"
  else
    match body !! "slot" with
    | Some (BInt n) =>
        throw (Domain UnsupportedOperationError)
          ("the v2 feed lifecycle is unavailable: its firmware gate is" +:+ " " +:+ FEED_LIFECYCLE_GATE
           +:+ " and no build advertises it")
    | _ => invalid "feed slot must be an integer"
    end.

Definition intent_for (a : op_action) (body : RequestBody) : result WorkerIntent :=
  match a with
  | OperationAction.STOP => invalid "a priority stop is admitted through OperationDomain.stop"
  | OperationAction.CONNECT | OperationAction.RECOVER =>
      invalid ("a " +:+ OperationAction.value a +:+ " operation is admitted through its own entry point")
  | OperationAction.HOME => _home_intent body
  | OperationAction.FEED => _feed_intent body
  | OperationAction.SORT | OperationAction.CONFIGURE => _sort_intent body
  end.

Definition require_supported (intent : WorkerIntent) (view : MachineSnapshot) : result unit :=
  match firmware view, readiness view with
  | Some fw, Some rd =>
      match intent with
      | HomeIntent axis =>
          let missing := (filter (fun x => x.2 fw = false) (_HOME_AXIS_CAPABILITY axis)).*1 in
          if negb (bool_decide (missing = []))
          then throw (Domain UnsupportedOperationError) ("controller does not advertise " +:+ str_join " and " missing)
          else Ok tt
      | SortIntent slot =>
          if fp_slot_max fw <? slot
          then invalid ("slot " +:+ str_of_Z slot +:+ " exceeds the advertised maximum " +:+ str_of_Z (fp_slot_max fw))
          else if negb (mr_sort_homed rd)
          then throw (Domain NotReadyError) "the sorter position is unknown; home the sorter first"
          else Ok tt
      | _ => invalid "intent is not a state-changing machine operation"
      end
  | _, _ => throw (Domain NotReadyError) "controller capabilities have not been observed yet"
  end.

(** ** Correctness *)

(** What the advertised controller supports, read off its profile. *)
Definition supported (intent : WorkerIntent) (fw : FirmwareProfile) (rd : MachineReadiness) : Prop :=
  match intent with
  | HomeIntent HomeAxis.FEEDER => fp_feed_home fw = true
  | HomeIntent HomeAxis.SORTER => fp_sort_home fw = true
  | HomeIntent HomeAxis.BOTH => fp_feed_home fw = true /\ fp_sort_home fw = true
  | SortIntent slot => slot <= fp_slot_max fw /\ mr_sort_homed rd = true
  | _ => False
  end.

Lemma require_supported_spec intent view :
  require_supported intent view = Ok tt <->
  exists fw rd, firmware view = Some fw /\ readiness view = Some rd /\ supported intent fw rd.
Proof.
  unfold require_supported. destruct (firmware view) as [fw|]; [|naive_solver].
  destruct (readiness view) as [rd|]; [|naive_solver].
  assert (forall P : Prop, (exists fw' rd', Some fw = Some fw' /\ Some rd = Some rd' /\ supported intent fw' rd') <-> supported intent fw rd) as Hs
    by naive_solver. rewrite (Hs True). clear Hs. destruct intent as [a|k|axis|slot]; simpl; [naive_solver..| |].
  - destruct axis; simpl; rewrite ?filter_cons, ?filter_nil; simpl;
      destruct (fp_feed_home fw), (fp_sort_home fw); simpl; naive_solver.
  - destruct (Z.ltb_spec (fp_slot_max fw) slot); [naive_solver lia|].
    destruct (mr_sort_homed rd); simpl; naive_solver lia.
Qed.

Lemma axis_of_value a s : axis_of s = Some a <-> s = HomeAxis.value a.
Proof. unfold axis_of. destruct a; simpl; repeat case_bool_decide; naive_solver. Qed.

Lemma dom_singleton_body k (body : RequestBody) v : dom body = {[k]} -> body !! k = Some v -> body = {[k := v]}.
Proof.
  intros Hd Hk. apply map_eq. intros j. destruct (decide (j = k)) as [->|Hj]; [by rewrite lookup_singleton_eq|].
  rewrite lookup_singleton_ne by done. apply not_elem_of_dom. rewrite Hd. set_solver.
Qed.

Definition body_of (intent : WorkerIntent) : RequestBody :=
  match intent with
  | HomeIntent a => {["axis" := BStr (HomeAxis.value a)]}
  | SortIntent n => {["slot" := BInt n]}
  | _ => ∅
  end.

Definition movement (intent : WorkerIntent) : Prop :=
  match intent with HomeIntent _ => True | SortIntent n => 0 <= n <= 102 | _ => False end.

Lemma home_intent_spec body intent : _home_intent body = Ok intent <->
  exists a, intent = HomeIntent a /\ body = body_of intent.
Proof.
  unfold _home_intent. split.
  - case_bool_decide as Hd; simpl; [|done]. destruct (body !! "axis") as [[s| | | |]|] eqn:E; try done.
    destruct (axis_of s) as [a|] eqn:Ea; [|done]. intros [= <-]. exists a. split; [done|].
    apply axis_of_value in Ea as ->. by apply dom_singleton_body.
  - intros (a & -> & ->). simpl. rewrite dom_singleton_L, bool_decide_true by done. simpl.
    rewrite lookup_singleton_eq. by rewrite (proj2 (axis_of_value a _)).
Qed.

Lemma sort_intent_spec body intent : _sort_intent body = Ok intent <->
  exists n, intent = SortIntent n /\ 0 <= n <= 102 /\ body = body_of intent.
Proof.
  unfold _sort_intent, SortIntent_make. split.
  - case_bool_decide as Hd; simpl; [|done]. destruct (body !! "slot") as [[|n| | |]|] eqn:E; try done.
    destruct ((0 <=? n) && (n <=? 102)) eqn:Hn; [|done]. intros [= <-]. bool_inv. exists n.
    split_and!; [done|done|done|by apply dom_singleton_body].
  - intros (n & -> & [Hn1 Hn2] & ->). simpl. rewrite dom_singleton_L, bool_decide_true by done. simpl.
    rewrite lookup_singleton_eq. apply Z.leb_le in Hn1, Hn2. by rewrite Hn1, Hn2.
Qed.

(** The adapters admit exactly the allow-listed movements. An intent comes out of a request only
    when the body is that intent's own single field, a home axis of the vocabulary or a slot in
    0..102; feed, stop, connect and recover never yield one; and the support check then passes
    exactly when the controller's observed profile advertises it (and, for a sort, the slot is
    within the advertised maximum and the sorter is homed). *)
Theorem adapters_exact (a : op_action) (body : RequestBody) (intent : WorkerIntent) (view : MachineSnapshot) :
  (intent_for a body = Ok intent <->
     body = body_of intent /\ movement intent /\
     match intent with
     | HomeIntent _ => a = OperationAction.HOME
     | _ => a = OperationAction.SORT \/ a = OperationAction.CONFIGURE
     end)
  /\ (require_supported intent view = Ok tt <->
        exists fw rd, firmware view = Some fw /\ readiness view = Some rd /\ supported intent fw rd).
Proof.
  split; [|apply require_supported_spec].
  assert (_feed_intent body <> Ok intent) as Hf by (unfold _feed_intent, invalid, throw; repeat case_match; done).
  destruct a; simpl; try (split; [done|intros (_ & Hm & Ha); by destruct intent; naive_solver]).
  - rewrite home_intent_spec. destruct intent; naive_solver.
  - rewrite sort_intent_spec. destruct intent; naive_solver.
  - rewrite sort_intent_spec. destruct intent; naive_solver.
Qed.

(** A configuration request that reached this translation would be turned into a sort: the last
    branch of [intent_for] takes every action it does not name. *)
Theorem configure_falls_through_to_sort :
  intent_for OperationAction.CONFIGURE {["slot" := BInt 3]} = Ok (SortIntent 3).
Proof. vm_compute. reflexivity. Qed.
