(* ===== verification/Events.v ===== *)
(** * The event ring and its subscribers (appliance/daemon/src/cs71d/events.py)

    Subscribers are objects of a heap, so that a closed one is still there for
    whoever holds it. [publish] is the locked append followed by the offers,
    which run after the lock is released. *)
From S2P Require Import Prelude PyString Errors.

Definition SNAPSHOT_REQUIRED : string := "snapshot.required".
Definition HEARTBEAT : string := "heartbeat".
Definition DEFAULT_RETENTION : nat := 5000.
Definition DEFAULT_SUBSCRIBER_CAPACITY : nat := 256.

Record DaemonEvent := mkDaemonEvent {
  event_id : Z;
  event_type : string;
  ev_occurred_at : Z;
  ev_generation : Z;
  ev_operation_id : option string;
  ev_data : gmap string string;
}.

Record Subscriber := mkSubscriber {
  sub_pending : list DaemonEvent;
  _capacity : nat;
  _overflowed : bool;
  sub_closed : bool;
}.

Record EventRing := mkEventRing {
  retention : nat;
  retained : list DaemonEvent;
  _subscriber_capacity : nat;
  _subscribers : gset nat;
  _next_id : Z;
  sub_heap : gmap nat Subscriber;
}.

Definition EventRing_make (retention capacity : nat) : result EventRing :=
  if (retention <? 1)%nat || (capacity <? 1)%nat
  then throw (Builtin ValueError) "retention and subscriber capacity must be positive"
  else Ok (mkEventRing retention [] capacity ∅ 1 ∅).

Definition Subscriber_init (capacity : nat) : Subscriber := mkSubscriber [] capacity false false.

(** ** Subscriber methods *)

Definition offer (e : DaemonEvent) (s : Subscriber) : Subscriber :=
  if sub_closed s then s
  else if (_capacity s <=? length (sub_pending s))%nat
  then mkSubscriber [] (_capacity s) true (sub_closed s)
  else mkSubscriber (sub_pending s ++ [e]) (_capacity s) (_overflowed s) (sub_closed s).

Definition prime (events : list DaemonEvent) (s : Subscriber) : Subscriber :=
  if (_capacity s <? length events)%nat
  then mkSubscriber (sub_pending s) (_capacity s) true (sub_closed s)
  else mkSubscriber (sub_pending s ++ events) (_capacity s) (_overflowed s) (sub_closed s).

Definition mark_overflowed (s : Subscriber) : Subscriber :=
  mkSubscriber [] (_capacity s) true (sub_closed s).

(** The body of [drain] once the wait is over, whether by an event or by the timeout. *)
Definition drain (s : Subscriber) : Subscriber * list DaemonEvent :=
  if _overflowed s || sub_closed s then (s, [])
  else (mkSubscriber [] (_capacity s) (_overflowed s) (sub_closed s), sub_pending s).

Definition sub_close (s : Subscriber) : Subscriber :=
  mkSubscriber (sub_pending s) (_capacity s) (_overflowed s) true.

(** ** Ring methods *)

Definition on_heap (f : gmap nat Subscriber -> gmap nat Subscriber) (r : EventRing) : EventRing :=
  mkEventRing (retention r) (retained r) (_subscriber_capacity r) (_subscribers r) (_next_id r) (f (sub_heap r)).

(** The locked part of [publish]: the event, and the subscribers to offer it to. *)
Definition publish_append (ty : string) (generation occurred_at : Z) (op : option string)
    (data : gmap string string) (r : EventRing) : EventRing * DaemonEvent * list nat :=
  let e := mkDaemonEvent (_next_id r) ty occurred_at generation op data in
  (mkEventRing (retention r) (push_bounded (retention r) (retained r) e) (_subscriber_capacity r)
     (_subscribers r) (_next_id r + 1) (sub_heap r),
   e, elements (_subscribers r)).

Definition offer_to (e : DaemonEvent) (id : nat) (r : EventRing) : EventRing :=
  on_heap (alter (offer e) id) r.

Definition publish (ty : string) (generation occurred_at : Z) (op : option string)
    (data : gmap string string) (r : EventRing) : EventRing * DaemonEvent :=
  let '(r, e, subs) := publish_append ty generation occurred_at op data r in
  (fold_left (fun r id => offer_to e id r) subs r, e).

Definition subscribe (after : option Z) (r : EventRing) : EventRing * nat :=
  let id := fresh (dom (sub_heap r)) in
  let s := Subscriber_init (_subscriber_capacity r) in
  let s := match after with
           | None => s
           | Some after =>
               let backlog := filter (fun e => after < event_id e) (retained r) in
               let oldest := match retained r with e :: _ => event_id e | [] => _next_id r end in
               if (_next_id r <=? after) || (after + 1 <? oldest) then mark_overflowed s
               else prime backlog s
           end in
  (mkEventRing (retention r) (retained r) (_subscriber_capacity r) ({[id]} ∪ _subscribers r) (_next_id r)
     (<[id := s]> (sub_heap r)), id).

Definition unsubscribe (id : nat) (r : EventRing) : EventRing :=
  mkEventRing (retention r) (retained r) (_subscriber_capacity r) (_subscribers r ∖ {[id]}) (_next_id r) (sub_heap r).

(** [subscriber.close()] *)
Definition close_subscriber (id : nat) (r : EventRing) : EventRing :=
  unsubscribe id (on_heap (alter sub_close id) r).

(** [subscriber.drain(...)] *)
Definition drain_subscriber (id : nat) (r : EventRing) : EventRing * list DaemonEvent :=
  match sub_heap r !! id with
  | Some s => let '(s', l) := drain s in (on_heap (<[id := s']>) r, l)
  | None => (r, [])
  end.

(** ** Histories

    A consumer's history: the cursor its stream starts after and what it drained. *)
Record Consumer := mkConsumer { start : Z; got : list DaemonEvent }.

Record RingRun := mkRingRun { ring : EventRing; consumers : gmap nat Consumer }.

Inductive ring_step : relation RingRun :=
| rs_publish r cs ty g t op data : ring_step (mkRingRun r cs) (mkRingRun (publish ty g t op data r).1 cs)
| rs_subscribe r cs after :
    ring_step (mkRingRun r cs)
      (mkRingRun (subscribe after r).1
         (<[(subscribe after r).2 := mkConsumer (default (_next_id r - 1) after) []]> cs))
| rs_close r cs id : ring_step (mkRingRun r cs) (mkRingRun (close_subscriber id r) cs)
| rs_drain r cs id c : cs !! id = Some c ->
    ring_step (mkRingRun r cs)
      (mkRingRun (drain_subscriber id r).1
         (<[id := mkConsumer (start c) (got c ++ (drain_subscriber id r).2)]> cs)).

(** Event ids count up from [n + 1]. *)
Definition consecutive (n : Z) (l : list DaemonEvent) : Prop :=
  forall i e, l !! i = Some e -> event_id e = n + 1 + Z.of_nat i.

(** What one consumer may hold: the ids it drained continue its start without a gap, and while its
    subscriber is live and not marked lost the pending ones complete them up to the newest event. *)
Definition consumer_ok (r : EventRing) (id : nat) (c : Consumer) : Prop :=
  consecutive (start c) (got c) /\
  exists s, sub_heap r !! id = Some s /\ (length (sub_pending s) <= _capacity s)%nat
    /\ (_overflowed s = false -> sub_closed s = false ->
        id ∈ _subscribers r /\ consecutive (start c) (got c ++ sub_pending s)
        /\ start c + Z.of_nat (length (got c ++ sub_pending s)) = _next_id r - 1).

Record ring_wf (x : RingRun) : Prop := {
  rw_window : exists n, consecutive n (retained (ring x)) /\ 0 <= n
    /\ n + Z.of_nat (length (retained (ring x))) = _next_id (ring x) - 1;
  rw_bound : (length (retained (ring x)) <= retention (ring x))%nat;
  rw_positive : (1 <= retention (ring x))%nat;
  rw_consumers : forall id c, consumers x !! id = Some c -> consumer_ok (ring x) id c;
  rw_heap : dom (sub_heap (ring x)) = dom (consumers x);
}.

Lemma consecutive_nil n : consecutive n [].
Proof. by intros i e. Qed.

Lemma consecutive_app n l l' : consecutive n (l ++ l') <-> consecutive n l /\ consecutive (n + Z.of_nat (length l)) l'.
Proof.
  unfold consecutive. split.
  - intros H. split; intros i e Hi; [apply H; by apply lookup_app_l_Some|].
    rewrite (H (length l + i)%nat e); [lia|]. rewrite lookup_app_r by lia. by replace (length l + i - length l)%nat with i by lia.
  - intros [H1 H2] i e [Hi|[Hl Hi]]%lookup_app_Some; [by apply H1|]. rewrite (H2 _ _ Hi). lia.
Qed.

Lemma consecutive_snoc n l e : consecutive n l -> event_id e = n + 1 + Z.of_nat (length l) -> consecutive n (l ++ [e]).
Proof.
  intros H He. apply consecutive_app. split; [done|]. intros i x Hi. apply list_lookup_singleton_Some in Hi as [-> <-]. lia.
Qed.

Lemma consecutive_drop n l k : consecutive n l -> consecutive (n + Z.of_nat k) (drop k l).
Proof. intros H i e Hi. rewrite lookup_drop in Hi. rewrite (H _ _ Hi). lia. Qed.

(** The events after a retained cursor are a suffix of the window. *)
Lemma consecutive_after n l a : consecutive n l -> n <= a ->
  filter (fun e => a < event_id e) l = drop (Z.to_nat (a - n)) l.
Proof.
  revert n. induction l as [|e l IH]; intros n H Ha; [by rewrite drop_nil|].
  assert (event_id e = n + 1) as He by (rewrite (H 0%nat e eq_refl); lia).
  assert (consecutive (n + 1) l) as Hl by (by apply (consecutive_drop n (e :: l) 1)).
  rewrite filter_cons. case_decide as Hd.
  - assert (a = n) as -> by lia. replace (Z.to_nat (n - n)) with 0%nat by lia. simpl. f_equal.
    clear -Hl. assert (forall m, n <= m -> consecutive m l -> filter (fun e => n < event_id e) l = l) as G; [|apply (G (n + 1)); [lia|done]].
    clear Hl. induction l as [|e l IH]; intros m Hm H; [done|]. rewrite filter_cons, decide_True
      by (rewrite (H 0%nat e eq_refl); lia). f_equal. apply (IH (m + 1)); [lia|]. by apply (consecutive_drop m (e :: l) 1).
  - rewrite (IH (n + 1)) by (done || lia). by replace (Z.to_nat (a - n)) with (S (Z.to_nat (a - (n + 1)))) by lia.
Qed.

Lemma fold_offer_heap e (l : list nat) r id : NoDup l ->
  let r' := fold_left (fun r id => offer_to e id r) l r in
  sub_heap r' !! id = (if decide (id ∈ l) then offer e else fun s => s) <$> sub_heap r !! id
  /\ retention r' = retention r /\ retained r' = retained r /\ _subscribers r' = _subscribers r
  /\ _next_id r' = _next_id r /\ dom (sub_heap r') = dom (sub_heap r).
Proof.
  revert r. induction l as [|x l IH]; intros r Hnd; cbn [fold_left].
  - rewrite decide_False by apply not_elem_of_nil. split_and!; try done. by destruct (sub_heap r !! id).
  - apply NoDup_cons in Hnd as [Hx Hnd]. destruct (IH (offer_to e x r) Hnd) as (H & -> & -> & -> & -> & ->).
    unfold offer_to, on_heap in H |- *. cbn [sub_heap retention retained _subscribers _next_id] in H |- *.
    rewrite H, dom_alter_L. split_and!; try done. destruct (decide (id = x)) as [->|Hne].
    + rewrite decide_False by done. rewrite decide_True by (by left). rewrite lookup_alter_eq.
      by destruct (sub_heap r !! x).
    + rewrite lookup_alter_ne by done. destruct (decide (id ∈ l)); [rewrite decide_True by (by right)|
        rewrite decide_False by (by rewrite elem_of_cons; intros [|])]; done.
Qed.

Lemma offer_bounded e s : (length (sub_pending s) <= _capacity s)%nat ->
  (length (sub_pending (offer e s)) <= _capacity (offer e s))%nat.
Proof.
  unfold offer. intros H. destruct (sub_closed s); [done|]. destruct (Nat.leb_spec (_capacity s) (length (sub_pending s)));
    simpl; [lia|]. rewrite length_app. simpl. lia.
Qed.

Lemma offer_open e s : _overflowed (offer e s) = false -> sub_closed (offer e s) = false ->
  _overflowed s = false /\ sub_closed s = false /\ sub_pending (offer e s) = sub_pending s ++ [e].
Proof.
  unfold offer. destruct (sub_closed s) eqn:E; [congruence|]. destruct (_ <=? _)%nat; simpl; [done|]. by rewrite ?E.
Qed.

Lemma window_push n k l e : consecutive n l -> event_id e = n + 1 + Z.of_nat (length l) -> 0 <= n ->
  exists n', consecutive n' (push_bounded k l e) /\ 0 <= n'
    /\ n' + Z.of_nat (length (push_bounded k l e)) = n + Z.of_nat (length l) + 1.
Proof.
  intros H He Hn. unfold push_bounded. set (j := (length (l ++ [e]) - k)%nat). exists (n + Z.of_nat j). split_and!.
  - apply consecutive_drop. by apply consecutive_snoc.
  - lia.
  - rewrite length_drop. assert (j <= length (l ++ [e]))%nat by lia. rewrite length_app in *. simpl in *. lia.
Qed.

Lemma ring_publish_wf r cs ty g t op data :
  ring_wf (mkRingRun r cs) -> ring_wf (mkRingRun (publish ty g t op data r).1 cs).
Proof.
  intros [(n & Hc & Hn & Hl) Hb Hp Hcs Hh]. simpl in *. unfold publish, publish_append. simpl.
  set (e := mkDaemonEvent _ _ _ _ _ _). set (r1 := mkEventRing _ _ _ _ _ _).
  pose proof (fun id => fold_offer_heap e (elements (_subscribers r)) r1 id (NoDup_elements _)) as Hf. cbv zeta in Hf.
  set (r2 := fold_left _ _ _) in *. destruct (Hf 0%nat) as (_ & H1 & H2 & H3 & H4 & H5).
  split; simpl; rewrite ?H1, ?H2, ?H4, ?H5.
  - destruct (window_push n (retention r) (retained r) e Hc) as (n' & ? & ? & ?); [simpl; lia|done|].
    exists n'. split_and!; [done|done|]. simpl. lia.
  - by apply push_bounded_length.
  - done.
  - intros id c Hcid. destruct (Hcs id c Hcid) as (Hg & s & Hs & Hbd & Hlive). split; [done|].
    destruct (Hf id) as (Hid & _). rewrite Hid, H3. simpl. rewrite Hs. simpl. eexists. split; [done|].
    destruct (decide (id ∈ elements (_subscribers r))) as [Hin|Hin].
    + split; [by apply offer_bounded|]. intros Ho Hcl. destruct (offer_open _ _ Ho Hcl) as (Ho' & Hcl' & ->).
      destruct (Hlive Ho' Hcl') as (Hm & Hcons & Hlen). split_and!; [done| |].
      * rewrite app_assoc. apply consecutive_snoc; [done|]. simpl. lia.
      * rewrite app_assoc, length_app. rewrite H4. simpl. lia.
    + split; [done|]. intros Ho Hcl. destruct (Hlive Ho Hcl) as (Hm & _). by rewrite elem_of_elements in Hin.
  - done.
Qed.

Lemma subscribe_wf r cs after : ring_wf (mkRingRun r cs) ->
  ring_wf (mkRingRun (subscribe after r).1
    (<[(subscribe after r).2 := mkConsumer (default (_next_id r - 1) after) []]> cs)).
Proof.
  intros [(n & Hc & Hn & Hl) Hb Hp Hcs Hh]. simpl in *. unfold subscribe. cbv zeta. cbn [fst snd].
  set (new := fresh _). assert (new ∉ dom (sub_heap r)) as Hnew by apply is_fresh.
  split; simpl; try done; [by eexists| |rewrite !dom_insert_L; by f_equal].
  intros id c. destruct (decide (id = new)) as [->|Hne].
  - rewrite lookup_insert_eq. intros [= <-]. split; [apply consecutive_nil|]. simpl. rewrite lookup_insert_eq.
    eexists. split; [done|]. destruct after as [a|]; simpl; [|split; [lia|]; intros _ _; split_and!; [set_solver|apply consecutive_nil|lia]].
    destruct (_ || _) eqn:Ea; [simpl; split; [lia|done]|]. bool_inv.
    assert (n <= a) as Hna. { destruct (retained r) as [|x l] eqn:Er; simpl in *; [lia|]. rewrite (Hc 0%nat x eq_refl) in *. lia. }
    rewrite (consecutive_after n) by done. unfold prime. simpl. destruct (Nat.ltb_spec (_subscriber_capacity r) (length (drop (Z.to_nat (a - n)) (retained r)))) as [Hlt|Hge];
      simpl; [split; [lia|done]|]. split; [done|]. intros _ _. split_and!; [set_solver| |rewrite length_drop; lia].
    replace a with (n + Z.of_nat (Z.to_nat (a - n))) at 1 by lia. by apply consecutive_drop.
  - rewrite lookup_insert_ne by done. intros Hcid. destruct (Hcs id c Hcid) as (Hg & s & Hs & Hbd & Hlive).
    split; [done|]. exists s. simpl. rewrite lookup_insert_ne by done. split_and!; [done|done|].
    intros Ho Hcl. destruct (Hlive Ho Hcl) as (? & ? & ?). split_and!; [set_solver|done|done].
Qed.

Lemma close_wf r cs id : ring_wf (mkRingRun r cs) -> ring_wf (mkRingRun (close_subscriber id r) cs).
Proof.
  intros [Hw Hb Hp Hcs Hh]. simpl in *. split; simpl; try done; [|by rewrite dom_alter_L].
  intros id' c Hc. destruct (Hcs id' c Hc) as (Hg & s & Hs & Hbd & Hlive). split; [done|].
  destruct (decide (id' = id)) as [->|Hne]; simpl.
  - rewrite lookup_alter_eq, Hs. eexists. split_and!; [done|done|done].
  - rewrite lookup_alter_ne, Hs by done. eexists. split_and!; [done|done|]. intros Ho Hcl.
    destruct (Hlive Ho Hcl) as (? & ? & ?). split_and!; [set_solver|done|done].
Qed.

Lemma drain_wf r cs id c : ring_wf (mkRingRun r cs) -> cs !! id = Some c ->
  ring_wf (mkRingRun (drain_subscriber id r).1
    (<[id := mkConsumer (start c) (got c ++ (drain_subscriber id r).2)]> cs)).
Proof.
  intros [Hw Hb Hp Hcs Hh] Hid. simpl in *. destruct (Hcs id c Hid) as (Hg & s & Hs & Hbd & Hlive).
  unfold drain_subscriber. rewrite Hs. unfold drain. destruct (_overflowed s || sub_closed s) eqn:E; cbn [fst snd].
  - split; simpl; try done.
    + intros id' c'. rewrite app_nil_r. destruct (decide (id' = id)) as [->|Hne].
      * rewrite lookup_insert_eq. intros [= <-]. split; [done|]. exists s. simpl. rewrite lookup_insert_eq.
        split_and!; [done|done|]. intros Ho Hcl. by rewrite Ho, Hcl in E.
      * rewrite lookup_insert_ne by done. intros Hc'. destruct (Hcs id' c' Hc') as (? & s' & ? & ? & ?).
        split; [done|]. exists s'. simpl. by rewrite lookup_insert_ne.
    + rewrite !dom_insert_L. by f_equal.
  - apply orb_false_iff in E as [Eo Ec]. destruct (Hlive Eo Ec) as (Hm & Hcons & Hlen). split; simpl; try done.
    + intros id' c'. destruct (decide (id' = id)) as [->|Hne].
      * rewrite lookup_insert_eq. intros [= <-]. split; [done|]. eexists. simpl. rewrite lookup_insert_eq.
        split_and!; [done|simpl; lia|]. intros _ _. simpl. rewrite app_nil_r. by split_and!.
      * rewrite lookup_insert_ne by done. intros Hc'. destruct (Hcs id' c' Hc') as (? & s' & ? & ? & ?).
        split; [done|]. exists s'. simpl. by rewrite lookup_insert_ne.
    + rewrite !dom_insert_L. by f_equal.
Qed.

(** Over any history of publications, subscriptions, drains and closes, loss is explicit: what a
    consumer drained is always a gap-free run of event ids from its cursor, and while its subscriber
    is open and not marked overflowed, the events still pending complete that run up to the newest
    event published. Neither the ring nor a subscriber's queue exceeds its bound. *)
Lemma ring_step_wf (x y : RingRun) : ring_wf x -> ring_step x y -> ring_wf y.
Proof.
  intros Ha Hs. revert Ha. destruct Hs; intros Ha.
  - by apply ring_publish_wf.
  - by apply subscribe_wf.
  - by apply close_wf.
  - by apply drain_wf.
Qed.

Definition demo_ring : EventRing := mkEventRing 3 [] 2 ∅ 1 ∅.
Definition demo_publish (g : Z) (r : EventRing) : EventRing := (publish "snapshot.changed" g 0 None ∅ r).1.

Lemma demo_ring_wf : ring_wf (mkRingRun demo_ring ∅).
Proof. split; simpl; try done; try lia. exists 0. split_and!; [by intros i e|lia|lia]. Qed.

(** The offers of two publishers run after the ring's lock is released, so they may interleave:
    then a consumer drains ids that go backwards. *)
Theorem concurrent_publishers_reorder :
  let '(r0, id) := subscribe None demo_ring in
  let '(r1, e1, s1) := publish_append "snapshot.changed" 2 0 None ∅ r0 in
  let '(r2, e2, s2) := publish_append "snapshot.changed" 3 0 None ∅ r1 in
  let r3 := fold_left (fun r i => offer_to e1 i r) s1 (fold_left (fun r i => offer_to e2 i r) s2 r2) in
  event_id <$> (drain_subscriber id r3).2 = [2; 1].
Proof. vm_compute. reflexivity. Qed.
