(* ===== verification/Domain.v ===== *)
(** * Operation admission, dispatch and terminal outcome (appliance/daemon/src/cs71d/domain.py)

    The domain composes the journal, the machine view, the event ring and the
    worker. The worker is an interface here: its two admission calls may accept or
    raise, and the callbacks it makes ([_dispatch], [_settle], [_settle_stop] and
    the observers) are operations of the domain. The clock, the UUID source, the
    durability checks and SHA-256 are parameters. *)
From S2P Require Import Prelude PyString Errors IsoTime Json Operations Models Session Machine Journal.
From S2P Require Import Configuration Adapters Events.
(** What the domain uses of the worker: [submit(intent, on_dispatch=...)] for an accepted
    operation, and [submit_priority_stop()] for a stop operation. *)
Class WorkerPort (W : Type) := {
  worker_submit : WorkerIntent -> OperationRecord -> W -> W * result unit;
  worker_submit_priority_stop : string -> W -> W * result unit;
}.

Inductive WorkerResult :=
| RStatus (s : Status) | RCapabilities (c : Capabilities) | RQueue (q : QueueSnapshot) | RCompletion (c : Completion).

Definition result_type_name (r : WorkerResult) : string :=
  match r with
  | RStatus _ => "Status" | RCapabilities _ => "Capabilities" | RQueue _ => "QueueSnapshot"
  | RCompletion _ => "Completion"
  end.

Definition MIN_DEADLINE_MS : Z := 100.
Definition MAX_DEADLINE_MS : Z := 600000.
Definition DEFAULT_IDEMPOTENCY_TTL : Z := 24 * 3600 * 1000000.

(** The [.name] of the enumerations. *)
Definition connection_name (c : conn_state) : string :=
  match c with
  | ConnectionState.DISCONNECTED => "DISCONNECTED" | ConnectionState.CONNECTING => "CONNECTING"
  | ConnectionState.VERIFYING_V1 => "VERIFYING_V1" | ConnectionState.ACTIVATING_V2 => "ACTIVATING_V2"
  | ConnectionState.READY => "READY" | ConnectionState.RECOVERING => "RECOVERING"
  | ConnectionState.UNCERTAIN => "UNCERTAIN"
  end.
Definition fault_name (f : fault_state) : string :=
  match f with
  | FaultState.CLEAR => "CLEAR" | FaultState.ACTIVE => "ACTIVE" | FaultState.LATCHED => "LATCHED"
  | FaultState.UNCERTAIN => "UNCERTAIN"
  end.
Definition action_name (a : op_action) : string :=
  match a with
  | OperationAction.CONNECT => "CONNECT" | OperationAction.RECOVER => "RECOVER" | OperationAction.HOME => "HOME"
  | OperationAction.SORT => "SORT" | OperationAction.FEED => "FEED" | OperationAction.STOP => "STOP"
  | OperationAction.CONFIGURE => "CONFIGURE"
  end.
Definition state_name (s : op_state) : string :=
  match s with
  | OperationState.QUEUED => "QUEUED" | OperationState.ACCEPTED => "ACCEPTED" | OperationState.RUNNING => "RUNNING"
  | OperationState.SUCCEEDED => "SUCCEEDED" | OperationState.FAILED => "FAILED"
  | OperationState.CANCELLED => "CANCELLED" | OperationState.UNCERTAIN => "UNCERTAIN"
  end.

(** ** Pure helpers *)

Definition _SETTLED : list op_state :=
  [OperationState.SUCCEEDED; OperationState.FAILED; OperationState.CANCELLED; OperationState.UNCERTAIN].

Definition _SESSION_ACTIONS : list op_action := [OperationAction.CONNECT; OperationAction.RECOVER].

Definition _NEVER_DISPATCHED : list serial_worker_error :=
  [WorkerNotRunningError; SessionNotReadyError; QueueFullError; StopInProgressError].

Definition is_completion_done (c : Completion) (terminal : Response) : bool :=
  succeeded c && bool_decide (kind terminal = DONE) && (Models.request_id terminal =? c_request_id c).

Definition _is_trusted_terminal (c : Completion) : result bool :=
  match terminal_response c with
  | Ok terminal => Ok (is_completion_done c terminal)
  | Err e => if isinstance e (Protocol ParseError) then Ok false else Err e
  | OutOfFuel => OutOfFuel
  end.

Definition _classify (current : op_state) (error : exn) : op_state * string :=
  if isinstance error (Domain DeadlineExpiredError)
  then (OperationState.FAILED, "deadline expired before transmission")
  else if isinstance error (Worker PreemptedByStopError)
  then (OperationState.CANCELLED, "invalidated by a trusted priority stop")
  else if isinstance error (Worker PreemptedByRecoveryError)
  then (OperationState.CANCELLED, "discarded by session recovery; never replayed")
  else if isinstance error (Worker WorkerUncertainError)
  then (OperationState.UNCERTAIN, "worker could not establish a trusted outcome: " +:+ exn_msg error)
  else if existsb (fun c => isinstance error (Worker c)) _NEVER_DISPATCHED
  then (OperationState.CANCELLED, "never dispatched: " +:+ exn_msg error)
  else if negb (bool_decide (current = OperationState.RUNNING))
  then (OperationState.FAILED, "failed before transmission: " +:+ exn_msg error)
  else (OperationState.UNCERTAIN, "transmitted without a trusted terminal: " +:+ exn_msg error).

Definition _outcome_of (error : exn) : string :=
  match exn_cls error with
  | Domain c => domain_code c
  | c => class_name c
  end.

Definition _translate (error : exn) (operation_id : string) : exn :=
  if isinstance error (Worker QueueFullError)
  then Exn (Domain OperationQueueFullError) (exn_msg error) false (Some operation_id)
  else if isinstance error (Worker StopInProgressError)
  then Exn (Domain NotReadyError) ("priority stop is in progress: " +:+ exn_msg error) false (Some operation_id)
  else Exn (Domain NotReadyError) (exn_msg error) false (Some operation_id).

Definition is_journal_error (e : exn) : bool := isinstance e (JournalE JournalError).

(** ** State *)

Record OperationDomain (W : Type) := mkOperationDomain {
  _journal : Journal;
  _machine : MachineState;
  _events : EventRing;
  _worker : W;
  _configuration : ConfigurationValues;
  _configuration_generation : Z;
  _configured_at : Z;
  _max_deadline_ms : Z;
  reads : nat;
  uuids : nat;
  checks : nat;
}.
Arguments mkOperationDomain {W}.
Arguments _journal {W}.
Arguments _machine {W}.
Arguments _events {W}.
Arguments _worker {W}.
Arguments _configuration {W}.
Arguments _configuration_generation {W}.
Arguments _configured_at {W}.
Arguments _max_deadline_ms {W}.
Arguments reads {W}.
Arguments uuids {W}.
Arguments checks {W}.

(** What [self._durability_monitor.check()] comes to: nothing, a [DurabilityThreatError], or another exception. *)
Inductive check_answer := Safe | Threat (message : string) | Raises (e : exn).

(** The environment of one daemon: readings of the clock in UTC microseconds, version 4 UUIDs,
    the durability checks, the digest, and the policy. *)
Record Env := mkEnv {
  now_at : nat -> Z;
  uuid4 : nat -> string;
  durability_at : nat -> check_answer;
  sha256_hexdigest : string -> string;
  _idempotency_ttl : Z;
  _min_deadline_ms : Z;
}.

Section Domain.
Context {W : Type} `{WorkerPort W} (env : Env).

Abbreviation D := (OperationDomain W).
Abbreviation DM := (M D exn).

Definition set_journal (j : Journal) (d : D) : D :=
  mkOperationDomain j (_machine d) (_events d) (_worker d) (_configuration d) (_configuration_generation d)
    (_configured_at d) (_max_deadline_ms d) (reads d) (uuids d) (checks d).
Definition set_machine (m : MachineState) (d : D) : D :=
  mkOperationDomain (_journal d) m (_events d) (_worker d) (_configuration d) (_configuration_generation d)
    (_configured_at d) (_max_deadline_ms d) (reads d) (uuids d) (checks d).
Definition set_events (e : EventRing) (d : D) : D :=
  mkOperationDomain (_journal d) (_machine d) e (_worker d) (_configuration d) (_configuration_generation d)
    (_configured_at d) (_max_deadline_ms d) (reads d) (uuids d) (checks d).
Definition set_worker (w : W) (d : D) : D :=
  mkOperationDomain (_journal d) (_machine d) (_events d) w (_configuration d) (_configuration_generation d)
    (_configured_at d) (_max_deadline_ms d) (reads d) (uuids d) (checks d).
Definition set_configuration (v : ConfigurationValues) (g at_ limit : Z) (d : D) : D :=
  mkOperationDomain (_journal d) (_machine d) (_events d) (_worker d) v g at_ limit (reads d) (uuids d) (checks d).
Definition set_counters (r u c : nat) (d : D) : D :=
  mkOperationDomain (_journal d) (_machine d) (_events d) (_worker d) (_configuration d)
    (_configuration_generation d) (_configured_at d) (_max_deadline_ms d) r u c.

Definition OperationDomain_make (journal : Journal) (w : W) (events : EventRing) (max_deadline : Z) : result D :=
  if _idempotency_ttl env <=? 0 then throw (Builtin ValueError) "idempotency_ttl must be positive"
  else if negb ((0 <? _min_deadline_ms env) && (_min_deadline_ms env <=? max_deadline))
  then throw (Builtin ValueError) "deadline policy must be a positive ascending range"
  else Ok (mkOperationDomain journal MachineState_init events w ConfigurationValues_default 1 (now_at env 0)
             max_deadline 1 0 0).

(** ** Primitive calls *)

(** [self._now()] *)
Definition _now : DM Z := fun d =>
  (set_counters (S (reads d)) (uuids d) (checks d) d, Ok (now_at env (reads d))).

(** [new_operation_id()] *)
Definition new_operation_id : DM string := fun d =>
  (set_counters (reads d) (S (uuids d)) (checks d) d, Ok (uuid4 env (uuids d))).

(** A journal method. *)
Definition on_journal {A} (m : JM A) : DM A := fun d =>
  let p := m (_journal d) in (set_journal p.1 d, p.2).

Definition publish_event (ty : string) (generation : Z) (op : option string) (data : gmap string string) : DM unit :=
  t ← _now;
  modifyS (fun d => set_events (publish ty generation t op data (_events d)).1 d).

(** ** Observers *)

Definition machine_event_type (view : MachineSnapshot) : string :=
  if negb (journal_available view) && bool_decide (is_Some (fault_id view)) then "journal.fault"
  else if bool_decide (is_Some (active_operation_id view)) || startswith (ms_reason view) "operation "
  then "operation.progress"
  else "snapshot.changed".

Definition _publish_machine_event (view : MachineSnapshot) : DM unit :=
  publish_event (machine_event_type view) (ms_generation view) (active_operation_id view)
    (<["connection_state" := connection_name (connection view)]>
     {["fault_state" := fault_name (fault view)]}).

(** A machine method; when it published a snapshot the observer runs on it. *)
Definition on_machine (f : MachineState -> MachineState) : DM unit :=
  d ← getS;
  let m' := f (_machine d) in
  _ ← modifyS (set_machine m');
  if m_generation (_machine d) =? m_generation m' then mret tt
  else _publish_machine_event (m_snapshot m').

Definition _observe_session (session : SessionSnapshot) : DM unit := on_machine (observe_connection session).

Definition _observe_profile (capabilities : Capabilities) (status : Status) : DM unit :=
  on_machine (observe_profile
    (mkFirmwareProfile (protocol capabilities) (slot_max capabilities) (slot_count capabilities)
       (queue_depth capabilities) (feed_sensor capabilities) (feed_home capabilities) (sort_home capabilities))
    (mkMachineReadiness (feed_homed status) (sort_homed status) (fault_code status) (mode status) (phase status))).

(** ** Durability *)

Definition _record_journal_fault (reason : string) : DM unit :=
  fid ← new_operation_id;
  t ← _now;
  on_machine (record_journal_fault reason (Some fid) (Some t)).

Definition refresh_durability : DM MachineSnapshot :=
  d ← getS;
  _ ← (if journal_available (m_snapshot (_machine d)) then
         _ ← modifyS (fun d => set_counters (reads d) (uuids d) (S (checks d)) d);
         match durability_at env (checks d) with
         | Safe => mret tt
         | Threat msg => _record_journal_fault ("durability threat: " +:+ msg)
         | Raises e => raise e
         end
       else mret tt);
  d ← getS;
  mret (m_snapshot (_machine d)).

Definition _require_durable (view : MachineSnapshot) : DM unit :=
  if negb (journal_available view)
  then raise (domain_exn JournalUnavailableError
         "the operation journal is unavailable; new work is blocked until durability is restored")
  else mret tt.

(** [with self._durable(activity): body] *)
Definition _durable {A} (activity : string) (body : DM A) : DM A :=
  try_except body (fun e =>
    if is_journal_error e then
      _ ← _record_journal_fault ("journal failure while " +:+ activity +:+ ": " +:+ exn_msg e);
      raise (domain_exn JournalUnavailableError ("could not record while " +:+ activity +:+ ": " +:+ exn_msg e))
    else raise e).

Definition _require_deadline (deadline_ms : BodyValue) : DM Z :=
  d ← getS;
  match deadline_ms with
  | BInt n =>
      if negb ((_min_deadline_ms env <=? n) && (n <=? _max_deadline_ms d))
      then raise (domain_exn DeadlineInvalidError
             ("deadline must be between " +:+ str_of_Z (_min_deadline_ms env) +:+ " and "
              +:+ str_of_Z (_max_deadline_ms d) +:+ " ms, got " +:+ str_of_Z n))
      else mret (n * 1000)
  | _ => raise (domain_exn DeadlineInvalidError "deadline must be an integer count of milliseconds")
  end.

(** ** Transitions *)

Definition _write_transition (id : string) (state : op_state) (reason : string) (active : option string)
    (trusted : bool) (outcome : option string) (request_id : option Z) (fields : option (gmap string string))
    : DM OperationRecord :=
  d ← getS;
  let g := transition_generation (_machine d) in
  t ← _now;
  record ← on_journal (record_transition id state g (utc t) reason trusted outcome request_id fields);
  _ ← on_machine (publish_transition active ("operation " +:+ OperationState.value state +:+ ": " +:+ reason));
  mret record.

Definition _transition (id : string) (state : op_state) (reason : string) (trusted : bool)
    (outcome : option string) (request_id : option Z) (fields : option (gmap string string))
    : DM OperationRecord :=
  let active := if bool_decide (state ∈ _SETTLED) then None else Some id in
  record ← try_except (_write_transition id state reason active trusted outcome request_id fields)
    (fun e =>
       if is_journal_error e then
         _ ← _record_journal_fault ("journal failure recording " +:+ OperationState.value state
               +:+ " for operation " +:+ id +:+ ": " +:+ exn_msg e);
         raise e
       else raise e);
  _ ← publish_event (if record_is_terminal record then "operation.terminal" else "operation.accepted")
        (generation record) (Some (operation_id record))
        (<["type" := action_name (action record)]> {["state" := state_name (op_st record)]});
  mret record.

Definition _safe_transition (id : string) (state : op_state) (reason : string) (trusted : bool)
    (outcome : option string) (request_id : option Z) (fields : option (gmap string string)) : DM unit :=
  try_except (_ ← _transition id state reason trusted outcome request_id fields; mret tt)
    (fun e => if is_journal_error e then mret tt else raise e).

Definition _current (id : string) : DM (option OperationRecord) :=
  try_except (on_journal (operation id))
    (fun e =>
       if is_journal_error e then
         _ ← _record_journal_fault ("journal read failed: " +:+ exn_msg e); mret None
       else raise e).

(** ** Worker callbacks *)

Definition _dispatch (op : OperationRecord) : DM unit :=
  t ← _now;
  expired ← liftR (expired_at op (utc t));
  if expired : bool
  then raise (domain_exn DeadlineExpiredError
         ("deadline expired before operation " +:+ operation_id op +:+ " was transmitted"))
  else
    _ ← _transition (operation_id op) OperationState.RUNNING "dispatched to the controller" false None None None;
    mret tt.

Definition _resolve (id : string) (error : exn) : DM unit :=
  record ← _current id;
  match record with
  | None => mret tt
  | Some r =>
      if record_is_terminal r then mret tt
      else
        let c := _classify (op_st r) error in
        _safe_transition id c.1 c.2 false (Some (_outcome_of error)) None None
  end.

Definition complete_command (id : string) (c : Completion) : DM unit :=
  trusted ← liftR (_is_trusted_terminal c);
  if trusted : bool then
    f ← liftR (Models.terminal_fields c);
    _safe_transition id OperationState.SUCCEEDED "trusted correlated firmware terminal" true
      (Some "done") (Some (c_request_id c)) (Some f)
  else
    f ← liftR (Models.terminal_fields c);
    _safe_transition id OperationState.FAILED "firmware reported a correlated error terminal" false
      (Some (match c_error c with None => "error" | Some flt => f_name flt end)) (Some (c_request_id c)) (Some f).

Definition _complete (id : string) (result : WorkerResult) : DM unit :=
  record ← _current id;
  match record with
  | None => mret tt
  | Some r =>
      if record_is_terminal r then mret tt
      else
        match result with
        | RStatus s =>
            if bool_decide (action r ∈ _SESSION_ACTIONS)
            then _safe_transition id OperationState.SUCCEEDED
                   "session verified and required snapshots gathered" true (Some "ready") None
                   (Some (<["mode" := mode s]> {["phase" := phase s]}))
            else _safe_transition id OperationState.UNCERTAIN
                   ("worker returned a non-command result: " +:+ result_type_name result) false
                   (Some "UNEXPECTED_RESULT") None None
        | RCompletion c => complete_command id c
        | _ => _safe_transition id OperationState.UNCERTAIN
                 ("worker returned a non-command result: " +:+ result_type_name result) false
                 (Some "UNEXPECTED_RESULT") None None
        end
  end.

(** [future] holds the outcome the worker gave the future. *)
Definition _settle (id : string) (future : Prelude.res exn WorkerResult) : DM unit :=
  match future with
  | Ok r => _complete id r
  | Err e => _resolve id e
  | OutOfFuel => liftR OutOfFuel
  end.

Definition _settle_stop (id : string) (future : Prelude.res exn unit) : DM unit :=
  match future with
  | Ok _ => _safe_transition id OperationState.SUCCEEDED "trusted exact stopped terminal" true
              (Some "stopped") None None
  | Err e => _resolve id e
  | OutOfFuel => liftR OutOfFuel
  end.

(** ** Admission *)

Definition _replay (key fingerprint_ : string) (at_ : Z) : DM (option OperationRecord) :=
  existing ← on_journal (idempotency_record key (utc at_));
  match existing with
  | None => mret None
  | Some i =>
      if negb (bool_decide (idem_fingerprint i = fingerprint_))
      then raise (domain_exn IdempotencyConflictError
             ("idempotency key " +:+ key +:+ " is already bound to a different canonical request"))
      else
        record ← on_journal (operation (idem_operation_id i));
        match record with
        | None => raise (journal_error ("idempotency key " +:+ key +:+ " points at a missing operation"))
        | Some r => mret (Some r)
        end
  end.

Definition _admit (a : op_action) (fingerprint_ : string) (who : Actor) (key : string) (view : MachineSnapshot)
    (now window : Z) (reason : string) : DM OperationRecord :=
  id ← new_operation_id;
  op ← liftR (OperationRecord_make id a fingerprint_ OperationState.QUEUED (ms_generation view)
                (utc now) (utc (now + window)) who false None None None None);
  idem ← liftR (IdempotencyRecord_make key fingerprint_ (operation_id op) (utc now)
                  (utc (now + _idempotency_ttl env)));
  _ ← on_journal (record_admission op ("admitted against generation " +:+ str_of_Z (ms_generation view)) (Some idem));
  _transition (operation_id op) OperationState.ACCEPTED reason false None None None.

(** What an admission block gives: the replayed operation, or a new one to hand on. *)
Inductive admission := Replayed (r : OperationRecord) | Accepted (r : OperationRecord).

(** The block [with self._machine.admission() as view: self._require_durable(view); with
    self._durable(activity): ...] that every entry point shares: replay first, then the caller's own
    checks and admission against the frozen view. *)
Definition admission_block (activity key fingerprint_ : string) (now : Z)
    (admit_against : MachineSnapshot -> DM OperationRecord) : DM admission :=
  d ← getS;
  let view := m_snapshot (_machine d) in
  _ ← _require_durable view;
  _durable activity (
    replayed ← _replay key fingerprint_ now;
    match replayed with
    | Some r => mret (Replayed r)
    | None => r ← admit_against view; mret (Accepted r)
    end).

Definition require_generation (who : string) (expected : Z) (view : MachineSnapshot) : DM unit :=
  if negb (expected =? ms_generation view)
  then raise (domain_exn StaleGenerationError
         (who +:+ " observed generation " +:+ str_of_Z expected +:+ "; the machine is at "
          +:+ str_of_Z (ms_generation view)))
  else mret tt.

(** The worker's admission call, and what its refusal does to the durable operation. *)
Definition enqueue (call : W -> W * result unit) (r : OperationRecord) : DM OperationRecord :=
  try_case (fun d => let p := call (_worker d) in (set_worker p.1 d, p.2))
    (fun _ => mret r)
    (fun e =>
       if isinstance e (Worker SerialWorkerError) then
         _ ← _resolve (operation_id r) e;
         raise (_translate e (operation_id r))
       else raise e).

Definition submit (a : op_action) (body : RequestBody) (who : Actor) (idempotency_key : string)
    (expected_generation : Z) (deadline_ms : BodyValue) : DM OperationRecord :=
  intent ← liftR (intent_for a body);
  fp ← liftR (request_fingerprint (sha256_hexdigest env) a body who);
  key ← liftR (require_idempotency_key idempotency_key);
  window ← _require_deadline deadline_ms;
  now ← _now;
  _ ← refresh_durability;
  r ← admission_block "admitting an operation" key fp now (fun view =>
        _ ← require_generation "request" expected_generation view;
        _ ← (if negb (admits_work view)
             then raise (domain_exn NotReadyError
                    ("machine does not admit work: " +:+ ConnectionState.value (connection view)))
             else mret tt);
        _ ← liftR (require_supported intent view);
        _admit a fp who key view now window "admitted to the serial lane");
  match r with
  | Replayed r => mret r
  | Accepted accepted => enqueue (worker_submit intent accepted) accepted
  end.

Definition stop (who : Actor) (idempotency_key : string) (expected_generation : option Z)
    (deadline_ms : BodyValue) : DM OperationRecord :=
  fp ← liftR (request_fingerprint (sha256_hexdigest env) OperationAction.STOP ∅ who);
  key ← liftR (require_idempotency_key idempotency_key);
  window ← _require_deadline deadline_ms;
  now ← _now;
  _ ← refresh_durability;
  r ← admission_block "admitting a priority stop" key fp now (fun view =>
        _ ← match expected_generation with
            | Some g => require_generation "stop" g view
            | None => mret tt
            end;
        accepted ← _admit OperationAction.STOP fp who key view now window "admitted to the priority stop lane";
        _transition (operation_id accepted) OperationState.RUNNING "handed to the priority stop lane"
          false None None None);
  match r with
  | Replayed r => mret r
  | Accepted running => enqueue (worker_submit_priority_stop (operation_id running)) running
  end.

Definition _session_operation (a : op_action) (session_action : SessionAction.SessionAction) (who : Actor)
    (idempotency_key : string) (expected_generation : Z) (deadline_ms : BodyValue) : DM OperationRecord :=
  fp ← liftR (request_fingerprint (sha256_hexdigest env) a ∅ who);
  key ← liftR (require_idempotency_key idempotency_key);
  window ← _require_deadline deadline_ms;
  now ← _now;
  _ ← refresh_durability;
  r ← admission_block ("admitting a " +:+ OperationAction.value a +:+ " operation") key fp now (fun view =>
        _ ← require_generation "request" expected_generation view;
        _admit a fp who key view now window
          ("admitted to the serial lane as a " +:+ OperationAction.value a +:+ " operation"));
  match r with
  | Replayed r => mret r
  | Accepted accepted => enqueue (worker_submit (SessionIntent session_action) accepted) accepted
  end.

Definition connect (who : Actor) (key : string) (expected_generation : Z) (deadline_ms : BodyValue) :=
  _session_operation OperationAction.CONNECT SessionAction.CONNECT who key expected_generation deadline_ms.
Definition recover (who : Actor) (key : string) (expected_generation : Z) (deadline_ms : BodyValue) :=
  _session_operation OperationAction.RECOVER SessionAction.RECOVER who key expected_generation deadline_ms.

(** ** Configuration *)

Definition configuration : DM (ConfigurationValues * Z * Z) :=
  applied ← on_journal applied_configuration;
  match applied with
  | None => d ← getS; mret (_configuration d, _configuration_generation d, _configured_at d)
  | Some (values, g, t) => v ← liftR (from_mapping values); mret (v, g, t)
  end.

Definition _apply_configuration (op : OperationRecord) (values : ConfigurationValues) (who : Actor) (now : Z)
    : DM OperationRecord :=
  d ← getS;
  let version := transition_generation (_machine d) in
  config_id ← new_operation_id;
  _ ← on_journal (record_configuration config_id version (as_mapping values)
                    (role who +:+ ":" +:+ user_id who) (utc now));
  _ ← on_machine (publish_transition (Some (operation_id op)) "configuration applied");
  _ ← modifyS (fun d => set_configuration values version now
                 (Z.min (_max_deadline_ms d) (max_deadline_ms values)) d);
  _transition (operation_id op) OperationState.SUCCEEDED "configuration committed" true (Some "applied") None
    (Some (str_of_Z <$> as_mapping values)).

Definition configure (changes : gmap string BodyValue) (who : Actor) (idempotency_key : string)
    (expected_generation : Z) (deadline_ms : BodyValue) : DM OperationRecord :=
  key ← liftR (require_idempotency_key idempotency_key);
  window ← _require_deadline deadline_ms;
  now ← _now;
  cur ← configuration;
  candidate ← liftR (with_changes cur.1.1 changes);
  fp ← liftR (request_fingerprint (sha256_hexdigest env) OperationAction.CONFIGURE changes who);
  _ ← refresh_durability;
  r ← admission_block "applying a configuration change" key fp now (fun view =>
        _ ← require_generation "request" expected_generation view;
        accepted ← _admit OperationAction.CONFIGURE fp who key view now window
                     "admitted as a daemon configuration change";
        running ← _transition (operation_id accepted) OperationState.RUNNING "applying the configuration change"
                    false None None None;
        _apply_configuration running candidate who now);
  match r with Replayed r | Accepted r => mret r end.
End Domain.
