(* ===== verification/DomainTotal.v ===== *)
(** * The domain always answers

    No method of the journal or the domain runs out of fuel: each returns or raises,
    as long as the worker's own admission calls do. *)
From S2P Require Import Prelude PyString Errors IsoTime Json Operations Models Session Machine Journal.
From S2P Require Import Configuration Adapters Events Domain.

(** ** Total computations *)

Definition total {S E A} (m : M S E A) : Prop := forall s, halts (m s).2.

Section Total.
Context {S E : Type}.

Lemma total_bind {A B} (m : M S E A) (f : A -> M S E B) : total m -> (forall a, total (f a)) -> total (m ≫= f).
Proof. intros Hm Hf s. unfold mbind, M_bind. specialize (Hm s). destruct (m s) as [s' [a|e|]]; [apply Hf|done|done]. Qed.
Lemma total_lift {A} (r : res E A) : halts r -> total (liftR (S:=S) r).
Proof. by intros H s. Qed.
Lemma total_ret {A} (a : A) : total (S:=S) (E:=E) (mret a).
Proof. by intros s. Qed.
Lemma total_raise {A} (e : E) : total (S:=S) (A:=A) (raise e).
Proof. by intros s. Qed.
Lemma total_get : total (S:=S) (E:=E) getS.
Proof. by intros s. Qed.
Lemma total_put s0 : total (S:=S) (E:=E) (putS s0).
Proof. by intros s. Qed.
Lemma total_modify f : total (S:=S) (E:=E) (modifyS f).
Proof. by intros s. Qed.
Lemma total_try {A} (m : M S E A) h : total m -> (forall e, total (h e)) -> total (try_except m h).
Proof. intros Hm Hh s. unfold try_except. specialize (Hm s). destruct (m s) as [s' [a|e|]]; [done|apply Hh|done]. Qed.
Lemma total_case {A B} (m : M S E A) (ok : A -> M S E B) h :
  total m -> (forall a, total (ok a)) -> (forall e, total (h e)) -> total (try_case m ok h).
Proof. intros Hm Ho Hh s. unfold try_case. specialize (Hm s). destruct (m s) as [s' [a|e|]]; [apply Ho|apply Hh|done]. Qed.
End Total.

Lemma halts_ok {E A} (a : A) : halts (E:=E) (Ok a).
Proof. done. Qed.
Lemma halts_ret {E A} (a : A) : halts (E:=E) (mret a).
Proof. done. Qed.
Lemma halts_err {E A} (e : E) : halts (A:=A) (Err e).
Proof. done. Qed.
Lemma halts_throw {A} c m : halts (throw (A:=A) c m).
Proof. done. Qed.
Lemma halts_raises {A} c (r : result A) : only_raises c r -> halts r.
Proof. by destruct r. Qed.

#[export] Hint Resolve total_lift total_ret total_raise total_get total_put total_modify halts_ok halts_ret halts_err halts_throw : cs71.

(** Walks a fallible function or a computation along its structure. *)
Ltac total_step :=
  cbv zeta;
  match goal with
  | |- total (_ ≫= _) => apply total_bind; [|intros]
  | |- total (try_except _ _) => apply total_try; [|intros]
  | |- total (try_case _ _ _) => apply total_case; [| |]; intros
  | |- halts (_ ≫= _) => apply halts_bind; [|intros]
  | |- total _ => solve [eauto with cs71]
  | |- halts _ => solve [eauto with cs71]
  | |- total (liftR _) => apply total_lift
  | |- _ (if ?b then _ else _) => destruct b
  | |- _ (match ?x with _ => _ end) => destruct x
  end.
Ltac total_steps := repeat total_step.

(** ** Records and encodings *)

Lemma halts_check_items {V} (f : string -> V -> result unit) l : (forall k v, halts (f k v)) -> halts (check_items f l).
Proof. intros Hf. induction l as [|[k v] l IH]; [done|]. apply halts_bind; [apply Hf|intros; apply IH]. Qed.
Lemma halts_decode_all {A B} (f : A -> result B) l : (forall a, halts (f a)) -> halts (decode_all f l).
Proof. intros Hf. induction l as [|x l IH]; simpl; total_steps. Qed.
Lemma halts_require_utc d n : halts (_require_utc d n).
Proof. unfold _require_utc, invalid. total_steps. Qed.
Lemma halts_moment d : halts (_require_moment d).
Proof. unfold _require_moment. total_steps. Qed.
Lemma halts_terminal_fields f : halts (require_terminal_fields f).
Proof.
  unfold require_terminal_fields, invalid. destruct (_ <? _); [done|]. apply halts_bind; [|done].
  apply halts_check_items. intros k v. unfold terminal_field_check, invalid. total_steps.
Qed.
Lemma halts_key key : halts (require_idempotency_key key).
Proof. unfold require_idempotency_key, invalid. total_steps. Qed.
Lemma halts_reason reason : halts (require_reason reason).
Proof. unfold require_reason, invalid. total_steps. Qed.
Lemma halts_actor u r : halts (Actor_make u r).
Proof. unfold Actor_make, _require_token, invalid. total_steps. Qed.
#[export] Hint Resolve halts_require_utc halts_moment halts_terminal_fields halts_key halts_reason halts_actor : cs71.

Lemma halts_record id a fp st g c d who tr oc ta rq tf : halts (OperationRecord_make id a fp st g c d who tr oc ta rq tf).
Proof. unfold OperationRecord_make, invalid. total_steps. Qed.
Lemma halts_idempotency k fp id c e : halts (IdempotencyRecord_make k fp id c e).
Proof. unfold IdempotencyRecord_make, invalid. total_steps. Qed.
Lemma halts_time s : halts (_decode_time s).
Proof. unfold _decode_time, fromisoformat. total_steps. Qed.
#[export] Hint Resolve halts_record halts_idempotency halts_time : cs71.
Lemma halts_optional_time o : halts (_decode_optional_time o).
Proof. unfold _decode_optional_time. total_steps. Qed.
Lemma halts_fields o : halts (_decode_fields o).
Proof. unfold _decode_fields. total_steps. Qed.
Lemma halts_action_of s : halts (action_of s).
Proof. unfold action_of. total_steps. Qed.
Lemma halts_state_of s : halts (state_of s).
Proof. unfold state_of. total_steps. Qed.
#[export] Hint Resolve halts_optional_time halts_fields halts_action_of halts_state_of : cs71.
Lemma halts_decode_operation row : halts (_decode_operation row).
Proof. unfold _decode_operation. total_steps. Qed.
Lemma halts_decode_idempotency row : halts (_decode_idempotency row).
Proof. unfold _decode_idempotency. total_steps. Qed.
Lemma halts_int s : halts (int_of_text s).
Proof. unfold int_of_text. total_steps. Qed.
#[export] Hint Resolve halts_decode_operation halts_decode_idempotency halts_int : cs71.
Lemma halts_py_int v : halts (py_int v).
Proof. unfold py_int. total_steps. Qed.
#[export] Hint Resolve halts_py_int : cs71.

(** ** The journal *)

Lemma total_fault {A} (m : JM A) : total m -> total (with_fault m).
Proof. intros Hm j. unfold with_fault. destruct (faults j) as [|[] fs]; [apply Hm|apply Hm|done|done]. Qed.
Lemma total_execute {A} (f : DB -> result (DB * A)) : (forall db, halts (f db)) -> total (execute f).
Proof. intros Hf. apply total_fault. intros j. specialize (Hf (current j)). by destruct (f _) as [[db a]|e|]. Qed.
Lemma total_begin : total begin_immediate.
Proof. apply total_fault. intros j. by destruct (working j). Qed.
Lemma total_rollback : total rollback.
Proof. apply total_fault. intros j. by destruct (working j). Qed.
Lemma total_commit : total commit.
Proof. apply total_fault. intros j. by destruct (working j). Qed.
Lemma total_open : total _require_open.
Proof. intros j. unfold _require_open. by destruct (_closed j). Qed.
#[export] Hint Resolve total_execute total_begin total_rollback total_commit total_open : cs71.

Lemma total_guard {A} (m : JM A) : total m -> total (_guard m).
Proof. intros Hm. unfold _guard. total_steps. Qed.
Lemma total_transaction {A} (m : JM A) : total m -> total (Journal._transaction m).
Proof. intros Hm. unfold Journal._transaction. total_steps. Qed.
Ltac journal_steps :=
  repeat first [total_step | apply total_guard | apply total_transaction | apply total_execute; intros].

Lemma halts_select id db : halts (select_operation id db).
Proof. done. Qed.
Lemma halts_insert_operation r db : halts (insert_operation r db).
Proof. unfold insert_operation, integrity. journal_steps. Qed.
Lemma halts_update id f db : halts (update_operation id f db).
Proof. unfold update_operation, integrity. journal_steps. Qed.
Lemma halts_insert_transition id fr to g at_ why db : halts (insert_transition id fr to g at_ why db).
Proof. unfold insert_transition, integrity. journal_steps. Qed.
Lemma halts_insert_idempotency r db : halts (insert_idempotency r db).
Proof. unfold insert_idempotency, integrity. journal_steps. Qed.
Lemma halts_insert_configuration r db : halts (insert_configuration r db).
Proof. unfold insert_configuration, integrity. journal_steps. Qed.
#[export] Hint Resolve halts_select halts_insert_operation halts_update halts_insert_transition halts_insert_idempotency
  halts_insert_configuration : cs71.

Lemma total_read_operation id : total (_read_operation id).
Proof. unfold _read_operation. journal_steps. Qed.
#[export] Hint Resolve total_read_operation : cs71.
Lemma total_operation id : total (operation id).
Proof. unfold operation. journal_steps. Qed.
Lemma total_recent l b s a : total (recent_operations l b s a).
Proof.
  unfold recent_operations, bind_optional_integer. journal_steps. apply halts_decode_all. intros [c r]. total_steps.
Qed.
Lemma total_applied : total applied_configuration.
Proof. unfold applied_configuration. journal_steps. apply halts_decode_all. intros x. journal_steps. Qed.
Lemma total_idempotency_record k d : total (idempotency_record k d).
Proof. unfold idempotency_record, live_at. journal_steps. Qed.
Lemma total_append id fr to g t why : total (_append_transition id fr to g t why).
Proof. unfold _append_transition. journal_steps. Qed.
#[export] Hint Resolve total_operation total_recent total_applied total_idempotency_record total_append : cs71.
Lemma total_admission op why idem : total (record_admission op why idem).
Proof. unfold record_admission, invalid_transition. journal_steps. Qed.
Lemma total_record_transition id to g d why tr oc rq tf : total (record_transition id to g d why tr oc rq tf).
Proof. unfold record_transition, invalid_transition. journal_steps. Qed.
Lemma total_record_configuration id g v s d : total (record_configuration id g v s d).
Proof. unfold record_configuration. journal_steps. Qed.
#[export] Hint Resolve total_admission total_record_transition total_record_configuration : cs71.

(** ** Requests *)

Lemma halts_intent a b : halts (intent_for a b).
Proof.
  unfold intent_for, _home_intent, _sort_intent, _feed_intent, SortIntent_make, invalid.
  repeat first [done|case_match]; simplify_eq.
Qed.
Lemma halts_supported i v : halts (require_supported i v).
Proof. unfold require_supported, invalid. total_steps. Qed.
Lemma halts_canonical a b who : halts (canonical_request a b who).
Proof.
  unfold canonical_request, invalid. destruct (_ <? _); [done|]. apply halts_bind; [|done]. apply halts_check_items.
  intros k v. unfold body_field_check, _require_body_value, invalid. total_steps.
Qed.
Lemma halts_changes v c : halts (with_changes v c).
Proof. unfold with_changes, replace_values, ConfigurationValues_make, check_bound, invalid. total_steps. Qed.
#[export] Hint Resolve halts_intent halts_supported halts_canonical halts_changes : cs71.
Lemma halts_fingerprint h a b who : halts (request_fingerprint h a b who).
Proof. unfold request_fingerprint. total_steps. Qed.
Lemma halts_mapping m : halts (from_mapping m).
Proof. unfold from_mapping, replace_values, ConfigurationValues_make, check_bound, invalid. total_steps. Qed.
#[export] Hint Resolve halts_fingerprint halts_mapping : cs71.

(** ** The domain *)

Section Domain.
Context {W : Type} `{WorkerPort W} (env : Env).
Context (submit_answers : forall i r w, halts (worker_submit i r w).2).
Context (stop_answers : forall id w, halts (worker_submit_priority_stop id w).2).
Abbreviation D := (OperationDomain W).

Lemma total_now : total (_now (W:=W) env).
Proof. by intros d. Qed.
Lemma total_uuid : total (new_operation_id (W:=W) env).
Proof. by intros d. Qed.
Lemma total_on_journal {A} (m : JM A) : total m -> total (on_journal (W:=W) m).
Proof. intros Hm d. apply Hm. Qed.
#[local] Hint Resolve total_now total_uuid total_on_journal : cs71.
Lemma total_publish ty g op data : total (publish_event (W:=W) env ty g op data).
Proof. unfold publish_event. total_steps. Qed.
#[local] Hint Resolve total_publish : cs71.
Lemma total_on_machine f : total (on_machine (W:=W) env f).
Proof. unfold on_machine, _publish_machine_event. total_steps. Qed.
#[local] Hint Resolve total_on_machine : cs71.
Lemma total_journal_fault reason : total (_record_journal_fault (W:=W) env reason).
Proof. unfold _record_journal_fault. total_steps. Qed.
#[local] Hint Resolve total_journal_fault : cs71.
Lemma total_refresh : total (refresh_durability (W:=W) env).
Proof. unfold refresh_durability. total_steps. Qed.
Lemma total_deadline ms : total (_require_deadline (W:=W) env ms).
Proof. unfold _require_deadline. total_steps. Qed.
Lemma total_transition id to reason tr oc rq tf : total (_transition (W:=W) env id to reason tr oc rq tf).
Proof. unfold _transition, _write_transition. total_steps. Qed.
#[local] Hint Resolve total_refresh total_deadline total_transition : cs71.
Lemma total_resolve id e : total (_resolve (W:=W) env id e).
Proof. unfold _resolve, _current, _safe_transition. total_steps. Qed.
Lemma total_replay key fp t : total (_replay (W:=W) key fp t).
Proof. unfold _replay. total_steps. Qed.
Lemma total_admit a fp who key view n w reason : total (_admit (W:=W) env a fp who key view n w reason).
Proof. unfold _admit. total_steps. Qed.
#[local] Hint Resolve total_resolve total_replay total_admit : cs71.

Lemma total_block activity key fp now (f : MachineSnapshot -> M D exn OperationRecord) :
  (forall view, total (f view)) -> total (admission_block env activity key fp now f).
Proof. intros Hf. unfold admission_block, _require_durable, _durable. total_steps. Qed.
Lemma total_enqueue call r : (forall w : W, halts (call w).2) -> total (enqueue env call r).
Proof. intros Hc. unfold enqueue. apply total_case; [intros d; apply Hc|intros; total_steps..]. Qed.
Lemma total_generation who g view : total (require_generation (W:=W) who g view).
Proof. unfold require_generation. total_steps. Qed.
#[local] Hint Resolve total_block total_enqueue total_generation : cs71.

Lemma total_submit a b who key g ms : total (submit (W:=W) env a b who key g ms).
Proof. unfold submit. total_steps. apply total_block. intros view. total_steps. Qed.
Lemma total_stop who key g ms : total (stop (W:=W) env who key g ms).
Proof. unfold stop. total_steps. apply total_block. intros view. total_steps. Qed.
Lemma total_session a sa who key g ms : total (_session_operation (W:=W) env a sa who key g ms).
Proof. unfold _session_operation. total_steps. apply total_block. intros view. total_steps. Qed.
Lemma total_configuration : total (configuration (W:=W)).
Proof. unfold configuration. total_steps. Qed.
#[local] Hint Resolve total_configuration : cs71.
Lemma total_configure changes who key g ms : total (configure (W:=W) env changes who key g ms).
Proof. unfold configure, _apply_configuration. total_steps. apply total_block. intros view. total_steps. Qed.
End Domain.
