(* ===== verification/DomainSpec.v ===== *)
(** * The domain under concurrency

    Every method of the domain is a sequence of primitive steps, each of which is
    atomic in the daemon because one lock covers it: a journal transaction, a
    machine publication, and the durable transition that writes the journal and
    publishes its generation under the machine lock. Invariants of the primitive
    steps hold under every interleaving of API threads and worker callbacks. *)
From S2P Require Import Prelude PyString Errors IsoTime Json Operations Models Session Machine Journal JournalSpec.
From S2P Require Import Configuration Adapters Events Domain.
(** What the parameters are documented to deliver: UUID syntax, a clock within the range of
    [datetime] (with the deadlines and the key lifetime added), a positive policy. *)
Record env_ok (env : Env) (max0 : Z) : Prop := {
  eo_uuid : forall n, uuid_syntax (uuid4 env n) = true;
  eo_now : forall n, valid_moment (now_at env n);
  eo_deadline : forall n w, 0 < w <= max0 * 1000 -> valid_moment (now_at env n + w);
  eo_ttl : 0 < _idempotency_ttl env;
  eo_min : 0 < _min_deadline_ms env;
}.

Definition actor_ok (who : Actor) : Prop := Actor_make (user_id who) (role who) = Ok who.

Section Spec.
Context {W : Type} `{WorkerPort W} (env : Env) (max0 : Z) (Henv : env_ok env max0).
Abbreviation D := (OperationDomain W).
Abbreviation DM := (M D exn).

(** ** Primitive steps *)

(** The durable transition: the journal is written at the next generation, and only a recorded
    transition is published. *)
Definition write_and_publish (id : string) (to : op_state) (t : Z) (reason : string) (active : option string)
    (why : string) (trusted : bool) (oc : option string) (req : option Z) (fields : option (gmap string string))
    (d : D) : D :=
  let p := record_transition id to (transition_generation (_machine d)) (utc t) reason trusted oc req fields
             (_journal d) in
  match p.2 with
  | Ok _ => set_machine (publish_transition active why (_machine d)) (set_journal p.1 d)
  | _ => set_journal p.1 d
  end.

Definition configure_and_publish (cid : string) (values : gmap string Z) (source : string) (t : Z)
    (active : option string) (why : string) (d : D) : D :=
  let p := record_configuration cid (transition_generation (_machine d)) values source (utc t) (_journal d) in
  match p.2 with
  | Ok _ => set_machine (publish_transition active why (_machine d)) (set_journal p.1 d)
  | _ => set_journal p.1 d
  end.

Inductive prim : relation D :=
| p_env d r u c : prim d (set_counters r u c d)
| p_publish d ty g t op data : prim d (set_events (publish ty g t op data (_events d)).1 d)
| p_worker d w : prim d (set_worker w d)
| p_connection d s : prim d (set_machine (observe_connection s (_machine d)) d)
| p_profile d f r : prim d (set_machine (observe_profile f r (_machine d)) d)
| p_fault d reason fid t : prim d (set_machine (record_journal_fault reason fid t (_machine d)) d)
| p_read {A} d (m : JM A) : reads_only m -> prim d (set_journal (m (_journal d)).1 d)
| p_admit d op reason idem : stored_ok op -> generation op = m_generation (_machine d) ->
    prim d (set_journal (record_admission op reason idem (_journal d)).1 d)
| p_transition d id to t reason active why trusted oc req fields : valid_moment t ->
    prim d (write_and_publish id to t reason active why trusted oc req fields d)
| p_configure d cid values source t active why : valid_moment t ->
    prim d (configure_and_publish cid values source t active why d)
| p_policy d v g t limit : limit <= _max_deadline_ms d -> prim d (set_configuration v g t limit d).

Definition bounded (d : D) : Prop := _max_deadline_ms d <= max0.

Lemma prim_bounded d d' : bounded d -> prim d d' -> bounded d'.
Proof.
  unfold bounded. intros Hb Hp. revert Hb. destruct Hp; simpl; try done; unfold write_and_publish, configure_and_publish;
    try (case_match; done); try lia.
Qed.

Lemma prims_bounded d d' : rtc prim d d' -> bounded d -> bounded d'.
Proof. apply rtc_invariant, prim_bounded. Qed.

(** ** Methods refine the primitive steps *)

Definition refines_at {A} (P : D -> Prop) (m : DM A) : Prop :=
  forall d, bounded d -> P d -> rtc prim d (m d).1.
Abbreviation refines := (refines_at (fun _ : D => True)).

(** A computation that leaves the state alone. *)
Definition stateless {A} (m : DM A) : Prop := forall d, (m d).1 = d.

Lemma refines_weaken {A} (P Q : D -> Prop) (m : DM A) :
  refines_at Q m -> (forall d, P d -> Q d) -> refines_at P m.
Proof. intros Hm HPQ d Hb HP. by apply Hm; [|apply HPQ]. Qed.

(** Sequencing; [R] is a fact about the value of [m]. *)
Lemma refines_bind_fact {A B} (R : A -> Prop) (m : DM A) (f : A -> DM B) :
  refines m -> (forall d a, bounded d -> (m d).2 = Ok a -> R a) -> (forall a, R a -> refines (f a)) ->
  refines (m ≫= f).
Proof.
  intros Hm HR Hf d Hb _. unfold mbind, M_bind. specialize (Hm d Hb I). specialize (HR d).
  destruct (m d) as [d' [a|e|]]; simpl in *; [|done|done]. etrans; [done|].
  apply Hf; [by apply HR|by eapply prims_bounded|done].
Qed.

(** The general rule: [m] leads from [P] to [Q] and gives values with [R]. *)
Lemma refines_seq {A B} (P Q : D -> Prop) (R : A -> Prop) (m : DM A) (f : A -> DM B) :
  (forall d, bounded d -> P d -> rtc prim d (m d).1 /\ forall a, (m d).2 = Ok a -> R a /\ Q (m d).1) ->
  (forall a, R a -> refines_at Q (f a)) -> refines_at P (m ≫= f).
Proof.
  intros Hm Hf d Hb HP. destruct (Hm d Hb HP) as [Hr Ha]. unfold mbind, M_bind.
  destruct (m d) as [d' [a|e|]]; simpl in *; [|done|done]. destruct (Ha a eq_refl) as [HR HQ].
  etrans; [done|]. apply (Hf a HR); [by eapply prims_bounded|done].
Qed.

Lemma refines_bind {A B} (m : DM A) (f : A -> DM B) :
  refines m -> (forall a, refines (f a)) -> refines (m ≫= f).
Proof. intros Hm Hf. apply (refines_bind_fact (fun _ => True)); auto. Qed.

Lemma refines_stateless_bind {A B} (P : D -> Prop) (m : DM A) (f : A -> DM B) :
  stateless m -> (forall a, refines_at P (f a)) -> refines_at P (m ≫= f).
Proof.
  intros Hm Hf d Hb HP. unfold mbind, M_bind. specialize (Hm d). destruct (m d) as [d' [a|e|]]; simpl in *; subst; [|done|done].
  by apply Hf.
Qed.

Lemma refines_stateless {A} P (m : DM A) : stateless m -> refines_at P m.
Proof. intros Hm d _ _. by rewrite Hm. Qed.

Lemma refines_get {A} P (f : D -> DM A) : (forall d0, refines_at (fun d => d = d0 /\ P d) (f d0)) -> refines_at P (getS ≫= f).
Proof. intros Hf d Hb HP. by apply (Hf d d Hb). Qed.

Lemma refines_try {A} P (m : DM A) (h : exn -> DM A) :
  refines_at P m -> (forall e, refines (h e)) -> refines_at P (try_except m h).
Proof.
  intros Hm Hh d Hb HP. unfold try_except. specialize (Hm d Hb HP). destruct (m d) as [d' [a|e|]]; simpl in *; [done| |done].
  etrans; [done|]. apply Hh; [by eapply prims_bounded|done].
Qed.

Lemma refines_case {A B} P (m : DM A) (ok : A -> DM B) (h : exn -> DM B) :
  refines_at P m -> (forall a, refines (ok a)) -> (forall e, refines (h e)) -> refines_at P (try_case m ok h).
Proof.
  intros Hm Ha Hh d Hb HP. unfold try_case. specialize (Hm d Hb HP). destruct (m d) as [d' [a|e|]]; simpl in *; [| |done];
    (etrans; [done|]; (apply Ha || apply Hh); [by eapply prims_bounded|done]).
Qed.

Lemma stateless_ret {A} (a : A) : stateless (mret a).
Proof. done. Qed.
Lemma stateless_raise {A} e : stateless (raise (A:=A) e).
Proof. done. Qed.
Lemma stateless_lift {A} (r : result A) : stateless (liftR r).
Proof. done. Qed.

Lemma refines_now : refines (_now (W:=W) env).
Proof. intros d _ _. apply rtc_once. apply p_env. Qed.
Lemma now_fact d t : (_now (W:=W) env d).2 = Ok t -> exists n, t = now_at env n.
Proof. intros [= <-]. by eexists. Qed.
Lemma refines_uuid : refines (new_operation_id (W:=W) env).
Proof. intros d _ _. apply rtc_once. apply p_env. Qed.
Lemma uuid_fact d s : (new_operation_id (W:=W) env d).2 = Ok s -> uuid_syntax s = true.
Proof. intros [= <-]. apply Henv. Qed.
Lemma refines_read {A} (m : JM A) : reads_only m -> refines (on_journal (W:=W) m).
Proof. intros Hm d _ _. apply rtc_once. by apply p_read. Qed.
Lemma refines_publish ty g op data : refines (publish_event (W:=W) env ty g op data).
Proof. apply refines_bind; [apply refines_now|]. intros t d _ _. apply rtc_once. apply p_publish. Qed.

#[local] Hint Resolve refines_now refines_uuid refines_publish refines_stateless stateless_ret stateless_raise stateless_lift
  refines_read ro_operation ro_recent ro_applied ro_transitions ro_idempotency : cs71.

(** Walks a method along its structure. *)
Ltac ref_step :=
  cbv zeta;
  match goal with
  | |- refines (_ ≫= _) => apply refines_bind; [|intros]
  | |- refines (try_except _ _) => apply refines_try; [|intros]
  | |- refines (try_case _ _ _) => apply refines_case; [| |]; intros
  | |- refines (if ?b then _ else _) => destruct b
  | |- refines (match ?x with _ => _ end) => destruct x
  | |- refines _ => solve [eauto with cs71]
  | |- refines _ => solve [apply refines_stateless; auto with cs71]
  end.
Ltac ref_steps := repeat ref_step.

(** A machine method that is a primitive step, followed by its event. *)
Lemma refines_on_machine f : (forall d, prim d (set_machine (f (_machine d)) d)) -> refines (on_machine (W:=W) env f).
Proof.
  intros Hf. intros d Hb _. unfold on_machine, getS, modifyS, mbind, M_bind. simpl.
  eapply rtc_l; [apply Hf|]. destruct (_ =? _); [done|].
  apply refines_publish; [|done]. eapply prim_bounded; [done|apply Hf].
Qed.

Lemma refines_observe_session s : refines (_observe_session (W:=W) env s).
Proof. apply refines_on_machine. intros d. apply p_connection. Qed.
Lemma refines_observe_profile c s : refines (_observe_profile (W:=W) env c s).
Proof. apply refines_on_machine. intros d. apply p_profile. Qed.
Lemma refines_journal_fault reason : refines (_record_journal_fault (W:=W) env reason).
Proof.
  unfold _record_journal_fault. ref_steps. apply refines_on_machine. intros d. apply p_fault.
Qed.
#[local] Hint Resolve refines_observe_session refines_observe_profile refines_journal_fault : cs71.

Lemma refines_refresh : refines (refresh_durability (W:=W) env).
Proof.
  unfold refresh_durability. apply refines_get. intros d0. apply (refines_weaken _ (fun _ => True)); [|done].
  apply refines_bind; [|intros; apply refines_get; intros; apply refines_stateless, stateless_ret].
  destruct (journal_available _); [|by ref_steps]. apply refines_bind; [|intros; ref_steps].
  intros d _ _. apply rtc_once, p_env.
Qed.
#[local] Hint Resolve refines_refresh : cs71.

Lemma on_machine_after f (d : D) :
  rtc prim (set_machine (f (_machine d)) d) (on_machine env f d).1 /\ (on_machine env f d).2 = Ok tt.
Proof.
  unfold on_machine, getS, modifyS, mbind, M_bind. simpl. destruct (_ =? _); [done|]. split; [|done].
  exact (rtc_l _ _ _ _ (p_env _ _ _ _) (rtc_once _ _ (p_publish _ _ _ _ _ _))).
Qed.

(** A journal write followed by the publication of its generation. *)
Lemma refines_journal_publish {A B} (P : D -> Prop) (m : JM A) active why (f : A -> DM B) :
  (forall d, P d -> prim d (match (m (_journal d)).2 with
     | Ok _ => set_machine (publish_transition active why (_machine d)) (set_journal (m (_journal d)).1 d)
     | _ => set_journal (m (_journal d)).1 d end)) ->
  (forall a, refines (f a)) ->
  refines_at P (a ← on_journal m; _ ← on_machine env (publish_transition active why); f a).
Proof.
  intros Hp Hf d Hb HP. specialize (Hp d HP). unfold mbind at 1, M_bind at 1, on_journal. cbv zeta.
  assert (forall x, prim d x -> bounded x) as Hbx by (intros x; by apply prim_bounded).
  destruct (m (_journal d)) as [j [a|e|]]; cbn [fst snd] in *; [|by apply rtc_once..].
  destruct (on_machine_after (publish_transition active why) (set_journal j d)) as [Hr Ho].
  unfold mbind, M_bind. destruct (on_machine env _ (set_journal j d)) as [d2 r2]; cbn [fst snd] in *. subst.
  eapply rtc_l; [exact Hp|]. etrans; [exact Hr|]. apply Hf; [|done]. eapply prims_bounded; [exact Hr|]. by apply Hbx.
Qed.

(** The machine is still at generation [g - 1]. *)
Definition before (g : Z) (d : D) : Prop := transition_generation (_machine d) = g.

Lemma refines_write_transition id to reason active trusted oc req fields :
  refines (_write_transition (W:=W) env id to reason active trusted oc req fields).
Proof.
  unfold _write_transition. apply refines_get. intros d0. cbv zeta.
  apply (refines_seq _ (before (transition_generation (_machine d0))) (fun t => exists n, t = now_at env n)).
  - intros d Hb [-> _]. split; [by apply refines_now|]. intros t Ht. split; [by eapply now_fact|done].
  - intros t [n ->]. apply refines_journal_publish; [|intros; apply refines_stateless, stateless_ret].
    intros d Hd. unfold before in Hd. rewrite <- Hd. apply p_transition, Henv.
Qed.
#[local] Hint Resolve refines_write_transition : cs71.

Lemma refines_transition id to reason trusted oc req fields :
  refines (_transition (W:=W) env id to reason trusted oc req fields).
Proof. unfold _transition. ref_steps. Qed.
#[local] Hint Resolve refines_transition : cs71.

Lemma refines_safe_transition id to reason trusted oc req fields :
  refines (_safe_transition (W:=W) env id to reason trusted oc req fields).
Proof. unfold _safe_transition. ref_steps. Qed.
Lemma refines_current id : refines (_current (W:=W) env id).
Proof. unfold _current. ref_steps. Qed.
#[local] Hint Resolve refines_safe_transition refines_current : cs71.

Lemma refines_dispatch op : refines (_dispatch (W:=W) env op).
Proof. unfold _dispatch. ref_steps. Qed.
Lemma refines_resolve id e : refines (_resolve (W:=W) env id e).
Proof. unfold _resolve. ref_steps. Qed.
#[local] Hint Resolve refines_dispatch refines_resolve : cs71.
Lemma refines_complete id r : refines (_complete (W:=W) env id r).
Proof. unfold _complete, complete_command. ref_steps. Qed.
#[local] Hint Resolve refines_complete : cs71.
Lemma refines_settle id f : refines (_settle (W:=W) env id f).
Proof. unfold _settle. ref_steps. Qed.
Lemma refines_settle_stop id f : refines (_settle_stop (W:=W) env id f).
Proof. unfold _settle_stop. ref_steps. Qed.

Lemma refines_replay key fp t : refines (_replay (W:=W) key fp t).
Proof. unfold _replay. ref_steps. Qed.

Lemma replay_machine key fp t (d : D) : _machine (_replay key fp t d).1 = _machine d.
Proof.
  unfold _replay, on_journal, mbind, M_bind. simpl. destruct (idempotency_record _ _ _) as [j1 [[i|]|e|]]; simpl; try done.
  destruct (negb _); simpl; [done|]. destruct (operation _ _) as [j2 [[r|]|e|]]; done.
Qed.

Lemma queued_make id a fp g t t' who op :
  OperationRecord_make id a fp OperationState.QUEUED g (utc t) (utc t') who false None None None None = Ok op ->
  op = mkOperationRecord id a fp OperationState.QUEUED g t t' who false None None None None.
Proof.
  unfold OperationRecord_make. destruct (negb _); [done|]. destruct (g <? 1); [done|]. unfold mbind, res_bind, _require_utc, utc. simpl.
  destruct (_ <=? _); [done|]. intros [= <-]. f_equal; lia.
Qed.

Lemma queued_stored id a fp g n window who op : actor_ok who -> 0 < window <= max0 * 1000 ->
  OperationRecord_make id a fp OperationState.QUEUED g (utc (now_at env n)) (utc (now_at env n + window)) who
    false None None None None = Ok op ->
  stored_ok op /\ generation op = g.
Proof.
  intros Hwho Hw E. pose proof (record_make_wf _ _ _ _ _ _ _ _ _ _ _ _ _ _ E) as [Hwf _].
  apply queued_make in E as ->. split; [|done]. split; try done; simpl; by apply Henv.
Qed.

(** Admission against the current view: the record is built from checked parts, so what is inserted
    can be read back. *)
Lemma admit_refines a fp who key view n window reason : actor_ok who -> 0 < window <= max0 * 1000 ->
  refines_at (fun d => m_snapshot (_machine d) = view) (_admit (W:=W) env a fp who key view (now_at env n) window reason).
Proof.
  intros Hwho Hw d Hb Hv. unfold _admit.
  unfold mbind at 1, M_bind at 1. simpl. set (u := uuid4 env (uuids d)). set (d1 := set_counters _ _ _ d).
  eapply (rtc_l _ _ d1); [apply p_env|].
  assert (bounded d1) as Hb1 by done. assert (m_snapshot (_machine d1) = view) as Hv1 by done. clearbody d1 u. clear d Hb Hv.
  unfold mbind at 1, M_bind at 1, liftR at 1.
  destruct (OperationRecord_make _ _ _ _ _ _ _ _ _ _ _ _ _) as [op|e|] eqn:Eop; [|done|done].
  unfold mbind at 1, M_bind at 1, liftR at 1. destruct (IdempotencyRecord_make _ _ _ _ _) as [i|e|]; [|done|done].
  apply queued_stored in Eop as [Hok Hg]; [|done|done]. unfold mbind at 1, M_bind at 1, on_journal. simpl.
  set (why := "admitted against generation " +:+ _).
  assert (prim d1 (set_journal (record_admission op why (Some i) (_journal d1)).1 d1)) as Hp
    by (apply p_admit; [done|by rewrite Hg, <- Hv1]).
  assert (bounded (set_journal (record_admission op why (Some i) (_journal d1)).1 d1)) as Hb2 by (by eapply prim_bounded).
  destruct (record_admission op why (Some i) (_journal d1)) as [j [[]|e|]]; simpl in *;
    (eapply rtc_l; [exact Hp|]); [|done|done]. by apply refines_transition.
Qed.

Definition at_view (view : MachineSnapshot) (d : D) : Prop := m_snapshot (_machine d) = view.

Lemma refines_admission activity key fp now (admit_against : MachineSnapshot -> DM OperationRecord) :
  (forall view, refines_at (at_view view) (admit_against view)) ->
  refines (admission_block (W:=W) env activity key fp now admit_against).
Proof.
  intros Ha. unfold admission_block. apply refines_get. intros d0.
  apply refines_stateless_bind; [intros d; unfold _require_durable; by destruct (negb _)|]. intros _. unfold _durable.
  apply refines_try; [|intros; ref_steps]. intros d Hb [-> _]. unfold mbind, M_bind.
  pose proof (refines_replay key fp now d0 Hb I) as Hr. pose proof (replay_machine key fp now d0) as Hm.
  destruct (_replay key fp now d0) as [d1 [[r|]|e|]]; simpl in *; try done.
  etrans; [exact Hr|]. specialize (Ha (m_snapshot (_machine d0)) d1).
  destruct (admit_against _ d1) as [d2 [r|e|]]; simpl in *; (apply Ha; [by eapply prims_bounded|unfold at_view; by rewrite Hm]).
Qed.

Lemma refines_enqueue call r : refines (enqueue (W:=W) env call r).
Proof. unfold enqueue. apply refines_case; [intros d _ _; apply rtc_once, p_worker|intros; ref_steps..]. Qed.
#[local] Hint Resolve refines_enqueue : cs71.

Lemma deadline_fact ms d w : bounded d -> (_require_deadline (W:=W) env ms d).2 = Ok w -> 0 < w <= max0 * 1000.
Proof.
  unfold _require_deadline, bounded, getS, mbind, M_bind. simpl. intros Hb. destruct ms as [s|n|b| |]; try done.
  destruct (negb _) eqn:E; [done|]. intros [= <-]. bool_inv. pose proof (eo_min _ _ Henv). lia.
Qed.

Lemma refines_deadline ms : refines (_require_deadline (W:=W) env ms).
Proof.
  apply refines_get. intros d0. apply refines_stateless. destruct ms; try done. by destruct (negb _).
Qed.

Lemma stateless_generation s g view : stateless (require_generation (W:=W) s g view).
Proof. intros d. unfold require_generation. by destruct (negb _). Qed.

(** The prelude of every entry point: the deadline window and the admission time. *)
Lemma refines_timed {A} ms (f : Z -> Z -> DM A) :
  (forall w n, 0 < w <= max0 * 1000 -> refines (f w (now_at env n))) ->
  refines (w ← _require_deadline env ms; t ← _now env; f w t).
Proof.
  intros Hf. apply (refines_bind_fact (fun w => 0 < w <= max0 * 1000)); [apply refines_deadline|apply deadline_fact|].
  intros w Hw. apply (refines_bind_fact (fun t => exists n, t = now_at env n)); [apply refines_now|intros; by eapply now_fact|].
  intros t [n ->]. by apply Hf.
Qed.

Lemma refines_submit a body who key g ms : actor_ok who -> refines (submit (W:=W) env a body who key g ms).
Proof.
  intros Hwho. unfold submit. do 3 (apply refines_bind; [auto with cs71|intros]). apply refines_timed. intros w n Hw.
  ref_steps. apply refines_admission. intros view.
  apply refines_stateless_bind; [apply stateless_generation|]. intros _.
  apply refines_stateless_bind; [intros d; by destruct (negb _)|]. intros _.
  apply refines_stateless_bind; [done|]. intros _. by apply admit_refines.
Qed.

(** Admission followed by more transitions of the same block. *)
Lemma admit_then {A} a fp who key view n window reason (f : OperationRecord -> DM A) :
  actor_ok who -> 0 < window <= max0 * 1000 -> (forall r, refines (f r)) ->
  refines_at (at_view view) (_admit (W:=W) env a fp who key view (now_at env n) window reason ≫= f).
Proof.
  intros Hwho Hw Hf d Hb Hv. pose proof (admit_refines a fp who key view n window reason Hwho Hw d Hb Hv) as Ha.
  unfold mbind, M_bind. destruct (_admit _ _ _ _ _ _ _ _ _ d) as [d' [r|e|]]; simpl in *; [|done|done].
  etrans; [done|]. apply Hf; [by eapply prims_bounded|done].
Qed.

Lemma refines_stop who key g ms : actor_ok who -> refines (stop (W:=W) env who key g ms).
Proof.
  intros Hwho. unfold stop. do 2 (apply refines_bind; [auto with cs71|intros]). apply refines_timed. intros w n Hw.
  ref_steps. apply refines_admission. intros view.
  apply refines_stateless_bind; [destruct g; [apply stateless_generation|done]|]. intros _.
  apply admit_then; [done|done|]. intros; ref_steps.
Qed.

Lemma refines_session a sa who key g ms : actor_ok who ->
  refines (_session_operation (W:=W) env a sa who key g ms).
Proof.
  intros Hwho. unfold _session_operation. do 2 (apply refines_bind; [auto with cs71|intros]). apply refines_timed.
  intros w n Hw. ref_steps. apply refines_admission. intros view.
  apply refines_stateless_bind; [apply stateless_generation|]. intros _. by apply admit_refines.
Qed.

Lemma refines_apply_configuration op v who n : refines (_apply_configuration (W:=W) env op v who (now_at env n)).
Proof.
  unfold _apply_configuration. apply refines_get. intros d0. cbv zeta.
  apply (refines_seq _ (before (transition_generation (_machine d0))) (fun _ => True)).
  - intros d Hb [-> _]. split; [by apply refines_uuid|done].
  - intros cid _. apply (refines_journal_publish (before _) (record_configuration cid _ _ _ _)).
    + intros d Hd. unfold before in Hd. rewrite <- Hd. apply p_configure, Henv.
    + intros _. apply refines_bind; [|intros; ref_steps]. intros d _ _. apply rtc_once, p_policy. lia.
Qed.

Lemma refines_configuration : refines (configuration (W:=W)).
Proof.
  unfold configuration. apply refines_bind; [auto with cs71|]. intros [[[v g] t]|]; [ref_steps|].
  apply refines_get. intros d0. apply refines_stateless, stateless_ret.
Qed.
#[local] Hint Resolve refines_configuration : cs71.

Lemma refines_configure changes who key g ms : actor_ok who -> refines (configure (W:=W) env changes who key g ms).
Proof.
  intros Hwho. unfold configure. apply refines_bind; [auto with cs71|intros]. apply refines_timed. intros w n Hw.
  ref_steps. apply refines_admission. intros view.
  apply refines_stateless_bind; [apply stateless_generation|]. intros _.
  apply admit_then; [done|done|]. intros; ref_steps. apply refines_apply_configuration.
Qed.

(** ** The invariant *)

(** The audit log is ordered by generation and never ahead of [g]: each row is at a generation no
    row before it exceeds, and a transition (unlike an admission) at one of its own. *)
Definition audit_ordered (g : Z) (rows : list tr_row) : Prop :=
  (forall t, t ∈ rows -> t_generation t <= g) /\
  forall i k t t', rows !! i = Some t -> rows !! k = Some t' -> (i < k)%nat ->
    t_generation t <= t_generation t' /\ (t_from_state t' <> None -> t_generation t < t_generation t').

(** [ops0] and [db0] are the operations and the tables the run found when it opened the journal. The generations of a run start
    anew, so what the run itself writes is measured against them; what it found stays in front of it. *)
Record domain_inv (ops0 : list OperationRecord) (db0 : DB) (ops : list OperationRecord) (d : D) : Prop := {
  dv_journal : db_inv ops (committed (_journal d));
  dv_machine : machine_wf (_machine d);
  dv_kept : operation_id <$> ops0 `prefix_of` operation_id <$> ops;
  dv_generation : forall r, r ∈ ops -> r ∈ ops0 \/ generation r <= m_generation (_machine d);
  dv_audit : exists rows, operation_transitions (committed (_journal d)) = operation_transitions db0 ++ rows
    /\ audit_ordered (m_generation (_machine d)) rows;
  dv_config : exists rows, configuration_snapshots (committed (_journal d)) = configuration_snapshots db0 ++ rows
    /\ forall c, c ∈ rows -> g_generation c <= m_generation (_machine d);
  dv_limit : _max_deadline_ms d <= max0;
}.

(** The operations that have ended are still there as they were. *)
Definition keeps_final (ops ops' : list OperationRecord) : Prop := forall r, r ∈ ops -> record_is_terminal r = true -> r ∈ ops'.

Lemma keeps_final_refl ops : keeps_final ops ops.
Proof. by intros r Hr _. Qed.
Lemma keeps_final_trans a b c : keeps_final a b -> keeps_final b c -> keeps_final a c.
Proof. intros H1 H2 r Hr Ht. by apply H2; [apply H1|]. Qed.

(** A permitted edge does not start at an operation that has ended. *)
Lemma final_not_replaced ops db r r' to : db_inv ops db -> r ∈ ops -> operation_id r = operation_id r' ->
  OperationState.can_transition (op_st r) to = true -> keeps_final ops (replace_record r' ops).
Proof.
  intros Hi Hr Hid Hct x Hx Ht. apply elem_of_replace. right. split; [done|]. intros E.
  assert (x = r) as -> by (eapply ids_unique; [apply Hi|done|done|congruence]).
  unfold record_is_terminal in Ht. destruct (op_st r), to; discriminate.
Qed.

Lemma audit_grow g g' rows : g <= g' -> audit_ordered g rows -> audit_ordered g' rows.
Proof. intros Hg [H1 H2]. split; [|done]. intros t Ht. specialize (H1 t Ht). lia. Qed.

Lemma audit_snoc_ordered g g' rows row : audit_ordered g rows -> g <= t_generation row <= g' ->
  (t_from_state row <> None -> g < t_generation row) -> audit_ordered g' (rows ++ [row]).
Proof.
  intros [H1 H2] Hr Hs. split.
  - intros t [Ht| ->%list_elem_of_singleton]%elem_of_app; [specialize (H1 t Ht)|]; lia.
  - intros i k t t' Hi Hk Hlt. apply lookup_app_Some in Hk as [Hk|[Hlk Hk]].
    + rewrite lookup_app_l in Hi by (apply lookup_lt_Some in Hk; lia). by eapply H2.
    + apply list_lookup_singleton_Some in Hk as [Hz <-]. apply lookup_app_Some in Hi as [Hi|[Hli Hi]];
        [|apply lookup_lt_Some in Hi; simpl in Hi; lia].
      assert (t_generation t <= g) as Hle by (apply H1; by eapply list_elem_of_lookup_2).
      split; [lia|]. intros Hf. specialize (Hs Hf). lia.
Qed.

Lemma publish_generation active why m : m_generation (publish_transition active why m) = m_generation m + 1.
Proof. done. Qed.

Section Run.
Context (ops0 : list OperationRecord) (db0 : DB).
Abbreviation run_inv := (domain_inv ops0 db0).

Lemma inv_machine ops d m : run_inv ops d -> machine_step (_machine d) m -> run_inv ops (set_machine m d).
Proof.
  intros [Hj Hm Hk Hg Ha Hc Hl] Hs. assert (m_generation (_machine d) <= m_generation m) as Hle
    by (destruct (machine_step_grows _ _ Hs) as [->|]; lia).
  split; simpl; try done; [by eapply machine_step_wf| | |].
  - intros r Hr. destruct (Hg r Hr); [by left|right; lia].
  - destruct Ha as (rows & ? & Ha). exists rows. split; [done|]. by eapply audit_grow.
  - destruct Hc as (rows & ? & Hc). exists rows. split; [done|]. intros c Hin. specialize (Hc c Hin). lia.
Qed.

Lemma inv_journal_same ops d j : run_inv ops d -> committed j = committed (_journal d) ->
  run_inv ops (set_journal j d).
Proof. intros [Hj Hm Hk Hg Ha Hc Hl] E. split; simpl; try done; by rewrite E. Qed.

Lemma inv_admit ops d op reason idem : run_inv ops d -> stored_ok op ->
  generation op = m_generation (_machine d) ->
  exists ops', run_inv ops' (set_journal (record_admission op reason idem (_journal d)).1 d) /\ keeps_final ops ops'.
Proof.
  intros Hi Hop Hg. pose proof Hi as [Hj Hm Hk Hgen (rows & Ea & Ha) (crows & Ec & Hc) Hl].
  apply (record_admission_spec ops op reason idem (_journal d)
    (fun j' _ => exists ops', run_inv ops' (set_journal j' d) /\ keeps_final ops ops') Hj Hop).
  - intros j' _ E Hdb. exists (ops ++ [op]). split; [|intros r Hr _; apply elem_of_app; by left]. split; simpl; try done.
    + rewrite fmap_app. by apply prefix_app_r.
    + intros r [Hr| ->%list_elem_of_singleton]%elem_of_app; [by apply Hgen|right; lia].
    + rewrite E. simpl. rewrite Ea, <- app_assoc. eexists. split; [done|]. eapply audit_snoc_ordered; [done|simpl; lia|done].
    + rewrite E. simpl. by exists crows.
  - intros j' e E. exists ops. split; [by apply inv_journal_same|apply keeps_final_refl].
Qed.

Lemma inv_transition ops d id to t reason active why trusted oc req fields : run_inv ops d -> valid_moment t ->
  exists ops', run_inv ops' (write_and_publish id to t reason active why trusted oc req fields d) /\ keeps_final ops ops'.
Proof.
  intros Hi Ht. pose proof Hi as [Hj Hm Hk Hgen (rows & Ea & Ha) (crows & Ec & Hc) Hl].
  apply (record_transition_spec ops id to (transition_generation (_machine d)) (utc t) reason trusted oc req fields
    (_journal d) (fun j' r => exists ops', run_inv ops'
      (match r with Ok _ => set_machine (publish_transition active why (_machine d)) (set_journal j' d)
       | _ => set_journal j' d end) /\ keeps_final ops ops') Hj).
  - intros t' [= <-]. by replace (t - 0) with t by lia.
  - intros j' r' _ (r & m0 & Hr & Hid & _ & Hct & _ & -> & E & Hdb) _. exists (replace_record (transitioned to (transition_generation (_machine d)) trusted oc m0 req fields r) ops). split; [|by apply (final_not_replaced ops (committed (_journal d)) r _ to)].
    assert (machine_wf (publish_transition active why (_machine d))) as Hwf by (eapply machine_step_wf; [done|constructor]).
    split; cbn [_machine _journal set_machine set_journal _max_deadline_ms]; try done; rewrite ?publish_generation.
    + by rewrite replace_ids.
    + intros x [[-> _]|[Hx _]]%elem_of_replace; [right; simpl; unfold transition_generation; lia|]. destruct (Hgen x Hx); [by left|right; lia].
    + rewrite E. simpl. rewrite Ea, <- app_assoc. eexists. split; [done|].
      eapply audit_snoc_ordered; [done|simpl; unfold transition_generation; lia|simpl; unfold transition_generation; lia].
    + rewrite E. simpl. exists crows. split; [done|]. intros c Hin. specialize (Hc c Hin). lia.
  - intros j' e E. exists ops. split; [by apply inv_journal_same|apply keeps_final_refl].
Qed.

Lemma inv_configure ops d cid values source t active why : run_inv ops d ->
  run_inv ops (configure_and_publish cid values source t active why d).
Proof.
  intros Hi. pose proof Hi as [Hj Hm Hk Hgen (rows & Ea & Ha) (crows & Ec & Hc) Hl].
  apply (record_configuration_spec ops cid (transition_generation (_machine d)) values source (utc t)
    (_journal d) (fun j' r => run_inv ops
      (match r with Ok _ => set_machine (publish_transition active why (_machine d)) (set_journal j' d)
       | _ => set_journal j' d end)) Hj).
  - intros j' row Hg _ E.
    assert (machine_wf (publish_transition active why (_machine d))) as Hwf by (eapply machine_step_wf; [done|constructor]).
    split; cbn [_machine _journal set_machine set_journal _max_deadline_ms]; try done; rewrite ?publish_generation, ?E; simpl.
    + by apply configuration_inv.
    + intros x Hx. destruct (Hgen x Hx); [by left|right; lia].
    + exists rows. split; [done|]. eapply audit_grow; [|done]. lia.
    + rewrite Ec, <- app_assoc. eexists. split; [done|].
      intros c [Hin| ->%list_elem_of_singleton]%elem_of_app; [specialize (Hc c Hin)|]; unfold transition_generation in *; lia.
  - intros j' e E. by apply inv_journal_same.
Qed.

Lemma prim_keeps ops d d' : run_inv ops d -> prim d d' -> exists ops', run_inv ops' d' /\ keeps_final ops ops'.
Proof.
  intros Hi Hp. assert (run_inv ops d' -> exists ops', run_inv ops' d' /\ keeps_final ops ops') as Hsame
    by (intros; exists ops; split; [done|apply keeps_final_refl]).
  revert Hi Hsame. destruct Hp as [| | |d s|d f r|d reason fid t|A d m Hro|d op reason idem Hop Hg|d id to t reason
    active why trusted oc req fields Ht|d cid values source t active why Ht|d v g t limit Hlim]; intros Hi Hsame.
  1-3: by apply Hsame; destruct Hi.
  1-3: apply Hsame, inv_machine; [done|constructor].
  - apply Hsame. by apply inv_journal_same.
  - by eapply inv_admit.
  - by eapply inv_transition.
  - apply Hsame. by eapply inv_configure.
  - apply Hsame. destruct Hi. split; simpl; try done. lia.
Qed.
Lemma prim_inv ops d d' : run_inv ops d -> prim d d' -> exists ops', run_inv ops' d'.
Proof. intros Hi Hp. destruct (prim_keeps ops d d' Hi Hp) as (ops' & ? & _). by exists ops'. Qed.

Lemma prims_keep ops d d' : run_inv ops d -> rtc prim d d' -> exists ops', run_inv ops' d' /\ keeps_final ops ops'.
Proof.
  intros Hi Hr. revert ops Hi. induction Hr as [d|d d1 d' Hp _ IH]; intros ops Hi; [exists ops; split; [done|apply keeps_final_refl]|].
  destruct (prim_keeps ops d d1 Hi Hp) as (o1 & H1 & K1). destruct (IH o1 H1) as (o2 & H2 & K2). exists o2. split; [done|]. by eapply keeps_final_trans.
Qed.

End Run.

(** ** Calls *)

Inductive domain_call :=
| DSubmit (a : op_action) (body : RequestBody) (who : Actor) (key : string) (g : Z) (ms : BodyValue)
| DStop (who : Actor) (key : string) (g : option Z) (ms : BodyValue)
| DConnect (who : Actor) (key : string) (g : Z) (ms : BodyValue)
| DRecover (who : Actor) (key : string) (g : Z) (ms : BodyValue)
| DConfigure (changes : gmap string BodyValue) (who : Actor) (key : string) (g : Z) (ms : BodyValue)
| DRefresh
| DDispatch (op : OperationRecord)
| DSettle (id : string) (future : result WorkerResult)
| DSettleStop (id : string) (future : result unit)
| DObserveSession (s : SessionSnapshot)
| DObserveProfile (c : Capabilities) (s : Status).

Definition after {A} (m : DM A) (d : D) : D := (m d).1.

Definition run_domain (c : domain_call) : D -> D :=
  match c with
  | DSubmit a body who key g ms => after (submit env a body who key g ms)
  | DStop who key g ms => after (stop env who key g ms)
  | DConnect who key g ms => after (connect env who key g ms)
  | DRecover who key g ms => after (recover env who key g ms)
  | DConfigure changes who key g ms => after (configure env changes who key g ms)
  | DRefresh => after (refresh_durability env)
  | DDispatch op => after (_dispatch env op)
  | DSettle id f => after (_settle env id f)
  | DSettleStop id f => after (_settle_stop env id f)
  | DObserveSession s => after (_observe_session env s)
  | DObserveProfile c s => after (_observe_profile env c s)
  end.

(** The actor of a call was built by its constructor. *)
Definition actor_of (c : domain_call) : option Actor :=
  match c with
  | DSubmit _ _ who _ _ _ | DStop who _ _ _ | DConnect who _ _ _ | DRecover who _ _ _ | DConfigure _ who _ _ _ => Some who
  | _ => None
  end.
Definition domain_call_ok (c : domain_call) : Prop := forall who, actor_of c = Some who -> actor_ok who.

Lemma call_refines c : domain_call_ok c -> forall d, bounded d -> rtc prim d (run_domain c d).
Proof.
  intros Hc d Hb. assert (forall who, actor_of c = Some who -> actor_ok who) as Ha by exact Hc.
  destruct c; simpl in *; unfold after.
  - by apply refines_submit; [apply Ha| |].
  - by apply refines_stop; [apply Ha| |].
  - by apply refines_session; [apply Ha| |].
  - by apply refines_session; [apply Ha| |].
  - by apply refines_configure; [apply Ha| |].
  - by apply refines_refresh.
  - by apply refines_dispatch.
  - by apply refines_settle.
  - by apply refines_settle_stop.
  - by apply refines_observe_session.
  - by apply refines_observe_profile.
Qed.

(** One step of the daemon: a whole call, or one primitive step of a call that is in progress on
    another thread. *)
Definition domain_step (d d' : D) : Prop := prim d d' \/ exists c, domain_call_ok c /\ d' = run_domain c d.

Lemma step_keeps ops0 db0 ops d d' : domain_inv ops0 db0 ops d -> domain_step d d' -> exists ops', domain_inv ops0 db0 ops' d' /\ keeps_final ops ops'.
Proof.
  intros Hi [Hp|(c & Hc & ->)]; [by eapply prim_keeps|]. apply (prims_keep ops0 db0 ops d); [done|]. apply call_refines; [done|apply Hi].
Qed.

(** A run starts from a journal that holds a history. *)
Lemma make_inv ops0 db0 fs w ring d : db_inv ops0 db0 ->
  OperationDomain_make env (Journal_init db0 fs) w ring max0 = Ok d -> domain_inv ops0 db0 ops0 d.
Proof.
  intros Hdb. unfold OperationDomain_make. destruct (_ <=? 0); [done|]. destruct (negb _); [done|]. intros [= <-].
  split; simpl; try done; try apply machine_wf_init; [by left| |]; exists []; rewrite app_nil_r; split; try done.
  - split; [intros t Ht; by apply not_elem_of_nil in Ht|done].
  - intros ? Hin. by apply not_elem_of_nil in Hin.
Qed.
End Spec.

(** ** Many runs on one journal *)

Section Lifetime.
Context {W : Type} `{WorkerPort W} (max0 : Z).

(** The life of an installation: a daemon is assembled over an empty journal, does its steps, ends at any moment - in the middle of a call,
    too, since what is not committed is lost - and is assembled anew over the committed tables, with a clock, identifiers
    and a worker of its own. [db0] is what the current run found. *)
Inductive lifetime : DB -> OperationDomain W -> Prop :=
| first_run env fs w ring d : env_ok env max0 -> OperationDomain_make env (Journal_init DB_empty fs) w ring max0 = Ok d -> lifetime DB_empty d
| next_step env db0 d d' : env_ok env max0 -> lifetime db0 d -> domain_step env d d' -> lifetime db0 d'
| next_run env db0 fs w ring d d' : env_ok env max0 -> lifetime db0 d ->
    OperationDomain_make env (Journal_init (committed (_journal d)) fs) w ring max0 = Ok d' -> lifetime (committed (_journal d)) d'.

End Lifetime.
