(* ===== verification/DomainOutcome.v ===== *)
(** * What one domain call does

    The exact effect of a durable transition, the evidence behind a success, and
    what reaches the worker. *)
From S2P Require Import Prelude PyString Errors IsoTime Json Operations Models Session Machine Journal JournalSpec.
From S2P Require Import JournalSafety Configuration Adapters Events Domain DomainSpec.
Section Outcome.
Context {W : Type} `{WorkerPort W} (env : Env) (max0 : Z) (Henv : env_ok env max0) (ops0 : list OperationRecord) (db0 : DB).
Abbreviation D := (OperationDomain W).
Abbreviation DM := (M D exn).

(** ** Frames *)

(** Computations that do not call the worker. *)
Definition keeps_worker {A} (m : DM A) : Prop := forall d, _worker (m d).1 = _worker d.

Lemma kw_bind {A B} (m : DM A) (f : A -> DM B) : keeps_worker m -> (forall a, keeps_worker (f a)) -> keeps_worker (m ≫= f).
Proof.
  intros Hm Hf d. unfold mbind, M_bind. specialize (Hm d). destruct (m d) as [d' [a|e|]]; simpl in *; [|done|done].
  by rewrite (Hf a d').
Qed.
Lemma kw_try {A} (m : DM A) h : keeps_worker m -> (forall e, keeps_worker (h e)) -> keeps_worker (try_except m h).
Proof.
  intros Hm Hh d. unfold try_except. specialize (Hm d). destruct (m d) as [d' [a|e|]]; simpl in *; [done| |done].
  by rewrite (Hh e d').
Qed.
Lemma kw_get {A} (f : D -> DM A) : (forall d, keeps_worker (f d)) -> keeps_worker (getS ≫= f).
Proof. intros Hf d. by apply (Hf d d). Qed.
Lemma kw_ret {A} (a : A) : keeps_worker (mret a).
Proof. done. Qed.
Lemma kw_raise {A} e : keeps_worker (raise (A:=A) e).
Proof. done. Qed.
Lemma kw_lift {A} (r : result A) : keeps_worker (liftR r).
Proof. done. Qed.
Lemma kw_now : keeps_worker (_now env).
Proof. done. Qed.
Lemma kw_uuid : keeps_worker (new_operation_id env).
Proof. done. Qed.
Lemma kw_journal {A} (m : JM A) : keeps_worker (on_journal m).
Proof. done. Qed.
#[local] Hint Resolve kw_ret kw_raise kw_lift kw_now kw_uuid kw_journal : cs71.

Ltac kw_step :=
  cbv zeta;
  match goal with
  | |- keeps_worker (getS ≫= _) => apply kw_get; intros
  | |- keeps_worker (_ ≫= _) => apply kw_bind; [|intros]
  | |- keeps_worker (try_except _ _) => apply kw_try; [|intros]
  | |- keeps_worker (if ?b then _ else _) => destruct b
  | |- keeps_worker (match ?x with _ => _ end) => destruct x
  | |- keeps_worker (modifyS _) => by intros ?
  | |- keeps_worker _ => solve [eauto with cs71]
  end.
Ltac kw_steps := repeat kw_step.

Lemma kw_on_machine f : keeps_worker (on_machine env f).
Proof. unfold on_machine, _publish_machine_event, publish_event. kw_steps. Qed.
#[local] Hint Resolve kw_on_machine : cs71.
Lemma kw_fault reason : keeps_worker (_record_journal_fault env reason).
Proof. unfold _record_journal_fault. kw_steps. Qed.
#[local] Hint Resolve kw_fault : cs71.
Lemma kw_transition id to reason trusted oc req fields : keeps_worker (_transition env id to reason trusted oc req fields).
Proof. unfold _transition, _write_transition, publish_event. kw_steps. Qed.
#[local] Hint Resolve kw_transition : cs71.
Lemma kw_resolve id e : keeps_worker (_resolve env id e).
Proof. unfold _resolve, _current, _safe_transition. kw_steps. Qed.
#[local] Hint Resolve kw_resolve : cs71.
Lemma kw_replay key fp t : keeps_worker (_replay key fp t).
Proof. unfold _replay. kw_steps. Qed.
Lemma kw_admit a fp who key view now w reason : keeps_worker (_admit env a fp who key view now w reason).
Proof. unfold _admit. kw_steps. Qed.
Lemma kw_refresh : keeps_worker (refresh_durability env).
Proof. unfold refresh_durability. kw_steps. Qed.
Lemma kw_deadline ms : keeps_worker (_require_deadline env ms).
Proof. unfold _require_deadline. kw_steps. Qed.
#[local] Hint Resolve kw_replay kw_admit kw_refresh kw_deadline : cs71.

(** ** The effect of one transition *)

Definition active_of (id : string) (to : op_state) : option string :=
  if bool_decide (to ∈ _SETTLED) then None else Some id.

Definition transition_call (id : string) (to : op_state) (reason : string) (trusted : bool) (oc : option string)
    (req : option Z) (fields : option (gmap string string)) (d : D) : Journal * result OperationRecord :=
  record_transition id to (m_generation (_machine d) + 1) (utc (now_at env (reads d))) reason trusted oc req fields
    (_journal d).

(** What the machine view becomes, by the outcome of the journal write. *)
Definition published_as (id : string) (to : op_state) (reason : string) (r : result OperationRecord)
    (m m' : MachineState) : Prop :=
  match r with
  | Ok _ => m' = publish_transition (active_of id to) ("operation " +:+ OperationState.value to +:+ ": " +:+ reason) m
  | Err e => if is_journal_error e then exists why fid t, m' = record_journal_fault why (Some fid) (Some t) m else m' = m
  | OutOfFuel => m' = m
  end.

Lemma machine_after f (d : D) : _machine (on_machine env f d).1 = f (_machine d) /\ _journal (on_machine env f d).1 = _journal d
  /\ (on_machine env f d).2 = Ok tt.
Proof. unfold on_machine, getS, modifyS, mbind, M_bind. simpl. by destruct (_ =? _). Qed.

Lemma fault_after reason (d : D) : let p := _record_journal_fault env reason d in
  (exists fid t, _machine p.1 = record_journal_fault reason (Some fid) (Some t) (_machine d))
  /\ _journal p.1 = _journal d /\ p.2 = Ok tt.
Proof.
  unfold _record_journal_fault, mbind, M_bind. simpl. destruct (machine_after (record_journal_fault reason
    (Some (uuid4 env (uuids d))) (Some (now_at env (reads d)))) (set_counters (S (reads d)) (S (uuids d)) (checks d) d)) as (E & F & G).
  split_and!; [|done|done]. by eexists _, _.
Qed.

Lemma transition_effect id to reason trusted oc req fields (d : D) :
  let p := transition_call id to reason trusted oc req fields d in
  let q := _transition env id to reason trusted oc req fields d in
  _journal q.1 = p.1 /\ q.2 = p.2 /\ published_as id to reason p.2 (_machine d) (_machine q.1).
Proof.
  cbv zeta. unfold transition_call. destruct (_transition env id to reason trusted oc req fields d) as [d' r'] eqn:Eq.
  cbn [fst snd]. revert Eq. unfold _transition, _write_transition, try_except, getS, on_journal, publish_event, mbind, M_bind.
  cbn [_now _journal set_counters transition_generation fst snd]. unfold transition_generation.
  destruct (record_transition _ _ _ _ _ _ _ _ _ (_journal d)) as [j [r|e|]] eqn:E; cbn [fst snd].
  - set (why := "operation " +:+ _). set (d1 := set_journal j _).
    destruct (machine_after (publish_transition (active_of id to) why) d1) as (E1 & E2 & E3). unfold active_of in *.
    destruct (on_machine env _ d1) as [d2 r2]; cbn [fst snd] in *. subst r2. intros [= <- <-]. simpl.
    split_and!; [by rewrite E2|done|by rewrite E1].
  - destruct (is_journal_error e) eqn:Ee; [|intros [= <- <-]; split_and!; [done|done|]; simpl; by rewrite Ee].
    set (d1 := set_journal j _). set (why := "journal failure recording " +:+ _).
    destruct (fault_after why d1) as ((fid & t & E1) & E2 & E3).
    destruct (_record_journal_fault env why d1) as [d2 r2]; cbn [fst snd] in *. subst r2. intros [= <- <-]. simpl.
    split_and!; [by rewrite E2|done|]. rewrite Ee. by exists why, fid, t.
  - by intros [= <- <-].
Qed.

Lemma latched_after why fid t m : journal_available (m_snapshot (record_journal_fault why fid t m)) = false.
Proof. unfold record_journal_fault. by destruct (journal_available (m_snapshot m)) eqn:E; simpl. Qed.

(** A transition that was recorded: which record it moved and what is stored and published now. *)
Definition recorded (ops : list OperationRecord) (id : string) (to : op_state) (trusted : bool) (oc : option string)
    (req : option Z) (fields : option (gmap string string)) (d d' : D) (r : OperationRecord) : Prop :=
  exists r0, r0 ∈ ops /\ operation_id r0 = id /\ OperationState.can_transition (op_st r0) to = true
    /\ r = transitioned to (m_generation (_machine d) + 1) trusted oc (now_at env (reads d)) req fields r0
    /\ trusted_iff to trusted /\ db_inv (replace_record r ops) (committed (_journal d'))
    /\ m_generation (_machine d') = m_generation (_machine d) + 1
    /\ idempotency_records (committed (_journal d')) = idempotency_records (committed (_journal d)).

(** A transition that was refused: nothing is stored, and a journal failure is latched. *)
Definition refused (d d' : D) (e : exn) : Prop :=
  committed (_journal d') = committed (_journal d) /\
  if is_journal_error e then journal_available (m_snapshot (_machine d')) = false else _machine d' = _machine d.

Lemma transition_cases ops id to reason trusted oc req fields (d : D) : db_inv ops (committed (_journal d)) ->
  let q := _transition env id to reason trusted oc req fields d in
  (exists r, q.2 = Ok r /\ recorded ops id to trusted oc req fields d q.1 r) \/ (exists e, q.2 = Err e /\ refused d q.1 e).
Proof.
  intros Hi q. destruct (transition_effect id to reason trusted oc req fields d) as (Ej & Er & Em). fold q in Ej, Er, Em.
  rewrite Er. unfold transition_call in *. set (p := record_transition _ _ _ _ _ _ _ _ _ _) in *.
  assert ((exists r, p.2 = Ok r /\ trusted_iff to trusted /\
      transition_post ops (committed (_journal d)) id to (m_generation (_machine d) + 1) (utc (now_at env (reads d))) reason
        trusted oc req fields r (committed p.1))
    \/ (exists e, p.2 = Err e /\ committed p.1 = committed (_journal d))) as Hp.
  { apply (record_transition_spec ops id to (m_generation (_machine d) + 1) (utc (now_at env (reads d))) reason trusted oc
      req fields (_journal d) (fun j' r => (exists x, r = Ok x /\ trusted_iff to trusted /\
        transition_post ops (committed (_journal d)) id to (m_generation (_machine d) + 1) (utc (now_at env (reads d))) reason
        trusted oc req fields x (committed j')) \/ (exists e, r = Err e /\ committed j' = committed (_journal d))) Hi).
    - intros t [= <-]. replace (now_at env (reads d) - 0) with (now_at env (reads d)) by lia. apply Henv.
    - intros j' r' _ Hpost Ht. left. by exists r'.
    - intros j' e E. right. by exists e. }
  clearbody p. destruct Hp as [(r & Ep & Ht & Hpost)|(e & Ep & Ec)]; rewrite Ep in *.
  - left. exists r. split; [done|]. destruct Hpost as (r0 & m & Hr0 & Hid & Hm & Hct & _ & Hr & Erows & Hdb).
    exists r0. injection Hm as <-. replace (now_at env (reads d) - 0) with (now_at env (reads d)) in Hr by lia.
    split_and!; [done|done|done|done|done|by rewrite Ej|by rewrite Em|by rewrite Ej, Erows].
  - right. exists e. split; [done|]. split; [by rewrite Ej|]. simpl in Em.
    destruct (is_journal_error e); [|done]. destruct Em as (why & fid & t & ->). apply latched_after.
Qed.

(** C12: a transition is all or nothing, and the view is never ahead of the journal. If it returns,
    the returned record is the stored one, at the generation that is now published; if it raises,
    nothing was stored, and either the machine view did not move at all or, for a journal failure,
    the machine is latched as undurable. *)
Theorem transition_all_or_nothing ops id to reason trusted oc req fields (d : D) :
  domain_inv max0 ops0 db0 ops d ->
  let q := _transition env id to reason trusted oc req fields d in
  (exists r ops', q.2 = Ok r /\ r ∈ ops' /\ db_inv ops' (committed (_journal q.1)) /\ operation_id r = id /\ op_st r = to
     /\ generation r = m_generation (_machine q.1) /\ m_generation (_machine q.1) = m_generation (_machine d) + 1)
  \/ (exists e, q.2 = Err e /\ refused d q.1 e).
Proof.
  intros Hi. cbv zeta. destruct (transition_cases ops id to reason trusted oc req fields d (dv_journal _ _ _ _ _ Hi))
    as [(r & E & r0 & Hr0 & Hid & _ & -> & _ & Hdb & Hg & _)|?]; [left|by right].
  eexists _, _. split_and!; [exact E|by eapply replaced_in|exact Hdb|by simpl|done|by rewrite Hg|done].
Qed.

(** ** Evidence *)

Lemma safe_state id to reason trusted oc req fields (d : D) :
  (_safe_transition env id to reason trusted oc req fields d).1 = (_transition env id to reason trusted oc req fields d).1.
Proof.
  unfold _safe_transition, try_except, mbind, M_bind. destruct (_transition _ _ _ _ _ _ _ _ d) as [d' [r|e|]]; simpl; try done.
  by destruct (is_journal_error e).
Qed.

(** After a settled outcome the stored operations are the old ones, or [id] moved to [to]. *)
Definition moved (ops : list OperationRecord) (id : string) (to : op_state) (db : DB) : Prop :=
  exists ops', db_inv ops' db /\ forall r', r' ∈ ops' -> r' ∈ ops \/
    (op_st r' = to /\ exists r0, r0 ∈ ops /\ operation_id r0 = id /\ operation_id r' = id /\ action r' = action r0).

Lemma moved_none ops id to db : db_inv ops db -> moved ops id to db.
Proof. intros Hi. exists ops. split; [done|]. intros r' Hr'. by left. Qed.

Lemma safe_moved ops id to reason trusted oc req fields (d : D) : db_inv ops (committed (_journal d)) ->
  moved ops id to (committed (_journal (_safe_transition env id to reason trusted oc req fields d).1)).
Proof.
  intros Hi. rewrite safe_state. destruct (transition_cases ops id to reason trusted oc req fields d Hi)
    as [(r & _ & r0 & Hr0 & Hid & _ & -> & _ & Hdb & _)|(e & _ & Ec & _)].
  - eexists. split; [exact Hdb|]. intros r' [[-> _]|[Hr' _]]%elem_of_replace; [right|by left].
    split; [done|]. exists r0. by split_and!.
  - rewrite Ec. by apply moved_none.
Qed.

Lemma operation_reads ops id j r : db_inv ops (committed j) -> working j = None ->
  (operation id j).2 = Ok (Some r) -> r ∈ ops /\ operation_id r = id.
Proof.
  intros Hi Hw. change (wp (operation id) (fun _ x => x = Ok (Some r) -> r ∈ ops /\ operation_id r = id) j).
  unfold operation, _guard. wp_step. unfold _require_open. unfold wp at 1. destruct (_closed j); simpl; [done|].
  wp_steps. unfold _read_operation. wp_step.
  apply (wp_read (fun db => snd <$> list_find (fun r => c_operation_id r = id) (operations db))); [|intros j' e _ He; wp_steps; by rewrite He].
  intros j' _ _. wp_steps. unfold current. rewrite Hw. simpl.
  destruct (decide (id ∈ operation_id <$> ops)) as [Hin|Hin].
  - apply list_elem_of_fmap in Hin as (r0 & -> & Hr0). pose proof (select_found ops _ _ r0 Hi Hr0 eq_refl) as Hs.
    unfold select_operation in Hs. injection Hs as Hs. rewrite Hs. wp_steps.
    rewrite decode_encode_operation by (eapply Forall_forall; [apply Hi|done]). wp_steps. by intros [= ->].
  - pose proof (select_missing ops _ _ Hi Hin) as Hs. unfold select_operation in Hs. injection Hs as Hs. rewrite Hs. by wp_steps.
Qed.

Lemma current_after id (d : D) : let p := _current env id d in
  committed (_journal p.1) = committed (_journal d)
  /\ forall ops r, db_inv ops (committed (_journal d)) -> working (_journal d) = None -> p.2 = Ok (Some r) ->
       r ∈ ops /\ operation_id r = id.
Proof.
  unfold _current, try_except, on_journal. cbv zeta. pose proof (ro_operation id (_journal d)) as Hro.
  pose proof (fun ops r => operation_reads ops id (_journal d) r) as Hop.
  destruct (operation id (_journal d)) as [j [o|e|]]; cbn [fst snd] in *; [by split; [|intros ops r ? ?; apply Hop]| |done].
  destruct (is_journal_error e); [|done]. set (d1 := set_journal j d). set (why := "journal read failed: " +:+ _).
  destruct (fault_after why d1) as (_ & E2 & E3). unfold mbind, M_bind.
  destruct (_record_journal_fault env why d1) as [d2 r2]; cbn [fst snd] in *. subst r2. simpl. split; [by rewrite E2|done].
Qed.

(** The same read, with what becomes of a transaction that was left open. *)
Lemma operation_lookup ops r j : db_inv ops (committed j) -> r ∈ ops ->
  let p := operation (operation_id r) j in
  (exists o, p.2 = Ok o /\ working p.1 = working j /\ (working j = None -> o = Some r)) \/ is_ok p.2 = false.
Proof.
  intros Hi Hr. cbv zeta. change (wp (operation (operation_id r)) (fun j' x => (exists o, x = Ok o /\ working j' = working j /\ (working j = None -> o = Some r))
    \/ is_ok x = false) j).
  unfold operation, _guard. wp_step. unfold _require_open. unfold wp at 1. destruct (_closed j); simpl; [by right|].
  wp_steps. unfold _read_operation. wp_step.
  apply (wp_read (fun db => snd <$> list_find (fun x => c_operation_id x = operation_id r) (operations db))); [|intros j' e _ He; wp_steps; rewrite He; by right].
  intros j' _ Hw'. wp_steps. destruct (snd <$> _) as [row|] eqn:Erow.
  - wp_step. wp_step. destruct (_decode_operation row) as [x|e|] eqn:Ed; [wp_steps; left|wp_steps; case_match; by right|by right].
    exists (Some x). split; [done|]. split; [done|]. intros Hw. revert Erow. unfold current. rewrite Hw. simpl.
    pose proof (select_found ops _ _ r Hi Hr eq_refl) as Hs. unfold select_operation in Hs. injection Hs as Hs. rewrite Hs. intros [= <-].
    rewrite decode_encode_operation in Ed by (eapply Forall_forall; [apply Hi|done]). by injection Ed as <-.
  - wp_steps. left. exists None. split; [done|]. split; [done|]. intros Hw. revert Erow. unfold current. rewrite Hw. simpl.
    pose proof (select_found ops _ _ r Hi Hr eq_refl) as Hs. unfold select_operation in Hs. injection Hs as Hs. by rewrite Hs.
Qed.

(** What [_current] finds for the operation [r]: the record itself, unless the read fails. *)
Lemma current_cases ops r (d : D) : db_inv ops (committed (_journal d)) -> r ∈ ops ->
  let p := _current env (operation_id r) d in
  (exists o, p.2 = Ok o /\ working (_journal p.1) = working (_journal d) /\ (working (_journal d) = None -> o = Some r))
  \/ (p.2 = Ok None /\ journal_available (m_snapshot (_machine p.1)) = false) \/ is_ok p.2 = false.
Proof.
  intros Hi Hr. cbv zeta. unfold _current, try_except, on_journal. cbv zeta.
  pose proof (operation_lookup ops r (_journal d) Hi Hr) as Hop. cbv zeta in Hop.
  destruct (operation (operation_id r) (_journal d)) as [j [o|e|]]; cbn [fst snd is_ok] in *.
  - left. destruct Hop as [(o' & [= <-] & Hw & Ho)|]; [|done]. by exists o.
  - right. destruct (is_journal_error e); [left|by right]. set (d1 := set_journal j d). set (why := "journal read failed: " +:+ _).
    destruct (fault_after why d1) as ((fid & t & E1) & _ & E3). unfold mbind, M_bind.
    destruct (_record_journal_fault env why d1) as [d2 r2]; cbn [fst snd] in *. subst r2. split; [done|]. cbn. rewrite E1. apply latched_after.
  - right. by right.
Qed.

(** A transaction that a failed commit left open keeps the next one from starting. *)
Lemma transaction_open {A} (body : M Journal exn A) j db : working j = Some db -> is_ok (_transaction body j).2 = false.
Proof.
  intros Hw. change (wp (_transaction body) (fun _ x => is_ok x = false) j). unfold _transaction. wp_step. unfold _require_open. unfold wp at 1.
  destruct (_closed j); simpl; [done|]. wp_step. wp_step. unfold begin_immediate.
  assert (forall (j' : Journal) e, wp (_ ← rollback; if is_sqlite_error e then raise (journal_error ("journal write failed: " +:+ exn_msg e)) else raise e)
    (fun _ x => is_ok (A:=A) x = false) j') as Hx.
  { intros j' e. unfold wp, mbind, M_bind. destruct (rollback j') as [j2 [x|e'|]]; [|done..]. by destruct (is_sqlite_error e). }
  apply wp_with_fault; [|intros j' msg _ _ _ _; apply Hx]. intros j' _ Hwj _ _ _. unfold wp at 1. rewrite Hwj, Hw. cbn [fst snd throw bind_post]. apply Hx.
Qed.
Lemma transition_open id to gen at_ reason trusted oc req fields j db : working j = Some db ->
  is_ok (record_transition id to gen at_ reason trusted oc req fields j).2 = false.
Proof.
  intros Hw. unfold record_transition. unfold mbind at 1, M_bind at 1, liftR at 1. destruct (require_reason reason) as [x|e|]; [|done..].
  destruct (_ && negb trusted); [done|]. destruct (trusted && _); [done|]. unfold mbind at 1, M_bind at 1.
  match goal with |- context [_transaction ?b j] => pose proof (transaction_open b j db Hw) as Ht; destruct (_transaction b j) as [j' [o|e|]] end; done.
Qed.

(** What the worker delivered to the future. *)
Definition evidence (future : result WorkerResult) : Prop :=
  match future with
  | Ok (RCompletion c) => exists t, terminal_response c = Ok t /\ kind t = DONE
      /\ Models.request_id t = c_request_id c /\ succeeded c = true
  | Ok (RStatus _) => True
  | _ => False
  end.

Lemma trusted_evidence c : _is_trusted_terminal c = Ok true -> evidence (Ok (RCompletion c)).
Proof.
  unfold _is_trusted_terminal, is_completion_done. simpl. destruct (terminal_response c) as [t|e|]; [|by destruct (isinstance _ _)|done].
  intros [= E]. bool_inv. by exists t.
Qed.

Lemma classify_fails s e : (_classify s e).1 <> OperationState.SUCCEEDED.
Proof. unfold _classify. by repeat case_match. Qed.

(** What the stored operations may have become. *)
Definition settled_with (ops : list OperationRecord) (id : string) (future : result WorkerResult) (idle : Prop)
    (d' : D) : Prop :=
  exists ops', db_inv ops' (committed (_journal d')) /\ forall r', r' ∈ ops' -> op_st r' = OperationState.SUCCEEDED ->
    r' ∈ ops \/ (operation_id r' = id /\ evidence future /\
      match future with Ok (RStatus _) => idle -> action r' ∈ _SESSION_ACTIONS | _ => True end).

Lemma moved_settled ops id to future idle (d' : D) : moved ops id to (committed (_journal d')) ->
  (to = OperationState.SUCCEEDED -> evidence future /\
     match future with Ok (RStatus _) => idle -> forall r0, r0 ∈ ops -> operation_id r0 = id -> action r0 ∈ _SESSION_ACTIONS
     | _ => True end) ->
  settled_with ops id future idle d'.
Proof.
  intros (ops' & Hi & Hm) Ht. exists ops'. split; [done|]. intros r' Hr' Hs. destruct (Hm r' Hr') as [?|(E & r0 & Hr0 & Hid & Hid' & Ha)];
    [by left|right]. rewrite Hs in E. destruct (Ht (eq_sym E)) as [He Hst]. split_and!; [done|done|].
  destruct future as [[s|c|q|c]|e|]; try done. intros Hidle. rewrite Ha. by apply Hst.
Qed.

Lemma ids_action (ops : list OperationRecord) r r0 : NoDup (operation_id <$> ops) -> r ∈ ops -> r0 ∈ ops ->
  operation_id r = operation_id r0 -> action r = action r0.
Proof. intros. f_equal. by eapply ids_unique. Qed.

Lemma complete_command_settled ops id c idle (d : D) : db_inv ops (committed (_journal d)) ->
  settled_with ops id (Ok (RCompletion c)) idle (complete_command env id c d).1.
Proof.
  intros Hi. unfold complete_command. unfold liftR, mbind at 1, M_bind at 1. pose proof (trusted_evidence c) as Hte.
  assert (settled_with ops id (Ok (RCompletion c)) idle d) as Hsame by (eapply (moved_settled _ _ OperationState.FAILED); [by apply moved_none|done]).
  destruct (_is_trusted_terminal c) as [[]|e|]; [..|done|done];
    unfold mbind, M_bind; destruct (Models.terminal_fields c) as [f|e|]; try done; cbn [fst].
  - eapply moved_settled; [by apply safe_moved|]. intros _. split; [by apply Hte|done].
  - eapply moved_settled; [by apply safe_moved|]. done.
Qed.

(** C3: success needs evidence. Whatever the worker's future delivers and whichever journal
    statements fail, settling an operation stores [SUCCEEDED] only for that operation and only on a
    correlated [done] terminal of a successful completion, or on the status read from a freshly
    verified session; and (with no transaction left open by a failed commit) the latter only for a
    connect or recover operation. *)
Theorem success_needs_evidence ops id (future : result WorkerResult) (d : D) :
  domain_inv max0 ops0 db0 ops d ->
  settled_with ops id future (working (_journal d) = None) (_settle env id future d).1.
Proof.
  intros Hd. pose proof (dv_journal _ _ _ _ _ Hd) as Hi. unfold _settle.
  destruct (current_after id d) as [Ec Hcur]. specialize (Hcur ops).
  assert (forall x : D, committed (_journal x) = committed (_journal d) ->
    settled_with ops id future (working (_journal d) = None) x) as Hsame.
  { intros x Ex. eapply (moved_settled _ _ OperationState.FAILED); [|done]. apply moved_none. by rewrite Ex. }
  destruct future as [res|e|]; [| |by apply Hsame].
  - unfold _complete, mbind, M_bind. destruct (_current env id d) as [d1 [[r|]|e|]]; cbn [fst snd] in *; try by apply Hsame.
    specialize (Hcur r Hi). rewrite <- Ec in Hi. destruct (record_is_terminal r); [by apply Hsame|].
    destruct res as [s|c|q|c]; try (eapply moved_settled; [by apply safe_moved|done]); [|by apply complete_command_settled].
    case_bool_decide as Ha; (eapply moved_settled; [by apply safe_moved|]); [|done]. intros _. split; [done|].
    intros Hw r0 Hr0 Hid. destruct (Hcur Hw eq_refl) as [Hr Hrid].
    rewrite <- (ids_action ops r r0); [done|apply Hi|done|done|congruence].
  - unfold _resolve, mbind, M_bind. destruct (_current env id d) as [d1 [[r|]|e'|]]; cbn [fst snd] in *; try by apply Hsame.
    rewrite <- Ec in Hi. destruct (record_is_terminal r); [by apply Hsame|].
    eapply moved_settled; [by apply safe_moved|]. intros Hs. by apply classify_fails in Hs.
Qed.

(** ** Admission *)

Lemma bind_ok {A B} (m : DM A) (f : A -> DM B) d b : ((m ≫= f) d).2 = Ok b ->
  exists a, (m d).2 = Ok a /\ (m ≫= f) d = f a (m d).1.
Proof. unfold mbind, M_bind. destruct (m d) as [d' [a|e|]]; simpl; [|done|done]. intros _. by exists a. Qed.

Lemma bind_split {A B} (m : DM A) (f : A -> DM B) d :
  (exists a, (m d).2 = Ok a /\ (m ≫= f) d = f a (m d).1) \/ ((m ≫= f) d).1 = (m d).1.
Proof. unfold mbind, M_bind. destruct (m d) as [d' [a|e|]]; simpl; [left; by exists a|by right..]. Qed.

(** [accepted] is in the tables, new, and so is the key it answers to. *)
Definition admitted (ops : list OperationRecord) (db : DB) (key : string) (accepted : OperationRecord) (db1 : DB) : Prop :=
  operation_id accepted ∉ operation_id <$> ops /\ db_inv (ops ++ [accepted]) db1
  /\ exists i, idempotency_records db1 = idempotency_records db ++ [encode_idempotency i]
       /\ idem_key i = key /\ idem_fingerprint i = fingerprint accepted /\ idem_operation_id i = operation_id accepted.

Lemma replace_last ops op r : operation_id op ∉ operation_id <$> ops -> operation_id r = operation_id op ->
  replace_record r (ops ++ [op]) = ops ++ [r].
Proof.
  intros Hn E. unfold replace_record. rewrite fmap_app. simpl. rewrite bool_decide_true by done. f_equal.
  rewrite <- (list_fmap_id ops) at 2. apply list_fmap_ext. intros i x Hx%list_elem_of_lookup_2. rewrite bool_decide_false; [done|].
  intros Ex. apply Hn. rewrite <- E, <- Ex. by apply list_elem_of_fmap_2.
Qed.

(** The operation [_admit] returns is durable and accepted, at the generation that is published. *)
Lemma admit_durable ops a fp who key view n window reason (d : D) r :
  db_inv ops (committed (_journal d)) -> actor_ok who -> 0 < window <= max0 * 1000 ->
  let p := _admit env a fp who key view (now_at env n) window reason d in
  p.2 = Ok r -> admitted ops (committed (_journal d)) key r (committed (_journal p.1)) /\ op_st r = OperationState.ACCEPTED
    /\ action r = a /\ fingerprint r = fp /\ actor r = who /\ deadline_at r = now_at env n + window
    /\ generation r = m_generation (_machine d) + 1 /\ m_generation (_machine p.1) = m_generation (_machine d) + 1.
Proof.
  intros Hi Hwho Hw p. unfold p, _admit. clear p. intros E. destruct (bind_ok _ _ _ _ E) as (id & _ & E'). rewrite E' in E |- *. clear E'.
  set (d1 := (new_operation_id env d).1) in *. assert (committed (_journal d) = committed (_journal d1)) as Ed by done.
  assert (_machine d = _machine d1) as Em by done. rewrite Ed, Em in *. clearbody d1. clear d Ed Em.
  destruct (bind_ok _ _ _ _ E) as (op & Eop & E'). rewrite E' in E |- *. clear E'. cbn [liftR fst snd] in *.
  destruct (bind_ok _ _ _ _ E) as (i & Ei & E'). rewrite E' in E |- *. clear E'. cbn [liftR fst snd] in *.
  pose proof (queued_make _ _ _ _ _ _ _ _ Eop) as Hop.
  apply (queued_stored env max0 Henv) in Eop as [Hok _]; [|done|done].
  destruct (bind_ok _ _ _ _ E) as ([] & Ej & E'). rewrite E' in E |- *. clear E'.
  set (why := "admitted against generation " +:+ _) in *.
  assert (committed (_journal (on_journal (W:=W) (record_admission op why (Some i)) d1).1) = admitted_rows op why (Some i) (committed (_journal d1))
    /\ db_inv (ops ++ [op]) (admitted_rows op why (Some i) (committed (_journal d1)))) as [Erows Hi2].
  { revert Ej. unfold on_journal. cbn [fst snd set_journal _journal].
    apply (record_admission_spec ops op why (Some i) (_journal d1)
      (fun j' x => x = Ok tt -> committed j' = admitted_rows op why (Some i) (committed (_journal d1))
        /\ db_inv (ops ++ [op]) (admitted_rows op why (Some i) (committed (_journal d1)))) Hi Hok); [|done].
    intros j' _ Ec Hdb _. by rewrite <- Ec. }
  assert (_machine (on_journal (W:=W) (record_admission op why (Some i)) d1).1 = _machine d1) as Em by done.
  set (d2 := (on_journal _ d1).1) in *. clearbody d2. rewrite <- Erows in Hi2.
  destruct (transition_cases (ops ++ [op]) (operation_id op) OperationState.ACCEPTED reason false None None None d2 Hi2)
    as [(r' & Er & r0 & Hr0 & Hid & _ & Hr' & _ & Hdb & Hg & Hk)|(e & Er & _)]; rewrite Er in E; [|done]. injection E as ->.
  assert (operation_id op ∉ operation_id <$> ops) as Hnew.
  { pose proof (di_ids _ _ Hi2) as Hnd. rewrite fmap_app in Hnd. apply NoDup_app in Hnd as (_ & Hnd & _). intros Hin. apply (Hnd _ Hin). by left. }
  assert (r0 = op) as -> by (eapply ids_unique; [apply Hi2|done|set_solver|done]).
  assert (operation_id r = operation_id op /\ fingerprint r = fp /\ operation_id op = id) as (Hrid & Hrfp & Hopid) by (rewrite Hr', Hop; done).
  rewrite replace_last in Hdb by done. rewrite Em in *.
  assert (idem_key i = key /\ idem_fingerprint i = fp /\ idem_operation_id i = operation_id op) as (Hk1 & Hk2 & Hk3).
  { unfold IdempotencyRecord_make, invalid, throw in Ei. res_inv. case_match; [done|]. by simplify_eq. }
  split; [|by rewrite Hr', Hop in *; split_and!].
  split; [by rewrite Hrid|]. split; [exact Hdb|]. exists i. rewrite Hk, Erows. split_and!; [done|done|congruence|congruence].
Qed.

Lemma refresh_machine (d : D) : let d' := (refresh_durability env d).1 in
  _journal d' = _journal d /\ (_machine d' = _machine d \/ journal_available (m_snapshot (_machine d')) = false).
Proof.
  cbv zeta. unfold refresh_durability. unfold getS, mbind, M_bind. simpl.
  destruct (journal_available (m_snapshot (_machine d))) eqn:Ej; [|by split; [|left]]. simpl.
  destruct (durability_at env (checks d)) as [|msg|e]; [by split; [|left]| |by split; [|left]].
  set (d1 := set_counters _ _ _ d). destruct (fault_after ("durability threat: " +:+ msg) d1) as ((fid & t & E1) & E2 & E3).
  destruct (_record_journal_fault env _ d1) as [d2 r2]; cbn [fst snd] in *. subst r2. simpl. split; [by rewrite E2|].
  right. rewrite E1. apply latched_after.
Qed.

(** An admission block that admits does so against the view at its start, with the journal available
    and no stored answer for the key. *)
Lemma admission_admitted activity key fp now admit_against (d d' : D) r :
  admission_block env activity key fp now admit_against d = (d', Ok (Accepted r)) ->
  journal_available (m_snapshot (_machine d)) = true /\
  exists d1, committed (_journal d1) = committed (_journal d) /\ _machine d1 = _machine d /\ _worker d1 = _worker d /\
    admit_against (m_snapshot (_machine d)) d1 = (d', Ok r).
Proof.
  unfold admission_block. unfold getS, mbind at 1, M_bind at 1. unfold mbind at 1, M_bind at 1, _require_durable.
  destruct (journal_available _) eqn:Ej; simpl; [|done]. unfold _durable, try_except.
  unfold mbind, M_bind. pose proof (replay_machine key fp now d) as Hm. pose proof (kw_replay key fp now d) as Hk.
  assert (committed (_journal (_replay key fp now d).1) = committed (_journal d)) as Hc.
  { unfold _replay, on_journal, mbind, M_bind. pose proof (ro_idempotency key (utc now) (_journal d)) as H1.
    destruct (idempotency_record _ _ _) as [j1 [[i|]|e|]]; simpl in *; try done. destruct (negb _); simpl; [done|].
    pose proof (ro_operation (idem_operation_id i) j1) as H2. destruct (operation _ _) as [j2 [[x|]|e|]]; simpl in *; congruence. }
  destruct (_replay key fp now d) as [d1 [[x|]|e|]]; simpl in *.
  - done.
  - destruct (admit_against (m_snapshot (_machine d)) d1) as [d2 [y|e|]] eqn:Ea; simpl; [| |done].
    + intros [= -> ->]. split; [done|]. by exists d1.
    + destruct (is_journal_error e); [|done]. unfold mbind, M_bind. by destruct (_record_journal_fault _ _ _) as [? []].
  - destruct (is_journal_error e); [|done]. unfold mbind, M_bind. by destruct (_record_journal_fault _ _ _) as [? []].
  - done.
Qed.

(** What an operation is from its admission on. *)
Definition same_operation (r r' : OperationRecord) : Prop :=
  operation_id r' = operation_id r /\ action r' = action r /\ fingerprint r' = fingerprint r /\ actor r' = actor r
  /\ created_at r' = created_at r /\ deadline_at r' = deadline_at r.
(** The operations of [db] are still in [db'], with the keys. *)
Definition evolved (ops : list OperationRecord) (db db' : DB) : Prop :=
  idempotency_records db' = idempotency_records db
  /\ exists ops', db_inv ops' db' /\ forall r, r ∈ ops -> exists r', r' ∈ ops' /\ same_operation r r'.

Lemma evolved_same ops db : db_inv ops db -> evolved ops db db.
Proof. intros Hi. split; [done|]. exists ops. split; [done|]. intros r Hr. by exists r. Qed.

Lemma safe_evolved ops id to reason trusted oc req fields (d : D) : db_inv ops (committed (_journal d)) ->
  evolved ops (committed (_journal d)) (committed (_journal (_safe_transition env id to reason trusted oc req fields d).1)).
Proof.
  intros Hi. rewrite safe_state. destruct (transition_cases ops id to reason trusted oc req fields d Hi)
    as [(r & _ & r0 & Hr0 & Hid & _ & Er & _ & Hdb & _ & Hk)|(e & _ & Ec & _)]; [|rewrite Ec; by apply evolved_same].
  split; [done|]. eexists. split; [exact Hdb|]. intros x Hx. destruct (decide (operation_id x = operation_id r)) as [E|Hne].
  - exists r. split; [by apply (replaced_in x)|].
    assert (x = r0) as -> by (eapply ids_unique; [apply Hi|done|done|by rewrite E, Er]). by rewrite Er.
  - exists x. split; [|done]. apply elem_of_replace. by right.
Qed.

Lemma resolve_evolved ops id e (d : D) : db_inv ops (committed (_journal d)) ->
  evolved ops (committed (_journal d)) (committed (_journal (_resolve env id e d).1)).
Proof.
  intros Hi. unfold _resolve, mbind, M_bind. destruct (current_after id d) as [Ec _].
  destruct (_current env id d) as [d1 [[r|]|e'|]]; cbn [fst] in *; rewrite <- Ec in Hi |- *; try by apply evolved_same.
  destruct (record_is_terminal r); [by apply evolved_same|]. by apply safe_evolved.
Qed.

(** What made the daemon hand [intent] to the worker for [accepted], at the moment [d1]. *)
Definition gated (ops : list OperationRecord) (a : op_action) (intent : WorkerIntent) (who : Actor) (key fp : string) (g : Z) (d d1 : D)
    (accepted : OperationRecord) : Prop :=
  m_generation (_machine d) = g /\ admits_work (m_snapshot (_machine d)) = true
  /\ require_supported intent (m_snapshot (_machine d)) = Ok tt
  /\ _worker d1 = _worker d /\ m_generation (_machine d1) = g + 1
  /\ admitted ops (committed (_journal d)) key accepted (committed (_journal d1))
  /\ op_st accepted = OperationState.ACCEPTED /\ action accepted = a /\ fingerprint accepted = fp /\ actor accepted = who
  /\ generation accepted = g + 1.

Lemma enqueue_worker call r (d : D) : _worker (enqueue env call r d).1 = (call (_worker d)).1.
Proof.
  unfold enqueue, try_case. destruct (call (_worker d)) as [w [x|e|]]; simpl; [done| |done].
  destruct (isinstance e _); [|done]. set (d1 := set_worker w d). unfold mbind, M_bind.
  pose proof (kw_resolve (operation_id r) e d1) as Hk. destruct (_resolve env _ e d1) as [d2 []]; simpl in *; by rewrite Hk.
Qed.

Lemma enqueue_effect call ops r (d : D) : db_inv ops (committed (_journal d)) -> r ∈ ops ->
  let q := enqueue env call r d in
  idempotency_records (committed (_journal q.1)) = idempotency_records (committed (_journal d))
  /\ exists ops' r', db_inv ops' (committed (_journal q.1)) /\ r' ∈ ops' /\ same_operation r r'
     /\ (is_ok (call (_worker d)).2 = true -> r' = r /\ q.2 = Ok r).
Proof.
  intros Hi Hr. cbv zeta. unfold enqueue, try_case. destruct (call (_worker d)) as [w [x|e|]]; cbn [fst snd is_ok].
  - split; [done|]. by exists ops, r.
  - set (d1 := set_worker w d). assert (db_inv ops (committed (_journal d1))) as Hi1 by done.
    assert (committed (_journal d) = committed (_journal d1)) as -> by done. clearbody d1.
    destruct (isinstance e _); [|split; [done|]; by exists ops, r].
    pose proof (resolve_evolved ops (operation_id r) e d1 Hi1) as [Hk (ops' & Hi' & Hall)]. destruct (Hall r Hr) as (r' & Hr' & Hs).
    unfold mbind, M_bind. destruct (_resolve env _ e d1) as [d2 [y|e'|]]; cbn [fst snd raise] in *; (split; [done|]); by exists ops', r'.
  - split; [done|]. by exists ops, r.
Qed.

Lemma kw_admission activity key fp now (F : MachineSnapshot -> DM OperationRecord) :
  (forall view, keeps_worker (F view)) -> keeps_worker (admission_block env activity key fp now F).
Proof. intros HF. unfold admission_block, _require_durable, _durable. kw_steps. Qed.

(** The checks of [submit] in front of [_admit]. *)
Lemma checks_passed g view intent (m : DM OperationRecord) (d d' : D) r :
  (_ ← require_generation "request" g view;
   _ ← (if negb (admits_work view)
        then raise (domain_exn NotReadyError
               ("machine does not admit work: " +:+ ConnectionState.value (connection view)))
        else mret tt);
   _ ← liftR (require_supported intent view); m) d = (d', Ok r) ->
  g = ms_generation view /\ admits_work view = true /\ require_supported intent view = Ok tt /\ m d = (d', Ok r).
Proof.
  unfold require_generation. destruct (g =? ms_generation view) eqn:Eg; [|done]. destruct (admits_work view) eqn:Ea; [|done].
  unfold mbind, M_bind, liftR. simpl. destruct (require_supported intent view) as [[]|e|]; [|done|done]. bool_inv. done.
Qed.

(** C5: nothing reaches the worker before it is durable and checked. Whatever journal statements fail and whatever the worker answers,
    either [submit] left the worker alone, or it made exactly one admission call, for the intent of the request's own body, with an operation and an
    idempotency key that were new and that this call had committed, in state accepted, at the generation it had published; the machine view at
    the start was at the generation the caller named, admitted work and supported the intent. Operation and key are in the journal when the call
    ends: as they were handed over when the worker took the operation, and as the refusal resolved it otherwise. *)
Theorem submit_durable_before_enqueue ops a body who key g ms (d : D) :
  domain_inv max0 ops0 db0 ops d -> actor_ok who ->
  let q := submit env a body who key g ms d in
  _worker q.1 = _worker d \/
  exists intent fp accepted d1, intent_for a body = Ok intent /\ request_fingerprint (sha256_hexdigest env) a body who = Ok fp
    /\ gated ops a intent who key fp g d d1 accepted
    /\ q = enqueue env (worker_submit intent accepted) accepted d1
    /\ _worker q.1 = (worker_submit intent accepted (_worker d)).1
    /\ idempotency_records (committed (_journal q.1)) = idempotency_records (committed (_journal d1))
    /\ exists ops' r', db_inv ops' (committed (_journal q.1)) /\ r' ∈ ops' /\ same_operation accepted r'
       /\ (is_ok (worker_submit intent accepted (_worker d)).2 = true -> r' = accepted /\ q.2 = Ok accepted).
Proof.
  intros Hd Hwho. cbv zeta. pose proof (dv_journal _ _ _ _ _ Hd) as Hi. pattern (submit env a body who key g ms d).
  match goal with |- ?P _ => set (G := P) end. assert (forall q, _worker q.1 = _worker d -> G q) as HG by (by left). unfold submit.
  unfold liftR, mbind at 1, M_bind at 1. destruct (intent_for a body) as [intent|e|] eqn:Eint; [|by apply HG..].
  unfold mbind at 1, M_bind at 1. destruct (request_fingerprint _ a body who) as [fp|e|] eqn:Efp; [|by apply HG..].
  unfold mbind at 1, M_bind at 1. destruct (require_idempotency_key key) as [k|e|] eqn:Ekey; [|by apply HG..].
  assert (k = key) as -> by (revert Ekey; unfold require_idempotency_key; by repeat (case_match; try done); intros [= ->]).
  unfold mbind at 1, M_bind at 1. pose proof (deadline_fact env max0 Henv ms d) as Hw.
  assert ((_require_deadline env ms d).1 = d) as Es.
  { unfold _require_deadline, getS, mbind, M_bind. destruct ms; try done. by destruct (negb _). }
  destruct (_require_deadline env ms d) as [dx [w|e|]]; cbn [fst snd] in *; subst dx; [|by apply HG..].
  specialize (Hw w (dv_limit _ _ _ _ _ Hd) eq_refl). unfold mbind at 1, M_bind at 1. cbn [_now].
  set (d1 := set_counters _ _ _ d). set (n := reads d).
  unfold mbind at 1, M_bind at 1. destruct (refresh_machine d1) as [Ej Em]. pose proof (kw_refresh d1) as Hkr.
  destruct (refresh_durability env d1) as [d2 [v|e|]]; cbn [fst snd] in *; [|by apply HG; cbn; rewrite Hkr..].
  match goal with |- context [admission_block env ?s key fp ?t ?f] => set (F := f) end.
  assert (forall view, keeps_worker (F view)) as HF by (intros; unfold F, require_generation; kw_steps).
  pose proof (kw_admission "admitting an operation" key fp (now_at env n) F HF d2) as Hka. unfold mbind at 1, M_bind at 1.
  destruct (admission_block env _ key fp _ F d2) as [d3 [[r|r]|e|]] eqn:Eb; cbn [fst snd] in *;
    try (apply HG; cbn [mret M_ret fst]; by rewrite Hka, Hkr).
  apply admission_admitted in Eb as (Hja & d4 & Ec & Em4 & Ew4 & EF).
  assert (_machine d2 = _machine d) as Emd by (destruct Em as [->|Em]; [done|by rewrite Em in Hja]).
  apply checks_passed in EF as (Eg & Ead & Esup & EA). rewrite Emd in *.
  assert (committed (_journal d4) = committed (_journal d)) as Ecd by (by rewrite Ec, Ej).
  assert (db_inv ops (committed (_journal d4))) as Hi4 by (by rewrite Ecd).
  pose proof (admit_durable ops a fp who key (m_snapshot (_machine d)) n w "admitted to the serial lane" d4 r Hi4 Hwho Hw) as Hdur.
  rewrite EA, Ecd, Em4 in Hdur. cbn [fst snd] in Hdur. destruct (Hdur eq_refl) as (Had & Hst & Hact & Hfp & Hwh & _ & Hgr & Hgm).
  assert (g = m_generation (_machine d)) as Eg' by done.
  pose proof Had as (_ & Hdb & _). assert (_worker d3 = _worker d) as Ewd by (by rewrite Hka, Hkr).
  right. exists intent, fp, r, d3. split; [done|]. split; [done|]. split; [by rewrite Eg'; split_and!|]. split; [done|].
  rewrite enqueue_worker, Ewd. split; [done|]. rewrite <- Ewd. apply (enqueue_effect (worker_submit intent r) (ops ++ [r])); [done|set_solver].
Qed.

(** ** Dispatch *)

(** The dispatch gate opens only for an operation that is on time and recorded as running. When
    it returns, the deadline had not passed at the clock reading it took and the journal holds the
    operation as running at a published generation; past the deadline it raises and changes nothing. *)
Theorem dispatch_gate ops op (d : D) :
  domain_inv max0 ops0 db0 ops d ->
  let q := _dispatch env op d in
  (q.2 = Ok tt -> now_at env (reads d) < deadline_at op /\ exists r ops', r ∈ ops' /\ db_inv ops' (committed (_journal q.1))
     /\ operation_id r = operation_id op /\ op_st r = OperationState.RUNNING
     /\ generation r = m_generation (_machine q.1))
  /\ (deadline_at op <= now_at env (reads d) ->
        (exists msg, q.2 = Err (domain_exn DeadlineExpiredError msg)) /\ _journal q.1 = _journal d /\ _machine q.1 = _machine d).
Proof.
  intros Hd. cbv zeta. destruct (_dispatch env op d) as [d' x] eqn:Eq. cbn [fst snd]. revert Eq.
  unfold _dispatch, expired_at, _require_utc, utc, liftR, mbind, M_bind, res_bind. cbn [_now tz_offset wall_us].
  set (d1 := set_counters _ _ _ d). replace (now_at env (reads d) - 0) with (now_at env (reads d)) by lia.
  destruct (Z.leb_spec (deadline_at op) (now_at env (reads d))) as [Hle|Hlt].
  - intros [= <- <-]. split; [done|]. intros _. split; [by eexists|done].
  - assert (db_inv ops (committed (_journal d1))) as Hi by apply Hd.
    destruct (transition_cases ops (operation_id op) OperationState.RUNNING "dispatched to the controller" false None None None d1 Hi)
      as [(r & E & r0 & Hr0 & Hid & _ & Hr & _ & Hdb & Hg & _)|(e & E & _)];
      destruct (_transition env _ _ _ _ _ _ _ d1) as [d2 y]; cbn [fst snd] in *; subst y; intros [= <- <-]; (split; [|lia]); [|done].
    intros _. split; [done|]. exists r, (replace_record r ops). subst r. split_and!; try done. by eapply replaced_in.
Qed.

(** ** Replay *)

(** A healthy moment: no statement fails, nothing is left open, and the next durability check passes. *)
Definition healthy (db : DB) (d : D) : Prop :=
  _journal d = Journal_init db [] /\ journal_available (m_snapshot (_machine d)) = true /\ durability_at env (checks d) = Safe.

Lemma replay_healthy db (d : D) key fp t ops i r : _journal d = Journal_init db [] -> db_inv ops db ->
  encode_idempotency i ∈ idempotency_records db -> idem_ok i -> t < expires_at i ->
  r ∈ ops -> operation_id r = idem_operation_id i -> key = idem_key i ->
  _replay key fp t d = (d,
    if bool_decide (idem_fingerprint i = fp) then Ok (Some r)
    else Err (domain_exn IdempotencyConflictError
           ("idempotency key " +:+ key +:+ " is already bound to a different canonical request"))).
Proof.
  intros Hj Hi Hin Hok Hlt Hr Hid ->. unfold _replay, on_journal, mbind, M_bind. cbv zeta. rewrite Hj.
  assert (_require_moment (utc t) = Ok t) as Hm by (unfold _require_moment; simpl; f_equal; lia).
  rewrite (replay_quiet db i (utc t) t (di_keys _ _ Hi) Hin Hok Hm).
  rewrite (proj2 (Z.ltb_lt _ _)) by done. cbn [fst snd].
  assert (set_journal (Journal_init db []) d = d) as -> by (destruct d; simpl in *; by subst).
  case_bool_decide; simpl; [|done]. rewrite Hj, <- Hid, (operation_quiet ops db r) by done. cbn [fst snd].
  f_equal. destruct d; simpl in *; by subst.
Qed.

(** C25: a key is answered before anything else is judged. While a key is live, repeating the request
    it was used for returns the operation it created, whatever generation the caller names and
    whatever state the machine is in, and a different request under it is a conflict; in both cases
    the worker, the journal and the machine view are untouched. *)
Theorem live_key_replays db (d : D) a body who key g ms intent fp i r ops n :
  healthy db d -> db_inv ops db -> intent_for a body = Ok intent ->
  request_fingerprint (sha256_hexdigest env) a body who = Ok fp -> require_idempotency_key key = Ok key ->
  ms = BInt n -> _min_deadline_ms env <= n <= _max_deadline_ms d ->
  encode_idempotency i ∈ idempotency_records db -> idem_ok i -> idem_key i = key ->
  now_at env (reads d) < expires_at i -> r ∈ ops -> operation_id r = idem_operation_id i ->
  let q := submit env a body who key g ms d in
  (if bool_decide (idem_fingerprint i = fp) then q.2 = Ok r
   else exists msg, q.2 = Err (domain_exn IdempotencyConflictError msg))
  /\ _worker q.1 = _worker d /\ _journal q.1 = _journal d /\ _machine q.1 = _machine d.
Proof.
  intros (Hj & Hja & Hth) Hi Hint Hfp Hkey -> [Hn1 Hn2] Hin Hok Hik Hlt Hr Hid. cbv zeta.
  pose proof (replay_healthy db (set_counters (S (reads d)) (uuids d) (S (checks d)) d) key fp (now_at env (reads d)) ops i r
    Hj Hi Hin Hok Hlt Hr Hid (eq_sym Hik)) as Hrep.
  assert (submit env a body who key g (BInt n) d = (set_counters (S (reads d)) (uuids d) (S (checks d)) d,
    if bool_decide (idem_fingerprint i = fp) then Ok r else Err (domain_exn IdempotencyConflictError
      ("idempotency key " +:+ key +:+ " is already bound to a different canonical request")))) as ->.
  { apply Z.leb_le in Hn1, Hn2. unfold submit. unfold liftR, mbind at 1, M_bind at 1. rewrite Hint.
    unfold mbind at 1, M_bind at 1. rewrite Hfp. unfold mbind at 1, M_bind at 1. rewrite Hkey.
    unfold mbind at 1, M_bind at 1, _require_deadline, getS, mbind at 1, M_bind at 1. rewrite Hn1, Hn2. cbn [negb andb mret M_ret].
    unfold mbind at 1, M_bind at 1. cbn [_now]. set (d1 := set_counters _ _ _ d).
    assert (refresh_durability env d1 = (set_counters (S (reads d)) (uuids d) (S (checks d)) d, Ok (m_snapshot (_machine d)))) as Href.
    { unfold refresh_durability, getS, modifyS, mbind, M_bind. simpl. rewrite Hja. simpl. by rewrite Hth. }
    unfold mbind at 1, M_bind at 1. rewrite Href. unfold mbind at 1, M_bind at 1, admission_block.
    unfold getS, mbind at 1, M_bind at 1. unfold mbind at 1, M_bind at 1, _require_durable. cbn [_machine set_counters]. rewrite Hja.
    cbn [negb mret M_ret]. unfold _durable, try_except. unfold mbind at 1, M_bind at 1. rewrite Hrep.
    case_bool_decide; done. }
  cbn [fst snd]. split_and!; try done. case_bool_decide; [done|by eexists].
Qed.

(** ** Outcomes on a healthy journal *)

Lemma current_healthy ops db r (d : D) : _journal d = Journal_init db [] -> db_inv ops db -> r ∈ ops ->
  _current env (operation_id r) d = (d, Ok (Some r)).
Proof.
  intros Hj Hi Hr. unfold _current, try_except, on_journal. cbv zeta. rewrite Hj, (operation_quiet ops db r) by done.
  cbn [fst snd]. f_equal. destruct d; simpl in *; by subst.
Qed.

Lemma moment_utc t : _require_moment (utc t) = Ok t.
Proof. unfold _require_moment. simpl. f_equal. lia. Qed.

Lemma safe_healthy ops db r to reason trusted oc req fields (d : D) :
  _journal d = Journal_init db [] -> db_inv ops db -> r ∈ ops -> generation r <= m_generation (_machine d) ->
  OperationState.can_transition (op_st r) to = true -> trusted_iff to trusted -> require_reason reason = Ok reason ->
  fields_valid fields ->
  let q := _safe_transition env (operation_id r) to reason trusted oc req fields d in
  let r' := transitioned to (m_generation (_machine d) + 1) trusted oc (now_at env (reads d)) req fields r in
  q.2 = Ok tt /\ db_inv (replace_record r' ops) (committed (_journal q.1)).
Proof.
  intros Hj Hi Hr Hle Hct Htr Hre Hf. cbv zeta. rewrite safe_state.
  assert (generation r <= m_generation (_machine d) + 1) as Hg by lia.
  destruct (record_transition_quiet ops db r to (m_generation (_machine d) + 1) (utc (now_at env (reads d))) (now_at env (reads d))
    reason trusted oc req fields Hi Hr Hct Hg Htr Hre (moment_utc _) (eo_now _ _ Henv _) Hf) as (db' & E & Hdb & _).
  destruct (transition_effect (operation_id r) to reason trusted oc req fields d) as (Ej & Er & _).
  unfold transition_call in Ej, Er. rewrite Hj, E in Ej, Er. cbn [fst snd] in Ej, Er. rewrite Ej. split; [|done].
  unfold _safe_transition, try_except, mbind, M_bind. destruct (_transition _ _ _ _ _ _ _ _ d) as [d' x]; simpl in *. by subst.
Qed.

(** The terminal state the contract prescribes for a transmitted operation that ended in an error. *)
Definition prescribed (c : exn_class) : op_state :=
  match c with
  | Domain DeadlineExpiredError => OperationState.FAILED
  | Worker PreemptedByStopError | Worker PreemptedByRecoveryError
  | Worker WorkerNotRunningError | Worker SessionNotReadyError | Worker QueueFullError
  | Worker StopInProgressError => OperationState.CANCELLED
  | _ => OperationState.UNCERTAIN
  end.

Lemma classify_prescribed e : (_classify OperationState.RUNNING e).1 = prescribed (exn_cls e).
Proof. destruct e as [c msg rec id]. by destruct c as [[]|[]|[]|[]|[]]. Qed.

(** A transmitted operation that ends in an error is closed fail-safe. On a healthy journal, an
    operation that was running is stored without a trusted terminal: failed only for an expired
    deadline, cancelled only when a stop, a recovery or a refused enqueue is known to have kept the
    command from the machine, and uncertain for every other error. *)
Theorem running_error_fails_closed ops db (d : D) r e :
  _journal d = Journal_init db [] -> db_inv ops db -> r ∈ ops -> generation r <= m_generation (_machine d) -> op_st r = OperationState.RUNNING ->
  require_reason (_classify OperationState.RUNNING e).2 = Ok (_classify OperationState.RUNNING e).2 ->
  let q := _settle env (operation_id r) (Err e) d in
  q.2 = Ok tt /\ exists r' ops', r' ∈ ops' /\ db_inv ops' (committed (_journal q.1))
    /\ operation_id r' = operation_id r /\ op_st r' = prescribed (exn_cls e) /\ trusted_terminal r' = false
    /\ outcome r' = Some (_outcome_of e).
Proof.
  intros Hj Hi Hr Hle Hrun Hre. cbv zeta.
  assert (_settle env (operation_id r) (Err e) d = _safe_transition env (operation_id r) (_classify OperationState.RUNNING e).1
    (_classify OperationState.RUNNING e).2 false (Some (_outcome_of e)) None None d) as ->.
  { unfold _settle, _resolve, mbind, M_bind. rewrite (current_healthy ops db r) by done.
    unfold record_is_terminal. rewrite Hrun. done. }
  rewrite classify_prescribed in *. set (to := prescribed (exn_cls e)).
  assert (OperationState.can_transition (op_st r) to = true /\ trusted_iff to false) as [Hct Htr].
  { rewrite Hrun. subst to. unfold trusted_iff. destruct (exn_cls e) as [[]|[]|[]|[]|[]]; by vm_compute. }
  destruct (safe_healthy ops db r to _ false (Some (_outcome_of e)) None None d Hj Hi Hr Hle Hct Htr Hre) as [Eq Hdb];
    [by intros f|]. split; [done|].
  exists (transitioned to (m_generation (_machine d) + 1) false (Some (_outcome_of e)) (now_at env (reads d)) None None r).
  eexists. split_and!; [|exact Hdb|done..]. by apply (replaced_in r).
Qed.

(** An outcome whose terminal fields the protocol accepts and the journal does not is lost: the
    error leaves [_settle], nothing is stored, no fault is latched and the operation stays running. *)
Theorem refused_fields_lose_outcome ops db (d : D) r c f e :
  _journal d = Journal_init db [] -> db_inv ops db -> r ∈ ops -> generation r <= m_generation (_machine d) -> op_st r = OperationState.RUNNING ->
  _is_trusted_terminal c = Ok true -> Models.terminal_fields c = Ok f -> require_terminal_fields f = Err e ->
  let q := _settle env (operation_id r) (Ok (RCompletion c)) d in
  q.2 = Err e /\ committed (_journal q.1) = committed (_journal d) /\ _machine q.1 = _machine d.
Proof.
  intros Hj Hi Hr Hle Hrun Ht Hf He. cbv zeta.
  assert (isinstance e (Domain ValidationError) = true) as Hv by (pose proof (or_terminal_fields f) as Ho; by rewrite He in Ho).
  assert (is_journal_error e = false /\ is_sqlite_error e = false) as [Hje Hse].
  { destruct e as [cls msg rec id]. revert Hv. unfold is_journal_error, is_sqlite_error. by destruct cls as [[]|[]|[]|[]|[]]. }
  assert (_settle env (operation_id r) (Ok (RCompletion c)) d = _safe_transition env (operation_id r) OperationState.SUCCEEDED
    "trusted correlated firmware terminal" true (Some "done") (Some (c_request_id c)) (Some f) d) as ->.
  { unfold _settle, _complete, mbind, M_bind. rewrite (current_healthy ops db r) by done. unfold record_is_terminal. rewrite Hrun.
    cbn [OperationState.is_terminal bool_decide]. simpl. unfold complete_command, mbind, M_bind, liftR. by rewrite Ht, Hf. }
  assert (generation r <= m_generation (_machine d) + 1) as Hg by lia.
  assert (record_transition (operation_id r) OperationState.SUCCEEDED (m_generation (_machine d) + 1) (utc (now_at env (reads d)))
    "trusted correlated firmware terminal" true (Some "done") (Some (c_request_id c)) (Some f) (Journal_init db [])
    = (Journal_init db [], Err e)) as E.
  { unfold record_transition. erewrite bind_quiet by done. cbn [andb negb bool_decide]. simpl.
    unfold mbind at 1, M_bind at 1. erewrite (transaction_quiet_err _ db db e); [by rewrite Hse|].
    rewrite (bind_quiet _ _ _ _ _ (read_operation_quiet ops db db r Hi Hr)). rewrite Hrun. cbv beta iota. simpl.
    rewrite (proj2 (Z.ltb_ge _ _) Hg). erewrite bind_quiet by (unfold liftR; by rewrite moment_utc). cbv beta zeta.
    unfold mbind at 1, M_bind at 1, liftR. rewrite He. done. }
  rewrite safe_state. destruct (transition_effect (operation_id r) OperationState.SUCCEEDED
    "trusted correlated firmware terminal" true (Some "done") (Some (c_request_id c)) (Some f) d) as (Ej & Er & Em).
  unfold transition_call in Ej, Er, Em. rewrite Hj, E in Ej, Er, Em. cbn [fst snd published_as] in Ej, Er, Em. rewrite Hje in Em.
  rewrite Ej, Hj. split_and!; [|done|done].
  unfold _safe_transition, try_except, mbind, M_bind. destruct (_transition _ _ _ _ _ _ _ _ d) as [d' x]; simpl in *. subst x.
  by rewrite Hje.
Qed.

Lemma prim_limit (x y : D) : prim x y -> _max_deadline_ms y <= _max_deadline_ms x.
Proof. intros Hp. destruct Hp; simpl; try done; unfold write_and_publish, configure_and_publish; try (case_match; done). Qed.

(** The deadline limit only ever shrinks. Across any run, the largest deadline a caller may ask
    for never grows, although a configuration change may name a larger one. *)
Theorem deadline_limit_never_grows (d d' : D) : bounded max0 d -> rtc (domain_step env) d d' ->
  _max_deadline_ms d' <= _max_deadline_ms d.
Proof.
  intros Hb Hr. set (P (x : D) := bounded max0 x /\ _max_deadline_ms x <= _max_deadline_ms d).
  assert (forall x y, P x -> prim x y -> P y) as Hp.
  { intros x y [Hbx Hle] Hxy. split; [by eapply prim_bounded|]. pose proof (prim_limit x y Hxy). lia. }
  apply (rtc_invariant (domain_step env) P d d'); [|done|by split].
  intros x y Hx [Hxy|(c & Hc & ->)]; [by eapply Hp|].
  apply (rtc_invariant prim P x); [exact Hp|apply (call_refines env max0 Henv); [done|apply Hx]|done].
Qed.
End Outcome.

(** A domain constructed with the default limits reports a policy it does not apply: deadlines up to
    [MAX_DEADLINE_MS] are accepted while its configuration says a fifth of that. *)
Theorem default_limit_exceeds_policy {W : Type} `{WorkerPort W} (env : Env) (j : Journal) (w : W) (ring : EventRing) d :
  OperationDomain_make env j w ring MAX_DEADLINE_MS = Ok d ->
  max_deadline_ms (_configuration d) = 120000 /\ (_require_deadline env (BInt 600000) d).2 = Ok (600000 * 1000).
Proof.
  unfold OperationDomain_make. intros E. destruct (_ <=? 0); [done|]. destruct (negb _) eqn:Hn; [done|]. injection E as <-.
  bool_inv. split; [done|]. unfold _require_deadline, mbind, M_bind, getS. simpl. unfold MAX_DEADLINE_MS in *.
  by rewrite (proj2 (Z.leb_le _ _)) by done.
Qed.
