(* ===== verification/Settlement.v ===== *)
(** * How an operation ends

    The callback of a worker's future ends the operation it was made for, in the state that the outcome of the
    future calls for; and nothing the daemon does afterwards changes an operation that has ended. *)
From S2P Require Import Prelude PyString Errors IsoTime Json Operations Models Session Machine Journal JournalSpec.
From S2P Require Import JournalSafety Configuration Adapters Events Domain DomainSpec DomainOutcome.

(** ** The contract *)

(** The state prescribed for an operation that ended in an error of this class, by the state it was in. *)
Definition prescribed_from (from : op_state) (c : exn_class) : op_state :=
  match c with
  | Domain DeadlineExpiredError => OperationState.FAILED
  | Worker PreemptedByStopError | Worker PreemptedByRecoveryError
  | Worker WorkerNotRunningError | Worker SessionNotReadyError | Worker QueueFullError
  | Worker StopInProgressError => OperationState.CANCELLED
  | Worker WorkerUncertainError => OperationState.UNCERTAIN
  | _ => if bool_decide (from = OperationState.RUNNING) then OperationState.UNCERTAIN else OperationState.FAILED
  end.

Definition correlated_done (c : Completion) : bool :=
  match terminal_response c with Ok t => is_completion_done c t | _ => false end.

(** The state an outcome calls for. *)
Definition verdict (from : op_state) (a : op_action) (future : result WorkerResult) : op_state :=
  match future with
  | Ok (RStatus _) => if bool_decide (a ∈ _SESSION_ACTIONS) then OperationState.SUCCEEDED else OperationState.UNCERTAIN
  | Ok (RCompletion c) => if correlated_done c then OperationState.SUCCEEDED else OperationState.FAILED
  | Ok _ => OperationState.UNCERTAIN
  | Err e => prescribed_from from (exn_cls e)
  | OutOfFuel => from
  end.

(** Outcomes the journal can store: of an operation that was dispatched, with terminal fields and a reason within
    its limits. *)
Definition storable (from : op_state) (a : op_action) (future : result WorkerResult) : Prop :=
  match future with
  | Ok (RStatus s) => from = OperationState.RUNNING /\ fields_valid (Some (<["mode" := mode s]> {["phase" := phase s]}))
  | Ok (RCompletion c) => from = OperationState.RUNNING /\ exists t f, terminal_response c = Ok t /\ Models.terminal_fields c = Ok f /\ fields_valid (Some f)
  | Ok _ => from = OperationState.RUNNING
  | Err e => (from = OperationState.RUNNING \/ from = OperationState.ACCEPTED)
             /\ require_reason (_classify from e).2 = Ok (_classify from e).2
  | OutOfFuel => False
  end.

(** The two kinds of callback: of a command's future, and of a priority stop's. *)
Inductive callback := OfCommand (future : result WorkerResult) | OfStop (future : result unit).

Definition delivered (c : callback) : Prop := match c with OfCommand f => halts f | OfStop f => halts f end.
Definition calls_for (c : callback) (from : op_state) (a : op_action) : op_state :=
  match c with
  | OfCommand f => verdict from a f
  | OfStop (Err e) => prescribed_from from (exn_cls e)
  | OfStop _ => OperationState.SUCCEEDED
  end.
Definition fits (c : callback) (from : op_state) (a : op_action) : Prop :=
  match c with
  | OfCommand f => storable from a f
  | OfStop (Ok _) => from = OperationState.RUNNING
  | OfStop (Err e) => storable from a (Err e)
  | OfStop OutOfFuel => False
  end.

(** [r] has ended as [r'], for this outcome. *)
Definition ended_as (c : callback) (r r' : OperationRecord) : Prop :=
  same_operation r r' /\ record_is_terminal r = false /\ op_st r' = calls_for c (op_st r) (action r)
  /\ record_is_terminal r' = true /\ (trusted_terminal r' = true <-> op_st r' = OperationState.SUCCEEDED).

Lemma classify_prescribed_from from e : (_classify from e).1 = prescribed_from from (exn_cls e).
Proof. destruct e as [c msg rec id]. by destruct from, c as [[]|[]|[]|[]|[]]. Qed.

Section Settlement.
Context {W : Type} `{WorkerPort W} (env : Env) (max0 : Z) (Henv : env_ok env max0) (ops0 : list OperationRecord) (db0 : DB).
Abbreviation D := (OperationDomain W).

(** ** What has ended stays as it is *)

(** The tables determine the operations they store. *)
Lemma stored_unique ops ops' db : db_inv ops db -> db_inv ops' db -> ops = ops'.
Proof.
  assert (forall o, db_inv o db -> _decode_operation <$> operations db = Ok <$> o) as Hd.
  { intros o Hi. rewrite (di_rows _ _ Hi), <- list_fmap_compose. apply list_fmap_ext. intros i r Hr%list_elem_of_lookup_2. simpl.
    apply decode_encode_operation. eapply Forall_forall; [apply Hi|done]. }
  intros H1 H2. assert (Inj (=) (=) (fmap (M:=list) (@Ok exn OperationRecord))) as Hinj by (apply list_fmap_eq_inj; by intros ?? [= ->]).
  apply Hinj. by rewrite <- (Hd ops H1), (Hd ops' H2).
Qed.

Lemma steps_keep ops (d d' : D) : domain_inv max0 ops0 db0 ops d -> rtc (domain_step env) d d' ->
  exists ops', domain_inv max0 ops0 db0 ops' d' /\ keeps_final ops ops'.
Proof.
  intros Hi Hr. revert ops Hi. induction Hr as [d|d d1 d2 Hs _ IH]; intros ops Hi; [exists ops; split; [done|apply keeps_final_refl]|].
  destruct (step_keeps env max0 Henv ops0 db0 ops d d1 Hi Hs) as (o1 & H1 & K1). destruct (IH o1 H1) as (o2 & H2 & K2).
  exists o2. split; [done|by eapply keeps_final_trans].
Qed.

(** ** The callback *)

(** What the callback of a stored operation writes: one transition to the verdict, trusted exactly for a success. *)
Lemma settle_writes ops db (d : D) r future : _journal d = Journal_init db [] -> db_inv ops db -> r ∈ ops ->
  storable (op_st r) (action r) future ->
  exists reason oc req fields,
    let to := verdict (op_st r) (action r) future in
    _settle env (operation_id r) future d
      = _safe_transition env (operation_id r) to reason (bool_decide (to = OperationState.SUCCEEDED)) oc req fields d
    /\ require_reason reason = Ok reason /\ fields_valid fields
    /\ OperationState.can_transition (op_st r) to = true /\ OperationState.is_terminal to = true.
Proof.
  intros Hj Hi Hr Hs. unfold _settle, _complete, _resolve, record_is_terminal, mbind, M_bind.
  destruct future as [[s|cp|q|c]|e|]; cbn [storable verdict] in *; [| | | | |done]; rewrite (current_healthy env ops db r d Hj Hi Hr).
  - destruct Hs as [Hst Hf]. rewrite Hst. case_bool_decide as Ha; cbn.
    + eexists _, _, _, _. split; [done|]. split; [done|]. by split.
    + eexists _, _, _, _. split; [done|]. split; [done|]. by split.
  - rewrite Hs. eexists _, _, _, _. split; [done|]. split; [done|]. by split.
  - rewrite Hs. eexists _, _, _, _. split; [done|]. split; [done|]. by split.
  - destruct Hs as (Hst & t & f & Ht & Hf & Hv). rewrite Hst. cbn [OperationState.is_terminal]. unfold correlated_done. rewrite Ht.
    cbn. unfold complete_command, _is_trusted_terminal, mbind, M_bind, liftR. rewrite Ht, Hf. destruct (is_completion_done c t).
    + eexists _, _, _, _. split; [done|]. split; [done|]. by split.
    + eexists _, _, _, _. split; [done|]. split; [done|]. by split.
  - destruct Hs as [Hst Hre]. rewrite <- classify_prescribed_from.
    assert (bool_decide ((_classify (op_st r) e).1 = OperationState.SUCCEEDED) = false) as -> by (apply bool_decide_false, classify_fails).
    assert (OperationState.is_terminal (op_st r) = false) as -> by (by destruct Hst as [-> | ->]).
    exists (_classify (op_st r) e).2, (Some (_outcome_of e)), None, None. split; [reflexivity|]. split; [exact Hre|]. split; [by intros f|].
    rewrite classify_prescribed_from. destruct Hst as [-> | ->], (exn_cls e) as [[]|[]|[]|[]|[]]; by split.
Qed.

Definition run_callback (c : callback) (id : string) : M D exn unit :=
  match c with OfCommand f => _settle env id f | OfStop f => _settle_stop env id f end.

Lemma stop_writes ops db (d : D) r f : _journal d = Journal_init db [] -> db_inv ops db -> r ∈ ops -> fits (OfStop f) (op_st r) (action r) ->
  exists reason oc req fields,
    let to := calls_for (OfStop f) (op_st r) (action r) in
    _settle_stop env (operation_id r) f d
      = _safe_transition env (operation_id r) to reason (bool_decide (to = OperationState.SUCCEEDED)) oc req fields d
    /\ require_reason reason = Ok reason /\ fields_valid fields
    /\ OperationState.can_transition (op_st r) to = true /\ OperationState.is_terminal to = true.
Proof.
  intros Hj Hi Hr Hf. destruct f as [x|e|]; [| |done].
  - cbn in *. rewrite Hf. eexists _, _, _, _. split; [reflexivity|]. split; [reflexivity|]. by split.
  - exact (settle_writes ops db d r (Err e) Hj Hi Hr Hf).
Qed.

(** A transition asked for the operation [r], whatever fails. *)
Lemma safe_outcome ops r to reason trusted oc req fields (d : D) : db_inv ops (committed (_journal d)) -> r ∈ ops ->
  let q := _safe_transition env (operation_id r) to reason trusted oc req fields d in
  (exists r', db_inv (replace_record r' ops) (committed (_journal q.1)) /\ same_operation r r' /\ op_st r' = to /\ trusted_terminal r' = trusted
     /\ trusted_iff to trusted /\ OperationState.can_transition (op_st r) to = true /\ working (_journal d) = None)
  \/ (committed (_journal q.1) = committed (_journal d) /\ (journal_available (m_snapshot (_machine q.1)) = false \/ is_ok q.2 = false)).
Proof.
  intros Hi Hr q. unfold q. rewrite safe_state.
  destruct (transition_cases env max0 Henv ops (operation_id r) to reason trusted oc req fields d Hi) as [(r' & E & r0 & Hr0 & Hid & Hct & Er & Htr & Hdb & _)|(e & E & Ec & Hl)].
  - left. exists r'. assert (r0 = r) as -> by (eapply ids_unique; [apply Hi|done..]). split; [exact Hdb|]. rewrite Er. split_and!; try done.
    destruct (working (_journal d)) as [w|] eqn:Ew; [|done]. exfalso.
    destruct (transition_effect env (operation_id r) to reason trusted oc req fields d) as (_ & E2 & _). rewrite E in E2.
    pose proof (transition_open (operation_id r) to (m_generation (_machine d) + 1) (utc (now_at env (reads d))) reason trusted oc req fields (_journal d) w Ew) as Hx.
    unfold transition_call in E2. by rewrite <- E2 in Hx.
  - right. split; [done|]. destruct (is_journal_error e) eqn:Ee; [by left|right].
    unfold _safe_transition, try_except, mbind, M_bind. destruct (_transition env _ _ _ _ _ _ _ d) as [d' y]; cbn in *. subst y. by rewrite Ee.
Qed.

Lemma prescribed_terminal from c : OperationState.is_terminal (prescribed_from from c) = true.
Proof. unfold prescribed_from. by destruct c as [[]|[]|[]|[]|[]]; try case_bool_decide. Qed.
Lemma verdict_terminal c from a : delivered c -> OperationState.is_terminal (calls_for c from a) = true.
Proof.
  intros Hd. destruct c as [[[s|cp|q|c]|e|]|[x|e|]]; cbn [calls_for verdict delivered] in *; try done; try apply prescribed_terminal.
  - by case_bool_decide.
  - by destruct (correlated_done c).
Qed.

(** What a callback leaves undone: the operation had ended, the journal failed and the failure is latched, or the callback raises; and
    beside them a transaction that an earlier commit left open. *)
Definition undone (r : OperationRecord) (d d' : D) (x : result unit) : Prop :=
  record_is_terminal r = true \/ journal_available (m_snapshot (_machine d')) = false \/ is_ok x = false \/ working (_journal d) <> None.

Lemma callback_outcome ops r c (d : D) : db_inv ops (committed (_journal d)) -> r ∈ ops -> delivered c ->
  let q := run_callback c (operation_id r) d in
  (exists r', db_inv (replace_record r' ops) (committed (_journal q.1)) /\ ended_as c r r')
  \/ (committed (_journal q.1) = committed (_journal d) /\ undone r d q.1 q.2).
Proof.
  intros Hi Hr Hc. cbv zeta. pose proof (verdict_terminal c (op_st r) (action r) Hc) as Hterm.
  (* one transition to the verdict *)
  assert (forall reason trusted oc req fields (d1 : D), committed (_journal d1) = committed (_journal d) -> (working (_journal d1) = None -> working (_journal d) = None) ->
    forall to, (working (_journal d) = None -> to = calls_for c (op_st r) (action r)) -> let q := _safe_transition env (operation_id r) to reason trusted oc req fields d1 in
    (exists r', db_inv (replace_record r' ops) (committed (_journal q.1)) /\ ended_as c r r')
    \/ (committed (_journal q.1) = committed (_journal d) /\ undone r d q.1 q.2)) as Hsafe.
  { intros reason trusted oc req fields d1 Ec Hw to Hto. cbv zeta. rewrite <- Ec in Hi.
    destruct (safe_outcome ops r to reason trusted oc req fields d1 Hi Hr) as [(r' & Hdb & Hsame & Hst & Htr & Hti & Hct & Hw1)|[Eq Hu]].
    - left. exists r'. split; [exact Hdb|]. specialize (Hto (Hw Hw1)). subst to. split_and!; [done| |done| |].
      + unfold record_is_terminal. by destruct (op_st r), (calls_for c _ _).
      + unfold record_is_terminal. by rewrite Hst.
      + rewrite Htr, Hst. exact Hti.
    - right. split; [congruence|]. right. destruct Hu as [Hu|Hu]; [by left|right; by left]. }
  (* a record that was read first *)
  assert (forall f : OperationRecord -> M D exn unit,
    (forall r1 (d1 : D), committed (_journal d1) = committed (_journal d) -> (working (_journal d1) = None -> working (_journal d) = None) ->
       (working (_journal d) = None -> r1 = r) -> record_is_terminal r1 = false ->
       (exists r', db_inv (replace_record r' ops) (committed (_journal (f r1 d1).1)) /\ ended_as c r r')
       \/ (committed (_journal (f r1 d1).1) = committed (_journal d) /\ undone r d (f r1 d1).1 (f r1 d1).2)) ->
    let q := (record ← _current env (operation_id r);
              match record with None => mret tt | Some r1 => if record_is_terminal r1 then mret tt else f r1 end) d in
    (exists r', db_inv (replace_record r' ops) (committed (_journal q.1)) /\ ended_as c r r')
    \/ (committed (_journal q.1) = committed (_journal d) /\ undone r d q.1 q.2)) as Hread.
  { intros f Hf. cbv zeta. rewrite bind_case. pose proof (current_cases env ops r d Hi Hr) as Hcc. destruct (current_after env (operation_id r) d) as [Ec _].
    destruct (_current env (operation_id r) d) as [d1 [o|e|]]; cbn [fst snd is_ok] in *.
    - destruct Hcc as [(o' & [= <-] & Hw & Ho)|[[[= ->] Hl]|]]; [| |done].
      + destruct o as [r1|]; cbn [mret M_ret fst snd].
        * assert (working (_journal d) = None -> r1 = r) as Hr1 by (intros Hn; specialize (Ho Hn); congruence).
          destruct (record_is_terminal r1) eqn:Et; [|apply Hf; try done; by rewrite Hw].
          right. split; [done|]. destruct (working (_journal d)) eqn:Ew; [right; right; right; by rewrite Ew|]. left. by rewrite <- (Hr1 eq_refl).
        * right. split; [done|]. right. right. right. intros Hn. by specialize (Ho Hn).
      + right. split; [done|]. right. by left.
    - right. split; [done|]. right. right. by left.
    - right. split; [done|]. right. right. by left. }
  assert (forall e (d1 : D), (forall from a, calls_for c from a = prescribed_from from (exn_cls e)) -> d1 = d ->
    let q := _resolve env (operation_id r) e d1 in
    (exists r', db_inv (replace_record r' ops) (committed (_journal q.1)) /\ ended_as c r r')
    \/ (committed (_journal q.1) = committed (_journal d) /\ undone r d q.1 q.2)) as Hres.
  { intros e d1 Hcf ->. unfold _resolve. apply Hread. intros r1 d1 Ec Hw Hr1 Ht. cbv zeta. apply Hsafe; [done|done|].
    intros Hn. rewrite (Hr1 Hn), Hcf. apply classify_prescribed_from. }
  destruct c as [[res|e|]|[x|e|]]; try (by destruct Hc); cbn [run_callback]; unfold _settle, _settle_stop.
  - unfold _complete. apply Hread. intros r1 d1 Ec Hw Hr1 Ht. destruct res as [s|cp|q|cc].
    + destruct (bool_decide (action r1 ∈ _SESSION_ACTIONS)) eqn:Eb; apply Hsafe; try done; intros Hn; rewrite (Hr1 Hn) in Eb; cbn; by rewrite Eb.
    + by apply Hsafe.
    + by apply Hsafe.
    + unfold complete_command, liftR. assert (forall y : result unit, is_ok y = false -> undone r d d1 y) as Hun by (intros y Hy; right; right; by left).
      rewrite bind_case. unfold _is_trusted_terminal.
      assert (correlated_done cc = match terminal_response cc with Ok t => is_completion_done cc t | _ => false end) as Hcd by done.
      destruct (terminal_response cc) as [t|e|] eqn:Etr in |- *; cbn [fst snd]; [..|right; by split; [|apply Hun]].
      * destruct (is_completion_done cc t) eqn:Edone; cbv beta iota; rewrite bind_case; destruct (Models.terminal_fields cc) as [f|e|]; cbn [fst snd];
          first [right; split; [done|by apply Hun]|apply Hsafe; [done|done|intros _; cbn [calls_for verdict]; by rewrite Hcd, Etr, ?Edone]].
      * destruct (isinstance e _); [|right; by split; [|apply Hun]]. cbv beta iota. rewrite bind_case. destruct (Models.terminal_fields cc) as [f|e'|]; cbn [fst snd];
          first [right; split; [done|by apply Hun]|apply Hsafe; [done|done|intros _; cbn [calls_for verdict]; by rewrite Hcd, Etr]].
  - by apply Hres.
  - by apply Hsafe.
  - by apply Hres.
Qed.

End Settlement.
