(* ===== verification/DomainDemo.v ===== *)
(** * Concrete runs of the domain

    A fixed environment, a worker that records what it is handed, and states in
    which the domain's theorems are applied. *)
From S2P Require Import Prelude PyString Errors IsoTime Json Operations Models Session Machine Journal JournalSpec.
From S2P Require Import JournalSafety Configuration Adapters Events Domain DomainSpec DomainOutcome Settlement Parsing.
(** A worker that accepts and records every admission call. *)
Definition Recorder : Type := list (option WorkerIntent * string).
#[export] Instance recorder_port : WorkerPort Recorder := {
  worker_submit intent op w := (w ++ [(Some intent, operation_id op)], Ok tt);
  worker_submit_priority_stop id w := (w ++ [(None, id)], Ok tt);
}.

Definition demo_now (n : nat) : Z := 1700000000000000 + Z.of_nat n mod 1000.
Definition demo_uuid (n : nat) : string :=
  match n with 0%nat => demo_id | 1%nat => demo_id2 | _ => "6f1c1c52-0a5e-4c57-9b53-6f0a4be0d003" end.
Definition demo_env : Env :=
  mkEnv demo_now demo_uuid (fun _ => Safe) (fun s => s) DEFAULT_IDEMPOTENCY_TTL MIN_DEADLINE_MS.

Lemma demo_now_range n : 1700000000000000 <= demo_now n < 1700000000001000.
Proof. unfold demo_now. pose proof (Z.mod_pos_bound (Z.of_nat n) 1000). lia. Qed.

Lemma demo_env_ok : env_ok demo_env MAX_DEADLINE_MS.
Proof.
  assert (forall t, 1700000000000000 <= t < 1800000000000000 -> valid_moment t) as Hv.
  { intros t Ht. unfold valid_moment. lia. }
  split; simpl.
  - by intros [|[|n]].
  - intros n. apply Hv. pose proof (demo_now_range n). lia.
  - intros n w Hw. apply Hv. pose proof (demo_now_range n). unfold MAX_DEADLINE_MS in Hw. lia.
  - by vm_compute.
  - by vm_compute.
Qed.

Lemma demo_actor_ok : actor_ok demo_actor.
Proof. by vm_compute. Qed.

Definition demo_start : OperationDomain Recorder :=
  mkOperationDomain (Journal_init DB_empty []) MachineState_init demo_ring [] ConfigurationValues_default 1 (demo_now 0)
    MAX_DEADLINE_MS 1 0 0.

Lemma demo_start_made :
  OperationDomain_make demo_env (Journal_init DB_empty []) [] demo_ring MAX_DEADLINE_MS = Ok demo_start.
Proof. vm_compute. reflexivity. Qed.

Definition demo_call : domain_call := DStop demo_actor "stop-1" None (BInt 1000).
Lemma demo_call_ok : domain_call_ok demo_call.
Proof. intros who [= <-]. apply demo_actor_ok. Qed.

(** The next run: other identifiers, over the tables the first one left. *)
Definition demo_env2 : Env := mkEnv demo_now (fun n => demo_uuid (S n)) (fun _ => Safe) (fun s => s) DEFAULT_IDEMPOTENCY_TTL MIN_DEADLINE_MS.
Lemma demo_env2_ok : env_ok demo_env2 MAX_DEADLINE_MS.
Proof. destruct demo_env_ok as [Hu ? ? ? ?]. split; try done. intros n. apply Hu. Qed.
Definition restarted (d : OperationDomain Recorder) : OperationDomain Recorder :=
  mkOperationDomain (Journal_init (committed (_journal d)) []) MachineState_init demo_ring [] ConfigurationValues_default 1 (demo_now 0)
    MAX_DEADLINE_MS 1 0 0.
Lemma restarted_made d :
  OperationDomain_make demo_env2 (Journal_init (committed (_journal d)) []) [] demo_ring MAX_DEADLINE_MS = Ok (restarted d).
Proof. unfold OperationDomain_make. cbn. reflexivity. Qed.
Definition demo_second : OperationDomain Recorder :=
  run_domain demo_env2 (DStop demo_actor "stop-2" None (BInt 1000)) (restarted (run_domain demo_env demo_call demo_start)).


(** A restart takes the generation back: what is stored is ahead of what is published, and a generation is given out again. *)
Example restart_goes_back :
  let d := run_domain demo_env demo_call demo_start in
  (c_generation <$> operations (committed (_journal (restarted d))), m_generation (_machine (restarted d))) = ([3], 1)
  /\ (t_generation <$> operation_transitions (committed (_journal demo_second))) = [1; 2; 3; 1; 2; 3].
Proof. vm_compute. by split. Qed.

(** A machine that is ready to sort. *)
Definition demo_caps : Capabilities := mkCapabilities 2 64 "none" 4 8 9 false false true true true ∅.
Definition demo_status : Status := mkStatus "running" "idle" true true true None 0 0 0 1 ∅.
Definition demo_ready : OperationDomain Recorder :=
  run_domain demo_env (DObserveProfile demo_caps demo_status)
    (run_domain demo_env (DObserveSession (mkSessionSnapshot ConnectionState.READY 2 "verified v2 session")) demo_start).

Lemma demo_ready_inv : exists ops, domain_inv MAX_DEADLINE_MS [] DB_empty ops demo_ready.
Proof.
  pose proof (make_inv demo_env MAX_DEADLINE_MS [] DB_empty [] [] demo_ring demo_start db_inv_empty demo_start_made) as H0.
  destruct (step_keeps demo_env MAX_DEADLINE_MS demo_env_ok [] DB_empty [] demo_start
    (run_domain demo_env (DObserveSession (mkSessionSnapshot ConnectionState.READY 2 "verified v2 session")) demo_start) H0) as (o1 & H1 & _);
    [right; eexists; split; [|reflexivity]; done|].
  destruct (step_keeps demo_env MAX_DEADLINE_MS demo_env_ok [] DB_empty o1 _ demo_ready H1) as (o2 & H2 & _); [right; eexists; split; [|reflexivity]; done|]. by exists o2.
Qed.

Definition demo_body : RequestBody := {["slot" := BInt 3]}.

Lemma submit_durable_before_enqueue_witness :
  let q := submit demo_env OperationAction.SORT demo_body demo_actor "key-1" 3 (BInt 1000) demo_ready in
  _worker q.1 = [(Some (SortIntent 3), demo_id)]
  /\ exists ops intent key fp accepted d1, gated ops OperationAction.SORT intent demo_actor key fp 3 demo_ready d1 accepted
       /\ idempotency_records (committed (_journal q.1)) = idempotency_records (committed (_journal d1)).
Proof.
  cbv zeta. split; [vm_compute; reflexivity|]. destruct demo_ready_inv as [ops Hi].
  destruct (submit_durable_before_enqueue demo_env MAX_DEADLINE_MS demo_env_ok [] DB_empty ops OperationAction.SORT demo_body demo_actor "key-1" 3
    (BInt 1000) demo_ready Hi demo_actor_ok) as [H|(intent & fp & accepted & d1 & _ & _ & H & _ & _ & Hk & _)]; [vm_compute in H; discriminate H|].
  exists ops, intent, "key-1", fp, accepted, d1. split; [exact H|exact Hk].
Defined.

Lemma transition_all_or_nothing_witness :
  let q := _transition demo_env "missing" OperationState.RUNNING "dispatched" false None None None demo_ready in
  exists e, q.2 = Err e /\ refused demo_ready q.1 e.
Proof.
  cbv zeta. destruct demo_ready_inv as [ops Hi].
  destruct (transition_all_or_nothing demo_env MAX_DEADLINE_MS demo_env_ok [] DB_empty ops "missing" OperationState.RUNNING "dispatched" false
    None None None demo_ready Hi) as [(r & ops' & E & _)|H]; [|exact H]. vm_compute in E. discriminate E.
Defined.

Lemma deadline_limit_never_grows_witness :
  _max_deadline_ms (run_domain demo_env demo_call demo_start) <= MAX_DEADLINE_MS.
Proof.
  apply (deadline_limit_never_grows demo_env MAX_DEADLINE_MS demo_env_ok demo_start); [done|].
  apply rtc_once. right. exists demo_call. split; [apply demo_call_ok|reflexivity].
Defined.

(** A running sort, as the journal holds it after admission, acceptance and dispatch. *)
Definition demo_accepted : OperationRecord :=
  transitioned OperationState.ACCEPTED 4 false None (demo_now 1) None None (demo_op demo_id).
Definition demo_running : OperationRecord :=
  transitioned OperationState.RUNNING 5 false None (demo_now 2) None None demo_accepted.
Definition demo_rows (r : OperationRecord) (to : op_state) (g t : Z) (reason : string) (db : DB) : DB :=
  transition_rows (operation_id r) (op_st r) to g t reason
    (apply_transition to g false None (if OperationState.is_terminal to then Some t else None) None (_encode_fields None)) db.
Definition demo_running_db : DB :=
  demo_rows demo_accepted OperationState.RUNNING 5 (demo_now 2) "dispatched to the controller"
    (demo_rows (demo_op demo_id) OperationState.ACCEPTED 4 (demo_now 1) "admitted to the serial lane" demo_db).

Lemma demo_running_inv : db_inv [demo_running] demo_running_db.
Proof.
  assert (forall n, valid_moment (demo_now n)) as Hv by apply (eo_now _ _ demo_env_ok).
  assert (db_inv [demo_accepted] (demo_rows (demo_op demo_id) OperationState.ACCEPTED 4 (demo_now 1)
    "admitted to the serial lane" demo_db)) as Hi.
  { apply (transition_inv [demo_op demo_id] demo_db (demo_op demo_id) OperationState.ACCEPTED 4 false None (demo_now 1) None None
      "admitted to the serial lane" demo_db_inv); [by left|done|by vm_compute|done|apply Hv|done]. }
  apply (transition_inv [demo_accepted] _ demo_accepted OperationState.RUNNING 5 false None (demo_now 2) None None
      "dispatched to the controller" Hi); [by left|done|by vm_compute|done|apply Hv|done].
Qed.

Definition demo_machine : MachineState :=
  Nat.iter 5 (publish_transition (Some demo_id) "operation running: dispatched to the controller") MachineState_init.

Definition demo_domain : OperationDomain Recorder :=
  mkOperationDomain (Journal_init demo_running_db []) demo_machine demo_ring [] ConfigurationValues_default 1 (demo_now 0)
    MAX_DEADLINE_MS 3 2 1.

Lemma demo_domain_inv : domain_inv MAX_DEADLINE_MS [] DB_empty [demo_running] demo_domain.
Proof.
  split; simpl.
  - exact demo_running_inv.
  - unfold demo_machine. do 5 (eapply machine_step_wf; [|apply step_transition]). apply machine_wf_init.
  - apply prefix_nil.
  - intros r ->%list_elem_of_singleton. right. by vm_compute.
  - eexists. split; [reflexivity|]. split.
    + intros t Ht. unfold demo_running_db, demo_rows, transition_rows, demo_db, admitted_rows in Ht. cbn in Ht.
      rewrite !elem_of_cons, elem_of_nil in Ht. destruct Ht as [->|[->|[->|[]]]]; by vm_compute.
    + intros [|[|[|i]]] [|[|[|k]]] t t' Hi Hk Hlt; try lia; try done; cbn in Hi, Hk; simplify_eq; by vm_compute.
  - exists []. split; [reflexivity|]. intros c Hc. by apply not_elem_of_nil in Hc.
  - done.
Qed.

Definition demo_error : exn := mk_exn (Protocol TimeoutError) "timed out waiting for a complete line".

Lemma running_error_fails_closed_witness :
  let q := _settle demo_env demo_id (Err demo_error) demo_domain in
  exists r' ops', r' ∈ ops' /\ db_inv ops' (committed (_journal q.1)) /\ operation_id r' = demo_id
    /\ op_st r' = OperationState.UNCERTAIN.
Proof.
  destruct (running_error_fails_closed demo_env MAX_DEADLINE_MS demo_env_ok [demo_running] demo_running_db demo_domain demo_running
    demo_error eq_refl demo_running_inv) as (_ & r' & ops' & H1 & H2 & H3 & H4 & _);
    [by left|by vm_compute|reflexivity|vm_compute; reflexivity|]. exists r', ops'. by split_and!.
Defined.

(** A completion the protocol delivers: a [done] terminal with one upper-case field name. *)
Definition demo_completion (name : string) : Completion :=
  mkCompletion 7 true {[name := "3"]} [mkResponse 7 DONE {[name := "3"]} None None] None.


Lemma refused_fields_lose_outcome_witness :
  name_syntax "Slot" = true /\
  let q := _settle demo_env demo_id (Ok (RCompletion (demo_completion "Slot"))) demo_domain in
  (exists e, q.2 = Err e) /\ committed (_journal q.1) = demo_running_db.
Proof.
  split; [vm_compute; reflexivity|].
  assert (exists e, require_terminal_fields {["Slot" := "3"]} = Err e) as [e He] by (eexists; vm_compute; reflexivity).
  destruct (refused_fields_lose_outcome demo_env [demo_running] demo_running_db demo_domain demo_running
    (demo_completion "Slot") {["Slot" := "3"]} e eq_refl demo_running_inv) as (H1 & H2 & _);
    [by left|by vm_compute|reflexivity|vm_compute; reflexivity|vm_compute; reflexivity|exact He|]. split; [by exists e|exact H2].
Defined.

Lemma success_needs_evidence_witness :
  settled_with [demo_running] demo_id (Ok (RCompletion (demo_completion "slot"))) True
    (_settle demo_env demo_id (Ok (RCompletion (demo_completion "slot"))) demo_domain).1.
Proof.
  destruct (success_needs_evidence demo_env MAX_DEADLINE_MS demo_env_ok [] DB_empty [demo_running] demo_id
    (Ok (RCompletion (demo_completion "slot"))) demo_domain demo_domain_inv) as (ops' & H1 & H2).
  exists ops'. split; [exact H1|exact H2].
Defined.

Lemma dispatch_gate_witness :
  let op := mkOperationRecord demo_id OperationAction.SORT "fp-1" OperationState.ACCEPTED 4 0 1000 demo_actor false None None None None in
  exists msg, (_dispatch demo_env op demo_domain).2 = Err (domain_exn DeadlineExpiredError msg).
Proof.
  cbv zeta. destruct (dispatch_gate demo_env MAX_DEADLINE_MS demo_env_ok [] DB_empty [demo_running] (mkOperationRecord demo_id
    OperationAction.SORT "fp-1" OperationState.ACCEPTED 4 0 1000 demo_actor false None None None None) demo_domain demo_domain_inv)
    as [_ H]. apply H. by vm_compute.
Defined.

Lemma live_key_replays_witness :
  let fp := "fp-1" in
  let env := mkEnv demo_now demo_uuid (fun _ => Safe) (fun _ => fp) DEFAULT_IDEMPOTENCY_TTL MIN_DEADLINE_MS in
  (submit env OperationAction.SORT demo_body demo_actor "key-000000000001" 99 (BInt 1000) demo_domain).2 = Ok demo_running.
Proof.
  cbv zeta. set (env := mkEnv _ _ _ _ _ _).
  destruct (live_key_replays env demo_running_db demo_domain OperationAction.SORT demo_body demo_actor "key-000000000001" 99
    (BInt 1000) (SortIntent 3) "fp-1" (demo_key demo_id) demo_running [demo_running] 1000) as [H _];
    [by split_and!|apply demo_running_inv|vm_compute; reflexivity|vm_compute; reflexivity|vm_compute; reflexivity|reflexivity
    |split; by vm_compute|by left|apply demo_key_ok|reflexivity|by vm_compute|by left|reflexivity|].
  rewrite bool_decide_true in H by reflexivity. exact H.
Defined.

(** A committed configuration is read back after a restart, and its deadline limit is not applied. *)
Example restart_forgets_limit :
  let d := run_domain demo_env (DConfigure {["max_deadline_ms" := BInt 5000]} demo_actor "key-2" 3 (BInt 1000)) demo_ready in
  let limits d := (_max_deadline_ms d, match (configuration d).2 with Ok c => Some (max_deadline_ms c.1.1) | _ => None end) in
  (limits d, limits (restarted d)) = ((5000, Some 5000), (600000, Some 5000)).
Proof. vm_compute. reflexivity. Qed.
