(* ===== verification/StorageHealth.v ===== *)
(** * Threats to durability (appliance/daemon/src/cs71d/storage_health.py)

    Free space and the freshness of the last backup, and what a threat does to the
    admission of work. The free space, the bytes of the marker, the parsers of JSON
    and of times are parameters. A message that quotes an exception or a time is shortened
    to its fixed part; nothing reads it but the operator. *)
From S2P Require Import Prelude PyString Errors Models IsoTime Json Operations Session Machine Journal JournalSpec JournalSafety.
From S2P Require Import Configuration Adapters Events Domain DomainTotal DomainSpec DomainOutcome DomainDemo.

Definition PRODUCTION_MINIMUM_FREE_BYTES : Z := 500 * 1024 * 1024.
Definition PRODUCTION_BACKUP_MARKER_PATH : string := "/var/lib/cs71d/backup-status.json".
(** [timedelta(hours=48)] in microseconds. *)
Definition PRODUCTION_BACKUP_MAX_AGE : Z := 48 * 3600 * 1000000.

(** [DurabilityThreatError], or the exceptions [check] lets through. *)
Inductive check_exn := DurabilityThreatError (message : string) | Escapes (e : exn).
Abbreviation check_result := (res check_exn unit).
Definition UnicodeDecodeError : exn := mk_exn (Builtin ValueError) "'utf-8' codec can't decode the backup marker".
Definition DateOverflow : exn := mk_exn (Builtin OverflowError) "date value out of range".
Definition threat (message : string) : check_result := Err (DurabilityThreatError message).

(** [Path.read_text(encoding="utf-8")] *)
Inductive text_read := ReadText (text : string) | Missing | Unreadable (message : string) | Undecodable.

Record DiskSpaceMonitor := mkDiskSpaceMonitor { dm_path : string; minimum_free_bytes : Z }.
Record BackupFreshnessMonitor := mkBackupMonitor { marker_path : string; maximum_age : Z }.

(** [bool(value)] *)
Definition truthy (v : json) : bool :=
  match v with
  | JNull => false
  | JBool b => b
  | JInt n => negb (n =? 0)
  | JFloat text => negb (bool_decide (text ∈ ["0.0"; "-0.0"]))
  | JStr s => negb (bool_decide (s = ""))
  | JArr l => negb (bool_decide (length l = 0%nat))
  | JObj l => negb (bool_decide (length l = 0%nat))
  end.

(** What the machine shows to a check. *)
Record Probe := mkProbe {
  disk_free : string -> string + Z;
  read_text : string -> text_read;
  clock : Z;
}.

(** [datetime.min] and [datetime.max]: [astimezone] overflows outside them. *)
Definition first_moment : Z := -62135596800000000.
Definition last_moment : Z := 253402300799999999.

Section Checks.
Context (json_loads : string -> option json) (parse_time : string -> option datetime).

Definition disk_check (m : DiskSpaceMonitor) (p : Probe) : check_result :=
  match disk_free p (dm_path m) with
  | inl refused => threat ("cannot read free space at " +:+ dm_path m +:+ ": " +:+ refused)
  | inr free =>
      if free <? minimum_free_bytes m
      then threat (str_of_Z free +:+ " bytes free at " +:+ dm_path m +:+ ", below the " +:+ str_of_Z (minimum_free_bytes m) +:+ "-byte floor")
      else Ok tt
  end.

(** [bool(document["ok"])] and [datetime.fromisoformat(str(document["completed_at"]))]: [None] for any exception
    of the four that [check] expects. *)
Definition read_marker (raw : string) : option (bool * datetime) :=
  match json_loads raw with
  | Some (JObj l) =>
      let document := py_dict l in
      ok ← obj_get "ok" document;
      completed ← obj_get "completed_at" document;
      at_ ← parse_time (py_str completed);
      Some (truthy ok, at_)
  | _ => None
  end.

Definition backup_check (m : BackupFreshnessMonitor) (p : Probe) : check_result :=
  match read_text p (marker_path m) with
  | Missing => threat ("no backup has ever completed: " +:+ marker_path m +:+ " does not exist")
  | Unreadable message => threat ("cannot read backup marker " +:+ marker_path m +:+ ": " +:+ message)
  | Undecodable => Err (Escapes UnicodeDecodeError)
  | ReadText raw =>
      match read_marker raw with
      | None => threat ("backup marker " +:+ marker_path m +:+ " is malformed")
      | Some (ok, completed_at) =>
          if negb ok then threat "the recorded backup failed"
          else
            match tz_offset completed_at with
            | None => threat ("backup marker " +:+ marker_path m +:+ " has a naive timestamp")
            | Some off =>
                let at_ := wall_us completed_at - off in
                if negb ((first_moment <=? at_) && (at_ <=? last_moment)) then Err (Escapes DateOverflow)
                else if maximum_age m <? clock p - at_ then threat "the last successful backup is too old" else Ok tt
            end
      end
  end.

(** [DurabilityMonitor]: the first threat found wins. *)
Fixpoint monitor_check (checks : list (Probe -> check_result)) (p : Probe) : check_result :=
  match checks with
  | [] => Ok tt
  | one :: checks => _ ← one p; monitor_check checks p
  end.

(** [parent] is [Path(database_path).parent]. *)
Definition production_durability_monitor (parent : string) : list (Probe -> check_result) :=
  [disk_check (mkDiskSpaceMonitor parent PRODUCTION_MINIMUM_FREE_BYTES);
   backup_check (mkBackupMonitor PRODUCTION_BACKUP_MARKER_PATH PRODUCTION_BACKUP_MAX_AGE)].

(** ** What the production monitor demands *)

(** A backup that succeeded, at an aware time at most 48 hours before now. *)
Definition fresh_backup (p : Probe) : Prop :=
  exists raw completed off, read_text p PRODUCTION_BACKUP_MARKER_PATH = ReadText raw /\ read_marker raw = Some (true, completed)
    /\ tz_offset completed = Some off /\ first_moment <= wall_us completed - off <= last_moment
    /\ clock p - (wall_us completed - off) <= PRODUCTION_BACKUP_MAX_AGE.
Definition enough_space (parent : string) (p : Probe) : Prop :=
  exists free, disk_free p parent = inr free /\ PRODUCTION_MINIMUM_FREE_BYTES <= free.

Lemma disk_check_ok m p : disk_check m p = Ok tt <-> exists free, disk_free p (dm_path m) = inr free /\ minimum_free_bytes m <= free.
Proof.
  unfold disk_check. destruct (disk_free p (dm_path m)) as [why|free]; [split; [done|by intros (? & ? & _)]|].
  destruct (Z.ltb_spec free (minimum_free_bytes m)); (split; [|]); try done; [intros (f & [= <-] & ?); lia|intros _; by exists free].
Qed.
Lemma backup_check_ok p : backup_check (mkBackupMonitor PRODUCTION_BACKUP_MARKER_PATH PRODUCTION_BACKUP_MAX_AGE) p = Ok tt <-> fresh_backup p.
Proof.
  unfold backup_check, fresh_backup. cbn [marker_path maximum_age]. destruct (read_text p _) as [raw| |msg|]; try (split; [done|by intros (? & ? & ? & ? & _)]).
  destruct (read_marker raw) as [[ok at_]|] eqn:Em; [|split; [done|intros (r & c & off & [= <-] & E & _); congruence]].
  destruct ok; cbn [negb]; [|split; [done|intros (r & c & off & [= <-] & E & _); congruence]].
  destruct (tz_offset at_) as [off|] eqn:Et; [|split; [done|intros (r & c & off & [= <-] & E & E2 & _); congruence]].
  set (t := wall_us at_ - off). destruct (Z.leb_spec first_moment t), (Z.leb_spec t last_moment); cbn [andb negb];
    destruct (Z.ltb_spec PRODUCTION_BACKUP_MAX_AGE (clock p - t));
    try (split; [done|intros (r & c & off' & [= <-] & E & E2 & Hr & Hle); assert (c = at_) as -> by congruence;
      assert (off' = off) as -> by congruence; fold t in Hr, Hle; lia]).
  split; [intros _|done]. exists raw, at_, off. fold t. split_and!; done || lia.
Qed.

Lemma production_check_ok parent p : monitor_check (production_durability_monitor parent) p = Ok tt <-> enough_space parent p /\ fresh_backup p.
Proof.
  unfold production_durability_monitor, enough_space. cbn [monitor_check]. rewrite <- backup_check_ok.
  pose proof (disk_check_ok (mkDiskSpaceMonitor parent PRODUCTION_MINIMUM_FREE_BYTES) p) as Hd. cbn [dm_path minimum_free_bytes] in Hd. rewrite <- Hd.
  destruct (disk_check _ p) as [[]|e|]; cbn [mbind res_bind]; [|by split; [|intros [? _]]..].
  destruct (backup_check _ p) as [[]|e|]; cbn [mbind res_bind]; naive_solver.
Qed.

(** The marker that no check expects: one that is not UTF-8, or records a success at a moment out of the range of
    [datetime]. *)
Definition unexpected_marker (p : Probe) (e : exn) : Prop :=
  read_text p PRODUCTION_BACKUP_MARKER_PATH = Undecodable /\ e = UnicodeDecodeError
  \/ exists raw completed off, read_text p PRODUCTION_BACKUP_MARKER_PATH = ReadText raw /\ read_marker raw = Some (true, completed)
       /\ tz_offset completed = Some off /\ ~ (first_moment <= wall_us completed - off <= last_moment) /\ e = DateOverflow.

Lemma backup_check_escapes p e : backup_check (mkBackupMonitor PRODUCTION_BACKUP_MARKER_PATH PRODUCTION_BACKUP_MAX_AGE) p = Err (Escapes e) <-> unexpected_marker p e.
Proof.
  unfold backup_check, unexpected_marker. cbn [marker_path maximum_age]. destruct (read_text p _) as [raw| |msg|].
  - destruct (read_marker raw) as [[ok at_]|] eqn:Em; [|split; [done|intros [[? _]|(r & c & off & [= <-] & E & _)]; congruence]].
    destruct ok; cbn [negb]; [|split; [done|intros [[? _]|(r & c & off & [= <-] & E & _)]; congruence]].
    destruct (tz_offset at_) as [off|] eqn:Et; [|split; [done|intros [[? _]|(r & c & off & [= <-] & E & E2 & _)]; congruence]].
    set (t := wall_us at_ - off).
    assert (forall Q : Prop, (~ (first_moment <= t <= last_moment) /\ e = DateOverflow <-> Q) ->
      (Q <-> ReadText raw = Undecodable /\ e = UnicodeDecodeError \/ exists raw0 completed off0, ReadText raw = ReadText raw0
         /\ read_marker raw0 = Some (true, completed) /\ tz_offset completed = Some off0
         /\ ~ (first_moment <= wall_us completed - off0 <= last_moment) /\ e = DateOverflow)) as Hiff.
    { intros Q HQ. split; [intros Hq; right; exists raw, at_, off; apply HQ in Hq as [? ?]; by split_and!|].
      intros [[? _]|(r & c & off' & [= <-] & E & E2 & Hr & He)]; [done|]. apply HQ. assert (c = at_) as -> by congruence.
      assert (off' = off) as -> by congruence. done. }
    apply Hiff. destruct (Z.leb_spec first_moment t), (Z.leb_spec t last_moment); cbn [andb negb];
      try destruct (Z.ltb_spec PRODUCTION_BACKUP_MAX_AGE (clock p - t));
      (split; [intros [? ?]; subst; (reflexivity || (exfalso; lia))|intros E; (done || (injection E as <-; split; [lia|done]))]).
  - split; [done|intros [[? _]|(r & c & off & ? & _)]; done].
  - split; [done|intros [[? _]|(r & c & off & ? & _)]; done].
  - split; [intros [= <-]; by left|intros [[_ ->]|(r & c & off & ? & _)]; done].
Qed.

Lemma production_check_escapes parent p e : monitor_check (production_durability_monitor parent) p = Err (Escapes e) <-> enough_space parent p /\ unexpected_marker p e.
Proof.
  unfold production_durability_monitor, enough_space. cbn [monitor_check]. rewrite <- backup_check_escapes.
  pose proof (disk_check_ok (mkDiskSpaceMonitor parent PRODUCTION_MINIMUM_FREE_BYTES) p) as Hd. cbn [dm_path minimum_free_bytes] in Hd. rewrite <- Hd.
  unfold disk_check. cbn [dm_path minimum_free_bytes]. destruct (disk_free p parent) as [why|free]; [by split; [|intros [? _]]|].
  destruct (free <? PRODUCTION_MINIMUM_FREE_BYTES); cbn [mbind res_bind]; [by split; [|intros [? _]]|].
  destruct (backup_check _ p) as [[]|x|]; cbn [mbind res_bind]; naive_solver.
Qed.
Lemma backup_ends m p : backup_check m p <> OutOfFuel.
Proof. unfold backup_check. repeat (case_match; try done). Qed.
Lemma production_ends parent p : monitor_check (production_durability_monitor parent) p <> OutOfFuel.
Proof.
  unfold production_durability_monitor. cbn [monitor_check]. pose proof (backup_ends (mkBackupMonitor PRODUCTION_BACKUP_MARKER_PATH PRODUCTION_BACKUP_MAX_AGE) p) as Hb.
  unfold disk_check. cbn [dm_path]. destruct (disk_free p parent); [done|]. destruct (_ <? _); [done|]. cbn [mbind res_bind]. by destruct (backup_check _ p) as [[]| |].
Qed.

(** ** The daemon under a threat *)

(** The check as [refresh_durability] meets it. *)
Definition answer_of (r : check_result) : check_answer :=
  match r with Err (DurabilityThreatError message) => Threat message | Err (Escapes e) => Raises e | _ => Safe end.

Context {W : Type} `{WorkerPort W} (env : Env) (parent : string) (probe : nat -> Probe).
Abbreviation D := (OperationDomain W).

(** A request that passes the checks made before the storage is looked at. *)
Definition presentable (a : op_action) (body : RequestBody) (who : Actor) (key : string) (deadline : BodyValue) (d : D) : Prop :=
  exists intent fp k w, intent_for a body = Ok intent /\ request_fingerprint (sha256_hexdigest env) a body who = Ok fp
    /\ require_idempotency_key key = Ok k /\ _require_deadline env deadline d = (d, Ok w).

(** C18: no work is admitted on storage that may not keep it. On a daemon whose monitor is the production one, when the
    free space beside the database is below its floor, or there is no backup that is known to have succeeded at most 48
    hours ago, a presentable request is refused: the worker is not called and the journal is not written. Where the
    check says what it found - too little space, a marker that is missing, unreadable, malformed, failed, naive or too
    old - the refusal is [JournalUnavailableError] and the machine is latched. Where the check itself fails - a marker
    that is not UTF-8, or dated out of range, on a disk with space - its exception is the answer and the machine is as it
    was. On healthy storage the check changes nothing of the machine. *)
Theorem storage_threat_blocks_work (a : op_action) (body : RequestBody) (who : Actor) (key : string) (g : Z) (deadline : BodyValue) (d : D) :
  (forall n, durability_at env n = answer_of (monitor_check (production_durability_monitor parent) (probe n))) ->
  journal_available (m_snapshot (_machine d)) = true -> presentable a body who key deadline d ->
  let now := probe (checks d) in
  let healthy := enough_space parent now /\ fresh_backup now in
  (healthy -> _machine (refresh_durability env d).1 = _machine d)
  /\ (~ healthy ->
      let p := submit env a body who key g deadline d in
      _worker p.1 = _worker d /\ _journal p.1 = _journal d
      /\ ((forall e, ~ (enough_space parent now /\ unexpected_marker now e)) ->
            journal_available (m_snapshot (_machine p.1)) = false
            /\ exists e, p.2 = Err e /\ isinstance e (Domain JournalUnavailableError) = true)
      /\ (forall e, enough_space parent now -> unexpected_marker now e -> p.2 = Err e /\ _machine p.1 = _machine d)).
Proof.
  intros Hmon Hav (intent & fp & k & w & H1 & H2 & H3 & H4). specialize (Hmon (checks d)). cbv zeta. rewrite <- production_check_ok.
  pose proof (production_check_escapes parent (probe (checks d))) as Hesc. pose proof (production_ends parent (probe (checks d))) as Hends.
  destruct (monitor_check _ _) as [[]|[msg|x]|] eqn:Hm; cbn [answer_of] in Hmon; [| | |done].
  - split; [intros _|by intros []]. unfold refresh_durability, getS, modifyS, mbind, M_bind. rewrite Hav. cbn [fst snd]. by rewrite Hmon.
  - split; [done|intros _].
    unfold submit, liftR, mbind, M_bind. rewrite H1, H2, H3, H4. cbn [_now].
    set (d1 := set_counters _ _ _ d). unfold refresh_durability, getS, modifyS, mbind, M_bind.
    change (_machine d1) with (_machine d). rewrite Hav. cbn [fst snd]. change (checks d1) with (checks d). rewrite Hmon.
    set (d2 := set_counters _ _ _ d1). set (why := "durability threat: " +:+ msg).
    destruct (fault_after env why d2) as ((fid & t & E1) & E2 & E3). pose proof (kw_fault env why d2) as E4.
    destruct (_record_journal_fault env why d2) as [d3 r3]; cbn [fst snd] in *. subst r3.
    assert (journal_available (m_snapshot (_machine d3)) = false) as Hl by (rewrite E1; apply latched_after).
    unfold admission_block, _require_durable, getS, mbind, M_bind, mret, M_ret. cbn [fst snd]. cbv beta iota. rewrite Hl. cbn [negb raise fst snd].
    split_and!; [done|by rewrite E2|intros _; split; [done|by eexists]|]. intros e Hs He. by specialize (proj2 (Hesc e) (conj Hs He)).
  - split; [done|intros _].
    unfold submit, liftR, mbind, M_bind. rewrite H1, H2, H3, H4. cbn [_now].
    set (d1 := set_counters _ _ _ d). unfold refresh_durability, getS, modifyS, mbind, M_bind.
    change (_machine d1) with (_machine d). rewrite Hav. cbn [fst snd]. change (checks d1) with (checks d). rewrite Hmon. cbn [raise fst snd].
    split_and!; [done|done|intros Hn; by destruct (Hn x (proj1 (Hesc x) eq_refl))|]. intros e Hs He. by specialize (proj2 (Hesc e) (conj Hs He)) as [= ->].
Qed.
End Checks.

(** A marker dated in the future is never stale. *)
Lemma future_backup_is_fresh (json_loads : string -> option json) (parse_time : string -> option datetime) (p : Probe) raw at_ :
  read_text p PRODUCTION_BACKUP_MARKER_PATH = ReadText raw -> read_marker json_loads parse_time raw = Some (true, utc at_) -> clock p <= at_ ->
  first_moment <= at_ <= last_moment ->
  backup_check json_loads parse_time (mkBackupMonitor PRODUCTION_BACKUP_MARKER_PATH PRODUCTION_BACKUP_MAX_AGE) p = Ok tt.
Proof.
  intros Hr Hm Hc Hv. apply backup_check_ok. exists raw, (utc at_), 0. simpl. unfold PRODUCTION_BACKUP_MAX_AGE. split_and!; done || lia.
Qed.

(** ** A daemon on a full disk

    The production monitor over a machine whose free space is a choice and whose
    backup is an hour old. *)

Definition demo_marker : string := "the marker".
Definition demo_marker_json (text : string) : option json :=
  if bool_decide (text = demo_marker)
  then Some (JObj [("ok", JBool true); ("completed_at", JStr (isoformat (1700000000000000 - 3600000000)))]) else None.
Definition demo_parse_time (text : string) : option datetime := utc <$> parse_iso text.

(** [free n] bytes are free at check [n]. *)
Definition demo_probe (free : nat -> Z) (n : nat) : Probe :=
  mkProbe (fun _ => inr (free n)) (fun path => if bool_decide (path = PRODUCTION_BACKUP_MARKER_PATH) then ReadText demo_marker else Missing) 1700000000000000.

Definition storage_env (free : nat -> Z) : Env :=
  mkEnv demo_now demo_uuid
    (fun n => answer_of (monitor_check (production_durability_monitor demo_marker_json demo_parse_time "/var/lib/cs71d") (demo_probe free n)))
    (fun s => s) DEFAULT_IDEMPOTENCY_TTL MIN_DEADLINE_MS.

Lemma storage_threat_blocks_work_witness :
  journal_available (m_snapshot (_machine (submit (storage_env (fun _ => PRODUCTION_MINIMUM_FREE_BYTES)) OperationAction.SORT demo_body demo_actor "key-1" 3
    (BInt 1000) demo_ready).1)) = true
  /\ let env := storage_env (fun _ => PRODUCTION_MINIMUM_FREE_BYTES - 1) in
     let p := submit env OperationAction.SORT demo_body demo_actor "key-1" 3 (BInt 1000) demo_ready in
     _worker p.1 = _worker demo_ready /\ _journal p.1 = _journal demo_ready /\ journal_available (m_snapshot (_machine p.1)) = false
     /\ exists e, p.2 = Err e /\ isinstance e (Domain JournalUnavailableError) = true.
Proof.
  split; [vm_compute; reflexivity|]. cbv zeta.
  assert (~ enough_space "/var/lib/cs71d" (demo_probe (fun _ => PRODUCTION_MINIMUM_FREE_BYTES - 1) (checks demo_ready))) as Hlow
    by (intros (free & [= <-] & Hf); by vm_compute in Hf).
  destruct (storage_threat_blocks_work demo_marker_json demo_parse_time (storage_env (fun _ => PRODUCTION_MINIMUM_FREE_BYTES - 1)) "/var/lib/cs71d"
    (demo_probe (fun _ => PRODUCTION_MINIMUM_FREE_BYTES - 1)) OperationAction.SORT demo_body demo_actor "key-1" 3 (BInt 1000) demo_ready) as [_ H].
  - reflexivity.
  - vm_compute. reflexivity.
  - exists (SortIntent 3). do 3 eexists. split_and!; vm_compute; reflexivity.
  - destruct H as (Hw & Hj & Hl & _); [intros [Hs _]; exact (Hlow Hs)|]. destruct Hl as [Hav He]; [intros e [Hs _]; exact (Hlow Hs)|].
    split; [exact Hw|]. split; [exact Hj|]. split; [exact Hav|exact He].
Defined.

(** A marker that is not UTF-8: the request fails with the exception of the check, and nothing is latched - the readiness
    of the machine is what it was. *)
Example undecodable_marker_latches_nothing :
  let probe := mkProbe (fun _ => inr PRODUCTION_MINIMUM_FREE_BYTES) (fun _ => Undecodable) 1700000000000000 in
  let env := mkEnv demo_now demo_uuid
    (fun _ => answer_of (monitor_check (production_durability_monitor demo_marker_json demo_parse_time "/var/lib/cs71d") probe))
    (fun s => s) DEFAULT_IDEMPOTENCY_TTL MIN_DEADLINE_MS in
  let p := submit env OperationAction.SORT demo_body demo_actor "key-1" 3 (BInt 1000) demo_ready in
  p.2 = Err UnicodeDecodeError /\ _machine p.1 = _machine demo_ready.
Proof. vm_compute. split; reflexivity. Qed.
