(* ===== verification/Http.v ===== *)
(** * Requests as [http.server] hands them over

    What the two services' handlers read of one request. The target is a type of
    its own: the daemon splits it, the vision service compares it whole. *)
From S2P Require Import Prelude PyString Errors Json.

(** [text[:n]] *)
Definition clip (n : nat) (s : string) : string := String.substring 0 n s.

(** The headers in order, and the bytes the client sends after them. *)
Record Request (T : Type) := mkHttpRequest {
  method : string;
  target : T;
  request_headers : list (string * string);
  rfile : string;
}.
Arguments mkHttpRequest {T}.
Arguments method {T}.
Arguments target {T}.
Arguments request_headers {T}.
Arguments rfile {T}.

(** [self.headers.get(name)]: the first header of that name, whatever its case. *)
Definition headers_get (name : string) {T} (r : Request T) : option string :=
  match list_find (fun h => str_lower h.1 = str_lower name) (request_headers r) with
  | Some (_, (_, v)) => Some v
  | None => None
  end.

(** [{name.lower(): value ...}]: the last header of a name wins. *)
Definition lower_headers {T} (r : Request T) : gmap string string :=
  dict_of ((fun h => (str_lower h.1, h.2)) <$> request_headers r).

(** [self.rfile.read(n)]: up to the end of the input when [n] is negative. *)
Definition rfile_read (n : Z) (input : string) : string :=
  if n <? 0 then input else clip (Z.to_nat n) input.

