(* ===== verification/Api.v ===== *)
(** * The private HTTP API of the daemon (appliance/daemon/src/cs71d/api.py)

    Requests are what [http.server] hands a handler: the method, the target as
    [urlsplit] and [parse_qs] split it, the headers in order and the bytes the client
    sends after them. Strings are over code points 0..255. [json.loads] is a
    parameter: no theorem depends on what it accepts. A Python object built from
    JSON keeps the order of its keys. *)
From S2P Require Import Prelude PyString Errors IsoTime Json JsonText Operations Session Machine Journal Configuration Adapters Events Domain Http.

Definition API_VERSION : string := "v1".
Definition MAX_BODY_BYTES : Z := 64 * 1024.
Definition MAX_CONTRACT_DEADLINE_MS : Z := 120000.
Definition MAX_API_SLOT : Z := 63.
Definition MACHINE_ROLE : string := "machine".
Definition COMMANDING_ROLES : list string := ["operator"; "administrator"; MACHINE_ROLE].
Definition API_ROLES : list string := "viewer" :: COMMANDING_ROLES.
Definition DEFAULT_PAGE_SIZE : Z := 25.
Definition MAX_PAGE_SIZE : Z := 100.
Definition DTR_GATE_STATUS : string := "NOT_EXECUTED".

Inductive ServiceIdentity := BFF | MACHINE.
#[export] Instance ServiceIdentity_eq_dec : EqDecision ServiceIdentity.
Proof. solve_decision. Defined.

Definition _SESSION_PATHS : list string := ["/v1/session/connect"; "/v1/session/recover"].

Definition _COMMAND_ACTIONS (path : string) : option op_action :=
  if bool_decide (path = "/v1/operations/home") then Some OperationAction.HOME
  else if bool_decide (path = "/v1/operations/sort") then Some OperationAction.SORT
  else if bool_decide (path = "/v1/operations/feed") then Some OperationAction.FEED
  else None.

Definition _STATUS_FOR_CODE (c : string) : option Z :=
  if bool_decide (c = "VALIDATION_FAILED") then Some 400
  else if bool_decide (c = "UNAUTHENTICATED") then Some 401
  else if bool_decide (c = "FORBIDDEN") then Some 403
  else if bool_decide (c = "RESOURCE_NOT_FOUND") then Some 404
  else if bool_decide (c = "STALE_GENERATION") then Some 409
  else if bool_decide (c = "IDEMPOTENCY_CONFLICT") then Some 409
  else if bool_decide (c = "NOT_READY") then Some 409
  else if bool_decide (c = "UNSUPPORTED") then Some 409
  else if bool_decide (c = "UNCERTAIN") then Some 409
  else if bool_decide (c = "QUEUE_FULL") then Some 429
  else if bool_decide (c = "DEADLINE_INVALID") then Some 400
  else if bool_decide (c = "DEADLINE_EXPIRED") then Some 408
  else if bool_decide (c = "JOURNAL_UNAVAILABLE") then Some 503
  else if bool_decide (c = "SERVICE_UNAVAILABLE") then Some 503
  else if bool_decide (c = "INTERNAL_ERROR") then Some 500
  else None.

Definition _CONTRACT_CODE (c : string) : option string :=
  if bool_decide (c = "UNSUPPORTED") then Some "NOT_READY" else None.

Definition _OUTCOME_FOR_STATE (s : op_state) : option string :=
  match s with
  | OperationState.SUCCEEDED => Some "COMPLETED"
  | OperationState.FAILED => Some "FAILED"
  | OperationState.CANCELLED => Some "CANCELLED"
  | OperationState.UNCERTAIN => Some "UNCERTAIN"
  | _ => None
  end.

(** ** What a handler may raise *)

Inductive api_exn :=
| ApiError (api_code message : string) (details : list (string * json))
| _StreamRequested (stream_after : option Z)
| Raised (e : exn).

Definition api_error {A} (c message : string) : res api_exn A := Err (ApiError c message []).
Definition invalid_request {A} (message : string) : res api_exn A := api_error "VALIDATION_FAILED" message.

Definition lift_result {A} (r : result A) : res api_exn A :=
  match r with Ok a => Ok a | Err e => Err (Raised e) | OutOfFuel => OutOfFuel end.

(** ** Regular expressions under [fullmatch] *)

Definition is_hex_dash (c : ascii) : bool := is_hex_digit c || Ascii.eqb c "-".
Definition uuid_shape (s : string) : bool := (slen s =? 36) && str_forall is_hex_dash s.
Definition _REQUEST_ID (s : string) : bool := uuid_shape s.

Definition _OPERATION_PATH (path : string) : option string :=
  let id := str_drop 15 path in
  if startswith path "/v1/operations/" && uuid_shape id then Some id else None.

Definition api_key_char (c : ascii) : bool := is_alpha c || is_digit c || str_mem c "._~-".
Definition api_key_syntax (s : string) : bool := (16 <=? slen s) && (slen s <=? 128) && str_forall api_key_char s.

Definition _EXACT_GENERATION (s : string) : bool :=
  bool_decide (s = "0")
  || match s with String c rest => is_digit c && negb (Ascii.eqb c "0") && str_forall is_digit rest | "" => false end.

(** ** Values from JSON *)

(** [value not in frozenset] hashes the value first. *)
Definition in_roles (v : json) (roles : list string) : result bool :=
  match v with
  | JStr s => Ok (bool_decide (s ∈ roles))
  | JArr _ => throw (Builtin TypeError) "unhashable type: 'list'"
  | JObj _ => throw (Builtin TypeError) "unhashable type: 'dict'"
  | _ => Ok false
  end.

Definition is_str (v : json) (s : string) : bool := match v with JStr x => bool_decide (x = s) | _ => false end.

(** ** Bodies and headers of a request *)

Section Requests.
Context (json_loads : string -> result json).

Definition _json_object (body : string) : res api_exn pydict :=
  if bool_decide (body = "") then invalid_request "a JSON request body is required"
  else
    match json_loads body with
    | Err e => if isinstance e (Builtin ValueError) then invalid_request "the request body is not valid JSON" else Err (Raised e)
    | OutOfFuel => OutOfFuel
    | Ok (JObj l) =>
        let payload := py_dict l in
        if match obj_get "api_version" payload with Some v => is_str v API_VERSION | None => false end
        then Ok payload
        else invalid_request "api_version must be 'v1'"
    | Ok _ => invalid_request "the request body must be a JSON object"
    end.
End Requests.

Definition _commanding_actor (payload : pydict) (identity : ServiceIdentity) (command : string) : res api_exn Actor :=
  match obj_get "actor" payload with
  | Some (JObj l) =>
      let supplied := py_dict l in
      match obj_get "user_id" supplied, obj_get "role" supplied with
      | Some who, Some r =>
          if negb (bool_decide (obj_keys supplied = {["user_id"; "role"]}))
          then invalid_request "actor must carry exactly a user_id and a role"
          else
            known ← lift_result (in_roles r API_ROLES);
            if negb (known : bool) then invalid_request "actor role is not a role of this API"
            else if negb (Bool.eqb (is_str r MACHINE_ROLE) (bool_decide (identity = MACHINE)))
            then api_error "FORBIDDEN" "the machine role requires the machine service identity"
            else if is_str r MACHINE_ROLE && negb (bool_decide (command = OperationAction.value OperationAction.SORT))
            then api_error "FORBIDDEN" "the machine role may only submit sort"
            else
              commands ← lift_result (in_roles r COMMANDING_ROLES);
              if negb (commands : bool)
              then api_error "FORBIDDEN" ("the " +:+ py_str r +:+ " role may not command the machine")
              else
                match Actor_make (py_str who) (py_str r) with
                | Err e => if isinstance e (Domain DomainError) then invalid_request (exn_msg e) else Err (Raised e)
                | Ok a => Ok a
                | OutOfFuel => OutOfFuel
                end
      | _, _ => invalid_request "actor must carry exactly a user_id and a role"
      end
  | _ => invalid_request "actor must carry exactly a user_id and a role"
  end.

Definition _command_name (path : string) (action : option op_action) : string :=
  match action with
  | Some a => OperationAction.value a
  | None =>
      if bool_decide (path = "/v1/session/connect") then "connect"
      else if bool_decide (path = "/v1/session/recover") then "recover"
      else "stop"
  end.

Definition _require_exact_fields (payload : pydict) (allowed : list string) (name : string) : res api_exn unit :=
  if negb (bool_decide (obj_keys payload = list_to_set allowed))
  then invalid_request ("a " +:+ name +:+ " request carries exactly " +:+ list_repr (str_sorted allowed))
  else Ok tt.

(** [payload[name]] after the fields were checked. *)
Definition field (name : string) (payload : pydict) : res api_exn json :=
  match obj_get name payload with
  | Some v => Ok v
  | None => lift_result (throw (Builtin KeyError) (str_repr name))
  end.

Definition _api_slot (v : json) : res api_exn Z :=
  match v with
  | JInt n =>
      if negb ((0 <=? n) && (n <=? MAX_API_SLOT)) then invalid_request "slot must be between 0 and 63" else Ok n
  | _ => invalid_request "slot must be an integer"
  end.

Definition _command_body (a : op_action) (payload : pydict) : res api_exn RequestBody :=
  match a with
  | OperationAction.HOME =>
      _ ← _require_exact_fields payload ["api_version"; "actor"; "target"] "home";
      target ← field "target" payload;
      match target with
      | JStr s => Ok {["axis" := BStr s]}
      | _ => invalid_request "home target must be a string"
      end
  | OperationAction.SORT =>
      _ ← _require_exact_fields payload ["api_version"; "actor"; "slot"] "sort";
      v ← field "slot" payload;
      n ← _api_slot v;
      Ok {["slot" := BInt n]}
  | _ =>
      _ ← _require_exact_fields payload ["api_version"; "actor"] "feed";
      Ok {["slot" := BInt 0]}
  end.

Definition _configuration_value (name : string) (v : json) : res api_exn Z :=
  match v with JInt n => Ok n | _ => invalid_request (name +:+ " must be an integer") end.

Fixpoint configuration_values (changes : pydict) : res api_exn (list (string * BodyValue)) :=
  match changes with
  | [] => Ok []
  | (name, v) :: changes =>
      n ← _configuration_value name v;
      l ← configuration_values changes;
      Ok ((name, BInt n) :: l)
  end.

(** [headers.get(name, "")] of the lower-case mapping [_dispatch] builds. *)
Definition header (name : string) (headers : gmap string string) : string := default "" (headers !! name).

Definition _idempotency_key (headers : gmap string string) : res api_exn string :=
  let key := header "idempotency-key" headers in
  if negb (api_key_syntax key) then invalid_request "Idempotency-Key is missing or malformed" else Ok key.

Definition _exact_generation (headers : gmap string string) : res api_exn Z :=
  let supplied := header "if-match-generation" headers in
  if negb (_EXACT_GENERATION supplied)
  then invalid_request "If-Match-Generation must be the exact observed generation"
  else lift_result (int_of_text supplied).

Definition _stop_generation (headers : gmap string string) : res api_exn (option Z) :=
  if bool_decide (header "if-match-generation" headers = "*") then Ok None
  else g ← _exact_generation headers; Ok (Some g).

Definition _deadline_ms (headers : gmap string string) : res api_exn Z :=
  match int_of_text (header "x-deadline-ms" headers) with
  | Ok n =>
      if negb ((1 <=? n) && (n <=? MAX_CONTRACT_DEADLINE_MS))
      then api_error "DEADLINE_INVALID" ("X-Deadline-Ms must be between 1 and " +:+ str_of_Z MAX_CONTRACT_DEADLINE_MS)
      else Ok n
  | Err e =>
      if isinstance e (Builtin ValueError)
      then api_error "DEADLINE_INVALID" "X-Deadline-Ms is missing or not an integer" else Err (Raised e)
  | OutOfFuel => OutOfFuel
  end.

Definition _last_event_id (headers : gmap string string) : res api_exn (option Z) :=
  let supplied := str_strip (header "last-event-id" headers) in
  if bool_decide (supplied = "") then Ok None
  else if negb (_EXACT_GENERATION supplied) then invalid_request "Last-Event-ID must be a daemon event id"
  else n ← lift_result (int_of_text supplied); Ok (Some n).

(** ** The query *)

Abbreviation Query := (gmap string (list string)).

(** The target is [None] where [urlsplit] or [parse_qs] raises [ValueError]. *)
Abbreviation HttpRequest := (Request (option (string * Query))).

(** [query.get(name)] when it holds a value, its last one. *)
Definition query_value (name : string) (query : Query) : option string := query !! name ≫= last.

(** [f(value)] whose [ValueError] refuses the request. *)
Definition or_refuse {A} (r : result A) (message : string) : res api_exn A :=
  match r with
  | Ok a => Ok a
  | Err e => if isinstance e (Builtin ValueError) then invalid_request message else Err (Raised e)
  | OutOfFuel => OutOfFuel
  end.

Definition _bounded_int (query : Query) (name : string) (default_ maximum : Z) : res api_exn Z :=
  match query_value name query with
  | None => Ok default_
  | Some v =>
      n ← or_refuse (int_of_text v) (name +:+ " must be an integer");
      if negb ((1 <=? n) && (n <=? maximum))
      then invalid_request (name +:+ " must be between 1 and " +:+ str_of_Z maximum) else Ok n
  end.

Definition _optional_cursor (query : Query) : res api_exn (option Z) :=
  match query_value "cursor" query with
  | None => Ok None
  | Some v => n ← or_refuse (int_of_text v) "cursor is not a cursor issued by this daemon"; Ok (Some n)
  end.

Definition _optional_enum {A} (vocabulary : string -> result A) (query : Query) (name : string) : res api_exn (option A) :=
  match query_value name query with
  | None => Ok None
  | Some v => x ← or_refuse (vocabulary (str_lower v)) (name +:+ " is not a known " +:+ name +:+ " value"); Ok (Some x)
  end.

(** ** Bodies of the replies *)

(** [moment.astimezone(UTC).isoformat().replace("+00:00", "Z")] *)
Fixpoint str_replace (fuel : nat) (p q s : string) : string :=
  match fuel with
  | O => s
  | S fuel =>
      match s with
      | "" => ""
      | String c rest =>
          if startswith s p then q +:+ str_replace fuel p q (str_drop (String.length p) s)
          else String c (str_replace fuel p q rest)
      end
  end.
Definition _rfc3339 (us : Z) : string :=
  let s := isoformat us in str_replace (String.length s) "+00:00" "Z" s.

Definition jmaybe (o : option string) : json := match o with Some s => JStr s | None => JNull end.

(** A Python mapping of scalars, its keys in order. *)
Definition jmapping (m : gmap string scalar) : json := JObj (member_json <$> scalar_items m).

Definition _operation_body (record : OperationRecord) : json :=
  JObj (
    [("api_version", JStr API_VERSION);
     ("operation_id", JStr (operation_id record));
     ("type", JStr (action_name (action record)));
     ("state", JStr (state_name (op_st record)));
     ("actor", JObj [("user_id", JStr (user_id (actor record))); ("role", JStr (role (actor record)))]);
     ("created_at", JStr (_rfc3339 (created_at record)));
     ("deadline_at", JStr (_rfc3339 (deadline_at record)));
     ("generation", JInt (generation record));
     ("trusted_terminal", JBool (trusted_terminal record))]
    ++ match op_terminal_fields record with Some f => [("terminal_fields", jmapping (SStr <$> f))] | None => [] end
    ++ match terminal_at record with Some t => [("terminal_at", JStr (_rfc3339 t))] | None => [] end
    ++ match _OUTCOME_FOR_STATE (op_st record) with
       | Some outcome =>
           [("outcome", JStr (if bool_decide (op_st record = OperationState.SUCCEEDED)
                                 && bool_decide (action record = OperationAction.STOP) then "STOPPED" else outcome))]
       | None => []
       end).

Definition _event_body (event : DaemonEvent) : json :=
  JObj (
    [("api_version", JStr API_VERSION);
     ("event_id", JInt (Z.max (event_id event) 1));
     ("occurred_at", JStr (_rfc3339 (ev_occurred_at event)));
     ("generation", JInt (ev_generation event));
     ("type", JStr (event_type event));
     ("data", jmapping (SStr <$> ev_data event))]
    ++ match ev_operation_id event with Some id => [("operation_id", JStr id)] | None => [] end).

Definition _accepted_body (record : OperationRecord) : json :=
  JObj
    [("api_version", JStr API_VERSION);
     ("operation_id", JStr (operation_id record));
     ("state", JStr (state_name (op_st record)));
     ("generation", JInt (generation record));
     ("accepted_at", JStr (_rfc3339 (created_at record)));
     ("status_url", JStr ("/v1/operations/" +:+ operation_id record))].

Record _Response := mkResponse { status : Z; body : json; etag : option string }.

Definition _error_response (c message : string) (details : list (string * json)) (request_id : string) : _Response :=
  mkResponse (default 500 (_STATUS_FOR_CODE c))
    (JObj ([("api_version", JStr API_VERSION);
            ("code", JStr (default c (_CONTRACT_CODE c)));
            ("message", JStr (clip 512 message));
            ("request_id", JStr request_id)]
           ++ match details with [] => [] | _ => [("details", JObj details)] end))
    None.

(** [_from_domain(error)]: its code, message and details. *)
Definition _from_domain (c : domain_error) (e : exn) : string * string * list (string * json) :=
  (domain_code c, exn_msg e,
   match exn_operation_id e with
   | Some id => if bool_decide (id = "") then [] else [("operation_id", JStr id)]
   | None => []
   end).

(** ** The server *)

Record ApiServer := mkApiServer { _token : string; _machine_token : option string }.

(** [ApiServer.__init__] *)
Definition ApiServer_make (service_token : string) (machine_service_token : option string) : result ApiServer :=
  if bool_decide (service_token = "")
  then throw (Builtin ValueError) "a service token is required; the API is never unauthenticated"
  else if bool_decide (machine_service_token = Some "")
  then throw (Builtin ValueError) "machine_service_token must not be empty when provided"
  else Ok (mkApiServer (encode_utf8 service_token) (encode_utf8 <$> machine_service_token)).

Definition unauthenticated {A} : res api_exn A :=
  api_error "UNAUTHENTICATED" "a valid local service credential is required".

Definition authenticate (api : ApiServer) (header : option string) : res api_exn ServiceIdentity :=
  let '(scheme, presented) := match str_partition " " (default "" header) with
                              | Some (a, b) => (a, b) | None => (default "" header, "") end in
  if negb (bool_decide (str_lower scheme = "bearer")) then unauthenticated
  else
    let presented_bytes := encode_utf8 (str_strip presented) in
    if bool_decide (presented_bytes = _token api) then Ok BFF
    else if bool_decide (Some presented_bytes = _machine_token api) then Ok MACHINE
    else unauthenticated.

Section Api.
Context {W : Type} `{WorkerPort W} (env : Env) (json_loads : string -> result json).

Abbreviation D := (OperationDomain W).
Abbreviation AM := (M D api_exn).

(** A call of the domain. *)
Definition domain {A} (m : M D exn A) : AM A := fun d => let p := m d in (p.1, lift_result p.2).

Definition _read {A} (query : M D exn A) : AM A := fun d =>
  match query d with
  | (d, Ok a) => (d, Ok a)
  | (d, Err e) =>
      (d, if is_journal_error e
          then api_error "JOURNAL_UNAVAILABLE" ("the operation journal is unavailable: " +:+ exn_msg e)
          else Err (Raised e))
  | (d, OutOfFuel) => (d, OutOfFuel)
  end.

Definition _timestamp : AM string := t ← domain (_now env); mret (_rfc3339 t).

Definition _liveness : AM json :=
  at_ ← _timestamp;
  mret (JObj [("api_version", JStr API_VERSION); ("live", JBool true); ("observed_at", JStr at_)]).

Definition _system : AM json :=
  at_ ← _timestamp;
  mret (JObj [("api_version", JStr API_VERSION); ("dtr_gate_status", JStr DTR_GATE_STATUS); ("observed_at", JStr at_)]).

Definition readiness_reason (view : MachineSnapshot) : json :=
  if admits_work view then JNull else JStr (clip 256 (ms_reason view)).

Definition _readiness (view : MachineSnapshot) : AM json :=
  at_ ← _timestamp;
  mret (JObj
    [("api_version", JStr API_VERSION);
     ("ready", JBool (admits_work view));
     ("reason", readiness_reason view);
     ("connection_state", JStr (connection_name (connection view)));
     ("fault_state", JStr (fault_name (fault view)));
     ("generation", JInt (ms_generation view));
     ("observed_at", JStr at_)]).

Definition _active_operation (view : MachineSnapshot) : AM json :=
  match active_operation_id view with
  | None => mret JNull
  | Some id =>
      record ← _read (on_journal (operation id));
      mret (match record with Some r => _operation_body r | None => JNull end)
  end.

Definition _faults (view : MachineSnapshot) : AM json :=
  match fault_id view with
  | Some id =>
      if bool_decide (fault view = FaultState.CLEAR) then mret (JArr [])
      else
        opened_at ← match fault_opened_at view with Some t => mret t | None => domain (_now env) end;
        mret (JArr [JObj
          [("fault_id", JStr id);
           ("state", JStr (fault_name (fault view)));
           ("code", JStr "JOURNAL_UNAVAILABLE");
           ("source", JStr "journal");
           ("opened_at", JStr (_rfc3339 opened_at));
           ("message", JStr (clip 512 (ms_reason view)))]])
  | None => mret (JArr [])
  end.

Definition capabilities_body (view : MachineSnapshot) : json :=
  JObj
    [("v2_available", JBool (bool_decide (is_Some (firmware view))));
     ("crc_active", JBool false);
     ("slot_count", JInt (match firmware view with None => 1 | Some f => Z.min (fp_slot_count f) 64 end));
     ("home_available", JBool (match firmware view with Some f => fp_feed_home f || fp_sort_home f | None => false end));
     ("sort_available", JBool (match readiness view with Some r => mr_sort_homed r | None => false end));
     ("feed_available", JBool false);
     ("feed_unavailable_reason", JStr ("the v2 feed lifecycle gate is " +:+ FEED_LIFECYCLE_GATE))].

Definition _machine_snapshot (view : MachineSnapshot) : AM json :=
  active ← _active_operation view;
  faults ← _faults view;
  at_ ← _timestamp;
  mret (JObj
    [("api_version", JStr API_VERSION);
     ("generation", JInt (ms_generation view));
     ("connection_state", JStr (connection_name (connection view)));
     ("fault_state", JStr (fault_name (fault view)));
     ("ready", JBool (admits_work view));
     ("readiness_reason", readiness_reason view);
     ("active_operation", active);
     ("firmware", JObj
        [("protocol_version", JInt (match firmware view with Some _ => 2 | None => 1 end));
         ("capabilities", capabilities_body view)]);
     ("machine", JObj
        [("feed_homed", JBool (match readiness view with Some r => mr_feed_homed r | None => false end));
         ("sort_homed", JBool (match readiness view with Some r => mr_sort_homed r | None => false end));
         ("sorter_slot", JNull)]);
     ("faults", faults);
     ("observed_at", JStr at_)]).

Definition _configuration : AM json :=
  applied ← _read configuration;
  let '(values, g, updated_at) := applied in
  mret (JObj
    [("api_version", JStr API_VERSION);
     ("generation", JInt g);
     ("values", jmapping (SInt <$> as_mapping values));
     ("updated_at", JStr (_rfc3339 updated_at))]).

Definition _operation (id : string) : AM json :=
  record ← _read (on_journal (operation id));
  match record with
  | None => liftR (api_error "RESOURCE_NOT_FOUND" ("operation " +:+ id +:+ " is not retained"))
  | Some r => mret (_operation_body r)
  end.

(** A page of [limit] rows has a next one after its last row. *)
Definition next_cursor (limit : Z) (rows : list (Z * OperationRecord)) : json :=
  if Z.of_nat (length rows) =? limit
  then match last rows with Some (cur, _) => JStr (str_of_Z cur) | None => JNull end
  else JNull.

Definition _operation_page (query : Query) : AM json :=
  limit ← liftR (_bounded_int query "limit" DEFAULT_PAGE_SIZE MAX_PAGE_SIZE);
  cursor ← liftR (_optional_cursor query);
  state ← liftR (_optional_enum state_of query "state");
  a ← liftR (_optional_enum action_of query "type");
  rows ← _read (on_journal (recent_operations limit cursor state a));
  mret (JObj
    [("api_version", JStr API_VERSION);
     ("items", JArr ((fun row => _operation_body row.2) <$> rows));
     ("next_cursor", next_cursor limit rows)]).

(** ** Commands *)

Definition _session_command (path : string) (payload : pydict) (who : Actor) (key : string) (g deadline : Z) : AM OperationRecord :=
  if bool_decide (path = "/v1/session/connect") then
    _ ← liftR (_require_exact_fields payload ["api_version"; "actor"] "connect");
    domain (connect env who key g (BInt deadline))
  else
    _ ← liftR (_require_exact_fields payload ["api_version"; "actor"; "confirm_uncertain_recovery"] "recover");
    confirm ← liftR (field "confirm_uncertain_recovery" payload);
    if negb (match confirm with JBool true => true | _ => false end)
    then liftR (invalid_request "recovery requires confirm_uncertain_recovery to be true")
    else domain (recover env who key g (BInt deadline)).

Definition accepted (record : OperationRecord) : _Response := mkResponse 202 (_accepted_body record) None.

Definition _command (path : string) (headers : gmap string string) (body : string) (identity : ServiceIdentity) : AM _Response :=
  let action := _COMMAND_ACTIONS path in
  if bool_decide (action = None) && negb (bool_decide (path ∈ _SESSION_PATHS)) && negb (bool_decide (path = "/v1/machine/stop"))
  then liftR (api_error "RESOURCE_NOT_FOUND" ("POST " +:+ path +:+ " is not a resource of this API"))
  else
    payload ← liftR (_json_object json_loads body);
    who ← liftR (_commanding_actor payload identity (_command_name path action));
    key ← liftR (_idempotency_key headers);
    deadline ← liftR (_deadline_ms headers);
    if bool_decide (path ∈ _SESSION_PATHS) then
      g ← liftR (_exact_generation headers);
      record ← _session_command path payload who key g deadline;
      mret (accepted record)
    else
      match action with
      | None =>
          _ ← liftR (_require_exact_fields payload ["api_version"; "actor"] "stop");
          g ← liftR (_stop_generation headers);
          record ← domain (stop env who key g (BInt deadline));
          mret (accepted record)
      | Some a =>
          request ← liftR (_command_body a payload);
          g ← liftR (_exact_generation headers);
          record ← domain (submit env a request who key g (BInt deadline));
          mret (accepted record)
      end.

Definition _configure (headers : gmap string string) (body : string) (identity : ServiceIdentity) : AM _Response :=
  payload ← liftR (_json_object json_loads body);
  who ← liftR (_commanding_actor payload identity "configure");
  _ ← liftR (_require_exact_fields payload ["api_version"; "actor"; "changes"] "configuration");
  changes ← liftR (field "changes" payload);
  match changes with
  | JObj ((_ :: _) as l) =>
      values ← liftR (configuration_values (py_dict l));
      key ← liftR (_idempotency_key headers);
      g ← liftR (_exact_generation headers);
      deadline ← liftR (_deadline_ms headers);
      record ← domain (configure env (list_to_map values) who key g (BInt deadline));
      mret (accepted record)
  | _ => liftR (invalid_request "changes must be a non-empty object")
  end.

Definition respond (m : AM json) : AM _Response := b ← m; mret (mkResponse 200 b None).

Definition route (method path : string) (query : Query) (identity : ServiceIdentity) (headers : gmap string string) (body : string)
    : AM _Response :=
  if bool_decide (method = "POST") then _command path headers body identity
  else if bool_decide (method = "PATCH") && bool_decide (path = "/v1/configuration") then _configure headers body identity
  else if negb (bool_decide (method ∈ ["GET"; "HEAD"]))
  then liftR (api_error "RESOURCE_NOT_FOUND" (method +:+ " " +:+ path +:+ " is not available"))
  else if bool_decide (path = "/v1/health/live") then respond _liveness
  else if bool_decide (path = "/v1/system") then respond _system
  else if bool_decide (path = "/v1/health/ready") then respond (view ← domain (refresh_durability env); _readiness view)
  else
    d ← getS;
    let view := m_snapshot (_machine d) in
    if bool_decide (path = "/v1/snapshot") then
      b ← _machine_snapshot view;
      mret (mkResponse 200 b (Some (String dquote "generation:" +:+ str_of_Z (ms_generation view) +:+ String dquote "")))
    else if bool_decide (path = "/v1/events") then
      after ← liftR (_last_event_id headers);
      raise (_StreamRequested after)
    else if bool_decide (path = "/v1/configuration") then respond _configuration
    else if bool_decide (path = "/v1/operations") then respond (_operation_page query)
    else
      match _OPERATION_PATH path with
      | Some id => respond (_operation id)
      | None => liftR (api_error "RESOURCE_NOT_FOUND" (path +:+ " is not a resource of this API"))
      end.

(** ** The handler *)

Definition _request_id (r : HttpRequest) : AM string :=
  let supplied := str_strip (default "" (headers_get "X-Request-ID" r)) in
  if _REQUEST_ID supplied then mret supplied else domain (new_operation_id env).

Definition _read_body (r : HttpRequest) : res api_exn string :=
  match headers_get "Content-Length" r with
  | None => Ok ""
  | Some declared =>
      length ← or_refuse (int_of_text declared) "Content-Length must be an integer";
      if MAX_BODY_BYTES <? length then invalid_request "the request body exceeds the daemon limit"
      else Ok (if length =? 0 then "" else rfile_read length (rfile r))
  end.

(** What the handler sends: a whole reply, or the start of an event stream. *)
Inductive HttpReply :=
| Written (code : Z) (headers : list (string * string)) (payload : string)
| Streaming (after : option Z) (headers : list (string * string)).

Definition _write (response : _Response) (request_id : string) : HttpReply :=
  let payload := dumps (body response) in
  Written (status response)
    ([("Content-Type", "application/json"); ("Content-Length", str_of_Z (slen payload));
      ("X-Request-ID", request_id); ("Cache-Control", "no-store")]
     ++ match etag response with Some e => [("ETag", e)] | None => [] end) payload.

Definition stream_headers (request_id : string) : list (string * string) :=
  [("Content-Type", "text/event-stream"); ("Cache-Control", "no-store"); ("Connection", "close"); ("X-Request-ID", request_id)].

Definition internal_error (request_id : string) : _Response :=
  _error_response "INTERNAL_ERROR" "the daemon could not complete this request" [] request_id.

(** The [try] block of [_Handler._dispatch]. *)
Definition attempt (api : ApiServer) (r : HttpRequest) : AM _Response :=
  identity ← liftR (authenticate api (headers_get "Authorization" r));
  body ← liftR (_read_body r);
  match target r with
  | None => liftR (lift_result (throw (Builtin ValueError) "Invalid IPv6 URL"))
  | Some (path, query) => route (method r) path query identity (lower_headers r) body
  end.

Definition handle_error (e : api_exn) (request_id : string) : HttpReply :=
  match e with
  | _StreamRequested after => Streaming after (stream_headers request_id)
  | ApiError c message details => _write (_error_response c message details request_id) request_id
  | Raised e =>
      match exn_cls e with
      | Domain c => let '(code, message, details) := _from_domain c e in
                    _write (_error_response code message details request_id) request_id
      | _ => _write (internal_error request_id) request_id
      end
  end.

Definition _dispatch (api : ApiServer) (r : HttpRequest) : AM HttpReply :=
  request_id ← _request_id r;
  try_case (attempt api r)
    (fun response => mret (_write response request_id))
    (fun e => mret (handle_error e request_id)).
End Api.
