(* ===== verification/ApiSpec.v ===== *)
(** * What a request may do to the daemon

    A request either only reads, or is exactly one call of the domain that the
    presented credential is entitled to. *)
From S2P Require Import Prelude PyString Errors IsoTime Json JsonText Operations Models Session Machine Journal JournalSpec.
From S2P Require Import Configuration Adapters Events Domain DomainSpec Http Api.

(** ** Credentials *)

(** The header presents the bearer secret whose UTF-8 bytes are [token]. *)
Definition bearer (header : option string) (token : string) : Prop :=
  exists scheme presented, header = Some (scheme +:+ String " " presented) /\ str_lower scheme = "bearer"
    /\ encode_utf8 (str_strip presented) = token.

(** A server built by [ApiServer.__init__] has no empty secret. *)
Definition server_ok (api : ApiServer) : Prop := _token api <> "" /\ _machine_token api <> Some "".

Lemma utf8_empty s : encode_utf8 s = "" -> s = "".
Proof. destruct s as [|c s]; [done|]. simpl. by destruct (code c <? 128). Qed.

Lemma server_make_ok t m api : ApiServer_make t m = Ok api -> server_ok api.
Proof.
  unfold ApiServer_make. case_bool_decide as Ht; [done|]. case_bool_decide as Hm; [done|]. intros [= <-]. split; simpl.
  - intros H. by apply utf8_empty in H.
  - destruct m as [m|]; [|done]. simpl. intros [= H]. apply Hm. by rewrite (utf8_empty m).
Qed.

Lemma partition_spec c s a b : str_partition c s = Some (a, b) -> s = a +:+ String c b.
Proof.
  revert a. induction s as [|d s IH]; intros a; simpl; [done|]. destruct (Ascii.eqb_spec d c) as [->|Hd].
  - by intros [= <- <-].
  - destruct (str_partition c s) as [[a' b']|]; [|done]. intros [= <- <-]. rewrite str_app_cons. f_equal. by apply IH.
Qed.

Lemma partition_app c s t : str_forall (fun d => negb (Ascii.eqb d c)) s = true -> str_partition c (s +:+ String c t) = Some (s, t).
Proof.
  induction s as [|d s IH]; [intros _; change ("" +:+ String c t) with (String c t); cbn [str_partition]; by rewrite Ascii.eqb_refl|].
  rewrite str_app_cons. cbn [str_partition str_forall]. intros [Hd Hs]%andb_true_iff. apply negb_true_iff in Hd. rewrite Hd. by rewrite IH.
Qed.
Lemma lower_space s : str_forall (fun d => negb (Ascii.eqb d " ")) (str_lower s) = true -> str_forall (fun d => negb (Ascii.eqb d " ")) s = true.
Proof.
  induction s as [|d s IH]; cbn [str_forall str_lower]; [done|]. intros [Hd Hs]%andb_true_iff. rewrite IH by done. rewrite andb_true_r.
  destruct (Ascii.eqb_spec d " ") as [->|]; [by vm_compute in Hd|done].
Qed.

(** The request carries the secret of [identity]. *)
Definition carries (api : ApiServer) (header : option string) (identity : ServiceIdentity) : Prop :=
  match identity with
  | BFF => bearer header (_token api)
  | MACHINE => exists t, _machine_token api = Some t /\ t <> _token api /\ bearer header t
  end.

Lemma authenticate_bearer api header : server_ok api ->
  authenticate api header =
    match header with
    | Some h => match str_partition " " h with
                | Some (scheme, presented) =>
                    if bool_decide (str_lower scheme = "bearer")
                    then let t := encode_utf8 (str_strip presented) in
                         if bool_decide (t = _token api) then Ok BFF
                         else if bool_decide (Some t = _machine_token api) then Ok MACHINE else unauthenticated
                    else unauthenticated
                | None => unauthenticated
                end
    | None => unauthenticated
    end.
Proof.
  intros [Ht Hm]. unfold authenticate. destruct header as [h|]; cbn [from_option id]; [|done].
  destruct (str_partition " " h) as [[scheme presented]|]; [by case_bool_decide|]. case_bool_decide; [|done]. cbn [negb].
  change (encode_utf8 (str_strip "")) with "". rewrite bool_decide_false by done. rewrite bool_decide_false; [done|]. intros E. by apply Hm.
Qed.

Lemma authenticate_iff api header id : server_ok api -> authenticate api header = Ok id <-> carries api header id.
Proof.
  intros Hs. rewrite (authenticate_bearer api header Hs). split.
  - destruct header as [h|]; [|done]. destruct (str_partition " " h) as [[scheme presented]|] eqn:Ep; [|done]. apply partition_spec in Ep as ->.
    case_bool_decide as Hb; [|done]. cbv zeta. case_bool_decide as Ht; [intros [= <-]; by exists scheme, presented|].
    case_bool_decide as Hm; [|done]. intros [= <-]. exists (encode_utf8 (str_strip presented)). split_and!; [done|done|]. by exists scheme, presented.
  - assert (forall t, bearer header t -> exists scheme presented, header = Some (scheme +:+ String " " presented)
      /\ str_partition " " (scheme +:+ String " " presented) = Some (scheme, presented) /\ str_lower scheme = "bearer" /\ encode_utf8 (str_strip presented) = t) as Hp.
    { intros t (scheme & presented & -> & Hl & He). exists scheme, presented. split_and!; try done. apply partition_app, lower_space. by rewrite Hl. }
    destruct id; cbn [carries].
    + intros (scheme & presented & -> & -> & Hl & He)%Hp. rewrite bool_decide_true by done. cbv zeta. by rewrite bool_decide_true.
    + intros (t & Hm & Hn & (scheme & presented & -> & -> & Hl & He)%Hp). rewrite bool_decide_true by done. cbv zeta.
      rewrite bool_decide_false by congruence. rewrite bool_decide_true by congruence. done.
Qed.

(** ** What a request asks for *)

Section Asks.
Context (json_loads : string -> result json).

(** The members that every command carries. *)
Definition body_of {T} (r : Request T) (body : string) : Prop :=
  match headers_get "Content-Length" r with
  | None => body = ""
  | Some t => exists n, int_of_text t = Ok n /\ n <= 65536 /\ body = if n =? 0 then "" else rfile_read n (rfile r)
  end.
Definition object_of (body : string) (payload : pydict) : Prop :=
  body <> "" /\ exists l, json_loads body = Ok (JObj l) /\ payload = py_dict l /\ obj_get "api_version" payload = Some (JStr "v1").

(** The actor of a payload, who may give [command] with the secret of [identity]. *)
Definition commanded_by (identity : ServiceIdentity) (command : string) (payload : pydict) (who : Actor) : Prop :=
  exists l u, obj_get "actor" payload = Some (JObj l) /\ obj_keys (py_dict l) = {["user_id"; "role"]}
    /\ obj_get "user_id" (py_dict l) = Some u /\ obj_get "role" (py_dict l) = Some (JStr (role who))
    /\ Actor_make (py_str u) (role who) = Ok who /\ role who ∈ ["operator"; "administrator"; "machine"]
    /\ (role who = "machine" <-> identity = MACHINE) /\ (role who = "machine" -> command = "sort").

Definition keyed (h : gmap string string) (key : string) : Prop :=
  h !! "idempotency-key" = Some key /\ 16 <= slen key <= 128 /\ str_forall api_key_char key = true.
Definition timed (h : gmap string string) (ms : Z) : Prop :=
  exists t, h !! "x-deadline-ms" = Some t /\ int_of_text t = Ok ms /\ 1 <= ms <= 120000.
Definition observed (h : gmap string string) (g : Z) : Prop :=
  exists t, h !! "if-match-generation" = Some t /\ _EXACT_GENERATION t = true /\ int_of_text t = Ok g.
Definition observed_or_any (h : gmap string string) (g : option Z) : Prop :=
  match g with None => h !! "if-match-generation" = Some "*" | Some g => observed h g end.

Definition exactly (payload : pydict) (fields : list string) : Prop := obj_keys payload = list_to_set fields.

(** [asks identity r c]: the request [r], from the holder of [identity]'s secret, says [c]. *)
Inductive asks (identity : ServiceIdentity) (r : HttpRequest) : domain_call -> Prop :=
| asks_home query body payload who key ms g axis :
    method r = "POST" -> target r = Some ("/v1/operations/home", query) ->
    body_of r body -> object_of body payload -> commanded_by identity "home" payload who ->
    keyed (lower_headers r) key -> timed (lower_headers r) ms -> observed (lower_headers r) g ->
    exactly payload ["api_version"; "actor"; "target"] -> obj_get "target" payload = Some (JStr axis) ->
    asks identity r (DSubmit OperationAction.HOME {["axis" := BStr axis]} who key g (BInt ms))
| asks_sort query body payload who key ms g slot :
    method r = "POST" -> target r = Some ("/v1/operations/sort", query) ->
    body_of r body -> object_of body payload -> commanded_by identity "sort" payload who ->
    keyed (lower_headers r) key -> timed (lower_headers r) ms -> observed (lower_headers r) g ->
    exactly payload ["api_version"; "actor"; "slot"] -> obj_get "slot" payload = Some (JInt slot) -> 0 <= slot <= 63 ->
    asks identity r (DSubmit OperationAction.SORT {["slot" := BInt slot]} who key g (BInt ms))
| asks_feed query body payload who key ms g :
    method r = "POST" -> target r = Some ("/v1/operations/feed", query) ->
    body_of r body -> object_of body payload -> commanded_by identity "feed" payload who ->
    keyed (lower_headers r) key -> timed (lower_headers r) ms -> observed (lower_headers r) g ->
    exactly payload ["api_version"; "actor"] ->
    asks identity r (DSubmit OperationAction.FEED {["slot" := BInt 0]} who key g (BInt ms))
| asks_connect query body payload who key ms g :
    method r = "POST" -> target r = Some ("/v1/session/connect", query) ->
    body_of r body -> object_of body payload -> commanded_by identity "connect" payload who ->
    keyed (lower_headers r) key -> timed (lower_headers r) ms -> observed (lower_headers r) g ->
    exactly payload ["api_version"; "actor"] ->
    asks identity r (DConnect who key g (BInt ms))
| asks_recover query body payload who key ms g :
    method r = "POST" -> target r = Some ("/v1/session/recover", query) ->
    body_of r body -> object_of body payload -> commanded_by identity "recover" payload who ->
    keyed (lower_headers r) key -> timed (lower_headers r) ms -> observed (lower_headers r) g ->
    exactly payload ["api_version"; "actor"; "confirm_uncertain_recovery"] ->
    obj_get "confirm_uncertain_recovery" payload = Some (JBool true) ->
    asks identity r (DRecover who key g (BInt ms))
| asks_stop query body payload who key ms g :
    method r = "POST" -> target r = Some ("/v1/machine/stop", query) ->
    body_of r body -> object_of body payload -> commanded_by identity "stop" payload who ->
    keyed (lower_headers r) key -> timed (lower_headers r) ms -> observed_or_any (lower_headers r) g ->
    exactly payload ["api_version"; "actor"] ->
    asks identity r (DStop who key g (BInt ms))
| asks_configure query body payload who key ms g l (values : list (string * Z)) :
    method r = "PATCH" -> target r = Some ("/v1/configuration", query) ->
    body_of r body -> object_of body payload -> commanded_by identity "configure" payload who ->
    keyed (lower_headers r) key -> timed (lower_headers r) ms -> observed (lower_headers r) g ->
    exactly payload ["api_version"; "actor"; "changes"] -> obj_get "changes" payload = Some (JObj l) ->
    l <> [] -> py_dict l = (fun kv => (kv.1, JInt kv.2)) <$> values ->
    asks identity r (DConfigure (list_to_map ((fun kv => (kv.1, BInt kv.2)) <$> values)) who key g (BInt ms)).

(** ** The decoders accept exactly that *)

Lemma read_body_iff (r : HttpRequest) body : _read_body r = Ok body <-> body_of r body.
Proof.
  unfold _read_body, body_of, or_refuse, MAX_BODY_BYTES. destruct (headers_get _ r) as [t|]; [|split; [by intros [= <-]|by intros ->]].
  destruct (int_of_text t) as [n|e|]; cbn [mbind res_bind].
  - change (64 * 1024) with 65536. destruct (Z.ltb_spec 65536 n) as [H|H]; [split; [done|intros (m & [= <-] & ? & _); lia]|].
    split; [by intros [= <-]; exists n|by intros (m & [= <-] & _ & ->)].
  - split; [by destruct (isinstance e _)|by intros (m & ? & _)].
  - split; [done|by intros (m & ? & _)].
Qed.

Lemma json_object_iff body payload : _json_object json_loads body = Ok payload <-> object_of body payload.
Proof.
  unfold _json_object, object_of. case_bool_decide as Hb; [by split; [done|intros []]|].
  destruct (json_loads body) as [v|e|]; [|split; [by destruct (isinstance e _)|by intros (_ & l & ? & _)]|split; [done|by intros (_ & l & ? & _)]].
  destruct v as [|b|n|t|s|l|l]; try (split; [done|by intros (_ & l' & [=] & _)]).
  destruct (obj_get "api_version" (py_dict l)) as [v|] eqn:Ev; [|split; [done|intros (_ & l' & [= <-] & -> & H); by rewrite Ev in H]].
  unfold is_str, API_VERSION. destruct v as [| | | |s| |]; try (split; [done|intros (_ & l' & [= <-] & -> & H); by rewrite Ev in H]).
  case_bool_decide as Hs; [|split; [done|intros (_ & l' & [= <-] & -> & H); by rewrite Ev in H; injection H as ->]].
  subst s. split; [intros [= <-]; split; [done|by exists l]|by intros (_ & l' & [= <-] & -> & _)].
Qed.

Lemma role_in (v : json) roles : in_roles v roles = Ok true -> exists s, v = JStr s /\ s ∈ roles.
Proof. destruct v as [|b|n|t|s|l|l]; try done. simpl. intros [= H]. apply bool_decide_eq_true in H. by exists s. Qed.

Lemma actor_make_ok u r who : Actor_make u r = Ok who -> actor_ok who /\ role who = r.
Proof.
  intros H. assert (who = mkActor u r) as ->; [|done]. revert H. unfold Actor_make.
  destruct (_require_token u _); [|done..]. destruct (_require_token r _); [|done..]. by intros [= <-].
Qed.

Lemma commanding_actor_iff payload identity command who :
  _commanding_actor payload identity command = Ok who <-> commanded_by identity command payload who.
Proof.
  unfold _commanding_actor, commanded_by. split.
  - destruct (obj_get "actor" payload) as [[]|]; try done.
    destruct (obj_get "user_id" _) as [u|] eqn:Eu; [|done]. destruct (obj_get "role" _) as [r|] eqn:Er; [|done].
    case_bool_decide as Hk; [|done]. destruct (in_roles r API_ROLES) as [[]|e|]; [|done..]. cbn [lift_result mbind res_bind negb].
    destruct (negb (Bool.eqb _ _)) eqn:Ei; [done|]. destruct (is_str r MACHINE_ROLE && _) eqn:Em; [done|].
    destruct (in_roles r COMMANDING_ROLES) as [[]|e|] eqn:Ec; [|done..]. cbn [lift_result mbind res_bind negb].
    apply role_in in Ec as (s & -> & Hs). cbn [py_str is_str] in *.
    destruct (Actor_make (py_str u) s) as [a|e|] eqn:Ea; [|by destruct (isinstance e _)|done]. intros [= <-].
    destruct (actor_make_ok _ _ _ Ea) as [_ Hr]. bool_inv. apply eqb_prop in Ei. exists l, u. rewrite Hr. split_and!; try done.
    + split; intros E; [rewrite (bool_decide_true (s = MACHINE_ROLE)) in Ei by done; symmetry in Ei; by apply bool_decide_eq_true in Ei|].
      rewrite (bool_decide_true (identity = MACHINE)) in Ei by done. by apply bool_decide_eq_true in Ei.
    + intros E. rewrite (bool_decide_true (s = MACHINE_ROLE)) in Em by done. simpl in Em. by apply negb_false_iff, bool_decide_eq_true in Em.
  - intros (l & u & -> & Hk & Hu & Hr & Ha & Hc & Hi & Hs). cbv zeta. rewrite Hu, Hr, bool_decide_true by done. cbn [negb in_roles].
    rewrite (bool_decide_true (role who ∈ API_ROLES)) by (apply elem_of_cons; by right). cbn [lift_result mbind res_bind negb is_str py_str].
    rewrite (bool_decide_ext (role who = MACHINE_ROLE) (identity = MACHINE)) by done. rewrite Bool.eqb_reflx. cbn [negb].
    replace (bool_decide (identity = MACHINE) && _) with false; cycle 1.
    { symmetry. destruct (decide (identity = MACHINE)) as [Hm|Hm]; [|by rewrite bool_decide_false].
      rewrite (bool_decide_true (command = _)) by (by apply Hs, Hi). by rewrite andb_false_r. }
    rewrite (bool_decide_true (role who ∈ COMMANDING_ROLES)) by done. cbn [lift_result mbind res_bind negb]. by rewrite Ha.
Qed.

Lemma key_iff h key : _idempotency_key h = Ok key <-> keyed h key.
Proof.
  unfold _idempotency_key, keyed, header, api_key_syntax. destruct (h !! "idempotency-key") as [t|]; cbn [from_option id].
  - destruct ((16 <=? slen t) && (slen t <=? 128) && str_forall api_key_char t) eqn:E; cbn [negb].
    + bool_inv. split; [intros [= <-]; split_and!; [done|lia|lia|done]|by intros ([= ->] & _)].
    + split; [done|]. intros ([= ->] & [? ?] & Hf). rewrite Hf, andb_true_r in E. apply andb_false_iff in E as [E|E]; bool_inv; lia.
  - by split; [|intros []].
Qed.

Lemma deadline_iff h ms : _deadline_ms h = Ok ms <-> timed h ms.
Proof.
  unfold _deadline_ms, timed, header, MAX_CONTRACT_DEADLINE_MS. destruct (h !! "x-deadline-ms") as [t|]; cbn [from_option id].
  - destruct (int_of_text t) as [n|e|] eqn:Et.
    + destruct ((1 <=? n) && (n <=? 120000)) eqn:E; cbn [negb]; bool_inv.
      * split; [intros [= <-]; exists t; split_and!; [done|done|lia|lia]|]. intros (t' & [= <-] & Ht & _). congruence.
      * split; [done|]. intros (t' & [= <-] & Ht & ?). rewrite Et in Ht. injection Ht as ->. apply andb_false_iff in E as [E|E]; bool_inv; lia.
    + split; [by destruct (isinstance e _)|intros (t' & [= <-] & Ht & _); congruence].
    + split; [done|intros (t' & [= <-] & Ht & _); congruence].
  - split; [done|by intros (t & ? & _)].
Qed.

Lemma exact_generation_iff h g : _exact_generation h = Ok g <-> observed h g.
Proof.
  unfold _exact_generation, observed, header. destruct (h !! "if-match-generation") as [t|]; cbn [from_option id].
  - destruct (_EXACT_GENERATION t) eqn:E; cbn [negb]; [|split; [done|intros (t' & [= <-] & ? & _); congruence]].
    destruct (int_of_text t) as [n|e|] eqn:En; cbn [lift_result]; [split; [intros [= <-]; by exists t|intros (t' & [= <-] & _ & Ht); congruence]| |];
      (split; [done|intros (t' & [= <-] & _ & Ht); congruence]).
  - split; [done|by intros (t & ? & _)].
Qed.

Lemma stop_generation_iff h g : _stop_generation h = Ok g <-> observed_or_any h g.
Proof.
  unfold _stop_generation. pose proof (exact_generation_iff h) as Hx. case_bool_decide as Hs.
  - assert (h !! "if-match-generation" = Some "*") as Hh by (unfold header in Hs; destruct (h !! _); cbn in Hs; [by subst|done]).
    split; [by intros [= <-]|]. destruct g as [g|]; [|done]. intros (t & Ht & He & _). rewrite Hh in Ht. by injection Ht as <-.
  - assert (h !! "if-match-generation" <> Some "*") as Hh by (intros E; apply Hs; unfold header; by rewrite E).
    destruct (_exact_generation h) as [n|e|]; cbn [mbind res_bind]; (split; [first [intros [= <-]; by apply Hx|done]|]);
      (destruct g as [g|]; [intros Hg; by apply Hx in Hg as [= ->]|done]).
Qed.

Lemma fields_iff payload allowed name : _require_exact_fields payload allowed name = Ok tt <-> exactly payload allowed.
Proof. unfold _require_exact_fields, exactly. by case_bool_decide. Qed.

Lemma values_iff changes values : configuration_values changes = Ok values
  <-> exists vs, changes = (fun kv : string * Z => (kv.1, JInt kv.2)) <$> vs /\ values = (fun kv => (kv.1, BInt kv.2)) <$> vs.
Proof.
  revert values. induction changes as [|[k v] changes IH]; intros values; cbn [configuration_values].
  - split; [intros [= <-]; by exists []|]. by intros ([|] & [=] & ->).
  - destruct v as [|b|n|t|s|l|l]; cbn [_configuration_value mbind res_bind]; try (split; [done|by intros ([|[] vs] & [=] & _)]).
    destruct (configuration_values changes) as [vs|e|]; cbn [mbind res_bind].
    + destruct (proj1 (IH vs) eq_refl) as (l & -> & ->). split; [intros [= <-]; by exists ((k, n) :: l)|].
      intros ([|[k' n'] l'] & [= -> -> Hl] & ->). by specialize (proj2 (IH _) (ex_intro _ l' (conj Hl eq_refl))) as [= ->].
    + split; [done|]. intros ([|[k' n'] l'] & [= -> -> Hl] & ->). by specialize (proj2 (IH _) (ex_intro _ l' (conj Hl eq_refl))).
    + split; [done|]. intros ([|[k' n'] l'] & [= -> -> Hl] & ->). by specialize (proj2 (IH _) (ex_intro _ l' (conj Hl eq_refl))).
Qed.
End Asks.

Section Spec.
Context {W : Type} `{WorkerPort W} (env : Env) (json_loads : string -> result json).
Abbreviation D := (OperationDomain W).
Abbreviation DM := (M D exn).
Abbreviation AM := (M D api_exn).

(** ** Requests that only read *)

(** A reading of the clock or the UUID source, a read of the journal, or a durability check. *)
Inductive quiet : relation D :=
| q_env d r u c : quiet d (set_counters r u c d)
| q_read {A} d (m : JM A) : reads_only m -> quiet d (set_journal (m (_journal d)).1 d)
| q_refresh d : quiet d (refresh_durability env d).1.

Definition quietly {A} (m : AM A) : Prop := forall d, rtc quiet d (m d).1.

Lemma quietly_bind {A B} (m : AM A) (f : A -> AM B) : quietly m -> (forall a, quietly (f a)) -> quietly (m ≫= f).
Proof.
  intros Hm Hf d. unfold mbind, M_bind. specialize (Hm d). destruct (m d) as [d' [a|e|]]; simpl in *; [|done..].
  etrans; [done|]. apply Hf.
Qed.
Lemma quietly_ret {A} (a : A) : quietly (mret a).
Proof. intros d. apply rtc_refl. Qed.
Lemma quietly_lift {A} (r : res api_exn A) : quietly (liftR r).
Proof. intros d. apply rtc_refl. Qed.
Lemma quietly_raise {A} e : quietly (raise (A:=A) e).
Proof. intros d. apply rtc_refl. Qed.
Lemma quietly_get {A} (f : D -> AM A) : (forall d, quietly (f d)) -> quietly (getS ≫= f).
Proof. intros Hf d. apply (Hf d d). Qed.
Lemma quietly_now : quietly (domain (_now env)).
Proof. intros d. apply rtc_once, q_env. Qed.
Lemma quietly_uuid : quietly (domain (new_operation_id env)).
Proof. intros d. apply rtc_once, q_env. Qed.
Lemma quietly_refresh : quietly (domain (refresh_durability env)).
Proof. intros d. apply rtc_once, q_refresh. Qed.

(** The state a query leaves does not depend on how its errors are reported. *)
Lemma read_state {A} (q : DM A) d : (_read q d).1 = (q d).1.
Proof. unfold _read. by destruct (q d) as [d' [a|e|]]. Qed.

Lemma quietly_query {A} (m : JM A) : reads_only m -> quietly (_read (on_journal m)).
Proof. intros Hm d. rewrite read_state. by apply rtc_once, q_read. Qed.

Lemma quietly_configuration_query : quietly (_read configuration).
Proof.
  intros d. rewrite read_state. unfold configuration, on_journal, mbind, M_bind, getS, liftR, mret, M_ret.
  pose proof (q_read d applied_configuration ro_applied) as Hq. destruct (applied_configuration (_journal d)) as [j [[[[v g] t]|]|e|]];
    simpl in *; try (by apply rtc_once). destruct (from_mapping v); by apply rtc_once.
Qed.

#[local] Hint Resolve quietly_ret quietly_lift quietly_raise quietly_now quietly_uuid quietly_refresh quietly_query
  quietly_configuration_query ro_operation ro_recent : cs71.

(** Walks a handler along its structure. *)
Ltac quiet_step :=
  cbv zeta;
  match goal with
  | |- quietly (getS ≫= _) => apply quietly_get; intros
  | |- quietly (_ ≫= _) => apply quietly_bind; [|intros]
  | |- quietly (if ?b then _ else _) => destruct b
  | |- quietly (match ?x with _ => _ end) => destruct x
  | |- quietly _ => solve [eauto with cs71]
  end.
Ltac quiet_steps := repeat quiet_step.

Lemma quietly_timestamp : quietly (_timestamp env).
Proof. unfold _timestamp. quiet_steps. Qed.
#[local] Hint Resolve quietly_timestamp : cs71.
Lemma quietly_active view : quietly (_active_operation (W:=W) view).
Proof. unfold _active_operation. quiet_steps. Qed.
Lemma quietly_faults view : quietly (_faults (W:=W) env view).
Proof. unfold _faults. quiet_steps. Qed.
#[local] Hint Resolve quietly_active quietly_faults : cs71.
Lemma quietly_snapshot view : quietly (_machine_snapshot (W:=W) env view).
Proof. unfold _machine_snapshot. quiet_steps. Qed.
Lemma quietly_page query : quietly (_operation_page (W:=W) query).
Proof. unfold _operation_page. quiet_steps. Qed.
Lemma quietly_operation id : quietly (_operation (W:=W) id).
Proof. unfold _operation. quiet_steps. Qed.
Lemma quietly_configuration : quietly (_configuration (W:=W)).
Proof. unfold _configuration. quiet_steps. Qed.
#[local] Hint Resolve quietly_snapshot quietly_page quietly_operation quietly_configuration : cs71.

(** ** Requests that command *)

(** [m] only reads, or is one call of the domain with [P]. *)
Definition acts {A} (P : domain_call -> Prop) (m : AM A) : Prop :=
  forall d, rtc quiet d (m d).1 \/ exists c, P c /\ (m d).1 = run_domain env c d.

Lemma acts_quietly {A} P (m : AM A) : quietly m -> acts P m.
Proof. intros Hm d. left. apply Hm. Qed.

Lemma acts_lift {A B} P (r : res api_exn A) (f : A -> AM B) : (forall a, r = Ok a -> acts P (f a)) -> acts P (liftR r ≫= f).
Proof. intros Hf d. unfold mbind, M_bind, liftR. destruct r as [a|e|]; [by apply Hf|by left..]. Qed.

(** A call whose result is only turned into a reply. *)
Lemma acts_call {A B} (P : domain_call -> Prop) (m : DM A) (f : A -> AM B) c : P c -> (forall d, (m d).1 = run_domain env c d) ->
  (forall a d, (f a d).1 = d) -> acts P (domain m ≫= f).
Proof.
  intros Hc Hm Hf d. right. exists c. split; [done|]. unfold mbind, M_bind, domain. rewrite <- Hm.
  destruct (m d) as [d' [a|e|]]; simpl; [apply Hf|done..].
Qed.
Lemma acts_whole {A} (P : domain_call -> Prop) (m : DM A) c : P c -> (forall d, (m d).1 = run_domain env c d) -> acts P (domain m).
Proof. intros Hc Hm d. right. exists c. split; [done|]. unfold domain. simpl. apply Hm. Qed.
Lemma acts_answer {A B} P (m : AM A) (f : A -> AM B) : acts P m -> (forall a d, (f a d).1 = d) -> acts P (m ≫= f).
Proof.
  intros Hm Hf d. unfold mbind, M_bind. specialize (Hm d). destruct (m d) as [d' [a|e|]]; simpl in *; [by rewrite Hf|done..].
Qed.

(** *** No call is made but the one that is asked for *)

Lemma action_path path a : _COMMAND_ACTIONS path = Some a ->
  path = "/v1/operations/home" /\ a = OperationAction.HOME \/ path = "/v1/operations/sort" /\ a = OperationAction.SORT
  \/ path = "/v1/operations/feed" /\ a = OperationAction.FEED.
Proof. unfold _COMMAND_ACTIONS. repeat case_bool_decide; intros [= <-]; auto. Qed.
Lemma action_name path a : _COMMAND_ACTIONS path = Some a -> path ∉ _SESSION_PATHS.
Proof.
  intros Ha Hp. unfold _SESSION_PATHS in Hp. rewrite !elem_of_cons, elem_of_nil in Hp. by destruct Hp as [-> | [-> | []]].
Qed.

Section Sound.
Context (identity : ServiceIdentity) (r : HttpRequest) (query : Query) (body : string) (payload : pydict) (who : Actor).
Abbreviation headers := (lower_headers r).
Context (Hbody : body_of r body) (Hpayload : object_of json_loads body payload).

Lemma acts_session path key g ms : method r = "POST" -> target r = Some (path, query) -> path ∈ _SESSION_PATHS ->
  commanded_by identity (_command_name path None) payload who -> keyed headers key -> timed headers ms -> observed headers g ->
  acts (asks json_loads identity r) (_session_command env path payload who key g ms).
Proof.
  intros Hm Ht Hp Hw Hk Hd Hg. unfold _session_command, _command_name in *. case_bool_decide as Hc.
  - subst path. apply acts_lift. intros [] Hf%fields_iff.
    apply (acts_whole _ _ (DConnect who key g (BInt ms))); [|done]. by eapply asks_connect.
  - assert (path = "/v1/session/recover") as -> by (unfold _SESSION_PATHS in Hp; rewrite !elem_of_cons, elem_of_nil in Hp; tauto).
    apply acts_lift. intros [] Hf%fields_iff. apply acts_lift. intros v. unfold field.
    destruct (obj_get "confirm_uncertain_recovery" payload) as [v'|] eqn:Ev; [|done]. intros [= ->].
    destruct v as [|[]| | | | |]; try (apply acts_quietly, quietly_lift).
    apply (acts_whole _ _ (DRecover who key g (BInt ms))); [|done]. by eapply asks_recover.
Qed.

Lemma acts_submit path a request key g ms : method r = "POST" -> target r = Some (path, query) -> _COMMAND_ACTIONS path = Some a ->
  commanded_by identity (OperationAction.value a) payload who -> keyed headers key -> timed headers ms -> observed headers g ->
  _command_body a payload = Ok request ->
  asks json_loads identity r (DSubmit a request who key g (BInt ms)).
Proof.
  intros Hm Ht Ha Hw Hk Hd Hg. unfold _command_body, field.
  destruct (action_path _ _ Ha) as [[-> ->]|[[-> ->]|[-> ->]]]; destruct (_require_exact_fields payload _ _) as [[]|e|] eqn:Hf; try done;
    apply fields_iff in Hf; cbn [mbind res_bind].
  - destruct (obj_get "target" payload) as [v|] eqn:Ev; [|done]. destruct v as [| | | |axis| |]; cbn [mbind res_bind]; try done.
    intros [= <-]. by eapply asks_home.
  - destruct (obj_get "slot" payload) as [v|] eqn:Ev; [|done]. destruct v as [| |n| | | |]; try done. cbn [mbind res_bind _api_slot].
    unfold MAX_API_SLOT. destruct ((0 <=? n) && (n <=? 63)) eqn:E; cbn [negb mbind res_bind]; [|done]. bool_inv. intros [= <-]. by eapply asks_sort.
  - intros [= <-]. by eapply asks_feed.
Qed.
End Sound.

Lemma acts_command path query body identity (r : HttpRequest) : method r = "POST" -> target r = Some (path, query) -> body_of r body ->
  acts (asks json_loads identity r) (_command env json_loads path (lower_headers r) body identity).
Proof.
  intros Hm Ht Hbody. unfold _command. cbv zeta. destruct (_ && _ && _) eqn:Ep; [apply acts_quietly, quietly_lift|].
  apply acts_lift. intros payload Hpayload%json_object_iff. apply acts_lift. intros who Hw%commanding_actor_iff.
  apply acts_lift. intros key Hk%key_iff. apply acts_lift. intros ms Hd%deadline_iff.
  destruct (bool_decide (path ∈ _SESSION_PATHS)) eqn:Hs; bool_inv.
  - apply acts_lift. intros g Hg%exact_generation_iff. apply acts_answer; [|done].
    destruct (_COMMAND_ACTIONS path) eqn:Ea; [by apply action_name in Ea|]. by eapply acts_session.
  - destruct (_COMMAND_ACTIONS path) as [a|] eqn:Ea.
    + apply acts_lift. intros request Hr. apply acts_lift. intros g Hg%exact_generation_iff.
      apply (acts_call _ _ _ (DSubmit a request who key g (BInt ms))); [|done|done]. by eapply acts_submit.
    + apply acts_lift. intros [] Hf%fields_iff. apply acts_lift. intros g Hg%stop_generation_iff.
      apply (acts_call _ _ _ (DStop who key g (BInt ms))); [|done|done]. cbn in Ep. bool_inv. subst path.
      by eapply asks_stop.
Qed.

Lemma acts_configure query body identity (r : HttpRequest) : method r = "PATCH" -> target r = Some ("/v1/configuration", query) ->
  body_of r body -> acts (asks json_loads identity r) (_configure env json_loads (lower_headers r) body identity).
Proof.
  intros Hm Ht Hbody. unfold _configure. apply acts_lift. intros payload Hpayload%json_object_iff.
  apply acts_lift. intros who Hw%commanding_actor_iff. apply acts_lift. intros [] Hf%fields_iff.
  apply acts_lift. intros changes. unfold field. destruct (obj_get "changes" payload) as [v|] eqn:Ev; [|done]. intros [= ->].
  destruct changes as [|b|n|t|s|l|[|kv l]]; try (apply acts_quietly, quietly_lift).
  apply acts_lift. intros values (vs & Hvs & ->)%values_iff. apply acts_lift. intros key Hk%key_iff.
  apply acts_lift. intros g Hg%exact_generation_iff. apply acts_lift. intros ms Hd%deadline_iff.
  eapply acts_call; [by eapply asks_configure|done|done].
Qed.

Lemma acts_attempt api r identity d : authenticate api (headers_get "Authorization" r) = Ok identity ->
  let d' := (attempt env json_loads api r d).1 in rtc quiet d d' \/ exists c, asks json_loads identity r c /\ d' = run_domain env c d.
Proof.
  intros Hau. unfold attempt. rewrite Hau. unfold mbind at 1, M_bind at 1, liftR at 1.
  unfold mbind at 1, M_bind at 1, liftR at 1. destruct (_read_body r) as [b|e|] eqn:Hb; [|by left..]. apply read_body_iff in Hb.
  destruct (target r) as [[path query]|] eqn:Ht; [|by left]. unfold route.
  case_bool_decide as Hm; [by eapply acts_command|]. destruct (_ && bool_decide (path = _)) eqn:Hp.
  { bool_inv. subst path. by eapply acts_configure. }
  left. revert d. match goal with |- forall d, rtc quiet d (?m d).1 => enough (quietly m) as Hq by exact Hq end.
  unfold respond, _liveness, _system, _readiness. quiet_steps.
Qed.

(** *** What is asked for is done *)

Lemma lift_ok {A B} (x : res api_exn A) (f : A -> AM B) a d : x = Ok a -> (liftR x ≫= f) d = f a d.
Proof. by intros ->. Qed.
Ltac asked :=
  repeat match goal with
  | H : authenticate _ _ = Ok _ |- _ => rewrite (lift_ok _ _ _ _ H); clear H
  | H : body_of _ _ |- _ => rewrite (lift_ok _ _ _ _ (proj2 (read_body_iff _ _) H)); clear H
  | H : object_of _ _ _ |- _ => rewrite (lift_ok _ _ _ _ (proj2 (json_object_iff _ _ _) H)); clear H
  | H : commanded_by _ _ _ _ |- _ => rewrite (lift_ok _ _ _ _ (proj2 (commanding_actor_iff _ _ _ _) H)); clear H
  | H : keyed _ _ |- _ => rewrite (lift_ok _ _ _ _ (proj2 (key_iff _ _) H)); clear H
  | H : timed _ _ |- _ => rewrite (lift_ok _ _ _ _ (proj2 (deadline_iff _ _) H)); clear H
  | H : observed _ _ |- _ => rewrite (lift_ok _ _ _ _ (proj2 (exact_generation_iff _ _) H)); clear H
  | H : observed_or_any _ _ |- _ => rewrite (lift_ok _ _ _ _ (proj2 (stop_generation_iff _ _) H)); clear H
  | H : exactly _ _ |- _ => rewrite (lift_ok _ _ _ _ (proj2 (fields_iff _ _ _) H)); clear H
  end.
(** The method of the domain that a command calls. *)
Definition calls (c : domain_call) : DM OperationRecord :=
  match c with
  | DSubmit a request who key g ms => submit env a request who key g ms
  | DStop who key g ms => stop env who key g ms
  | DConnect who key g ms => connect env who key g ms
  | DRecover who key g ms => recover env who key g ms
  | DConfigure changes who key g ms => configure env changes who key g ms
  | _ => liftR OutOfFuel
  end.

Lemma asked_command api (r : HttpRequest) identity path query body d : authenticate api (headers_get "Authorization" r) = Ok identity ->
  body_of r body -> method r = "POST" -> target r = Some (path, query) ->
  attempt env json_loads api r d = _command env json_loads path (lower_headers r) body identity d.
Proof. intros Hau Hb Hm Ht. unfold attempt. asked. rewrite Ht. unfold route. by rewrite (bool_decide_true (method r = _)). Qed.

(** Evaluates what is decided by the path. *)
Ltac decided :=
  match goal with
  | |- context [_COMMAND_ACTIONS ?p] => let a := eval vm_compute in (_COMMAND_ACTIONS p) in progress change (_COMMAND_ACTIONS p) with a
  | |- context [bool_decide ?P] =>
      let b := eval vm_compute in (bool_decide P) in
      match b with true => change (bool_decide P) with true | false => change (bool_decide P) with false end
  end.

Lemma session_answer {A B} (m : DM A) (f : A -> AM B) d (m' : AM A) : m' d = domain m d -> (m' ≫= f) d = (domain m ≫= f) d.
Proof. unfold mbind, M_bind. by intros ->. Qed.

(** The request makes its call, and answers what the call answers. *)
Lemma asked_is_done api r identity c d : authenticate api (headers_get "Authorization" r) = Ok identity ->
  asks json_loads identity r c ->
  attempt env json_loads api r d = (domain (calls c) ≫= fun record => mret (accepted record)) d /\ (calls c d).1 = run_domain env c d.
Proof.
  intros Hau []; (split; [|done]); [erewrite asked_command by done; unfold _command; cbv zeta; cbn [_COMMAND_ACTIONS]..|].
  all: unfold _command_body, _session_command, field; repeat first [decided|progress cbn [negb andb _command_name]|progress asked].
  all: repeat match goal with
    | H : exactly _ _ |- _ => rewrite (proj2 (fields_iff _ _ _) H); clear H
    | H : obj_get _ _ = _ |- _ => rewrite H; clear H
    end; cbn [mbind res_bind].
  - erewrite lift_ok by reflexivity. by asked.
  - unfold _api_slot, MAX_API_SLOT. rewrite (proj2 (Z.leb_le 0 slot)), (proj2 (Z.leb_le slot 63)) by lia. cbn [negb andb mbind res_bind].
    erewrite lift_ok by reflexivity. by asked.
  - erewrite lift_ok by reflexivity. by asked.
  - apply session_answer. by erewrite lift_ok.
  - apply session_answer. erewrite lift_ok by reflexivity. by erewrite lift_ok by reflexivity.
  - done.
  - unfold attempt. asked. rewrite H1. unfold route. rewrite H0. repeat first [decided|progress cbn [negb andb]]. unfold _configure. asked.
    unfold field. rewrite H9. erewrite lift_ok by reflexivity. destruct l as [|kv l]; [done|].
    erewrite lift_ok by (apply values_iff; by exists values). by asked.
Qed.

Lemma dispatch_state api r d : (_dispatch env json_loads api r d).1 = (attempt env json_loads api r (_request_id env r d).1).1.
Proof.
  unfold _dispatch, mbind, M_bind, try_case. assert (exists d1 id, _request_id env r d = (d1, Ok id)) as (d1 & id & ->).
  { unfold _request_id. cbv zeta. destruct (_REQUEST_ID _); [by repeat eexists|]. by repeat eexists. }
  simpl. by destruct (attempt env json_loads api r d1) as [d2 [a|e|]].
Qed.

Lemma quietly_request_id r : quietly (_request_id (W:=W) env r).
Proof. unfold _request_id. quiet_steps. Qed.

(** ** Quiet steps are steps of the domain *)

Context (max0 : Z).

Lemma quiet_step_domain d d' : quiet d d' -> bounded max0 d -> rtc (domain_step env) d d'.
Proof.
  intros [x r u c|A x m Hm|x] Hb.
  - apply rtc_once. left. apply p_env.
  - apply rtc_once. left. by apply p_read.
  - apply rtc_once. right. by exists DRefresh.
Qed.

Lemma quiet_bounded d d' : quiet d d' -> bounded max0 d -> bounded max0 d'.
Proof.
  intros [x r u c|A x m Hm|x] Hb; [done|done|].
  apply (prims_bounded max0 x); [|done]. by apply (refines_refresh env max0).
Qed.

Lemma quiets_domain d d' : rtc quiet d d' -> bounded max0 d -> rtc (domain_step env) d d' /\ bounded max0 d'.
Proof.
  induction 1 as [|d d1 d2 Hq _ IH]; intros Hb; [done|]. pose proof (quiet_bounded _ _ Hq Hb) as Hb1.
  destruct (IH Hb1) as [Hr Hb2]. split; [|done]. etrans; [by apply quiet_step_domain|done].
Qed.

(** The request [r] carries the secret of an identity, and says [c]. *)
Definition granted (api : ApiServer) (r : HttpRequest) (c : domain_call) : Prop :=
  exists identity, carries api (headers_get "Authorization" r) identity /\ asks json_loads identity r c.

(** C10: what any request can do to the daemon, whatever bytes it carries. A request with a valid secret that says a
    command - by its method, its path, exactly the fields of that command, an actor of a commanding role that the secret
    may act for (the machine's own secret for the machine role, which may only sort), an idempotency key, a deadline
    and the observed generation; recovery with its confirmation - makes exactly that one call of the domain, with
    exactly those arguments. Any other request only reads the clock, the journal and the durability checks. In both
    cases the daemon takes steps of the domain only, so every invariant of the domain is kept. *)
Theorem requests_are_entitled (token : string) (machine_token : option string) (api : ApiServer) (r : HttpRequest) (d : D) :
  ApiServer_make token machine_token = Ok api -> bounded max0 d ->
  let d1 := (_request_id env r d).1 in
  let d' := (_dispatch env json_loads api r d).1 in
  rtc quiet d d1 /\ rtc (domain_step env) d d'
  /\ (forall c, granted api r c -> d' = run_domain env c d1)
  /\ ((forall c, ~ granted api r c) -> rtc quiet d1 d').
Proof.
  intros Hmk Hb d1 d'. apply server_make_ok in Hmk as Hs.
  pose proof (quietly_request_id r d) as Hq1. destruct (quiets_domain d d1 Hq1 Hb) as [Hr1 Hb1].
  unfold d'. rewrite dispatch_state. fold d1.
  assert (forall c, granted api r c -> (attempt env json_loads api r d1).1 = run_domain env c d1) as Hdone.
  { intros c (identity & Hc & Ha). destruct (asked_is_done api r identity c d1) as [-> <-]; [by apply authenticate_iff|done|].
    unfold mbind, M_bind, domain. by destruct (calls c d1) as [d2 [a|e|]]. }
  assert (rtc quiet d1 (attempt env json_loads api r d1).1 \/ exists c, granted api r c) as Hor.
  { destruct (authenticate api (headers_get "Authorization" r)) as [identity|e|] eqn:Hau.
    - destruct (acts_attempt api r identity d1 Hau) as [Hq|(c & Hc & _)]; [by left|]. right. exists c, identity. split; [|done]. by apply authenticate_iff.
    - left. unfold attempt. by rewrite Hau.
    - left. unfold attempt. by rewrite Hau. }
  split_and!; [done| |done|].
  - etrans; [done|]. destruct Hor as [Hq|[c Hc]]; [by apply quiets_domain|]. rewrite (Hdone c Hc). apply rtc_once. right. exists c. split; [|done].
    destruct Hc as (identity & _ & Ha). intros x Hx.
    destruct Ha; injection Hx as <-;
      match goal with H : commanded_by _ _ _ _ |- _ => by destruct H as (? & ? & _ & _ & _ & _ & [? _]%actor_make_ok & _) end.
  - intros Hn. destruct Hor as [Hq|[c Hc]]; [done|]. by destruct (Hn c).
Qed.
End Spec.
