(* ===== verification/ApiReply.v ===== *)
(** * Every request is answered within the contract

    The statuses and error codes of appliance/contracts/cs71d-v1.openapi.json, and
    a proof that no request, whatever it holds, is left without one of them. *)
From S2P Require Import Prelude PyString Errors IsoTime Json JsonText Operations Models Session Machine Journal.
From S2P Require Import Configuration Adapters Events Domain DomainTotal DomainSpec Http Api ApiSpec.

(** The error codes of the contract with the status each is sent with. *)
Definition contract_errors : list (string * Z) :=
  [("VALIDATION_FAILED", 400); ("UNAUTHENTICATED", 401); ("FORBIDDEN", 403); ("RESOURCE_NOT_FOUND", 404);
   ("STALE_GENERATION", 409); ("IDEMPOTENCY_CONFLICT", 409); ("NOT_READY", 409); ("UNCERTAIN", 409);
   ("QUEUE_FULL", 429); ("DEADLINE_INVALID", 400); ("DEADLINE_EXPIRED", 408); ("JOURNAL_UNAVAILABLE", 503);
   ("SERVICE_UNAVAILABLE", 503); ("INTERNAL_ERROR", 500)].

(** The codes handlers raise: the contract's, and the daemon's own [UNSUPPORTED]. *)
Definition raised_codes : list string := "UNSUPPORTED" :: contract_errors.*1.

Definition error_fields (c message request_id : string) (details : list (string * json)) : list (string * json) :=
  [("api_version", JStr API_VERSION); ("code", JStr c); ("message", JStr message); ("request_id", JStr request_id)]
  ++ match details with [] => [] | _ => [("details", JObj details)] end.

Definition good_exn (e : api_exn) : Prop :=
  match e with ApiError c _ details => c ∈ raised_codes /\ exact (JObj details) = true | _ => True end.

(** ** Computations that raise nothing unexpected *)

Definition pure_gives {A} (P : A -> Prop) (r : res api_exn A) : Prop :=
  match r with Ok a => P a | Err e => good_exn e | OutOfFuel => False end.

Lemma pg_bind {A B} (Q : A -> Prop) (P : B -> Prop) (m : res api_exn A) f :
  pure_gives Q m -> (forall a, Q a -> pure_gives P (f a)) -> pure_gives P (m ≫= f).
Proof. destruct m; simpl; auto. Qed.
Lemma pg_any_bind {A B} (P : B -> Prop) (m : res api_exn A) f :
  pure_gives (fun _ => True) m -> (forall a, pure_gives P (f a)) -> pure_gives P (m ≫= f).
Proof. intros Hm Hf. by apply (pg_bind (fun _ => True)); [|auto]. Qed.
Lemma pg_ok {A} (a : A) : pure_gives (fun _ => True) (Ok a).
Proof. done. Qed.
Lemma pg_error {A} (P : A -> Prop) c message : c ∈ raised_codes -> pure_gives P (api_error c message).
Proof. done. Qed.
Lemma pg_invalid {A} (P : A -> Prop) message : pure_gives P (invalid_request message).
Proof. apply pg_error. unfold raised_codes. simpl. set_solver. Qed.
Lemma pg_lift {A} (r : result A) : halts r -> pure_gives (fun _ => True) (lift_result r).
Proof. by destruct r. Qed.
Lemma pg_refuse {A} (r : result A) message : halts r -> pure_gives (fun _ => True) (or_refuse r message).
Proof. destruct r as [a|e|]; [done| |done]. intros _. simpl. destruct (isinstance _ _); [apply pg_invalid|done]. Qed.

#[export] Hint Resolve pg_ok pg_invalid pg_lift pg_refuse : cs71.
#[export] Hint Extern 1 (_ ∈ raised_codes) => (unfold raised_codes; simpl; set_solver) : cs71.
#[export] Hint Extern 2 (pure_gives _ (api_error _ _)) => (apply pg_error; unfold raised_codes; simpl; set_solver) : cs71.
#[export] Hint Extern 2 (pure_gives _ (Err (Raised _))) => exact I : cs71.

Ltac pg_step :=
  cbv zeta;
  match goal with
  | |- pure_gives _ (_ ≫= _) => apply pg_any_bind; [|intros]
  | |- pure_gives _ _ => solve [eauto with cs71]
  | |- pure_gives _ (if ?b then _ else _) => destruct b
  | |- pure_gives _ (match ?x with _ => _ end) =>
      lazymatch type of x with res _ _ => fail | _ => destruct x end
  end.
Ltac pg_steps := repeat pg_step.

Lemma halts_in_roles v roles : halts (in_roles v roles).
Proof. by destruct v. Qed.
#[export] Hint Resolve halts_in_roles : cs71.

Section Requests.
Context (json_loads : string -> result json) (Hloads : forall s, halts (json_loads s)).

Lemma pg_json_object b : pure_gives (fun _ => True) (_json_object json_loads b).
Proof.
  unfold _json_object. pose proof (Hloads b) as Hl. destruct (bool_decide _); [pg_steps|].
  destruct (json_loads b) as [v|e|]; [|pg_steps|done]. destruct v; pg_steps.
Qed.
End Requests.

Lemma pg_actor payload identity command : pure_gives (fun _ => True) (_commanding_actor payload identity command).
Proof.
  unfold _commanding_actor. pg_steps.
  match goal with |- context [Actor_make ?u ?r] => pose proof (halts_actor u r) as Ha; destruct (Actor_make u r) end; [|pg_steps|done].
  pg_steps.
Qed.
Lemma pg_exact_fields payload allowed name : pure_gives (fun _ => True) (_require_exact_fields payload allowed name).
Proof. unfold _require_exact_fields. pg_steps. Qed.
Lemma pg_field name payload : pure_gives (fun _ => True) (field name payload).
Proof. unfold field. pg_steps. Qed.
#[export] Hint Resolve pg_actor pg_exact_fields pg_field : cs71.
Lemma pg_body a payload : pure_gives (fun _ => True) (_command_body a payload).
Proof. unfold _command_body, _api_slot. pg_steps. Qed.
Lemma pg_values changes : pure_gives (fun _ => True) (configuration_values changes).
Proof. induction changes as [|[n v] l IH]; cbn [configuration_values]; unfold _configuration_value; pg_steps. Qed.
Lemma pg_key headers : pure_gives (fun _ => True) (_idempotency_key headers).
Proof. unfold _idempotency_key. pg_steps. Qed.
Lemma pg_generation headers : pure_gives (fun _ => True) (_exact_generation headers).
Proof. unfold _exact_generation. pg_steps. Qed.
#[export] Hint Resolve pg_body pg_values pg_key pg_generation : cs71.
Lemma pg_stop_generation headers : pure_gives (fun _ => True) (_stop_generation headers).
Proof. unfold _stop_generation. pg_steps. Qed.
Lemma pg_deadline headers : pure_gives (fun _ => True) (_deadline_ms headers).
Proof.
  unfold _deadline_ms. pose proof (halts_int (header "x-deadline-ms" headers)) as Hi.
  destruct (int_of_text _) as [n|e|]; [|pg_steps|done]. pg_steps.
Qed.
Lemma pg_last_event headers : pure_gives (fun _ => True) (_last_event_id headers).
Proof. unfold _last_event_id. pg_steps. Qed.
Lemma pg_bounded query name d m : pure_gives (fun _ => True) (_bounded_int query name d m).
Proof. unfold _bounded_int. pg_steps. Qed.
Lemma pg_cursor query : pure_gives (fun _ => True) (_optional_cursor query).
Proof. unfold _optional_cursor. pg_steps. Qed.
Lemma pg_enum {A} (f : string -> result A) query name : (forall s, halts (f s)) -> pure_gives (fun _ => True) (_optional_enum f query name).
Proof. intros Hf. unfold _optional_enum. pg_steps. Qed.
Lemma pg_authenticate api h : pure_gives (fun _ => True) (authenticate api h).
Proof. unfold authenticate, unauthenticated. pg_steps. Qed.
Lemma unauthenticated_error api h : (forall identity, authenticate api h <> Ok identity) ->
  authenticate api h = api_error "UNAUTHENTICATED" "a valid local service credential is required".
Proof. intros Hn. revert Hn. unfold authenticate, unauthenticated. repeat case_match; intros Hn; try done; by edestruct Hn. Qed.
Lemma pg_read_body r : pure_gives (fun _ => True) (_read_body r).
Proof. unfold _read_body. pg_steps. Qed.
#[export] Hint Resolve pg_stop_generation pg_deadline pg_last_event pg_bounded pg_cursor pg_enum pg_authenticate pg_read_body : cs71.

(** ** Bodies hold no floats *)

Lemma exact_obj_app l1 l2 : exact (JObj (l1 ++ l2)) = exact (JObj l1) && exact (JObj l2).
Proof. simpl. by rewrite fmap_app, forallb_app. Qed.

Lemma exact_mapping m : exact (jmapping m) = true.
Proof.
  unfold jmapping. change (forallb id ((fun kv : string * json => exact kv.2) <$> (member_json <$> scalar_items m)) = true).
  induction (scalar_items m) as [|[k []] l IH]; [done|exact IH..].
Qed.

Lemma exact_operation r : exact (_operation_body r) = true.
Proof.
  unfold _operation_body. rewrite !exact_obj_app. apply andb_true_iff. split; [done|].
  apply andb_true_iff. split; [|apply andb_true_iff; split].
  - destruct (op_terminal_fields r); [|done]. pose proof (exact_mapping (SStr <$> g)) as E. simpl in *. by rewrite E.
  - by destruct (terminal_at r).
  - by destruct (_OUTCOME_FOR_STATE _).
Qed.

Lemma exact_items (rows : list (Z * OperationRecord)) : exact (JArr ((fun row => _operation_body row.2) <$> rows)) = true.
Proof. induction rows as [|r rows IH]; [done|].
  change (exact (_operation_body r.2) && exact (JArr ((fun row => _operation_body row.2) <$> rows)) = true).
  by rewrite exact_operation, IH.
Qed.

Lemma exact_cursor limit rows : exact (next_cursor limit rows) = true.
Proof. unfold next_cursor. destruct (_ =? _); [|done]. by destruct (last rows) as [[? ?]|]. Qed.

(** ** Error replies *)

Lemma clip_length n s : slen (clip n s) <= Z.of_nat n.
Proof.
  unfold clip, slen. apply inj_le. revert s. induction n as [|n IH]; intros [|c s]; simpl; try lia. specialize (IH s). lia.
Qed.

(** How each refusal of the domain is answered. *)
Definition refusals : list (domain_error * (string * Z)) :=
  [(DomainError, ("INTERNAL_ERROR", 500)); (ValidationError, ("VALIDATION_FAILED", 400)); (NotReadyError, ("NOT_READY", 409));
   (UnsupportedOperationError, ("NOT_READY", 409)); (InvalidTransitionError, ("INTERNAL_ERROR", 500));
   (StaleGenerationError, ("STALE_GENERATION", 409)); (IdempotencyConflictError, ("IDEMPOTENCY_CONFLICT", 409));
   (OperationQueueFullError, ("QUEUE_FULL", 429)); (DeadlineInvalidError, ("DEADLINE_INVALID", 400));
   (DeadlineExpiredError, ("DEADLINE_EXPIRED", 408)); (JournalUnavailableError, ("JOURNAL_UNAVAILABLE", 503))].

(** What is said of the exception [e]: the code that it was raised with (or that is published for it), the status of that
    code, its message up to 512 characters, and its details; of an exception that is neither the API's nor the
    domain's, nothing. *)
Definition says (e : api_exn) (c : string) (code : Z) (message : string) (details : list (string * json)) : Prop :=
  match e with
  | ApiError c0 m ds =>
      (c0 = "UNSUPPORTED" /\ (c, code) = ("NOT_READY", 409) \/ c = c0 /\ (c0, code) ∈ contract_errors)
      /\ message = String.substring 0 512 m /\ details = ds
  | Raised x =>
      match exn_cls x with
      | Domain k =>
          (k, (c, code)) ∈ refusals /\ message = String.substring 0 512 (exn_msg x)
          /\ details = match exn_operation_id x with
                       | Some id => if bool_decide (id = "") then [] else [("operation_id", JStr id)]
                       | None => []
                       end
      | _ => (c, code) = ("INTERNAL_ERROR", 500) /\ message = "the daemon could not complete this request" /\ details = []
      end
  | _StreamRequested _ => False
  end.

(** The body of an error reply, and its status, are the contract's for what was raised. *)
Definition contract_reply (request_id : string) (code : Z) (v : json) (e : api_exn) : Prop :=
  exists c message details, says e c code message details /\ v = JObj (error_fields c message request_id details) /\ exact v = true.

Lemma api_status c : c ∈ raised_codes ->
  c = "UNSUPPORTED" /\ (default c (_CONTRACT_CODE c), default 500 (_STATUS_FOR_CODE c)) = ("NOT_READY", 409)
  \/ default c (_CONTRACT_CODE c) = c /\ (c, default 500 (_STATUS_FOR_CODE c)) ∈ contract_errors.
Proof.
  assert (Forall (fun c => c = "UNSUPPORTED" /\ (default c (_CONTRACT_CODE c), default 500 (_STATUS_FOR_CODE c)) = ("NOT_READY", 409)
    \/ default c (_CONTRACT_CODE c) = c /\ (c, default 500 (_STATUS_FOR_CODE c)) ∈ contract_errors) raised_codes) as Hall
    by (apply (bool_decide_unpack _); vm_compute; exact I).
  intros Hc. by eapply Forall_forall in Hall.
Qed.
Lemma refusal_status k : (k, (default (domain_code k) (_CONTRACT_CODE (domain_code k)), default 500 (_STATUS_FOR_CODE (domain_code k)))) ∈ refusals.
Proof. apply (bool_decide_unpack _). by destruct k. Qed.

Lemma error_response_exact c message details request_id : exact (JObj details) = true ->
  exact (body (_error_response c message details request_id)) = true.
Proof. intros Hd. unfold _error_response, body. rewrite exact_obj_app. destruct details; [done|]. simpl in *. by rewrite Hd. Qed.

Lemma good_error_reply e request_id : good_exn e ->
  match handle_error e request_id with
  | Streaming after _ => e = _StreamRequested after
  | Written code headers payload => exists r, payload = dumps (body r)
      /\ Written code headers payload = _write r request_id /\ code = status r /\ contract_reply request_id code (body r) e
  end.
Proof.
  intros He. destruct e as [c message details|after|x]; simpl in He; [| |simpl; destruct (exn_cls x) eqn:Ex].
  - destruct He as [Hc Hd]. eexists. split_and!; [done|done|done|]. eexists _, _, details. split_and!; [|done|by apply error_response_exact].
    split; [|done]. destruct (api_status c Hc) as [[-> E]|[-> E]]; [by left|by right].
  - done.
  - unfold internal_error. eexists. split_and!; [done|done|done|]. eexists _, _, []. split_and!; [|done|done]. unfold says. by rewrite Ex.
  - unfold internal_error. eexists. split_and!; [done|done|done|]. eexists _, _, []. split_and!; [|done|done]. unfold says. by rewrite Ex.
  - unfold _from_domain. eexists. split_and!; [done|done|done|]. eexists _, _, _. split_and!; [|done|].
    + unfold says. rewrite Ex. split; [apply refusal_status|done].
    + apply error_response_exact. destruct (exn_operation_id x) as [id|]; [|done]. by destruct (bool_decide _).
  - unfold internal_error. eexists. split_and!; [done|done|done|]. eexists _, _, []. split_and!; [|done|done]. unfold says. by rewrite Ex.
  - unfold internal_error. eexists. split_and!; [done|done|done|]. eexists _, _, []. split_and!; [|done|done]. unfold says. by rewrite Ex.
Qed.

(** ** Handlers *)

Section Handlers.
Context {W : Type} `{WorkerPort W} (env : Env) (json_loads : string -> result json).
Context (Hloads : forall s, halts (json_loads s)).
Context (submit_answers : forall i r w, halts (worker_submit i r w).2).
Context (stop_answers : forall id w, halts (worker_submit_priority_stop id w).2).
Abbreviation D := (OperationDomain W).
Abbreviation AM := (M D api_exn).

Definition gives {A} (P : A -> Prop) (m : AM A) : Prop := forall d, pure_gives P (m d).2.

Lemma gives_bind {A B} (Q : A -> Prop) (P : B -> Prop) (m : AM A) (f : A -> AM B) :
  gives Q m -> (forall a, Q a -> gives P (f a)) -> gives P (m ≫= f).
Proof. intros Hm Hf d. unfold mbind, M_bind. specialize (Hm d). destruct (m d) as [d' [a|e|]]; [by apply Hf|done..]. Qed.
Lemma gives_any_bind {A B} (P : B -> Prop) (m : AM A) (f : A -> AM B) :
  gives (fun _ => True) m -> (forall a, gives P (f a)) -> gives P (m ≫= f).
Proof. intros Hm Hf. by apply (gives_bind (fun _ => True)); [|auto]. Qed.
Lemma gives_ret {A} (P : A -> Prop) a : P a -> gives P (mret a).
Proof. by intros Ha d. Qed.
Lemma gives_lift {A} (P : A -> Prop) (r : res api_exn A) : pure_gives P r -> gives P (liftR r).
Proof. by intros Hr d. Qed.
Lemma gives_get : gives (fun _ => True) getS.
Proof. by intros d. Qed.
Lemma gives_domain {A} (m : M D exn A) : total m -> gives (fun _ => True) (domain m).
Proof. intros Hm d. apply pg_lift, Hm. Qed.
Lemma gives_read {A} (m : M D exn A) : total m -> gives (fun _ => True) (_read m).
Proof.
  intros Hm d. unfold _read. specialize (Hm d). destruct (m d) as [d' [a|e|]]; [done| |done]. simpl.
  destruct (is_journal_error e); [|done]. apply pg_error. eauto with cs71.
Qed.

#[local] Hint Resolve gives_lift gives_get gives_domain gives_read pg_json_object : cs71.
#[local] Hint Resolve total_now total_uuid total_on_journal total_refresh total_submit total_stop total_session
  total_configure total_configuration : cs71.

Ltac gives_step :=
  cbv zeta;
  match goal with
  | |- gives (fun _ => True) (mret _) => by apply gives_ret
  | |- gives _ _ => solve [eauto with cs71]
  | |- gives _ (_ ≫= _) => apply gives_any_bind; [|intros]
  | |- gives _ (if ?b then _ else _) => destruct b
  | |- gives _ (match ?x with _ => _ end) => destruct x
  end.
Ltac gives_steps := repeat gives_step.

Lemma gives_timestamp : gives (fun _ => True) (_timestamp (W:=W) env).
Proof. unfold _timestamp. gives_steps. Qed.
#[local] Hint Resolve gives_timestamp : cs71.

(** A reply body without floats. *)
Definition exact_body : json -> Prop := fun v => exact v = true.

Lemma gives_liveness : gives exact_body (_liveness (W:=W) env).
Proof. unfold _liveness. gives_steps. by apply gives_ret. Qed.
Lemma gives_system : gives exact_body (_system (W:=W) env).
Proof. unfold _system. gives_steps. by apply gives_ret. Qed.
Lemma gives_readiness view : gives exact_body (_readiness (W:=W) env view).
Proof. unfold _readiness, readiness_reason. gives_steps. apply gives_ret. unfold exact_body. by destruct (admits_work view). Qed.
Lemma gives_ready : gives exact_body (view ← domain (refresh_durability env); _readiness (W:=W) env view).
Proof. apply gives_any_bind; [eauto with cs71|apply gives_readiness]. Qed.
Lemma gives_active view : gives exact_body (_active_operation (W:=W) view).
Proof.
  unfold _active_operation. destruct (active_operation_id view); [|by apply gives_ret]. gives_steps. apply gives_ret.
  destruct a as [r|]; [apply exact_operation|done].
Qed.
Lemma gives_faults view : gives exact_body (_faults (W:=W) env view).
Proof.
  unfold _faults. destruct (fault_id view); [|by apply gives_ret]. destruct (bool_decide _); [by apply gives_ret|].
  gives_steps; by apply gives_ret.
Qed.
Lemma gives_snapshot view : gives exact_body (_machine_snapshot (W:=W) env view).
Proof.
  unfold _machine_snapshot. apply (gives_bind exact_body); [apply gives_active|]. intros a Ha.
  apply (gives_bind exact_body); [apply gives_faults|]. intros fs Hf. gives_steps. apply gives_ret.
  unfold exact_body, capabilities_body, readiness_reason in *. simpl. rewrite Ha, Hf. by destruct (admits_work view).
Qed.
Lemma gives_configuration : gives exact_body (_configuration (W:=W)).
Proof.
  unfold _configuration. gives_steps. apply gives_ret. unfold exact_body.
  match goal with |- context [jmapping ?m] => pose proof (exact_mapping m) as E end. simpl in *. by rewrite E.
Qed.
Lemma gives_operation id : gives exact_body (_operation (W:=W) id).
Proof. unfold _operation. gives_steps. apply gives_ret, exact_operation. Qed.
Lemma gives_page query : gives exact_body (_operation_page (W:=W) query).
Proof.
  unfold _operation_page. gives_steps. apply gives_ret. unfold exact_body.
  match goal with |- context [next_cursor ?l ?r] => pose proof (exact_cursor l r) as E1; pose proof (exact_items r) as E2 end.
  simpl in *. by rewrite E1, E2.
Qed.

(** A successful reply to a method: a command is accepted with its record, a read is answered with a body. *)
Definition success (m : string) (r : _Response) : Prop :=
  exact (body r) = true
  /\ (m ∈ ["POST"; "PATCH"] /\ status r = 202 /\ (exists record, body r = _accepted_body record) \/ m ∈ ["GET"; "HEAD"] /\ status r = 200).

Lemma success_accepted m r : m ∈ ["POST"; "PATCH"] -> success m (accepted r).
Proof. intros Hm. split; [done|]. left. split; [done|split; [done|by exists r]]. Qed.
Lemma gives_respond m (b : AM json) : m ∈ ["GET"; "HEAD"] -> gives exact_body b -> gives (success m) (respond b).
Proof. intros Hm Hb. apply (gives_bind exact_body); [done|]. intros v Hv. apply gives_ret. split; [done|by right]. Qed.

Lemma gives_command path headers b identity : gives (success "POST") (_command env json_loads path headers b identity).
Proof.
  unfold _command, _session_command. gives_steps.
  all: apply gives_ret, success_accepted; apply (bool_decide_unpack _); exact I.
Qed.
Lemma gives_configure headers b identity : gives (success "PATCH") (_configure env json_loads headers b identity).
Proof. unfold _configure. gives_steps. (apply gives_ret; apply success_accepted; apply (bool_decide_unpack _); exact I). Qed.
#[local] Hint Resolve gives_command gives_configure gives_respond gives_liveness gives_system gives_ready gives_configuration
  gives_operation gives_page : cs71.

Lemma gives_route m path query identity headers b : gives (success m) (route env json_loads m path query identity headers b).
Proof.
  unfold route. case_bool_decide as Hp; [rewrite Hp; apply gives_command|]. destruct (_ && bool_decide (path = _)) eqn:Hc; bool_inv; [subst m; apply gives_configure|].
  clear Hc. destruct (bool_decide (m ∈ ["GET"; "HEAD"])) eqn:Hm; bool_inv; cbn [negb]; [|gives_steps].
  do 3 (match goal with |- gives _ (if ?b then _ else _) => destruct b end; [gives_steps|]).
  apply gives_any_bind; [apply gives_get|]. intros d. cbv zeta.
  destruct (bool_decide _); [|gives_steps; by intros ?].
  apply (gives_bind exact_body); [apply gives_snapshot|]. intros v Hv. apply gives_ret. split; [done|by right].
Qed.

Lemma gives_attempt api r : gives (success (method r)) (attempt env json_loads api r).
Proof. unfold attempt. gives_steps. apply gives_route. Qed.

Lemma request_id_given r (d : D) : exists d1 request_id, _request_id env r d = (d1, Ok request_id).
Proof. unfold _request_id. cbv zeta. destruct (_REQUEST_ID _); by repeat eexists. Qed.

(** C11: every request gets exactly one answer, whatever its bytes, the journal's faults and the exceptions
    raised on the way: an event stream, or one complete JSON reply that states its own length, carries the
    request ID and decodes to the body that was built. A command that the domain accepted is answered 202 with the record
    that the domain returned, a read 200. A reply that is no success is the contract error for what was
    raised: the published code of the API's or the domain's refusal with the status the contract gives it, up to 512
    characters of its message and its details; a request without a secret is refused with 401; and
    an exception nobody expected is answered by one fixed body that says nothing about it. *)
Theorem every_request_answered (api : ApiServer) (r : HttpRequest) (d : D) :
  exists d1 request_id reply,
    _request_id env r d = (d1, Ok request_id) /\ (_dispatch env json_loads api r d).2 = Ok reply /\
    let outcome := (attempt env json_loads api r d1).2 in
    match reply with
    | Streaming after _ => outcome = Err (_StreamRequested after)
    | Written code headers payload =>
        exists v, loads payload = Some v /\ ("Content-Length", str_of_Z (slen payload)) ∈ headers
          /\ ("X-Request-ID", request_id) ∈ headers
          /\ ((exists resp, outcome = Ok resp /\ v = body resp /\ code = status resp /\ success (method r) resp)
              \/ exists e, outcome = Err e /\ contract_reply request_id code v e)
    end
    /\ (forall identity c, authenticate api (headers_get "Authorization" r) = Ok identity -> asks json_loads identity r c ->
          outcome = match (calls env c d1).2 with Ok record => Ok (accepted record) | Err x => Err (Raised x) | OutOfFuel => OutOfFuel end)
    /\ ((forall identity, authenticate api (headers_get "Authorization" r) <> Ok identity) ->
          outcome = Err (ApiError "UNAUTHENTICATED" "a valid local service credential is required" [])).
Proof.
  destruct (request_id_given r d) as (d1 & request_id & Hid). exists d1, request_id.
  assert ((forall identity c, authenticate api (headers_get "Authorization" r) = Ok identity -> asks json_loads identity r c ->
          (attempt env json_loads api r d1).2 = match (calls env c d1).2 with Ok record => Ok (accepted record) | Err x => Err (Raised x) | OutOfFuel => OutOfFuel end)
    /\ ((forall identity, authenticate api (headers_get "Authorization" r) <> Ok identity) ->
          (attempt env json_loads api r d1).2 = Err (ApiError "UNAUTHENTICATED" "a valid local service credential is required" []))) as Hout.
  { split.
    - intros identity c Hau Ha. destruct (asked_is_done env json_loads api r identity c d1 Hau Ha) as [-> _].
      unfold mbind, M_bind, domain. by destruct (calls env c d1) as [d2 [a|e|]].
    - intros Hn. unfold attempt. rewrite (unauthenticated_error api _ Hn). done. }
  unfold _dispatch, mbind, M_bind, try_case. rewrite Hid. pose proof (gives_attempt api r d1) as Ha.
  assert (forall resp, exact (body resp) = true -> loads (dumps (body resp)) = Some (body resp)
    /\ exists headers, _write resp request_id = Written (status resp) headers (dumps (body resp))
       /\ ("Content-Length", str_of_Z (slen (dumps (body resp)))) ∈ headers /\ ("X-Request-ID", request_id) ∈ headers) as Hw.
  { intros resp He. split; [by apply loads_dumps|]. eexists. split; [done|]. split; apply list_elem_of_In; simpl; auto. }
  destruct (attempt env json_loads api r d1) as [d2 [resp|e|]]; [| |done]; cbn [fst snd] in *.
  - assert (exact (body resp) = true) as He by apply Ha. destruct (Hw resp He) as (Hl & headers & Hwr & Hc & Hx).
    eexists. split_and!; [done|done| |apply Hout|apply Hout]. rewrite Hwr.
    exists (body resp). split_and!; [done|done|done|]. left. by exists resp.
  - pose proof (good_error_reply e request_id Ha) as Hg. eexists. split_and!; [done|done| |apply Hout|apply Hout].
    destruct (handle_error e request_id) as [code headers payload|after hs]; [|by rewrite Hg].
    destruct Hg as (resp & -> & Hwr & -> & Hc). assert (exact (body resp) = true) as He by (by destruct Hc as (? & ? & ? & ? & ? & ?)).
    destruct (Hw resp He) as (Hl & hs & Hwr' & Hlen & Hx). rewrite Hwr' in Hwr. injection Hwr as ->.
    exists (body resp). split_and!; [done|done|done|]. right. by exists e.
Qed.
End Handlers.
