(* ===== verification/ApiPages.v ===== *)
(** * Paging through the operations

    A client that follows [next_cursor] from the first page sees every matching
    operation once, newest first, and comes to an end. *)
From S2P Require Import Prelude PyString Errors IsoTime Json JsonText Operations Models Session Machine Journal JournalSpec JournalSafety.
From S2P Require Import Configuration Adapters Events Domain Http Api.

(** ** The listing behind the pages *)

Definition numbered {A} (l : list A) : list (Z * A) := imap (fun i r => (Z.of_nat i + 1, r)) l.

Definition matches (state : option op_state) (action_ : option op_action) (r : OperationRecord) : bool :=
  match state with Some s => bool_decide (op_st r = s) | None => true end
  && match action_ with Some a => bool_decide (action r = a) | None => true end.

(** Every operation with its cursor, newest first, and those a query selects. *)
Definition listing (state : option op_state) (action_ : option op_action) (ops : list OperationRecord) : list (Z * OperationRecord) :=
  filter (fun x => matches state action_ x.2 = true) (reverse (numbered ops)).

Definition below (before : option Z) (x : Z) : bool := match before with Some b => x <? b | None => true end.

Lemma filter_rev {A} (P : A -> Prop) `{forall x, Decision (P x)} (l : list A) : reverse (filter P l) = filter P (reverse l).
Proof.
  induction l as [|x l IH]; [done|]. rewrite reverse_cons, filter_app, <- IH, filter_cons, filter_cons, filter_nil.
  destruct (decide (P x)); [by rewrite reverse_cons|by rewrite app_nil_r].
Qed.

Lemma filter_map {A B} (f : A -> B) (P : B -> Prop) `{forall x, Decision (P x)} (l : list A) :
  filter P (f <$> l) = f <$> filter (fun x => P (f x)) l.
Proof. induction l as [|x l IH]; [done|]. rewrite fmap_cons, !filter_cons, IH. by destruct (decide (P (f x))). Qed.

Lemma sorted_filter {A} (R : relation A) (P : A -> Prop) `{forall x, Decision (P x)} (l : list A) :
  StronglySorted R l -> StronglySorted R (filter P l).
Proof.
  induction l as [|x l IH]; [done|]. intros [Hl Hx]%StronglySorted_inv. rewrite filter_cons. destruct (decide (P x)); [|by apply IH].
  constructor; [by apply IH|]. apply Forall_forall. intros y [_ Hy]%list_elem_of_filter. by eapply Forall_forall in Hx.
Qed.

Lemma numbered_snd {A} (l : list A) : snd <$> numbered l = l.
Proof. apply list_eq. intros i. unfold numbered. rewrite list_lookup_fmap, list_lookup_imap. by destruct (l !! i). Qed.

Definition newer {A} (x y : Z * A) : Prop := y.1 < x.1.

Lemma numbered_app_one {A} (l : list A) x : reverse (numbered (l ++ [x])) = (Z.of_nat (length l) + 1, x) :: reverse (numbered l).
Proof. unfold numbered. rewrite imap_app. simpl. rewrite reverse_snoc. by rewrite Nat.add_0_r. Qed.

Lemma numbered_range {A} (l : list A) y : y ∈ numbered l -> 1 <= y.1 <= Z.of_nat (length l).
Proof.
  intros (i & Hi)%list_elem_of_lookup. unfold numbered in Hi. rewrite list_lookup_imap in Hi.
  destruct (l !! i) as [r|] eqn:Hr; [|done]. injection Hi as <-. apply lookup_lt_Some in Hr. simpl. lia.
Qed.

Lemma numbered_sorted {A} (l : list A) : StronglySorted newer (reverse (numbered l)).
Proof.
  induction l as [|x l IH] using rev_ind; [constructor|]. rewrite numbered_app_one. constructor; [done|].
  apply Forall_forall. intros y Hy. apply elem_of_reverse, numbered_range in Hy. unfold newer. simpl. lia.
Qed.

Lemma listing_sorted st act ops : StronglySorted newer (listing st act ops).
Proof. apply sorted_filter, numbered_sorted. Qed.

Lemma listing_range st act ops x : x ∈ listing st act ops -> 1 <= x.1 <= Z.of_nat (length ops) /\ x.2 ∈ ops.
Proof.
  intros [_ Hx]%list_elem_of_filter. rewrite elem_of_reverse in Hx. split; [exact (numbered_range ops x Hx)|].
  apply list_elem_of_lookup in Hx as (i & Hi). unfold numbered in Hi. rewrite list_lookup_imap in Hi.
  destruct (ops !! i) as [r|] eqn:Hr; [|done]. injection Hi as <-. apply list_elem_of_lookup. by exists i.
Qed.

(** What is below the last row of a page is the rest of the listing. *)
Lemma below_last {A} (l : list (Z * A)) k x : StronglySorted newer l -> last (take k l) = Some x ->
  filter (fun y => below (Some x.1) y.1 = true) l = drop k l.
Proof.
  intros Hs Hx. pose proof (take_drop k l) as E. revert Hs. rewrite <- E at 1 2. intros (Hc & Ht & _)%StronglySorted_app.
  apply last_Some in Hx as [pre Hpre]. rewrite Hpre in *. rewrite filter_app. apply StronglySorted_app in Ht as (Hp & _ & _).
  rewrite filter_none, filter_all; [done| |]; apply Forall_forall; intros y Hy; simpl.
  - apply Z.ltb_lt. apply (Hc x y); [|done]. apply elem_of_app. right. by left.
  - rewrite Z.ltb_lt. apply elem_of_app in Hy as [Hy|Hy].
    + assert (newer y x) as Hn by (apply Hp; [done|by left]). unfold newer in Hn. lia.
    + apply list_elem_of_singleton in Hy as ->. lia.
Qed.

(** ** The page query over stored operations *)

Lemma state_value_inj a b : OperationState.value a = OperationState.value b -> a = b.
Proof. by destruct a, b. Qed.

Lemma bool_decide_inj {A B} (f : A -> B) `{EqDecision A, EqDecision B} (a b : A) :
  (f a = f b -> a = b) -> bool_decide (f a = f b) = bool_decide (a = b).
Proof. intros Hf. apply bool_decide_ext. split; [done|by intros ->]. Qed.

Lemma page_rows_listing ops db limit before st act : operations db = encode_operation <$> ops ->
  page_rows limit before st act db =
    (fun x => (x.1, encode_operation x.2)) <$> take (Z.to_nat limit) (filter (fun x => below before x.1 = true) (listing st act ops)).
Proof.
  intros Hdb. unfold page_rows, listing. rewrite Hdb, fmap_take. f_equal. rewrite list_filter_filter.
  assert (imap (fun i r => (Z.of_nat i + 1, r)) (encode_operation <$> ops)
          = (fun x => (x.1, encode_operation x.2)) <$> numbered ops) as ->.
  { unfold numbered. rewrite imap_fmap, fmap_imap. done. }
  rewrite filter_map, <- fmap_reverse, filter_rev. f_equal. apply list_filter_iff. intros [i r]. cbn [fst snd].
  unfold below, matches. rewrite <- andb_true_iff, andb_assoc. cbn [c_state c_action encode_operation].
  destruct st as [s|], act as [a|]; rewrite ?(bool_decide_inj OperationState.value), ?(bool_decide_inj OperationAction.value)
    by (apply state_value_inj || apply action_value_inj); done.
Qed.

Lemma decode_rows (l : list (Z * OperationRecord)) : Forall (fun x => stored_ok x.2) l ->
  decode_all (fun '(cur, row) => r ← _decode_operation row; Ok (cur, r)) ((fun x => (x.1, encode_operation x.2)) <$> l) = Ok l.
Proof.
  induction 1 as [|[i r] l Hr _ IH]; [done|]. cbn [fmap list_fmap decode_all fst snd] in *.
  rewrite decode_encode_operation by done. cbn [mbind res_bind]. by rewrite IH.
Qed.

Lemma recent_quiet ops db limit before st act : db_inv ops db -> 1 <= limit ->
  match before with Some b => - 2 ^ 63 <= b < 2 ^ 63 | None => True end ->
  recent_operations limit before st act (Journal_init db []) =
    (Journal_init db [], Ok (take (Z.to_nat limit) (filter (fun x => below before x.1 = true) (listing st act ops)))).
Proof.
  intros Hi Hl Hb. unfold recent_operations. rewrite (proj2 (Z.ltb_ge _ _)) by done.
  assert (bind_optional_integer before = Ok tt) as Hbind.
  { unfold bind_optional_integer. destruct before as [b|]; [|done].
    by rewrite (proj2 (Z.leb_le _ _)), (proj2 (Z.ltb_lt _ _)) by apply Hb. }
  unfold _guard, try_except, mbind, M_bind, liftR. cbn [_require_open Journal_init _closed]. rewrite Hbind. simpl.
  unfold execute, with_fault, current. simpl. rewrite (page_rows_listing ops) by apply Hi. f_equal. apply decode_rows.
  apply Forall_forall. intros x Hx. eapply Forall_forall; [apply Hi|].
  apply (listing_range st act ops).
  assert (x ∈ filter (fun x => below before x.1 = true) (listing st act ops)) as [_ Hin]%list_elem_of_filter; [|done].
  rewrite <- (take_drop (Z.to_nat limit) (filter _ _)). apply elem_of_app. by left.
Qed.

(** ** A client that follows the cursors *)

Section Browse.
Context {W : Type} `{WorkerPort W}.
Abbreviation D := (OperationDomain W).

(** [body[name]] *)
Definition body_field (name : string) (v : json) : option json := match v with JObj l => obj_get name l | _ => None end.
Definition body_items (v : json) : list json := match body_field "items" v with Some (JArr l) => l | _ => [] end.

(** GET /v1/operations, then again with [next_cursor] as the cursor as long as there is one. *)
Fixpoint browse (fuel : nat) (query : Query) : M D api_exn (list json) :=
  match fuel with
  | O => fun d => (d, OutOfFuel)
  | S fuel =>
      page ← _operation_page query;
      match body_field "next_cursor" page with
      | Some (JStr cur) => rest ← browse fuel (<["cursor" := [cur]]> query); mret (body_items page ++ rest)
      | _ => mret (body_items page)
      end
  end.

(** The limit and the filters of a query, once they parse. *)
Definition query_ok (query : Query) (limit : Z) (st : option op_state) (act : option op_action) : Prop :=
  _bounded_int query "limit" DEFAULT_PAGE_SIZE MAX_PAGE_SIZE = Ok limit
  /\ _optional_enum state_of query "state" = Ok st /\ _optional_enum action_of query "type" = Ok act.

Lemma query_ok_cursor query limit st act cur : query_ok query limit st act -> query_ok (<["cursor" := [cur]]> query) limit st act.
Proof.
  unfold query_ok, _bounded_int, _optional_enum, query_value. by rewrite !lookup_insert_ne by done.
Qed.

Lemma query_ok_limit query limit st act : query_ok query limit st act -> 1 <= limit.
Proof.
  intros (Hl & _). unfold _bounded_int in Hl. destruct (query_value _ _); [|injection Hl as <-; by vm_compute].
  destruct (or_refuse _ _) as [n|e|]; [|done..]. cbn [mbind res_bind] in Hl. destruct (negb _) eqn:E; [done|]. injection Hl as <-.
  bool_inv. lia.
Qed.

Definition page_body (limit : Z) (rows : list (Z * OperationRecord)) : json :=
  JObj [("api_version", JStr API_VERSION); ("items", JArr ((fun row => _operation_body row.2) <$> rows));
        ("next_cursor", next_cursor limit rows)].

Lemma page_quiet query limit st act before ops db (d : D) : query_ok query limit st act -> _optional_cursor query = Ok before ->
  match before with Some b => - 2 ^ 63 <= b < 2 ^ 63 | None => True end ->
  _journal d = Journal_init db [] -> db_inv ops db ->
  _operation_page query d =
    (d, Ok (page_body limit (take (Z.to_nat limit) (filter (fun x => below before x.1 = true) (listing st act ops))))).
Proof.
  intros Hq Hc Hb Hj Hi. pose proof (query_ok_limit _ _ _ _ Hq) as Hl. destruct Hq as (Hlim & Hst & Hact).
  unfold _operation_page. rewrite Hlim, Hc, Hst, Hact. unfold mbind, M_bind, liftR, _read, on_journal. cbv zeta.
  rewrite Hj, (recent_quiet ops) by done. cbn [fst snd]. f_equal. destruct d; simpl in *; by subst.
Qed.

Lemma browse_from fuel query limit st act before k ops db (d : D) : query_ok query limit st act -> _optional_cursor query = Ok before ->
  match before with Some b => - 2 ^ 63 <= b < 2 ^ 63 | None => True end ->
  _journal d = Journal_init db [] -> db_inv ops db -> Z.of_nat (length ops) < 2 ^ 63 ->
  filter (fun x => below before x.1 = true) (listing st act ops) = drop k (listing st act ops) ->
  (length (listing st act ops) < k + fuel)%nat -> (k <= length (listing st act ops))%nat ->
  browse fuel query d = (d, Ok ((fun row => _operation_body row.2) <$> drop k (listing st act ops))).
Proof.
  revert query before k. induction fuel as [|fuel IH]; intros query before k Hq Hc Hb Hj Hi Hlen Hf Hfuel Hk; [lia|].
  pose proof (query_ok_limit _ _ _ _ Hq) as Hl. cbn [browse]. unfold mbind at 1, M_bind at 1.
  rewrite (page_quiet _ _ _ _ _ ops db _ Hq Hc Hb Hj Hi), Hf. set (full := listing st act ops) in *. set (n := Z.to_nat limit).
  assert (body_items (page_body limit (take n (drop k full))) = (fun row => _operation_body row.2) <$> take n (drop k full)) as Hitems by done.
  change (body_field "next_cursor" (page_body limit (take n (drop k full)))) with (Some (next_cursor limit (take n (drop k full)))).
  cbv iota. rewrite Hitems. unfold next_cursor. destruct (Z.eqb_spec (Z.of_nat (length (take n (drop k full)))) limit) as [E|E].
  - rewrite length_take, length_drop in E. destruct (last (take n (drop k full))) as [[cur r]|] eqn:El.
    2: { apply last_None in El. apply (f_equal length) in El. rewrite length_take, length_drop in El. simpl in El. lia. }
    assert (last (take (k + n) full) = Some (cur, r)) as Ht.
    { rewrite <- take_take_drop, last_app. by rewrite El. }
    assert ((cur, r) ∈ full) as Hin.
    { rewrite <- (take_drop (k + n) full). apply elem_of_app. left. apply last_Some in Ht as [pre ->]. apply elem_of_app. right. by left. }
    destruct (listing_range _ _ _ _ Hin) as [Hcur _]. simpl in Hcur.
    assert (below_eq : filter (fun x => below (Some cur) x.1 = true) full = drop (k + n) full).
    { apply (below_last full (k + n) (cur, r)); [apply listing_sorted|done]. }
    unfold mbind, M_bind. rewrite (IH _ (Some cur) (k + n)%nat); try done; try lia.
    + rewrite <- fmap_app. unfold mret, M_ret. do 3 f_equal. by rewrite <- drop_drop, take_drop.
    + by apply query_ok_cursor.
    + unfold _optional_cursor, query_value. rewrite lookup_insert_eq. cbn [mbind option_bind last]. rewrite int_of_text_str by lia. done.
  - rewrite length_take, length_drop in E. rewrite take_ge; [done|]. rewrite length_drop. lia.
Qed.

(** C29: following [next_cursor] from the first page, with any page size and filters, lists exactly the stored
    operations the filters select, each once, newest first, and ends; as many pages are needed as there are
    operations plus one at most. *)
Theorem pages_list_everything (query : Query) (limit : Z) (st : option op_state) (act : option op_action)
    (ops : list OperationRecord) (db : DB) (d : D) :
  query_ok query limit st act -> query !! "cursor" = None ->
  _journal d = Journal_init db [] -> db_inv ops db -> Z.of_nat (length ops) < 2 ^ 63 ->
  browse (S (length ops)) query d =
    (d, Ok (_operation_body <$> reverse (filter (fun r => matches st act r = true) ops))).
Proof.
  intros Hq Hc Hj Hi Hlen.
  assert (length (listing st act ops) <= length ops)%nat as Hle.
  { unfold listing. etrans; [apply length_filter|]. by rewrite length_reverse; unfold numbered; rewrite length_imap. }
  rewrite (browse_from (S (length ops)) query limit st act None 0 ops db); try done; try lia.
  - do 2 f_equal. rewrite drop_0. unfold listing. rewrite <- filter_rev. 
    transitivity (_operation_body <$> (snd <$> reverse (filter (fun x => matches st act x.2 = true) (numbered ops)))); [by rewrite <- list_fmap_compose|].
    f_equal. rewrite fmap_reverse. f_equal. rewrite <- (numbered_snd ops) at 2. by rewrite filter_map.
  - unfold _optional_cursor, query_value. by rewrite Hc.
  - rewrite filter_all; [by rewrite drop_0|]. by apply Forall_forall.
Qed.
End Browse.
