(* ===== verification/ApiStream.v ===== *)
(** * The event stream of the API (appliance/daemon/src/cs71d/api.py, [_Handler._stream])

    One handler thread serves one subscriber of the event ring while other threads
    publish, subscribe and close. A turn is what the handler does between two
    accesses to the ring; waiting for events is the choice of when the turn runs. *)
From S2P Require Import Prelude PyString Errors IsoTime Json JsonText Events Api.

Inductive phase :=
| Checking | Draining | Drained (l : list DaemonEvent) | Emitting (l : list DaemonEvent) | Over.

Record StreamState := mkStream { subscriber : nat; sent : list DaemonEvent; stream_phase : phase }.

Definition at_phase (p : phase) (s : StreamState) : StreamState := mkStream (subscriber s) (sent s) p.

(** [api.heartbeat()] and [api.snapshot_required()]. *)
Definition heartbeat (now generation : Z) : DaemonEvent := mkDaemonEvent 0 HEARTBEAT now generation None ∅.
Definition snapshot_required (now generation : Z) : DaemonEvent := mkDaemonEvent 0 SNAPSHOT_REQUIRED now generation None ∅.

Definition line_feed : string := String (chr 10) "".

(** The bytes of one frame. *)
Definition frame (e : DaemonEvent) : string :=
  "id: " +:+ str_of_Z (event_id e) +:+ line_feed
  +:+ "event: " +:+ event_type e +:+ line_feed
  +:+ "data: " +:+ dumps (_event_body e) +:+ line_feed +:+ line_feed.

Definition overflowed (id : nat) (r : EventRing) : bool :=
  match sub_heap r !! id with Some s => _overflowed s | None => false end.

(** Leaving the [with] block closes the subscriber. *)
Definition leave (s : StreamState) (r : EventRing) : EventRing * StreamState :=
  (close_subscriber (subscriber s) r, at_phase Over s).

(** [self._emit(event)]: whether the consumer is still there, [alive], is its answer. *)
Definition _emit (e : DaemonEvent) (s : StreamState) : StreamState := mkStream (subscriber s) (sent s ++ [e]) (stream_phase s).

(** One turn. [configured] is whether reading the heartbeat interval succeeded. *)
Definition stream_turn (now generation : Z) (alive configured : bool) (r : EventRing) (s : StreamState) : EventRing * StreamState :=
  let lost := if alive then _emit (snapshot_required now generation) s else s in
  match stream_phase s with
  | Checking => if overflowed (subscriber s) r then leave lost r else (r, at_phase Draining s)
  | Draining =>
      if configured then
        let p := drain_subscriber (subscriber s) r in (p.1, at_phase (Drained p.2) s)
      else leave s r
  | Drained l =>
      if overflowed (subscriber s) r then leave lost r
      else (r, at_phase (Emitting (match l with [] => [heartbeat now generation] | _ => l end)) s)
  | Emitting [] => (r, at_phase Checking s)
  | Emitting (e :: l) => if alive then (r, at_phase (Emitting l) (_emit e s)) else leave s r
  | Over => (r, s)
  end.

(** [api.events.subscribe(after=after)] on entry. *)
Definition stream_start (after : option Z) (r : EventRing) : EventRing * StreamState :=
  let p := subscribe after r in (p.1, mkStream p.2 [] Checking).

(** ** Runs

    The consumer's record in the ring's history takes what the stream drains. *)
Definition drained (configured : bool) (r : EventRing) (s : StreamState) : list DaemonEvent :=
  match stream_phase s with
  | Draining => if configured then (drain_subscriber (subscriber s) r).2 else []
  | _ => []
  end.

Inductive stream_step : relation (RingRun * StreamState) :=
| ss_other x x' s : ring_step x x' -> consumers x' !! subscriber s = consumers x !! subscriber s -> stream_step (x, s) (x', s)
| ss_turn r cs s c now g alive configured : cs !! subscriber s = Some c ->
    stream_step (mkRingRun r cs, s)
      (mkRingRun (stream_turn now g alive configured r s).1
         (<[subscriber s := mkConsumer (start c) (got c ++ drained configured r s)]> cs),
       (stream_turn now g alive configured r s).2).

(** The events of the ring among the frames, control frames left out. *)
Definition is_event (e : DaemonEvent) : Prop := 0 < event_id e.
#[export] Instance is_event_dec e : Decision (is_event e) := Z_lt_dec 0 (event_id e).
Definition events (l : list DaemonEvent) : list DaemonEvent := filter is_event l.

Definition unsent (p : phase) : list DaemonEvent :=
  match p with Drained l => l | Emitting l => events l | _ => [] end.

Definition lost (e : DaemonEvent) : bool := negb (bool_decide (is_event e)) && bool_decide (event_type e = SNAPSHOT_REQUIRED).

Record stream_ok (x : RingRun) (s : StreamState) (c : Consumer) : Prop := {
  st_ring : ring_wf x;
  st_consumer : consumers x !! subscriber s = Some c;
  st_start : 0 <= start c;
  st_sent : events (sent s) ++ unsent (stream_phase s) `prefix_of` got c;
  st_live : stream_phase s <> Over -> got c = events (sent s) ++ unsent (stream_phase s);
  st_lost : Forall (fun e => lost e = false) (sent s)
    \/ stream_phase s = Over /\ exists l e, sent s = l ++ [e] /\ lost e = true /\ Forall (fun e => lost e = false) l;
  st_controls : match stream_phase s with Emitting l => Forall (fun e => lost e = false) l | _ => True end;
}.

Lemma consecutive_ids n l : 0 <= n -> consecutive n l -> Forall is_event l.
Proof. intros Hn Hc. apply Forall_lookup. intros i e Hi. unfold is_event. rewrite (Hc i e Hi). lia. Qed.

Lemma events_all l : Forall is_event l -> events l = l.
Proof. apply filter_all. Qed.

Lemma events_app l1 l2 : events (l1 ++ l2) = events l1 ++ events l2.
Proof. apply filter_app. Qed.

Lemma event_not_lost e : is_event e -> lost e = false.
Proof. intros He. unfold lost. by rewrite bool_decide_true. Qed.

(** ** The invariant is kept *)

Lemma keep_consumer (cs : gmap nat Consumer) id c : cs !! id = Some c -> <[id := mkConsumer (start c) (got c ++ [])]> cs = cs.
Proof. intros H. rewrite app_nil_r. apply insert_id. by destruct c. Qed.

Lemma other_ok x x' s c : stream_ok x s c -> ring_step x x' -> consumers x' !! subscriber s = consumers x !! subscriber s ->
  stream_ok x' s c.
Proof. intros [] Hs Hc. split; try done; [by eapply ring_step_wf|congruence]. Qed.

Lemma got_events r cs id c : ring_wf (mkRingRun r cs) -> cs !! id = Some c -> 0 <= start c -> Forall is_event (got c).
Proof. intros Hw Hid Hs. eapply consecutive_ids; [done|]. by apply (rw_consumers _ Hw id c). Qed.

(** Sending what is no event of the ring changes nothing of what was sent. *)
Lemma events_snoc l e : events (l ++ [e]) = events l ++ (if bool_decide (is_event e) then [e] else []).
Proof. rewrite events_app. unfold events at 2. rewrite filter_cons, filter_nil.
  case_bool_decide; [by rewrite decide_True|by rewrite decide_False].
Qed.

(** Leaving after the loss was reported, or without a word. *)
Lemma leave_ok r cs s s' c : stream_ok (mkRingRun r cs) s c -> subscriber s' = subscriber s -> events (sent s') = events (sent s) ->
  (Forall (fun e => lost e = false) (sent s') \/ exists l e, sent s' = l ++ [e] /\ lost e = true /\ Forall (fun e => lost e = false) l) ->
  stream_ok (mkRingRun (leave s' r).1 cs) (leave s' r).2 c.
Proof.
  intros [] Hid Hev Hl. split; simpl; try done.
  - by apply close_wf.
  - by rewrite Hid.
  - rewrite Hev, app_nil_r. by etrans; [apply prefix_app_r|].
  - destruct Hl as [Hl|Hl]; [by left|by right].
Qed.

Lemma live_lost s : (Forall (fun e => lost e = false) (sent s) \/ stream_phase s = Over /\
    exists l e, sent s = l ++ [e] /\ lost e = true /\ Forall (fun e => lost e = false) l) ->
  stream_phase s <> Over -> Forall (fun e => lost e = false) (sent s).
Proof. intros [Hl|[Ho _]] Hp; done. Qed.

Lemma report_lost now g alive (s : StreamState) : Forall (fun e => lost e = false) (sent s) ->
  let s' := if alive : bool then _emit (snapshot_required now g) s else s in
  subscriber s' = subscriber s /\ events (sent s') = events (sent s)
  /\ (Forall (fun e => lost e = false) (sent s') \/ exists l e, sent s' = l ++ [e] /\ lost e = true /\ Forall (fun e => lost e = false) l).
Proof.
  intros Hl. destruct alive; simpl; [|by split_and!; [..|left]]. split_and!; [done| |right; by eexists _, _].
  rewrite events_snoc, bool_decide_false; [by rewrite app_nil_r|]. unfold is_event. simpl. lia.
Qed.

Lemma turn_ok r cs s c now g alive configured : stream_ok (mkRingRun r cs) s c ->
  let p := stream_turn now g alive configured r s in
  let c' := mkConsumer (start c) (got c ++ drained configured r s) in
  stream_ok (mkRingRun p.1 (<[subscriber s := c']> cs)) p.2 c'.
Proof.
  intros Hok. pose proof Hok as [Hw Hc Hs Hpre Hlive Hlost Hctl]. simpl in Hc. unfold drained, stream_turn.
  destruct (stream_phase s) as [| |l|[|e l]|] eqn:Ep; cbv zeta; cbn [fst snd];
    try (rewrite (keep_consumer cs (subscriber s) c Hc), app_nil_r; replace (mkConsumer (start c) (got c)) with c by (by destruct c)).
  - pose proof (live_lost s ltac:(by rewrite Ep) ltac:(by rewrite Ep)) as Hl. destruct (overflowed _ _).
    + destruct (report_lost now g alive s Hl) as (? & ? & ?). by apply (leave_ok r cs s).
    + split; simpl; try done; [intros _; by apply Hlive|by left].
  - pose proof (live_lost s ltac:(by rewrite Ep) ltac:(by rewrite Ep)) as Hl. destruct configured.
    + simpl in Hpre, Hlive. specialize (Hlive ltac:(done)). rewrite app_nil_r in Hlive.
      split; simpl; try done.
      * by apply drain_wf.
      * by rewrite lookup_insert_eq.
      * by rewrite Hlive.
      * by rewrite Hlive.
      * by left.
    + rewrite (keep_consumer cs (subscriber s) c Hc), app_nil_r. replace (mkConsumer (start c) (got c)) with c by (by destruct c).
      apply (leave_ok r cs s); try done. by left.
  - pose proof (live_lost s ltac:(by rewrite Ep) ltac:(by rewrite Ep)) as Hl. simpl in Hpre, Hlive.
    specialize (Hlive ltac:(done)). destruct (overflowed _ _).
    + destruct (report_lost now g alive s Hl) as (? & ? & ?). by apply (leave_ok r cs s).
    + assert (Forall is_event l) as Hev.
      { pose proof (got_events r cs _ c Hw Hc Hs) as Hg. rewrite Hlive in Hg. by apply Forall_app in Hg as [_ Hg]. }
      destruct l as [|e l]; split; simpl; try done; try (by left).
      * repeat constructor.
      * by rewrite (events_all (e :: l)).
      * intros _. by rewrite (events_all (e :: l)) by done.
      * eapply Forall_impl; [exact Hev|]. apply event_not_lost.
  - pose proof (live_lost s ltac:(by rewrite Ep) ltac:(by rewrite Ep)) as Hl. simpl in Hpre, Hlive.
    split; simpl; try done; [intros _; by apply Hlive|by left].
  - pose proof (live_lost s ltac:(by rewrite Ep) ltac:(by rewrite Ep)) as Hl. simpl in Hpre, Hlive.
    specialize (Hlive ltac:(done)). apply Forall_cons in Hctl as [He Hctl]. destruct alive; [|apply (leave_ok r cs s); try done; by left].
    assert (events (e :: l) = (if bool_decide (is_event e) then [e] else []) ++ events l) as Econs.
    { unfold events at 1. rewrite filter_cons. case_bool_decide; [by rewrite decide_True|by rewrite decide_False]. }
    split; simpl; try done.
    + by rewrite events_snoc, <- app_assoc, <- Econs.
    + intros _. by rewrite events_snoc, <- app_assoc, <- Econs.
    + left. apply Forall_app. split; [done|]. by constructor.
  - done.
Qed.

Lemma step_ok x s y c : stream_ok x s c -> stream_step (x, s) y -> exists c', stream_ok y.1 y.2 c' /\ start c' = start c.
Proof.
  intros Hok Hs. inversion Hs as [? ? ? Hr Hsame|? ? ? c0 now g alive configured Hc]; subst; simpl.
  - exists c. split; [by eapply other_ok|done].
  - assert (c0 = c) as -> by (destruct Hok; simpl in *; congruence). eexists. split; [by apply turn_ok|done].
Qed.

Lemma start_ok r cs after : ring_wf (mkRingRun r cs) -> (forall a, after = Some a -> 0 <= a) ->
  let p := stream_start after r in let c := mkConsumer (default (_next_id r - 1) after) [] in
  stream_ok (mkRingRun p.1 (<[subscriber p.2 := c]> cs)) p.2 c.
Proof.
  intros Hw Ha p c. split; try done.
  - by apply subscribe_wf.
  - simpl. by rewrite lookup_insert_eq.
  - destruct (rw_window _ Hw) as (n & _ & Hn & Hl). simpl in Hl. destruct after as [a|]; simpl; [by apply Ha|lia].
  - by left.
Qed.

