(* ===== verification/ApiDemo.v ===== *)
(** * Concrete requests to the API

    The daemon of DomainDemo behind the API, with two secrets: requests in which the
    theorems are applied, and requests whose answers are not the intended ones. *)
From S2P Require Import Prelude PyString Errors IsoTime Json JsonText Operations Models Session Machine Journal JournalSpec JournalSafety.
From S2P Require Import Configuration Adapters Events Domain DomainTotal DomainSpec DomainDemo Http Api ApiSpec ApiReply ApiPages ApiStream.

Definition demo_loads (s : string) : result json :=
  match loads s with Some v => Ok v | None => throw (Builtin ValueError) "Expecting value" end.

Lemma demo_loads_halts s : halts (demo_loads s).
Proof. unfold demo_loads. by destruct (loads s). Qed.

Definition demo_api : ApiServer := mkApiServer "bff-secret" (Some "machine-secret").
Lemma demo_api_made : ApiServer_make "bff-secret" (Some "machine-secret") = Ok demo_api.
Proof. vm_compute. reflexivity. Qed.

Definition actor_json (user : json) (role : json) : json := JObj [("user_id", user); ("role", role)].
Definition sort_payload (actor : json) : string :=
  dumps (JObj [("api_version", JStr "v1"); ("actor", actor); ("slot", JInt 3)]).

(** POST of a body with the given secret and generation. *)
Definition post (path secret generation payload : string) : HttpRequest :=
  mkHttpRequest "POST" (Some (path, ∅))
    [("Authorization", "Bearer " +:+ secret); ("X-Request-ID", demo_id); ("Content-Length", str_of_Z (slen payload));
     ("Idempotency-Key", "0123456789abcdef"); ("If-Match-Generation", generation); ("X-Deadline-Ms", "1000")] payload.

Definition machine_sort : HttpRequest :=
  post "/v1/operations/sort" "machine-secret" "3" (sort_payload (actor_json (JStr "vision") (JStr "machine"))).

(** The status and the error code of an answer. *)
Definition status_and_code (reply : res api_exn HttpReply) : option (Z * option json) :=
  match reply with
  | Ok (Written code _ payload) => Some (code, loads payload ≫= body_field "code")
  | _ => None
  end.

Definition ask (r : HttpRequest) (d : OperationDomain Recorder) : option (Z * option json) :=
  status_and_code (_dispatch demo_env demo_loads demo_api r d).2.

(** The machine's secret submits a sort, and nothing else; neither secret works in the other's role. *)
Example machine_only_sorts :
  ask machine_sort demo_ready = Some (202, None)
  /\ ask (post "/v1/machine/stop" "machine-secret" "*"
            (dumps (JObj [("api_version", JStr "v1"); ("actor", actor_json (JStr "vision") (JStr "machine"))]))) demo_ready
       = Some (403, Some (JStr "FORBIDDEN"))
  /\ ask (post "/v1/operations/sort" "machine-secret" "3" (sort_payload (actor_json (JStr "eve") (JStr "operator")))) demo_ready
       = Some (403, Some (JStr "FORBIDDEN"))
  /\ ask (post "/v1/operations/sort" "bff-secret" "3" (sort_payload (actor_json (JStr "eve") (JStr "machine")))) demo_ready
       = Some (403, Some (JStr "FORBIDDEN"))
  /\ ask (post "/v1/operations/sort" "guess" "3" (sort_payload (actor_json (JStr "eve") (JStr "operator")))) demo_ready
       = Some (401, Some (JStr "UNAUTHENTICATED"))
  /\ ask (post "/v1/operations/sort" "bff-secret" "2" (sort_payload (actor_json (JStr "alice") (JStr "operator")))) demo_ready
       = Some (409, Some (JStr "STALE_GENERATION")).
Proof. vm_compute. by split_and!. Qed.

(** What [machine_sort] says. *)
Definition sort_call : domain_call :=
  DSubmit OperationAction.SORT {["slot" := BInt 3]} (mkActor "vision" "machine") "0123456789abcdef" 3 (BInt 1000).

Lemma machine_sort_granted : granted demo_loads demo_api machine_sort sort_call.
Proof.
  exists MACHINE. split; [apply authenticate_iff; [by eapply server_make_ok, demo_api_made|vm_compute; reflexivity]|].
  eapply (asks_sort _ _ _ ∅ (sort_payload (actor_json (JStr "vision") (JStr "machine")))
            [("api_version", JStr "v1"); ("actor", actor_json (JStr "vision") (JStr "machine")); ("slot", JInt 3)]); try reflexivity.
  - apply read_body_iff. vm_compute. reflexivity.
  - apply json_object_iff. vm_compute. reflexivity.
  - apply commanding_actor_iff. vm_compute. reflexivity.
  - apply key_iff. vm_compute. reflexivity.
  - apply deadline_iff. vm_compute. reflexivity.
  - apply exact_generation_iff. vm_compute. reflexivity.
  - done.
Qed.

Lemma requests_are_entitled_witness :
  _worker (_dispatch demo_env demo_loads demo_api machine_sort demo_ready).1 = [(Some (SortIntent 3), demo_id)]
  /\ (_dispatch demo_env demo_loads demo_api machine_sort demo_ready).1 = run_domain demo_env sort_call (_request_id demo_env machine_sort demo_ready).1
  /\ rtc (domain_step demo_env) demo_ready (_dispatch demo_env demo_loads demo_api machine_sort demo_ready).1.
Proof.
  split; [vm_compute; reflexivity|].
  destruct (requests_are_entitled demo_env demo_loads MAX_DEADLINE_MS "bff-secret" (Some "machine-secret") demo_api machine_sort
    demo_ready demo_api_made) as (_ & Hr & Hc & _); [destruct demo_ready_inv as [ops Hi]; apply Hi|].
  split; [apply Hc, machine_sort_granted|exact Hr].
Defined.

(** The worker of the demonstration answers every call. *)
Lemma recorder_submit_answers i r (w : Recorder) : halts (worker_submit i r w).2.
Proof. done. Qed.
Lemma recorder_stop_answers r (w : Recorder) : halts (worker_submit_priority_stop r w).2.
Proof. done. Qed.

Lemma every_request_answered_witness :
  status_and_code (_dispatch demo_env demo_loads demo_api machine_sort demo_ready).2 = Some (202, None)
  /\ exists d1 request_id reply, _request_id demo_env machine_sort demo_ready = (d1, Ok request_id)
     /\ (_dispatch demo_env demo_loads demo_api machine_sort demo_ready).2 = Ok reply.
Proof.
  split; [vm_compute; reflexivity|].
  destruct (every_request_answered demo_env demo_loads demo_loads_halts recorder_submit_answers recorder_stop_answers
    demo_api machine_sort demo_ready) as (d1 & id & reply & H1 & H2 & _).
  exists d1, id, reply. exact (conj H1 H2).
Defined.

(** One operation, a page of one row, and the empty page after it. *)
Definition demo_query : Query := {["limit" := ["1"]]}.
Definition demo_listed : OperationDomain Recorder :=
  mkOperationDomain (Journal_init demo_db []) MachineState_init demo_ring [] ConfigurationValues_default 1 (demo_now 0)
    MAX_DEADLINE_MS 1 0 0.

Lemma pages_list_everything_witness :
  browse 2 demo_query demo_listed = (demo_listed, Ok [_operation_body (demo_op demo_id)]).
Proof.
  apply (pages_list_everything demo_query 1 None None [demo_op demo_id] demo_db demo_listed);
    [split_and!; reflexivity|reflexivity|reflexivity|apply demo_db_inv|vm_compute; reflexivity].
Defined.


(** ** Answers that are not the intended ones *)

(** A negative length is below the limit, and [read] takes it to mean everything up to the end of the
    connection: the body is buffered whatever its size. *)
Example negative_length_unbounded (input : string) :
  _read_body (mkHttpRequest "POST" None [("Content-Length", "-1")] input) = Ok input.
Proof. reflexivity. Qed.

(** A role that is a list cannot be hashed, and an exact generation of more than 4300 digits cannot be
    converted: both bad requests are answered as internal errors. *)
Example bad_requests_answered_500 :
  ask (post "/v1/operations/sort" "bff-secret" "3" (sort_payload (actor_json (JStr "alice") (JArr [])))) demo_ready
    = Some (500, Some (JStr "INTERNAL_ERROR"))
  /\ ask (post "/v1/operations/sort" "bff-secret" (String.concat "" (repeat "1" 4301))
            (sort_payload (actor_json (JStr "alice") (JStr "operator")))) demo_ready
    = Some (500, Some (JStr "INTERNAL_ERROR")).
Proof. vm_compute. by split. Qed.

(** A user id that is no string is attributed by its Python text. *)
Example null_user_is_attributed :
  _commanding_actor (py_dict [("actor", actor_json JNull (JStr "operator"))]) BFF "stop" = Ok (mkActor "None" "operator").
Proof. vm_compute. reflexivity. Qed.

(** A heartbeat is sent with an id of its own, 0, which a client takes as its last event id: reconnecting with
    it replays events it has already read. *)
Definition two_events : EventRing := demo_publish 3 (demo_publish 2 demo_ring).
Example heartbeat_resets_cursor :
  startswith (frame (heartbeat 0 3)) ("id: 0" +:+ line_feed) = true
  /\ _last_event_id {["last-event-id" := "0"]} = Ok (Some 0)
  /\ event_id <$> (drain_subscriber 0%nat (subscribe (Some 2) two_events).1).2 = []
  /\ event_id <$> (drain_subscriber 0%nat (subscribe (Some 0) two_events).1).2 = [1; 2].
Proof. vm_compute. by split_and!. Qed.
