(* ===== verification/Nfr.v ===== *)
(** * The latency measurement (appliance/daemon/scripts/measure_nfr.py)

    The requests of the load profile, the loops that send and time them, and the report that is made of the samples. What the
    requests meet is [ApiServer] (Api); the clock, the connection and the files that tell the hardware are the world's. *)
From S2P Require Import Prelude PyString PyFloat Errors IsoTime Json JsonText Operations Models Session Machine Journal JournalSpec JournalSafety.
From S2P Require Import Configuration Adapters Events Domain DomainTotal DomainSpec DomainDemo Http Api ApiDemo.

Definition LOAD_PROFILE_VERSION : Z := 1.
Definition STOP_SAMPLES : Z := 200.
Definition SNAPSHOT_SAMPLES : Z := 500.
Definition NFR01_THRESHOLD_MS : spec_float := float_of_int 250.
Definition NFR02_THRESHOLD_MS : spec_float := float_of_int 100.
Definition NFR02_PERCENTILE : Z := 99.
Definition TOKEN : string := "measure-nfr-local-credential".

Record Sample := mkSample { milliseconds : spec_float; sample_status : Z }.

(** ** The requests *)

(** What [http.client] writes for a request: its own headers, then the caller's. *)
Definition wire (m path : string) (headers : list (string * string)) (body : option string) : HttpRequest :=
  mkHttpRequest m (Some (path, ∅))
    ([("Host", "localhost"); ("Accept-Encoding", "identity")]
     ++ match body with Some b => [("Content-Length", str_of_Z (slen b))] | None => [] end ++ headers)
    (default "" body).

Definition _request_of (m path : string) (body : option string) : HttpRequest :=
  wire m path (("Authorization", "Bearer " +:+ TOKEN) :: match body with Some _ => [("Content-Type", "application/json")] | None => [] end) body.

Fixpoint str_repeat (n : nat) (s : string) : string := match n with O => "" | S n => s +:+ str_repeat n s end.

(** [format(n, "06d")] for the width 6. *)
Definition zero_padded (width : nat) (n : Z) : string :=
  let s := str_of_Z n in str_repeat (width - String.length s) "0" +:+ s.

Definition stop_payload : json :=
  JObj [("api_version", JStr "v1"); ("actor", JObj [("user_id", JStr "measure-nfr"); ("role", JStr "operator")])].
Definition stop_key (index : Z) : string := "measure-nfr-stop-" +:+ zero_padded 6 index +:+ "-" +:+ str_repeat 16 "a".
Definition stop_request (index : Z) : HttpRequest :=
  wire "POST" "/v1/machine/stop"
    [("Authorization", "Bearer " +:+ TOKEN); ("Content-Type", "application/json"); ("Idempotency-Key", stop_key index);
     ("If-Match-Generation", "*"); ("X-Deadline-Ms", "5000")]
    (Some (dumps_default stop_payload)).

(** ** The measurement *)

Section Measuring.
(** [perf_counter], a whole exchange over a connection of its own, and its [close]. *)
Context {K : Type} (perf_counter : K -> spec_float * K) (exchange : HttpRequest -> M K exn Z) (close : K -> K).

Definition clock_read : M K exn spec_float := fun k => let '(t, k) := perf_counter k in (k, Ok t).
Definition sf_sub := SFsub 53 1024.
Definition sf_mul := SFmul 53 1024.
Definition sf_add := SFadd 53 1024.
Definition sf_div := SFdiv 53 1024.

(** The [try] block and its [finally]. *)
Definition timed (r : HttpRequest) : M K exn Sample := fun k =>
  let '(k, s) := (started ← clock_read; status ← exchange r; ended ← clock_read;
                  mret (mkSample (sf_mul (sf_sub ended started) (float_of_int 1000)) status)) k in
  (close k, s).

Definition _request (m path : string) (body : option string) : M K exn Sample := timed (_request_of m path body).

Definition _measure_stop_admission : M K exn (list Sample) := mapM (M:=M K exn) (fun index => timed (stop_request index)) (seqZ 0 STOP_SAMPLES).
Definition _measure_snapshot_reads : M K exn (list Sample) :=
  mapM (M:=M K exn) (fun _ : Z => _request "GET" "/v1/snapshot" None) (seqZ 0 SNAPSHOT_SAMPLES).
End Measuring.

(** ** The report *)

(** [sorted(values)] *)
Fixpoint insert_float (x : spec_float) (l : list spec_float) : list spec_float :=
  match l with [] => [x] | y :: l => if SFltb x y then x :: y :: l else y :: insert_float x l end.
Definition sorted (l : list spec_float) : list spec_float := foldl (fun acc x => insert_float x acc) [] l.

(** [max(values)] keeps the first of equals. *)
Definition max_float (l : list spec_float) : option spec_float :=
  match l with [] => None | x :: l => Some (foldl (fun m y => if SFltb m y then y else m) x l) end.

(** [statistics.quantiles(values, n=n, method="inclusive")] of two values or more. *)
Definition quantiles (values : list spec_float) (n : Z) : list spec_float :=
  let data := sorted values in
  let m := Z.of_nat (length data) - 1 in
  (fun i => let j := i * m / n in
            let delta := i * m mod n in
            sf_div (sf_add (sf_mul (nth (Z.to_nat j) data S754_nan) (float_of_int (n - delta)))
                           (sf_mul (nth (Z.to_nat (j + 1)) data S754_nan) (float_of_int delta)))
                   (float_of_int n)) <$> seqZ 1 (n - 1).

Definition _percentile (values : list spec_float) (percentile : Z) : spec_float :=
  match values with
  | [] => S754_zero false
  | [x] => x
  | _ => nth (Z.to_nat (percentile - 1)) (quantiles values 100) S754_nan
  end.

(** What the files say: a file that is not there, one that cannot be read, or its text. *)
Inductive FileText := Missing | Unreadable (e : exn) | Text (s : string).

Fixpoint str_contains (p s : string) : bool :=
  startswith s p || match s with String _ s => str_contains p s | "" => false end.

Definition model_path : string := "/proc/device-tree/model".

Definition _is_approved_pi5 (platform : string) (model_file : FileText) : bool * string :=
  match model_file with
  | Missing => (false, "not Linux/device-tree hardware (" +:+ platform +:+ ")")
  | Unreadable e => (false, "could not read " +:+ model_path +:+ ": " +:+ exn_msg e)
  | Text text =>
      let nul := fun c => Ascii.eqb c (chr 0) in
      let model := str_strip (strip_right nul (strip_left nul text)) in
      if negb (str_contains "Raspberry Pi 5" model)
      then (false, "device-tree model is " +:+ str_repr model +:+ ", not an approved Raspberry Pi 5")
      else (true, model)
  end.

Definition _cpu_governor (governor_file : FileText) : option string :=
  match governor_file with Text s => Some (str_strip s) | _ => None end.

Record Hardware := mkHardware { approved_raspberry_pi_5 : bool; detail : string; platform : string; python_version : string; cpu_governor : option string }.
Record Nfr01 := mkNfr01 { stop_requirement_ms : spec_float; stop_sample_count : Z; admitted_count : Z; max_ms : option spec_float; stop_within_threshold : bool }.
Record Nfr02 := mkNfr02 {
  read_requirement_ms : spec_float; requirement_percentile : Z; read_sample_count : Z; ok_count : Z; p99_ms : option spec_float;
  fraction_within_threshold : option spec_float; read_within_threshold : bool }.
Record Report := mkReport {
  load_profile_version : Z; evidence_status : string; evidence_note : string; hardware : Hardware; dtr_gate_status : string;
  measured_at : string; nfr_01 : Nfr01; nfr_02 : Nfr02 }.

Definition with_status (code : Z) (samples : list Sample) : list spec_float :=
  milliseconds <$> filter (fun s => sample_status s = code) samples.

Definition nfr01_report (stop_samples : list Sample) : Nfr01 :=
  let stop_admitted := with_status 202 stop_samples in
  let stop_p_max := max_float stop_admitted in
  mkNfr01 NFR01_THRESHOLD_MS (Z.of_nat (length stop_samples)) (Z.of_nat (length stop_admitted)) stop_p_max
    (match stop_p_max with Some x => SFleb x NFR01_THRESHOLD_MS | None => false end).

Definition nfr02_report (snapshot_samples : list Sample) : Nfr02 :=
  let snapshot_ok := with_status 200 snapshot_samples in
  let snapshot_within :=
    match snapshot_ok with
    | [] => None
    | _ => Some (true_div (Z.of_nat (length (filter (fun v => SFleb v NFR02_THRESHOLD_MS = true) snapshot_ok))) (Z.of_nat (length snapshot_ok)))
    end in
  mkNfr02 NFR02_THRESHOLD_MS NFR02_PERCENTILE (Z.of_nat (length snapshot_samples)) (Z.of_nat (length snapshot_ok))
    (match snapshot_ok with [] => None | _ => Some (_percentile snapshot_ok NFR02_PERCENTILE) end)
    snapshot_within
    (match snapshot_within with Some f => SFleb (true_div 99 100) f | None => false end).

Definition approved_note : string :=
  "Measured on the approved rig; a human reviewer still confirms this before release, the same as any other qualification result.".
Definition sanity_note : string :=
  "Measured on non-Pi hardware for harness sanity only. Per docs/architecture/testing-and-quality.md, simulator/desktop measurements cannot satisfy NFR-01/NFR-02; re-run this exact script on the approved Raspberry Pi 5 rig to close this gate.".

Section Reporting.
Context (platform_name version now : string) (model_file governor_file : FileText).

Definition _report (stop_samples snapshot_samples : list Sample) : Report :=
  let '(approved, hardware_detail) := _is_approved_pi5 platform_name model_file in
  mkReport LOAD_PROFILE_VERSION (if approved then "PASS_CANDIDATE" else "NOT_EXECUTED")
    (if approved then approved_note else sanity_note)
    (mkHardware approved hardware_detail platform_name version (_cpu_governor governor_file))
    DTR_GATE_STATUS now (nfr01_report stop_samples) (nfr02_report snapshot_samples).
End Reporting.

(** ** The order of the times *)

(** The order [SFcompare] decides, NaN apart: by sign, then by exponent and significand. *)
Definition rank (x : spec_float) : Z * Z * Z :=
  match x with
  | S754_nan => (0, 0, 0)
  | S754_zero _ => (0, 0, 0)
  | S754_infinity s => (if s then -2 else 2, 0, 0)
  | S754_finite s m e => if s then (-1, - e, Zneg m) else (1, e, Zpos m)
  end.
Definition rank_le (a b : Z * Z * Z) : Prop :=
  a.1.1 < b.1.1 \/ (a.1.1 = b.1.1 /\ (a.1.2 < b.1.2 \/ (a.1.2 = b.1.2 /\ a.2 <= b.2))).

Definition number (x : spec_float) : Prop := x <> S754_nan.

Lemma leb_rank x y : number x -> number y -> (SFleb x y = true <-> rank_le (rank x) (rank y)).
Proof.
  unfold SFleb, rank_le, rank. intros Hx Hy.
  destruct x as [?|[]| |[] m e]; destruct y as [?|[]| |[] m' e']; try done; cbn [SFcompare fst snd]; try (split; [intros; lia|done]); try (split; [done|lia]).
  - destruct (Z.compare_spec e e') as [->|He|He]; [|split; [done|lia]|split; [lia|done]].
    change (Pos.compare_cont Eq m m') with (Pos.compare m m'). destruct (Pos.compare_spec m m') as [->|Hm|Hm]; cbn [CompOpp]; split; try done; lia.
  - destruct (Z.compare_spec e e') as [->|He|He]; [|split; [lia|done]|split; [done|lia]].
    change (Pos.compare_cont Eq m m') with (Pos.compare m m'). destruct (Pos.compare_spec m m') as [->|Hm|Hm]; split; try done; lia.
Qed.

Lemma ltb_leb x y : number x -> number y -> SFltb x y = negb (SFleb y x).
Proof.
  unfold SFltb, SFleb, number. destruct x as [?|[]| |[] m e]; destruct y as [?|[]| |[] m' e']; try done; intros _ _; cbn [SFcompare].
  - rewrite (Z.compare_antisym e e'). destruct (e ?= e'); try done. cbn [CompOpp].
    change (Pos.compare_cont Eq m m') with (Pos.compare m m'). change (Pos.compare_cont Eq m' m) with (Pos.compare m' m).
    rewrite (Pos.compare_antisym m m'). by destruct (Pos.compare m m').
  - rewrite (Z.compare_antisym e e'). destruct (e ?= e'); try done. cbn [CompOpp].
    change (Pos.compare_cont Eq m m') with (Pos.compare m m'). change (Pos.compare_cont Eq m' m) with (Pos.compare m' m).
    rewrite (Pos.compare_antisym m m'). by destruct (Pos.compare m m').
Qed.

Lemma leb_trans x y z : number x -> number y -> number z -> SFleb x y = true -> SFleb y z = true -> SFleb x z = true.
Proof. intros Hx Hy Hz. rewrite !leb_rank by done. unfold rank_le. lia. Qed.
Lemma leb_refl x : number x -> SFleb x x = true.
Proof. intros Hx. apply leb_rank; [done..|]. unfold rank_le. lia. Qed.
Lemma leb_total x y : number x -> number y -> SFltb x y = false -> SFleb y x = true.
Proof. intros Hx Hy. rewrite ltb_leb by done. by intros ?%negb_false_iff. Qed.
Lemma ltb_le x y : number x -> number y -> SFltb x y = true -> SFleb x y = true.
Proof. intros Hx Hy. rewrite ltb_leb, leb_rank by done. intros Hn%negb_true_iff. destruct (SFleb y x) eqn:E; [done|].
  assert (~ rank_le (rank y) (rank x)) as Hr by (rewrite <- leb_rank, E by done; done). unfold rank_le in *. lia. Qed.

(** On a whole profile of reads the division rounds to the right side of 0.99. *)
Definition fraction_agrees (k : Z) : bool :=
  Bool.eqb (SFleb (true_div 99 100) (true_div k SNAPSHOT_SAMPLES)) (99 * SNAPSHOT_SAMPLES <=? 100 * k).

Lemma fractions_agree : forallb fraction_agrees (seqZ 0 (SNAPSHOT_SAMPLES + 1)) = true.
Proof. vm_compute. reflexivity. Qed.

Lemma fraction_exact k : 0 <= k <= SNAPSHOT_SAMPLES ->
  (SFleb (true_div 99 100) (true_div k SNAPSHOT_SAMPLES) = true <-> 99 * SNAPSHOT_SAMPLES <= 100 * k).
Proof.
  intros Hk. assert (fraction_agrees k = true) as Hf.
  { eapply forallb_forall; [apply fractions_agree|]. apply list_elem_of_In, elem_of_seqZ. lia. }
  apply eqb_prop in Hf. rewrite Hf. apply Z.leb_le.
Qed.

Lemma max_float_spec l m : Forall number l -> max_float l = Some m -> m ∈ l /\ forall x, x ∈ l -> SFleb x m = true.
Proof.
  destruct l as [|a l]; [done|]. intros [Ha Hl]%Forall_cons [= <-]. revert a Ha.
  induction Hl as [|b l Hb Hl IH]; intros a Ha; cbn [foldl]; [split; [set_solver|by intros x ->%list_elem_of_singleton; apply leb_refl]|].
  assert (number (if SFltb a b then b else a)) as Hc by by destruct (SFltb a b).
  destruct (IH _ Hc) as [Hin Hle]. split; [destruct (SFltb a b); set_solver|].
  rewrite Forall_forall in Hl. set (m := foldl _ _ l) in *. assert (number m) as Hm by (apply elem_of_cons in Hin as [->|?]; auto).
  assert (SFleb (if SFltb a b then b else a) m = true) as Hcm by (apply Hle; left).
  intros x [->|[->|Hx]%elem_of_cons]%elem_of_cons; [| |by apply Hle; right].
  - eapply leb_trans; [exact Ha|exact Hc|exact Hm| |exact Hcm]. destruct (SFltb a b) eqn:E; [by apply ltb_le|by apply leb_refl].
  - eapply leb_trans; [exact Hb|exact Hc|exact Hm| |exact Hcm]. destruct (SFltb a b) eqn:E; [by apply leb_refl|by apply leb_total].
Qed.
Lemma max_float_none l : max_float l = None <-> l = [].
Proof. by destruct l. Qed.

Lemma insert_float_perm x l : insert_float x l ≡ₚ x :: l.
Proof. induction l as [|y l IH]; cbn; [done|]. destruct (SFltb x y); [done|]. rewrite IH. apply Permutation_swap. Qed.
Lemma sorted_perm l : sorted l ≡ₚ l.
Proof.
  unfold sorted. rewrite <- (app_nil_r l) at 2. generalize (@nil spec_float) as acc.
  induction l as [|x l IH]; intros acc; cbn [foldl]; [done|]. rewrite IH, insert_float_perm. symmetry. apply Permutation_middle.
Qed.

Definition ordered (l : list spec_float) : Prop := StronglySorted (fun x y => SFleb x y = true) l.
Lemma insert_float_ordered x l : number x -> Forall number l -> ordered l -> ordered (insert_float x l).
Proof.
  intros Hx Hl Ho. induction Ho as [|y l Ho IH Hy]; cbn; [by repeat constructor|]. apply Forall_cons in Hl as [Hny Hnl].
  destruct (SFltb x y) eqn:E.
  - constructor; [by constructor|]. apply Forall_cons. split; [by apply ltb_le|].
    rewrite Forall_forall in Hy, Hnl. apply Forall_forall. intros z Hz. apply (leb_trans x y z); auto using ltb_le.
  - constructor; [by apply IH|]. rewrite insert_float_perm. apply Forall_cons. split; [by apply leb_total|done].
Qed.
Lemma sorted_ordered l : Forall number l -> ordered (sorted l).
Proof.
  unfold sorted. intros Hl. assert (Forall number [] /\ ordered []) as Hacc by (split; constructor). revert Hacc.
  generalize (@nil spec_float) as acc. induction Hl as [|x l Hx Hl IH]; intros acc [Hn Ho]; cbn [foldl]; [done|]. apply IH.
  split; [rewrite insert_float_perm; by apply Forall_cons|by apply insert_float_ordered].
Qed.

(** [data[j]] and [data[j + 1]] are there. *)
Lemma quantile_in_range (n ld i : Z) : 2 <= ld -> 1 <= i < n -> 0 <= i * (ld - 1) / n /\ i * (ld - 1) / n + 1 < ld.
Proof. intros Hl Hi. split; [apply Z.div_pos; nia|]. assert (i * (ld - 1) / n < ld - 1) by (apply Z.div_lt_upper_bound; nia). lia. Qed.

Lemma startswith_iff s p : startswith s p = true <-> exists r, s = p +:+ r.
Proof. split; [apply startswith_inv|]. intros [r ->]. apply startswith_app. Qed.
Lemma str_contains_spec p s : str_contains p s = true <-> exists a b, s = a +:+ p +:+ b.
Proof.
  induction s as [|c s IH]; cbn [str_contains]; rewrite orb_true_iff.
  - rewrite startswith_iff. split.
    + intros [[b Hb]|]; [|done]. by exists "", b.
    + intros ([|? a] & b & Hab); [|done]. left. by exists b.
  - rewrite IH, startswith_iff. split.
    + intros [[b Hb]|(a & b & ->)]; [by exists "", b|by exists (String c a), b].
    + intros ([|d a] & b & Hab); [left; by exists b|right]. injection Hab as <- ->. by exists a, b.
Qed.

Lemma with_status_in code samples x : x ∈ with_status code samples <-> exists s, s ∈ samples /\ sample_status s = code /\ milliseconds s = x.
Proof. unfold with_status. rewrite list_elem_of_fmap. setoid_rewrite list_elem_of_filter. naive_solver. Qed.
Lemma with_status_number code samples : Forall (fun s => number (milliseconds s)) samples -> Forall number (with_status code samples).
Proof. rewrite !Forall_forall. intros Hs x (s & Hin & _ & <-)%with_status_in. by apply Hs. Qed.
Lemma with_status_all code samples : Forall (fun s => sample_status s = code) samples -> with_status code samples = milliseconds <$> samples.
Proof. intros Ha. unfold with_status. by rewrite filter_all. Qed.

(** The text of the device tree, without its padding. *)
Definition names_pi5 (model_file : FileText) : Prop :=
  exists text, model_file = Text text
    /\ exists a b, str_strip (strip_right (fun c => Ascii.eqb c (chr 0)) (strip_left (fun c => Ascii.eqb c (chr 0)) text)) = a +:+ "Raspberry Pi 5" +:+ b.

Lemma approved_spec name mf : (_is_approved_pi5 name mf).1 = true <-> names_pi5 mf.
Proof.
  unfold names_pi5. destruct mf as [|e|text]; cbn [_is_approved_pi5]; [split; [done|by intros (? & ? & _)]..|].
  destruct (str_contains _ _) eqn:E; cbn [negb fst].
  - split; [|done]. intros _. exists text. split; [done|]. by apply str_contains_spec.
  - split; [done|]. intros (? & [= <-] & Hab). apply str_contains_spec in Hab. congruence.
Qed.

Lemma stops_verdict stops : Forall number (with_status 202 stops) ->
  (stop_within_threshold (nfr01_report stops) = true
   <-> (exists s, s ∈ stops /\ sample_status s = 202)
       /\ forall s, s ∈ stops -> sample_status s = 202 -> SFleb (milliseconds s) NFR01_THRESHOLD_MS = true).
Proof.
  intros Hn. cbn [nfr01_report stop_within_threshold]. destruct (max_float (with_status 202 stops)) as [m|] eqn:Hm.
  - destruct (max_float_spec _ m Hn Hm) as [Hin Hle]. rewrite Forall_forall in Hn. split.
    + intros Hb. split; [apply with_status_in in Hin as (s & ? & ? & _); by exists s|]. intros s Hs Hst.
      assert (milliseconds s ∈ with_status 202 stops) as Hx by (apply with_status_in; by exists s).
      apply (leb_trans _ m); auto. done.
    + intros [_ Hall]. apply with_status_in in Hin as (s & Hs & Hst & <-). by apply Hall.
  - apply max_float_none in Hm. split; [done|]. intros [(s & Hs & Hst) _].
    assert (milliseconds s ∈ with_status 202 stops) as Hx by (apply with_status_in; by exists s). rewrite Hm in Hx. by apply not_elem_of_nil in Hx.
Qed.

Lemma length_filter_fmap {A B} (f : A -> B) (P : B -> Prop) `{forall x, Decision (P x)} (l : list A) :
  length (filter P (f <$> l)) = length (filter (fun x => P (f x)) l).
Proof. induction l as [|x l IH]; [done|]. rewrite fmap_cons, !filter_cons. by case_decide; cbn [length]; rewrite IH. Qed.

Lemma reads_verdict reads : Z.of_nat (length reads) = SNAPSHOT_SAMPLES -> Forall (fun s => sample_status s = 200) reads ->
  (read_within_threshold (nfr02_report reads) = true
   <-> 99 * SNAPSHOT_SAMPLES <= 100 * Z.of_nat (length (filter (fun s => SFleb (milliseconds s) NFR02_THRESHOLD_MS = true) reads))).
Proof.
  intros Hl Ha. unfold nfr02_report. cbn [read_within_threshold]. rewrite with_status_all by done.
  assert (length (milliseconds <$> reads) = length reads) as Hlen by apply length_fmap.
  destruct (milliseconds <$> reads) as [|x l] eqn:E; [cbn in Hlen; rewrite <- Hlen in Hl; done|]. rewrite <- E in Hlen |- *.
  rewrite Hlen, Hl, length_filter_fmap. apply fraction_exact. split; [lia|]. rewrite <- Hl. apply inj_le, length_filter.
Qed.

(** What a report says. Whatever the samples and the hardware, as long as every time is a number: it is a candidate for release evidence exactly when the device tree
    names a Raspberry Pi 5; the stops pass exactly when one was admitted and each admitted one took at most 250 ms, the refused ones left out; [max_ms]
    is the longest admitted time; and on a whole profile of answered reads the division decides exactly whether 99 of 100 took at most 100 ms. *)
Theorem report_verdicts (name version now : string) (mf gf : FileText) (stops reads : list Sample) :
  Forall (fun s => number (milliseconds s)) stops -> Forall (fun s => number (milliseconds s)) reads ->
  let r := _report name version now mf gf stops reads in
  (evidence_status r = "PASS_CANDIDATE" <-> names_pi5 mf) /\ (evidence_status r = "NOT_EXECUTED" <-> ~ names_pi5 mf)
  /\ (stop_within_threshold (nfr_01 r) = true
       <-> (exists s, s ∈ stops /\ sample_status s = 202)
           /\ forall s, s ∈ stops -> sample_status s = 202 -> SFleb (milliseconds s) NFR01_THRESHOLD_MS = true)
  /\ (forall m, max_ms (nfr_01 r) = Some m -> (exists s, s ∈ stops /\ sample_status s = 202 /\ milliseconds s = m)
       /\ forall s, s ∈ stops -> sample_status s = 202 -> SFleb (milliseconds s) m = true)
  /\ (Z.of_nat (length reads) = SNAPSHOT_SAMPLES -> Forall (fun s => sample_status s = 200) reads ->
       (read_within_threshold (nfr_02 r) = true
        <-> 99 * SNAPSHOT_SAMPLES <= 100 * Z.of_nat (length (filter (fun s => SFleb (milliseconds s) NFR02_THRESHOLD_MS = true) reads)))).
Proof.
  intros Hs Hr r. assert (Forall number (with_status 202 stops)) as Hn by by apply with_status_number.
  assert (approved_raspberry_pi_5 (hardware r) = true <-> names_pi5 mf) as Ha.
  { rewrite <- (approved_spec name). subst r. unfold _report. by destruct (_is_approved_pi5 name mf). }
  assert (evidence_status r = if approved_raspberry_pi_5 (hardware r) then "PASS_CANDIDATE" else "NOT_EXECUTED") as He.
  { subst r. unfold _report. by destruct (_is_approved_pi5 name mf). }
  assert (nfr_01 r = nfr01_report stops /\ nfr_02 r = nfr02_report reads) as [-> ->] by (subst r; unfold _report; by destruct (_is_approved_pi5 name mf)).
  split_and!.
  - rewrite He, <- Ha. by destruct (approved_raspberry_pi_5 _).
  - rewrite He, <- Ha. by destruct (approved_raspberry_pi_5 _).
  - apply stops_verdict; done.
  - intros m Hm. destruct (max_float_spec _ m Hn Hm) as [Hin Hle]. split; [by apply with_status_in|]. intros s Hin' Hst. apply Hle, with_status_in. by exists s.
  - apply reads_verdict.
Qed.

(** ** The requests reach the daemon *)

Lemma stop_keys_good : forallb (fun i => api_key_syntax (stop_key i)) (seqZ 0 STOP_SAMPLES) = true.
Proof. vm_compute. reflexivity. Qed.
Lemma stop_key_good i : 0 <= i < STOP_SAMPLES -> api_key_syntax (stop_key i) = true.
Proof. intros Hi. eapply (proj1 (forallb_forall _ _) stop_keys_good), list_elem_of_In, elem_of_seqZ. lia. Qed.
Lemma stop_keys_distinct : NoDup (stop_key <$> seqZ 0 STOP_SAMPLES).
Proof. apply (bool_decide_unpack _). vm_compute. done. Qed.
Lemma stop_key_inj i j : 0 <= i < STOP_SAMPLES -> 0 <= j < STOP_SAMPLES -> stop_key i = stop_key j -> i = j.
Proof.
  intros Hi Hj Hk. assert (forall k, 0 <= k < STOP_SAMPLES -> (stop_key <$> seqZ 0 STOP_SAMPLES) !! Z.to_nat k = Some (stop_key k)) as Hl.
  { intros k Hk'. rewrite list_lookup_fmap, lookup_seqZ_lt by lia. cbn. do 2 f_equal. lia. }
  assert (Z.to_nat i = Z.to_nat j) by (eapply NoDup_lookup; [apply stop_keys_distinct|by apply Hl|rewrite Hk; by apply Hl]). lia.
Qed.

Section Serving.
Context {W : Type} `{WorkerPort W} (env : Env) (json_loads : string -> result json).
Context (Hloads : forall text v, loads text = Some v -> json_loads text = Ok v).

Definition nfr_actor : Actor := mkActor "measure-nfr" "operator".

Lemma stop_payload_read : _json_object json_loads (dumps_default stop_payload)
  = Ok [("api_version", JStr "v1"); ("actor", JObj [("user_id", JStr "measure-nfr"); ("role", JStr "operator")])].
Proof. unfold _json_object. rewrite bool_decide_false by done. by rewrite (Hloads _ _ (loads_dumps_default stop_payload eq_refl)). Qed.

Lemma stop_headers key :
  let r := wire "POST" "/v1/machine/stop"
    [("Authorization", "Bearer " +:+ TOKEN); ("Content-Type", "application/json"); ("Idempotency-Key", key); ("If-Match-Generation", "*"); ("X-Deadline-Ms", "5000")]
    (Some (dumps_default stop_payload)) in
  headers_get "Authorization" r = Some ("Bearer " +:+ TOKEN) /\ _read_body r = Ok (dumps_default stop_payload)
  /\ header "idempotency-key" (lower_headers r) = key /\ header "if-match-generation" (lower_headers r) = "*"
  /\ header "x-deadline-ms" (lower_headers r) = "5000".
Proof. vm_compute. by split_and!. Qed.

Lemma lift_bind {A B} (a : A) (f : A -> M (OperationDomain W) api_exn B) d : (liftR (Ok a) ≫= f) d = f a d.
Proof. reflexivity. Qed.
Lemma server_made : ApiServer_make TOKEN None = Ok (mkApiServer TOKEN None).
Proof. vm_compute. reflexivity. Qed.
Lemma authenticated : authenticate (mkApiServer TOKEN None) (Some ("Bearer " +:+ TOKEN)) = Ok BFF.
Proof. vm_compute. reflexivity. Qed.

Lemma stop_reaches_domain (api : ApiServer) (index : Z) (d : OperationDomain W) :
  ApiServer_make TOKEN None = Ok api -> 0 <= index < STOP_SAMPLES ->
  attempt env json_loads api (stop_request index) d
  = (record ← domain (stop env nfr_actor (stop_key index) None (BInt 5000)); mret (accepted record)) d.
Proof.
  rewrite server_made. intros [= <-] Hi. destruct (stop_headers (stop_key index)) as (Ha & Hb & Hk & Hg & Hd).
  unfold attempt, stop_request. rewrite Ha, Hb, authenticated, !lift_bind. cbn [target wire]. unfold route. cbn [method wire].
  rewrite bool_decide_true by done. unfold _command, _idempotency_key, _deadline_ms, _stop_generation.
  rewrite Hk, Hg, Hd, stop_key_good, stop_payload_read by done. reflexivity.
Qed.

Lemma read_reaches_daemon (api : ApiServer) (d : OperationDomain W) : ApiServer_make TOKEN None = Ok api ->
  let view := m_snapshot (_machine d) in
  attempt env json_loads api (_request_of "GET" "/v1/snapshot" None) d
  = (b ← _machine_snapshot env view;
     mret (mkResponse 200 b (Some (String dquote "generation:" +:+ str_of_Z (ms_generation view) +:+ String dquote "")))) d.
Proof.
  rewrite server_made. intros [= <-] view.
  assert (headers_get "Authorization" (_request_of "GET" "/v1/snapshot" None) = Some ("Bearer " +:+ TOKEN)) as Ha by (vm_compute; reflexivity).
  assert (_read_body (_request_of "GET" "/v1/snapshot" None) = Ok "") as Hb by (vm_compute; reflexivity).
  unfold attempt. rewrite Ha, Hb, authenticated, !lift_bind. reflexivity.
Qed.
End Serving.

Section Samples.
Context {K : Type} (perf_counter : K -> spec_float * K) (exchange : HttpRequest -> M K exn Z) (close : K -> K).
Context (Hanswers : forall r k, is_ok (exchange r k).2 = true).

Lemma timed_answers r k : exists k' s, timed perf_counter exchange close r k = (k', Ok s).
Proof.
  unfold timed, clock_read, mbind, M_bind. destruct (perf_counter k) as [t0 k1]. cbn.
  pose proof (Hanswers r k1) as Ha. destruct (exchange r k1) as [k2 [s| |]]; [|done..]. destruct (perf_counter k2). by eexists _, _.
Qed.
Lemma mapM_step {A B} (g : A -> M K exn B) a l k :
  mapM (M:=M K exn) g (a :: l) k = (b ← g a; bs ← mapM (M:=M K exn) g l; mret (b :: bs)) k.
Proof. reflexivity. Qed.
Lemma timed_all {A} (f : A -> HttpRequest) (l : list A) k :
  exists k' samples, mapM (M:=M K exn) (fun a => timed perf_counter exchange close (f a)) l k = (k', Ok samples) /\ length samples = length l.
Proof.
  revert k. induction l as [|a l IH]; intros k; [by eexists _, []|]. rewrite mapM_step.
  destruct (timed_answers (f a) k) as (k1 & s & E1). destruct (IH k1) as (k2 & ss & E2 & Hl).
  exists k2, (s :: ss). split; [|cbn; by rewrite Hl]. rewrite bind_case, E1. cbv beta iota. rewrite bind_case, E2. reflexivity.
Qed.
End Samples.

(** The load profile meets the daemon. In front of a server with the script's credential and any JSON reader that reads what was written: each of the 200
    stops passes the API's own checks and reaches [OperationDomain.stop] as a request of its own, under a key that no other of them has, with no generation to match;
    each snapshot read is answered from the machine's view; and as long as every exchange is answered, the script gets 200 and 500 samples, one per request. *)
Theorem load_profile_reaches_daemon {W} `{WorkerPort W} (env : Env) (json_loads : string -> result json) (api : ApiServer) (d : OperationDomain W) :
  (forall text v, loads text = Some v -> json_loads text = Ok v) -> ApiServer_make TOKEN None = Ok api ->
  (forall index, 0 <= index < STOP_SAMPLES ->
     attempt env json_loads api (stop_request index) d
     = (record ← domain (stop env nfr_actor (stop_key index) None (BInt 5000)); mret (accepted record)) d
     /\ forall other, 0 <= other < STOP_SAMPLES -> stop_key index = stop_key other -> index = other)
  /\ (let view := m_snapshot (_machine d) in
      attempt env json_loads api (_request_of "GET" "/v1/snapshot" None) d
      = (b ← _machine_snapshot env view;
         mret (mkResponse 200 b (Some (String dquote "generation:" +:+ str_of_Z (ms_generation view) +:+ String dquote "")))) d)
  /\ (forall K perf_counter (exchange : HttpRequest -> M K exn Z) close (k : K), (forall r k, is_ok (exchange r k).2 = true) ->
       exists k1 stops k2 reads, _measure_stop_admission perf_counter exchange close k = (k1, Ok stops) /\ Z.of_nat (length stops) = STOP_SAMPLES
         /\ _measure_snapshot_reads perf_counter exchange close k1 = (k2, Ok reads) /\ Z.of_nat (length reads) = SNAPSHOT_SAMPLES).
Proof.
  intros Hloads Hapi. split_and!.
  - intros index Hi. split; [by apply stop_reaches_domain|]. intros other Ho. by apply stop_key_inj.
  - by apply read_reaches_daemon.
  - intros K pc ex cl k Ha. destruct (timed_all pc ex cl Ha stop_request (seqZ 0 STOP_SAMPLES) k) as (k1 & stops & E1 & L1).
    destruct (timed_all pc ex cl Ha (fun _ : Z => _request_of "GET" "/v1/snapshot" None) (seqZ 0 SNAPSHOT_SAMPLES) k1) as (k2 & reads & E2 & L2).
    exists k1, stops, k2, reads. unfold _measure_stop_admission, _measure_snapshot_reads, _request. by rewrite E1, E2, L1, L2, !length_seqZ.
Qed.

(** ** Concrete reports *)

Definition reads_of (fast slow : nat) (ms : Z) : list Sample :=
  replicate fast (mkSample (float_of_int 100) 200) ++ replicate slow (mkSample (float_of_int ms) 200).

(** Five slow reads of 500 pass and six do not; the percentile that is printed beside may lie above the limit either way. *)
Example verdict_and_percentile :
  let verdict fast slow := let r := nfr02_report (reads_of fast slow 4000) in
    (read_within_threshold r, match p99_ms r with Some p => SFleb p NFR02_THRESHOLD_MS | None => true end) in
  verdict 500%nat 0%nat = (true, true) /\ verdict 495%nat 5%nat = (true, false) /\ verdict 494%nat 6%nat = (false, false).
Proof. vm_compute. by split_and!. Qed.

Example boards :
  let said text := (_is_approved_pi5 "Linux" (Text text)).1 in
  (said ("Raspberry Pi 5 Model B Rev 1.0" +:+ String (chr 0) ""), said "Raspberry Pi 4 Model B", (_is_approved_pi5 "macOS" Missing)) =
  (true, false, (false, "not Linux/device-tree hardware (macOS)")).
Proof. vm_compute. reflexivity. Qed.

(** One stop is admitted in time and one is refused late; the reads are a whole profile. *)
Lemma report_verdicts_witness :
  let stops := [mkSample (float_of_int 12) 202; mkSample (float_of_int 900) 429] in
  let r := _report "Linux" "3.13" "now" (Text "Raspberry Pi 5 Model B") Missing stops (reads_of 495 5 4000) in
  evidence_status r = "PASS_CANDIDATE" /\ stop_within_threshold (nfr_01 r) = true /\ read_within_threshold (nfr_02 r) = true.
Proof.
  intros stops r.
  destruct (report_verdicts "Linux" "3.13" "now" (Text "Raspberry Pi 5 Model B") Missing stops (reads_of 495 5 4000)) as (H1 & _ & H2 & _ & H3).
  - by repeat constructor.
  - apply Forall_app; split; by apply Forall_replicate.
  - split_and!.
    + apply H1. eexists. split; [reflexivity|]. by exists "", " Model B".
    + apply H2. split; [exists (mkSample (float_of_int 12) 202); split; [left|reflexivity]|].
      intros s [->|[->|[]%not_elem_of_nil]%elem_of_cons]%elem_of_cons Hst; [vm_compute; reflexivity|discriminate Hst].
    + apply H3; [reflexivity| |vm_compute; discriminate].
      apply Forall_app; split; by apply Forall_replicate.
Defined.

(** The script in front of the daemon of DomainDemo: its eighth stop is admitted. *)
Lemma load_profile_reaches_daemon_witness :
  let r := (attempt demo_env demo_loads (mkApiServer TOKEN None) (stop_request 7) demo_ready).2 in
  match r with Ok response => status response = 202 | _ => False end.
Proof.
  intros r. destruct (load_profile_reaches_daemon demo_env demo_loads (mkApiServer TOKEN None) demo_ready) as (Hs & _).
  - intros text v Hl. unfold demo_loads. by rewrite Hl.
  - vm_compute. reflexivity.
  - subst r. rewrite (proj1 (Hs 7 ltac:(unfold STOP_SAMPLES; lia))). vm_compute. reflexivity.
Defined.
