(* ===== verification/Worker.v ===== *)
(** * The serial worker (appliance/daemon/src/cs71d/serial_worker.py)

    One thread owns the transport and its protocol client; other threads submit
    intents, request a priority stop, cancel futures and close. Every section the
    thread runs under the condition lock is one atomic step of the model, and before
    each of them the schedule decides which actions of other threads have happened:
    a theorem for every schedule is a theorem for every interleaving. The protocol
    client is an interface whose instance is [ProtocolClient]. *)
From S2P Require Import Prelude PyString Errors Operations Models Session Adapters Domain.

Module WorkerState.
Inductive WorkerState := NEW | STARTING | RUNNING | CLOSING | CLOSED | FAILED.
Definition value (s : WorkerState) : string :=
  match s with
  | NEW => "new" | STARTING => "starting" | RUNNING => "running" | CLOSING => "closing"
  | CLOSED => "closed" | FAILED => "failed"
  end.
#[export] Instance eq_dec : EqDecision WorkerState.
Proof. solve_decision. Defined.
End WorkerState.
Export (hints) WorkerState.
Abbreviation worker_state := WorkerState.WorkerState.

(** ** Futures *)

(** What a future holds; stop futures resolve to [None]. *)
Inductive future_value := FVResult (r : WorkerResult) | FVNone.
Inductive future := FPending | FRunning | FCancelled | FResult (v : future_value) | FExn (e : exn).

Definition future_done (f : future) : bool :=
  match f with FPending | FRunning => false | _ => true end.

(** ** Shared state *)

Record WorkItem := mkWorkItem {
  intent : WorkerIntent;
  item_future : nat;
  on_dispatch : option OperationRecord;
}.

Record SerialWorker := mkSerialWorker {
  _state : worker_state;
  _normal : list WorkItem;
  _stop_requested : bool;
  _stop_waiters : list nat;
  _session : SessionState;
  _failure : option exn;
  futures : gmap nat future;
}.

Definition SerialWorker_init : SerialWorker :=
  mkSerialWorker WorkerState.NEW [] false [] SessionState_init None ∅.

Definition set_state (s : worker_state) (w : SerialWorker) : SerialWorker :=
  mkSerialWorker s (_normal w) (_stop_requested w) (_stop_waiters w) (_session w) (_failure w) (futures w).
Definition set_normal (l : list WorkItem) (w : SerialWorker) : SerialWorker :=
  mkSerialWorker (_state w) l (_stop_requested w) (_stop_waiters w) (_session w) (_failure w) (futures w).
Definition set_stop (b : bool) (waiters : list nat) (w : SerialWorker) : SerialWorker :=
  mkSerialWorker (_state w) (_normal w) b waiters (_session w) (_failure w) (futures w).
Definition set_session (s : SessionState) (w : SerialWorker) : SerialWorker :=
  mkSerialWorker (_state w) (_normal w) (_stop_requested w) (_stop_waiters w) s (_failure w) (futures w).
Definition set_failure (e : option exn) (w : SerialWorker) : SerialWorker :=
  mkSerialWorker (_state w) (_normal w) (_stop_requested w) (_stop_waiters w) (_session w) e (futures w).
Definition set_future (id : nat) (f : future) (w : SerialWorker) : SerialWorker :=
  mkSerialWorker (_state w) (_normal w) (_stop_requested w) (_stop_waiters w) (_session w) (_failure w)
    (<[id := f]> (futures w)).

Abbreviation SM := (M SerialWorker exn).
Definition worker_error {A} (c : serial_worker_error) (msg : string) : SM A := raise (mk_exn (Worker c) msg).

(** [Future()] *)
Definition new_future : SM nat := fun w =>
  let id := fresh (dom (futures w)) in (set_future id FPending w, Ok id).

Definition future_of (id : nat) (w : SerialWorker) : future := default FPending (futures w !! id).

(** [future.set_running_or_notify_cancel()] *)
Definition set_running_or_notify_cancel (id : nat) : SM bool := fun w =>
  match future_of id w with
  | FCancelled => (w, Ok false)
  | FPending => (set_future id FRunning w, Ok true)
  | _ => (w, throw (Builtin RuntimeError) "Future in unexpected state")
  end.

(** [future.set_result] and [future.set_exception] refuse a future that is done. *)
Definition set_outcome (id : nat) (f : future) : SM unit := fun w =>
  if future_done (future_of id w) then (w, throw (Builtin RuntimeError) "InvalidStateError")
  else (set_future id f w, Ok tt).

(** [future.cancel()], by whoever holds the future. *)
Definition cancel (id : nat) (w : SerialWorker) : SerialWorker :=
  match futures w !! id with
  | Some FPending => set_future id FCancelled w
  | _ => w
  end.

Definition _fail_pending_future (id : nat) (e : exn) : SM unit :=
  ok ← set_running_or_notify_cancel id;
  if ok : bool then set_outcome id (FExn e) else mret tt.

Fixpoint fail_futures (l : list nat) (e : exn) : SM unit :=
  match l with
  | [] => mret tt
  | id :: l => _ ← _fail_pending_future id e; fail_futures l e
  end.

Definition _fail_items (items : list WorkItem) (e : exn) : SM unit := fail_futures (item_future <$> items) e.

(** ** Calls of other threads *)

Section Admission.
Context (normal_capacity : nat).

Definition _require_running : SM unit :=
  w ← getS;
  if negb (bool_decide (_state w = WorkerState.RUNNING))
  then worker_error WorkerNotRunningError ("worker is not running: " +:+ WorkerState.value (_state w))
  else mret tt.

Definition is_session_intent (i : WorkerIntent) : bool := match i with SessionIntent _ => true | _ => false end.

Definition submit (i : WorkerIntent) (dispatch : option OperationRecord) : SM nat :=
  _ ← _require_running;
  w ← getS;
  let snapshot := s_snapshot (_session w) in
  if negb (ss_admits_work snapshot) && negb (is_session_intent i)
  then worker_error SessionNotReadyError ("session is not ready: " +:+ ConnectionState.value (ss_state snapshot))
  else if _stop_requested w then worker_error StopInProgressError "priority stop is in progress"
  else if (normal_capacity <=? length (_normal w))%nat
  then worker_error QueueFullError "normal serial admission queue is full"
  else
    id ← new_future;
    _ ← modifyS (fun w => set_normal (_normal w ++ [mkWorkItem i id dispatch]) w);
    mret id.

Definition submit_priority_stop : SM nat :=
  _ ← _require_running;
  id ← new_future;
  w ← getS;
  _ ← modifyS (fun w => set_stop (_stop_requested w) (_stop_waiters w ++ [id]) w);
  preempted ← (if negb (_stop_requested w)
               then _ ← modifyS (fun w => set_normal [] (set_stop true (_stop_waiters w) w)); mret (_normal w)
               else mret []);
  _ ← _fail_items preempted (mk_exn (Worker PreemptedByStopError) "queued work invalidated by priority stop");
  mret id.

(** [close] up to the join. *)
Definition close : SM unit :=
  w ← getS;
  match _state w with
  | WorkerState.NEW => modifyS (set_state WorkerState.CLOSED)
  | WorkerState.STARTING | WorkerState.RUNNING =>
      _ ← modifyS (fun w => set_normal [] (set_state WorkerState.CLOSING w));
      _ ← (if bool_decide (_state w = WorkerState.RUNNING)
           then modifyS (fun w => set_stop true (_stop_waiters w) w) else mret tt);
      _fail_items (_normal w) (mk_exn (Worker PreemptedByStopError) "queued work invalidated by worker shutdown")
  | _ => mret tt
  end.

(** [start] up to its wait. *)
Definition start : SM bool :=
  w ← getS;
  match _state w with
  | WorkerState.NEW => _ ← modifyS (set_state WorkerState.STARTING); mret true
  | WorkerState.RUNNING | WorkerState.STARTING => mret false
  | s => worker_error WorkerNotRunningError ("cannot start worker in state " +:+ WorkerState.value s)
  end.

(** The startup deadline of [start] passed while the thread was still starting. *)
Definition start_expired (w : SerialWorker) : SerialWorker :=
  if bool_decide (_state w = WorkerState.STARTING) then set_state WorkerState.CLOSING w else w.

Inductive action :=
| ASubmit (i : WorkerIntent) (dispatch : option OperationRecord)
| AStop
| AClose
| AStartExpired
| ACancel (id : nat).

Definition run_action (a : action) (w : SerialWorker) : SerialWorker :=
  match a with
  | ASubmit i dispatch => (submit i dispatch w).1
  | AStop => (submit_priority_stop w).1
  | AClose => (close w).1
  | AStartExpired => start_expired w
  | ACancel id => cancel id w
  end.

Definition run_actions (l : list action) (w : SerialWorker) : SerialWorker := fold_left (fun w a => run_action a w) l w.
End Admission.

(** ** The thread *)

(** The protocol client and its transport, as the thread uses them. [C] holds both; the check of an
    interruptible request acts on whatever state [X] the worker shares. *)
Class ProtocolPort (C : Type) := {
  port_open : M C exn unit;
  port_close : M C exn unit;
  port_wait_ready : M C exn unit;
  port_ping_barrier : M C exn unit;
  port_activate : M C exn bool;
  port_get_status : M C exn Status;
  port_get_capabilities : M C exn Capabilities;
  port_get_queue : M C exn QueueSnapshot;
  port_request : forall X : Type, string -> (X -> X * bool) -> Z -> M (X * C) exn Completion;
  port_out_of_band_stop : M C exn unit;
}.

(** The state of the whole daemon the thread sees: the shared worker state, its own client, the
    outside world its callbacks act on, whether its local [link] is set, and the schedule. *)
Record World (C U : Type) := mkWorld {
  shared : SerialWorker;
  client : C;
  outside : U;
  link : bool;
  schedule : list (list action);
}.
Arguments mkWorld {C U}.
Arguments shared {C U}.
Arguments client {C U}.
Arguments outside {C U}.
Arguments link {C U}.
Arguments schedule {C U}.

(** The constructor's arguments. *)
Record WorkerConfig (U : Type) := mkWorkerConfig {
  normal_capacity : nat;
  interrupt_poll_interval : Z;
  max_reconnect_attempts : nat;
  session_observer : SessionSnapshot -> U -> U;
  profile_observer : option (Capabilities -> Status -> M U exn unit);
  run_dispatch : OperationRecord -> M U exn unit;
}.
Arguments mkWorkerConfig {U}.
Arguments normal_capacity {U}.
Arguments interrupt_poll_interval {U}.
Arguments max_reconnect_attempts {U}.
Arguments session_observer {U}.
Arguments profile_observer {U}.
Arguments run_dispatch {U}.

(** [SerialWorker.__init__]; times are integers, hence finite. *)
Definition WorkerConfig_make {U} (capacity protocol_timeout poll attempts : Z) (so : SessionSnapshot -> U -> U)
    (po : option (Capabilities -> Status -> M U exn unit)) (rd : OperationRecord -> M U exn unit)
    : result (WorkerConfig U) :=
  if capacity <? 1 then throw (Builtin ValueError) "normal_capacity must be positive"
  else if protocol_timeout <=? 0 then throw (Builtin ValueError) "protocol_timeout must be finite and positive"
  else if poll <=? 0 then throw (Builtin ValueError) "interrupt_poll_interval must be finite and positive"
  else if attempts <? 0 then throw (Builtin ValueError) "max_reconnect_attempts must not be negative"
  else Ok (mkWorkerConfig (Z.to_nat capacity) poll (Z.to_nat attempts) so po rd).

Section Thread.
Context {C U : Type} `{ProtocolPort C} (cfg : WorkerConfig U).
Abbreviation World := (World C U).
Abbreviation WM := (M World exn).

Definition set_shared (w : SerialWorker) (x : World) : World := mkWorld w (client x) (outside x) (link x) (schedule x).
Definition set_client (c : C) (x : World) : World := mkWorld (shared x) c (outside x) (link x) (schedule x).
Definition set_outside (o : U) (x : World) : World := mkWorld (shared x) (client x) o (link x) (schedule x).
Definition set_link (b : bool) (x : World) : World := mkWorld (shared x) (client x) (outside x) b (schedule x).

(** What other threads did since the last section. *)
Definition interleave (x : World) : World :=
  match schedule x with
  | [] => x
  | l :: rest => mkWorld (run_actions (normal_capacity cfg) l (shared x)) (client x) (outside x) (link x) rest
  end.

(** A section under the condition lock. *)
Definition locked {A} (m : SM A) : WM A := fun x =>
  let x := interleave x in
  let p := m (shared x) in (set_shared p.1 x, p.2).

(** A call of the protocol client or its transport. *)
Definition on_client {A} (m : M C exn A) : WM A := fun x =>
  let p := m (client x) in (set_client p.1 x, p.2).
Definition on_outside {A} (m : M U exn A) : WM A := fun x =>
  let p := m (outside x) in (set_outside p.1 x, p.2).

(** [self._session.transition(state, reason)], with the observer. *)
Definition transition (s : conn_state) (reason : string) : WM unit := fun x =>
  let x := interleave x in
  let p := session_transition s reason (_session (shared x)) in
  let x := set_shared (set_session p.1 (shared x)) x in
  (match p.2 with Some snap => set_outside (session_observer cfg snap (outside x)) x | None => x end, Ok tt).

Definition session_state : WM conn_state := locked (fun w => (w, Ok (ss_state (s_snapshot (_session w))))).
Definition _is_ready : WM bool := s ← session_state; mret (bool_decide (s = ConnectionState.READY)).
Definition _is_stop_requested : WM bool := locked (fun w => (w, Ok (_stop_requested w))).
Definition _is_closing : WM bool := locked (fun w => (w, Ok (bool_decide (_state w = WorkerState.CLOSING)))).

Definition _mark_failed (e : exn) : WM unit :=
  locked (modifyS (fun w =>
    if bool_decide (_state w ∈ [WorkerState.CLOSED; WorkerState.FAILED]) then w
    else set_failure (Some e) (set_state WorkerState.FAILED w))).

Definition _close_transport : WM unit := try_except (on_client port_close) _mark_failed.

Definition _fail_session (e : exn) (reason : string) : WM unit :=
  let recovered := isinstance e (Protocol RecoveryError) && exn_recovered e in
  _ ← transition ConnectionState.UNCERTAIN
        (reason +:+ ": " +:+ exn_msg e +:+ (if recovered then " (verified v1 only)" else ""));
  _mark_failed e.

Definition _resolve_stop (error : option exn) : WM unit :=
  waiters ← locked (fun w => (set_stop false [] w, Ok (_stop_waiters w)));
  locked (match error with
          | None => (fix go (l : list nat) : SM unit :=
                       match l with
                       | [] => mret tt
                       | id :: l => ok ← set_running_or_notify_cancel id;
                                    _ ← (if ok : bool then set_outcome id (FResult FVNone) else mret tt);
                                    go l
                       end) waiters
          | Some e => fail_futures waiters e
          end).

Definition _drain_queue (e : exn) : WM unit :=
  pending ← locked (fun w => (set_normal [] w, Ok (_normal w)));
  locked (_fail_items pending e).

(** *** Sessions *)

Definition _publish_profile : WM unit :=
  match profile_observer cfg with
  | None => mret tt
  | Some observe =>
      caps ← on_client port_get_capabilities;
      st ← on_client port_get_status;
      on_outside (observe caps st)
  end.

Definition _activate : WM unit :=
  _ ← transition ConnectionState.ACTIVATING_V2 "negotiating protocol v2";
  ok ← on_client port_activate;
  if negb (ok : bool) then raise (mk_exn (Worker WorkerStartupError) "controller does not provide protocol v2")
  else
    _ ← _publish_profile;
    transition ConnectionState.READY "verified v2 session".

Definition _connect : WM unit :=
  _ ← transition ConnectionState.CONNECTING "opening controller transport";
  _ ← on_client port_open;
  try_except
    (closing ← _is_closing;
     if closing : bool then mret tt
     else
       _ ← transition ConnectionState.VERIFYING_V1 "verifying legacy v1 barrier";
       _ ← on_client port_wait_ready;
       _ ← on_client port_ping_barrier;
       _activate)
    (fun e => _ ← _close_transport; raise e).

(** The result is whether there is a usable link. *)
Fixpoint reconnect_attempts (n : nat) (fault : exn) : WM bool :=
  match n with
  | O => _ ← _fail_session fault "controller could not be reconnected"; mret false
  | S n =>
      closing ← _is_closing;
      if closing : bool then mret false
      else
        r ← try_case _connect (fun _ => mret None) (fun e => mret (Some e));
        match r with
        | Some e =>
            _ ← transition ConnectionState.DISCONNECTED ("reconnect attempt failed: " +:+ exn_msg e);
            reconnect_attempts n fault
        | None =>
            s ← session_state;
            if bool_decide (s = ConnectionState.READY) then mret true
            else _ ← _close_transport; mret false
        end
  end.

Definition _reconnect (fault : exn) : WM bool :=
  _ ← _close_transport;
  _ ← transition ConnectionState.DISCONNECTED ("transport lost: " +:+ exn_msg fault);
  reconnect_attempts (max_reconnect_attempts cfg) fault.

Definition _recover (fault : exn) : WM bool :=
  _ ← transition ConnectionState.RECOVERING ("recovering after " +:+ exn_msg fault);
  _ ← _drain_queue (mk_exn (Worker PreemptedByRecoveryError)
        "queued work discarded by session recovery; not replayed");
  closing ← _is_closing;
  if closing : bool then _ ← _close_transport; mret false
  else if isinstance fault (Protocol RecoveryError) && exn_recovered fault then
    _ ← transition ConnectionState.VERIFYING_V1 "v1 verified by protocol library recovery";
    r ← try_case _activate (fun _ => mret None) (fun e => mret (Some e));
    match r with None => mret true | Some e => _reconnect e end
  else _reconnect fault.

(** *** Intents *)

(** [self._is_stop_requested], as a running request polls it. *)
Definition stop_check (x : SerialWorker * list (list action)) : (SerialWorker * list (list action)) * bool :=
  match x.2 with
  | [] => (x, _stop_requested x.1)
  | l :: rest => let w := run_actions (normal_capacity cfg) l x.1 in ((w, rest), _stop_requested w)
  end.

Definition on_request (command : string) : WM Completion := fun x =>
  let p := port_request (SerialWorker * list (list action)) command stop_check (interrupt_poll_interval cfg)
             ((shared x, schedule x), client x) in
  (mkWorld p.1.1.1 p.1.2 (outside x) (link x) p.1.1.2, p.2).

Definition home_command (a : HomeAxis.HomeAxis) : string :=
  match a with HomeAxis.FEEDER => "homefeeder" | HomeAxis.SORTER => "homesorter" | HomeAxis.BOTH => "homeall" end.

Definition _dispatch (i : WorkerIntent) : WM WorkerResult :=
  match i with
  | QueryIntent QSTATUS => s ← on_client port_get_status; mret (RStatus s)
  | QueryIntent QCAPABILITIES => c ← on_client port_get_capabilities; mret (RCapabilities c)
  | QueryIntent QQUEUE => q ← on_client port_get_queue; mret (RQueue q)
  | SessionIntent _ => raise (mk_exn (Worker WorkerNotRunningError)
                                "a session intent is executed by the worker's run loop")
  | HomeIntent a => c ← on_request (home_command a); mret (RCompletion c)
  | SortIntent slot => c ← on_request ("sortto:" +:+ str_of_Z slot); mret (RCompletion c)
  end.

(** [item.on_dispatch()] when there is one: the exception it raised, if any. *)
Definition withdrawn (d : option OperationRecord) : WM (option exn) :=
  match d with
  | None => mret None
  | Some op => try_case (on_outside (run_dispatch cfg op)) (fun _ => mret None) (fun e => mret (Some e))
  end.

Definition is_session_fault (e : exn) : bool :=
  isinstance e (Protocol ProtocolError) || isinstance e (Builtin OSError).

(** The tail of [_execute_item] once the dispatch raised [e]. *)
Definition item_failed (f : nat) (e : exn) : WM (option exn) :=
  if isinstance e (Protocol RequestInterruptedError) then
    _ ← locked (set_outcome f (FExn (mk_exn (Worker PreemptedByStopError)
          "active work cancelled by trusted priority stop")));
    _ ← _resolve_stop None;
    mret None
  else
    stop ← _is_stop_requested;
    if stop : bool then
      _ ← locked (set_outcome f (FExn (mk_exn (Worker WorkerUncertainError)
            "active work became uncertain during priority stop")));
      _ ← _resolve_stop (Some e);
      _ ← _mark_failed e;
      mret None
    else
      _ ← locked (set_outcome f (FExn e));
      mret (if is_session_fault e then Some e else None).

(** The tail of [_execute_item] once the dispatch returned [v]. *)
Definition item_returned (i : WorkerIntent) (f : nat) (v : WorkerResult) : WM (option exn) :=
  stop ← _is_stop_requested;
  if stop : bool then
    _ ← try_case (on_client port_out_of_band_stop)
          (fun _ =>
             _ ← locked (set_outcome f (FExn (mk_exn (Worker PreemptedByStopError)
                   "active result invalidated by trusted priority stop")));
             _resolve_stop None)
          (fun e =>
             _ ← locked (set_outcome f (FExn (mk_exn (Worker WorkerUncertainError)
                   "active result invalidated by failed priority stop")));
             _ ← _resolve_stop (Some e);
             _fail_session e "priority stop was unsafe");
    mret None
  else
    _ ← locked (set_outcome f (FResult (FVResult v)));
    match i with
    | HomeIntent _ | SortIntent _ =>
        try_case _publish_profile (fun _ => mret None)
          (fun e => mret (if is_session_fault e then Some e else None))
    | _ => mret None
    end.

Definition _execute_item (item : WorkItem) : WM (option exn) :=
  ok ← locked (set_running_or_notify_cancel (item_future item));
  if negb (ok : bool) then mret None
  else
    d ← withdrawn (on_dispatch item);
    match d with
    | Some e => _ ← locked (set_outcome (item_future item) (FExn e)); mret None
    | None =>
        r ← try_case (_dispatch (intent item)) (fun v => mret (inl v)) (fun e => mret (inr e));
        match r with
        | inl v => item_returned (intent item) (item_future item) v
        | inr e => item_failed (item_future item) e
        end
    end.

(** The body of [_execute_session_intent]'s [try]. *)
Definition verify_session (a : SessionAction.SessionAction) (f : nat) : WM unit :=
  renew ← match a with
          | SessionAction.RECOVER => mret true
          | SessionAction.CONNECT => r ← _is_ready; mret (negb r)
          end;
  _ ← (if renew : bool then
         _ ← _close_transport;
         _ ← transition ConnectionState.DISCONNECTED (SessionAction.value a +:+ " requested by an operator");
         _connect
       else mret tt);
  st ← on_client port_get_status;
  locked (set_outcome f (FResult (FVResult (RStatus st)))).

(** The result is whether there is a usable link. *)
Definition _execute_session_intent (a : SessionAction.SessionAction) (item : WorkItem) : WM bool :=
  ok ← locked (set_running_or_notify_cancel (item_future item));
  if negb (ok : bool) then mret true
  else
    d ← withdrawn (on_dispatch item);
    match d with
    | Some e => _ ← locked (set_outcome (item_future item) (FExn e)); mret true
    | None =>
        try_case (verify_session a (item_future item)) (fun _ => mret true)
          (fun e =>
             _ ← locked (set_outcome (item_future item) (FExn e));
             _ ← _fail_session e (SessionAction.value a +:+ " could not verify the session");
             mret false)
    end.

Definition _execute_stop : WM unit :=
  try_case (on_client port_out_of_band_stop)
    (fun _ => _resolve_stop None)
    (fun e => _ ← _resolve_stop (Some e); _fail_session e "priority stop was unsafe").

(** *** The run loop *)

(** [NParked]: the schedule is exhausted and the thread is still waiting. *)
Inductive next := NStop | NItem (item : WorkItem) | NReturn | NParked.

Fixpoint await_action (n : nat) (x : World) : World * result next :=
  let x := interleave x in
  let w := shared x in
  if _stop_requested w then (x, Ok NStop)
  else if bool_decide (_state w ∈ [WorkerState.CLOSING; WorkerState.FAILED]) then (x, Ok NReturn)
  else match _normal w with
       | item :: rest => (set_shared (set_normal rest w) x, Ok (NItem item))
       | [] => match n with 0%nat => (x, Ok NParked) | S n => await_action n x end
       end.

Definition _next_action : WM next := fun x => await_action (length (schedule x)) x.

Definition keep_link (usable : bool) : WM unit := modifyS (set_link usable).

(** The result is whether the thread is parked. *)
Fixpoint main_loop (fuel : nat) : WM bool :=
  match fuel with
  | 0%nat => fun x => (x, OutOfFuel)
  | S fuel =>
      a ← _next_action;
      match a with
      | NParked => mret true
      | NReturn => mret false
      | NStop => _ ← _execute_stop; main_loop fuel
      | NItem item =>
          match intent item with
          | SessionIntent sa =>
              usable ← _execute_session_intent sa item;
              _ ← keep_link usable;
              if usable : bool then main_loop fuel else mret false
          | _ =>
              fault ← _execute_item item;
              match fault with
              | None => main_loop fuel
              | Some e =>
                  usable ← _recover e;
                  _ ← keep_link usable;
                  if usable : bool then main_loop fuel else mret false
              end
          end
      end
  end.

Definition _finish_thread : WM unit :=
  p ← locked (fun w =>
        let w' := if bool_decide (_state w = WorkerState.FAILED) then w else set_state WorkerState.CLOSED w in
        (set_normal [] (set_stop false [] w'), Ok (_normal w, _stop_waiters w)));
  s ← session_state;
  _ ← (if bool_decide (s = ConnectionState.UNCERTAIN) then mret tt
       else transition ConnectionState.DISCONNECTED "serial worker stopped");
  x ← getS;
  let e := default (mk_exn (Worker WorkerNotRunningError) "serial worker stopped") (_failure (shared x)) in
  _ ← locked (_fail_items p.1 e);
  locked (fail_futures p.2 e).

Definition run_body (fuel : nat) : WM bool :=
  _ ← _connect;
  _ ← keep_link true;
  closing ← _is_closing;
  if closing : bool then mret false
  else
    go ← locked (fun w => if bool_decide (_state w = WorkerState.CLOSING) then (w, Ok false)
                          else (set_state WorkerState.RUNNING w, Ok true));
    if negb (go : bool) then mret false else main_loop fuel.

Definition _run (fuel : nat) : WM bool :=
  parked ← try_except (run_body fuel)
    (fun e =>
       _ ← transition ConnectionState.UNCERTAIN ("worker fault: " +:+ exn_msg e);
       _ ← _mark_failed e;
       mret false);
  if parked : bool then mret true
  else
    x ← getS;
    _ ← (if link x then _close_transport else mret tt);
    _ ← _finish_thread;
    mret false.
End Thread.
