(* ===== verification/WorkerSpec.v ===== *)
(** * The worker under every interleaving

    Ownership of futures: a future is queued, waits for a stop, is detached (taken
    from the queue and about to be failed), is active, or is done. Every action of
    another thread and every section of the worker thread keeps that account, so
    no future is lost and none is resolved twice. *)
From S2P Require Import Prelude PyString Errors Operations Models Session Adapters Domain Worker.

Section Invariant.
Context (cap : nat).

Definition queued (w : SerialWorker) : list nat := item_future <$> _normal w.

(** [act]: running futures of the thread; [det]: futures it detached and has yet to resolve. *)
Record winv (act det : list nat) (w : SerialWorker) : Prop := {
  wi_nodup : NoDup (act ++ det ++ queued w ++ _stop_waiters w);
  wi_act : forall f, f ∈ act -> futures w !! f = Some FRunning;
  wi_wait : forall f, f ∈ det ++ queued w ++ _stop_waiters w ->
    futures w !! f = Some FPending \/ futures w !! f = Some FCancelled;
  wi_done : forall f v, futures w !! f = Some v -> f ∉ act ++ det ++ queued w ++ _stop_waiters w -> future_done v = true;
  wi_stop : _stop_requested w = true -> _normal w = [];
  wi_waiters : _stop_requested w = false -> _stop_waiters w = [];
  wi_cap : (length (_normal w) <= cap)%nat;
}.

(** Everything but the futures' ownership is unchanged. *)
Lemma winv_same act det w w' : winv act det w ->
  _normal w' = _normal w -> _stop_requested w' = _stop_requested w -> _stop_waiters w' = _stop_waiters w ->
  futures w' = futures w -> winv act det w'.
Proof. intros [? ? ? ? ? ? ?] E1 E2 E3 E4. unfold queued in *. split; unfold queued; rewrite ?E1, ?E2, ?E3, ?E4; done. Qed.

Lemma winv_fresh act det w : winv act det w ->
  let id := fresh (dom (futures w)) in id ∉ act ++ det ++ queued w ++ _stop_waiters w.
Proof.
  intros [_ Ha Hw _ _ _ _] id Hin. pose proof (is_fresh (dom (futures w))) as Hf. fold id in Hf. apply Hf, elem_of_dom.
  apply elem_of_app in Hin as [Hin|Hin]; [by rewrite (Ha _ Hin)|]. by destruct (Hw _ Hin) as [-> | ->].
Qed.

(** The future map after one future [f] moved out of the waiting lists. *)
Lemma winv_resolve act det w f v : winv act (f :: det) w -> future_done v = true -> winv act det (set_future f v w).
Proof.
  intros [Hn Ha Hw Hd Hs Hwt Hc] Hv. cbn [app] in Hn.
  assert (f ∉ act ++ det ++ queued w ++ _stop_waiters w) as Hf.
  { rewrite <- Permutation_middle in Hn. by apply NoDup_cons in Hn as [? _]. }
  split; try done; unfold queued in *; simpl.
  - rewrite <- Permutation_middle in Hn. by apply NoDup_cons in Hn as [_ ?].
  - intros g Hg. rewrite lookup_insert_ne by set_solver. by apply Ha.
  - intros g Hg. rewrite lookup_insert_ne by set_solver. apply Hw. set_solver.
  - intros g x Hg Hn'. destruct (decide (g = f)) as [->|Hne]; [rewrite lookup_insert_eq in Hg; by injection Hg as <-|].
    rewrite lookup_insert_ne in Hg by done. apply (Hd g x Hg). set_solver.
Qed.

Lemma winv_activate act det w f : winv act (f :: det) w -> futures w !! f = Some FPending ->
  winv (f :: act) det (set_future f FRunning w).
Proof.
  intros [Hn Ha Hw Hd Hs Hwt Hc] Hp.
  assert (NoDup (f :: act ++ det ++ queued w ++ _stop_waiters w)) as Hn' by (by rewrite Permutation_middle).
  pose proof Hn' as [Hf _]%NoDup_cons. split; try done; unfold queued in *; simpl.
  - intros g [->|Hg]%elem_of_cons; [by rewrite lookup_insert_eq|]. rewrite lookup_insert_ne by set_solver. by apply Ha.
  - intros g Hg. rewrite lookup_insert_ne by set_solver. apply Hw. set_solver.
  - intros g x Hg Hni. rewrite lookup_insert_ne in Hg by set_solver. apply (Hd g x Hg). set_solver.
Qed.

Lemma winv_finish act det w f v : winv (f :: act) det w -> future_done v = true -> winv act det (set_future f v w).
Proof.
  intros [Hn Ha Hw Hd Hs Hwt Hc] Hv. simpl in Hn. apply NoDup_cons in Hn as [Hf Hn].
  split; try done; unfold queued in *; simpl.
  - intros g Hg. rewrite lookup_insert_ne by set_solver. apply Ha. set_solver.
  - intros g Hg. rewrite lookup_insert_ne by set_solver. by apply Hw.
  - intros g x Hg Hn'. destruct (decide (g = f)) as [->|Hne]; [rewrite lookup_insert_eq in Hg; by injection Hg as <-|].
    rewrite lookup_insert_ne in Hg by done. apply (Hd g x Hg). set_solver.
Qed.

(** A cancelled future that leaves the waiting lists is done. *)
Lemma winv_forget act det w f : winv act (f :: det) w -> futures w !! f = Some FCancelled -> winv act det w.
Proof.
  intros Hi Hc. assert (set_future f FCancelled w = w) as <-.
  { unfold set_future. rewrite insert_id by done. by destruct w. }
  by apply winv_resolve.
Qed.

Lemma winv_running_cases act det w f : winv act (f :: det) w ->
  (set_running_or_notify_cancel f w = (set_future f FRunning w, Ok true) /\ winv (f :: act) det (set_future f FRunning w))
  \/ (set_running_or_notify_cancel f w = (w, Ok false) /\ winv act det w).
Proof.
  intros Hi. unfold set_running_or_notify_cancel, future_of.
  destruct (wi_wait _ _ _ Hi f) as [E|E]; [by left| |]; rewrite E; [left|right]; (split; [done|]).
  - by apply winv_activate.
  - by eapply winv_forget.
Qed.

Lemma set_outcome_spec act det w f v : winv (f :: act) det w -> future_done v = true ->
  set_outcome f v w = (set_future f v w, Ok tt) /\ winv act det (set_future f v w).
Proof.
  intros Hi Hv. unfold set_outcome, future_of. rewrite (wi_act _ _ _ Hi f) by (by left). split; [done|]. by apply winv_finish.
Qed.

(** Failing detached futures resolves each of them, and changes nothing but the futures. *)
Lemma fail_futures_spec act det w l e : winv act (l ++ det) w ->
  exists fs, let w' := mkSerialWorker (_state w) (_normal w) (_stop_requested w) (_stop_waiters w) (_session w) (_failure w) fs in
    fail_futures l e w = (w', Ok tt) /\ winv act det w'.
Proof.
  revert w. induction l as [|f l IH]; intros w Hi; simpl in *.
  - exists (futures w). by destruct w.
  - unfold _fail_pending_future, mbind, M_bind.
    destruct (winv_running_cases _ _ _ _ Hi) as [[-> Hi']|[-> Hi']].
    + destruct (set_outcome_spec _ _ _ f (FExn e) Hi' eq_refl) as [-> Hi'']. apply (IH _ Hi'').
    + apply (IH _ Hi').
Qed.

(** ** Actions of other threads *)

Lemma winv_detach act det w : winv act det w -> winv act (queued w ++ det) (set_normal [] w).
Proof.
  intros [Hn Ha Hw Hd Hs Hwt Hc]. split; unfold queued in *; simpl; try done; [| | |lia].
  - rewrite (Permutation_app_comm _ det), <- !app_assoc. done.
  - intros f Hf. apply Hw. set_solver.
  - intros f v Hf Hn'. apply (Hd f v Hf). set_solver.
Qed.

Lemma winv_request_stop act det w : winv act det w -> _normal w = [] -> winv act det (set_stop true (_stop_waiters w) w).
Proof. intros [Hn Ha Hw Hd Hs Hwt Hc] E. split; unfold queued in *; simpl; done. Qed.

Lemma winv_add_waiter act det w : winv act det w -> _stop_requested w = true ->
  let id := fresh (dom (futures w)) in winv act det (set_stop true (_stop_waiters w ++ [id]) (set_future id FPending w)).
Proof.
  intros Hi Hst id. pose proof (winv_fresh act det w Hi) as Hf. fold id in Hf. cbv zeta in Hf.
  destruct Hi as [Hn Ha Hw Hd Hs Hwt Hc]. unfold queued in *. split; unfold queued; simpl; try done.
  - rewrite !app_assoc. apply NoDup_app. split_and!; [by rewrite <- !app_assoc| |apply NoDup_singleton].
    intros g Hg ->%list_elem_of_singleton. apply Hf. by rewrite !app_assoc.
  - intros g Hg. rewrite lookup_insert_ne by set_solver. by apply Ha.
  - intros g Hg. destruct (decide (g = id)) as [->|Hne]; [left; by rewrite lookup_insert_eq|].
    rewrite lookup_insert_ne by done. apply Hw. set_solver.
  - intros g v Hg Hn'. destruct (decide (g = id)) as [->|Hne]; [set_solver|].
    rewrite lookup_insert_ne in Hg by done. apply (Hd g v Hg). set_solver.
  - intros _. by apply Hs.
Qed.

Lemma winv_enqueue act det w i d : winv act det w -> _stop_requested w = false -> (length (_normal w) < cap)%nat ->
  let id := fresh (dom (futures w)) in winv act det (set_normal (_normal w ++ [mkWorkItem i id d]) (set_future id FPending w)).
Proof.
  intros Hi Hst Hlt id. pose proof (winv_fresh act det w Hi) as Hf. fold id in Hf. cbv zeta in Hf.
  destruct Hi as [Hn Ha Hw Hd Hs Hwt Hc]. unfold queued in *. split; unfold queued; simpl; rewrite ?fmap_app; simpl; try done.
  - rewrite (Hwt Hst), app_nil_r in *. rewrite !app_assoc. apply NoDup_app. split_and!; [by rewrite <- !app_assoc| |apply NoDup_singleton].
    intros g Hg ->%list_elem_of_singleton. apply Hf. by rewrite <- !app_assoc in Hg.
  - intros g Hg. rewrite lookup_insert_ne by set_solver. by apply Ha.
  - intros g Hg. destruct (decide (g = id)) as [->|Hne]; [left; by rewrite lookup_insert_eq|].
    rewrite lookup_insert_ne by done. apply Hw. set_solver.
  - intros g v Hg Hn'. destruct (decide (g = id)) as [->|Hne]; [set_solver|].
    rewrite lookup_insert_ne in Hg by done. apply (Hd g v Hg). set_solver.
  - by rewrite Hst.
  - rewrite length_app. simpl. lia.
Qed.

Lemma winv_cancel act det w id : winv act det w -> winv act det (cancel id w).
Proof.
  intros Hi. unfold cancel. destruct (futures w !! id) as [[]|] eqn:E; try done. pose proof Hi as [Hn Ha Hw Hd Hs Hwt Hc].
  unfold queued in *. split; unfold queued; simpl; try done.
  - intros f Hf. rewrite lookup_insert_ne by (intros <-; by rewrite (Ha _ Hf) in E). by apply Ha.
  - intros f Hf. destruct (decide (f = id)) as [->|Hne]; [right; by rewrite lookup_insert_eq|].
    rewrite lookup_insert_ne by done. by apply Hw.
  - intros f v Hf Hn'. destruct (decide (f = id)) as [->|Hne]; [rewrite lookup_insert_eq in Hf; by injection Hf as <-|].
    rewrite lookup_insert_ne in Hf by done. by apply (Hd f v Hf).
Qed.

Lemma submit_inv act det w i d : winv act det w -> winv act det (submit cap i d w).1.
Proof.
  intros Hi. unfold submit, _require_running, getS, mbind, M_bind. case_bool_decide; simpl; [|done].
  destruct (negb _ && negb _); simpl; [done|]. destruct (_stop_requested w) eqn:Hs; simpl; [done|].
  destruct (Nat.leb_spec cap (length (_normal w))); simpl; [done|]. by apply winv_enqueue.
Qed.

Lemma stop_inv act det w : winv act det w -> winv act det (submit_priority_stop w).1.
Proof.
  intros Hi. unfold submit_priority_stop, _require_running, new_future, getS, modifyS, mbind, M_bind. case_bool_decide; simpl; [|done].
  set (id := fresh _). destruct (_stop_requested w) eqn:Hs; simpl.
  - by apply winv_add_waiter.
  - set (e := mk_exn _ _). unfold _fail_items.
    assert (winv act (queued w ++ det) (set_normal [] (set_stop true (_stop_waiters w ++ [id]) (set_future id FPending w)))) as Hd.
    { apply (winv_add_waiter act (queued w ++ det) (set_stop true (_stop_waiters w) (set_normal [] w))); [|done].
      apply (winv_request_stop act _ (set_normal [] w)); [by apply winv_detach|done]. }
    destruct (fail_futures_spec _ _ _ _ e Hd) as (fs & E & Hw).
    match goal with |- context [fail_futures ?l ?e ?s] => change (fail_futures l e s) with
      (fail_futures (queued w) e (set_normal [] (set_stop true (_stop_waiters w ++ [id]) (set_future id FPending w)))) end.
    rewrite E. exact Hw.
Qed.

Lemma close_inv act det w : winv act det w -> winv act det (close w).1.
Proof.
  intros Hi. unfold close, getS, modifyS, mbind, M_bind. set (e := mk_exn _ _).
  assert (forall b, winv act det (_fail_items (_normal w) e
    (if b : bool then set_stop true (_stop_waiters w) (set_normal [] (set_state WorkerState.CLOSING w))
     else set_normal [] (set_state WorkerState.CLOSING w))).1) as Hc.
  { intros b. assert (winv act (queued w ++ det) (set_normal [] (set_state WorkerState.CLOSING w))) as Hd
      by (apply (winv_detach act det (set_state WorkerState.CLOSING w)); by eapply winv_same).
    unfold _fail_items. destruct b.
    - apply (winv_request_stop act (queued w ++ det)) in Hd; [|done]. destruct (fail_futures_spec _ _ _ _ e Hd) as (fs & E & Hw).
      unfold queued in E. simpl in E. rewrite E. exact Hw.
    - destruct (fail_futures_spec _ _ _ _ e Hd) as (fs & E & Hw). unfold queued in E. rewrite E. exact Hw. }
  destruct (_state w) eqn:Es; simpl; try done; [by eapply winv_same|apply (Hc false)|apply (Hc true)].
Qed.

Lemma action_inv act det a w : winv act det w -> winv act det (run_action cap a w).
Proof.
  intros Hi. destruct a; simpl; [by apply submit_inv|by apply stop_inv|by apply close_inv| |by apply winv_cancel].
  unfold start_expired. case_bool_decide; [by eapply winv_same|done].
Qed.

Lemma actions_inv act det l w : winv act det w -> winv act det (run_actions cap l w).
Proof. revert w. induction l as [|a l IH]; intros w Hi; [done|]. apply IH. by apply action_inv. Qed.

(** ** Work left to do *)

Definition work (w : SerialWorker) : nat := (length (_normal w) + (if _stop_requested w then 1 else 0))%nat.
Definition actions_left (sch : list (list action)) : nat := length (concat sch).

Lemma fail_futures_same l e w : let w' := (fail_futures l e w).1 in
  _state w' = _state w /\ _normal w' = _normal w /\ _stop_requested w' = _stop_requested w /\ _stop_waiters w' = _stop_waiters w.
Proof.
  revert w. induction l as [|f l IH]; intros w; [done|]. cbn [fail_futures]. unfold _fail_pending_future, set_running_or_notify_cancel, set_outcome.
  cbv zeta. unfold mbind, M_bind. destruct (future_of f w) eqn:Ef; simpl; try done; try (by apply IH).
  assert (future_of f (set_future f FRunning w) = FRunning) as -> by (unfold future_of; simpl; by rewrite lookup_insert_eq).
  cbn [future_done]. specialize (IH (set_future f (FExn e) (set_future f FRunning w))).
  destruct IH as (E1 & E2 & E3 & E4). split_and!; [exact E1|exact E2|exact E3|exact E4].
Qed.

Lemma action_work a w : (work (run_action cap a w) <= work w + 1)%nat.
Proof.
  unfold work. destruct a as [i d| | | |id]; simpl.
  - unfold submit, _require_running, getS, mbind, M_bind. case_bool_decide; simpl; [|lia].
    destruct (negb _ && negb _); simpl; [lia|]. destruct (_stop_requested w) eqn:Hs; simpl; [rewrite ?Hs; lia|].
    destruct (_ <=? _)%nat; simpl; [rewrite ?Hs; lia|]. rewrite length_app, ?Hs. simpl. lia.
  - unfold submit_priority_stop, _require_running, new_future, getS, modifyS, mbind, M_bind. case_bool_decide; simpl; [|lia].
    destruct (_stop_requested w) eqn:Hs; simpl; [rewrite ?Hs; simpl; lia|]. unfold _fail_items.
    match goal with |- context [fail_futures ?l ?e ?s] => pose proof (fail_futures_same l e s) as (_ & E1 & E2 & _);
      destruct (fail_futures l e s) as [w' [u|e'|]] end; simpl in *; rewrite E1, E2; simpl; lia.
  - unfold close, getS, modifyS, mbind, M_bind, _fail_items. destruct (_state w); simpl; try lia.
    + match goal with |- context [fail_futures ?l ?e ?s] => pose proof (fail_futures_same l e s) as (_ & E1 & E2 & _) end.
      rewrite E1, E2. simpl. destruct (_stop_requested w); lia.
    + match goal with |- context [fail_futures ?l ?e ?s] => pose proof (fail_futures_same l e s) as (_ & E1 & E2 & _) end.
      rewrite E1, E2. simpl. lia.
  - unfold start_expired. case_bool_decide; simpl; lia.
  - unfold cancel. destruct (futures w !! id) as [[]|]; simpl; lia.
Qed.

Lemma actions_work l w : (work (run_actions cap l w) <= work w + length l)%nat.
Proof.
  revert w. induction l as [|a l IH]; intros w; simpl; [lia|]. unfold run_actions in *. simpl.
  specialize (IH (run_action cap a w)). pose proof (action_work a w). lia.
Qed.

(** Only the worker thread takes a stop request back. *)
Lemma action_keeps_stop a w : _stop_requested w = true -> _stop_requested (run_action cap a w) = true.
Proof.
  intros Hs. destruct a as [i d| | | |id]; simpl.
  - unfold submit, _require_running, getS, mbind, M_bind. case_bool_decide; simpl; [|done].
    destruct (negb _ && negb _); simpl; [done|]. by rewrite Hs.
  - unfold submit_priority_stop, _require_running, new_future, getS, modifyS, mbind, M_bind. case_bool_decide; simpl; [|done].
    by rewrite Hs.
  - unfold close, getS, modifyS, mbind, M_bind, _fail_items. destruct (_state w); simpl; try done;
      match goal with |- context [fail_futures ?l ?e ?s] => pose proof (fail_futures_same l e s) as (_ & _ & -> & _) end; done.
  - unfold start_expired. by case_bool_decide.
  - unfold cancel. by destruct (futures w !! id) as [[]|].
Qed.

Lemma actions_keep_stop l w : _stop_requested w = true -> _stop_requested (run_actions cap l w) = true.
Proof. revert w. induction l as [|a l IH]; intros w Hw; [done|]. by apply IH, action_keeps_stop. Qed.

(** A finished worker admits nothing more. *)
Record finished (w : SerialWorker) : Prop := {
  fi_state : _state w = WorkerState.CLOSED \/ _state w = WorkerState.FAILED;
  fi_normal : _normal w = [];
  fi_waiters : _stop_waiters w = [];
  fi_stop : _stop_requested w = false;
}.

Lemma action_finished a w : finished w -> finished (run_action cap a w).
Proof.
  intros Hf. pose proof Hf as [Hst Hn Hw Hs]. destruct a as [i d| | | |id]; simpl.
  - unfold submit, _require_running, getS, mbind, M_bind. by rewrite bool_decide_false by (destruct Hst as [-> | ->]; done).
  - unfold submit_priority_stop, _require_running, getS, mbind, M_bind. by rewrite bool_decide_false by (destruct Hst as [-> | ->]; done).
  - unfold close, getS, mbind, M_bind. by destruct Hst as [-> | ->].
  - unfold start_expired. by rewrite bool_decide_false by (destruct Hst as [-> | ->]; done).
  - unfold cancel. destruct (futures w !! id) as [[]|]; [split; done|done..].
Qed.

Lemma actions_finished l w : finished w -> finished (run_actions cap l w).
Proof. revert w. induction l as [|a l IH]; intros w Hw; [done|]. by apply IH, action_finished. Qed.
End Invariant.
