(* ===== verification/WorkerSafety.v ===== *)
(** * The worker thread keeps every promise

    The thread is verified against the protocol interface: any client that always
    answers (it may raise whatever it likes) and that touches the shared state only
    through the interruption check it is given. *)
From S2P Require Import Prelude PyString Errors Operations Models Session Adapters Domain Worker WorkerSpec.

(** What the thread relies on: in states satisfying [port_ok] every call ends, possibly raising, in
    such a state again. *)
Class ProtocolLaws (C : Type) `{ProtocolPort C} := {
  port_ok : C -> Prop;
  law_open c : port_ok c -> port_ok (port_open c).1 /\ halts (port_open c).2;
  law_close c : port_ok c -> port_ok (port_close c).1 /\ halts (port_close c).2;
  law_wait_ready c : port_ok c -> port_ok (port_wait_ready c).1 /\ halts (port_wait_ready c).2;
  law_ping c : port_ok c -> port_ok (port_ping_barrier c).1 /\ halts (port_ping_barrier c).2;
  law_activate c : port_ok c -> port_ok (port_activate c).1 /\ halts (port_activate c).2;
  law_status c : port_ok c -> port_ok (port_get_status c).1 /\ halts (port_get_status c).2;
  law_capabilities c : port_ok c -> port_ok (port_get_capabilities c).1 /\ halts (port_get_capabilities c).2;
  law_queue c : port_ok c -> port_ok (port_get_queue c).1 /\ halts (port_get_queue c).2;
  law_stop c : port_ok c -> port_ok (port_out_of_band_stop c).1 /\ halts (port_out_of_band_stop c).2;
  law_request X cmd check poll (x : X) c : port_ok c -> 0 < poll ->
    port_ok (port_request X cmd check poll (x, c)).1.2 /\ halts (port_request X cmd check poll (x, c)).2;
  law_frame X (P : X -> Prop) cmd check poll (x : X) c : (forall x, P x -> P (check x).1) -> P x ->
    P (port_request X cmd check poll (x, c)).1.1;
}.

(** The callbacks return or raise. *)
Record config_ok {U} (cfg : WorkerConfig U) : Prop := {
  co_poll : 0 < interrupt_poll_interval cfg;
  co_profile : forall f c s u, profile_observer cfg = Some f -> halts (f c s u).2;
  co_dispatch : forall op u, halts (run_dispatch cfg op u).2;
}.

Section Thread.
Context {C U : Type} `{ProtocolLaws C} (cfg : WorkerConfig U) (Hcfg : config_ok cfg).
Abbreviation World := (World C U).
Abbreviation WM := (M World exn).
Abbreviation cap := (normal_capacity cfg).

(** The invariant of the world: the account of futures, the client's own invariant, and at most [k]
    pieces of work left, here or in the schedule. *)
Definition W (act det : list nat) (k : nat) (x : World) : Prop :=
  winv cap act det (shared x) /\ port_ok (client x) /\ (work (shared x) + actions_left (schedule x) <= k)%nat.

(** [m] leads from [P] to [Q] and returns. *)
Definition ends {A} (P : World -> Prop) (m : WM A) (Q : World -> Prop) : Prop :=
  forall x, P x -> wp m (fun x' r => Q x' /\ is_ok r = true) x.
(** [m] keeps [P] and returns or raises. *)
Definition safe {A} (P : World -> Prop) (m : WM A) : Prop :=
  forall x, P x -> wp m (fun x' r => P x' /\ halts r) x.
Abbreviation sure P m := (ends P m P).

Lemma ends_safe {A} P (m : WM A) : sure P m -> safe P m.
Proof. intros Hm x Hx. eapply wp_conseq; [by apply Hm|]. intros x' [a|e|] [? ?]; done. Qed.
Lemma ends_ret {A} P (a : A) : sure P (mret a).
Proof. by intros x Hx. Qed.
Lemma safe_raise {A} P e : safe P (raise (A:=A) e).
Proof. by intros x Hx. Qed.
Lemma ends_weaken {A} (P P' Q Q' : World -> Prop) (m : WM A) : ends P' m Q' -> (forall x, P x -> P' x) -> (forall x, Q' x -> Q x) -> ends P m Q.
Proof. intros Hm HP HQ x Hx. eapply wp_conseq; [by apply Hm, HP|]. intros x' r [? ?]. split; [by apply HQ|done]. Qed.

Lemma ends_bind {A B} P Q R (m : WM A) (f : A -> WM B) :
  ends P m Q -> (forall a, ends Q (f a) R) -> ends P (m ≫= f) R.
Proof.
  intros Hm Hf x Hx. wp_step. eapply wp_conseq; [by apply Hm|]. intros x' [a|e|] [HQ Hr]; try done. by apply Hf.
Qed.
Lemma safe_bind {A B} P (m : WM A) (f : A -> WM B) : safe P m -> (forall a, safe P (f a)) -> safe P (m ≫= f).
Proof.
  intros Hm Hf x Hx. wp_step. eapply wp_conseq; [by apply Hm|]. intros x' [a|e|] [HQ Hr]; try done. by apply Hf.
Qed.
Lemma ends_try {A} P Q (m : WM A) h : safe P m -> (forall e, ends P (h e) Q) -> (forall x, P x -> Q x) -> ends P (try_except m h) Q.
Proof.
  intros Hm Hh HPQ x Hx. wp_step. eapply wp_conseq; [by apply Hm|]. intros x' [a|e|] [HQ Hr]; try done; [|by apply Hh].
  split; [by apply HPQ|done].
Qed.
Lemma safe_try {A} P (m : WM A) h : safe P m -> (forall e, safe P (h e)) -> safe P (try_except m h).
Proof.
  intros Hm Hh x Hx. wp_step. eapply wp_conseq; [by apply Hm|]. intros x' [a|e|] [HQ Hr]; try done. by apply Hh.
Qed.
Lemma ends_case {A B} P Q (m : WM A) (ok : A -> WM B) h :
  safe P m -> (forall a, ends P (ok a) Q) -> (forall e, ends P (h e) Q) -> ends P (try_case m ok h) Q.
Proof.
  intros Hm Ha Hh x Hx. wp_step. eapply wp_conseq; [by apply Hm|]. intros x' [a|e|] [HQ Hr]; try done; [by apply Ha|by apply Hh].
Qed.

(** A section of the lock: whatever other threads did first, the invariant still holds. *)
Lemma interleave_W act det k x : W act det k x -> W act det k (interleave cfg x).
Proof.
  intros (Hi & Hp & Hk). unfold interleave. destruct (schedule x) as [|l rest] eqn:E; [by split_and!; [| |rewrite E]|].
  split_and!; simpl; [by apply actions_inv|done|]. pose proof (actions_work cap l (shared x)). unfold actions_left in *.
  simpl in Hk. rewrite length_app in Hk. lia.
Qed.

Lemma ends_locked {A} (m : SM A) act det act' det' k k' :
  (forall w, winv cap act det w -> (work w <= k)%nat -> exists a, (m w).2 = Ok a /\ winv cap act' det' (m w).1
     /\ (work (m w).1 + k <= work w + k')%nat) ->
  ends (W act det k) (locked cfg m) (W act' det' k').
Proof.
  intros Hm x Hx. unfold wp, locked. apply interleave_W in Hx as (Hi & Hp & Hk).
  destruct (Hm (shared (interleave cfg x)) Hi) as (a & Ea & Hi' & Hw); [lia|]. cbn [fst snd]. split; [|by rewrite Ea].
  split_and!; simpl; [done|done|lia].
Qed.

(** A section that leaves queue, stop flag and futures alone. *)
Lemma sure_locked_same {A} (m : SM A) act det k :
  (forall w, exists a, (m w).2 = Ok a /\ _normal (m w).1 = _normal w /\ _stop_requested (m w).1 = _stop_requested w
     /\ _stop_waiters (m w).1 = _stop_waiters w /\ futures (m w).1 = futures w) ->
  sure (W act det k) (locked cfg m).
Proof.
  intros Hm. apply ends_locked. intros w Hi Hk. destruct (Hm w) as (a & Ea & E1 & E2 & E3 & E4). exists a.
  split_and!; [done|by eapply winv_same|]. unfold work. rewrite E1, E2. lia.
Qed.

Lemma sure_transition s reason act det k : sure (W act det k) (transition cfg s reason).
Proof.
  intros x Hx. unfold wp, transition. apply interleave_W in Hx as (Hi & Hp & Hk). set (y := interleave cfg x) in *. cbn [fst snd].
  split; [|done]. destruct (session_transition s reason (_session (shared y))) as [st [snap|]]; simpl;
    (split_and!; [by eapply winv_same|done|done]).
Qed.

Lemma sure_session_state act det k : sure (W act det k) (session_state cfg).
Proof. apply sure_locked_same. intros w. by eexists. Qed.
Lemma sure_is_ready act det k : sure (W act det k) (_is_ready cfg).
Proof. eapply ends_bind; [apply sure_session_state|]. intros; apply ends_ret. Qed.
Lemma sure_is_stop act det k : sure (W act det k) (_is_stop_requested cfg).
Proof. apply sure_locked_same. intros w. by eexists. Qed.
Lemma sure_is_closing act det k : sure (W act det k) (_is_closing cfg).
Proof. apply sure_locked_same. intros w. by eexists. Qed.
Lemma sure_mark_failed e act det k : sure (W act det k) (_mark_failed cfg e).
Proof. apply sure_locked_same. intros w. exists tt. simpl. by case_bool_decide. Qed.

Lemma safe_on_client {A} (m : M C exn A) act det k :
  (forall c, port_ok c -> port_ok (m c).1 /\ halts (m c).2) -> safe (W act det k) (on_client m).
Proof. intros Hm x (Hi & Hp & Hk). unfold wp, on_client. simpl. destruct (Hm _ Hp) as [? ?]. by split_and!. Qed.
Lemma safe_on_outside {A} (m : M U exn A) act det k : (forall u, halts (m u).2) -> safe (W act det k) (on_outside m).
Proof. intros Hm x (Hi & Hp & Hk). unfold wp, on_outside. simpl. by split_and!. Qed.

Lemma sure_close_transport act det k : sure (W act det k) (_close_transport cfg).
Proof. apply ends_try; [apply safe_on_client, law_close|intros; apply sure_mark_failed|done]. Qed.
Lemma sure_fail_session e reason act det k : sure (W act det k) (_fail_session cfg e reason).
Proof. eapply ends_bind; [apply sure_transition|]. intros; apply sure_mark_failed. Qed.
#[local] Hint Resolve sure_transition sure_session_state sure_is_ready sure_is_stop sure_is_closing sure_mark_failed
  sure_close_transport sure_fail_session ends_ret safe_raise : cs71.

Ltac ends_step :=
  match goal with
  | |- ends _ (_ ≫= _) _ => eapply ends_bind; [|intros]
  | |- ends _ (try_case _ _ _) _ => apply ends_case; [|intros|intros]
  | |- ends _ (if ?b then _ else _) _ => destruct b
  | |- ends _ (match ?x with _ => _ end) _ => destruct x
  | |- ends _ _ _ => solve [eauto with cs71]
  | |- safe _ (_ ≫= _) => apply safe_bind; [|intros]
  | |- safe _ (try_except _ _) => apply safe_try; [|intros]
  | |- safe _ (if ?b then _ else _) => destruct b
  | |- safe _ (match ?x with _ => _ end) => destruct x
  | |- safe _ (on_client port_open) => apply safe_on_client, law_open
  | |- safe _ (on_client port_wait_ready) => apply safe_on_client, law_wait_ready
  | |- safe _ (on_client port_ping_barrier) => apply safe_on_client, law_ping
  | |- safe _ (on_client port_activate) => apply safe_on_client, law_activate
  | |- safe _ (on_client port_get_status) => apply safe_on_client, law_status
  | |- safe _ (on_client port_get_capabilities) => apply safe_on_client, law_capabilities
  | |- safe _ (on_client port_get_queue) => apply safe_on_client, law_queue
  | |- safe _ (on_client port_out_of_band_stop) => apply safe_on_client, law_stop
  | |- safe _ _ => solve [eauto using ends_safe with cs71]
  end.
Ltac ends_steps := repeat ends_step.

Lemma safe_publish_profile act det k : safe (W act det k) (_publish_profile cfg).
Proof.
  unfold _publish_profile. destruct (profile_observer cfg) as [f|] eqn:E; [|by ends_steps]. ends_steps.
  apply safe_on_outside. intros u. by eapply (co_profile cfg Hcfg).
Qed.
#[local] Hint Resolve safe_publish_profile : cs71.
Lemma safe_activate act det k : safe (W act det k) (_activate cfg).
Proof. unfold _activate. ends_steps. Qed.
#[local] Hint Resolve safe_activate : cs71.
Lemma safe_connect act det k : safe (W act det k) (_connect cfg).
Proof. unfold _connect. ends_steps. Qed.
#[local] Hint Resolve safe_connect : cs71.
Lemma sure_reconnect_attempts n e act det k : sure (W act det k) (reconnect_attempts cfg n e).
Proof. induction n; simpl; ends_steps. Qed.
#[local] Hint Resolve sure_reconnect_attempts : cs71.
Lemma sure_reconnect e act det k : sure (W act det k) (_reconnect cfg e).
Proof. unfold _reconnect. ends_steps. Qed.
#[local] Hint Resolve sure_reconnect : cs71.

(** *** Futures the thread detaches and resolves *)

Lemma winv_take_waiters act det w : winv cap act det w ->
  winv cap act (_stop_waiters w ++ det) (set_stop false [] w).
Proof.
  intros [Hn Ha Hw Hd Hs Hwt Hc]. split; unfold queued in *; simpl; try done.
  - rewrite app_nil_r. rewrite (Permutation_app_comm _ det), <- app_assoc.
    by rewrite (Permutation_app_comm (_stop_waiters w)).
  - intros f Hf. apply Hw. rewrite app_nil_r in Hf. set_solver.
  - intros f v Hf Hn'. apply (Hd f v Hf). rewrite app_nil_r in Hn'. set_solver.
Qed.

(** Resolving a detached list to a value: the loop of [_resolve_stop] without an error. *)
Lemma resolve_all_spec act det l w : winv cap act (l ++ det) w ->
  exists fs, let w' := mkSerialWorker (_state w) (_normal w) (_stop_requested w) (_stop_waiters w) (_session w) (_failure w) fs in
    (fix go (l : list nat) : SM unit :=
       match l with
       | [] => mret tt
       | id :: l => ok ← set_running_or_notify_cancel id;
                    _ ← (if ok : bool then set_outcome id (FResult FVNone) else mret tt);
                    go l
       end) l w = (w', Ok tt) /\ winv cap act det w'.
Proof.
  revert w. induction l as [|f l IH]; intros w Hi; simpl in *.
  - exists (futures w). by destruct w.
  - unfold mbind, M_bind in *.
    destruct (winv_running_cases _ _ _ _ _ Hi) as [[-> Hi']|[-> Hi']].
    + destruct (set_outcome_spec _ _ _ _ f (FResult FVNone) Hi' eq_refl) as [-> Hi'']. apply (IH _ Hi'').
    + apply (IH _ Hi').
Qed.

(** Settling what [_resolve_stop] took, in its second section. *)
Lemma ends_settle_waiters error waiters act det k :
  ends (W act (waiters ++ det) k)
    (locked cfg (match error with
          | None => (fix go (l : list nat) : SM unit :=
                       match l with
                       | [] => mret tt
                       | id :: l => ok ← set_running_or_notify_cancel id;
                                    _ ← (if ok : bool then set_outcome id (FResult FVNone) else mret tt);
                                    go l
                       end) waiters
          | Some e => fail_futures waiters e
          end)) (W act det k).
Proof.
  apply ends_locked. intros w Hi Hk. exists tt. destruct error as [e|].
  - destruct (fail_futures_spec _ _ _ _ _ e Hi) as (fs & -> & Hw). split_and!; [done|done|]. simpl. unfold work. simpl. lia.
  - destruct (resolve_all_spec _ _ _ _ Hi) as (fs & -> & Hw). split_and!; [done|done|]. simpl. unfold work. simpl. lia.
Qed.

Lemma ends_resolve_stop error act det k : sure (W act det k) (_resolve_stop cfg error).
Proof.
  intros x Hx. unfold _resolve_stop. wp_step. unfold wp at 1, locked. apply interleave_W in Hx as (Hi & Hp & Hk). cbn [fst snd].
  wp_steps. apply (ends_settle_waiters error). split_and!; simpl; [by apply winv_take_waiters|done|].
  unfold work in *. simpl. destruct (_stop_requested (shared (interleave cfg x))); lia.
Qed.

(** When a stop was requested, resolving it is one piece of work less. *)
Definition stopping (x : World) : Prop := _stop_requested (shared x) = true.

Lemma interleave_stopping x : stopping x -> stopping (interleave cfg x).
Proof.
  unfold stopping, interleave. destruct (schedule x) as [|l rest]; [done|]. simpl. by apply actions_keep_stop.
Qed.

Lemma ends_resolve_requested error act det k :
  ends (fun x => W act det (S k) x /\ stopping x) (_resolve_stop cfg error) (W act det k).
Proof.
  intros x [Hx Hs]. unfold _resolve_stop. wp_step. unfold wp at 1, locked. apply interleave_W in Hx as (Hi & Hp & Hk).
  apply interleave_stopping in Hs. unfold stopping in Hs. cbn [fst snd].
  wp_steps. apply (ends_settle_waiters error). split_and!; simpl; [by apply winv_take_waiters|done|].
  unfold work in *. simpl. rewrite Hs in Hk. lia.
Qed.

Lemma sure_drain_queue e act det k : sure (W act det k) (_drain_queue cfg e).
Proof.
  intros x Hx. unfold _drain_queue. wp_step. unfold wp at 1, locked. apply interleave_W in Hx as (Hi & Hp & Hk). cbn [fst snd].
  wp_steps. set (y := interleave cfg x) in *. unfold _fail_items.
  eapply (ends_locked _ act (queued (shared y) ++ det) act det k k); [|split_and!; simpl; [by apply winv_detach|done|]].
  - intros w Hw Hkw. exists tt. destruct (fail_futures_spec _ _ _ _ _ e Hw) as (fs & E & Hw'). unfold queued in E. rewrite E.
    split_and!; [done|done|]. unfold work. simpl. lia.
  - unfold work in *. simpl. lia.
Qed.
#[local] Hint Resolve ends_resolve_stop sure_drain_queue : cs71.

Lemma sure_recover e act det k : sure (W act det k) (_recover cfg e).
Proof. unfold _recover. ends_steps. Qed.

(** *** Intents *)

Lemma stop_check_W act det k w sch :
  winv cap act det w /\ (work w + actions_left sch <= k)%nat ->
  let y := (stop_check cfg (w, sch)).1 in winv cap act det y.1 /\ (work y.1 + actions_left y.2 <= k)%nat.
Proof.
  intros [Hi Hk]. unfold stop_check. simpl. destruct sch as [|l rest]; [done|]. simpl. split; [by apply actions_inv|].
  pose proof (actions_work cap l w). unfold actions_left in *. simpl in Hk. rewrite length_app in Hk. lia.
Qed.

Lemma safe_on_request cmd act det k : safe (W act det k) (on_request cfg cmd).
Proof.
  intros x (Hi & Hp & Hk). unfold wp, on_request. cbv zeta. cbn [fst snd].
  destruct (law_request _ cmd (stop_check cfg) (interrupt_poll_interval cfg) (shared x, schedule x) (client x) Hp (co_poll cfg Hcfg)) as [H1 H2].
  pose proof (law_frame _ (fun y => winv cap act det y.1 /\ (work y.1 + actions_left y.2 <= k)%nat) cmd (stop_check cfg)
    (interrupt_poll_interval cfg) (shared x, schedule x) (client x)) as Hf.
  destruct Hf as [H3 H4]; [intros [w sch]; apply stop_check_W|done|]. by split_and!.
Qed.
#[local] Hint Resolve sure_recover safe_on_request : cs71.

Lemma safe_dispatch i act det k : safe (W act det k) (_dispatch cfg i).
Proof. unfold _dispatch. ends_steps. Qed.
Lemma sure_withdrawn d act det k : sure (W act det k) (withdrawn cfg d).
Proof.
  unfold withdrawn. destruct d as [op|]; ends_steps. apply safe_on_outside. intros u. by apply (co_dispatch cfg Hcfg).
Qed.
#[local] Hint Resolve safe_dispatch sure_withdrawn : cs71.

(** The active future is resolved. *)
Lemma ends_outcome f v det k : future_done v = true -> ends (W [f] det k) (locked cfg (set_outcome f v)) (W [] det k).
Proof.
  intros Hv. apply ends_locked. intros w Hi Hk. exists tt. destruct (set_outcome_spec _ _ _ _ f v Hi Hv) as [-> Hi'].
  split_and!; [done|done|]. unfold work. simpl. lia.
Qed.

(** The popped future becomes active, or it was cancelled. *)
Lemma wp_set_running f k x Q : W [] [f] k x ->
  (forall x', W [f] [] k x' -> Q x' (Ok true)) -> (forall x', W [] [] k x' -> Q x' (Ok false)) ->
  wp (locked cfg (set_running_or_notify_cancel f)) Q x.
Proof.
  intros Hx Ht Hf. unfold wp, locked. apply interleave_W in Hx as (Hi & Hp & Hk).
  destruct (winv_running_cases _ _ _ _ _ Hi) as [[-> Hi']|[-> Hi']]; cbn [fst snd]; [apply Ht|apply Hf];
    (split_and!; simpl; [done|done|unfold work in *; simpl; lia]).
Qed.

Lemma ends_item_failed f e k : ends (W [f] [] k) (item_failed cfg f e) (W [] [] k).
Proof.
  unfold item_failed. destruct (isinstance e _).
  - eapply ends_bind; [by apply ends_outcome|intros]. ends_steps.
  - eapply ends_bind; [apply sure_is_stop|intros stop]. destruct stop.
    + eapply ends_bind; [by apply ends_outcome|intros]. ends_steps.
    + eapply ends_bind; [by apply ends_outcome|intros]. ends_steps.
Qed.

Lemma ends_item_returned i f v k : ends (W [f] [] k) (item_returned cfg i f v) (W [] [] k).
Proof.
  unfold item_returned. eapply ends_bind; [apply sure_is_stop|intros stop]. destruct stop.
  - eapply ends_bind; [|intros; apply ends_ret]. apply ends_case; [ends_steps|intros|intros];
      (eapply ends_bind; [by apply ends_outcome|intros]); ends_steps.
  - eapply ends_bind; [by apply ends_outcome|intros]. destruct i; ends_steps.
Qed.

Lemma ends_execute_item item k : ends (W [] [item_future item] k) (_execute_item cfg item) (W [] [] k).
Proof.
  intros x Hx. unfold _execute_item. wp_step. apply (wp_set_running _ k); [done| |]; intros x' Hx'; wp_steps; cbn [negb]; [|done].
  revert x' Hx'. apply (ends_bind (W [item_future item] [] k) (W [item_future item] [] k)); [apply sure_withdrawn|].
  intros [e|]; [eapply ends_bind; [by apply ends_outcome|intros; apply ends_ret]|].
  eapply (ends_bind _ (W [item_future item] [] k)); [ends_steps|].
  intros [v|e]; [apply ends_item_returned|apply ends_item_failed].
Qed.

Lemma safe_verify_session a f k : forall x, W [f] [] k x ->
  wp (verify_session cfg a f) (fun x' r => (is_ok r = true /\ W [] [] k x') \/ (is_err r = true /\ W [f] [] k x')) x.
Proof.
  intros x Hx. unfold verify_session. wp_step. eapply wp_conseq.
  { apply (ends_safe (W [f] [] k)); [|exact Hx]. destruct a; ends_steps. }
  intros x1 [renew|e|] [Hx1 Hr]; try done; [|right; by split]. wp_steps.
  match goal with |- wp ?m _ _ => assert (safe (W [f] [] k) m) as Hs by (destruct renew; ends_steps) end.
  eapply wp_conseq; [exact (Hs x1 Hx1)|].
  intros x2 [u|e|] [Hx2 Hr2]; try done; [|right; by split]. wp_steps. eapply wp_conseq.
  { apply (safe_on_client port_get_status [f] [] k law_status x2 Hx2). }
  intros x3 [st|e|] [Hx3 Hr3]; try done; [|right; by split]. wp_steps. eapply wp_conseq.
  { by apply (ends_outcome f (FResult (FVResult (RStatus st))) [] k eq_refl x3). }
  intros x4 r [Hx4 Hr4]. left. by split.
Qed.

Lemma ends_session_intent a item k : ends (W [] [item_future item] k) (_execute_session_intent cfg a item) (W [] [] k).
Proof.
  intros x Hx. unfold _execute_session_intent. wp_step. apply (wp_set_running _ k); [done| |]; intros x' Hx'; wp_steps; cbn [negb]; [|done].
  revert x' Hx'. apply (ends_bind (W [item_future item] [] k) (W [item_future item] [] k)); [apply sure_withdrawn|].
  intros [e|]; [eapply ends_bind; [by apply ends_outcome|intros; apply ends_ret]|].
  intros x' Hx'. wp_step. eapply wp_conseq; [by apply safe_verify_session|].
  intros x2 [u|e|] [[Hr Hx2]|[Hr Hx2]]; try done. wp_step. apply wp_bind_inv. revert x2 Hx2.
  assert (ends (W [item_future item] [] k) (_ ← locked cfg (set_outcome (item_future item) (FExn e));
    _ ← _fail_session cfg e (SessionAction.value a +:+ " could not verify the session"); mret false) (W [] [] k)) as He.
  { eapply ends_bind; [by apply ends_outcome|intros]. ends_steps. }
  exact He.
Qed.

Lemma ends_execute_stop k : ends (fun x => W [] [] (S k) x /\ stopping x) (_execute_stop cfg) (W [] [] k).
Proof.
  intros x [Hx Hs]. unfold _execute_stop. wp_step.
  eapply (wp_conseq _ (fun x' r => (W [] [] (S k) x' /\ stopping x') /\ halts r)).
  { destruct Hx as (Hi & Hp & Hk). unfold wp, on_client. simpl. destruct (law_stop _ Hp). by split_and!. }
  intros x' [u|e|] [Hx' Hr]; try done; [by apply ends_resolve_requested|].
  revert x' Hx'. eapply ends_bind; [apply ends_resolve_requested|]. intros; apply sure_fail_session.
Qed.

(** ** The run loop *)

(** Nothing is queued or requested, and the schedule has run out. *)
Record idle (x : World) : Prop := {
  id_normal : _normal (shared x) = [];
  id_stop : _stop_requested (shared x) = false;
  id_schedule : schedule x = [];
}.

Lemma interleave_schedule n (x : World) : (length (schedule x) <= S n)%nat -> (length (schedule (interleave cfg x)) <= n)%nat.
Proof. unfold interleave. destruct (schedule x) as [|l rest] eqn:E; simpl; [rewrite E; simpl|]; lia. Qed.

(** What the next action leaves behind. *)
Definition next_post (k : nat) (x' : World) (r : result next) : Prop :=
  match r with
  | Ok NStop => exists k', k = S k' /\ W [] [] (S k') x' /\ stopping x'
  | Ok (NItem item) => exists k', k = S k' /\ W [] [item_future item] k' x'
  | Ok NReturn => W [] [] k x'
  | Ok NParked => W [] [] k x' /\ idle x'
  | _ => False
  end.

Lemma winv_pop w item rest : winv cap [] [] w -> _normal w = item :: rest -> winv cap [] [item_future item] (set_normal rest w).
Proof.
  intros [Hn Ha Hw Hd Hs Hwt Hc] E. unfold queued in *. rewrite E in *. split; unfold queued; simpl in *; try done.
  - intros Hst. by specialize (Hs Hst).
  - lia.
Qed.

Lemma wp_await n k x : (length (schedule x) <= S n)%nat -> W [] [] k x ->
  next_post k (await_action cfg n x).1 (await_action cfg n x).2.
Proof.
  revert x. induction n as [|n IH]; intros x Hl Hx; apply interleave_W in Hx; apply interleave_schedule in Hl; simpl;
    set (y := interleave cfg x) in *;
    (destruct (_stop_requested (shared y)) eqn:Hs;
      [destruct k as [|k]; [destruct Hx as (_ & _ & Hk); unfold work in Hk; rewrite Hs in Hk; lia|by exists k]|]);
    (case_bool_decide; [done|]);
    (destruct (_normal (shared y)) as [|item rest] eqn:Hn; simpl;
      [|destruct Hx as (Hi & Hp & Hk); unfold work in Hk; rewrite Hn, Hs in Hk; simpl in Hk; destruct k as [|k]; [lia|];
        exists k; split; [done|]; split_and!; [by apply winv_pop|done|unfold work; simpl; rewrite Hs; lia]]).
  - split; [done|]. split; [done|done|]. destruct (schedule y); [done|simpl in Hl; lia].
  - by apply IH.
Qed.

Definition all_done (x : World) : Prop := forall f v, futures (shared x) !! f = Some v -> future_done v = true.

Lemma idle_all_done k x : W [] [] k x -> idle x -> all_done x.
Proof.
  intros (Hi & _ & _) [Hn Hs _] f v Hf. apply (wi_done _ _ _ _ Hi f v Hf). unfold queued. rewrite Hn, (wi_waiters _ _ _ _ Hi Hs).
  simpl. apply not_elem_of_nil.
Qed.

(** The loop ends or parks; parked, it has nothing left to do. *)
Definition loop_post (k : nat) (x' : World) (r : result bool) : Prop :=
  match r with
  | Ok true => W [] [] k x' /\ idle x'
  | Ok false => W [] [] k x'
  | _ => False
  end.

Lemma W_weaken act det k k' x : W act det k x -> (k <= k')%nat -> W act det k' x.
Proof. intros (? & ? & ?) ?. split_and!; [done|done|lia]. Qed.

Lemma loop_weaken k k' x' r : loop_post k x' r -> (k <= k')%nat -> loop_post k' x' r.
Proof. destruct r as [[]|e|]; simpl; try done; [intros (? & ?) ?; split; try done; by eapply W_weaken|intros; by eapply W_weaken]. Qed.

Lemma wp_ends {A B} P Q R (m : WM A) (f : A -> WM B) x : ends P m Q -> P x ->
  (forall x' a, Q x' -> wp (f a) R x') -> wp (m ≫= f) R x.
Proof. intros Hm HP Hf. wp_step. eapply wp_conseq; [by apply Hm|]. intros x' [a|e|] [HQ Hr]; try done. by apply Hf. Qed.

(** A link that is no longer usable ends the loop. *)
Lemma wp_keep_link k (usable : bool) (loop : WM bool) x : W [] [] k x -> (forall x', W [] [] k x' -> wp loop (loop_post k) x') ->
  wp (_ ← keep_link usable; if usable then loop else mret false) (loop_post k) x.
Proof. intros Hx Hl. destruct usable; wp_steps; [apply Hl|]; done. Qed.

(** The loop does at most one round per piece of work, and one more to find nothing. *)
Lemma main_loop_spec fuel k x : (k < fuel)%nat -> W [] [] k x -> wp (main_loop cfg fuel) (loop_post k) x.
Proof.
  revert k x. induction fuel as [|fuel IH]; intros k x Hk Hx; [lia|]. cbn [main_loop]. wp_step. unfold wp at 1, _next_action.
  pose proof (wp_await (length (schedule x)) k x (Nat.le_succ_diag_r _) Hx) as Hn. destruct (await_action cfg _ x) as [x1 [[|item| |]|e|]]; cbn [fst snd next_post] in *; try done.
  - destruct Hn as (k' & -> & Hx1). wp_step. eapply wp_ends; [apply ends_execute_stop|exact Hx1|]. intros x2 _ Hx2.
    eapply wp_conseq; [apply (IH k'); [lia|done]|]. intros x3 r Hr. eapply loop_weaken; [done|lia].
  - destruct Hn as (k' & -> & Hx1). wp_step.
    assert (forall x', W [] [] k' x' -> wp (main_loop cfg fuel) (loop_post k') x') as Hl by (intros; by apply IH; [lia|]).
    eapply (wp_conseq _ (loop_post k')); [|intros x3 r Hr; eapply loop_weaken; [done|lia]].
    destruct (intent item) as [sa|q|ax|slot] eqn:Ei.
    { eapply wp_ends; [apply ends_session_intent|exact Hx1|]. intros x2 usable Hx2. by apply wp_keep_link. }
    all: (eapply wp_ends; [apply ends_execute_item|exact Hx1|]; intros x2 [e|] Hx2; [|by apply Hl];
      eapply wp_ends; [apply sure_recover|exact Hx2|]; intros x3 usable Hx3; by apply wp_keep_link).
Qed.

(** *** The end of the thread *)

(** The thread is over: nothing is queued or waiting, and nothing more is admitted. *)
Definition over (act det : list nat) (x : World) : Prop := winv cap act det (shared x) /\ finished (shared x).

Lemma interleave_over act det x : over act det x -> over act det (interleave cfg x).
Proof.
  intros [Hi Hf]. unfold interleave. destruct (schedule x) as [|l rest]; [done|]. split; simpl; [by apply actions_inv|by apply actions_finished].
Qed.

Lemma ends_over_transition s reason act det : ends (over act det) (transition cfg s reason) (over act det).
Proof.
  intros x Hx. unfold wp, transition. apply interleave_over in Hx as [Hi Hf]. set (y := interleave cfg x) in *. cbn [fst snd].
  split; [|done]. destruct (session_transition s reason (_session (shared y))) as [st [snap|]]; simpl;
    (split; [by eapply winv_same|by destruct Hf; split]).
Qed.

Lemma ends_over_fail l e act det : ends (over act (l ++ det)) (locked cfg (fail_futures l e)) (over act det).
Proof.
  intros x Hx. unfold wp, locked. apply interleave_over in Hx as [Hi Hf]. set (y := interleave cfg x) in *.
  destruct (fail_futures_spec _ _ _ _ _ e Hi) as (fs & -> & Hw). cbn [fst snd]. split; [|done]. split; [done|]. by destruct Hf; split.
Qed.

Lemma finish_takes_all k x : W [] [] k x ->
  let w := shared x in
  let w' := if bool_decide (_state w = WorkerState.FAILED) then w else set_state WorkerState.CLOSED w in
  winv cap [] (queued w ++ _stop_waiters w) (set_normal [] (set_stop false [] w')) /\ finished (set_normal [] (set_stop false [] w')).
Proof.
  intros (Hi & _ & _) w w'. assert (winv cap [] [] w') as Hw' by (unfold w'; case_bool_decide; [done|by eapply winv_same]).
  assert (queued w' = queued w /\ _stop_waiters w' = _stop_waiters w) as [Eq Es] by (unfold w'; by case_bool_decide).
  split.
  - apply winv_take_waiters, (winv_detach cap) in Hw'. simpl in Hw'. rewrite app_nil_r in Hw'.
    unfold queued in *. simpl in Hw'. rewrite Eq, Es in Hw'. exact Hw'.
  - split; simpl; try done. unfold w'. case_bool_decide as E; [by right|by left].
Qed.

Lemma ends_finish_thread k : ends (W [] [] k) (_finish_thread cfg) (over [] []).
Proof.
  intros x Hx. unfold _finish_thread. wp_step. unfold wp at 1, locked. apply interleave_W in Hx. set (y := interleave cfg x) in *.
  cbn [fst snd]. wp_step. pose proof (finish_takes_all k y Hx) as Hf. cbv zeta in Hf. set (x1 := set_shared _ y).
  assert (over [] (queued (shared y) ++ _stop_waiters (shared y)) x1) as Hx1 by exact Hf. clearbody x1. clear Hf.
  set (q := _normal (shared y)). change (queued (shared y)) with (item_future <$> q) in Hx1. set (ws := _stop_waiters (shared y)) in *.
  clearbody q ws. revert x1 Hx1. apply (ends_bind _ (over [] ((item_future <$> q) ++ ws))).
  { intros z Hz. unfold wp, session_state, locked. apply interleave_over in Hz. split; [|done]. by destruct (interleave cfg z). }
  intros s. apply (ends_bind _ (over [] ((item_future <$> q) ++ ws))); [destruct (bool_decide _); [apply ends_ret|apply ends_over_transition]|].
  intros _ z Hz. wp_steps. unfold _fail_items. apply wp_bind_inv.
  revert z Hz. intros z Hz. set (e := default _ _). clearbody e. revert z Hz.
  eapply ends_bind; [apply ends_over_fail|]. intros _.
  pose proof (ends_over_fail ws e [] []) as Hl. by rewrite app_nil_r in Hl.
Qed.

(** The whole body: it parks with nothing to do, or it returns or raises. *)
Lemma run_body_spec fuel k x : (k < fuel)%nat -> W [] [] k x ->
  wp (run_body cfg fuel) (fun x' r => loop_post k x' r \/ (is_err r = true /\ W [] [] k x')) x.
Proof.
  intros Hk Hx. unfold run_body. wp_step. eapply wp_conseq; [exact (safe_connect [] [] k x Hx)|].
  intros x1 [u|e|] [Hx1 Hr]; try done; [|by right]. wp_steps.
  eapply (wp_ends (W [] [] k)); [apply sure_is_closing|exact Hx1|]. intros x2 [|] Hx2; [by left|].
  eapply (wp_ends (W [] [] k)); [|exact Hx2|].
  { apply sure_locked_same. intros w. case_bool_decide; by eexists. }
  intros x3 [|] Hx3; cbn [negb]; [|by left]. eapply wp_conseq; [by apply main_loop_spec|]. intros; by left.
Qed.

(** How the thread ends: parked and idle, or over. *)
Definition run_post (x' : World) (r : result bool) : Prop :=
  match r with
  | Ok true => exists k, W [] [] k x' /\ idle x'
  | Ok false => over [] [] x'
  | _ => False
  end.

Lemma wp_finish_run k x : W [] [] k x ->
  wp (x ← getS; _ ← (if link x then _close_transport cfg else mret tt); _ ← _finish_thread cfg; mret false) run_post x.
Proof.
  intros Hx. do 2 wp_step. eapply (wp_ends (W [] [] k)); [|exact Hx|].
  { destruct (link x); [apply sure_close_transport|apply ends_ret]. }
  intros x1 _ Hx1. eapply wp_ends; [apply (ends_finish_thread k)|exact Hx1|]. intros x2 _ Hx2. wp_steps. exact Hx2.
Qed.

Lemma run_spec fuel k x : (k < fuel)%nat -> W [] [] k x -> wp (_run cfg fuel) run_post x.
Proof.
  intros Hk Hx. unfold _run. wp_step. wp_step. eapply wp_conseq; [by apply run_body_spec|].
  intros x1 [[|]|e|] Hr; try (by destruct Hr as [?|[? ?]]).
  - destruct Hr as [Hr|[? ?]]; [|done]. wp_steps. by exists k.
  - destruct Hr as [Hr|[? ?]]; [|done]. by apply (wp_finish_run k).
  - destruct Hr as [?|[_ Hx1]]; [done|].
    eapply (wp_ends (W [] [] k)); [apply sure_transition|exact Hx1|]. intros x2 _ Hx2.
    eapply (wp_ends (W [] [] k)); [apply sure_mark_failed|exact Hx2|]. intros x3 _ Hx3. do 2 wp_step. by apply (wp_finish_run k).
Qed.
End Thread.

(** ** The worker's promises *)

(** Where [start] leaves a new worker, about to run its thread. *)
Definition started {C U} (c : C) (u : U) (sch : list (list action)) : Worker.World C U :=
  mkWorld (start SerialWorker_init).1 c u false sch.

Lemma winv_init cap s : winv cap [] [] (set_state s SerialWorker_init).
Proof. split; simpl; try done; [constructor|set_solver|set_solver|lia]. Qed.

Lemma run_started {C U} `{ProtocolLaws C} (cfg : WorkerConfig U) fuel c u sch :
  config_ok cfg -> port_ok c -> (length (concat sch) < fuel)%nat ->
  wp (_run cfg fuel) (run_post cfg) (started c u sch).
Proof.
  intros Hcfg Hp Hf. eapply run_spec; [done|exact Hf|]. split_and!; [apply winv_init|done|].
  unfold work, actions_left. simpl. lia.
Qed.

(** What is settled stays settled, whatever other threads still do. *)
Lemma over_settled {C U} (cfg : WorkerConfig U) (x : Worker.World C U) l : over cfg [] [] x ->
  let w := run_actions (normal_capacity cfg) l (shared x) in
  (forall f v, futures w !! f = Some v -> future_done v = true) /\ finished w.
Proof.
  intros [Hi Hf] w. pose proof (actions_inv _ _ _ l _ Hi) as Hi'. pose proof (actions_finished (normal_capacity cfg) l _ Hf) as Hf'.
  fold w in Hi', Hf'. split; [|done]. intros f v Hv. apply (wi_done _ _ _ _ Hi' f v Hv).
  unfold queued. rewrite (fi_normal _ Hf'), (fi_waiters _ Hf'). apply not_elem_of_nil.
Qed.

(** C2: whatever other threads submit, stop, cancel or close and whenever they do it, and whatever the
    controller answers, the worker thread never dies of an exception and does at most one round of its
    loop per call made: either every call has been made and it waits with nothing queued and nothing
    requested, every future it ever handed out being done, or it ended CLOSED or FAILED with every
    future done, and then no later call leaves a future pending. *)
Theorem worker_settles_futures {C U} `{ProtocolLaws C} (cfg : WorkerConfig U) fuel c u sch :
  config_ok cfg -> port_ok c -> (length (concat sch) < fuel)%nat ->
  let p := _run cfg fuel (started c u sch) in
  (p.2 = Ok true /\ schedule p.1 = [] /\ _normal (shared p.1) = [] /\ _stop_waiters (shared p.1) = []
     /\ forall f v, futures (shared p.1) !! f = Some v -> future_done v = true)
  \/ (p.2 = Ok false /\ forall l, let w := run_actions (normal_capacity cfg) l (shared p.1) in
        (forall f v, futures w !! f = Some v -> future_done v = true)
        /\ _normal w = [] /\ _stop_waiters w = []
        /\ (_state w = WorkerState.CLOSED \/ _state w = WorkerState.FAILED)).
Proof.
  intros Hcfg Hp Hf p. pose proof (run_started cfg fuel c u sch Hcfg Hp Hf) as Hr. unfold wp in Hr. fold p in Hr.
  destruct p as [x [[|]|e|]]; simpl in *; try done.
  - left. destruct Hr as (k & HW & Hid). pose proof (idle_all_done _ _ _ HW Hid). destruct Hid, HW as (Hi & _).
    split_and!; try done. by apply (wi_waiters _ _ _ _ Hi).
  - right. split; [done|]. intros l. destruct (over_settled cfg x l Hr) as [? []]. by split_and!.
Qed.

(** ** What a priority stop does to queued work *)

Definition failed_with (e : exn) (v : option future) : option future :=
  match v with Some FPending => Some (FExn e) | v => v end.

(** Failing waiting futures touches exactly those nobody cancelled. *)
Lemma fail_futures_effect l e w : NoDup l ->
  (forall f, f ∈ l -> futures w !! f = Some FPending \/ futures w !! f = Some FCancelled) ->
  (fail_futures l e w).2 = Ok tt /\ forall f, futures (fail_futures l e w).1 !! f =
    (if bool_decide (f ∈ l) then failed_with e (futures w !! f) else futures w !! f).
Proof.
  revert w. induction l as [|g l IH]; intros w Hn Hl; [done|].
  apply NoDup_cons in Hn as [Hg Hn]. cbn [fail_futures].
  assert (exists w', _fail_pending_future g e w = (w', Ok tt) /\ forall f, futures w' !! f =
    (if bool_decide (f = g) then failed_with e (futures w !! f) else futures w !! f)) as (w' & E & Hw').
  { unfold _fail_pending_future, set_running_or_notify_cancel, future_of, mbind, M_bind.
    destruct (Hl g) as [Eg|Eg]; [by left| |]; rewrite Eg; simpl.
    - unfold set_outcome, future_of. simpl. rewrite lookup_insert_eq. simpl. eexists. split; [done|]. intros f. simpl.
      case_bool_decide as Ef; [subst; by rewrite lookup_insert_eq, Eg|]. by rewrite !lookup_insert_ne by done.
    - exists w. split; [done|]. intros f. case_bool_decide; [by subst; rewrite Eg|done]. }
  unfold mbind, M_bind. rewrite E. destruct (IH w' Hn) as [E2 H2].
  { intros f Hf. rewrite Hw', bool_decide_false by (intros ->; done). apply Hl. by right. }
  split; [exact E2|]. intros f. rewrite H2, Hw'. destruct (decide (f = g)) as [->|Hne].
  - by rewrite !bool_decide_false, !bool_decide_true by (done || by left).
  - rewrite (bool_decide_false (f = g)) by done. by rewrite (bool_decide_ext (f ∈ g :: l) (f ∈ l)) by set_solver.
Qed.

Lemma submit_stop_eq cap act det w : winv cap act det w -> _state w = WorkerState.RUNNING ->
  let id := fresh (dom (futures w)) in
  let e := mk_exn (Worker PreemptedByStopError) "queued work invalidated by priority stop" in
  let w1 := set_normal [] (set_stop true (_stop_waiters w ++ [id]) (set_future id FPending w)) in
  (fail_futures (queued w) e w1).2 = Ok tt -> submit_priority_stop w = ((fail_futures (queued w) e w1).1, Ok id).
Proof.
  intros Hi Hr id e w1 Hok. unfold submit_priority_stop, _require_running, new_future, getS, modifyS, mbind, M_bind.
  rewrite Hr. simpl. destruct (_stop_requested w) eqn:Hs; simpl.
  - assert (queued w = []) as -> by (unfold queued; by rewrite (wi_stop _ _ _ _ Hi Hs)). unfold w1, set_normal, set_stop. simpl.
    by rewrite (wi_stop _ _ _ _ Hi Hs).
  - unfold _fail_items. fold (queued w). fold id. 
    match goal with |- context [fail_futures (queued w) ?e ?s] => change s with w1 end.
    fold e. destruct (fail_futures (queued w) e w1) as [w2 [[]|e'|]]; done.
Qed.

Lemma submit_while_stopping cap i d w : _state w = WorkerState.RUNNING -> _stop_requested w = true ->
  (submit cap i d w).1 = w /\ exists e, (submit cap i d w).2 = Err e
    /\ (isinstance e (Worker StopInProgressError) || isinstance e (Worker SessionNotReadyError)) = true.
Proof.
  intros Hr Hs. unfold submit, _require_running, getS, mbind, M_bind. rewrite Hr. simpl.
  destruct (_ && _); simpl; [by eauto|]. rewrite Hs. simpl. eauto.
Qed.

(** C26: a priority stop accepted by a running worker empties the queue and fails every queued future nobody
    had cancelled with [PreemptedByStopError], leaves every other future alone, hands out a fresh pending
    future among the stop's waiters, and until that stop is resolved all further work is refused without
    any change; a second stop joins the first. *)
Theorem stop_preempts_queue cap act det w : winv cap act det w -> _state w = WorkerState.RUNNING ->
  let w' := (submit_priority_stop w).1 in
  exists id, (submit_priority_stop w).2 = Ok id
  /\ futures w !! id = None /\ futures w' !! id = Some FPending /\ _stop_waiters w' = _stop_waiters w ++ [id]
  /\ _normal w' = [] /\ _stop_requested w' = true /\ winv cap act det w'
  /\ (forall f, f <> id -> futures w' !! f =
        if bool_decide (f ∈ queued w)
        then failed_with (mk_exn (Worker PreemptedByStopError) "queued work invalidated by priority stop") (futures w !! f)
        else futures w !! f)
  /\ forall i d, (submit cap i d w').1 = w' /\ exists e, (submit cap i d w').2 = Err e
       /\ (isinstance e (Worker StopInProgressError) || isinstance e (Worker SessionNotReadyError)) = true.
Proof.
  intros Hi Hr w'. pose proof (stop_inv cap _ _ _ Hi) as Hi'. fold w' in Hi'.
  set (id := fresh (dom (futures w))).
  assert (futures w !! id = None) as Hid by apply not_elem_of_dom, is_fresh.
  set (w1 := set_normal [] (set_stop true (_stop_waiters w ++ [id]) (set_future id FPending w))).
  set (e := mk_exn (Worker PreemptedByStopError) "queued work invalidated by priority stop") in *.
  assert (forall f, f ∈ queued w -> futures w !! f = Some FPending \/ futures w !! f = Some FCancelled) as Hq
    by (intros f Hf; apply (wi_wait _ _ _ _ Hi); set_solver).
  destruct (fail_futures_effect (queued w) e w1) as [E1 Hf].
  { pose proof (wi_nodup _ _ _ _ Hi) as Hn. rewrite !NoDup_app in Hn. tauto. }
  { intros f Hf. simpl. rewrite lookup_insert_ne by (intros <-; specialize (Hq _ Hf); rewrite Hid in Hq; naive_solver). by apply Hq. }
  pose proof (fail_futures_same (queued w) e w1) as (Es & En & Eq & Ew).
  assert (submit_priority_stop w = ((fail_futures (queued w) e w1).1, Ok id)) as E by (by apply (submit_stop_eq cap act det)).
  rewrite E in *. unfold w' in *. rewrite E in *. cbn [fst snd] in *. exists id. rewrite En, Eq, Ew, !Hf.
  assert (id ∉ queued w) as Hnq by (intros Hin; specialize (Hq _ Hin); rewrite Hid in Hq; naive_solver).
  split_and!; try done.
  - rewrite bool_decide_false by done. simpl. by rewrite lookup_insert_eq.
  - intros f Hne. rewrite Hf. simpl. by rewrite lookup_insert_ne by done.
  - intros i d. apply submit_while_stopping; [by rewrite Es|by rewrite Eq].
Qed.
