(* ===== verification/ClientPort.v ===== *)
(** * The protocol client behind the worker

    [ProtocolClient] discharges the interface the worker thread is verified
    against. A request runs over the pair of the state its interruption check
    acts on and the transport; a frame argument shows that nothing but the check
    touches the first component. *)
From S2P Require Import Prelude PyString Errors Crc Models Parsing Tracking Framing Transport Client ClientSpec Operations.
From S2P Require Import Session Adapters Domain Worker WorkerSpec WorkerSafety.

(** ** A transport paired with state it does not touch *)

Section Lift.
Context {X T : Type} `{ByteStream T}.

Definition lift_M {A} (m : M T exn A) : M (X * T) exn A := fun p => let q := m p.2 in ((p.1, q.1), q.2).

#[export] Instance paired_stream : ByteStream (X * T) := {
  bs_read n o := lift_M (bs_read n o);
  bs_write s := lift_M (bs_write s);
  bs_reset := lift_M <$> bs_reset;
  bs_monotonic p := let q := bs_monotonic p.2 in ((p.1, q.1), q.2);
  bs_sleep d p := (p.1, bs_sleep d p.2);
  bs_clock p := bs_clock p.2;
  bs_pending p := bs_pending p.2;
}.

#[export] Instance paired_laws `{!ByteStreamLaws T} : ByteStreamLaws (X * T).
Proof.
  split; intros; simpl; auto using monotonic_now, monotonic_le, monotonic_pending, sleep_clock, sleep_pending, read_clock, write_clock.
  - by apply read_pending.
  - apply write_out.
Qed.

Definition lift_config (cfg : ClientConfig T) : ClientConfig (X * T) :=
  mkClientConfig (cfg_timeout cfg) (lift_M <$> reset_hook cfg)
    ((fun f e b => lift_M (f e b)) <$> on_event cfg) (lift_M <$> on_recovery cfg).

#[export] Instance lift_config_laws (cfg : ClientConfig T) `{!ClientLaws cfg} : ClientLaws (lift_config cfg).
Proof.
  split; simpl.
  - apply cfg_timeout_pos.
  - intros h t Hh. apply fmap_Some in Hh as (h' & Hh & ->). by apply (reset_hook_halts (cfg := cfg)).
  - intros f e b t Hf. apply fmap_Some in Hf as (f' & Hf & ->). by apply (on_event_ok (cfg := cfg)).
  - intros f t Hf. apply fmap_Some in Hf as (f' & Hf & ->). by apply (on_recovery_ok (cfg := cfg)).
Qed.

(** The client over the pair, and back. *)
Definition pair_client (x : X) (c : ProtocolClient T) : ProtocolClient (X * T) :=
  mkClient (x, transport c) (reader c) (cl_mode c) (crc_enabled c) (requests c) (Client.events c) (cl_status c).
Definition unpair_client (c : ProtocolClient (X * T)) : X * ProtocolClient T :=
  ((transport c).1, mkClient (transport c).2 (reader c) (cl_mode c) (crc_enabled c) (requests c) (Client.events c) (cl_status c)).
End Lift.

(** ** The frame of a request *)

Section Frame.
Context {T : Type} `{ByteStream T} (cfg : ClientConfig T) (I : T -> Prop).
Abbreviation CM := (M (ProtocolClient T) exn).

(** The transport and the client's callables keep [I]. *)
Record frame_ok : Prop := {
  fr_read : forall n o t, I t -> I (bs_read n o t).1;
  fr_write : forall s t, I t -> I (bs_write s t).1;
  fr_monotonic : forall t, I t -> I (bs_monotonic t).1;
  fr_sleep : forall d t, I t -> I (bs_sleep d t);
  fr_reset : forall h t, reset_hook cfg = Some h -> I t -> I (h t).1;
  fr_event : forall f e b t, on_event cfg = Some f -> I t -> I (f e b t).1;
  fr_recovery : forall f t, on_recovery cfg = Some f -> I t -> I (f t).1;
}.
Context (Hf : frame_ok).

Definition keeps {A} (m : CM A) : Prop := forall c, I (transport c) -> I (transport (m c).1).

Lemma keeps_ret {A} (a : A) : keeps (mret a).
Proof. by intros c Hc. Qed.
Lemma keeps_raise {A} e : keeps (raise (A:=A) e).
Proof. by intros c Hc. Qed.
Lemma keeps_lift {A} (r : result A) : keeps (liftR r).
Proof. by intros c Hc. Qed.
Lemma keeps_get : keeps getS.
Proof. by intros c Hc. Qed.
Lemma keeps_modify f : (forall c, transport (f c) = transport c) -> keeps (modifyS f).
Proof. intros Ht c Hc. simpl. by rewrite Ht. Qed.
Lemma keeps_bind {A B} (m : CM A) (f : A -> CM B) : keeps m -> (forall a, keeps (f a)) -> keeps (m ≫= f).
Proof.
  intros Hm Hk c Hc. unfold mbind, M_bind. specialize (Hm c Hc). destruct (m c) as [c' [a|e|]]; [by apply Hk|done|done].
Qed.
Lemma keeps_try {A} (m : CM A) h : keeps m -> (forall e, keeps (h e)) -> keeps (try_except m h).
Proof.
  intros Hm Hk c Hc. unfold try_except. specialize (Hm c Hc). destruct (m c) as [c' [a|e|]]; [done|by apply Hk|done].
Qed.
Lemma keeps_on_transport {A} (m : M T exn A) : (forall t, I t -> I (m t).1) -> keeps (on_transport m).
Proof. intros Hm c Hc. unfold on_transport. specialize (Hm _ Hc). by destruct (m (transport c)). Qed.
Lemma keeps_on_requests {A} (m : M RequestTracker exn A) : keeps (on_requests m).
Proof. intros c Hc. unfold on_requests. by destruct (m (requests c)). Qed.
Lemma keeps_monotonic : keeps monotonic.
Proof.
  apply keeps_on_transport. intros t Ht. pose proof (fr_monotonic Hf t Ht). by destruct (bs_monotonic t).
Qed.

Lemma keeps_next_chunk rem r t : I t -> I (next_chunk rem (r, t)).1.2.
Proof.
  intros Ht. unfold next_chunk. destruct (lr_pending r); [|done].
  pose proof (fr_read Hf 1 (Some rem) t Ht). by destruct (bs_read _ _ t).
Qed.

Lemma keeps_read_line_go fuel d v2 r t : I t -> I (read_line_go fuel d v2 (r, t)).1.2.
Proof.
  revert r t. induction fuel as [|fuel IH]; intros r t Ht; [done|]. cbn [read_line_go].
  pose proof (fr_monotonic Hf t Ht) as H1. destruct (bs_monotonic t) as [t1 now]. cbn [fst] in H1.
  destruct (d - now <=? 0); [done|]. pose proof (keeps_next_chunk (d - now) r t1 H1) as H2.
  destruct (next_chunk (d - now) (r, t1)) as [[r2 t2] [[|c s]|e|]]; cbn [fst snd] in H2; try done.
  - pose proof (fr_monotonic Hf t2 H2) as H3. destruct (bs_monotonic t2) as [t3 now3]. by apply IH, (fr_sleep Hf).
  - destruct (feed_chunk v2 (String c s) r2) as [r3 [res|]]; [done|by apply IH].
Qed.

Lemma keeps_read_line timeout v2 : keeps (on_reader (read_line timeout v2)).
Proof.
  intros c Hc. unfold on_reader, read_line. pose proof (fr_monotonic Hf _ Hc) as H1. destruct (bs_monotonic (transport c)) as [t1 now].
  pose proof (keeps_read_line_go (read_fuel timeout (reader c) t1) (now + timeout) v2 (reader c) t1 H1) as H2.
  by destruct (read_line_go _ _ _ _) as [[r t] o].
Qed.

#[local] Hint Resolve keeps_ret keeps_raise keeps_lift keeps_get keeps_on_requests keeps_monotonic keeps_read_line : cs71.

Ltac keep_step :=
  match goal with
  | |- keeps (_ ≫= _) => apply keeps_bind; [|intros]
  | |- keeps (try_except _ _) => apply keeps_try; [|intros]
  | |- keeps (if ?b then _ else _) => destruct b
  | |- keeps (match ?x with _ => _ end) => destruct x eqn:?
  | |- keeps (let '_ := ?x in _) => destruct x
  | |- keeps (modifyS _) => by apply keeps_modify
  | |- keeps _ => solve [eauto with cs71]
  end.
Ltac keep_steps := repeat keep_step.

Lemma keeps_write_bytes data : keeps (_write_bytes data).
Proof. unfold _write_bytes. apply keeps_bind; [apply keeps_on_transport; intros; by apply (fr_write Hf)|intros]. keep_steps. Qed.
#[local] Hint Resolve keeps_write_bytes : cs71.
Lemma keeps_write_v1 s : keeps (_write_v1 s).
Proof. unfold _write_v1. keep_steps. Qed.
Lemma keeps_read_v1 t : keeps (_read_v1 cfg t).
Proof. unfold _read_v1. keep_steps. Qed.
Lemma keeps_read_v2 b t : keeps (_read_v2 cfg b t).
Proof. unfold _read_v2. keep_steps. Qed.
Lemma keeps_clear : keeps (clear_requests (T:=T)).
Proof. unfold clear_requests. keep_steps. Qed.
#[local] Hint Resolve keeps_write_v1 keeps_read_v1 keeps_read_v2 keeps_clear : cs71.
Lemma keeps_await_stopped fuel d : keeps (await_stopped fuel d).
Proof. induction fuel; cbn [await_stopped]; [by intros c|]. keep_steps. Qed.
#[local] Hint Resolve keeps_await_stopped : cs71.
Lemma keeps_stop_and_await : keeps (stop_and_await cfg).
Proof. unfold stop_and_await. keep_steps. Qed.
Lemma keeps_verify_v1 d : keeps (verify_v1 cfg d).
Proof. unfold verify_v1. keep_steps. Qed.
#[local] Hint Resolve keeps_stop_and_await keeps_verify_v1 : cs71.
Lemma keeps_recover : keeps (recover_to_v1 cfg).
Proof.
  unfold recover_to_v1. keep_steps; apply keeps_on_transport; intros t Ht; [by eapply (fr_reset Hf)|by eapply (fr_recovery Hf)].
Qed.
#[local] Hint Resolve keeps_recover : cs71.
Lemma keeps_fail_request {A} msg : keeps (_fail_request (A:=A) cfg msg).
Proof. unfold _fail_request, recover_and_raise. keep_steps. Qed.
#[local] Hint Resolve keeps_fail_request : cs71.
Lemma keeps_stop : keeps (out_of_band_stop cfg).
Proof. unfold out_of_band_stop. keep_steps. Qed.
Lemma keeps_start cmd id : keeps (_start cfg cmd id).
Proof. unfold _start. keep_steps. Qed.
Lemma keeps_observe e : keeps (_observe_event cfg e).
Proof. unfold _observe_event. keep_steps. apply keeps_on_transport. intros t Ht. by eapply (fr_event Hf). Qed.
#[local] Hint Resolve keeps_stop keeps_start keeps_observe : cs71.

Section Loop.
Context (check : M T exn bool) (Hcheck : forall t, I t -> I (check t).1).
Lemma keeps_check id d rem : keeps (check_interrupt cfg id d rem check).
Proof. unfold check_interrupt. keep_steps. by apply keeps_on_transport. Qed.
Lemma keeps_read_item d rem crc poll : keeps (read_item cfg d rem crc (Some check) poll).
Proof. unfold read_item. keep_steps. Qed.
Lemma keeps_correlate id item : keeps (correlate (T:=T) id item).
Proof. unfold correlate. keep_steps. Qed.
#[local] Hint Resolve keeps_check keeps_read_item keeps_correlate : cs71.
Lemma keeps_handle loop id rs item : (forall rs, keeps (loop rs)) -> keeps (handle_item cfg loop id rs item).
Proof. intros Hl. unfold handle_item. keep_steps. Qed.
Lemma keeps_request_loop fuel id d crc poll rs : keeps (request_loop cfg fuel id d crc (Some check) poll rs).
Proof.
  revert rs. induction fuel; intros rs; cbn [request_loop]; [by intros c|]. keep_steps. by apply keeps_handle.
Qed.
#[local] Hint Resolve keeps_request_loop : cs71.

Lemma keeps_request cmd id timeout crc poll : keeps (request cfg cmd id timeout crc (Some check) poll).
Proof. unfold request. keep_steps. Qed.
End Loop.
End Frame.

(** ** The instance *)

Section Instance.
Context {T : Type} `{ByteStreamLaws T} (cfg : ClientConfig T) `{!ClientLaws cfg}.
(** The transport factory and [transport.close], which act on the world the transport lives in. *)
Context (transport_factory transport_close : M T exn unit).
Context (factory_halts : forall t, halts (transport_factory t).2) (close_halts : forall t, halts (transport_close t).2).

(** [transport = self._transport_factory(); client = ProtocolClient(transport, timeout=...)] *)
Definition open_client : M (ProtocolClient T) exn unit := fun c =>
  match transport_factory (transport c) with
  | (t, Ok _) => match ProtocolClient_init cfg t with
                 | Ok c' => (c', Ok tt)
                 | Err e => (set_io (reader c) t c, Err e)
                 | OutOfFuel => (set_io (reader c) t c, OutOfFuel)
                 end
  | (t, Err e) => (set_io (reader c) t c, Err e)
  | (t, OutOfFuel) => (set_io (reader c) t c, OutOfFuel)
  end.

Definition client_request (X : Type) (command : string) (check : X -> X * bool) (poll : Z) :
    M (X * ProtocolClient T) exn Completion := fun p =>
  let check' : M (X * T) exn bool := fun q => (((check q.1).1, q.2), Ok (check q.1).2) in
  let r := request (lift_config cfg) command None None None (Some check') poll (pair_client p.1 p.2) in
  (unpair_client r.1, r.2).

#[local] Instance client_port : ProtocolPort (ProtocolClient T) := {
  port_open := open_client;
  port_close := on_transport transport_close;
  port_wait_ready := wait_ready cfg;
  port_ping_barrier := v1_ping_barrier cfg;
  port_activate := activate cfg;
  port_get_status := get_status cfg None;
  port_get_capabilities := get_capabilities cfg None;
  port_get_queue := get_queue cfg None;
  port_request := client_request;
  port_out_of_band_stop := out_of_band_stop cfg;
}.

Lemma idle_io r t (c : ProtocolClient T) : client_idle c -> reader_bounded r -> client_idle (set_io r t c).
Proof. intros (m & b & Hs & Hm) Hr. exists m, b. split; [by apply shape_io|done]. Qed.
Lemma idle_reader (c : ProtocolClient T) : client_idle c -> reader_bounded (reader c).
Proof. by intros (m & b & [] & _). Qed.

Lemma op_total op (c : ProtocolClient T) : op_lawful op -> client_idle c ->
  client_idle (run_op cfg op c).1 /\ halts (run_op cfg op c).2.
Proof.
  intros Hop (m & b & Hs & Hm). pose proof (run_op_spec cfg op m b c Hop Hs Hm) as Hr. unfold wp in Hr.
  destruct (run_op cfg op c) as [c' [u|e|]]; simpl in *; try done. split; [by eapply failed_idle|done].
Qed.

Lemma forget_total {A} (f : M (ProtocolClient T) exn A) c (P : ProtocolClient T -> Prop) :
  P (forget f c).1 /\ halts (forget f c).2 -> P (f c).1 /\ halts (f c).2.
Proof. unfold forget, mbind, M_bind, halts. destruct (f c) as [c' [a|e|]]; simpl; intros [? ?]; by split. Qed.

Lemma open_total (c : ProtocolClient T) : client_idle c -> client_idle (open_client c).1 /\ halts (open_client c).2.
Proof.
  intros Hc. unfold open_client. pose proof (factory_halts (transport c)) as Hh.
  pose proof (idle_reader c Hc). destruct (transport_factory (transport c)) as [t [[]|e|]]; simpl in *; try done;
    [|split; [by apply idle_io|done]].
  unfold ProtocolClient_init. pose proof (cfg_timeout_pos (cfg := cfg)).
  destruct (Z.leb_spec (cfg_timeout cfg) 0); [lia|]. simpl. split; [|done]. exists V1, false.
  split; [|done]. by split.
Qed.

Lemma close_total (c : ProtocolClient T) : client_idle c ->
  client_idle (on_transport transport_close c).1 /\ halts (on_transport transport_close c).2.
Proof.
  intros Hc. unfold on_transport. pose proof (close_halts (transport c)). destruct (transport_close (transport c)) as [t o].
  split; [by apply idle_io; [|apply idle_reader]|done].
Qed.

Lemma request_total X command check poll (x : X) (c : ProtocolClient T) : client_idle c ->
  client_idle (client_request X command check poll (x, c)).1.2 /\ halts (client_request X command check poll (x, c)).2.
Proof.
  intros (m & b & Hs & Hm). unfold client_request. cbv zeta. cbn [fst snd].
  set (check' := fun q : X * T => _).
  assert (shape ∅ m b (pair_client x c)) as Hs' by (by destruct Hs).
  assert (lawful_interrupt (Some check')) as Hl by (intros k [= <-] t; simpl; split_and!; [done|lia|lia]).
  pose proof (run_op_spec (lift_config cfg) (OpRequest command None None None (Some check') poll) m b _ Hl Hs' Hm) as Hr.
  unfold wp in Hr. cbn [run_op] in Hr. unfold forget, mbind, M_bind in Hr.
  destruct (request _ _ _ _ _ _ _ _) as [c' [k|e|]]; simpl in *; [|apply failed_idle in Hr; [|done]|done];
    (split; [|done]; destruct Hr as (m' & b' & [] & Hm'); exists m', b'; by split).
Qed.

Lemma request_frame X (P : X -> Prop) command check poll (x : X) (c : ProtocolClient T) :
  (forall x, P x -> P (check x).1) -> P x -> P (client_request X command check poll (x, c)).1.1.
Proof.
  intros Hc Hx. unfold client_request. cbv zeta. cbn [fst snd]. set (check' := fun q : X * T => _).
  assert (frame_ok (lift_config cfg) (fun q : X * T => P q.1)) as Hf.
  { split; simpl; try done; intros *; try intros Hh; by apply fmap_Some in Hh as (? & _ & ->). }
  apply (keeps_request _ _ Hf check' (fun t => Hc t.1) command None None None poll (pair_client x c) Hx).
Qed.

#[local] Instance client_laws : ProtocolLaws (ProtocolClient T) := {
  port_ok := client_idle;
  law_open := open_total;
  law_close := close_total;
  law_wait_ready c Hc := op_total OpWaitReady c Logic.I Hc;
  law_ping c Hc := op_total OpPingBarrier c Logic.I Hc;
  law_activate c Hc := forget_total _ c _ (op_total OpActivate c Logic.I Hc);
  law_status c Hc := forget_total _ c _ (op_total (OpStatus None) c Logic.I Hc);
  law_capabilities c Hc := forget_total _ c _ (op_total (OpCapabilities None) c Logic.I Hc);
  law_queue c Hc := forget_total _ c _ (op_total (OpQueue None) c Logic.I Hc);
  law_stop c Hc := op_total OpStop c Logic.I Hc;
  law_request X command check poll x c Hc _ := request_total X command check poll x c Hc;
  law_frame X P command check poll x c Hc Hx := request_frame X P command check poll x c Hc Hx;
}.
End Instance.

(** ** The worker on a scripted controller

    Concrete runs of the worker thread over the protocol client and the scripted
    transport: the witnesses of the worker's theorems. *)

(** The factory hands out the scripted transport; closing it is recorded. *)
Definition demo_factory : M ScriptedTransport exn unit := fun t => (t, Ok tt).
Definition demo_close : M ScriptedTransport exn unit := fun t => (sc_close t, Ok tt).

#[export] Instance demo_port : ProtocolPort (ProtocolClient ScriptedTransport) :=
  client_port demo_config demo_factory demo_close.
#[export] Instance demo_port_laws : ProtocolLaws (ProtocolClient ScriptedTransport) :=
  client_laws demo_config demo_factory demo_close (fun _ => ltac:(discriminate)) (fun _ => ltac:(discriminate)).

Definition demo_worker : WorkerConfig unit := mkWorkerConfig 8 10000 1 (fun _ u => u) None (fun _ u => (u, Ok tt)).

Lemma demo_worker_ok : config_ok demo_worker.
Proof. by split. Qed.

(** What a controller says while a session is set up, for the request IDs the client uses. *)
Definition handshake : list string := [
  "Ready"; " ok"; "protocol:2 available"; "protocol:2 ready";
  "@1 done:protocol=2";
  "@2 data:protocol=2 max_line=64 crc=none"; "@2 data:queue_depth=2 slot_max=7 slot_count=8";
  "@2 data:pwm=0 airdrop=1 feed_sensor=1"; "@2 data:feed_home=1 sort_home=1"; "@2 done";
  "@3 data:mode=running phase=idle feed_homed=1"; "@3 data:sort_homed=1 motor_enabled=0 active_id=none";
  "@3 data:fault_code=0 queue_previous=0 queue_next=0"; "@3 data:config_generation=1"; "@3 done"].

Definition demo_started (rest : list string) (sch : list (list action)) : World (ProtocolClient ScriptedTransport) unit :=
  started (demo_client V1 (handshake ++ rest)) tt sch.

(** The schedules of the runs below: nothing happens until the thread waits for work. *)
Definition quiet (n : nat) (l : list action) : list (list action) := replicate n [] ++ [l].

(** A sort, submitted while the thread waits, completes. *)
Example demo_sort :
  let p := _run demo_worker 9 (demo_started ["@4 done:slot=3"] (quiet 9 [ASubmit (SortIntent 3) None])) in
  p.2 = Ok true
  /\ match map_to_list (futures (shared p.1)) with
     | [(_, FResult (FVResult (RCompletion k)))] => succeeded k = true
     | _ => False
     end.
Proof. vm_compute. done. Qed.

(** The controller refuses the status of a CONNECT on a session that is already verified: the thread ends,
    FAILED, and the transport it owned was never closed. *)
Theorem connect_fault_leaks_transport :
  let p := _run demo_worker 9 (demo_started ["@4 error:2001:busy"]
             (quiet 9 [ASubmit (SessionIntent SessionAction.CONNECT) None])) in
  p.2 = Ok false /\ _state (shared p.1) = WorkerState.FAILED /\ Transport.closed (transport (client p.1)) = false.
Proof. vm_compute. done. Qed.

(** Work is submitted, then a stop preempts it, then the worker is closed while a request is polled. *)
Definition demo_storm : list (list action) :=
  replicate 8 [] ++ [[ASubmit (SortIntent 3) None; ASubmit (HomeIntent HomeAxis.BOTH) None]; []; []; [AStop]; [ACancel 0]; [AClose]].

Lemma worker_settles_futures_witness :
  let p := _run demo_worker 9 (demo_started ["@4 accepted"] demo_storm) in
  (length (concat demo_storm) < 9)%nat /\
  ((p.2 = Ok true /\ schedule p.1 = [] /\ _normal (shared p.1) = [] /\ _stop_waiters (shared p.1) = []
     /\ forall f v, futures (shared p.1) !! f = Some v -> future_done v = true)
  \/ (p.2 = Ok false /\ forall l, let w := run_actions (normal_capacity demo_worker) l (shared p.1) in
        (forall f v, futures w !! f = Some v -> future_done v = true)
        /\ _normal w = [] /\ _stop_waiters w = []
        /\ (_state w = WorkerState.CLOSED \/ _state w = WorkerState.FAILED))).
Proof.
  intros p. split; [apply Nat.ltb_lt; reflexivity|].
  apply (worker_settles_futures demo_worker 9 (demo_client V1 (handshake ++ ["@4 accepted"])) tt demo_storm).
  - apply demo_worker_ok.
  - apply demo_idle.
  - apply Nat.ltb_lt. reflexivity.
Defined.

(** A running worker with one sort in its queue. *)
Definition demo_busy : SerialWorker :=
  set_normal [mkWorkItem (SortIntent 3) 0 None] (set_future 0 FPending (set_state WorkerState.RUNNING SerialWorker_init)).

Lemma demo_busy_inv : winv 8 [] [] demo_busy.
Proof.
  split; simpl; try done; [apply NoDup_singleton|set_solver|intros f ->%list_elem_of_singleton; by left| |lia].
  intros f v Hf Hn. rewrite lookup_insert_ne in Hf by set_solver. done.
Qed.

Lemma stop_preempts_queue_witness :
  let w' := (submit_priority_stop demo_busy).1 in
  exists id, (submit_priority_stop demo_busy).2 = Ok id
  /\ futures demo_busy !! id = None /\ futures w' !! id = Some FPending /\ _stop_waiters w' = _stop_waiters demo_busy ++ [id]
  /\ _normal w' = [] /\ _stop_requested w' = true /\ winv 8 [] [] w'
  /\ (forall f, f <> id -> futures w' !! f =
        if bool_decide (f ∈ queued demo_busy)
        then failed_with (mk_exn (Worker PreemptedByStopError) "queued work invalidated by priority stop") (futures demo_busy !! f)
        else futures demo_busy !! f)
  /\ forall i d, (submit 8 i d w').1 = w' /\ exists e, (submit 8 i d w').2 = Err e
       /\ (isinstance e (Worker StopInProgressError) || isinstance e (Worker SessionNotReadyError)) = true.
Proof. apply (stop_preempts_queue 8 [] [] demo_busy); [apply demo_busy_inv|reflexivity]. Defined.
