(* ===== verification/Toml.v ===== *)
(** * Configuration files

    What both services do with their TOML files: the values [tomllib] hands over, the
    checks of single fields, the loading, and the credential files. [tomllib] and
    the decoding of UTF-8 are parameters. *)
From S2P Require Import Prelude PyString PyFloat.

Inductive toml :=
| TStr (s : string) | TInt (n : Z) | TFloat (x : spec_float) | TBool (b : bool) | TTime (text : string)
| TArr (l : list toml) | TTab (l : list (string * toml)).
Abbreviation table := (list (string * toml)).

(** What loading may raise: [ConfigError], or the [UnicodeDecodeError] nothing catches. *)
Inductive config_exn := ConfigError (message : string) | UnicodeDecodeError.
Abbreviation cresult := (res config_exn).
Definition config_error {A} (message : string) : cresult A := Err (ConfigError message).

(** [raw.get(name)] *)
Fixpoint tget (name : string) (t : table) : option toml :=
  match t with
  | [] => None
  | (k, v) :: t => if bool_decide (k = name) then Some v else tget name t
  end.
Definition tkeys (t : table) : list string := t.*1.

(** ** The checks of a field *)

Definition _required_string (raw : table) (name : string) : cresult string :=
  match tget name raw with
  | Some (TStr s) => if bool_decide (s = "") then config_error (name +:+ " must be a non-empty string") else Ok s
  | _ => config_error (name +:+ " must be a non-empty string")
  end.

Definition _optional_string (raw : table) (name : string) : cresult (option string) :=
  match tget name raw with
  | None => Ok None
  | Some (TStr s) =>
      if bool_decide (s = "") then config_error (name +:+ " must be a non-empty string when provided") else Ok (Some s)
  | Some _ => config_error (name +:+ " must be a non-empty string when provided")
  end.

(** [set(raw) - allowed] is refused. *)
Definition unknown_fields (allowed : list string) (raw : table) : list string := str_sorted (remove_dups (filter (fun k => k ∉ allowed) (tkeys raw))).
Definition refuse_unknown (what : string) (allowed : list string) (raw : table) : cresult unit :=
  if bool_decide (unknown_fields allowed raw = []) then Ok tt
  else config_error ("unknown " +:+ what +:+ " configuration field(s): " +:+ str_join ", " (unknown_fields allowed raw)).

(** [if not b: raise ConfigError(message)] *)
Definition require (b : bool) (message : string) : cresult unit := if b then Ok tt else config_error message.

(** ** Files *)

Record File := mkFile { f_mode : Z; f_bytes : string }.
(** [None] where the system refuses the file. *)
Abbreviation Files := (string -> option File).

Inductive toml_outcome := Parsed (t : table) | Malformed (message : string) | NotUtf8.

Section Loading.
Context (tomllib_load : string -> toml_outcome) (decode : string -> option string) (fs : Files).

(** [load_config] up to the table of the service. *)
Definition load_table (name : string) (path : string) : cresult table :=
  match fs path with
  | None => config_error ("cannot load configuration " +:+ path +:+ ": the file cannot be read")
  | Some f =>
      match tomllib_load (f_bytes f) with
      | Malformed message => config_error ("cannot load configuration " +:+ path +:+ ": " +:+ message)
      | NotUtf8 => Err UnicodeDecodeError
      | Parsed document =>
          if negb (bool_decide (tkeys document = [name]))
          then config_error ("configuration must contain only a [" +:+ name +:+ "] table")
          else
            match tget name document with
            | Some (TTab t) => Ok t
            | _ => config_error ("[" +:+ name +:+ "] must be a table")
            end
      end
  end.

(** [read_service_token], the same in both services; 7 is [S_IROTH | S_IWOTH | S_IXOTH]. *)
Definition read_service_token (path : string) : cresult string :=
  match fs path with
  | None => config_error ("cannot read the service token at " +:+ path +:+ ": the file cannot be read")
  | Some f =>
      match decode (f_bytes f) with
      | None => Err UnicodeDecodeError
      | Some text =>
          let token := str_strip text in
          if negb (Z.land (f_mode f) 7 =? 0) then config_error ("the service token at " +:+ path +:+ " is readable by other users")
          else if bool_decide (token = "") then config_error ("the service token at " +:+ path +:+ " is empty")
          else Ok token
      end
  end.
End Loading.

(** ** Lemmas *)

Lemma required_ok raw name s : _required_string raw name = Ok s <-> tget name raw = Some (TStr s) /\ s <> "".
Proof. unfold _required_string. destruct (tget name raw) as [[]|]; try case_bool_decide; naive_solver. Qed.
Lemma optional_ok raw name o : _optional_string raw name = Ok o <->
  match o with None => tget name raw = None | Some s => tget name raw = Some (TStr s) /\ s <> "" end.
Proof. unfold _optional_string. destruct (tget name raw) as [[]|], o; try case_bool_decide; naive_solver. Qed.
Lemma known_ok what allowed raw u : refuse_unknown what allowed raw = Ok u <-> Forall (fun k => k ∈ allowed) (tkeys raw).
Proof.
  unfold refuse_unknown. destruct u. assert (unknown_fields allowed raw = [] <-> Forall (fun k => k ∈ allowed) (tkeys raw)) as <-.
  { unfold unknown_fields. split.
    - intros E. assert (filter (fun k => k ∉ allowed) (tkeys raw) = []) as Ef.
      { destruct (filter _ _) as [|k l] eqn:El; [done|]. assert (k ∈ str_sorted (remove_dups (k :: l))) as Hk.
        { unfold str_sorted. rewrite merge_sort_Permutation, elem_of_remove_dups. by left. }
        rewrite E in Hk. by apply not_elem_of_nil in Hk. }
      apply Forall_forall. intros k Hk. destruct (decide (k ∈ allowed)) as [|Hno]; [done|].
      assert (k ∈ filter (fun k => k ∉ allowed) (tkeys raw)) as Hin by (by apply list_elem_of_filter). rewrite Ef in Hin. by apply not_elem_of_nil in Hin.
    - intros Hall. rewrite filter_none; [done|]. eapply Forall_impl; [done|]. intros k Hk Hno. done. }
  case_bool_decide; naive_solver.
Qed.

Lemma require_ok b message u : require b message = Ok u <-> b = true.
Proof. unfold require. destruct b, u; naive_solver. Qed.

(** A computation that raises [ConfigError] only. *)
Definition strict {A} (r : cresult A) : Prop := match r with Err UnicodeDecodeError | OutOfFuel => False | _ => True end.
Lemma strict_bind {A B} (r : cresult A) (f : A -> cresult B) : strict r -> (forall a, strict (f a)) -> strict (r ≫= f).
Proof. destruct r; simpl; auto. Qed.

Ltac strict_step :=
  match goal with
  | |- strict (_ ≫= _) => apply strict_bind; [|intros]
  | |- strict (if ?b then _ else _) => destruct b
  | |- strict (match ?x with _ => _ end) => destruct x
  | |- strict _ => solve [exact I | auto with cs71]
  end.
Ltac strict_steps := repeat strict_step.

Lemma strict_unknown what allowed raw : strict (refuse_unknown what allowed raw).
Proof. unfold refuse_unknown. strict_steps. Qed.
Lemma strict_required raw name : strict (_required_string raw name).
Proof. unfold _required_string. strict_steps. Qed.
Lemma strict_optional raw name : strict (_optional_string raw name).
Proof. unfold _optional_string. strict_steps. Qed.
Lemma strict_require b message : strict (require b message).
Proof. unfold require. strict_steps. Qed.
#[export] Hint Resolve strict_unknown strict_required strict_optional strict_require : cs71.

Lemma read_token_nonempty decode fs path token : read_service_token decode fs path = Ok token -> token <> "".
Proof.
  unfold read_service_token. destruct (fs path) as [f|]; [|done]. destruct (decode _) as [text|]; [|done].
  destruct (negb _); [done|]. case_bool_decide; [done|]. by intros [= <-].
Qed.
Lemma read_token_halts decode fs path : read_service_token decode fs path <> OutOfFuel.
Proof. unfold read_service_token. by repeat case_match. Qed.
Lemma load_table_halts load fs name path : load_table load fs name path <> OutOfFuel.
Proof. unfold load_table. by repeat case_match. Qed.

(** ** Writing a table *)

Definition nonempty (o : option string) : Prop := o <> Some "".
Definition field (name : string) (o : option string) : table := match o with Some s => [(name, TStr s)] | None => [] end.
