(* ===== verification/DaemonConfig.v ===== *)
(** * The configuration of the daemon (appliance/daemon/src/cs71d/config.py)

    Three profiles; production leaves nothing to choose. *)
From S2P Require Import Prelude PyString PyFloat Toml.

Inductive Profile := DEVELOPMENT | TEST | PRODUCTION.
#[export] Instance Profile_eq_dec : EqDecision Profile.
Proof. solve_decision. Defined.
Inductive Backend := SIMULATOR | SERIAL.
#[export] Instance Backend_eq_dec : EqDecision Backend.
Proof. solve_decision. Defined.

Definition profile_value (p : Profile) : string :=
  match p with DEVELOPMENT => "development" | TEST => "test" | PRODUCTION => "production" end.
Definition backend_value (b : Backend) : string := match b with SIMULATOR => "simulator" | SERIAL => "serial" end.

(** [Profile(value)] and [Backend(value)]; the [ValueError] becomes a [ConfigError]. *)
Definition to_profile (s : string) : cresult Profile :=
  if bool_decide (s = "development") then Ok DEVELOPMENT
  else if bool_decide (s = "test") then Ok TEST
  else if bool_decide (s = "production") then Ok PRODUCTION
  else config_error (str_repr s +:+ " is not a valid Profile").
Definition to_backend (s : string) : cresult Backend :=
  if bool_decide (s = "simulator") then Ok SIMULATOR
  else if bool_decide (s = "serial") then Ok SERIAL
  else config_error (str_repr s +:+ " is not a valid Backend").

Definition PRODUCTION_DEVICE_PATH : string := "/dev/cs71".
Definition PRODUCTION_SOCKET_PATH : string := "/run/cs71/cs71d.sock".
Definition PRODUCTION_DATABASE_PATH : string := "/var/lib/cs71d/machine.db".
Definition PRODUCTION_SERVICE_TOKEN_PATH : string := "/etc/cs71d/service-token".
Definition PRODUCTION_MACHINE_SERVICE_TOKEN_PATH : string := "/etc/cs71d/machine-service-token".

Definition _ALLOWED_FIELDS : list string :=
  ["profile"; "backend"; "device_path"; "socket_path"; "database_path"; "service_token_path"; "machine_service_token_path"].

Record DaemonConfig := mkDaemonConfig {
  profile : Profile;
  backend : Backend;
  device_path : option string;
  socket_path : string;
  database_path : string;
  service_token_path : option string;
  machine_service_token_path : option string;
}.

Definition development : DaemonConfig :=
  mkDaemonConfig DEVELOPMENT SIMULATOR None "/tmp/cs71/cs71d.sock" "/tmp/cs71/machine.db" None None.

Definition from_mapping (raw : table) : cresult DaemonConfig :=
  _ ← refuse_unknown "daemon" _ALLOWED_FIELDS raw;
  p ← _required_string raw "profile";
  p ← to_profile p;
  b ← _required_string raw "backend";
  b ← to_backend b;
  device ← _optional_string raw "device_path";
  sock ← _required_string raw "socket_path";
  db ← _required_string raw "database_path";
  token ← _optional_string raw "service_token_path";
  machine ← _optional_string raw "machine_service_token_path";
  _ ← require (negb (bool_decide (b = SIMULATOR) && bool_decide (is_Some device))) "simulator backend cannot specify device_path";
  _ ← (if bool_decide (p = PRODUCTION) then
         _ ← require (bool_decide (b = SERIAL)) "production profile requires serial backend";
         _ ← require (bool_decide (device = Some PRODUCTION_DEVICE_PATH)) ("production device_path must be " +:+ PRODUCTION_DEVICE_PATH);
         _ ← require (bool_decide (sock = PRODUCTION_SOCKET_PATH)) ("production socket_path must be " +:+ PRODUCTION_SOCKET_PATH);
         _ ← require (bool_decide (db = PRODUCTION_DATABASE_PATH)) ("production database_path must be " +:+ PRODUCTION_DATABASE_PATH);
         _ ← require (bool_decide (token = Some PRODUCTION_SERVICE_TOKEN_PATH)) ("production service_token_path must be " +:+ PRODUCTION_SERVICE_TOKEN_PATH);
         require (bool_decide (machine = None) || bool_decide (machine = Some PRODUCTION_MACHINE_SERVICE_TOKEN_PATH))
           ("production machine_service_token_path must be " +:+ PRODUCTION_MACHINE_SERVICE_TOKEN_PATH +:+ " when set")
       else require (negb (bool_decide (b = SERIAL))) "serial backend is reserved for the production profile");
  Ok (mkDaemonConfig p b device sock db token machine).

Definition load_config (tomllib_load : string -> toml_outcome) (fs : Files) (path : option string) : cresult DaemonConfig :=
  match path with
  | None => Ok development
  | Some path => t ← load_table tomllib_load fs "daemon" path; from_mapping t
  end.

(** ** What is accepted *)

(** A simulator with free paths, or the one production installation, with or without a machine credential. *)
Inductive well_formed : DaemonConfig -> Prop :=
| wf_simulated p sock db token machine : p <> PRODUCTION -> sock <> "" -> db <> "" -> nonempty token -> nonempty machine ->
    well_formed (mkDaemonConfig p SIMULATOR None sock db token machine)
| wf_production machine : machine = None \/ machine = Some PRODUCTION_MACHINE_SERVICE_TOKEN_PATH ->
    well_formed (mkDaemonConfig PRODUCTION SERIAL (Some PRODUCTION_DEVICE_PATH) PRODUCTION_SOCKET_PATH PRODUCTION_DATABASE_PATH
                   (Some PRODUCTION_SERVICE_TOKEN_PATH) machine).

(** The table that holds a configuration. *)
Definition to_table (c : DaemonConfig) : table :=
  [("profile", TStr (profile_value (profile c))); ("backend", TStr (backend_value (backend c)))]
  ++ field "device_path" (device_path c) ++ [("socket_path", TStr (socket_path c)); ("database_path", TStr (database_path c))]
  ++ field "service_token_path" (service_token_path c) ++ field "machine_service_token_path" (machine_service_token_path c).

Lemma to_profile_ok s p : to_profile s = Ok p <-> s = profile_value p.
Proof. unfold to_profile. repeat case_bool_decide; subst; destruct p; simpl; naive_solver. Qed.
Lemma to_backend_ok s b : to_backend s = Ok b <-> s = backend_value b.
Proof. unfold to_backend. repeat case_bool_decide; subst; destruct b; simpl; naive_solver. Qed.

Lemma from_mapping_strict raw : strict (from_mapping raw).
Proof. unfold from_mapping, refuse_unknown, _required_string, _optional_string, to_profile, to_backend, require. strict_steps. Qed.

Lemma from_mapping_sound raw c : from_mapping raw = Ok c -> well_formed c /\ Forall (fun k => k ∈ _ALLOWED_FIELDS) (tkeys raw).
Proof.
  unfold from_mapping. intros Hc.
  repeat match goal with H : _ ≫= _ = Ok _ |- _ => apply res_bind_ok in H as (? & ? & ?) end. simplify_eq/=.
  match goal with H : refuse_unknown _ _ _ = Ok _ |- _ => apply known_ok in H end. split; [|done].
  repeat match goal with H : _required_string _ _ = Ok _ |- _ => apply required_ok in H as [? ?] end.
  repeat match goal with H : _optional_string _ _ = Ok ?o |- _ => apply optional_ok in H end.
  repeat match goal with H : require _ _ = Ok _ |- _ => apply require_ok in H end.
  case_bool_decide as Ep.
  - repeat match goal with H : _ ≫= _ = Ok _ |- _ => apply res_bind_ok in H as (? & ? & ?) end.
    repeat match goal with H : require _ _ = Ok _ |- _ => apply require_ok in H end. bool_inv. subst. constructor.
    match goal with H : _ || _ = true |- _ => apply orb_true_iff in H as [H|H]; apply bool_decide_eq_true in H; subst; auto end.
  - match goal with H : require _ _ = Ok _ |- _ => apply require_ok in H end. bool_inv.
    match goal with |- well_formed (mkDaemonConfig _ ?b ?d _ _ ?t ?m) =>
      destruct b; [|done]; destruct d as [d|]; [exfalso|];
      [|constructor; try done; [destruct t as [t|]|destruct m as [m|]]; unfold nonempty; try done; naive_solver] end.
    match goal with H : _ && _ = false |- _ => rewrite !bool_decide_true in H by (done || by eexists); done end.
Qed.

Lemma from_mapping_complete c : well_formed c -> from_mapping (to_table c) = Ok c.
Proof.
  assert (forall o, nonempty o -> o = None \/ exists ch rest, o = Some (String ch rest)) as Hne.
  { intros [[|ch rest]|] Ho; [done|right; by do 2 eexists|by left]. }
  intros [p [|c1 s1] [|c2 s2] token machine Hp Hs Hd Ht Hm|machine [-> | ->]]; [done..| |reflexivity|reflexivity].
  destruct p; [| |done]; destruct (Hne token Ht) as [->|(c3 & s3 & ->)], (Hne machine Hm) as [->|(c4 & s4 & ->)]; reflexivity.
Qed.

