(* ===== verification/DaemonRuntime.v ===== *)
(** * The running daemon (appliance/daemon/src/cs71d/runtime.py, device.py, cli.py)

    Device policy, the assembly of journal, domain, worker and socket, their release,
    and the command line. What the operating system and the worker's thread answer is
    a [Host]; everything opened and closed is kept in a log. Printing, logging and
    the parsing of arguments by [argparse] are not modelled. *)
From S2P Require Import Prelude PyString PyFloat Errors Operations Models Session Machine Journal Configuration Adapters Events Json IsoTime Domain StorageHealth Http Api Toml DaemonConfig.

(** What [start] may raise. *)
Inductive startup_exn :=
| Configuration (e : config_exn)
| DtrGateError (message : string)
| DevicePolicyError (message : string)
| Other (e : exn).
Abbreviation sresult := (res startup_exn).

(** [PurePosixPath(p).parent] *)
Definition path_parent (p : string) : string :=
  let root := if startswith p "//" && negb (startswith p "///") then "//" else if startswith p "/" then "/" else "" in
  let parts := filter (fun x => x <> "" /\ x <> ".") (str_split "/"%char p) in
  let up := take (length parts - 1) parts in
  if bool_decide (root = "") && bool_decide (up = []) then "." else root +:+ str_join "/" up.

(** ** Device policy *)

Inductive transport_factory := SimulatorTransport | OpenSerial (device_path : string).

Definition create_transport_factory (config : DaemonConfig) (platform : string) : sresult transport_factory :=
  match backend config with
  | SIMULATOR => Ok SimulatorTransport
  | SERIAL =>
      match device_path config with
      | None => Err (DevicePolicyError "serial backend requires a device_path")
      | Some path =>
          if negb (bool_decide (platform = "win32"))
          then Err (DtrGateError ("real serial open is blocked on " +:+ platform
                 +:+ ": pre-open DTR suppression is unqualified and the DTR gate is " +:+ DTR_GATE_STATUS))
          else Ok (OpenSerial path)
      end
  end.

(** A call of the factory: [opened path] is what [SerialTransport.open] raises, or whether the driver guarantees the
    suppression of DTR. The first component says whether a port opened here was closed again. *)
Definition call_factory (opened : string -> result bool) (f : transport_factory) : bool * sresult transport_factory :=
  match f with
  | SimulatorTransport => (false, Ok f)
  | OpenSerial path =>
      match opened path with
      | Err e => (false, Err (Other e))
      | OutOfFuel => (false, OutOfFuel)
      | Ok false => (true, Err (DtrGateError "serial driver could not guarantee DTR suppression during open"))
      | Ok true => (false, Ok f)
      end
  end.

(** [durability_monitor_for] *)
Definition durability_monitor_for (json_loads : string -> option json) (parse_time : string -> option datetime) (config : DaemonConfig)
    : option (list (Probe -> check_result)) :=
  if bool_decide (profile config = PRODUCTION)
  then Some (production_durability_monitor json_loads parse_time (path_parent (database_path config))) else None.

(** The environment of the domain, its policy the default one: check [n] looks at the machine as [probe n] shows it. *)
Definition monitored_env (json_loads : string -> option json) (parse_time : string -> option datetime) (probe : nat -> Probe)
    (config : DaemonConfig) (env : Env) : Env :=
  mkEnv (now_at env) (uuid4 env)
    (fun n => match durability_monitor_for json_loads parse_time config with
              | Some checks => answer_of (monitor_check checks (probe n))
              | None => Safe
              end)
    (sha256_hexdigest env) DEFAULT_IDEMPOTENCY_TTL MIN_DEADLINE_MS.

(** ** The world of one daemon *)

Inductive step := OpenJournal | StartWorker | BindSocket | CloseSocket | CloseWorker | CloseJournal.
#[export] Instance step_eq_dec : EqDecision step.
Proof. solve_decision. Defined.

(** The socket path: nothing, a file nobody serves, another daemon's socket, or this one's. *)
Inductive SocketFile := Absent | Stale | Foreign | Ours.

(** What a call of the system answers: [None], or the exception raised. *)
Abbreviation answer := (option startup_exn).
Definition call (a : answer) : sresult unit := match a with None => Ok tt | Some e => Err e end.

Record Host (W : Type) := mkHost {
  platform : string;
  makedirs : string -> answer;
  journal_open : string -> startup_exn + Journal;
  SerialWorker_of : transport_factory -> W;
  worker_start : OperationDomain W -> OperationDomain W * answer;
  worker_close : answer;
  journal_close : answer;
  unlink : answer;
  bind : answer;
  chmod : answer;
}.
Arguments mkHost {W}.
Arguments platform {W}.
Arguments makedirs {W}.
Arguments journal_open {W}.
Arguments SerialWorker_of {W}.
Arguments worker_start {W}.
Arguments worker_close {W}.
Arguments journal_close {W}.
Arguments unlink {W}.
Arguments bind {W}.
Arguments chmod {W}.

(** [holds_journal] is [self._journal is not None]; its rows are in the domain once there is one. *)
Record Daemon (W : Type) := mkDaemon {
  holds_journal : bool;
  _domain : option (OperationDomain W);
  _api : option ApiServer;
  _stopped : bool;
  socket : SocketFile;
  log : list step;
}.
Arguments mkDaemon {W}.
Arguments holds_journal {W}.
Arguments _domain {W}.
Arguments _api {W}.
Arguments _stopped {W}.
Arguments socket {W}.
Arguments log {W}.

Section Runtime.
Context {W : Type} `{WorkerPort W} (json_loads : string -> option json) (parse_time : string -> option datetime) (probe : nat -> Probe).
Context (env : Env) (host : Host W).
Abbreviation RM := (M (Daemon W) startup_exn).

Definition hold_journal (b : bool) (d : Daemon W) : Daemon W := mkDaemon b (_domain d) (_api d) (_stopped d) (socket d) (log d).
Definition hold_domain (o : option (OperationDomain W)) (d : Daemon W) : Daemon W := mkDaemon (holds_journal d) o (_api d) (_stopped d) (socket d) (log d).
Definition hold_api (o : option ApiServer) (d : Daemon W) : Daemon W := mkDaemon (holds_journal d) (_domain d) o (_stopped d) (socket d) (log d).
Definition set_stopped (d : Daemon W) : Daemon W := mkDaemon (holds_journal d) (_domain d) (_api d) true (socket d) (log d).
Definition set_socket (s : SocketFile) (d : Daemon W) : Daemon W := mkDaemon (holds_journal d) (_domain d) (_api d) (_stopped d) s (log d).
Definition done_step (s : step) (d : Daemon W) : Daemon W := mkDaemon (holds_journal d) (_domain d) (_api d) (_stopped d) (socket d) (log d ++ [s]).

Definition map_exn {A} (r : result A) : sresult A := match r with Ok a => Ok a | Err e => Err (Other e) | OutOfFuel => OutOfFuel end.

(** *** [ApiServer.start] and [close] *)

Definition _claim_socket_path : RM unit :=
  d ← getS;
  match socket d with
  | Absent => mret tt
  | Stale => _ ← liftR (call (unlink host)); modifyS (set_socket Absent)
  | Foreign | Ours => raise (Other (mk_exn (Builtin OSError) "another daemon is already serving the socket path"))
  end.

Definition api_start : RM unit :=
  _ ← _claim_socket_path;
  _ ← liftR (call (bind host));
  _ ← modifyS (fun d => done_step BindSocket (set_socket Ours d));
  liftR (call (chmod host)).

Definition api_close : RM unit :=
  _ ← modifyS (fun d => done_step CloseSocket (set_socket Stale d));
  _ ← liftR (call (unlink host));
  modifyS (set_socket Absent).

(** *** [Daemon] *)

(** [self._stop(component, stop)] *)
Definition _stop (stop : RM unit) : RM unit := try_except stop (fun _ => mret tt).

Definition close : RM unit :=
  d ← getS;
  _ ← modifyS (fun d => hold_journal false (hold_domain None (hold_api None d)));
  _ ← (if bool_decide (is_Some (_api d)) then _stop api_close else mret tt);
  _ ← (match _domain d with
       | Some _ => _stop (_ ← modifyS (done_step CloseWorker); liftR (call (worker_close host)))
       | None => mret tt
       end);
  _ ← (if holds_journal d then _stop (_ ← modifyS (done_step CloseJournal); liftR (call (journal_close host))) else mret tt);
  modifyS set_stopped.

Definition domain_start (dom : OperationDomain W) : RM unit :=
  _ ← modifyS (done_step StartWorker);
  let p := worker_start host dom in
  _ ← modifyS (hold_domain (Some p.1));
  liftR (call p.2).

(** The body of the [try] of [start]. *)
Definition assemble (config : DaemonConfig) (token : string) (machine_token : option string) (journal : Journal) : RM unit :=
  factory ← liftR (create_transport_factory config (platform host));
  ring ← liftR (map_exn (EventRing_make DEFAULT_RETENTION DEFAULT_SUBSCRIBER_CAPACITY));
  dom ← liftR (map_exn (OperationDomain_make (monitored_env json_loads parse_time probe config env) journal (SerialWorker_of host factory) ring MAX_DEADLINE_MS));
  _ ← modifyS (hold_domain (Some dom));
  _ ← domain_start dom;
  api ← liftR (map_exn (ApiServer_make token machine_token));
  _ ← api_start;
  modifyS (hold_api (Some api)).

Definition start (config : DaemonConfig) (token : string) (machine_token : option string) : RM unit :=
  journal ← liftR (match journal_open host (database_path config) with inl e => Err e | inr j => Ok j end);
  _ ← modifyS (fun d => hold_journal true (done_step OpenJournal d));
  try_except (assemble config token machine_token journal) (fun e => _ ← close; raise e).

(** [Daemon.__init__] up to the credentials it keeps. *)
Definition Daemon_credentials (decode : string -> option string) (fs : Files) (config : DaemonConfig) : cresult (string * option string) :=
  match service_token_path config with
  | None => config_error "serving requires service_token_path in the configuration"
  | Some path =>
      token ← read_service_token decode fs path;
      machine ← match machine_service_token_path config with
                | Some path => t ← read_service_token decode fs path; mret (Some t)
                | None => mret None
                end;
      mret (token, machine)
  end.

Definition Daemon_make (s : SocketFile) : Daemon W := mkDaemon false None None false s [].

Definition prepare_runtime_directories (config : DaemonConfig) : sresult unit :=
  match backend config with
  | SERIAL => Ok tt
  | SIMULATOR =>
      _ ← call (makedirs host (path_parent (socket_path config)));
      call (makedirs host (path_parent (database_path config)))
  end.

(** *** [main] *)

Record Args := mkArgs { check_config : option string; serve : option string }.
Inductive outcome := Exit (status : Z) | Escaped (e : config_exn) | Stuck.

(** [(args.check_config or args.serve) or None] *)
Definition truthy_path (o : option string) : option string := if bool_decide (o = Some "") then None else o.
Definition config_path (a : Args) : option string :=
  match truthy_path (check_config a) with Some p => Some p | None => truthy_path (serve a) end.

(** The part of [main] under the second [try], then [serve_forever] until a signal. *)
Definition serving (decode : string -> option string) (fs : Files) (config : DaemonConfig) : RM unit :=
  _ ← liftR (prepare_runtime_directories config);
  credentials ← liftR (match Daemon_credentials decode fs config with
                       | Ok c => Ok c | Err e => Err (Configuration e) | OutOfFuel => OutOfFuel end);
  start config credentials.1 credentials.2.

Definition main (tomllib_load : string -> toml_outcome) (decode : string -> option string) (fs : Files) (s : SocketFile) (a : Args)
    : Daemon W * outcome :=
  match load_config tomllib_load fs (config_path a) with
  | Err (ConfigError _) => (Daemon_make s, Exit 2)
  | Err UnicodeDecodeError => (Daemon_make s, Escaped UnicodeDecodeError)
  | OutOfFuel => (Daemon_make s, Stuck)
  | Ok config =>
      if bool_decide (serve a = None) then (Daemon_make s, Exit 0)
      else
        match serving decode fs config (Daemon_make s) with
        | (d, Err (Configuration (ConfigError _))) => (d, Exit 2)
        | (d, Err _) => (d, Exit 1)
        | (d, OutOfFuel) => (d, Stuck)
        | (d, Ok _) => ((close d).1, Exit 0)
        end
  end.

(** ** What holds of every run *)

(** The daemon holds nothing any more. *)
Definition released (d : Daemon W) : Prop := holds_journal d = false /\ _domain d = None /\ _api d = None.

(** What is opened, in order, and what closes it. *)
Definition all_opened : list step := [OpenJournal; StartWorker; BindSocket].
Definition closing (s : step) : step :=
  match s with OpenJournal => CloseJournal | StartWorker => CloseWorker | BindSocket => CloseSocket | s => s end.
(** Of what was opened, that which is closed: all of it, but not the socket whose [chmod] failed after it was bound. *)
Definition closes (opened : list step) : list step :=
  match chmod host with None => opened | Some _ => filter (fun x => x <> BindSocket) opened end.

Lemma close_spec d : let p := close d in
  p.2 = Ok tt /\ released p.1 /\ _stopped p.1 = true
  /\ log p.1 = log d ++ (if bool_decide (is_Some (_api d)) then [CloseSocket] else []) ++ (if bool_decide (is_Some (_domain d)) then [CloseWorker] else [])
                     ++ (if holds_journal d then [CloseJournal] else [])
  /\ (_api d = None -> socket p.1 = socket d) /\ (is_Some (_api d) -> socket p.1 <> Ours).
Proof.
  destruct d as [j dom api st so lg]. unfold close, _stop, api_close, getS, modifyS, liftR, try_except, mbind, M_bind, mret, M_ret.
  cbn [holds_journal _domain _api _stopped socket log hold_api hold_domain hold_journal fst snd].
  destruct j, dom as [dom|], api as [api|];
    rewrite ?(bool_decide_true (is_Some (Some _))), ?(bool_decide_false (is_Some None)) by (try by eexists; by intros [? ?]);
    cbn; destruct (unlink host), (worker_close host), (journal_close host); cbn; rewrite <- ?app_assoc; repeat split; rewrite ?app_nil_r; try done; by intros [? ?].
Qed.

(** The states in which [assemble] may raise, and the one in which it returns. *)
Definition opened_up_to (config : DaemonConfig) (s : SocketFile) (opened : list step) (d : Daemon W) : Prop :=
  holds_journal d = true /\ log d = opened /\ (is_Some (_domain d) <-> StartWorker ∈ opened) /\ (is_Some (_api d) <-> BindSocket ∈ opened /\ chmod host = None)
  /\ _stopped d = false
  /\ (StartWorker ∈ opened -> is_ok (create_transport_factory config (platform host)) = true)
  /\ (BindSocket ∈ opened -> s = Absent \/ s = Stale) /\ (s = Foreign -> socket d = Foreign)
  /\ (s <> Ours -> (socket d = Ours <-> BindSocket ∈ opened)).

Lemma factory_halts config p : create_transport_factory config p <> OutOfFuel.
Proof. unfold create_transport_factory. by repeat case_match. Qed.

Lemma ring_default : exists ring, EventRing_make DEFAULT_RETENTION DEFAULT_SUBSCRIBER_CAPACITY = Ok ring.
Proof. eexists. reflexivity. Qed.
Lemma domain_default journal w ring config : exists dom,
  OperationDomain_make (W:=W) (monitored_env json_loads parse_time probe config env) journal w ring MAX_DEADLINE_MS = Ok dom.
Proof. eexists. reflexivity. Qed.
Lemma api_default token machine : token <> "" -> machine <> Some "" -> exists api, ApiServer_make token machine = Ok api.
Proof. intros Ht Hm. unfold ApiServer_make. rewrite !bool_decide_false by done. by eexists. Qed.

Ltac opened_facts := unfold opened_up_to, all_opened; simpl; repeat split; simpl; try done;
  try (intros [? ?]; done); try (intros ?; set_solver); try (intros _; by eexists); try (intros _; set_solver);
  try (intros [? ?]; congruence); try (intros [? ?]; set_solver); try set_solver; auto.

Lemma assemble_spec config token machine journal s : token <> "" -> machine <> Some "" ->
  triple (fun d => d = mkDaemon true None None false s [OpenJournal])
    (assemble config token machine journal)
    (fun d r => match r with
                | Ok _ => opened_up_to config s all_opened d /\ chmod host = None
                | Err e => opened_up_to config s [OpenJournal] d \/ opened_up_to config s [OpenJournal; StartWorker] d
                           \/ opened_up_to config s all_opened d /\ chmod host <> None
                | OutOfFuel => False
                end).
Proof.
  intros Ht Hm d ->. unfold assemble. apply wp_bind, wp_lift. pose proof (factory_halts config (platform host)) as Hh.
  destruct (create_transport_factory config (platform host)) as [f|e|] eqn:Ef; [| |done]; cbn [bind_post]; [|left; opened_facts].
  destruct ring_default as [ring Er]. rewrite Er. cbn [map_exn]. wp_steps. destruct (domain_default journal (SerialWorker_of host f) ring config) as [dom Ed]. rewrite Ed.
  destruct (api_default token machine Ht Hm) as [api Ea].
  assert (is_ok (create_transport_factory config (platform host)) = true) as Hok by (by rewrite Ef).
  cbn [map_exn]. unfold domain_start. wp_steps. destruct (worker_start host dom) as [dom' [e|]]; cbn [fst snd call bind_post]; [right; left; opened_facts|].
  rewrite Ea. cbn [map_exn]. wp_steps. unfold api_start, _claim_socket_path. wp_steps. cbn [hold_domain done_step socket holds_journal _domain _api _stopped log].
  destruct s; wp_steps; [|destruct (unlink host) as [e|]; cbn [call bind_post]; [right; left; opened_facts|wp_steps]|right; left; opened_facts..].
  all: destruct (bind host) as [e|]; cbn [call bind_post]; [right; left; opened_facts|]; wp_steps;
    destruct (chmod host) as [e|] eqn:Ec; cbn [call bind_post]; [right; right; opened_facts|]; wp_steps; opened_facts.
Qed.

(** What is opened is closed, last first; a socket that is not stays. *)
Definition unwound (opened : list step) (d : Daemon W) : Prop :=
  released d /\ _stopped d = true /\ log d = opened ++ reverse (closing <$> closes opened).

Lemma close_unwinds config s opened d : opened_up_to config s opened d -> opened = [OpenJournal] \/ opened = [OpenJournal; StartWorker] \/ opened = all_opened ->
  unwound opened (close d).1 /\ (s = Foreign -> BindSocket ∉ opened -> socket (close d).1 = Foreign)
  /\ (s <> Ours -> (socket (close d).1 = Ours <-> BindSocket ∈ opened /\ chmod host <> None)) /\ is_ok (close d).2 = true.
Proof.
  intros (Hj & Hl & Hd & Ha & _ & _ & _ & Hs & Ho) Hcase. destruct (close_spec d) as (Hr & Hrel & Hst & Hlog & Hsock & Hours). rewrite Hl, Hj in Hlog.
  assert (chmod host = None \/ chmod host <> None) as Hdec by (destruct (chmod host); [by right|by left]).
  assert (_api d = None \/ is_Some (_api d)) as Hapi by (destruct (_api d); [right; by eexists|by left]).
  assert (~ is_Some (_api d) -> _api d = None) as Hnone by (destruct Hapi as [?|?]; tauto).
  split_and!; [split_and!; [done|done|]| | |by rewrite Hr].
  - rewrite Hlog. rewrite (bool_decide_ext _ _ Hd). unfold closes. destruct (chmod host) as [e|] eqn:Ec.
    + rewrite bool_decide_false by (intros [_ [=]]%Ha). by destruct Hcase as [->|[->| ->]].
    + rewrite (bool_decide_ext (is_Some (_api d)) (BindSocket ∈ opened)) by tauto. by destruct Hcase as [->|[->| ->]].
  - intros Hf Hno. rewrite Hsock; [auto|]. apply Hnone. tauto.
  - intros Hn. specialize (Ho Hn). split.
    + intros Hsk. destruct Hapi as [Hapi|Hapi]; [|by destruct (Hours Hapi)]. rewrite Hsock in Hsk by done. apply Ho in Hsk. split; [done|].
      intros Hc. destruct (proj2 Ha (conj Hsk Hc)) as [? ?]. congruence.
    + intros [Hb Hc]. rewrite Hsock; [by apply Ho|]. apply Hnone. tauto.
Qed.

Lemma start_spec config token machine s : token <> "" -> machine <> Some "" ->
  let p := start config token machine (Daemon_make s) in
  match p.2 with
  | Ok _ => opened_up_to config s all_opened p.1 /\ chmod host = None
  | Err _ => p.1 = Daemon_make s
      \/ exists opened d, (opened = [OpenJournal] \/ opened = [OpenJournal; StartWorker] \/ opened = all_opened /\ chmod host <> None)
          /\ opened_up_to config s opened d /\ p.1 = (close d).1
  | OutOfFuel => False
  end.
Proof.
  intros Ht Hm. unfold start, liftR, modifyS, mbind, M_bind. destruct (journal_open host (database_path config)) as [e|journal]; [by left|].
  unfold try_except. pose proof (assemble_spec config token machine journal s Ht Hm _ eq_refl) as Ha. unfold wp in Ha.
  change (hold_journal true (done_step OpenJournal (Daemon_make s))) with (mkDaemon (W:=W) true None None false s [OpenJournal]).
  destruct (assemble config token machine journal _) as [d [u|e|]]; [done| |done]. cbn [fst snd] in Ha.
  assert (is_ok (close d).2 = true) as Hok by (destruct (close_spec d) as (-> & _); done).
  destruct (close d) as [d2 [u|e2|]] eqn:Ed; [|done|done]. right.
  destruct Ha as [Ha|[Ha|[Ha Hc]]]; eexists _, d; (split; [|split; [exact Ha|by rewrite Ed]]); auto.
Qed.

Context (tomllib_load : string -> toml_outcome) (decode : string -> option string) (fs : Files).

Lemma load_config_halts path : load_config tomllib_load fs path <> OutOfFuel.
Proof.
  unfold load_config. destruct path as [path|]; [|done]. pose proof (load_table_halts tomllib_load fs "daemon" path) as Ht.
  destruct (load_table _ _ _ _) as [t|e|]; [|done|done]. simpl. pose proof (from_mapping_strict t) as Hs. by destruct (from_mapping t).
Qed.

Lemma credentials_spec config : match Daemon_credentials decode fs config with
  | Ok (token, machine) => token <> "" /\ machine <> Some ""
  | Err _ => True
  | OutOfFuel => False
  end.
Proof.
  unfold Daemon_credentials. destruct (service_token_path config) as [path|]; [|done].
  pose proof (read_token_halts decode fs path) as Hh. destruct (read_service_token decode fs path) as [token|e|] eqn:E; [|done|done].
  apply read_token_nonempty in E. cbn [mbind res_bind]. destruct (machine_service_token_path config) as [path2|]; [|by split].
  pose proof (read_token_halts decode fs path2) as Hh2. destruct (read_service_token decode fs path2) as [m|e|] eqn:E2; [|done|done].
  apply read_token_nonempty in E2. split; [done|congruence].
Qed.

Lemma prepare_halts config : prepare_runtime_directories config <> OutOfFuel.
Proof. unfold prepare_runtime_directories, call. destruct (backend config); [|done]. by destruct (makedirs host _), (makedirs host _). Qed.

Lemma serving_spec config s :
  let p := serving decode fs config (Daemon_make s) in
  match p.2 with
  | Ok _ => opened_up_to config s all_opened p.1 /\ chmod host = None
  | Err _ => p.1 = Daemon_make s
      \/ exists opened d, (opened = [OpenJournal] \/ opened = [OpenJournal; StartWorker] \/ opened = all_opened /\ chmod host <> None)
          /\ opened_up_to config s opened d /\ p.1 = (close d).1
  | OutOfFuel => False
  end.
Proof.
  unfold serving, liftR, mbind, M_bind. pose proof (prepare_halts config) as Hp.
  destruct (prepare_runtime_directories config) as [u|e|]; [|by left|done].
  pose proof (credentials_spec config) as Hcr. destruct (Daemon_credentials decode fs config) as [[token machine]|e|]; [|by left|done].
  destruct Hcr as [Ht Hm]. by apply start_spec.
Qed.

(** What is true when [main] ends: the daemon holds nothing; the journal, the worker and the socket were opened in this order as far as
    the run got, and closed in the reverse order; the run serves and exits with 0 exactly when it bound the socket and could give it
    its mode; when it could not, the socket is left behind, and only then; checking a configuration opens nothing; another
    daemon's socket is not taken; the worker, which opens the port, was started only on the simulator or on Windows. *)
Record ended (s : SocketFile) (a : Args) (p : Daemon W * outcome) : Prop := {
  en_released : released p.1;
  en_ends : p.2 <> Stuck;
  en_log : exists opened, opened `prefix_of` all_opened /\ log p.1 = opened ++ reverse (closing <$> closes opened)
     /\ (serve a <> None /\ p.2 = Exit 0 <-> BindSocket ∈ opened /\ chmod host = None)
     /\ (s <> Ours -> (socket p.1 = Ours <-> BindSocket ∈ opened /\ chmod host <> None))
     /\ (serve a = None -> opened = [])
     /\ (s = Foreign -> socket p.1 = Foreign /\ BindSocket ∉ opened)
     /\ (StartWorker ∈ opened ->
           exists c, load_config tomllib_load fs (config_path a) = Ok c /\ (backend c = SIMULATOR \/ platform host = "win32"));
}.

Lemma ended_unopened s a o : serve a = None \/ o <> Exit 0 -> o <> Stuck -> ended s a (Daemon_make s, o).
Proof.
  intros Ho Hs. constructor; [done|done|]. exists []. assert (forall x : step, x ∉ []) as Hin by (intros; apply not_elem_of_nil).
  split_and!; try done; [apply prefix_nil|unfold closes; by destruct (chmod host)|naive_solver|naive_solver|naive_solver].
Qed.

Lemma factory_ok config : is_ok (create_transport_factory config (platform host)) = true -> backend config = SIMULATOR \/ platform host = "win32".
Proof. unfold create_transport_factory. destruct (backend config); [by left|]. destruct (device_path config); [|done]. case_bool_decide; [by right|done]. Qed.

Lemma ended_unwound s a config opened d0 o : load_config tomllib_load fs (config_path a) = Ok config -> serve a <> None -> o <> Stuck ->
  opened_up_to config s opened d0 -> opened = [OpenJournal] \/ opened = [OpenJournal; StartWorker] \/ opened = all_opened ->
  (opened = all_opened /\ chmod host = None <-> o = Exit 0) -> ended s a ((close d0).1, o).
Proof.
  intros Hl Hs Ho Hop Hcase Hex. destruct (close_unwinds config s opened d0 Hop Hcase) as ((Hrel & _ & Hlog) & Hf & Hours & _).
  destruct Hop as (_ & _ & _ & _ & _ & Hw & Hb & _). constructor; [done|done|]. exists opened. split_and!; cbn [fst snd].
  - destruct Hcase as [->|[->| ->]]; (by eexists [_; _]) || (by eexists [_]) || (by eexists []).
  - done.
  - assert (BindSocket ∈ opened <-> opened = all_opened) as -> by (destruct Hcase as [->|[->| ->]]; unfold all_opened; set_solver). naive_solver.
  - done.
  - done.
  - intros ->. assert (BindSocket ∉ opened) as Hno by (intros Hin; by destruct (Hb Hin)). auto.
  - intros Hin. exists config. split; [done|]. apply factory_ok. auto.
Qed.

End Runtime.
