(* ===== verification/VisionConfig.v ===== *)
(** * The configuration of the vision service (appliance/vision/src/cs71vision/config.py)

    The same three profiles as the daemon's, and a confidence threshold per chute
    below which nothing is sorted without a person. *)
From S2P Require Import Prelude PyString PyFloat Toml.

Inductive Profile := DEVELOPMENT | TEST | PRODUCTION.
#[export] Instance vision_profile_eq_dec : EqDecision Profile.
Proof. solve_decision. Defined.
Inductive Backend := FIXTURE | V4L2.
#[export] Instance vision_backend_eq_dec : EqDecision Backend.
Proof. solve_decision. Defined.

Definition profile_value (p : Profile) : string :=
  match p with DEVELOPMENT => "development" | TEST => "test" | PRODUCTION => "production" end.
Definition backend_value (b : Backend) : string := match b with FIXTURE => "fixture" | V4L2 => "v4l2" end.

Definition to_profile (s : string) : cresult Profile :=
  if bool_decide (s = "development") then Ok DEVELOPMENT
  else if bool_decide (s = "test") then Ok TEST
  else if bool_decide (s = "production") then Ok PRODUCTION
  else config_error (str_repr s +:+ " is not a valid Profile").
Definition to_backend (s : string) : cresult Backend :=
  if bool_decide (s = "fixture") then Ok FIXTURE
  else if bool_decide (s = "v4l2") then Ok V4L2
  else config_error (str_repr s +:+ " is not a valid Backend").

Definition PRODUCTION_DEVICE_PATH : string := "/dev/cs71vision".
Definition PRODUCTION_DAEMON_SOCKET_PATH : string := "/run/cs71/cs71d.sock".
Definition PRODUCTION_DAEMON_SERVICE_TOKEN_PATH : string := "/etc/cs71-vision/service-token".
Definition PRODUCTION_MACHINE_SERVICE_TOKEN_PATH : string := "/etc/cs71-vision/machine-service-token".
Definition PRODUCTION_DATASET_PATH : string := "/var/lib/cs71-vision/vision.db".
Definition PRODUCTION_API_SOCKET_PATH : string := "/run/cs71-vision/cs71vision.sock".
Definition _DEVELOPMENT_DAEMON_SOCKET_PATH : string := "/tmp/cs71/cs71d.sock".
Definition _DEVELOPMENT_DATASET_PATH : string := "/tmp/cs71-vision/vision.db".
Definition _DEVELOPMENT_API_SOCKET_PATH : string := "/tmp/cs71-vision/cs71vision.sock".

Definition _ALLOWED_FIELDS : list string :=
  ["profile"; "backend"; "device_path"; "capture_interval_ms"; "frame_width"; "frame_height"; "daemon_socket_path";
   "daemon_service_token_path"; "dataset_path"; "api_socket_path"; "minimum_examples_per_class"; "machine_service_token_path";
   "autonomy_thresholds"].

Definition _DEFAULT_INTERVAL_MS : Z := 1000.
Definition _DEFAULT_WIDTH : Z := 640.
Definition _DEFAULT_HEIGHT : Z := 480.
Definition _DEFAULT_MINIMUM_EXAMPLES_PER_CLASS : Z := 40.
Definition _MAX_SLOT : Z := 63.

Record VisionConfig := mkVisionConfig {
  profile : Profile;
  backend : Backend;
  device_path : option string;
  capture_interval_ms : Z;
  frame_width : Z;
  frame_height : Z;
  daemon_socket_path : string;
  dataset_path : string;
  daemon_service_token_path : option string;
  api_socket_path : string;
  minimum_examples_per_class : Z;
  machine_service_token_path : option string;
  autonomy_thresholds : list (Z * spec_float);
}.

Definition development : VisionConfig :=
  mkVisionConfig DEVELOPMENT FIXTURE None _DEFAULT_INTERVAL_MS _DEFAULT_WIDTH _DEFAULT_HEIGHT _DEVELOPMENT_DAEMON_SOCKET_PATH
    _DEVELOPMENT_DATASET_PATH None _DEVELOPMENT_API_SOCKET_PATH _DEFAULT_MINIMUM_EXAMPLES_PER_CLASS None [].

(** [raw.get(name, default)] that must be a non-empty string. *)
Definition string_or (raw : table) (name default_ : string) : cresult string :=
  match tget name raw with
  | None => Ok default_
  | Some (TStr s) => if bool_decide (s = "") then config_error (name +:+ " must be a non-empty string") else Ok s
  | Some _ => config_error (name +:+ " must be a non-empty string")
  end.

Definition _positive_int (raw : table) (name : string) (default_ : Z) : cresult Z :=
  match tget name raw with
  | None => Ok default_
  | Some (TInt n) => if n <=? 0 then config_error (name +:+ " must be a positive integer") else Ok n
  | Some _ => config_error (name +:+ " must be a positive integer")
  end.

(** [0.0 < threshold <= 1.0], and [float(threshold)]. *)
Definition in_unit (x : spec_float) : bool := SFltb (S754_zero false) x && SFleb x (float_of_int 1).
Definition to_threshold (v : toml) : option spec_float :=
  match v with
  | TInt n => if (0 <? n) && (n <=? 1) then Some (float_of_int n) else None
  | TFloat x => if in_unit x then Some x else None
  | _ => None
  end.

Definition same_keys (t : table) (names : list string) : bool := bool_decide ((list_to_set (tkeys t) : gset string) = list_to_set names).

(** The loop of [_autonomy_thresholds] from the thresholds read so far. *)
Fixpoint read_thresholds (entries : list toml) (acc : list (Z * spec_float)) : cresult (list (Z * spec_float)) :=
  match entries with
  | [] => Ok acc
  | TTab entry :: entries =>
      if negb (same_keys entry ["slot"; "threshold"]) then config_error "each autonomy_thresholds entry must carry exactly slot and threshold"
      else
        match tget "slot" entry, tget "threshold" entry with
        | Some (TInt slot), Some v =>
            if negb ((0 <=? slot) && (slot <=? _MAX_SLOT)) then config_error "autonomy_thresholds slot must be between 0 and 63"
            else if bool_decide (slot ∈ acc.*1)
            then config_error ("autonomy_thresholds has more than one entry for slot " +:+ str_of_Z slot)
            else
              match to_threshold v with
              | Some x => read_thresholds entries (acc ++ [(slot, x)])
              | None => config_error "autonomy_thresholds threshold must be greater than 0.0 and at most 1.0"
              end
        | _, _ => config_error "autonomy_thresholds slot must be between 0 and 63"
        end
  | _ :: _ => config_error "each autonomy_thresholds entry must carry exactly slot and threshold"
  end.
Definition _autonomy_thresholds (raw : table) : cresult (list (Z * spec_float)) :=
  match tget "autonomy_thresholds" raw with
  | None => Ok []
  | Some (TArr entries) => read_thresholds entries []
  | Some _ => config_error "autonomy_thresholds must be a list of {slot, threshold} tables"
  end.

(** The rules that tie the fields together. *)
Definition check_profile (c : VisionConfig) : cresult unit :=
  _ ← require (negb (bool_decide (backend c = FIXTURE) && bool_decide (is_Some (device_path c)))) "fixture backend cannot specify device_path";
  if bool_decide (profile c = PRODUCTION) then
    _ ← require (bool_decide (backend c = V4L2)) "production profile requires v4l2 backend";
    _ ← require (bool_decide (device_path c = Some PRODUCTION_DEVICE_PATH)) ("production device_path must be " +:+ PRODUCTION_DEVICE_PATH);
    _ ← require (bool_decide (daemon_socket_path c = PRODUCTION_DAEMON_SOCKET_PATH))
          ("production daemon_socket_path must be " +:+ PRODUCTION_DAEMON_SOCKET_PATH);
    _ ← require (bool_decide (dataset_path c = PRODUCTION_DATASET_PATH)) ("production dataset_path must be " +:+ PRODUCTION_DATASET_PATH);
    _ ← require (bool_decide (daemon_service_token_path c = Some PRODUCTION_DAEMON_SERVICE_TOKEN_PATH))
          ("production daemon_service_token_path must be " +:+ PRODUCTION_DAEMON_SERVICE_TOKEN_PATH);
    _ ← require (bool_decide (api_socket_path c = PRODUCTION_API_SOCKET_PATH)) ("production api_socket_path must be " +:+ PRODUCTION_API_SOCKET_PATH);
    require (bool_decide (machine_service_token_path c = None)
             || bool_decide (machine_service_token_path c = Some PRODUCTION_MACHINE_SERVICE_TOKEN_PATH))
      ("production machine_service_token_path must be " +:+ PRODUCTION_MACHINE_SERVICE_TOKEN_PATH +:+ " when set")
  else require (negb (bool_decide (backend c = V4L2))) "v4l2 backend is reserved for the production profile".

Definition from_mapping (raw : table) : cresult VisionConfig :=
  _ ← refuse_unknown "vision" _ALLOWED_FIELDS raw;
  p ← _required_string raw "profile";
  p ← to_profile p;
  b ← _required_string raw "backend";
  b ← to_backend b;
  device ← _optional_string raw "device_path";
  interval ← _positive_int raw "capture_interval_ms" _DEFAULT_INTERVAL_MS;
  width ← _positive_int raw "frame_width" _DEFAULT_WIDTH;
  height ← _positive_int raw "frame_height" _DEFAULT_HEIGHT;
  sock ← string_or raw "daemon_socket_path" _DEVELOPMENT_DAEMON_SOCKET_PATH;
  dataset ← string_or raw "dataset_path" _DEVELOPMENT_DATASET_PATH;
  token ← _optional_string raw "daemon_service_token_path";
  api ← string_or raw "api_socket_path" _DEVELOPMENT_API_SOCKET_PATH;
  minimum ← _positive_int raw "minimum_examples_per_class" _DEFAULT_MINIMUM_EXAMPLES_PER_CLASS;
  machine ← _optional_string raw "machine_service_token_path";
  thresholds ← _autonomy_thresholds raw;
  let c := mkVisionConfig p b device interval width height sock dataset token api minimum machine thresholds in
  _ ← check_profile c;
  Ok c.

Definition load_config (tomllib_load : string -> toml_outcome) (fs : Files) (path : option string) : cresult VisionConfig :=
  match path with
  | None => Ok development
  | Some path => t ← load_table tomllib_load fs "vision" path; from_mapping t
  end.

(** ** What is accepted *)

Definition thresholds_ok (l : list (Z * spec_float)) : Prop :=
  NoDup l.*1 /\ Forall (fun p => 0 <= p.1 <= _MAX_SLOT /\ in_unit p.2 = true) l.

(** What every accepted configuration satisfies, whatever its profile. *)
Record sane (c : VisionConfig) : Prop := {
  sane_numbers : 0 < capture_interval_ms c /\ 0 < frame_width c /\ 0 < frame_height c /\ 0 < minimum_examples_per_class c;
  sane_paths : daemon_socket_path c <> "" /\ dataset_path c <> "" /\ api_socket_path c <> "";
  sane_optional : nonempty (device_path c) /\ nonempty (daemon_service_token_path c) /\ nonempty (machine_service_token_path c);
  sane_thresholds : thresholds_ok (autonomy_thresholds c);
}.

(** A fixture camera without a device, or the one production installation. *)
Definition placed (c : VisionConfig) : Prop :=
  match profile c with
  | PRODUCTION =>
      backend c = V4L2 /\ device_path c = Some PRODUCTION_DEVICE_PATH /\ daemon_socket_path c = PRODUCTION_DAEMON_SOCKET_PATH
      /\ dataset_path c = PRODUCTION_DATASET_PATH /\ daemon_service_token_path c = Some PRODUCTION_DAEMON_SERVICE_TOKEN_PATH
      /\ api_socket_path c = PRODUCTION_API_SOCKET_PATH
      /\ (machine_service_token_path c = None \/ machine_service_token_path c = Some PRODUCTION_MACHINE_SERVICE_TOKEN_PATH)
  | _ => backend c = FIXTURE /\ device_path c = None
  end.

(** The table that holds a configuration. *)
Definition threshold_table (p : Z * spec_float) : toml := TTab [("slot", TInt p.1); ("threshold", TFloat p.2)].
Definition to_table (c : VisionConfig) : table :=
  [("profile", TStr (profile_value (profile c))); ("backend", TStr (backend_value (backend c)));
   ("capture_interval_ms", TInt (capture_interval_ms c)); ("frame_width", TInt (frame_width c)); ("frame_height", TInt (frame_height c));
   ("daemon_socket_path", TStr (daemon_socket_path c)); ("dataset_path", TStr (dataset_path c)); ("api_socket_path", TStr (api_socket_path c));
   ("minimum_examples_per_class", TInt (minimum_examples_per_class c));
   ("autonomy_thresholds", TArr (threshold_table <$> autonomy_thresholds c))]
  ++ field "device_path" (device_path c) ++ field "daemon_service_token_path" (daemon_service_token_path c)
  ++ field "machine_service_token_path" (machine_service_token_path c).

Lemma positive_ok raw name d n : 0 < d -> _positive_int raw name d = Ok n -> 0 < n.
Proof.
  unfold _positive_int. intros Hd. destruct (tget name raw) as [[]|]; try done; [|by intros [= <-]].
  destruct (Z.leb_spec n0 0); [done|]. by intros [= <-].
Qed.
Lemma string_or_ok raw name d s : d <> "" -> string_or raw name d = Ok s -> s <> "".
Proof. unfold string_or. intros Hd. destruct (tget name raw) as [[]|]; try done; [|by intros [= <-]]. case_bool_decide; [done|]. by intros [= <-]. Qed.
Lemma optional_nonempty raw name o : _optional_string raw name = Ok o -> nonempty o.
Proof. rewrite optional_ok. unfold nonempty. destruct o; naive_solver. Qed.

Lemma unit_one : in_unit (float_of_int 1) = true.
Proof. by vm_compute. Qed.
Lemma to_threshold_ok v x : to_threshold v = Some x -> in_unit x = true.
Proof.
  unfold to_threshold. destruct v; try done.
  - destruct (_ && _) eqn:E; [|done]. bool_inv. assert (n = 1) as -> by lia. intros [= <-]. apply unit_one.
  - destruct (in_unit x0) eqn:E; [|done]. by intros [= <-].
Qed.

Lemma read_thresholds_ok entries acc l : thresholds_ok acc -> read_thresholds entries acc = Ok l -> thresholds_ok l.
Proof.
  revert acc. induction entries as [|e entries IH]; intros acc Ha; cbn [read_thresholds]; [by intros [= <-]|].
  destruct e; try done. destruct (negb _); [done|]. destruct (tget "slot" _) as [[]|]; try done. destruct (tget "threshold" _) as [v|]; [|done].
  destruct (negb _) eqn:Es; [done|]. bool_inv. case_bool_decide as Hin; [done|]. destruct (to_threshold v) as [x|] eqn:Ev; [|done].
  apply IH. destruct Ha as [Hn Hf]. split.
  - rewrite fmap_app. apply NoDup_app. split_and!; [done|intros y Hy ->%list_elem_of_singleton; done|apply NoDup_singleton].
  - apply Forall_app. split; [done|]. apply Forall_singleton. split; [simpl; lia|by eapply to_threshold_ok].
Qed.

Lemma read_thresholds_complete l acc : thresholds_ok (acc ++ l) -> read_thresholds (threshold_table <$> l) acc = Ok (acc ++ l).
Proof.
  revert acc. induction l as [|[s x] l IH]; intros acc Hok; [by rewrite app_nil_r|]. csimpl. unfold threshold_table at 1. cbn [read_thresholds].
  replace (negb _) with false by (by vm_compute). simpl tget. cbv iota. destruct Hok as [Hn Hf]. apply Forall_app in Hf as [Hf1 Hf2].
  apply Forall_cons in Hf2 as [[Hs Hx] Hf2]. cbn [fst snd] in *. rewrite !(proj2 (Z.leb_le _ _)) by lia. cbn [andb negb].
  rewrite bool_decide_false.
  - cbn [to_threshold]. rewrite Hx. rewrite IH; rewrite <- app_assoc; [done|]. split; [done|]. apply Forall_app. split; [done|by constructor].
  - rewrite fmap_app in Hn. apply NoDup_app in Hn as (_ & Hd & _). intros Hin. apply (Hd s Hin). by left.
Qed.

Lemma require_bind {A} b m (f : unit -> cresult A) a : require b m ≫= f = Ok a <-> b = true /\ f tt = Ok a.
Proof. unfold require. destruct b; simpl; naive_solver. Qed.

Lemma check_profile_ok c : check_profile c = Ok tt <-> placed c.
Proof.
  unfold check_profile, placed. rewrite require_bind.
  assert (negb (bool_decide (backend c = FIXTURE) && bool_decide (is_Some (device_path c))) = true <-> (backend c = FIXTURE -> device_path c = None)) as ->.
  { rewrite negb_true_iff, andb_false_iff, !bool_decide_eq_false, <- eq_None_not_Some. destruct (backend c); naive_solver. }
  destruct (profile c).
  1, 2: rewrite bool_decide_false, require_ok, negb_true_iff, bool_decide_eq_false by done; destruct (backend c); naive_solver.
  rewrite bool_decide_true, !require_bind, require_ok, orb_true_iff, !bool_decide_eq_true by done.
  split; [tauto|]. intros (Hb & H). rewrite Hb. naive_solver.
Qed.

Lemma vision_from_mapping_sound raw c : from_mapping raw = Ok c -> sane c /\ placed c /\ Forall (fun k => k ∈ _ALLOWED_FIELDS) (tkeys raw).
Proof.
  unfold from_mapping. intros Hc.
  repeat match goal with H : _ ≫= _ = Ok _ |- _ => apply res_bind_ok in H as (? & ? & ?) end. simplify_eq/=.
  match goal with H : check_profile _ = Ok ?u |- _ => destruct u; apply check_profile_ok in H end.
  match goal with H : refuse_unknown _ _ _ = Ok _ |- _ => apply known_ok in H end. split; [|done].
  assert (thresholds_ok []) as Hnil by (split; constructor).
  split; simpl; split_and?; eauto using positive_ok, string_or_ok, optional_nonempty; try (by (eapply positive_ok; [|done])); try (by (eapply string_or_ok; [|done])).
  unfold _autonomy_thresholds in *. destruct (tget "autonomy_thresholds" raw) as [[]|]; try done; [by eapply read_thresholds_ok|by simplify_eq].
Qed.

Lemma positive_given raw name d n : tget name raw = Some (TInt n) -> 0 < n -> _positive_int raw name d = Ok n.
Proof. intros Hg Hn. unfold _positive_int. rewrite Hg. by rewrite (proj2 (Z.leb_gt _ _)). Qed.
Lemma string_given raw name d s : tget name raw = Some (TStr s) -> s <> "" -> string_or raw name d = Ok s.
Proof. intros Hg Hn. unfold string_or. rewrite Hg. by rewrite bool_decide_false. Qed.

Lemma keys_known c : Forall (fun k => k ∈ _ALLOWED_FIELDS) (tkeys (to_table c)).
Proof. apply (bool_decide_unpack _). destruct c as [p b [?|] i w h s d [?|] a m [?|] th]; vm_compute; exact I. Qed.

Lemma profile_spelled p : to_profile (profile_value p) = Ok p /\ profile_value p <> "".
Proof. by destruct p. Qed.
Lemma backend_spelled b : to_backend (backend_value b) = Ok b /\ backend_value b <> "".
Proof. by destruct b. Qed.

(** The fields that are optional strings come back as they were. *)
Lemma optional_spelled c : nonempty (device_path c) -> nonempty (daemon_service_token_path c) -> nonempty (machine_service_token_path c) ->
  _optional_string (to_table c) "device_path" = Ok (device_path c)
  /\ _optional_string (to_table c) "daemon_service_token_path" = Ok (daemon_service_token_path c)
  /\ _optional_string (to_table c) "machine_service_token_path" = Ok (machine_service_token_path c).
Proof.
  destruct c as [p b dev i w h s d tok a m mac th]. cbn [device_path daemon_service_token_path machine_service_token_path].
  intros Hd Ht Hm. destruct dev as [[|]|], tok as [[|]|], mac as [[|]|]; try done.
Qed.

Lemma vision_from_mapping_complete c : sane c -> placed c -> from_mapping (to_table c) = Ok c.
Proof.
  intros [(Hi & Hw & Hh & Hm) (Hs & Hd & Ha) (Hdev & Htok & Hmac) Hth] Hp.
  destruct (optional_spelled c Hdev Htok Hmac) as (E1 & E2 & E3). destruct (profile_spelled (profile c)) as [Ep Np], (backend_spelled (backend c)) as [Eb Nb].
  unfold from_mapping. rewrite (proj2 (known_ok "vision" _ALLOWED_FIELDS (to_table c) tt) (keys_known c)), E1, E2, E3.
  rewrite (proj2 (required_ok (to_table c) "profile" _) (conj eq_refl Np)), (proj2 (required_ok (to_table c) "backend" _) (conj eq_refl Nb)).
  cbn [mbind res_bind]. rewrite Ep. cbn [mbind res_bind]. rewrite Eb. cbn [mbind res_bind].
  rewrite (positive_given (to_table c) "capture_interval_ms" _ (capture_interval_ms c) eq_refl), (positive_given (to_table c) "frame_width" _ (frame_width c) eq_refl),
    (positive_given (to_table c) "frame_height" _ (frame_height c) eq_refl),
    (positive_given (to_table c) "minimum_examples_per_class" _ (minimum_examples_per_class c) eq_refl) by done.
  rewrite (string_given (to_table c) "daemon_socket_path" _ (daemon_socket_path c) eq_refl), (string_given (to_table c) "dataset_path" _ (dataset_path c) eq_refl),
    (string_given (to_table c) "api_socket_path" _ (api_socket_path c) eq_refl) by done. cbn [mbind res_bind].
  change (_autonomy_thresholds (to_table c)) with (read_thresholds (threshold_table <$> autonomy_thresholds c) []).
  rewrite read_thresholds_complete by done. cbn [mbind res_bind app].
  assert (check_profile c = Ok tt) as Hcp by by apply check_profile_ok. destruct c. cbn in *. by rewrite Hcp.
Qed.

Lemma vision_from_mapping_strict raw : strict (from_mapping raw).
Proof.
  assert (forall name d, strict (_positive_int raw name d)) as Hpos by (intros; unfold _positive_int; strict_steps).
  assert (forall name d, strict (string_or raw name d)) as Hstr by (intros; unfold string_or; strict_steps).
  assert (forall entries acc, strict (read_thresholds entries acc)) as Hread.
  { induction entries as [|e entries IH]; intros acc; cbn [read_thresholds]; [done|]. destruct e; try done. repeat case_match; done. }
  assert (strict (_autonomy_thresholds raw)) as Hth by (unfold _autonomy_thresholds; repeat case_match; try done; apply Hread).
  unfold from_mapping, to_profile, to_backend, check_profile. strict_steps.
Qed.

(** The configurations of the vision service. A table is accepted only when every field of it is known, its numbers are
    positive, its paths non-empty, its thresholds one per chute of 0 to 63, above 0 and at most 1 (so not a NaN), and it is either a fixture
    camera outside production or the production installation with every path fixed. Every such configuration is
    accepted, from the table that spells it, and a table that is refused is refused with [ConfigError]. *)
Theorem vision_config_exact :
  (forall raw c, from_mapping raw = Ok c -> sane c /\ placed c /\ Forall (fun k => k ∈ _ALLOWED_FIELDS) (tkeys raw))
  /\ (forall c, sane c -> placed c -> from_mapping (to_table c) = Ok c)
  /\ (forall raw, (exists c, from_mapping raw = Ok c) \/ exists message, from_mapping raw = config_error message)
  /\ sane development /\ placed development.
Proof.
  split_and!; [apply vision_from_mapping_sound|apply vision_from_mapping_complete| | |done].
  - intros raw. pose proof (vision_from_mapping_strict raw) as Hs. destruct (from_mapping raw) as [c|[message|]|]; [left; by eexists|right; by eexists|done..].
  - split; split_and?; try done. split; constructor.
Qed.

(** A file that is not UTF-8 stops the service with an exception its command line does not expect, not with [ConfigError]. *)
Lemma undecodable_config_escapes tomllib_load fs f : fs "cs71.toml" = Some f -> tomllib_load (f_bytes f) = NotUtf8 ->
  load_config tomllib_load fs (Some "cs71.toml") = Err UnicodeDecodeError.
Proof. intros Hf Hl. unfold load_config, load_table. by rewrite Hf, Hl. Qed.
