(* ===== verification/VisionErrors.v ===== *)
(** * The exceptions of the vision service (appliance/vision/src/cs71vision)

    The vision service is a process of its own; its exception classes are kept
    apart from the daemon's. *)
From S2P Require Import Prelude PyString.

Inductive vision_error :=
| RoutingError
| DatasetError
| DatasetSchemaError
| DaemonClientError
| ClassificationError
| ConfigError
| TrainingError
| FeatureError
| CameraError
| VisionValueError
| VisionTypeError
| VisionKeyError
| VisionOSError
| VisionOverflowError
| VisionRuntimeError
| JSONDecodeError
| HTTPException
| VisionSqliteError
| VisionIntegrityError
| VisionIndexError.
#[export] Instance vision_error_eq_dec : EqDecision vision_error.
Proof. solve_decision. Defined.

Record vexn := mkVexn { vexn_cls : vision_error; vexn_msg : string }.
#[export] Instance vexn_eq_dec : EqDecision vexn.
Proof. solve_decision. Defined.

Abbreviation vresult := (res vexn).
Definition vthrow {A} (c : vision_error) (msg : string) : vresult A := Err (mkVexn c msg).
Definition vraise {S A} (c : vision_error) (msg : string) : M S vexn A := raise (mkVexn c msg).

(** [isinstance(exc, DatasetError)] and the like; [IntegrityError] is a [sqlite3.Error]. *)
Definition vsubclass (c d : vision_error) : bool :=
  bool_decide (c = d) ||
  match c, d with
  | DatasetSchemaError, DatasetError | VisionIntegrityError, VisionSqliteError => true
  | (ConfigError | JSONDecodeError), VisionValueError => true
  | (RoutingError | DatasetError | DatasetSchemaError | DaemonClientError | ClassificationError | TrainingError
     | FeatureError | CameraError), VisionRuntimeError => true
  | _, _ => false
  end.
Definition vinstance (e : vexn) (d : vision_error) : bool := vsubclass (vexn_cls e) d.
