(* ===== verification/Routing.v ===== *)
(** * Routing profiles (appliance/vision/src/cs71vision/routing.py)

    The indirection between a classifier's label and the chute a sort targets: a
    fixed map, a two-pass map, or chutes claimed by the classes in the order they
    first appear. A Python dict is an association list in insertion order. *)
From S2P Require Import Prelude PyString IsoTime VisionErrors.

Definition MAX_SLOT : Z := 63.

(** ** Dictionaries in insertion order *)

Section Dict.
Context {V : Type}.

Fixpoint dict_get (k : Z) (d : list (Z * V)) : option V :=
  match d with
  | [] => None
  | (k', v) :: d => if k' =? k then Some v else dict_get k d
  end.

(** An existing key keeps its place. *)
Fixpoint dict_set (k : Z) (v : V) (d : list (Z * V)) : list (Z * V) :=
  match d with
  | [] => [(k, v)]
  | (k', v') :: d => if k' =? k then (k', v) :: d else (k', v') :: dict_set k v d
  end.
End Dict.

(** ** Profiles *)

Inductive RoutingProfile :=
| FixedMapProfile (class_to_slot : list (Z * Z)) (overflow_slot : Z)
| DynamicProfile (available_slots : list Z)
| TwoPassProfile (class_to_slot : list (Z * Z)) (overflow_slot : Z) (source_group : option Z).

Definition kind (p : RoutingProfile) : string :=
  match p with FixedMapProfile _ _ => "fixed" | DynamicProfile _ => "dynamic" | TwoPassProfile _ _ _ => "two_pass" end.

Record LegendEntry := mkLegendEntry { le_slot : Z; le_class_id : option Z; le_overflow : bool }.

Definition in_slots (n : Z) : bool := (0 <=? n) && (n <=? MAX_SLOT).

Definition routing_error {A} (msg : string) : vresult A := vthrow RoutingError msg.

Fixpoint validate_classes (l : list (Z * Z)) : vresult unit :=
  match l with
  | [] => Ok tt
  | (class_id, slot) :: l =>
      if negb (in_slots class_id) then routing_error ("class " +:+ str_of_Z class_id +:+ " is out of range")
      else if negb (in_slots slot) then routing_error ("slot " +:+ str_of_Z slot +:+ " is out of range")
      else validate_classes l
  end.

Fixpoint validate_slots (l : list Z) : vresult unit :=
  match l with
  | [] => Ok tt
  | slot :: l =>
      if negb (in_slots slot) then routing_error ("slot " +:+ str_of_Z slot +:+ " is out of range")
      else validate_slots l
  end.

Definition validate_map (class_to_slot : list (Z * Z)) (overflow_slot : Z) : vresult unit :=
  if bool_decide (class_to_slot = []) then routing_error "a fixed or two-pass profile needs at least one mapped class"
  else
    _ ← validate_classes class_to_slot;
    if negb (in_slots overflow_slot)
    then routing_error ("overflow_slot " +:+ str_of_Z overflow_slot +:+ " is out of range")
    else if bool_decide (overflow_slot ∈ class_to_slot.*2)
    then routing_error "overflow_slot must not also be an explicitly mapped chute"
    else Ok tt.

Definition validate_profile (p : RoutingProfile) : vresult unit :=
  match p with
  | FixedMapProfile m o => validate_map m o
  | TwoPassProfile m o g =>
      _ ← validate_map m o;
      match g with
      | Some g => if negb (in_slots g) then routing_error ("source_group " +:+ str_of_Z g +:+ " is out of range")
                  else Ok tt
      | None => Ok tt
      end
  | DynamicProfile slots =>
      if bool_decide (slots = []) then routing_error "a dynamic profile needs at least one available chute"
      else
        _ ← validate_slots slots;
        if negb (size (list_to_set slots : gset Z) =? length slots)%nat
        then routing_error "available_slots must not repeat a chute"
        else Ok tt
  end.

(** [sorted(entries, key=slot)], which is stable. *)
Fixpoint insert_entry (e : LegendEntry) (l : list LegendEntry) : list LegendEntry :=
  match l with
  | [] => [e]
  | x :: l => if le_slot e <? le_slot x then e :: x :: l else x :: insert_entry e l
  end.
Definition sort_legend (l : list LegendEntry) : list LegendEntry := fold_left (fun acc e => insert_entry e acc) l [].

(** [claimed] is slot to class, in the order of the claims. *)
Definition _legend_for (p : RoutingProfile) (claimed : list (Z * Z)) : list LegendEntry :=
  match p with
  | DynamicProfile _ => (fun '(slot, class_id) => mkLegendEntry slot (Some class_id) false) <$> claimed
  | FixedMapProfile m o | TwoPassProfile m o _ =>
      sort_legend (((fun '(class_id, slot) => mkLegendEntry slot (Some class_id) false) <$> m)
                     ++ [mkLegendEntry o None true])
  end.

(** ** The session *)

Record RoutingSession := mkRoutingSession {
  _profile : option RoutingProfile;
  _started_at : option Z;
  _claimed : list (Z * Z);
}.
Definition RoutingSession_init : RoutingSession := mkRoutingSession None None [].

Record RoutingSnapshot := mkRoutingSnapshot {
  rs_active : bool;
  rs_profile : option RoutingProfile;
  rs_started_at : option string;
  rs_legend : list LegendEntry;
}.

Abbreviation RM := (M RoutingSession vexn).

Definition start (p : RoutingProfile) (now : Z) : RM unit :=
  _ ← liftR (validate_profile p);
  putS (mkRoutingSession (Some p) (Some now) []).

Definition stop : RM unit := putS RoutingSession_init.

(** The first slot claimed for [class_id]. *)
Fixpoint claimed_by (class_id : Z) (claimed : list (Z * Z)) : option Z :=
  match claimed with
  | [] => None
  | (slot, seen_class) :: claimed => if seen_class =? class_id then Some slot else claimed_by class_id claimed
  end.

Definition _route_dynamic (slots : list Z) (class_id : Z) : RM Z :=
  s ← getS;
  match claimed_by class_id (_claimed s) with
  | Some slot => mret slot
  | None =>
      match slots !! length (_claimed s) with
      | None => vraise RoutingError "every chute in this run has already been claimed by another class"
      | Some slot =>
          _ ← putS (mkRoutingSession (_profile s) (_started_at s) (dict_set slot class_id (_claimed s)));
          mret slot
      end
  end.

Definition route (class_id : Z) : RM Z :=
  s ← getS;
  match _profile s with
  | None => mret class_id
  | Some (DynamicProfile slots) => _route_dynamic slots class_id
  | Some (FixedMapProfile m o) | Some (TwoPassProfile m o _) => mret (default o (dict_get class_id m))
  end.

Definition snapshot (s : RoutingSession) : RoutingSnapshot :=
  match _profile s with
  | None => mkRoutingSnapshot false None None []
  | Some p => mkRoutingSnapshot true (Some p) (isoformat <$> _started_at s) (_legend_for p (_claimed s))
  end.

(** ** A dynamic run *)

(** The distinct classes of a run, in the order of their first appearance. *)
Definition distinct_snoc (acc : list Z) (c : Z) : list Z := if bool_decide (c ∈ acc) then acc else acc ++ [c].
Definition distinct (l : list Z) : list Z := fold_left distinct_snoc l [].

(** The chutes claimed once the classes [cs] were routed. *)
Definition claims (slots cs : list Z) : list (Z * Z) := zip slots (distinct cs).

(** A run: every class routed in turn, whatever the answers. *)
Fixpoint route_all (cs : list Z) (s : RoutingSession) : RoutingSession * list (vresult Z) :=
  match cs with
  | [] => (s, [])
  | c :: cs => let p := route c s in let q := route_all cs p.1 in (q.1, p.2 :: q.2)
  end.

Lemma distinct_app l c : distinct (l ++ [c]) = distinct_snoc (distinct l) c.
Proof. unfold distinct. by rewrite fold_left_app. Qed.

Lemma distinct_elem l c : c ∈ distinct l <-> c ∈ l.
Proof.
  induction l as [|x l IH] using rev_ind; [done|]. rewrite distinct_app. unfold distinct_snoc. case_bool_decide; set_solver.
Qed.

Lemma distinct_NoDup l : NoDup (distinct l).
Proof.
  induction l as [|x l IH] using rev_ind; [constructor|]. rewrite distinct_app. unfold distinct_snoc. case_bool_decide; [done|].
  apply NoDup_app. split_and!; [done|set_solver|apply NoDup_singleton].
Qed.

Lemma distinct_prefix l k : distinct l `prefix_of` distinct (l ++ k).
Proof.
  induction k as [|x k IH] using rev_ind; [by rewrite app_nil_r|]. rewrite app_assoc, distinct_app. unfold distinct_snoc.
  case_bool_decide; [done|]. by apply prefix_app_r.
Qed.

Lemma claimed_by_zip slots cs c : NoDup cs ->
  claimed_by c (zip slots cs) = match list_find (fun x => x = c) cs with Some (i, _) => slots !! i | None => None end.
Proof.
  revert cs. induction slots as [|s slots IH]; intros [|x cs] Hn; simpl; try done.
  { repeat case_match; simplify_eq; by rewrite ?lookup_nil. }
  apply NoDup_cons in Hn as [Hx Hn]. destruct (Z.eqb_spec x c) as [->|Hne]; [by rewrite decide_True|].
  rewrite decide_False by done. rewrite IH by done. by destruct (list_find _ cs) as [[i y]|].
Qed.

(** The chute of class [c] once [cs] were routed: its rank of first appearance picks it. *)
Definition chute_of (slots cs : list Z) (c : Z) : option Z :=
  match list_find (fun x => x = c) (distinct cs) with Some (i, _) => slots !! i | None => None end.

Lemma claims_length slots cs : length (claims slots cs) = Nat.min (length slots) (length (distinct cs)).
Proof. apply length_zip_with. Qed.

Lemma dict_set_new {V} k (v : V) d : k ∉ d.*1 -> dict_set k v d = d ++ [(k, v)].
Proof.
  induction d as [|[k' v'] d IH]; intros Hk; simpl in *; [done|]. apply not_elem_of_cons in Hk as [Hne Hk].
  destruct (Z.eqb_spec k' k); [done|]. by rewrite IH.
Qed.

Lemma zip_fst_sub {A B} (l : list A) (k : list B) : (zip l k).*1 = take (length k) l.
Proof. revert k. induction l as [|a l IH]; intros [|b k]; simpl; try done. by rewrite IH. Qed.

Lemma zip_snoc {A B} (l : list A) (k : list B) b :
  zip l (k ++ [b]) = zip l k ++ match l !! length k with Some a => [(a, b)] | None => [] end.
Proof. revert k. induction l as [|a l IH]; intros [|c k]; simpl; try done; [by destruct l|]. by rewrite IH. Qed.

Lemma list_find_eq (l : list Z) c i x : list_find (fun y => y = c) l = Some (i, x) -> l !! i = Some c /\ x = c.
Proof. intros (? & -> & _)%list_find_Some. done. Qed.

Lemma list_find_rank (l : list Z) c i : NoDup l -> l !! i = Some c -> list_find (fun y => y = c) l = Some (i, c).
Proof.
  intros Hn Hi. apply list_find_Some. split_and!; [done|done|]. intros j y Hj Hlt ->.
  pose proof (NoDup_lookup _ _ _ _ Hn Hi Hj). lia.
Qed.

(** One call of [route] in a dynamic run. *)
Lemma route_dynamic_step slots t cs c : NoDup slots ->
  route c (mkRoutingSession (Some (DynamicProfile slots)) t (claims slots cs)) =
  (mkRoutingSession (Some (DynamicProfile slots)) t (claims slots (cs ++ [c])),
   match chute_of slots (cs ++ [c]) c with
   | Some s => Ok s
   | None => vthrow RoutingError "every chute in this run has already been claimed by another class"
   end).
Proof.
  intros Hn. pose proof (distinct_NoDup (cs ++ [c])) as Hd. unfold route, _route_dynamic, getS, mbind, M_bind. cbn [_profile _claimed].
  unfold claims at 1. rewrite claimed_by_zip by apply distinct_NoDup. unfold chute_of. rewrite distinct_app in *. unfold distinct_snoc in *.
  rewrite claims_length. case_bool_decide as Hc.
  - apply list_elem_of_lookup in Hc as [i Hi]. rewrite (list_find_rank _ _ i) by done.
    unfold claims. rewrite distinct_app. unfold distinct_snoc. rewrite bool_decide_true by (by eapply list_elem_of_lookup_2).
    destruct (slots !! i) as [s|] eqn:Es; [done|]. apply lookup_ge_None in Es. apply lookup_lt_Some in Hi.
    rewrite Nat.min_l by lia. by rewrite lookup_ge_None_2 by lia.
  - assert (list_find (fun x => x = c) (distinct cs) = None) as ->.
    { apply list_find_None, Forall_forall. by intros x Hx ->. }
    rewrite (list_find_rank _ _ (length (distinct cs))) by (done || by rewrite lookup_app_r, Nat.sub_diag by lia).
    unfold claims. rewrite distinct_app. unfold distinct_snoc. rewrite bool_decide_false by done. rewrite zip_snoc.
    destruct (slots !! length (distinct cs)) as [s|] eqn:Es.
    + pose proof (lookup_lt_Some _ _ _ Es). rewrite Nat.min_r by lia. rewrite Es. simpl. unfold putS. rewrite dict_set_new; [done|].
      rewrite zip_fst_sub. intros (j & Hj)%list_elem_of_lookup. apply lookup_take_Some in Hj as [Hj Hlt].
      pose proof (NoDup_lookup _ _ _ _ Hn Hj Es). lia.
    + apply lookup_ge_None in Es. rewrite Nat.min_l by lia. rewrite lookup_ge_None_2 by lia. by rewrite app_nil_r.
Qed.

Lemma route_all_dynamic slots t cs ds : NoDup slots ->
  (route_all ds (mkRoutingSession (Some (DynamicProfile slots)) t (claims slots cs))).1
  = mkRoutingSession (Some (DynamicProfile slots)) t (claims slots (cs ++ ds)).
Proof.
  intros Hn. revert cs. induction ds as [|d ds IH]; intros cs; [by rewrite app_nil_r|]. cbn [route_all].
  rewrite route_dynamic_step by done. cbn [fst]. rewrite IH, <- app_assoc. done.
Qed.

Lemma validate_slots_ok l u : validate_slots l = Ok u -> Forall (fun s => 0 <= s <= MAX_SLOT) l.
Proof.
  induction l as [|s l IH]; simpl; [by constructor|]. unfold in_slots. destruct (negb _) eqn:E; [done|]. bool_inv.
  intros Hl. constructor; [lia|by apply IH].
Qed.

Lemma size_list_le (l : list Z) : (size (list_to_set l : gset Z) <= length l)%nat.
Proof.
  induction l as [|x l IH]; [done|]. simpl. rewrite size_union_alt, size_singleton.
  pose proof (subseteq_size ((list_to_set l : gset Z) ∖ {[x]}) (list_to_set l) ltac:(set_solver)). lia.
Qed.

Lemma size_list_NoDup (l : list Z) : size (list_to_set l : gset Z) = length l -> NoDup l.
Proof.
  induction l as [|x l IH]; [constructor|]. simpl. intros Hs. pose proof (size_list_le l). destruct (decide (x ∈ l)) as [Hx|Hx].
  - assert ({[x]} ∪ list_to_set l = (list_to_set l : gset Z)) as E by set_solver. rewrite E in Hs. lia.
  - constructor; [done|]. apply IH. rewrite size_union, size_singleton in Hs by set_solver. lia.
Qed.

Lemma dynamic_valid slots u : validate_profile (DynamicProfile slots) = Ok u ->
  NoDup slots /\ Forall (fun s => 0 <= s <= MAX_SLOT) slots.
Proof.
  simpl. case_bool_decide; [done|]. intros (v & Hv & Hs)%res_bind_ok. apply validate_slots_ok in Hv. split; [|done].
  destruct (Nat.eqb_spec (size (list_to_set slots : gset Z)) (length slots)) as [E|]; [|done]. by apply size_list_NoDup.
Qed.

(** The chute of a class never changes during a run, and no two classes share one. *)
Lemma chute_stable slots cs ds c s : chute_of slots cs c = Some s -> chute_of slots (cs ++ ds) c = Some s.
Proof.
  unfold chute_of. destruct (list_find _ (distinct cs)) as [[i x]|] eqn:E; [|done]. apply list_find_eq in E as [Hi _].
  rewrite (list_find_rank _ _ i); [done|apply distinct_NoDup|]. eapply prefix_lookup_Some; [exact Hi|apply distinct_prefix].
Qed.

Lemma chute_injective slots cs c d s : NoDup slots -> chute_of slots cs c = Some s -> chute_of slots cs d = Some s -> c = d.
Proof.
  unfold chute_of. intros Hn. destruct (list_find _ _) as [[i x]|] eqn:E; [|done]. destruct (list_find (fun y => y = d) _) as [[j y]|] eqn:E'; [|done].
  apply list_find_eq in E as [Hi _], E' as [Hj _]. intros Hc Hd. pose proof (NoDup_lookup _ _ _ _ Hn Hc Hd) as ->. congruence.
Qed.

Lemma chute_none slots cs c : chute_of slots (cs ++ [c]) c = None ->
  (length slots <= length (distinct cs))%nat /\ zip slots (distinct (cs ++ [c])) = zip slots (distinct cs).
Proof.
  unfold chute_of. pose proof (distinct_NoDup (cs ++ [c])) as Hd. rewrite distinct_app in *. unfold distinct_snoc in *.
  case_bool_decide as Hc.
  - apply list_elem_of_lookup in Hc as [i Hi]. rewrite (list_find_rank _ _ i) by done. intros Hs%lookup_ge_None.
    apply lookup_lt_Some in Hi. split; [lia|done].
  - rewrite (list_find_rank _ _ (length (distinct cs))) by (done || by rewrite lookup_app_r, Nat.sub_diag by lia).
    intros Hs. rewrite zip_snoc, Hs, app_nil_r. split; [by apply lookup_ge_None|done].
Qed.

(** C38: a dynamic run is exactly the assignment of chutes to classes by order of first appearance. Once a
    profile was accepted and any classes were routed, a further class gets the chute of its rank among the
    distinct classes seen, within 0..63, or a [RoutingError] when the chutes have run out, which changes
    nothing; the legend lists exactly those assignments; a chute, once given, is the class's own for the
    rest of the run. *)
Theorem routing_run_exact slots now s0 s1 cs c :
  start (DynamicProfile slots) now s0 = (s1, Ok tt) ->
  let s := (route_all cs s1).1 in
  rs_legend (snapshot s) = (fun '(slot, class_id) => mkLegendEntry slot (Some class_id) false) <$> zip slots (distinct cs)
  /\ match chute_of slots (cs ++ [c]) c with
     | Some slot => (route c s).2 = Ok slot /\ 0 <= slot <= MAX_SLOT
                    /\ (forall ds, (route c (route_all ds (route c s).1).1).2 = Ok slot)
                    /\ (forall d ds, (route d (route_all ds (route c s).1).1).2 = Ok slot -> d = c)
     | None => (length slots <= length (distinct cs))%nat /\ (route c s).1 = s
               /\ (route c s).2 = vthrow RoutingError "every chute in this run has already been claimed by another class"
     end.
Proof.
  intros Hs s. unfold start, mbind, M_bind, liftR in Hs. destruct (validate_profile _) as [[]|e|] eqn:Hv; [|done|done].
  apply dynamic_valid in Hv as [Hn Hr]. injection Hs as <-.
  assert (claims slots [] = []) as E0 by (unfold claims; by destruct slots).
  assert (s = mkRoutingSession (Some (DynamicProfile slots)) (Some now) (claims slots cs)) as ->
    by (unfold s; rewrite <- E0; by apply (route_all_dynamic slots _ [])).
  split; [done|]. pose proof (route_dynamic_step slots (Some now) cs c Hn) as Hstep. rewrite Hstep. cbn [fst snd].
  destruct (chute_of slots (cs ++ [c]) c) as [slot|] eqn:Hc.
  - split; [done|]. split; [|split].
    + unfold chute_of in Hc. destruct (list_find _ _) as [[i x]|]; [|done]. by apply (Forall_lookup_1 _ _ _ _ Hr Hc).
    + intros ds. rewrite route_all_dynamic, route_dynamic_step by done. cbn [snd].
      by rewrite <- app_assoc, (chute_stable _ _ (ds ++ [c]) _ _ Hc).
    + intros d ds. rewrite route_all_dynamic, route_dynamic_step by done. cbn [snd]. destruct (chute_of _ _ d) as [x|] eqn:Hd; [|done].
      intros [= ->]. eapply (chute_injective _ _ _ _ _ Hn Hd). rewrite <- app_assoc. by apply chute_stable.
  - apply chute_none in Hc as [Hl Hsame]. split_and!; [done| |done]. unfold claims. by rewrite Hsame.
Qed.

Lemma routing_run_exact_witness :
  let slots := [4; 7] in
  let cs := [12; 30; 12] in
  let s := (route_all cs (start (DynamicProfile slots) 0 RoutingSession_init).1).1 in
  rs_legend (snapshot s) = (fun '(slot, class_id) => mkLegendEntry slot (Some class_id) false) <$> zip slots (distinct cs)
  /\ match chute_of slots (cs ++ [50]) 50 with
     | Some slot => (route 50 s).2 = Ok slot /\ 0 <= slot <= MAX_SLOT
                    /\ (forall ds, (route 50 (route_all ds (route 50 s).1).1).2 = Ok slot)
                    /\ (forall d ds, (route d (route_all ds (route 50 s).1).1).2 = Ok slot -> d = 50)
     | None => (length slots <= length (distinct cs))%nat /\ (route 50 s).1 = s
               /\ (route 50 s).2 = vthrow RoutingError "every chute in this run has already been claimed by another class"
     end.
Proof. apply (routing_run_exact [4; 7] 0 RoutingSession_init _ [12; 30; 12] 50). reflexivity. Defined.
