(* ===== verification/Sqlite.v ===== *)
(** * A SQLite connection with fallible statements

    What [sqlite3] promises the stores that use one connection under a lock: a
    statement runs against the open transaction or, outside one, commits by
    itself; it may fail, and a failure may roll the transaction back. An oracle
    says which statements fail. The stores' own tables are a parameter. *)
From S2P Require Import Prelude.

(** What the oracle makes of the next statement: it succeeds, it fails, or it
    fails and SQLite rolls the transaction back by itself. *)
Inductive fault := Fine | Fails | Aborts.

Record Connection (DB : Type) := mkConnection {
  cn_committed : DB;
  cn_working : option DB;
  cn_closed : bool;
  cn_faults : list fault;
}.
Arguments mkConnection {DB}.
Arguments cn_committed {DB}.
Arguments cn_working {DB}.
Arguments cn_closed {DB}.
Arguments cn_faults {DB}.

Definition connect_to {DB} (db : DB) (fs : list fault) : Connection DB := mkConnection db None false fs.

Section Statements.
Context {DB E : Type} (sql_error : string -> E).
Abbreviation Conn := (Connection DB).
Abbreviation CM := (M Conn E).

Definition cn_current (c : Conn) : DB := default (cn_committed c) (cn_working c).
Definition cn_set_working (w : option DB) (c : Conn) : Conn := mkConnection (cn_committed c) w (cn_closed c) (cn_faults c).
Definition cn_set_current (db : DB) (c : Conn) : Conn :=
  match cn_working c with
  | Some _ => mkConnection (cn_committed c) (Some db) (cn_closed c) (cn_faults c)
  | None => mkConnection db None (cn_closed c) (cn_faults c)
  end.

Definition consult {A} (m : CM A) : CM A := fun c =>
  let rest := mkConnection (cn_committed c) (cn_working c) (cn_closed c) (tail (cn_faults c)) in
  match cn_faults c with
  | Fails :: _ => (rest, Err (sql_error "disk I/O error"))
  | Aborts :: _ => (cn_set_working None rest, Err (sql_error "database or disk is full"))
  | _ => m rest
  end.

(** [cursor.execute(...)]; a constraint violation is the statement's own [Err]. *)
Definition sql_execute {A} (f : DB -> res E (DB * A)) : CM A :=
  consult (fun c =>
    match f (cn_current c) with
    | Ok (db, a) => (cn_set_current db c, Ok a)
    | Err e => (c, Err e)
    | OutOfFuel => (c, OutOfFuel)
    end).

Definition sql_query {A} (f : DB -> A) : CM A := sql_execute (fun db => Ok (db, f db)).

Definition sql_begin : CM unit :=
  consult (fun c =>
    match cn_working c with
    | Some _ => (c, Err (sql_error "cannot start a transaction within a transaction"))
    | None => (cn_set_working (Some (cn_committed c)) c, Ok tt)
    end).

Definition sql_rollback : CM unit :=
  consult (fun c =>
    match cn_working c with
    | None => (c, Err (sql_error "cannot rollback - no transaction is active"))
    | Some _ => (cn_set_working None c, Ok tt)
    end).

Definition sql_commit : CM unit :=
  consult (fun c =>
    match cn_working c with
    | None => (c, Err (sql_error "cannot commit - no transaction is active"))
    | Some db => (mkConnection db None (cn_closed c) (cn_faults c), Ok tt)
    end).
End Statements.

(** ** Tables that only move along an order

    [ok] is an invariant of the tables, [le] the way they may change. A
    computation is [orderly] when whatever fails it keeps the one and follows
    the other. *)
Section Orderly.
Context {DB E : Type} (sql_error : string -> E) (ok : DB -> Prop) (le : relation DB) `{!PreOrder le}.
Abbreviation Conn := (Connection DB).
Abbreviation CM := (M Conn E).

Record conn_ok (c : Conn) : Prop := {
  ok_committed : ok (cn_committed c);
  ok_working : forall db, cn_working c = Some db -> ok db /\ le (cn_committed c) db;
}.

Lemma conn_ok_current c : conn_ok c -> ok (cn_current c).
Proof. intros [Hc Hw]. unfold cn_current. destruct (cn_working c); [by apply Hw|done]. Qed.

Definition orderly {A} (m : CM A) : Prop :=
  forall c, conn_ok c -> conn_ok (m c).1 /\ le (cn_committed c) (cn_committed (m c).1).

(** A statement that keeps [ok] and follows [le]. *)
Definition lawful {A} (f : DB -> res E (DB * A)) : Prop :=
  forall db db' a, ok db -> f db = Ok (db', a) -> ok db' /\ le db db'.

Lemma orderly_ret {A} (a : A) : orderly (mret a).
Proof. by intros c Hc. Qed.
Lemma orderly_raise {A} e : orderly (raise (A:=A) e).
Proof. by intros c Hc. Qed.
Lemma orderly_lift {A} (r : res E A) : orderly (liftR r).
Proof. by intros c Hc. Qed.
Lemma orderly_get : orderly getS.
Proof. by intros c Hc. Qed.
Lemma orderly_bind {A B} (m : CM A) (f : A -> CM B) : orderly m -> (forall a, orderly (f a)) -> orderly (m ≫= f).
Proof.
  intros Hm Hf c Hc. unfold mbind, M_bind. destruct (Hm c Hc) as [H1 H2]. destruct (m c) as [c' [a|e|]]; try done.
  destruct (Hf a c' H1) as [H3 H4]. split; [done|by etrans].
Qed.
Lemma orderly_try {A} (m : CM A) h : orderly m -> (forall e, orderly (h e)) -> orderly (try_except m h).
Proof.
  intros Hm Hf c Hc. unfold try_except. destruct (Hm c Hc) as [H1 H2]. destruct (m c) as [c' [a|e|]]; try done.
  destruct (Hf e c' H1) as [H3 H4]. split; [done|by etrans].
Qed.
Lemma orderly_case {A B} (m : CM A) (k : A -> CM B) h :
  orderly m -> (forall a, orderly (k a)) -> (forall e, orderly (h e)) -> orderly (try_case m k h).
Proof.
  intros Hm Hk Hh c Hc. unfold try_case. destruct (Hm c Hc) as [H1 H2]. destruct (m c) as [c' [a|e|]]; try done.
  - destruct (Hk a c' H1) as [H3 H4]. split; [done|by etrans].
  - destruct (Hh e c' H1) as [H3 H4]. split; [done|by etrans].
Qed.

Lemma orderly_consult {A} (m : CM A) : orderly m -> orderly (consult sql_error m).
Proof.
  intros Hm c Hc. unfold consult. set (rest := mkConnection _ _ _ (tail _)).
  assert (conn_ok rest) as Hr by (destruct Hc; by split).
  destruct (cn_faults c) as [|[] fs]; [by apply (Hm rest)..|split; [exact Hr|simpl; reflexivity]|]. destruct Hc. split; [by split|simpl; reflexivity].
Qed.

(** A statement that is lawful on the tables it meets. *)
Lemma execute_at {A} (f : DB -> res E (DB * A)) c : conn_ok c ->
  (forall db' a, ok (cn_current c) -> f (cn_current c) = Ok (db', a) -> ok db' /\ le (cn_current c) db') ->
  conn_ok (sql_execute sql_error f c).1 /\ le (cn_committed c) (cn_committed (sql_execute sql_error f c).1).
Proof.
  intros Hc Hf. unfold sql_execute, consult. set (rest := mkConnection _ _ _ (tail _)).
  assert (conn_ok rest) as Hr by (destruct Hc; by split). change (cn_current rest) with (cn_current c).
  assert (forall p : Conn * res E A, p = match f (cn_current c) with
      | Ok (db, a) => (cn_set_current db rest, Ok a) | Err e => (rest, Err e) | OutOfFuel => (rest, OutOfFuel) end ->
      conn_ok p.1 /\ le (cn_committed c) (cn_committed p.1)) as Hp.
  { intros p ->. destruct (f (cn_current c)) as [[db a]|e|] eqn:E'; [|split; [exact Hr|simpl; reflexivity]..].
    destruct Hc as [Hc Hw]. unfold cn_current, cn_set_current in *. simpl. destruct (cn_working c) as [w|] eqn:Ew; simpl in *.
    - destruct (Hw w eq_refl) as [H1 H2]. destruct (Hf _ _ H1 eq_refl) as [H3 H4]. split; [|simpl; reflexivity]. split; [done|].
      intros db' [= <-]. split; [done|by etrans].
    - destruct (Hf _ _ Hc eq_refl) as [H3 H4]. split; [|done]. by split. }
  destruct (cn_faults c) as [|[] fs]; [by apply Hp..|split; [exact Hr|simpl; reflexivity]|].
  destruct Hc. split; [by split|simpl; reflexivity].
Qed.

Lemma orderly_execute {A} (f : DB -> res E (DB * A)) : lawful f -> orderly (sql_execute sql_error f).
Proof. intros Hf c Hc. apply execute_at; [done|]. intros db' a. apply Hf. Qed.

(** What a query returned still holds of the tables the next statement meets. *)
Lemma orderly_query_bind {A B} (f : DB -> A) (k : A -> CM B) :
  (forall c, conn_ok c -> conn_ok (k (f (cn_current c)) c).1 /\ le (cn_committed c) (cn_committed (k (f (cn_current c)) c).1)) ->
  orderly (sql_query sql_error f ≫= k).
Proof.
  intros Hk c Hc. unfold mbind, M_bind, sql_query, sql_execute, consult. set (rest := mkConnection _ _ _ (tail _)).
  assert (conn_ok rest) as Hr by (destruct Hc; by split). simpl. change (cn_current rest) with (cn_current c).
  assert (cn_set_current (cn_current c) rest = rest) as Es.
  { unfold cn_set_current, cn_current, rest. simpl. by destruct (cn_working c). }
  destruct (cn_faults c) as [|[] fs]; rewrite ?Es; try exact (Hk rest Hr); [split; [exact Hr|simpl; reflexivity]|].
  destruct Hc. split; [by split|simpl; reflexivity].
Qed.

Lemma lawful_query {A} (f : DB -> A) : lawful (fun db => Ok (db, f db)).
Proof. by intros db db' a Hok [= <- _]. Qed.
Lemma orderly_query {A} (f : DB -> A) : orderly (sql_query sql_error f).
Proof. apply orderly_execute, lawful_query. Qed.

Lemma orderly_begin : orderly (sql_begin sql_error).
Proof.
  apply orderly_consult. intros c Hc. destruct (cn_working c); [done|]. destruct Hc as [Hc Hw]. split; [|simpl; reflexivity].
  split; [done|]. intros db [= <-]. split; [done|simpl; reflexivity].
Qed.
Lemma orderly_rollback : orderly (sql_rollback sql_error).
Proof.
  apply orderly_consult. intros c Hc. destruct (cn_working c); [|done]. destruct Hc as [Hc Hw].
  split; [|simpl; reflexivity]. by split.
Qed.
Lemma orderly_commit : orderly (sql_commit sql_error).
Proof.
  apply orderly_consult. intros c Hc. destruct (cn_working c) as [w|] eqn:Ew; [|done]. destruct Hc as [Hc Hw].
  destruct (Hw w Ew). split; [|done]. by split.
Qed.
End Orderly.

#[export] Hint Resolve orderly_ret orderly_raise orderly_lift orderly_get orderly_query orderly_begin orderly_rollback orderly_commit : cs71.
#[export] Hint Resolve lawful_query : cs71.

Ltac orderly_step :=
  match goal with
  | |- orderly _ _ (_ ≫= _) => apply orderly_bind; [typeclasses eauto| |intros]
  | |- orderly _ _ (try_except _ _) => apply orderly_try; [typeclasses eauto| |intros]
  | |- orderly _ _ (try_case _ _ _) => apply orderly_case; [typeclasses eauto| |intros|intros]
  | |- orderly _ _ (if ?b then _ else _) => destruct b
  | |- orderly _ _ (match ?x with _ => _ end) => destruct x
  | |- orderly _ _ (sql_execute _ _) => apply orderly_execute; [typeclasses eauto|]
  | |- orderly _ _ _ => solve [eauto with cs71 typeclass_instances]
  end.
Ltac orderly_steps := repeat orderly_step.
