(* ===== verification/Schema.v ===== *)
(** * Opening a store and migrating its file (journal.py of the daemon, dataset.py of the vision service)

    Both stores open their SQLite file the same way: configure the connection, keep a
    ledger of migrations in the file, refuse a file this build does not know, and
    run each missing migration in a transaction of its own. What a statement does to the schema is
    SQLite's business and a parameter; SHA-256 is too. Which statements fail is the oracle of [Sqlite]. *)
From S2P Require Import Prelude PyString Sqlite.

Record Migration := mkMigration { version : Z; migration_name : string; statements : list string }.

(** [Migration.checksum] *)
Definition checksum (sha256_hexdigest : string -> string) (m : Migration) : string :=
  sha256_hexdigest (str_join (String (ascii_of_nat 10) "") (statements m)).

(** A row of [schema_migrations]. *)
Record ledger_row := mkLedger { l_version : Z; l_name : string; l_applied_at : string; l_checksum : string }.

(** The file: the ledger, once it was created, and the rest of its schema. *)
Record SchemaFile (S : Type) := mkSchemaFile { ledger : option (list ledger_row); schema : S }.
Arguments mkSchemaFile {S}.
Arguments ledger {S}.
Arguments schema {S}.

(** What opening a store raises: [sqlite3.Error], the service's own error class ([JournalError], [DatasetError]),
    its subclass for schemas, and [OSError]. *)
Inductive open_exn := SqliteError (message : string) | StoreError (message : string) | SchemaError (message : string) | OsError (message : string).
Definition str_of (e : open_exn) : string := match e with SqliteError m | StoreError m | SchemaError m | OsError m => m end.

(** [Journal] and [DatasetStore]. *)
Inductive Store := JournalStore | DatasetStore.
Definition noun (s : Store) : string := match s with JournalStore => "journal" | DatasetStore => "dataset store" end.
Definition write_noun (s : Store) : string := match s with JournalStore => "journal" | DatasetStore => "dataset" end.
Definition build_word (s : Store) : string := match s with JournalStore => "daemon" | DatasetStore => "build" end.

(** The two stores, the words their messages differ in, and what their system answers: [refused] is the message of the
    [sqlite3.Error] of [sqlite3.connect], [wal_mode] what [PRAGMA journal_mode = WAL] returns, [chmod] the message of the
    [OSError] of [os.chmod], [applied_at] the encoded time at which a migration is recorded. *)
Record Opening := mkOpening {
  store : Store;
  path : string;
  sha256_hexdigest : string -> string;
  applied_at : Z -> string;
  refused : option string;
  wal_mode : string;
  chmod : option string;
}.

(** The migrations of [machine.db], as the source has them. *)
Definition journal_MIGRATIONS : list Migration := [
  mkMigration 1 "operations_and_idempotency" [
    "
            CREATE TABLE operations (
                operation_id TEXT PRIMARY KEY,
                action TEXT NOT NULL,
                fingerprint TEXT NOT NULL,
                state TEXT NOT NULL,
                generation INTEGER NOT NULL,
                created_at TEXT NOT NULL,
                deadline_at TEXT NOT NULL,
                actor_user_id TEXT NOT NULL,
                actor_role TEXT NOT NULL,
                trusted_terminal INTEGER NOT NULL DEFAULT 0,
                outcome TEXT,
                terminal_at TEXT,
                protocol_request_id INTEGER
            )
            ";
    "
            CREATE TABLE operation_transitions (
                transition_id INTEGER PRIMARY KEY AUTOINCREMENT,
                operation_id TEXT NOT NULL REFERENCES operations(operation_id),
                from_state TEXT,
                to_state TEXT NOT NULL,
                generation INTEGER NOT NULL,
                occurred_at TEXT NOT NULL,
                reason TEXT NOT NULL
            )
            ";
    "
            CREATE TABLE idempotency_records (
                key TEXT PRIMARY KEY,
                fingerprint TEXT NOT NULL,
                operation_id TEXT NOT NULL REFERENCES operations(operation_id),
                created_at TEXT NOT NULL,
                expires_at TEXT NOT NULL
            )
            ";
    "CREATE INDEX operation_transitions_by_operation ON operation_transitions(operation_id, transition_id)";
    "CREATE INDEX idempotency_records_by_expiry ON idempotency_records(expires_at)";
    "
            CREATE TRIGGER operation_transitions_no_update
            BEFORE UPDATE ON operation_transitions
            BEGIN
                SELECT RAISE(ABORT, 'operation_transitions is append-only');
            END
            ";
    "
            CREATE TRIGGER operation_transitions_no_delete
            BEFORE DELETE ON operation_transitions
            BEGIN
                SELECT RAISE(ABORT, 'operation_transitions is append-only');
            END
            ";
    "
            CREATE TRIGGER operations_insert_requires_trusted_terminal
            BEFORE INSERT ON operations
            WHEN NEW.state = 'succeeded' AND NEW.trusted_terminal <> 1
            BEGIN
                SELECT RAISE(ABORT, 'succeeded requires a trusted firmware terminal');
            END
            ";
    "
            CREATE TRIGGER operations_update_requires_trusted_terminal
            BEFORE UPDATE ON operations
            WHEN NEW.state = 'succeeded' AND NEW.trusted_terminal <> 1
            BEGIN
                SELECT RAISE(ABORT, 'succeeded requires a trusted firmware terminal');
            END
            "];
  mkMigration 2 "operation_terminal_fields" [
    "ALTER TABLE operations ADD COLUMN terminal_fields TEXT"];
  mkMigration 3 "configuration_snapshots" [
    "
            CREATE TABLE configuration_snapshots (
                config_id TEXT PRIMARY KEY,
                generation INTEGER NOT NULL,
                payload TEXT NOT NULL,
                source TEXT NOT NULL,
                created_at TEXT NOT NULL
            )
            ";
    "CREATE INDEX configuration_snapshots_by_generation ON configuration_snapshots(generation DESC)"]].

(** The migrations of [vision.db]. *)
Definition dataset_MIGRATIONS : list Migration := [
  mkMigration 1 "examples" [
    "
            CREATE TABLE examples (
                operation_id TEXT PRIMARY KEY,
                slot INTEGER NOT NULL,
                frame_png BLOB NOT NULL,
                frame_captured_at TEXT NOT NULL,
                operation_created_at TEXT NOT NULL,
                recorded_at TEXT NOT NULL
            )
            ";
    "CREATE INDEX examples_by_slot ON examples(slot)"];
  mkMigration 2 "models" [
    "
            CREATE TABLE models (
                version INTEGER PRIMARY KEY AUTOINCREMENT,
                trained_at TEXT NOT NULL,
                model_blob BLOB NOT NULL,
                included_classes TEXT NOT NULL,
                excluded_classes TEXT NOT NULL,
                accuracy_by_class TEXT NOT NULL,
                minimum_examples_per_class INTEGER NOT NULL,
                training_example_count INTEGER NOT NULL,
                holdout_example_count INTEGER NOT NULL
            )
            "];
  mkMigration 3 "activations" [
    "
            CREATE TABLE activations (
                activation_id INTEGER PRIMARY KEY AUTOINCREMENT,
                version INTEGER NOT NULL REFERENCES models(version),
                activated_at TEXT NOT NULL
            )
            "];
  mkMigration 4 "suggestions" [
    "
            CREATE TABLE suggestions (
                suggestion_id INTEGER PRIMARY KEY AUTOINCREMENT,
                model_version INTEGER NOT NULL REFERENCES models(version),
                suggested_slot INTEGER NOT NULL,
                confidence REAL NOT NULL,
                frame_captured_at TEXT NOT NULL,
                suggested_at TEXT NOT NULL
            )
            ";
    "
            CREATE TABLE suggestion_outcomes (
                outcome_id INTEGER PRIMARY KEY AUTOINCREMENT,
                suggestion_id INTEGER NOT NULL UNIQUE REFERENCES suggestions(suggestion_id),
                operation_id TEXT NOT NULL UNIQUE,
                actual_slot INTEGER NOT NULL,
                correct INTEGER NOT NULL,
                recorded_at TEXT NOT NULL
            )
            "];
  mkMigration 5 "suggestion_primer_axis" [
    "ALTER TABLE suggestions ADD COLUMN primer_present INTEGER"];
  mkMigration 6 "autonomous_sort" [
    "
            CREATE TABLE autonomous_attempts (
                attempt_id INTEGER PRIMARY KEY AUTOINCREMENT,
                suggestion_id INTEGER NOT NULL UNIQUE REFERENCES suggestions(suggestion_id),
                operation_id TEXT NOT NULL UNIQUE,
                slot INTEGER NOT NULL,
                attempted_at TEXT NOT NULL
            )
            ";
    "
            CREATE TABLE autonomous_reviews (
                review_id INTEGER PRIMARY KEY AUTOINCREMENT,
                attempt_id INTEGER NOT NULL UNIQUE REFERENCES autonomous_attempts(attempt_id),
                correct INTEGER NOT NULL,
                reviewed_at TEXT NOT NULL
            )
            "]].

Definition MIGRATIONS (s : Store) : list Migration := match s with JournalStore => journal_MIGRATIONS | DatasetStore => dataset_MIGRATIONS end.
(** [SCHEMA_VERSION]: the version of the last migration. *)
Definition SCHEMA_VERSION (s : Store) : option Z := version <$> last (MIGRATIONS s).

Definition IN_MEMORY : string := ":memory:".

Section Migrate.
Context {S : Type} (o : Opening) (ddl : string -> S -> option S) (migrations : list Migration).
Abbreviation Db := (SchemaFile S).
Abbreviation SM := (M (Connection Db) open_exn).

Definition execute {A} (f : Db -> res open_exn (Db * A)) : SM A := sql_execute SqliteError f.

(** [except sqlite3.Error as exc: raise StoreError(...) from exc] *)
Definition wrapped {A} (prefix : string) (e : open_exn) : SM A :=
  match e with SqliteError m => raise (StoreError (prefix +:+ m)) | _ => raise e end.

(** [_transaction] of a connection that is open. *)
Definition transaction {A} (body : SM A) : SM A :=
  try_case (_ ← sql_begin SqliteError; body)
    (fun a =>
       _ ← try_except (sql_commit SqliteError) (wrapped (write_noun (store o) +:+ " commit failed: "));
       mret a)
    (fun e =>
       _ ← sql_rollback SqliteError;
       wrapped (write_noun (store o) +:+ " write failed: ") e).

(** [_CREATE_MIGRATION_LEDGER] *)
Definition create_ledger (f : Db) : res open_exn (Db * unit) := Ok (mkSchemaFile (Some (default [] (ledger f))) (schema f), tt).
Definition select_ledger (f : Db) : res open_exn (Db * list ledger_row) :=
  match ledger f with Some l => Ok (f, l) | None => Err (SqliteError "no such table: schema_migrations") end.
Definition insert_ledger (row : ledger_row) (f : Db) : res open_exn (Db * unit) :=
  match ledger f with
  | None => Err (SqliteError "no such table: schema_migrations")
  | Some l =>
      if bool_decide (l_version row ∈ l_version <$> l) then Err (SqliteError "UNIQUE constraint failed: schema_migrations.version")
      else Ok (mkSchemaFile (Some (l ++ [row])) (schema f), tt)
  end.
Definition run_ddl (statement : string) (f : Db) : res open_exn (Db * unit) :=
  match ddl statement (schema f) with
  | Some s => Ok (mkSchemaFile (ledger f) s, tt)
  | None => Err (SqliteError "the statement was refused")
  end.

Fixpoint run_statements (l : list string) : SM unit :=
  match l with [] => mret tt | s :: l => _ ← execute (run_ddl s); run_statements l end.

Definition row_of (m : Migration) : ledger_row :=
  mkLedger (version m) (migration_name m) (applied_at o (version m)) (checksum (sha256_hexdigest o) m).
Definition apply_migration (m : Migration) : SM unit :=
  transaction (_ ← run_statements (statements m); execute (insert_ledger (row_of m))).

(** [PRAGMA ...] *)
Definition pragma : SM unit := execute (fun f => Ok (f, tt)).

Definition _configure : SM unit :=
  try_except
    (_ ← pragma;
     _ ← pragma;
     if bool_decide (path o = IN_MEMORY) then mret tt
     else
       _ ← pragma;
       if negb (bool_decide (str_lower (wal_mode o) = "wal")) then raise (StoreError (noun (store o) +:+ " " +:+ path o +:+ " refused WAL mode (got " +:+ wal_mode o +:+ ")"))
       else match chmod o with Some e => raise (OsError e) | None => mret tt end)
    (wrapped ("cannot configure " +:+ noun (store o) +:+ " " +:+ path o +:+ ": ")).

(** [applied.get(version)] *)
Definition recorded (v : Z) (applied : list ledger_row) : option ledger_row := snd <$> list_find (fun r => l_version r = v) applied.

(** [sorted(set(applied) - known)] *)
Definition unknown (applied : list ledger_row) : list Z :=
  merge_sort Z.le (filter (fun v => v ∉ version <$> migrations) (l_version <$> applied)).
Definition versions_repr (l : list Z) : string := "[" +:+ str_join ", " (str_of_Z <$> l) +:+ "]".

Fixpoint apply_missing (applied : list ledger_row) (l : list Migration) : SM unit :=
  match l with
  | [] => mret tt
  | m :: l =>
      _ ← match recorded (version m) applied with
          | Some r =>
              if negb (bool_decide (l_checksum r = checksum (sha256_hexdigest o) m))
              then raise (SchemaError ("migration " +:+ str_of_Z (version m) +:+ " (" +:+ l_name r +:+ ") was applied with a different definition; the schema has diverged"))
              else mret tt
          | None => apply_migration m
          end;
      apply_missing applied l
  end.

Definition _migrate : SM unit :=
  applied ← transaction (_ ← execute create_ledger; execute select_ledger);
  if bool_decide (unknown applied = []) then apply_missing applied migrations
  else raise (SchemaError (noun (store o) +:+ " " +:+ path o +:+ " has schema versions this " +:+ build_word (store o) +:+ " does not know: "
         +:+ versions_repr (unknown applied) +:+ "; forward-only migration cannot downgrade in place")).

(** [connection.close()]: an open transaction is lost. *)
Definition close_connection (c : Connection Db) : Connection Db := mkConnection (cn_committed c) None true (cn_faults c).

(** [Journal.open] and [DatasetStore.open] on the file [f], the statements failing as [faults] says. *)
Definition open_store (f : Db) (faults : list fault) : Connection Db * res open_exn unit :=
  match refused o with
  | Some e => (close_connection (connect_to f faults), Err (StoreError ("cannot open " +:+ noun (store o) +:+ " " +:+ path o +:+ ": " +:+ e)))
  | None =>
      match (_ ← _configure; _migrate) (connect_to f faults) with
      | (c, Err e) => (close_connection c, Err e)
      | p => p
      end
  end.
End Migrate.

(** ** Transactions *)

Section Proofs.
Context {S : Type} (o : Opening) (ddl : string -> S -> option S) (migrations : list Migration).
Abbreviation Db := (SchemaFile S).
Abbreviation SM := (M (Connection Db) open_exn).

(** Inside a transaction [body] does [g], or raises and commits nothing; it raises only where [g] is
    undefined or a statement fails. *)
Definition does {A} (body : SM A) (g : Db -> option (Db * A)) : Prop := forall c d, cn_working c = Some d ->
  (cn_faults c = [] -> cn_faults (body c).1 = []) /\
  match body c with
  | (c', Ok a) => exists d', g d = Some (d', a) /\ cn_working c' = Some d' /\ cn_committed c' = cn_committed c /\ cn_closed c' = cn_closed c
  | (c', Err _) => cn_committed c' = cn_committed c /\ cn_closed c' = cn_closed c /\ (cn_faults c = [] -> g d = None)
  | (_, OutOfFuel) => False
  end.

(** Outside a transaction [m] commits [g] of the file, or raises and commits nothing. *)
Definition commits {A} (m : SM A) (g : Db -> option (Db * A)) : Prop := forall c, cn_working c = None ->
  (cn_faults c = [] -> cn_faults (m c).1 = []) /\
  match m c with
  | (c', Ok a) => g (cn_committed c) = Some (cn_committed c', a) /\ cn_working c' = None /\ cn_closed c' = cn_closed c
  | (c', Err _) => cn_committed c' = cn_committed c /\ (cn_faults c = [] -> g (cn_committed c) = None)
  | (_, OutOfFuel) => False
  end.

Definition to_option {A} (r : res open_exn A) : option A := match r with Ok a => Some a | _ => None end.

Lemma does_execute {A} (f : Db -> res open_exn (Db * A)) : (forall d, f d <> OutOfFuel) -> does (execute f) (fun d => to_option (f d)).
Proof.
  intros Hf [d0 w cl fs] d Hw. cbn [cn_working] in Hw. subst w. unfold execute, sql_execute, consult, cn_current, cn_set_current, cn_set_working.
  cbn [cn_committed cn_working cn_closed cn_faults]. specialize (Hf d).
  destruct fs as [|[] fs]; simpl; [| |by split|by split]; destruct (f d) as [[d' a]|e|]; simpl; try done;
    (split; [done|]); try (by exists d'); done.
Qed.

Lemma does_bind {A B} (m : SM A) (f : A -> SM B) g h : does m g -> (forall a, does (f a) (h a)) ->
  does (m ≫= f) (fun d => '(d', a) ← g d; h a d').
Proof.
  intros Hm Hf c d Hw. unfold mbind, M_bind. destruct (Hm c d Hw) as [Hfs Hc]. destruct (m c) as [c1 [a|e|]]; cbn [fst] in *; [| |done].
  - destruct Hc as (d1 & Hg & Hw1 & Hc1 & Hcl1). destruct (Hf a c1 d1 Hw1) as [Hfs2 Hc2]. split; [auto|]. cbn [option_bind]. rewrite Hg. cbn.
    destruct (f a c1) as [c2 [b|e|]]; cbn [fst] in *; [| |done].
    + destruct Hc2 as (d2 & ? & ? & ? & ?). exists d2. split_and!; congruence.
    + destruct Hc2 as (? & ? & Hn). split_and!; [congruence|congruence|auto].
  - destruct Hc as (? & ? & Hn). split; [done|]. split_and!; [done|done|]. intros Hf0. cbn [option_bind]. by rewrite (Hn Hf0).
Qed.


(** What follows BEGIN. *)
Lemma after_begin {A} (body : SM A) g d cl fs : does body g ->
  let p := (match body (mkConnection d (Some d) cl fs) with
            | (c, Ok a) => (_ ← try_except (sql_commit SqliteError) (wrapped (write_noun (store o) +:+ " commit failed: ")); mret a) c
            | (c, Err e) => (_ ← sql_rollback SqliteError;
                             wrapped (write_noun (store o) +:+ " write failed: ") e) c
            | (c, OutOfFuel) => (c, OutOfFuel)
            end) in
  (fs = [] -> cn_faults p.1 = []) /\
  match p with
  | (c', Ok a) => g d = Some (cn_committed c', a) /\ cn_working c' = None /\ cn_closed c' = cl
  | (c', Err _) => cn_committed c' = d /\ (fs = [] -> g d = None)
  | (_, OutOfFuel) => False
  end.
Proof.
  intros Hb. cbv zeta. destruct (Hb (mkConnection d (Some d) cl fs) d eq_refl) as [Hfs Hc].
  destruct (body _) as [[d2 w2 cl2 fs2] [a|e|]]; cbn [fst cn_faults cn_committed cn_working cn_closed] in *; [| |done].
  - destruct Hc as (d' & Hg & -> & -> & ->). unfold try_except, sql_commit, consult, mbind, M_bind, wrapped, raise.
    destruct fs2 as [|[] fs2]; cbn; repeat case_match; simplify_eq/=; (split; [try done; intros ->; by specialize (Hfs eq_refl)|]);
      try (split; [done|intros ->; by specialize (Hfs eq_refl)]); done.
  - destruct Hc as (-> & -> & Hn). unfold sql_rollback, consult, mbind, M_bind, wrapped, raise.
    destruct fs2 as [|[] fs2]; [destruct w2|destruct w2|..]; cbn; repeat case_match; simplify_eq/=; (split; [try done; intros ->; by specialize (Hfs eq_refl)|]);
      (split; [done|auto]).
Qed.

Lemma commits_transaction {A} (body : SM A) g : does body g -> commits (transaction o body) g.
Proof.
  intros Hb [d w cl fs] Hw. cbn [cn_working] in Hw. subst w. unfold transaction, try_case. unfold mbind at 1, M_bind at 1.
  unfold sql_begin, consult at 1. cbn [cn_committed cn_working cn_closed cn_faults tl]. unfold cn_set_working. cbn [cn_committed cn_closed cn_faults].
  pose proof (after_begin body g d cl (tl fs) Hb) as Ha.
  destruct fs as [|[] fs]; cbn [tl] in Ha.
  - exact Ha.
  - destruct Ha as [_ Ha]. split; [done|]. unfold cn_working. cbv beta iota in Ha |- *.
    match goal with |- match ?x with _ => _ end => change x with (match body (mkConnection d (Some d) cl fs) with
            | (c, Ok a) => (_ ← try_except (sql_commit SqliteError) (wrapped (write_noun (store o) +:+ " commit failed: ")); mret a) c
            | (c, Err e) => (_ ← sql_rollback SqliteError;
                             wrapped (write_noun (store o) +:+ " write failed: ") e) c
            | (c, OutOfFuel) => (c, OutOfFuel)
            end) in * end.
    match type of Ha with match ?x with _ => _ end => destruct x as [c' [a|e|]]; [done| |done] end. split; [apply Ha|done].
  - split; [done|]. unfold sql_rollback, consult, mbind, M_bind, wrapped, raise. destruct fs as [|[] fs]; cbn; repeat case_match; simplify_eq/=; done.
  - split; [done|]. unfold sql_rollback, consult, mbind, M_bind, wrapped, raise. destruct fs as [|[] fs]; cbn; repeat case_match; simplify_eq/=; done.
Qed.

(** ** The schema of the first [k] migrations *)

Fixpoint ddl_all (l : list string) (s : S) : option S := match l with [] => Some s | x :: l => s' ← ddl x s; ddl_all l s' end.

Lemma ddl_all_app l1 l2 s : ddl_all (l1 ++ l2) s = (s' ← ddl_all l1 s; ddl_all l2 s').
Proof. revert s. induction l1 as [|x l1 IH]; intros s; [done|]. cbn [app ddl_all]. destruct (ddl x s) as [s'|]; [apply IH|done]. Qed.

Context (empty : S).
Definition build (k : nat) : option S := ddl_all (take k migrations ≫= statements) empty.

(** The row that stands for a migration. *)
Definition stands (r : ledger_row) (m : Migration) : Prop := l_version r = version m /\ l_checksum r = checksum (sha256_hexdigest o) m.

(** A file on which exactly the first [k] migrations have run. *)
Record migrated (k : nat) (f : Db) : Prop := {
  mg_schema : build k = Some (schema f);
  mg_ledger : Forall2 stands (default [] (ledger f)) (take k migrations);
  mg_bound : (k <= length migrations)%nat;
}.

Lemma does_ext {A} (m : SM A) g h : (forall d, g d = h d) -> does m g -> does m h.
Proof.
  intros Hgh Hm c d Hw. destruct (Hm c d Hw) as [H1 H2]. split; [done|]. destruct (m c) as [c' [a|e|]]; rewrite <- ?Hgh; done.
Qed.

Lemma does_run l : does (run_statements ddl l) (fun d => s ← ddl_all l (schema d); Some (mkSchemaFile (ledger d) s, tt)).
Proof.
  induction l as [|x l IH].
  - intros c d Hw. split; [done|]. exists d. split_and!; [by destruct d|done..].
  - eapply does_ext; [|exact (does_bind _ (fun _ => run_statements ddl l) _ _
      (does_execute (run_ddl ddl x) ltac:(intros; unfold run_ddl; by destruct (ddl x _))) (fun _ => IH))].
    intros d. cbn. unfold run_ddl. by destruct (ddl x (schema d)).
Qed.

Lemma commits_ext {A} (m : SM A) g h : (forall d, g d = h d) -> commits m g -> commits m h.
Proof.
  intros Hgh Hm c Hw. destruct (Hm c Hw) as [H1 H2]. split; [done|]. destruct (m c) as [c' [a|e|]]; rewrite <- ?Hgh; done.
Qed.

Lemma commits_apply m : commits (apply_migration o ddl m) (fun d =>
  s ← ddl_all (statements m) (schema d); l ← ledger d;
  if bool_decide (version m ∈ l_version <$> l) then None else Some (mkSchemaFile (Some (l ++ [row_of o m])) s, tt)).
Proof.
  eapply commits_ext; [|apply commits_transaction, does_bind; [apply does_run|intros u; apply does_execute; intros d; unfold insert_ledger; destruct (ledger d); [by case_bool_decide|done]]].
  intros d. cbn. destruct (ddl_all _ _) as [s|]; [|done]. cbn. unfold insert_ledger. cbn [ledger schema l_version row_of]. destruct (ledger d) as [l|]; [|done]. cbn. by case_bool_decide.
Qed.

Lemma commits_ledger : commits (transaction o (_ ← execute create_ledger; execute select_ledger)) (fun d =>
  Some (mkSchemaFile (Some (default [] (ledger d))) (schema d), default [] (ledger d))).
Proof.
  eapply commits_ext; [|apply commits_transaction, does_bind; [apply does_execute; done|intros u; apply does_execute; intros d; unfold select_ledger; by destruct (ledger d)]].
  done.
Qed.

(** ** Migrating *)

Context (Hversions : NoDup (version <$> migrations)) (Hbuild : is_Some (build (length migrations))).

Lemma build_defined k : is_Some (build k).
Proof.
  destruct Hbuild as [s Hs]. unfold build in *. rewrite firstn_all, <- (take_drop k migrations), bind_app, ddl_all_app in Hs.
  destruct (ddl_all (take k migrations ≫= statements) empty); [by eexists|done].
Qed.
Lemma build_next k m : migrations !! k = Some m -> build (Datatypes.S k) = (s ← build k; ddl_all (statements m) s).
Proof. intros Hk. unfold build. rewrite (take_S_r _ _ _ Hk), bind_app, ddl_all_app. cbn. by rewrite app_nil_r. Qed.

Lemma recorded_none v applied : recorded v applied = None <-> v ∉ l_version <$> applied.
Proof.
  unfold recorded. destruct (list_find _ _) as [[i r]|] eqn:Ef; simpl.
  - split; [done|]. intros Hno. apply list_find_Some in Ef as (Hi & Hv & _). destruct Hno. apply list_elem_of_fmap. exists r. split; [done|]. by eapply list_elem_of_lookup_2.
  - split; [|done]. intros _ (r & Hv & Hr)%list_elem_of_fmap. apply list_find_None in Ef. rewrite Forall_forall in Ef. by apply (Ef r Hr).
Qed.
Lemma recorded_some v applied r : recorded v applied = Some r -> r ∈ applied /\ l_version r = v.
Proof.
  unfold recorded. destruct (list_find _ _) as [[i r']|] eqn:Ef; [|done]. intros [= <-]. apply list_find_Some in Ef as (Hi & Hv & _).
  split; [by eapply list_elem_of_lookup_2|done].
Qed.

Lemma recorded_distinct applied r : NoDup (l_version <$> applied) -> r ∈ applied -> recorded (l_version r) applied = Some r.
Proof.
  intros Hnd Hin. destruct (recorded (l_version r) applied) as [r'|] eqn:Er.
  - apply recorded_some in Er as [Hin' Hv]. apply list_elem_of_lookup in Hin as [i Hi], Hin' as [j Hj].
    assert (i = j) as -> by (apply (NoDup_lookup (l_version <$> applied) i j (l_version r)); [done|by rewrite list_lookup_fmap, Hi|rewrite list_lookup_fmap, Hj; simpl; congruence]).
    congruence.
  - apply recorded_none in Er. destruct Er. apply list_elem_of_fmap. by exists r.
Qed.

(** The versions of the ledger are those of the migrations that ran. *)
Lemma stands_versions l ms : Forall2 stands l ms -> l_version <$> l = version <$> ms.
Proof. induction 1 as [|r m l ms [Hv _] _ IH]; [done|]. csimpl. by rewrite Hv, IH. Qed.
Lemma fresh_version k m : migrations !! k = Some m -> version m ∉ version <$> take k migrations.
Proof.
  intros Hk Hin. rewrite <- (take_drop_middle _ _ _ Hk), fmap_app in Hversions. apply NoDup_app in Hversions as (_ & Hd & _).
  apply (Hd _ Hin). csimpl. by left.
Qed.

(** One migration that is missing. *)
Lemma apply_next k m f : migrated k f -> is_Some (ledger f) -> migrations !! k = Some m -> exists f',
  (s ← ddl_all (statements m) (schema f); l ← ledger f;
   if bool_decide (version m ∈ l_version <$> l) then None else Some (mkSchemaFile (Some (l ++ [row_of o m])) s, tt)) = Some (f', tt)
  /\ migrated (Datatypes.S k) f' /\ is_Some (ledger f').
Proof.
  intros [Hs Hl Hb] [l El] Hk. destruct (build_defined (Datatypes.S k)) as [s' Hs']. pose proof Hs' as Hs2. rewrite (build_next k m Hk), Hs in Hs'. cbn in Hs'.
  rewrite Hs', El. cbn. rewrite El in Hl. cbn in Hl. rewrite bool_decide_false by (rewrite (stands_versions _ _ Hl); by apply fresh_version).
  eexists. split; [done|]. split; [|by eexists]. split; cbn; [done| |by apply lookup_lt_Some in Hk].
  rewrite (take_S_r _ _ _ Hk). apply Forall2_app; [done|]. constructor; [|constructor]. by split.
Qed.

Lemma apply_missing_spec applied k0 k l c : Forall2 stands applied (take k0 migrations) -> (k0 <= k)%nat -> l = drop k migrations ->
  migrated k (cn_committed c) -> is_Some (ledger (cn_committed c)) -> cn_working c = None ->
  let p := apply_missing o ddl applied l c in
  exists k', (k <= k')%nat /\ migrated k' (cn_committed p.1)
  /\ (k = length migrations -> cn_committed p.1 = cn_committed c)
  /\ match p.2 with
     | Ok _ => k' = length migrations /\ cn_working p.1 = None /\ cn_closed p.1 = cn_closed c
     | Err _ => cn_faults c <> []
     | OutOfFuel => False
     end.
Proof.
  intros Hst. revert k c. induction l as [|m l IH]; intros k c Hk Hl Hm Hled Hw.
  - exists k. cbn. assert (k = length migrations) as -> by (pose proof (mg_bound _ _ Hm); apply (f_equal length) in Hl; rewrite length_drop in Hl; simpl in Hl; lia). done.
  - assert (migrations !! k = Some m) as Hkm by (rewrite <- (Nat.add_0_r k), <- lookup_drop, <- Hl; done).
    assert (l = drop (Datatypes.S k) migrations) as Hl' by (rewrite <- Nat.add_1_r, <- drop_drop, <- Hl; done).
    cbn [apply_missing]. unfold mbind, M_bind.
    assert (recorded (version m) applied = None) as ->.
    { apply recorded_none. rewrite (stands_versions _ _ Hst). intros Hin. apply (fresh_version k m Hkm).
      apply list_elem_of_fmap in Hin as (x & Hx & Hin). apply list_elem_of_fmap. exists x. split; [done|].
      apply list_elem_of_lookup in Hin as [i Hi]. apply lookup_take_Some in Hi as [Hi Hlt]. apply list_elem_of_lookup. exists i. apply lookup_take_Some. split; [done|lia]. }
    destruct (apply_next k m _ Hm Hled Hkm) as (f' & Hf & Hm' & Hled').
    destruct (commits_apply m c Hw) as [Hfs Hc]. destruct (apply_migration o ddl m c) as [c1 [u|e|]]; cbn [fst snd] in *; [| |done].
    + destruct Hc as (Hg & Hw1 & Hcl1). destruct u. rewrite Hf in Hg. injection Hg as ->.
      destruct (IH (Datatypes.S k) c1 ltac:(lia) Hl' Hm' Hled' Hw1) as (k' & Hle & Hmk & _ & Hr). exists k'. split; [lia|]. split; [done|].
      split; [intros ->; apply lookup_lt_Some in Hkm; lia|]. destruct (apply_missing o ddl applied l c1) as [c2 [u|e|]]; cbn [snd fst] in *; [|auto|done].
      destruct Hr as (-> & ? & ?). split_and!; [done|done|congruence].
    + destruct Hc as [Hcm Hn]. exists k. split; [lia|]. rewrite Hcm. split_and!; [done|done|]. intros Hf0. rewrite (Hn Hf0) in Hf. done.
Qed.

(** The migrations that the ledger records are passed over. *)
Lemma skip_recorded applied k0 c : Forall2 stands applied (take k0 migrations) -> (k0 <= length migrations)%nat ->
  apply_missing o ddl applied migrations c = apply_missing o ddl applied (drop k0 migrations) c.
Proof.
  intros Hst Hk. assert (forall l, (forall m, m ∈ l -> exists r, recorded (version m) applied = Some r /\ l_checksum r = checksum (sha256_hexdigest o) m) ->
    forall l2, apply_missing o ddl applied (l ++ l2) c = apply_missing o ddl applied l2 c) as Hskip.
  { induction l as [|m l IH]; intros Hl l2; [done|]. cbn [app apply_missing]. destruct (Hl m) as (r & -> & Hr); [by left|].
    rewrite bool_decide_true by done. apply IH. intros m' Hm'. apply Hl. by right. }
  rewrite <- (take_drop k0 migrations) at 1. apply Hskip. intros m Hm.
  destruct (recorded (version m) applied) as [r|] eqn:Er.
  - exists r. split; [done|]. apply recorded_some in Er as [Hin Hv]. apply list_elem_of_lookup in Hin as [i Hi].
    destruct (Forall2_lookup_l _ _ _ _ _ Hst Hi) as (m' & Hm' & Hver & Hsum). rewrite Hsum. f_equal.
    apply list_elem_of_lookup in Hm as [j Hj]. apply lookup_take_Some in Hm' as [Hm' _]. apply lookup_take_Some in Hj as [Hj _].
    assert (i = j) as -> by (apply (NoDup_lookup (version <$> migrations) i j (version m)); [done|rewrite list_lookup_fmap, Hm'; simpl; congruence|by rewrite list_lookup_fmap, Hj]).
    congruence.
  - exfalso. apply recorded_none in Er. rewrite (stands_versions _ _ Hst) in Er. apply Er, list_elem_of_fmap. by exists m.
Qed.

(** The connection between two statements outside a transaction. *)
Definition idle (f : Db) (cl : bool) (c : Connection Db) : Prop := cn_committed c = f /\ cn_working c = None /\ cn_closed c = cl.

Lemma pragma_spec f cl c : idle f cl c -> idle f cl (pragma c).1 /\ (cn_faults c = [] -> cn_faults (pragma c).1 = [])
  /\ match (pragma c).2 with Ok _ => True | Err e => (exists m, e = SqliteError m) /\ cn_faults c <> [] | OutOfFuel => False end.
Proof.
  destruct c as [d w cl' fs]. intros (Hd & Hw & Hcl). cbn in Hd, Hw, Hcl. subst. unfold pragma, execute, sql_execute, consult.
  destruct fs as [|[] fs]; cbn; (split; [done|split; [done|]]); try done; (split; [by eexists|done]).
Qed.

(** The system lets the file be configured. *)
Definition configurable : Prop := path o = IN_MEMORY \/ str_lower (wal_mode o) = "wal" /\ chmod o = None.

Lemma configure_spec f cl c : idle f cl c -> idle f cl (_configure o c).1 /\ (cn_faults c = [] -> cn_faults (_configure o c).1 = [])
  /\ match (_configure o c).2 with
     | Ok _ => configurable
     | Err e => (cn_faults c <> [] \/ ~ configurable) /\ forall m, e <> SqliteError m
     | OutOfFuel => False
     end.
Proof.
  intros Hc. unfold _configure, try_except, wrapped, mbind, M_bind, raise.
  destruct (pragma_spec f cl c Hc) as (H1 & Hf1 & R1). destruct (pragma c) as [c1 [u1|e|]]; cbn [fst snd] in *; [| |done].
  2: { destruct R1 as [[m ->] Hn]. cbn. split; [done|split; [auto|]]. split; [by left|done]. }
  destruct (pragma_spec f cl c1 H1) as (H2 & Hf2 & R2). destruct (pragma c1) as [c2 [u2|e|]]; cbn [fst snd] in *; [| |done].
  2: { destruct R2 as [[m ->] Hn]. cbn. split; [done|split; [auto|]]. split; [left; auto|done]. }
  case_bool_decide as Em; [cbn; split; [done|split; [auto|by left]]|].
  destruct (pragma_spec f cl c2 H2) as (H3 & Hf3 & R3). destruct (pragma c2) as [c3 [u3|e|]]; cbn [fst snd] in *; [| |done].
  2: { destruct R3 as [[m ->] Hn]. cbn. split; [done|split; [auto|]]. split; [left; auto|done]. }
  case_bool_decide as Ew; cbn.
  - destruct (chmod o) as [e|] eqn:Ec; cbn; (split; [done|split; [auto|]]).
    + split; [|done]. right. intros [?|[_ ?]]; congruence.
    + by right.
  - split; [done|split; [auto|]]. split; [|done]. right. by intros [?|[? _]].
Qed.

Lemma unknown_versions_nil applied : unknown migrations applied = [] <-> forall r, r ∈ applied -> l_version r ∈ version <$> migrations.
Proof.
  assert (forall v, v ∈ unknown migrations applied <-> v ∉ version <$> migrations /\ v ∈ l_version <$> applied) as Hin.
  { intros v. unfold unknown. rewrite (merge_sort_Permutation Z.le), list_elem_of_filter. done. }
  split.
  - intros Hu r Hr. destruct (decide (l_version r ∈ version <$> migrations)) as [|Hno]; [done|exfalso].
    assert (l_version r ∈ unknown migrations applied) as Hx by (apply Hin; split; [done|apply list_elem_of_fmap; by exists r]).
    rewrite Hu in Hx. by apply not_elem_of_nil in Hx.
  - intros Hk. destruct (unknown migrations applied) as [|v l] eqn:Eu; [done|exfalso].
    destruct (proj1 (Hin v) ltac:(left)) as [Hno (r & -> & Hr)%list_elem_of_fmap]. by apply Hno, Hk.
Qed.

Lemma migrate_spec k c : migrated k (cn_committed c) -> cn_working c = None ->
  let p := _migrate o ddl migrations c in
  exists k', (k <= k')%nat /\ migrated k' (cn_committed p.1)
  /\ match p.2 with
     | Ok _ => k' = length migrations /\ cn_working p.1 = None /\ cn_closed p.1 = cn_closed c
     | Err _ => cn_faults c <> []
     | OutOfFuel => False
     end.
Proof.
  intros Hm Hw. cbv zeta. unfold _migrate. rewrite bind_case.
  destruct (commits_ledger c Hw) as [Hf Hc]. destruct (transaction o _ c) as [c1 [applied|e|]]; cbn [fst snd] in *; [| |done].
  - destruct Hc as (Heq & Hw1 & Hcl). injection Heq as Hd1 Happ.
    assert (Forall2 stands applied (take k migrations)) as Hst by (rewrite <- Happ; apply Hm).
    assert (migrated k (cn_committed c1)) as Hm1 by (rewrite <- Hd1; split; apply Hm).
    rewrite bool_decide_true.
    2: { apply unknown_versions_nil. intros r Hr. destruct (list_elem_of_lookup_1 _ _ Hr) as [i Hi].
         destruct (Forall2_lookup_l _ _ _ _ _ Hst Hi) as (m & Hm' & -> & _). apply list_elem_of_fmap. exists m. split; [done|].
         apply lookup_take_Some in Hm' as [Hm' _]. by eapply list_elem_of_lookup_2. }
    rewrite (skip_recorded applied k c1 Hst (mg_bound _ _ Hm)).
    destruct (apply_missing_spec applied k k (drop k migrations) c1 Hst ltac:(done) eq_refl Hm1 ltac:(rewrite <- Hd1; by eexists) Hw1) as (k' & Hle & Hmk & _ & Hr).
    exists k'. split; [done|]. split; [done|]. destruct (apply_missing _ _ _ _ _) as [c2 [u|e|]]; cbn [fst snd] in *; [|auto|done].
    destruct Hr as (? & ? & ?). split; [done|split; [done|congruence]].
  - destruct Hc as [Hcm Hn]. exists k. rewrite Hcm. split; [lia|split; [done|]]. intros Hf0. by specialize (Hn Hf0).
Qed.

(** What one attempt to open the store leaves. *)
Record attempted (k : nat) (faults : list fault) (p : Connection Db * res open_exn unit) (k' : nat) : Prop := {
  at_forward : (k <= k')%nat;
  at_migrated : migrated k' (cn_committed p.1);
  at_idle : cn_working p.1 = None;
  at_answer : match p.2 with
    | Ok _ => k' = length migrations /\ cn_closed p.1 = false
    | Err _ => cn_closed p.1 = true /\ (refused o <> None \/ faults <> [] \/ ~ configurable)
    | OutOfFuel => False
    end;
}.

Lemma open_attempt k f faults : migrated k f -> exists k', attempted k faults (open_store o ddl migrations f faults) k'.
Proof.
  intros Hm. unfold open_store. destruct (refused o) as [m|] eqn:Er.
  { exists k. split; cbn; [lia|done|done|]. split; [done|]. left. congruence. }
  rewrite bind_case. destruct (configure_spec f false (connect_to f faults)) as ((Hd & Hw & Hcl) & Hf & Hr); [done|].
  destruct (_configure o _) as [c1 [u|e|]]; cbn [fst snd] in *; [| |done].
  - rewrite <- Hd in Hm. destruct (migrate_spec k c1 Hm Hw) as (k' & Hle & Hmk & Hr'). exists k'.
    destruct (_migrate o ddl migrations c1) as [c2 [u2|e|]]; cbn [fst snd] in *; [| |done].
    + destruct Hr' as (? & ? & ?). split; cbn; [done|done|done|]. split; congruence.
    + split; cbn; [done|done|done|]. split; [done|]. right; left. intros Hn. by apply Hr', Hf.
  - exists k. destruct Hr as [[?|?] _]; (split; cbn; [lia|by rewrite Hd|done|]); split; auto.
Qed.

(** An opened file recorded nothing this build does not know. *)
Lemma apply_missing_known applied l c u c' : apply_missing o ddl applied l c = (c', Ok u) ->
  forall m r, m ∈ l -> recorded (version m) applied = Some r -> l_checksum r = checksum (sha256_hexdigest o) m.
Proof.
  revert c. induction l as [|m l IH]; intros c; [by intros _ m r ?%not_elem_of_nil|]. cbn [apply_missing]. rewrite bind_case.
  intros Ha m' r' [->|Hin]%elem_of_cons Hr.
  - rewrite Hr in Ha. by case_bool_decide.
  - destruct ((match recorded _ _ with Some _ => _ | None => _ end : SM unit) c) as [c1 [u1|e|]]; [|done|done]. by apply (IH c1 Ha m' r').
Qed.
End Proofs.

(** ** Opening again and again *)

Lemma migrations_distinct st : NoDup (version <$> MIGRATIONS st).
Proof. by apply (bool_decide_unpack _); destruct st; vm_compute. Qed.

Section Reopen.
Context {S : Type} (st : Store) (ddl : string -> S -> option S) (empty : S).
Abbreviation Db := (SchemaFile S).

(** The attempts that went before, each with what its system answered and the statements that failed in it. *)
Fixpoint reopened (attempts : list (Opening * list fault)) (f : Db) : Db :=
  match attempts with
  | [] => f
  | (o, faults) :: l => reopened l (cn_committed (open_store o ddl (MIGRATIONS st) f faults).1)
  end.

Lemma migrated_sha (o o' : Opening) k (f : Db) : sha256_hexdigest o = sha256_hexdigest o' ->
  migrated o ddl (MIGRATIONS st) empty k f -> migrated o' ddl (MIGRATIONS st) empty k f.
Proof. intros Hs [H1 H2 H3]. split; [done| |done]. unfold stands in *. by rewrite <- Hs. Qed.

Lemma reopened_migrated o attempts k f : is_Some (build ddl (MIGRATIONS st) empty (length (MIGRATIONS st))) ->
  Forall (fun a => sha256_hexdigest a.1 = sha256_hexdigest o) attempts -> migrated o ddl (MIGRATIONS st) empty k f ->
  exists k', (k <= k')%nat /\ migrated o ddl (MIGRATIONS st) empty k' (reopened attempts f).
Proof.
  intros Hb Hall. revert k f. induction Hall as [|[o' faults] l Ho _ IH]; intros k f Hm; [by exists k|]. cbn in Ho. cbn [reopened].
  destruct (open_attempt o' ddl (MIGRATIONS st) empty (migrations_distinct st) Hb k f faults (migrated_sha _ _ _ _ (eq_sym Ho) Hm)) as [k1 [Hle Hk1 _ _]].
  destruct (IH k1 _ (migrated_sha _ _ _ _ Ho Hk1)) as (k' & ? & ?). exists k'. split; [lia|done].
Qed.

(** C16: whatever became of the earlier attempts to open the store — statements that failed anywhere, a
    refused WAL mode, a refused chmod, a file that could not be opened — the next attempt that meets no failure opens
    the connection with every migration run exactly once: the schema is the one the migrations of this build make from
    the empty file in order, the ledger has one row for each of them with its checksum, and no transaction is open. *)
Theorem schema_open_exact (o : Opening) (attempts : list (Opening * list fault)) :
  is_Some (build ddl (MIGRATIONS st) empty (length (MIGRATIONS st))) ->
  Forall (fun a => sha256_hexdigest a.1 = sha256_hexdigest o) attempts ->
  refused o = None -> configurable o ->
  exists c, open_store o ddl (MIGRATIONS st) (reopened attempts (mkSchemaFile None empty)) [] = (c, Ok tt)
  /\ build ddl (MIGRATIONS st) empty (length (MIGRATIONS st)) = Some (schema (cn_committed c))
  /\ (exists l, ledger (cn_committed c) = Some l
      /\ (fun r => (l_version r, l_checksum r)) <$> l = (fun m => (version m, checksum (sha256_hexdigest o) m)) <$> MIGRATIONS st)
  /\ cn_working c = None /\ cn_closed c = false.
Proof.
  intros Hb Hall Hr Hc.
  destruct (reopened_migrated o attempts 0 (mkSchemaFile None empty) Hb Hall) as (k & _ & Hk); [split; [done|cbn; constructor|lia]|].
  destruct (open_attempt o ddl (MIGRATIONS st) empty (migrations_distinct st) Hb k _ [] Hk) as [k' [_ [Hs Hl _] Hw Ha]].
  destruct (open_store _ _ _ _ _) as [c [[]|e|]]; cbn in *; [| |done].
  - destruct Ha as [-> Hcl]. exists c. split; [done|]. split; [by rewrite Hs|]. split; [|done].
    rewrite firstn_all in Hl. destruct (ledger (cn_committed c)) as [l|].
    + exists l. split; [done|]. clear -Hl. cbn in Hl. induction Hl as [|r m l ms [Hv Hx] _ IH]; [done|]. csimpl. by rewrite Hv, Hx, IH.
    + cbn in Hl. apply Forall2_length in Hl. by destruct st.
  - destruct Ha as [_ [?|[?|?]]]; done.
Qed.

(** A file whose ledger this build does not account for is never opened: the connection is returned
    only when every row of the ledger it found names a migration of this build and carries that migration's checksum; and when
    some row names none, the file is left exactly as it was found. *)
Theorem foreign_schema_refused (o : Opening) (f : Db) (l : list ledger_row) (faults : list fault) :
  ledger f = Some l -> NoDup (l_version <$> l) ->
  let p := open_store o ddl (MIGRATIONS st) f faults in
  ((exists u, p.2 = Ok u) -> forall r, r ∈ l -> exists m, m ∈ MIGRATIONS st /\ version m = l_version r /\ checksum (sha256_hexdigest o) m = l_checksum r)
  /\ ((exists r, r ∈ l /\ l_version r ∉ version <$> MIGRATIONS st) -> cn_committed p.1 = f /\ cn_closed p.1 = true /\ exists e, p.2 = Err e).
Proof.
  intros Hl Hnd. cbv zeta. unfold open_store. destruct (refused o); [cbn; by split; [intros [? ?]|eauto]|].
  rewrite bind_case. destruct (configure_spec o f false (connect_to f faults)) as ((Hd & Hw & Hcl) & _ & Hr); [done|].
  destruct (_configure o _) as [c1 [u|e|]]; cbn [fst snd] in *; [|cbn; by split; [intros [? ?]|eauto]|done].
  unfold _migrate. rewrite bind_case. destruct (commits_ledger o c1 Hw) as [_ Hc].
  destruct (transaction o _ c1) as [c2 [applied|e|]]; cbn [fst snd] in *; [|destruct Hc as [Hc _]; cbn; split; [by intros [? ?]|rewrite Hc; eauto]|done].
  destruct Hc as (Heq & _ & _). rewrite Hd, Hl in Heq. injection Heq as Hd2 <-. cbn in Hd2.
  case_bool_decide as Hu.
  - rewrite (unknown_versions_nil (MIGRATIONS st)) in Hu. split; [|intros (r & Hin & Hno); by destruct (Hno (Hu r Hin))].
    destruct (apply_missing _ _ _ _ c2) as [c3 [u3|e|]] eqn:Ea; cbn [fst snd]; intros [? [=]] r Hin.
    destruct (proj1 (list_elem_of_fmap _ _ _) (Hu r Hin)) as (m & Hv & Hm). exists m. split_and!; [done|done|].
    symmetry. refine (apply_missing_known o ddl l _ c2 _ _ Ea m r Hm _). rewrite <- Hv. by apply recorded_distinct.
  - cbn. split; [by intros [? ?]|]. intros _. split_and!; [by destruct f; cbn in *; subst|done|by eexists].
Qed.
End Reopen.

(** ** Two stores that are opened *)

(** A schema is the list of the statements it was made with; a statement cannot run twice. *)
Definition note_ddl (x : string) (s : list string) : option (list string) := if bool_decide (x ∈ s) then None else Some (s ++ [x]).
Definition demo_opening (st : Store) (wal : string) : Opening := mkOpening st "/srv/store.db" (fun s => s) str_of_Z None wal None.
(** The disk fails inside the second migration; then the file system refuses WAL; then the disk fills up and SQLite rolls the transaction back by itself. *)
Definition demo_attempts (st : Store) : list (Opening * list fault) :=
  [(demo_opening st "wal", repeat Fine 7 ++ repeat Fine (length (default [] (statements <$> head (MIGRATIONS st))) + 3) ++ [Fine; Fails]);
   (demo_opening st "delete", []);
   (demo_opening st "WAL", repeat Fine 9 ++ [Aborts])].

(** The first attempt commits the first migration and no other. *)
Example demo_first_attempt : (fun l => l_version <$> default [] (ledger (reopened JournalStore note_ddl l (mkSchemaFile None [])))) <$> [take 1 (demo_attempts JournalStore); demo_attempts JournalStore]
  = [[1%Z]; [1%Z]].
Proof. vm_compute. reflexivity. Qed.

Lemma schema_open_exact_witness : exists c,
  open_store (demo_opening DatasetStore "wal") note_ddl (MIGRATIONS DatasetStore)
    (reopened DatasetStore note_ddl (demo_attempts DatasetStore) (mkSchemaFile None [])) [] = (c, Ok tt)
  /\ build note_ddl (MIGRATIONS DatasetStore) [] (length (MIGRATIONS DatasetStore)) = Some (schema (cn_committed c))
  /\ (exists l, ledger (cn_committed c) = Some l
      /\ (fun r => (l_version r, l_checksum r)) <$> l = (fun m => (version m, checksum (fun s => s) m)) <$> MIGRATIONS DatasetStore)
  /\ cn_working c = None /\ cn_closed c = false.
Proof.
  apply (schema_open_exact DatasetStore note_ddl [] (demo_opening DatasetStore "wal") (demo_attempts DatasetStore)).
  - vm_compute. by eexists.
  - by repeat constructor.
  - reflexivity.
  - right. split; reflexivity.
Defined.

(** A file of a newer daemon, with a fourth migration. *)
Definition newer_file : SchemaFile (list string) :=
  mkSchemaFile (Some [mkLedger 1 "operations_and_idempotency" "" (checksum (fun s => s) (default (mkMigration 0 "" []) (head journal_MIGRATIONS))); mkLedger 4 "later" "" ""]) [].

Lemma foreign_schema_refused_witness :
  let p := open_store (demo_opening JournalStore "wal") note_ddl (MIGRATIONS JournalStore) newer_file [] in
  ((exists u, p.2 = Ok u) -> forall r, r ∈ default [] (ledger newer_file) -> exists m, m ∈ MIGRATIONS JournalStore /\ version m = l_version r /\ checksum (fun s => s) m = l_checksum r)
  /\ ((exists r, r ∈ default [] (ledger newer_file) /\ l_version r ∉ version <$> MIGRATIONS JournalStore) -> cn_committed p.1 = newer_file /\ cn_closed p.1 = true /\ exists e, p.2 = Err e).
Proof.
  apply (foreign_schema_refused JournalStore note_ddl (demo_opening JournalStore "wal") newer_file); [reflexivity|].
  apply (bool_decide_unpack _). vm_compute. exact I.
Defined.
Example newer_file_refused : (open_store (demo_opening JournalStore "wal") note_ddl (MIGRATIONS JournalStore) newer_file []).2
  = Err (SchemaError "journal /srv/store.db has schema versions this daemon does not know: [4]; forward-only migration cannot downgrade in place").
Proof. vm_compute. reflexivity. Qed.
