(* ===== verification/Dataset.v ===== *)
(** * The labelled dataset (appliance/vision/src/cs71vision/dataset.py)

    [DatasetStore] over one SQLite connection: the tables of its migrations with
    their keys, uniqueness and references, and every reading and writing method.
    Timestamps are stored as text and compared as text. The columns that hold
    JSON (class lists and accuracies) are kept as the values they encode. *)
From Stdlib Require Import SpecFloat.
From S2P Require Import Prelude PyString IsoTime Operations VisionErrors Sqlite.

(** ** Rows *)

Record example_row := mkExample {
  x_operation_id : string;
  x_slot : Z;
  x_frame_png : string;
  x_frame_captured_at : string;
  x_operation_created_at : string;
  x_recorded_at : string;
}.

(** What [train_candidate] hands over. *)
Record TrainedCandidate := mkTrainedCandidate {
  model_blob : string;
  included_classes : list Z;
  excluded_classes : list Z;
  accuracy_by_class : list (Z * spec_float);
  minimum_examples_per_class : Z;
  training_example_count : Z;
  holdout_example_count : Z;
}.

Record model_row := mkModel { v_version : Z; v_trained_at : string; v_candidate : TrainedCandidate }.
Record activation_row := mkActivation { a_activation_id : Z; a_version : Z; a_activated_at : string }.

Record SuggestionRecord := mkSuggestion {
  suggestion_id : Z;
  model_version : Z;
  suggested_slot : Z;
  sr_confidence : spec_float;
  sr_primer_present : option bool;
  frame_captured_at : string;
  suggested_at : string;
}.
Record outcome_row := mkOutcome {
  o_outcome_id : Z; o_suggestion_id : Z; o_operation_id : string; o_actual_slot : Z; o_correct : Z; o_recorded_at : string }.
Record AutonomousAttempt := mkAttempt {
  attempt_id : Z; at_suggestion_id : Z; at_operation_id : string; at_slot : Z; attempted_at : string }.
Record review_row := mkReview { r_review_id : Z; r_attempt_id : Z; r_correct : Z; r_reviewed_at : string }.

Record Tables := mkTables {
  examples_t : list example_row;
  models_t : list model_row;
  activations_t : list activation_row;
  suggestions_t : list SuggestionRecord;
  outcomes_t : list outcome_row;
  attempts_t : list AutonomousAttempt;
  reviews_t : list review_row;
}.
Definition Tables_empty : Tables := mkTables [] [] [] [] [] [] [].

(** ** Statements *)

Definition violates {A} (what : string) : vresult A := vthrow VisionIntegrityError what.
Definition sqlite_error (msg : string) : vexn := mkVexn VisionSqliteError msg.

(** [INTEGER PRIMARY KEY AUTOINCREMENT] in a table nothing is deleted from. *)
Definition next_id (ids : list Z) : Z := 1 + foldr Z.max 0 ids.

Definition insert_example (r : example_row) (t : Tables) : vresult (Tables * unit) :=
  if bool_decide (x_operation_id r ∈ x_operation_id <$> examples_t t)
  then violates "UNIQUE constraint failed: examples.operation_id"
  else Ok (mkTables (examples_t t ++ [r]) (models_t t) (activations_t t) (suggestions_t t) (outcomes_t t)
             (attempts_t t) (reviews_t t), tt).

Definition insert_model (trained_at : string) (c : TrainedCandidate) (t : Tables) : vresult (Tables * Z) :=
  let id := next_id (v_version <$> models_t t) in
  Ok (mkTables (examples_t t) (models_t t ++ [mkModel id trained_at c]) (activations_t t) (suggestions_t t) (outcomes_t t)
        (attempts_t t) (reviews_t t), id).

Definition insert_activation (version : Z) (activated_at : string) (t : Tables) : vresult (Tables * Z) :=
  let id := next_id (a_activation_id <$> activations_t t) in
  if negb (bool_decide (version ∈ v_version <$> models_t t)) then violates "FOREIGN KEY constraint failed"
  else Ok (mkTables (examples_t t) (models_t t) (activations_t t ++ [mkActivation id version activated_at]) (suggestions_t t)
             (outcomes_t t) (attempts_t t) (reviews_t t), id).

Definition is_nan (x : spec_float) : bool := match x with S754_nan => true | _ => false end.

(** SQLite stores a NaN as NULL, which the column refuses. *)
Definition insert_suggestion (version slot : Z) (confidence : spec_float) (primer : option bool)
    (captured_at suggested : string) (t : Tables) : vresult (Tables * Z) :=
  let id := next_id (suggestion_id <$> suggestions_t t) in
  if is_nan confidence then violates "NOT NULL constraint failed: suggestions.confidence"
  else if negb (bool_decide (version ∈ v_version <$> models_t t)) then violates "FOREIGN KEY constraint failed"
  else Ok (mkTables (examples_t t) (models_t t) (activations_t t)
             (suggestions_t t ++ [mkSuggestion id version slot confidence primer captured_at suggested])
             (outcomes_t t) (attempts_t t) (reviews_t t), id).

Definition insert_outcome (suggestion : Z) (operation_id : string) (actual_slot correct : Z) (recorded_at : string)
    (t : Tables) : vresult (Tables * Z) :=
  let id := next_id (o_outcome_id <$> outcomes_t t) in
  if bool_decide (suggestion ∈ o_suggestion_id <$> outcomes_t t)
  then violates "UNIQUE constraint failed: suggestion_outcomes.suggestion_id"
  else if bool_decide (operation_id ∈ o_operation_id <$> outcomes_t t)
  then violates "UNIQUE constraint failed: suggestion_outcomes.operation_id"
  else if negb (bool_decide (suggestion ∈ suggestion_id <$> suggestions_t t)) then violates "FOREIGN KEY constraint failed"
  else Ok (mkTables (examples_t t) (models_t t) (activations_t t) (suggestions_t t)
             (outcomes_t t ++ [mkOutcome id suggestion operation_id actual_slot correct recorded_at])
             (attempts_t t) (reviews_t t), id).

Definition insert_attempt (suggestion : Z) (operation_id : string) (slot : Z) (at_ : string)
    (t : Tables) : vresult (Tables * Z) :=
  let id := next_id (attempt_id <$> attempts_t t) in
  if bool_decide (suggestion ∈ at_suggestion_id <$> attempts_t t)
  then violates "UNIQUE constraint failed: autonomous_attempts.suggestion_id"
  else if bool_decide (operation_id ∈ at_operation_id <$> attempts_t t)
  then violates "UNIQUE constraint failed: autonomous_attempts.operation_id"
  else if negb (bool_decide (suggestion ∈ suggestion_id <$> suggestions_t t)) then violates "FOREIGN KEY constraint failed"
  else Ok (mkTables (examples_t t) (models_t t) (activations_t t) (suggestions_t t) (outcomes_t t)
             (attempts_t t ++ [mkAttempt id suggestion operation_id slot at_]) (reviews_t t), id).

Definition insert_review (attempt correct : Z) (reviewed_at : string) (t : Tables) : vresult (Tables * Z) :=
  let id := next_id (r_review_id <$> reviews_t t) in
  if bool_decide (attempt ∈ r_attempt_id <$> reviews_t t)
  then violates "UNIQUE constraint failed: autonomous_reviews.attempt_id"
  else if negb (bool_decide (attempt ∈ attempt_id <$> attempts_t t)) then violates "FOREIGN KEY constraint failed"
  else Ok (mkTables (examples_t t) (models_t t) (activations_t t) (suggestions_t t) (outcomes_t t) (attempts_t t)
             (reviews_t t ++ [mkReview id attempt correct reviewed_at]), id).

(** ** The store *)

Abbreviation DatasetStore := (Connection Tables).
Abbreviation SM := (M DatasetStore vexn).

Definition execute {A} (f : Tables -> vresult (Tables * A)) : SM A := sql_execute sqlite_error f.
Definition query {A} (f : Tables -> A) : SM A := sql_query sqlite_error f.
Definition dataset_error {A} (msg : string) : SM A := vraise DatasetError msg.
(** Binding an integer parameter of more than 64 bits raises [OverflowError], which is no [sqlite3.Error]. *)
Definition bind_ints (l : list Z) : vresult unit :=
  if forallb (fun n => (- 2 ^ 63 <=? n) && (n <? 2 ^ 63)) l then Ok tt
  else vthrow VisionOverflowError "Python int too large to convert to SQLite INTEGER".
Definition is_sqlite_error (e : vexn) : bool := vinstance e VisionSqliteError.

Definition _require_open : SM unit := fun c => if cn_closed c then dataset_error "dataset store is closed" c else (c, Ok tt).

Definition _guard {A} (body : SM A) : SM A :=
  _ ← _require_open;
  try_except body (fun e =>
    if is_sqlite_error e then dataset_error ("dataset read failed: " +:+ vexn_msg e) else raise e).

Definition _transaction {A} (body : SM A) : SM A :=
  _ ← _require_open;
  try_case (_ ← sql_begin sqlite_error; body)
    (fun a =>
       _ ← try_except (sql_commit sqlite_error) (fun e =>
             if is_sqlite_error e then dataset_error ("dataset commit failed: " +:+ vexn_msg e) else raise e);
       mret a)
    (fun e =>
       _ ← sql_rollback sqlite_error;
       if is_sqlite_error e then dataset_error ("dataset write failed: " +:+ vexn_msg e) else raise e).

Definition close : SM unit := fun c =>
  if cn_closed c then (c, Ok tt) else (mkConnection (cn_committed c) None true (cn_faults c), Ok tt).

(** [value.astimezone(UTC).isoformat()] *)
Definition _encode_time (value : datetime) : vresult string :=
  match tz_offset value with
  | None => vthrow DatasetError "dataset timestamps must be timezone-aware"
  | Some off => Ok (isoformat (wall_us value - off))
  end.

(** The [IntegrityError] is handled inside the transaction, which then commits nothing. *)
Definition record_example (now : datetime) (operation_id : string) (slot : Z) (frame_png : string)
    (captured_at created_at : datetime) : SM bool :=
  _transaction (
    try_except
      (captured ← liftR (_encode_time captured_at);
       created ← liftR (_encode_time created_at);
       recorded ← liftR (_encode_time now);
       _ ← liftR (bind_ints [slot]);
       _ ← execute (insert_example (mkExample operation_id slot frame_png captured created recorded));
       mret true)
      (fun e => if vinstance e VisionIntegrityError then mret false else raise e)).

Definition has_example (operation_id : string) : SM bool :=
  _guard (query (fun t => bool_decide (operation_id ∈ x_operation_id <$> examples_t t))).

(** [GROUP BY slot ORDER BY slot] *)
Definition slots_sorted (l : list Z) : list Z := merge_sort Z.le (elements (list_to_set l : gset Z)).
Definition counts_by_slot : SM (list (Z * Z)) :=
  _guard (query (fun t =>
    let slots := x_slot <$> examples_t t in
    (fun s => (s, Z.of_nat (length (filter (fun x => x = s) slots)))) <$> slots_sorted slots)).

Definition total_examples : SM Z := _guard (query (fun t => Z.of_nat (length (examples_t t)))).

(** [ORDER BY recorded_at], in the order of insertion where that ties. *)
Fixpoint insert_by_time (e : example_row) (l : list example_row) : list example_row :=
  match l with
  | [] => [e]
  | x :: l => if str_ltb (x_recorded_at e) (x_recorded_at x) then e :: x :: l else x :: insert_by_time e l
  end.
Definition examples : SM (list (Z * string)) :=
  _guard (query (fun t =>
    (fun e => (x_slot e, x_frame_png e)) <$> fold_left (fun acc e => insert_by_time e acc) (examples_t t) [])).

Definition record_candidate (c : TrainedCandidate) (trained_at : datetime) : SM Z :=
  _transaction (t ← liftR (_encode_time trained_at); execute (insert_model t c)).

Definition candidates : SM (list model_row) := _guard (query models_t).

Definition candidate_model (version : Z) : SM string :=
  row ← _guard (_ ← liftR (bind_ints [version]); query (fun t => head (filter (fun m => v_version m = version) (models_t t))));
  match row with
  | None => dataset_error ("no candidate model at version " +:+ str_of_Z version)
  | Some m => mret (model_blob (v_candidate m))
  end.

Definition activate (version : Z) (activated_at : datetime) : SM Z :=
  _transaction (
    _ ← liftR (bind_ints [version]);
    exists_ ← query (fun t => bool_decide (version ∈ v_version <$> models_t t));
    if negb (exists_ : bool) then dataset_error ("no candidate model at version " +:+ str_of_Z version)
    else t ← liftR (_encode_time activated_at); execute (insert_activation version t)).

Definition activations : SM (list activation_row) := _guard (query activations_t).

Definition active_version : SM (option Z) := _guard (query (fun t => a_version <$> last (activations_t t))).

Definition record_suggestion (version slot : Z) (confidence : spec_float) (captured_at suggested : datetime)
    (primer_present : option bool) : SM Z :=
  _transaction (
    c ← liftR (_encode_time captured_at);
    s ← liftR (_encode_time suggested);
    _ ← liftR (bind_ints [version; slot]);
    execute (insert_suggestion version slot confidence primer_present c s)).

Definition latest_suggestion : SM (option SuggestionRecord) := _guard (query (fun t => last (suggestions_t t))).

(** The newest of the rows; SQL leaves open which of two equally new ones, the first is taken. *)
Definition newest (l : list SuggestionRecord) : option SuggestionRecord :=
  fold_left (fun acc s =>
    match acc with
    | Some b => if str_ltb (suggested_at b) (suggested_at s) then Some s else acc
    | None => Some s
    end) l None.

(** The rows of the LEFT JOIN without a match, at or before the moment. *)
Definition unmatched (moment : string) (t : Tables) : list SuggestionRecord :=
  filter (fun s => suggestion_id s ∉ (o_suggestion_id <$> outcomes_t t) /\ str_ltb moment (suggested_at s) = false) (suggestions_t t).

Definition unmatched_suggestion_at_or_before (moment : datetime) : SM (option SuggestionRecord) :=
  _guard (m ← liftR (_encode_time moment); query (fun t => newest (unmatched m t))).

Definition record_suggestion_outcome (id : Z) (operation_id : string) (actual_slot : Z) (recorded_at : datetime) : SM Z :=
  _transaction (
    _ ← liftR (bind_ints [id]);
    row ← query (fun t => head (filter (fun s => suggestion_id s = id) (suggestions_t t)));
    match row with
    | None => dataset_error ("no suggestion at id " +:+ str_of_Z id)
    | Some s =>
        let correct := if suggested_slot s =? actual_slot then 1 else 0 in
        m ← liftR (_encode_time recorded_at);
        _ ← liftR (bind_ints [actual_slot]);
        execute (insert_outcome id operation_id actual_slot correct m)
    end).

Definition suggestion_accuracy : SM (Z * Z) :=
  _guard (query (fun t => (Z.of_nat (length (outcomes_t t)), foldr Z.add 0 (o_correct <$> outcomes_t t)))).

Definition autonomous_attempt_exists (id : Z) : SM bool :=
  _guard (_ ← liftR (bind_ints [id]); query (fun t => bool_decide (id ∈ at_suggestion_id <$> attempts_t t))).

Definition record_autonomous_attempt (id : Z) (operation_id : string) (slot : Z) (at_ : datetime) : SM Z :=
  _transaction (m ← liftR (_encode_time at_); _ ← liftR (bind_ints [id; slot]); execute (insert_attempt id operation_id slot m)).

Definition pending_autonomous_reviews : SM (list AutonomousAttempt) :=
  _guard (query (fun t => filter (fun a => attempt_id a ∉ (r_attempt_id <$> reviews_t t)) (attempts_t t))).

Definition record_autonomous_review (id : Z) (correct : bool) (reviewed_at : datetime) : SM Z :=
  _transaction (
    _ ← liftR (bind_ints [id]);
    exists_ ← query (fun t => bool_decide (id ∈ attempt_id <$> attempts_t t));
    if negb (exists_ : bool) then dataset_error ("no autonomous attempt at id " +:+ str_of_Z id)
    else m ← liftR (_encode_time reviewed_at); execute (insert_review id (if correct then 1 else 0) m)).

(** The reviews joined with their attempts. *)
Definition reviewed (t : Tables) : list (Z * Z) :=
  r ← reviews_t t;
  a ← filter (fun a => attempt_id a = r_attempt_id r) (attempts_t t);
  [(at_slot a, r_correct r)].

Definition autonomous_accuracy_by_class : SM (list (Z * (Z * Z))) :=
  _guard (query (fun t =>
    let rs := reviewed t in
    (fun s => let l := filter (fun p => p.1 = s) rs in (s, (Z.of_nat (length l), foldr Z.add 0 l.*2)))
      <$> slots_sorted rs.*1)).

(** ** The dataset as an append-only history *)

(** Identities count from 1 in the order of insertion. *)
Definition numbered (ids : list Z) : Prop := ids = seqZ 1 (Z.of_nat (length ids)).

Record tables_ok (t : Tables) : Prop := {
  to_examples : NoDup (x_operation_id <$> examples_t t);
  to_models : numbered (v_version <$> models_t t);
  to_activations : numbered (a_activation_id <$> activations_t t)
    /\ Forall (fun a => a_version a ∈ v_version <$> models_t t) (activations_t t);
  to_suggestions : numbered (suggestion_id <$> suggestions_t t)
    /\ Forall (fun s => model_version s ∈ v_version <$> models_t t /\ is_nan (sr_confidence s) = false) (suggestions_t t);
  to_outcomes : numbered (o_outcome_id <$> outcomes_t t)
    /\ NoDup (o_suggestion_id <$> outcomes_t t) /\ NoDup (o_operation_id <$> outcomes_t t)
    /\ Forall (fun o => exists s, s ∈ suggestions_t t /\ suggestion_id s = o_suggestion_id o
                 /\ o_correct o = (if suggested_slot s =? o_actual_slot o then 1 else 0)) (outcomes_t t);
  to_attempts : numbered (attempt_id <$> attempts_t t)
    /\ NoDup (at_suggestion_id <$> attempts_t t) /\ NoDup (at_operation_id <$> attempts_t t)
    /\ Forall (fun a => at_suggestion_id a ∈ suggestion_id <$> suggestions_t t) (attempts_t t);
  to_reviews : numbered (r_review_id <$> reviews_t t) /\ NoDup (r_attempt_id <$> reviews_t t)
    /\ Forall (fun r => r_attempt_id r ∈ attempt_id <$> attempts_t t /\ (r_correct r = 0 \/ r_correct r = 1)) (reviews_t t);
}.

(** Every table only grows at its end. *)
Record grows (t t' : Tables) : Prop := {
  gr_examples : examples_t t `prefix_of` examples_t t';
  gr_models : models_t t `prefix_of` models_t t';
  gr_activations : activations_t t `prefix_of` activations_t t';
  gr_suggestions : suggestions_t t `prefix_of` suggestions_t t';
  gr_outcomes : outcomes_t t `prefix_of` outcomes_t t';
  gr_attempts : attempts_t t `prefix_of` attempts_t t';
  gr_reviews : reviews_t t `prefix_of` reviews_t t';
}.
#[export] Instance grows_preorder : PreOrder grows.
Proof. split; [by split|]. intros a b c [] []. split; by etrans. Qed.

Lemma max_snoc l x : foldr Z.max 0 (l ++ [x]) = Z.max (foldr Z.max 0 l) (Z.max x 0).
Proof. induction l as [|y l IH]; simpl; lia. Qed.

Lemma next_id_numbered ids : numbered ids -> next_id ids = 1 + Z.of_nat (length ids) /\ numbered (ids ++ [next_id ids]).
Proof.
  intros Hn. assert (next_id ids = 1 + Z.of_nat (length ids)) as E.
  { unfold next_id. f_equal. unfold numbered in Hn. rewrite Hn at 1. generalize (length ids). intros n.
    induction n as [|n IH]; [done|]. rewrite seqZ_S, max_snoc, IH. lia. }
  split; [done|]. unfold numbered. rewrite length_app, Nat.add_1_r, seqZ_S, <- Hn, E. done.
Qed.

Lemma numbered_snoc {A} (f : A -> Z) l x : numbered (f <$> l) -> f x = next_id (f <$> l) -> numbered (f <$> (l ++ [x])).
Proof. intros Hn E. rewrite fmap_app. simpl. rewrite E. by apply next_id_numbered. Qed.

Lemma nodup_snoc {A B} (f : A -> B) l x : NoDup (f <$> l) -> f x ∉ f <$> l -> NoDup (f <$> (l ++ [x])).
Proof.
  intros Hn Hx. rewrite fmap_app. apply NoDup_app. split_and!; [done| |apply NoDup_singleton].
  intros y Hy ->%list_elem_of_singleton. done.
Qed.

Lemma forall_snoc {A} (P : A -> Prop) l x : Forall P l -> P x -> Forall P (l ++ [x]).
Proof. intros. apply Forall_app. split; [done|by constructor]. Qed.

Lemma grows_snoc {A} (l : list A) x : l `prefix_of` l ++ [x].
Proof. by apply prefix_app_r. Qed.

#[local] Hint Resolve numbered_snoc nodup_snoc forall_snoc grows_snoc : cs71.

Abbreviation law f := (lawful (E := vexn) tables_ok grows f).

(** Takes the guards of a statement as facts and leaves its new tables. *)
Ltac statement :=
  intros t t' a [? ? [? ?] [? ?] (? & ? & ? & ?) (? & ? & ? & ?) (? & ? & ?)] Hf; revert Hf;
  repeat (case_match || case_bool_decide); bool_inv; try done; intros [= <- <-];
  (split; [split; simpl; split_and?|split; simpl]); eauto with cs71.

Lemma insert_example_law r : law (insert_example r).
Proof. unfold insert_example. statement. Qed.
Lemma insert_model_law m c : law (insert_model m c).
Proof.
  unfold insert_model. statement.
  - eapply Forall_impl; [done|]. intros. rewrite fmap_app. set_solver.
  - eapply Forall_impl; [done|]. intros ? [? ?]. rewrite fmap_app. set_solver.
Qed.
Lemma insert_activation_law v m : law (insert_activation v m).
Proof. unfold insert_activation. statement. Qed.
Lemma insert_suggestion_law v sl c p m1 m2 : law (insert_suggestion v sl c p m1 m2).
Proof.
  unfold insert_suggestion. statement.
  - eapply Forall_impl; [done|]. intros o (s & Hs & ?). exists s. set_solver.
  - eapply Forall_impl; [done|]. intros. rewrite fmap_app. set_solver.
Qed.

(** The verdict is right when the suggestion it was computed from is still stored. *)
Lemma insert_outcome_law s op slot m t t' id : tables_ok t -> s ∈ suggestions_t t ->
  insert_outcome (suggestion_id s) op slot (if suggested_slot s =? slot then 1 else 0) m t = Ok (t', id) ->
  tables_ok t' /\ grows t t'.
Proof.
  unfold insert_outcome. intros [? ? [? ?] [? ?] (? & ? & ? & ?) (? & ? & ? & ?) (? & ? & ?)] Hs.
  repeat case_bool_decide; try done. intros [= <- _]. (split; [split; simpl; split_and?|split; simpl]); eauto with cs71.
Qed.

Lemma insert_attempt_law id op slot m : law (insert_attempt id op slot m).
Proof.
  unfold insert_attempt. statement. eapply Forall_impl; [done|]. intros ? [? ?]. rewrite fmap_app. set_solver.
Qed.
Lemma insert_review_law id b m : law (insert_review id (if b : bool then 1 else 0) m).
Proof. unfold insert_review. statement; destruct b; auto. Qed.

(** ** Every method is orderly *)

Abbreviation orderly' m := (orderly (E := vexn) tables_ok grows m).

Lemma orderly_open : orderly' _require_open.
Proof. intros c Hc. unfold _require_open. by destruct (cn_closed c). Qed.
Lemma orderly_error {A} msg : orderly' (dataset_error (A:=A) msg).
Proof. by intros c Hc. Qed.
#[local] Hint Resolve orderly_open orderly_error : cs71.

Lemma orderly_guard {A} (body : SM A) : orderly' body -> orderly' (_guard body).
Proof. intros Hb. unfold _guard. orderly_steps. Qed.
Lemma orderly_transaction {A} (body : SM A) : orderly' body -> orderly' (_transaction body).
Proof. intros Hb. unfold _transaction, sqlite_error. orderly_steps. Qed.
Lemma orderly_read {A} (f : Tables -> A) : orderly' (query f).
Proof. apply orderly_query. typeclasses eauto. Qed.
Lemma orderly_stmt {A} (f : Tables -> vresult (Tables * A)) : law f -> orderly' (execute f).
Proof. intros Hf. by apply orderly_execute; [typeclasses eauto|]. Qed.
#[local] Hint Resolve orderly_read orderly_stmt insert_example_law insert_model_law insert_activation_law
  insert_suggestion_law insert_attempt_law insert_review_law : cs71.

Ltac method :=
  unfold record_example, has_example, counts_by_slot, total_examples, examples, record_candidate, candidates, candidate_model,
    activate, activations, active_version, record_suggestion, latest_suggestion, unmatched_suggestion_at_or_before,
    suggestion_accuracy, autonomous_attempt_exists, record_autonomous_attempt,
    pending_autonomous_reviews, record_autonomous_review, autonomous_accuracy_by_class;
  repeat first [apply orderly_guard | apply orderly_transaction | orderly_step].

Lemma orderly_close : orderly' close.
Proof. intros c Hc. unfold close. destruct (cn_closed c); [done|]. destruct Hc. split; [by split|simpl; reflexivity]. Qed.

Lemma head_filter {A} (P : A -> Prop) `{!forall x, Decision (P x)} l x : head (filter P l) = Some x -> x ∈ l /\ P x.
Proof.
  intros Hh. apply head_Some_elem_of, list_elem_of_filter in Hh. tauto.
Qed.

Lemma orderly_outcome id op slot at_ : orderly' (record_suggestion_outcome id op slot at_).
Proof.
  unfold record_suggestion_outcome. apply orderly_transaction. apply orderly_bind; [typeclasses eauto|by intros ? ?|]. intros _.
  unfold query. apply orderly_query_bind; [typeclasses eauto|]. intros c Hc. destruct (head _) as [s|] eqn:Es; [|by split]. apply head_filter in Es as [Hs <-].
  unfold mbind, M_bind, liftR. destruct (_encode_time at_) as [m|e|]; [|by split..]. destruct (bind_ints [slot]) as [[]|e|]; [|by split..].
  unfold execute. apply execute_at; [typeclasses eauto|done|]. intros t' n Hok. by apply insert_outcome_law.
Qed.

(** ** The store as a state machine *)

Inductive dataset_call :=
| CExample (now : datetime) (operation_id : string) (slot : Z) (png : string) (captured created : datetime)
| CHasExample (operation_id : string) | CCounts | CTotal | CExamples
| CCandidate (c : TrainedCandidate) (trained_at : datetime) | CCandidates | CModel (version : Z)
| CActivate (version : Z) (at_ : datetime) | CActivations | CActive
| CSuggest (version slot : Z) (confidence : spec_float) (captured suggested : datetime) (primer : option bool)
| CLatest | CUnmatched (moment : datetime)
| COutcome (id : Z) (operation_id : string) (slot : Z) (at_ : datetime) | CAccuracy
| CAttempted (id : Z) | CAttempt (id : Z) (operation_id : string) (slot : Z) (at_ : datetime)
| CPending | CReview (id : Z) (correct : bool) (at_ : datetime) | CByClass | CClose.

Definition ignore {A} (m : SM A) : SM unit := _ ← m; mret tt.

Definition run_call (c : dataset_call) : SM unit :=
  match c with
  | CExample now op slot png captured created => ignore (record_example now op slot png captured created)
  | CHasExample op => ignore (has_example op)
  | CCounts => ignore counts_by_slot
  | CTotal => ignore total_examples
  | CExamples => ignore examples
  | CCandidate k t => ignore (record_candidate k t)
  | CCandidates => ignore candidates
  | CModel v => ignore (candidate_model v)
  | CActivate v t => ignore (activate v t)
  | CActivations => ignore activations
  | CActive => ignore active_version
  | CSuggest v s k c t p => ignore (record_suggestion v s k c t p)
  | CLatest => ignore latest_suggestion
  | CUnmatched m => ignore (unmatched_suggestion_at_or_before m)
  | COutcome id op slot t => ignore (record_suggestion_outcome id op slot t)
  | CAccuracy => ignore suggestion_accuracy
  | CAttempted id => ignore (autonomous_attempt_exists id)
  | CAttempt id op slot t => ignore (record_autonomous_attempt id op slot t)
  | CPending => ignore pending_autonomous_reviews
  | CReview id b t => ignore (record_autonomous_review id b t)
  | CByClass => ignore autonomous_accuracy_by_class
  | CClose => close
  end.

Lemma orderly_call c : orderly' (run_call c).
Proof.
  destruct c; simpl; [..|apply orderly_close]; unfold ignore; (apply orderly_bind; [typeclasses eauto| |intros; by intros ? ?]);
    try apply orderly_outcome; method.
Qed.

Definition dataset_step (s s' : DatasetStore) : Prop := exists c, s' = (run_call c s).1.

(** C39: whatever sequence of store calls runs and whichever statements fail or abort, the dataset stays an
    append-only history: every table only grows at its end, identities count from 1, every reference points
    at a stored row, there is one example per operation, one outcome per suggestion and per operation whose
    verdict is the comparison with the slot suggested, one autonomous attempt per suggestion and per
    operation, and one human review per attempt. *)
Theorem dataset_history_exact (s s' : DatasetStore) :
  cn_working s = None -> tables_ok (cn_committed s) -> rtc dataset_step s s' ->
  tables_ok (cn_committed s') /\ grows (cn_committed s) (cn_committed s').
Proof.
  intros Hw Hok Hr. assert (conn_ok tables_ok grows s) as Hs by (split; [done|by rewrite Hw]).
  assert (conn_ok tables_ok grows s' /\ grows (cn_committed s) (cn_committed s')) as [[? _] ?]; [|by split].
  apply (rtc_invariant dataset_step (fun x => conn_ok tables_ok grows x /\ grows (cn_committed s) (cn_committed x)) s); [|done|by split].
  intros x y [Hx Hg] [c ->]. destruct (orderly_call c x Hx). split; [done|by etrans].
Qed.

Definition demo_store : DatasetStore := connect_to Tables_empty [].
Definition demo_candidate : TrainedCandidate := mkTrainedCandidate "model" [1; 2] [] [] 5 40 10.

Lemma tables_empty_ok : tables_ok Tables_empty.
Proof. split; simpl; split_and?; try constructor; done. Qed.

Lemma dataset_history_exact_witness :
  let s := (run_call (CActivate 1 (utc 0)) (run_call (CCandidate demo_candidate (utc 0)) demo_store).1).1 in
  tables_ok (cn_committed s) /\ grows Tables_empty (cn_committed s).
Proof.
  intros s. apply (dataset_history_exact demo_store); [done|apply tables_empty_ok|].
  eapply rtc_l; [by eexists|]. eapply rtc_l; [by eexists|]. apply rtc_refl.
Defined.
