(* ===== verification/Training.v ===== *)
(** * Training a candidate (appliance/vision/src/cs71vision/training.py)

    The floor per class, the split into training and held-out examples, and the
    accuracy measured on the latter. OpenCV, scikit-learn and pickle are the class
    [Learning]; the generator behind [random.Random] is the class [Rng], its
    [shuffle] is modelled. *)
From S2P Require Import Prelude PyString PyFloat VisionErrors Routing Sqlite Dataset.

(** [cv2.imdecode] and [cv2.resize] with the division by 255; a fitted forest, its predictions and its pickle. *)
Class Learning (Vector Forest : Type) := {
  imdecode : string -> option Vector;
  forest_fit : Z -> list Vector -> list Z -> vresult Forest;
  forest_predict : Forest -> list Vector -> list Z;
  pickle_dumps : Forest -> string;
}.

(** [random.Random(seed)] and [_randbelow(n)]. *)
Class Rng (R : Type) := { rng_seed : Z -> R; rng_below : R -> Z -> R * Z }.

Definition _DEFAULT_HOLDOUT_FRACTION : spec_float := S754_finite false 7205759403792794 (-55).

(** ** Shuffling *)

Section Shuffle.
Context {R : Type} `{Rng R} {A : Type}.

(** [x[i], x[j] = x[j], x[i]] *)
Definition swap (i j : nat) (l : list A) : list A :=
  match l !! i, l !! j with
  | Some a, Some b => <[i := b]> (<[j := a]> l)
  | _, _ => l
  end.

(** [for i in reversed(range(1, len(x))): j = randbelow(i + 1); swap]; [i] counts down from the last index. *)
Fixpoint shuffle_from (i : nat) (r : R) (l : list A) : R * list A :=
  match i with
  | O => (r, l)
  | S i' => let p := rng_below r (Z.of_nat i + 1) in shuffle_from i' p.1 (swap i (Z.to_nat p.2) l)
  end.
Definition shuffle (r : R) (l : list A) : R * list A := shuffle_from (length l - 1) r l.

Lemma swap_permutation i j l : swap i j l ≡ₚ l.
Proof. unfold swap. destruct (l !! i) eqn:Ei, (l !! j) eqn:Ej; try done. by apply Permutation_insert_swap. Qed.

Lemma shuffle_permutation r l : (shuffle r l).2 ≡ₚ l.
Proof.
  unfold shuffle. generalize (length l - 1)%nat. intros i. revert r l.
  induction i as [|i IH]; intros r l; [done|]. cbn [shuffle_from]. by rewrite IH, swap_permutation.
Qed.
End Shuffle.

(** ** The candidate *)

Abbreviation DatasetExample := (Z * string)%type.

Section Training.
Context {Vector Forest R : Type} `{Learning Vector Forest} `{Rng R}.

Definition extract_features (frame_png : string) : vresult Vector :=
  match imdecode frame_png with
  | Some v => Ok v
  | None => vthrow FeatureError "could not decode a captured frame as an image"
  end.

Fixpoint extract_all (items : list DatasetExample) : vresult (list Vector) :=
  match items with
  | [] => Ok []
  | item :: items => v ← extract_features item.2; l ← extract_all items; Ok (v :: l)
  end.

(** [by_slot.setdefault(example.slot, []).append(example)] over the examples. *)
Definition group_add (by_slot : list (Z * list DatasetExample)) (e : DatasetExample) : list (Z * list DatasetExample) :=
  dict_set e.1 (default [] (dict_get e.1 by_slot) ++ [e]) by_slot.
Definition group (examples : list DatasetExample) : list (Z * list DatasetExample) := fold_left group_add examples [].

Definition sorted_slots (l : list Z) : list Z := merge_sort Z.le l.

Definition included_slots (minimum : Z) (by_slot : list (Z * list DatasetExample)) : list Z :=
  sorted_slots (filter (fun p => minimum <= Z.of_nat (length p.2)) by_slot).*1.
Definition excluded_slots (minimum : Z) (by_slot : list (Z * list DatasetExample)) : list Z :=
  sorted_slots (filter (fun slot => slot ∉ included_slots minimum by_slot) by_slot.*1).

Definition holdout_count (fraction : spec_float) (n : Z) : Z :=
  Z.min (if 1 <? n then Z.max 1 (round_half_even (SFmul 53 1024 (float_of_int n) fraction)) else 0) (n - 1).

(** What the loop over the classes has gathered: the training features with their labels, and the held-out
    features per class. *)
Record Split := mkSplit { sp_rng : R; sp_train : list (Vector * Z); sp_holdout : list (Z * list Vector) }.

(** One class: its examples shuffled, the first ones held out. *)
Definition split_class (fraction : spec_float) (by_slot : list (Z * list DatasetExample)) (s : Split) (slot : Z) : vresult Split :=
  let p := shuffle (sp_rng s) (default [] (dict_get slot by_slot)) in
  let k := Z.to_nat (holdout_count fraction (Z.of_nat (length p.2))) in
  train ← extract_all (drop k p.2);
  held ← extract_all (take k p.2);
  Ok (mkSplit p.1 (sp_train s ++ ((fun v => (v, slot)) <$> train))
        (match held with [] => sp_holdout s | _ => sp_holdout s ++ [(slot, held)] end)).

Fixpoint split_classes (fraction : spec_float) (by_slot : list (Z * list DatasetExample)) (slots : list Z) (s : Split) : vresult Split :=
  match slots with
  | [] => Ok s
  | slot :: slots => s ← split_class fraction by_slot s slot; split_classes fraction by_slot slots s
  end.

(** The share of the held-out examples of one class that the forest puts into that class. *)
Definition class_accuracy (f : Forest) (p : Z * list Vector) : Z * spec_float :=
  (p.1, true_div (Z.of_nat (length (filter (fun label => label = p.1) (forest_predict f p.2)))) (Z.of_nat (length p.2))).

Definition train_candidate (examples : list DatasetExample) (minimum : Z) (fraction : spec_float) (seed : Z) : vresult TrainedCandidate :=
  if negb (SFltb (S754_zero false) fraction && SFltb fraction (float_of_int 1))
  then vthrow VisionValueError "holdout_fraction must be between 0 and 1"
  else
    let by_slot := group examples in
    let included := included_slots minimum by_slot in
    let excluded := excluded_slots minimum by_slot in
    if (length included <? 2)%nat
    then vthrow TrainingError ("at least two classes must clear the minimum-example floor to train a classifier; "
                                 +:+ str_of_Z (Z.of_nat (length included)) +:+ " did")
    else
      s ← split_classes fraction by_slot included (mkSplit (rng_seed seed) [] []);
      forest ← forest_fit seed (sp_train s).*1 (sp_train s).*2;
      Ok (mkTrainedCandidate (pickle_dumps forest) included excluded (class_accuracy forest <$> sp_holdout s) minimum
            (Z.of_nat (length (sp_train s))) (Z.of_nat (sum_list (length <$> (sp_holdout s).*2)))).
End Training.
