(* ===== verification/TrainingSpec.v ===== *)
(** * What a trained candidate is

    The classes it was trained on, what the forest saw, and what its accuracy was
    measured on. *)
From S2P Require Import Prelude PyString PyFloat VisionErrors Routing Sqlite Dataset Training.

(** ** Grouping *)

Definition of_class (slot : Z) (examples : list DatasetExample) : list DatasetExample := filter (fun e => e.1 = slot) examples.

Lemma dict_get_set {V} k j (v : V) d : dict_get j (dict_set k v d) = if k =? j then Some v else dict_get j d.
Proof.
  induction d as [|[k' v'] d IH]; simpl; [done|]. destruct (Z.eqb_spec k' k) as [->|Hne]; simpl; [by destruct (k =? j)|].
  rewrite IH. destruct (Z.eqb_spec k' j) as [->|]; [|done]. by rewrite (proj2 (Z.eqb_neq k j)).
Qed.

Lemma dict_set_keys {V} k (v : V) d : (dict_set k v d).*1 = if bool_decide (k ∈ d.*1) then d.*1 else d.*1 ++ [k].
Proof.
  induction d as [|[k' v'] d IH]; [done|]. csimpl. destruct (Z.eqb_spec k' k) as [->|Hne]; csimpl.
  - by rewrite bool_decide_true by by left.
  - rewrite IH. case_bool_decide as H1; [rewrite bool_decide_true by (by right); done|].
    rewrite bool_decide_false by (intros [->|?]%elem_of_cons; done). done.
Qed.

Lemma dict_get_in {V} k (d : list (Z * V)) : is_Some (dict_get k d) <-> k ∈ d.*1.
Proof.
  induction d as [|[k' v'] d IH]; [split; [by intros [? ?]|by intros ?%not_elem_of_nil]|]. csimpl. rewrite elem_of_cons.
  destruct (Z.eqb_spec k' k) as [->|Hne]; [split; [by left|by eexists]|]. rewrite IH. split; [by right|by intros [->|?]].
Qed.

Lemma dict_get_elem {V} k (v : V) d : NoDup d.*1 -> (k, v) ∈ d <-> dict_get k d = Some v.
Proof.
  induction d as [|[k' v'] d IH]; intros Hn; [split; [by intros ?%not_elem_of_nil|done]|]. csimpl in *. apply NoDup_cons in Hn as [Hk Hn].
  rewrite elem_of_cons. destruct (Z.eqb_spec k' k) as [->|Hne].
  - split; [intros [[= ->]|Hin]; [done|]|intros [= ->]; by left]. destruct Hk. by apply (list_elem_of_fmap_2 fst) in Hin.
  - rewrite <- IH by done. split; [intros [[= -> ->]|?]; done|by right].
Qed.

(** The groups are the classes that occur, each with its examples in their order. *)
Lemma group_exact examples :
  NoDup (group examples).*1 /\ (forall slot, slot ∈ (group examples).*1 <-> slot ∈ examples.*1)
  /\ forall slot, default [] (dict_get slot (group examples)) = of_class slot examples.
Proof.
  unfold group. induction examples as [|e l IH] using rev_ind; [split; [constructor|split; [done|done]]|].
  rewrite fold_left_app. cbn [fold_left]. destruct IH as (Hn & Hk & Hd).
  set (acc := fold_left group_add l []) in *. clearbody acc. unfold group_add. rewrite dict_set_keys. split_and!.
  - case_bool_decide as Hin; [done|]. apply NoDup_app. split_and!; [done|intros x Hx ->%list_elem_of_singleton; done|apply NoDup_singleton].
  - intros slot. rewrite fmap_app. csimpl. case_bool_decide as Hin; rewrite !elem_of_app, <- Hk, ?list_elem_of_singleton; [split; [by left|intros [?| ->]; done]|done].
  - intros slot. rewrite dict_get_set. unfold of_class in *. rewrite filter_app, filter_cons, filter_nil, <- Hd.
    destruct (Z.eqb_spec e.1 slot) as [->|Hne]; [by rewrite decide_True|by rewrite decide_False, app_nil_r].
Qed.

Lemma of_class_empty slot examples : of_class slot examples = [] <-> slot ∉ examples.*1.
Proof.
  unfold of_class. rewrite list_elem_of_fmap. split.
  - intros E (e & -> & He). assert (e ∈ filter (fun x : DatasetExample => x.1 = e.1) examples) as Hin by (by apply list_elem_of_filter).
    rewrite E in Hin. by apply not_elem_of_nil in Hin.
  - intros Hno. apply filter_none, Forall_forall. intros e He E. apply Hno. by exists e.
Qed.

(** ** The floor *)

Lemma sorted_slots_perm l : sorted_slots l ≡ₚ l.
Proof. apply merge_sort_Permutation. Qed.

Section Floor.
Context (minimum : Z) (examples : list DatasetExample).
Abbreviation by_slot := (group examples).
Abbreviation count slot := (Z.of_nat (length (of_class slot examples))).

Lemma included_exact slot : slot ∈ included_slots minimum by_slot <-> slot ∈ examples.*1 /\ minimum <= count slot.
Proof.
  destruct (group_exact examples) as (Hn & Hk & Hd). unfold included_slots. rewrite sorted_slots_perm, list_elem_of_fmap. split.
  - intros ([s items] & -> & Hin). apply list_elem_of_filter in Hin as [Hm Hin]. cbn [fst snd] in *.
    split; [apply Hk; by apply (list_elem_of_fmap_2 fst) in Hin|]. apply dict_get_elem in Hin; [|done]. by rewrite <- Hd, Hin.
  - intros [Hin Hm]. apply Hk, dict_get_in in Hin as [items Hi]. exists (slot, items). split; [done|].
    apply list_elem_of_filter. split; [|by apply dict_get_elem]. cbn [snd]. specialize (Hd slot). rewrite Hi in Hd. cbn in Hd. by rewrite Hd.
Qed.

Lemma included_nodup : NoDup (included_slots minimum by_slot).
Proof.
  destruct (group_exact examples) as (Hn & _ & _). unfold included_slots. rewrite sorted_slots_perm.
  eapply sublist_NoDup; [exact Hn|]. apply fmap_sublist, sublist_filter.
Qed.

Lemma excluded_exact slot : slot ∈ excluded_slots minimum by_slot <-> slot ∈ examples.*1 /\ count slot < minimum.
Proof.
  destruct (group_exact examples) as (Hn & Hk & Hd). unfold excluded_slots. rewrite sorted_slots_perm, list_elem_of_filter, included_exact, Hk.
  split; [intros [H1 H2]; split; [done|]; apply Z.nle_gt; tauto|intros [H1 H2]; split; [lia|done]].
Qed.
End Floor.

(** ** The split *)

Section Training.
Context {Vector Forest R : Type} `{Learning Vector Forest} `{Rng R}.

Definition features (items : list DatasetExample) : list Vector := omap (fun e => imdecode e.2) items.

Lemma extract_all_features items l : extract_all items = Ok l -> l = features items /\ length l = length items.
Proof.
  revert l. induction items as [|e items IH]; intros l; cbn [extract_all]; [by intros [= <-]|]. intros Hl.
  apply res_bind_ok in Hl as (v & Hv & Hl). apply res_bind_ok in Hl as (k & Hk & [= <-]). apply IH in Hk as [-> Hlen].
  unfold extract_features in Hv. unfold features in *. csimpl. destruct (imdecode e.2) as [w|]; [|done]. simplify_eq. csimpl. by rewrite Hlen.
Qed.

(** The examples of a class, trained on and held out. *)
Record part_of (fraction : spec_float) (examples : list DatasetExample) (slot : Z) (train held : list DatasetExample) : Prop := {
  po_all : train ++ held ≡ₚ of_class slot examples;
  po_held : Z.of_nat (length held) = holdout_count fraction (Z.of_nat (length (of_class slot examples)));
}.

Lemma holdout_bounds fraction n : 1 <= n -> 0 <= holdout_count fraction n < n /\ (holdout_count fraction n = 0 <-> n = 1).
Proof. intros Hn. unfold holdout_count. destruct (Z.ltb_spec 1 n); lia. Qed.

Lemma split_class_exact fraction examples s slot s' : slot ∈ examples.*1 ->
  split_class fraction (group examples) s slot = Ok s' ->
  exists train held, part_of fraction examples slot train held
    /\ sp_train s' = sp_train s ++ ((fun v => (v, slot)) <$> features train)
    /\ sp_holdout s' = sp_holdout s ++ (if bool_decide (held = []) then [] else [(slot, features held)])
    /\ length (features train) = length train /\ length (features held) = length held.
Proof.
  intros Hin Hs. unfold split_class in Hs. destruct (group_exact examples) as (_ & _ & Hd). rewrite Hd in Hs.
  pose proof (shuffle_permutation (sp_rng s) (of_class slot examples)) as Hp. set (p := shuffle _ _) in *.
  set (k := Z.to_nat _) in *. apply res_bind_ok in Hs as (tr & Ht & Hs). apply res_bind_ok in Hs as (hd & Hh & [= <-]).
  apply extract_all_features in Ht as [-> Ht]. apply extract_all_features in Hh as [-> Hh].
  assert (1 <= Z.of_nat (length (of_class slot examples))) as Hlen.
  { destruct (of_class slot examples) eqn:E; [by apply of_class_empty in E|simpl; lia]. }
  pose proof (holdout_bounds fraction _ Hlen) as [Hb _]. pose proof (Permutation_length Hp) as Hpl.
  exists (drop k p.2), (take k p.2). split_and!; [split| | | |].
  - by rewrite Permutation_app_comm, take_drop.
  - rewrite length_take. subst k. rewrite Hpl. lia.
  - done.
  - cbn [sp_holdout]. destruct (take k p.2) as [|e l]; [by rewrite app_nil_r|]. rewrite bool_decide_false by done.
    destruct (features (e :: l)) eqn:E; [done|done].
  - done.
  - done.
Qed.

(** The loop over distinct classes, as one choice of parts per class. *)
Lemma split_classes_exact fraction examples slots s s' : NoDup slots -> (forall slot, slot ∈ slots -> slot ∈ examples.*1) ->
  split_classes fraction (group examples) slots s = Ok s' ->
  exists train held : Z -> list DatasetExample,
    (forall slot, slot ∈ slots -> part_of fraction examples slot (train slot) (held slot)
       /\ length (features (train slot)) = length (train slot) /\ length (features (held slot)) = length (held slot))
    /\ sp_train s' = sp_train s ++ (slots ≫= fun slot => (fun v => (v, slot)) <$> features (train slot))
    /\ sp_holdout s' = sp_holdout s ++ (slots ≫= fun slot => if bool_decide (held slot = []) then [] else [(slot, features (held slot))]).
Proof.
  revert s. induction slots as [|slot slots IH]; intros s Hn Hin Hs; cbn [split_classes] in Hs.
  { injection Hs as <-. exists (fun _ => []), (fun _ => []). split_and!; [by intros ? ?%not_elem_of_nil|by rewrite app_nil_r..]. }
  apply NoDup_cons in Hn as [Hx Hn]. apply res_bind_ok in Hs as (s1 & H1 & H2).
  apply split_class_exact in H1 as (tr & hd & Hpart & Ht1 & Hh1 & Hl1 & Hl2); [|apply Hin; by left].
  apply IH in H2 as (train & held & Hparts & Ht2 & Hh2); [|done|intros; apply Hin; by right].
  exists (fun x => if decide (x = slot) then tr else train x), (fun x => if decide (x = slot) then hd else held x).
  assert (forall x, x ∈ slots -> x <> slot) as Hne by (intros x Hx' ->; done). split_and!.
  - intros x Hx'. case_decide as E; [by subst|]. apply Hparts. by apply elem_of_cons in Hx' as [->|].
  - rewrite Ht2, Ht1, <- app_assoc, bind_cons, decide_True by done. do 2 f_equal.
    apply Forall_bind_ext, Forall_forall. intros x Hx'. by rewrite decide_False by auto.
  - rewrite Hh2, Hh1, <- app_assoc, bind_cons, decide_True by done. do 2 f_equal.
    apply Forall_bind_ext, Forall_forall. intros x Hx'. by rewrite !decide_False by auto.
Qed.

Lemma length_bind_sum {A B} (f : A -> list B) l : length (l ≫= f) = sum_list ((fun x => length (f x)) <$> l).
Proof. induction l as [|x l IH]; [done|]. rewrite bind_cons, length_app, fmap_cons. simpl. by rewrite IH. Qed.

Lemma fmap_bind_list {A B C} (g : B -> C) (f : A -> list B) l : g <$> (l ≫= f) = l ≫= fun x => g <$> f x.
Proof. induction l as [|x l IH]; [done|]. by rewrite !bind_cons, fmap_app, IH. Qed.

Lemma list_fmap_ext_strong {A B} (f g : A -> B) (l : list A) : (forall x, x ∈ l -> f x = g x) -> f <$> l = g <$> l.
Proof. intros Hfg. apply list_fmap_ext. intros i x Hx. apply Hfg. by eapply list_elem_of_lookup_2. Qed.

Lemma sum_list_plus (l k : list nat) : sum_list (l ++ k) = (sum_list l + sum_list k)%nat.
Proof. induction l as [|x l IH]; simpl; lia. Qed.

Lemma held_count (held : Z -> list DatasetExample) slots :
  sum_list (length <$> (slots ≫= fun slot => if bool_decide (held slot = []) then [] else [(slot, features (held slot))]).*2)
  = sum_list ((fun slot => length (features (held slot))) <$> slots).
Proof.
  induction slots as [|slot slots IH]; [done|]. rewrite bind_cons, !fmap_app, sum_list_plus, IH. csimpl.
  case_bool_decide as E; [by rewrite E|]. csimpl. lia.
Qed.

Lemma parts_count (included : list Z) (train held : Z -> list DatasetExample) examples fraction :
  (forall slot, slot ∈ included -> part_of fraction examples slot (train slot) (held slot)) ->
  (sum_list ((fun s => length (train s)) <$> included) + sum_list ((fun s => length (held s)) <$> included)
   = sum_list ((fun s => length (of_class s examples)) <$> included))%nat.
Proof.
  induction included as [|s l IH]; intros Hp; [done|]. csimpl. rewrite <- (Permutation_length (po_all _ _ _ _ _ (Hp s ltac:(by left)))), length_app.
  rewrite <- IH by (intros; apply Hp; by right). lia.
Qed.

(** The classes of a candidate, whatever else it holds. *)
Lemma candidate_classes examples minimum fraction seed c : train_candidate examples minimum fraction seed = Ok c ->
  included_classes c = included_slots minimum (group examples) /\ (2 <= length (included_classes c))%nat.
Proof.
  unfold train_candidate. destruct (negb _); [done|]. destruct (Nat.ltb_spec (length (included_slots minimum (group examples))) 2); [done|].
  destruct (split_classes _ _ _ _); cbn [mbind res_bind]; [|done..]. destruct (forest_fit _ _ _); cbn [mbind res_bind]; [|done..].
  by intros [= <-].
Qed.

(** C21: what a trained candidate is. When training succeeds, the included classes are exactly those with at least the
    minimum of examples, in order, at least two of them, and the excluded ones are the rest. Every included class was split, without
    loss or repetition, into examples trained on, at least one, and examples held out, at least one unless the
    class has a single example; the forest was fitted on the features of the former alone, each under its own
    class; the accuracy of a class is measured on its held-out examples alone, and a class that has none has no
    accuracy; and the counts add up. With fewer than two such classes the answer is [TrainingError]. *)
Theorem trained_candidate_exact (examples : list DatasetExample) (minimum : Z) (fraction : spec_float) (seed : Z) :
  SFltb (S754_zero false) fraction && SFltb fraction (float_of_int 1) = true ->
  let clears slot := slot ∈ examples.*1 /\ minimum <= Z.of_nat (length (of_class slot examples)) in
  exists included, NoDup included /\ StronglySorted Z.le included /\ (forall slot, slot ∈ included <-> clears slot)
  /\ match train_candidate examples minimum fraction seed with
     | Ok c =>
         (2 <= length included)%nat /\ included_classes c = included /\ minimum_examples_per_class c = minimum
         /\ (forall slot, slot ∈ excluded_classes c <-> slot ∈ examples.*1 /\ ~ clears slot)
         /\ exists (train held : Z -> list DatasetExample) (forest : Forest),
              (forall slot, slot ∈ included ->
                 train slot ++ held slot ≡ₚ of_class slot examples /\ train slot <> []
                 /\ (held slot = [] <-> length (of_class slot examples) = 1%nat))
              /\ forest_fit seed (included ≫= fun slot => features (train slot))
                   (included ≫= fun slot => (fun _ => slot) <$> features (train slot)) = Ok forest
              /\ model_blob c = pickle_dumps forest
              /\ accuracy_by_class c = (included ≫= fun slot =>
                   if bool_decide (held slot = []) then [] else [class_accuracy forest (slot, features (held slot))])
              /\ training_example_count c + holdout_example_count c
                 = Z.of_nat (sum_list ((fun slot => length (of_class slot examples)) <$> included))
     | Err e => (length included < 2)%nat -> vinstance e TrainingError = true
     | OutOfFuel => (2 <= length included)%nat
     end.
Proof.
  intros Hf clears. exists (included_slots minimum (group examples)). split_and!; [apply included_nodup| |intros; apply included_exact|].
  { unfold included_slots, sorted_slots. apply StronglySorted_merge_sort; typeclasses eauto. }
  unfold train_candidate. rewrite Hf. cbn [negb]. pose proof (included_nodup minimum examples) as Hn.
  pose proof (included_exact minimum examples) as Hi. pose proof (excluded_exact minimum examples) as He.
  set (included := included_slots minimum (group examples)) in *. destruct (Nat.ltb_spec (length included) 2) as [Hlt|Hge].
  { intros _. done. }
  destruct (split_classes _ _ _ _) as [s|e|] eqn:Es; cbn [mbind res_bind]; [|intros; lia|done].
  apply split_classes_exact in Es as (train & held & Hparts & Ht & Hh); [|done|intros slot ?%Hi; tauto]. cbn [sp_train sp_holdout app] in Ht, Hh.
  destruct (forest_fit _ _ _) as [forest|e|] eqn:Ef; cbn [mbind res_bind]; [|intros; lia|done].
  split_and!; [done..| |].
  { intros slot. cbn [excluded_classes]. rewrite He. subst clears. cbv beta. split; [intros [? ?]; split; [done|lia]|intros [? Hno]; split; [done|]].
    apply Z.nle_gt. tauto. }
  exists train, held, forest. split_and!; [|rewrite <- Ef, Ht, !fmap_bind_list; f_equal; apply Forall_bind_ext, Forall_forall; intros slot _; rewrite <- list_fmap_compose;
    [symmetry; apply list_fmap_id|done]|done|by cbn [accuracy_by_class]; rewrite Hh, fmap_bind_list;
    apply Forall_bind_ext, Forall_forall; intros slot _; by case_bool_decide|].
  - intros slot Hin. destruct (Hparts slot Hin) as ([Hall Hlen] & _ & _). split; [done|].
    pose proof (Permutation_length Hall) as Hpl. rewrite length_app in Hpl.
    assert (1 <= Z.of_nat (length (of_class slot examples))) as Hone.
    { destruct (of_class slot examples) eqn:E; [|simpl; lia]. apply of_class_empty in E. apply Hi in Hin. tauto. }
    pose proof (holdout_bounds fraction _ Hone) as [Hb Hz]. split.
    + intros E. rewrite E in Hpl. simpl in Hpl. lia.
    + rewrite <- length_zero_iff_nil. lia.
  - cbn [training_example_count holdout_example_count]. rewrite Ht, Hh, held_count, length_bind_sum.
    rewrite <- (parts_count included train held examples fraction) by (intros slot Hin; apply (Hparts slot Hin)). rewrite Nat2Z.inj_add. f_equal; f_equal.
    + f_equal. apply list_fmap_ext_strong; intros slot Hin. rewrite length_fmap. apply Hparts, Hin.
    + f_equal. apply list_fmap_ext_strong; intros slot Hin. apply Hparts, Hin.
Qed.
End Training.
