(* ===== verification/Vision.v ===== *)
(** * Correlation, suggestion and autonomy (appliance/vision/src/cs71vision)

    The three loops of the vision service over its store, its frame buffer, its
    routing session and its client of the daemon: correlator.py labels confirmed
    sorts, classifier.py suggests, primer.py and autonomy.py gate what may be
    submitted. The trained model is a parameter, and so is the daemon behind the
    client. *)
From Stdlib Require Import SpecFloat.
From S2P Require Import Prelude PyString Errors IsoTime Operations VisionErrors Routing Sqlite Dataset.

(** ** Frames *)

Record Frame := mkFrame { fr_png : string; fr_width : Z; fr_height : Z; captured_at : Z }.

Record FrameBuffer := mkFrameBuffer { _frames : list Frame; fb_capacity : nat }.

Definition FrameBuffer_make (capacity : Z) : vresult FrameBuffer :=
  if capacity <=? 0 then vthrow VisionValueError "capacity must be positive" else Ok (mkFrameBuffer [] (Z.to_nat capacity)).

Definition add (f : Frame) (b : FrameBuffer) : FrameBuffer :=
  mkFrameBuffer (push_bounded (fb_capacity b) (_frames b) f) (fb_capacity b).

Definition closest_at_or_before (moment : Z) (b : FrameBuffer) : option Frame :=
  fold_left (fun candidate f =>
    if (captured_at f <=? moment)
       && match candidate with None => true | Some c => captured_at c <? captured_at f end
    then Some f else candidate) (_frames b) None.

Definition latest (b : FrameBuffer) : option Frame := last (_frames b).

(** ** The primer axis and the gate *)

Definition requires_operator_confirmation (primer_present : option bool) : bool :=
  negb (bool_decide (primer_present = Some false)).

Record Suggestion := mkSuggestion' { su_slot : Z; su_confidence : spec_float; su_primer_present : option bool }.

Definition may_autonomously_sort (s : Suggestion) (thresholds : gmap Z spec_float) : bool :=
  if requires_operator_confirmation (su_primer_present s) then false
  else match thresholds !! su_slot s with
       | None => false
       | Some threshold => SFleb threshold (su_confidence s)
       end.

Definition _idempotency_key (id : Z) : string := "autonomous-sort-" +:+ str_of_Z id.

(** ** The daemon behind its client *)

Record SortSuccess := mkSortSuccess { ss_operation_id : string; ss_slot : Z; ss_created_at : string }.

Class DaemonClient (D : Type) := {
  recent_sort_successes : M D vexn (list SortSuccess);
  current_generation : M D vexn Z;
  submit_sort : Z -> Z -> string -> M D vexn string;
}.

(** The state of the service. *)
Record Service (D : Type) := mkService {
  store : DatasetStore;
  daemon : D;
  buffer : FrameBuffer;
  routing : RoutingSession;
}.
Arguments mkService {D}.
Arguments store {D}.
Arguments daemon {D}.
Arguments buffer {D}.
Arguments routing {D}.

Section Service.
Context {D : Type} `{DaemonClient D}.
Abbreviation Service := (Service D).
Abbreviation VM := (M Service vexn).

Definition on_store {A} (m : M DatasetStore vexn A) : VM A := fun x =>
  let p := m (store x) in (mkService p.1 (daemon x) (buffer x) (routing x), p.2).
Definition on_daemon {A} (m : M D vexn A) : VM A := fun x =>
  let p := m (daemon x) in (mkService (store x) p.1 (buffer x) (routing x), p.2).
Definition on_routing {A} (m : M RoutingSession vexn A) : VM A := fun x =>
  let p := m (routing x) in (mkService (store x) (daemon x) (buffer x) p.1, p.2).

(** *** Correlator *)

Definition _match_suggestion (operation_id : string) (actual_slot created_at : Z) : VM unit :=
  suggestion ← on_store (unmatched_suggestion_at_or_before (utc created_at));
  match suggestion with
  | None => mret tt
  | Some s => _ ← on_store (record_suggestion_outcome (suggestion_id s) operation_id actual_slot (utc created_at)); mret tt
  end.

(** The body of the loop: how many examples this success added. *)
Definition correlate (now : datetime) (success : SortSuccess) : VM Z :=
  seen ← on_store (has_example (ss_operation_id success));
  if seen : bool then mret 0
  else
    match fromisoformat (ss_created_at success) with
    | Ok created_at =>
        x ← getS;
        match closest_at_or_before created_at (buffer x) with
        | None => mret 0
        | Some frame =>
            added ← on_store (record_example now (ss_operation_id success) (ss_slot success) (fr_png frame)
                                (utc (captured_at frame)) (utc created_at));
            if added : bool
            then _ ← _match_suggestion (ss_operation_id success) (ss_slot success) created_at; mret 1
            else mret 0
        end
    | _ => mret 0
    end.

Fixpoint correlate_all (now : datetime) (l : list SortSuccess) : VM Z :=
  match l with
  | [] => mret 0
  | s :: l => n ← correlate now s; m ← correlate_all now l; mret (n + m)
  end.

Definition poll_once (now : datetime) : VM Z :=
  r ← try_case (on_daemon recent_sort_successes) (fun l => mret (Some l))
        (fun e => if vinstance e DaemonClientError then mret None else raise e);
  match r with
  | None => mret 0
  | Some successes => correlate_all now successes
  end.

(** *** FrameSuggester *)

(** [classify_frame]: the model's class and confidence, never a primer reading. *)
Definition classify_frame (predict : string -> string -> vresult (Z * spec_float)) (blob png : string) : vresult Suggestion :=
  p ← predict blob png; Ok (mkSuggestion' p.1 p.2 None).

Definition suggest_once (predict : string -> string -> vresult (Z * spec_float)) (now : datetime) : VM Z :=
  active ← on_store active_version;
  match active with
  | None => mret 0
  | Some version =>
      x ← getS;
      match latest (buffer x) with
      | None => mret 0
      | Some frame =>
          blob ← try_case (on_store (candidate_model version)) (fun b => mret (Some b))
                   (fun e => if vinstance e DatasetError then mret None else raise e);
          match blob with
          | None => mret 0
          | Some blob =>
              match classify_frame predict blob (fr_png frame) with
              | Ok s =>
                  slot ← on_routing (route (su_slot s));
                  _ ← on_store (record_suggestion version slot (su_confidence s) (utc (captured_at frame)) now (su_primer_present s));
                  mret 1
              | Err e => if vinstance e ClassificationError then mret 0 else raise e
              | OutOfFuel => fun x => (x, OutOfFuel)
              end
          end
      end
  end.

(** *** Autonomist *)

Definition attempt_once (thresholds : gmap Z spec_float) (now : datetime) : VM Z :=
  record ← on_store latest_suggestion;
  match record with
  | None => mret 0
  | Some r =>
      attempted ← on_store (autonomous_attempt_exists (suggestion_id r));
      if attempted : bool then mret 0
      else
        let suggestion := mkSuggestion' (suggested_slot r) (sr_confidence r) (sr_primer_present r) in
        if negb (may_autonomously_sort suggestion thresholds) then mret 0
        else
          op ← try_case
                 (g ← on_daemon current_generation;
                  on_daemon (submit_sort (su_slot suggestion) g (_idempotency_key (suggestion_id r))))
                 (fun op => mret (Some op))
                 (fun e => if vinstance e DaemonClientError then mret None else raise e);
          match op with
          | None => mret 0
          | Some op =>
              _ ← on_store (record_autonomous_attempt (suggestion_id r) op (su_slot suggestion) now);
              mret 1
          end
  end.
End Service.
