(* ===== verification/VisionLoops.v ===== *)
(** * The loop threads of the vision service (appliance/vision/src/cs71vision/runtime.py, classifier.py)

    [CorrelationLoop], [SuggestionLoop] and [AutonomyLoop] are one class three times: a thread that runs
    its tick, swallows whatever it raises, and waits. Here they are one definition over the tick, with its three instances, and the
    prediction the suggestion loop makes of a stored model. *)
From Stdlib Require Import SpecFloat.
From S2P Require Import Prelude PyString Errors IsoTime Operations VisionErrors Routing Sqlite Dataset Training Vision.

(** ** A loop *)

(** [interval_ms], the stop event, whether a thread is held, and the loop's own store. *)
Record Loop := mkLoop { interval_ms : Z; stop_set : bool; running : bool; loop_store : DatasetStore }.

Definition Loop_make (store : DatasetStore) (interval_ms : Z) : vresult Loop :=
  if interval_ms <=? 0 then vthrow VisionValueError "interval_ms must be positive" else Ok (mkLoop interval_ms false false store).

(** [start]: whether a thread is started. *)
Definition loop_start (l : Loop) : Loop * bool :=
  if running l then (l, false) else (mkLoop (interval_ms l) false true (loop_store l), true).

(** [close]: the stop event, the end of the thread, and the store. *)
Definition loop_close (l : Loop) : Loop * vresult unit :=
  let p := Dataset.close (loop_store l) in (mkLoop (interval_ms l) true false p.1, p.2).

Section Run.
Context {X : Type} (tick : nat -> M X vexn Z).

(** One turn of [_run]: the outcome of the tick is dropped. *)
Definition loop_turn (k : nat) (x : X) : X := (tick k x).1.

(** [_run]: the stop event is looked at before every turn; [stops] is what is seen. *)
Fixpoint loop_run (stops : list bool) (k : nat) (x : X) : X * nat :=
  match stops with
  | false :: stops => loop_run stops (S k) (loop_turn k x)
  | _ => (x, k)
  end.
End Run.

(** The three ticks, on the service they share. *)
Inductive LoopKind := Correlation | Suggesting | Autonomy.
Definition _DEFAULT_POLL_INTERVAL_MS : Z := 2000.
Definition _DEFAULT_SUGGESTION_INTERVAL_MS : Z := 2000.
Definition _DEFAULT_AUTONOMY_INTERVAL_MS : Z := 1000.
Definition default_interval (k : LoopKind) : Z :=
  match k with Correlation => _DEFAULT_POLL_INTERVAL_MS | Suggesting => _DEFAULT_SUGGESTION_INTERVAL_MS | Autonomy => _DEFAULT_AUTONOMY_INTERVAL_MS end.
Definition loop_tick {D} `{DaemonClient D} (predict : string -> string -> vresult (Z * spec_float)) (thresholds : gmap Z spec_float) (k : LoopKind)
    (now : datetime) : M (Service D) vexn Z :=
  match k with
  | Correlation => poll_once now
  | Suggesting => suggest_once predict now
  | Autonomy => attempt_once thresholds now
  end.

(** Nothing a tick raises ends its loop: it takes exactly the turns before the stop event is seen, each from the
    state the one before left, and after the event none. *)
Theorem loop_survives {X} (tick : nat -> M X vexn Z) (n k : nat) (later : list bool) (x : X) :
  loop_run tick (repeat false n ++ true :: later) k x = (fold_left (fun x i => (tick i x).1) (seq k n) x, (k + n)%nat).
Proof.
  revert k x. induction n as [|n IH]; intros k x; cbn [repeat app loop_run seq fold_left]; [by rewrite Nat.add_0_r|].
  rewrite IH. f_equal. lia.
Qed.

(** Whatever its tick keeps, the loop keeps. *)
Lemma loop_keeps {X} (tick : nat -> M X vexn Z) (P : X -> Prop) stops k x : (forall i y, P y -> P (tick i y).1) -> P x -> P (loop_run tick stops k x).1.
Proof. intros Ht. revert k x. induction stops as [|[] stops IH]; intros k x Hx; cbn [loop_run]; [done|done|]. apply IH. by apply Ht. Qed.

(** Starting twice starts one thread; a closed loop can be started again and its store stays closed. *)
Theorem loop_lifecycle (store : DatasetStore) (i : Z) (l : Loop) : Loop_make store i = Ok l ->
  0 < i /\ (loop_start l).2 = true /\ (loop_start (loop_start l).1).2 = false
  /\ (loop_start (loop_close (loop_start l).1).1).2 = true /\ stop_set (loop_close (loop_start l).1).1 = true.
Proof. unfold Loop_make. destruct (i <=? 0) eqn:E; [done|]. intros [= <-]. bool_inv. split; [lia|done]. Qed.

(** ** The prediction of a stored model *)

Section Predict.
Context {Vector Forest : Type} `{Learning Vector Forest}.
Context (pickle_loads : string -> Forest + string) (predict_proba : Forest -> Vector -> list spec_float) (classes_ : Forest -> list Z).

(** [probabilities.argmax()]: the first of the largest, a nan counting as larger than any number. *)
Definition larger (x best : spec_float) : bool := match x, best with S754_nan, S754_nan => false | S754_nan, _ => true | _, S754_nan => false | _, _ => SFltb best x end.
Fixpoint argmax_from (i : nat) (best : nat * spec_float) (l : list spec_float) : nat * spec_float :=
  match l with
  | [] => best
  | x :: l => argmax_from (S i) (if larger x best.2 then (i, x) else best) l
  end.
Definition argmax (l : list spec_float) : option (nat * spec_float) := match l with [] => None | x :: l => Some (argmax_from 1 (0%nat, x) l) end.

(** The body of [classify_frame] up to its [Suggestion]; numpy refuses an empty array and an index out of range. *)
Definition predict_frame (model_blob frame_png : string) : vresult (Z * spec_float) :=
  match pickle_loads model_blob with
  | inr exc => vthrow ClassificationError ("could not load the stored model: " +:+ exc)
  | inl forest =>
      match extract_features frame_png with
      | Err e => if vinstance e FeatureError then vthrow ClassificationError (vexn_msg e) else Err e
      | OutOfFuel => OutOfFuel
      | Ok features =>
          match argmax (predict_proba forest features) with
          | None => vthrow VisionValueError "attempt to get argmax of an empty sequence"
          | Some (best_index, confidence) =>
              match classes_ forest !! best_index with
              | Some slot => Ok (slot, confidence)
              | None => vthrow VisionIndexError "index is out of bounds"
              end
          end
      end
  end.

Lemma argmax_from_in i best l : exists k, argmax_from i best l = k /\ ((k = best) \/ exists j, k.1 = (i + j)%nat /\ l !! j = Some k.2).
Proof.
  revert i best. induction l as [|x l IH]; intros i best; cbn [argmax_from]; [exists best; by split; [|left]|].
  destruct (IH (S i) (if larger x best.2 then (i, x) else best)) as (k & -> & [->|(j & H1 & H2)]); eexists; (split; [done|]).
  - destruct (larger x best.2); [right; exists 0%nat; cbn; split; [lia|done]|by left].
  - right. exists (S j). split; [lia|done].
Qed.
Lemma argmax_in l k : argmax l = Some k -> l !! k.1 = Some k.2.
Proof.
  destruct l as [|x l]; [done|]. intros [= <-]. destruct (argmax_from_in 1 (0%nat, x) l) as (k & -> & [->|(j & H1 & H2)]); [done|]. by rewrite H1.
Qed.

(** A prediction is one of the classes of the stored model with the probability the model gives it. *)
Theorem prediction_is_a_class (model_blob frame_png : string) (slot : Z) (confidence : spec_float) :
  predict_frame model_blob frame_png = Ok (slot, confidence) ->
  exists forest features i, pickle_loads model_blob = inl forest /\ extract_features frame_png = Ok features
    /\ classes_ forest !! i = Some slot /\ predict_proba forest features !! i = Some confidence.
Proof.
  unfold predict_frame. destruct (pickle_loads model_blob) as [forest|exc]; [|done]. destruct (extract_features frame_png) as [v|e|] eqn:Ev; [|by destruct (vinstance _ _)|done].
  destruct (argmax _) as [[i c]|] eqn:Ea; [|done]. destruct (classes_ forest !! i) as [s|] eqn:Es; [|done]. intros [= <- <-].
  exists forest, v, i. split_and!; [done|done|done|]. by apply argmax_in in Ea.
Qed.
End Predict.
