(* ===== verification/Camera.v ===== *)
(** * Cameras and the capture loop (appliance/vision/src/cs71vision/camera.py, runtime.py)

    The two cameras over an encoder and a device of OpenCV, which are parameters, and
    the loop that hands each frame to a sink. An image is its rows, its columns and its bytes. *)
From S2P Require Import Prelude PyString IsoTime VisionErrors Routing Sqlite Dataset Vision.

Record Image := mkImage { rows : Z; cols : Z; channels : list Z }.

(** [np.full((height, width, 3), value, dtype=np.uint8)] *)
Definition full (height width value : Z) : Image := mkImage height width (repeat value (Z.to_nat (height * width * 3))).

Class Camera (C : Type) := { read : M C vexn Frame; camera_close : M C vexn unit }.

Section Cameras.
(** [cv2.imencode(".png", image)], where it reports success, and [now()] at each reading of a frame. *)
Context (imencode : Image -> option string) (now : nat -> Z).

(** ** [FixtureCamera] *)

Record FixtureCamera := mkFixtureCamera { _width : Z; _height : Z; _frame_count : nat; _closed : bool }.

Definition FixtureCamera_make (width height : Z) : vresult FixtureCamera :=
  if (width <=? 0) || (height <=? 0) then vthrow CameraError "fixture camera width and height must be positive"
  else Ok (mkFixtureCamera width height 0 false).

Definition fixture_read : M FixtureCamera vexn Frame :=
  c ← getS;
  if _closed c then vraise CameraError "fixture camera is closed"
  else
    let n := S (_frame_count c) in
    _ ← modifyS (fun c => mkFixtureCamera (_width c) (_height c) n (_closed c));
    match imencode (full (_height c) (_width c) (Z.of_nat n mod 256)) with
    | None => vraise CameraError "fixture camera failed to encode a synthetic frame"
    | Some png => mret (mkFrame png (_width c) (_height c) (now n))
    end.

Definition fixture_close : M FixtureCamera vexn unit :=
  modifyS (fun c => mkFixtureCamera (_width c) (_height c) (_frame_count c) true).

#[export] Instance fixture_camera : Camera FixtureCamera := { read := fixture_read; camera_close := fixture_close }.

(** ** [V4L2Camera] *)

(** [cv2.VideoCapture]: [capture_read] is [read()], [None] where it reports a failure. *)
Class VideoCapture (X : Type) := {
  isOpened : X -> bool;
  capture_set : Z -> Z -> X -> X;
  capture_read : X -> X * option Image;
  release : X -> X;
}.

Record V4L2Camera (X : Type) := mkV4L2Camera { _device_path : string; _capture : X; taken : nat }.
Arguments mkV4L2Camera {X}.
Arguments _device_path {X}.
Arguments _capture {X}.
Arguments taken {X}.

Section V4L2.
Context {X : Type} `{VideoCapture X}.

(** [VideoCapture(device_path, CAP_V4L2)] gives [capture]; the result also says what becomes of it. *)
Definition V4L2Camera_make (device_path : string) (width height : Z) (capture : X) : X * vresult (V4L2Camera X) :=
  if negb (isOpened capture) then (release capture, vthrow CameraError ("cannot open camera device " +:+ device_path))
  else let capture := capture_set width height capture in (capture, Ok (mkV4L2Camera device_path capture 0)).

Definition v4l2_read : M (V4L2Camera X) vexn Frame :=
  c ← getS;
  let p := capture_read (_capture c) in
  _ ← modifyS (fun c => mkV4L2Camera (_device_path c) p.1 (taken c));
  match p.2 with
  | None => vraise CameraError ("failed to read a frame from " +:+ _device_path c)
  | Some image =>
      match imencode image with
      | None => vraise CameraError ("failed to encode a frame from " +:+ _device_path c)
      | Some png =>
          _ ← modifyS (fun c => mkV4L2Camera (_device_path c) (_capture c) (S (taken c)));
          mret (mkFrame png (cols image) (rows image) (now (taken c)))
      end
  end.

Definition v4l2_close : M (V4L2Camera X) vexn unit :=
  modifyS (fun c => mkV4L2Camera (_device_path c) (release (_capture c)) (taken c)).

#[export] Instance v4l2_camera : Camera (V4L2Camera X) := { read := v4l2_read; camera_close := v4l2_close }.
End V4L2.
End Cameras.

(** ** [CaptureLoop] *)

(** The camera, what the sink keeps, and whether the thread is alive. *)
Record CaptureLoop (C B : Type) := mkCaptureLoop { _camera : C; kept : B; alive : bool }.
Arguments mkCaptureLoop {C B}.
Arguments _camera {C B}.
Arguments kept {C B}.
Arguments alive {C B}.

Section Capture.
Context {C B : Type} `{Camera C} (sink : Frame -> M B vexn unit).

Definition CaptureLoop_make (camera : C) (b : B) (interval_ms : Z) : vresult (CaptureLoop C B) :=
  if interval_ms <=? 0 then vthrow VisionValueError "interval_ms must be positive" else Ok (mkCaptureLoop camera b false).

(** One turn of [_run]. A [CameraError] is logged, an exception of the sink is logged; any other exception of the
    camera ends the thread. *)
Definition capture_tick (x : CaptureLoop C B) : CaptureLoop C B :=
  if negb (alive x) then x
  else
    match read (_camera x) with
    | (c, Ok frame) => mkCaptureLoop c (sink frame (kept x)).1 true
    | (c, Err e) => mkCaptureLoop c (kept x) (vinstance e CameraError)
    | (c, OutOfFuel) => mkCaptureLoop c (kept x) false
    end.

(** [start()], [n] turns, and [close()]. *)
Definition capture_start (x : CaptureLoop C B) : CaptureLoop C B := mkCaptureLoop (_camera x) (kept x) true.
Definition capture_ticks (n : nat) (x : CaptureLoop C B) : CaptureLoop C B := Nat.iter n capture_tick x.
Lemma ticks_S n x : capture_ticks (S n) x = capture_tick (capture_ticks n x).
Proof. reflexivity. Qed.
Definition capture_close (x : CaptureLoop C B) : CaptureLoop C B * vresult unit :=
  let p := camera_close (_camera x) in (mkCaptureLoop p.1 (kept x) false, p.2).
End Capture.

(** The sink of the command line: [log_sink(frame); buffer.add(frame)]. *)
Definition buffer_sink (frame : Frame) : M FrameBuffer vexn unit := modifyS (add frame).

(** ** What the buffer holds *)

Section Kept.
Context (imencode : Image -> option string) (now : nat -> Z).
#[local] Instance fixture : Camera FixtureCamera := fixture_camera imencode now.

(** The frame of turn [n] of a fixture camera, where it can be encoded. *)
Definition fixture_frame (w h : Z) (n : nat) : option Frame :=
  (fun png => mkFrame png w h (now n)) <$> imencode (full h w (Z.of_nat n mod 256)).

Lemma fixture_tick w h k b : capture_tick buffer_sink (mkCaptureLoop (mkFixtureCamera w h k false) b true)
  = mkCaptureLoop (mkFixtureCamera w h (S k) false) (match fixture_frame w h (S k) with Some f => add f b | None => b end) true.
Proof.
  unfold capture_tick, fixture_frame. cbn [negb alive _camera read fixture fixture_camera]. unfold fixture_read, getS, modifyS, mbind, M_bind.
  cbn [_closed _frame_count _width _height]. destruct (imencode _) as [png|]; reflexivity.
Qed.

(** The last [n] entries. *)
Definition newest {A} (n : nat) (l : list A) : list A := drop (length l - n) l.

Lemma push_newest {A} n (l : list A) x : push_bounded n (newest n l) x = newest n (l ++ [x]).
Proof.
  unfold push_bounded, newest. rewrite !length_app, length_drop. simpl.
  destruct (decide (length l <= n)%nat).
  - replace (length l - n)%nat with 0%nat by lia. rewrite drop_0. f_equal. lia.
  - rewrite <- (drop_app_le l [x]) by lia. rewrite drop_drop. f_equal. lia.
Qed.

Lemma fixture_ticks w h cap n :
  capture_ticks buffer_sink n (capture_start (mkCaptureLoop (mkFixtureCamera w h 0 false) (mkFrameBuffer [] cap) false))
  = mkCaptureLoop (mkFixtureCamera w h n false) (mkFrameBuffer (newest cap (omap (fixture_frame w h) (seq 1 n))) cap) true.
Proof.
  unfold capture_start. cbn [_camera kept]. induction n as [|n IH]; [done|].
  rewrite ticks_S, IH, fixture_tick, seq_S, omap_app. cbn [omap list_omap]. change (1 + n)%nat with (S n).
  destruct (fixture_frame w h (S n)) as [f|]; [|by rewrite app_nil_r].
  unfold add. cbn [_frames fb_capacity]. by rewrite push_newest.
Qed.

Lemma full_inj w h a b : 0 < w -> 0 < h -> full h w a = full h w b -> a = b.
Proof.
  unfold full. intros Hw Hh [= E]. destruct (Z.to_nat (h * w * 3)) as [|k] eqn:Ek; [lia|]. by injection E.
Qed.

(** What the frame buffer holds after capturing from the fixture camera. For every positive size and number of turns the loop is
    still running, every frame that could be encoded went to the buffer, and the buffer holds the newest of them in order, as many as its
    capacity; once the loop is closed the camera gives no more frames. With an encoder that loses nothing,
    two frames among any 256 consecutive ones show different pictures. *)
Theorem capture_keeps_newest (w h : Z) (cap n : nat) (camera : FixtureCamera) : FixtureCamera_make w h = Ok camera ->
  let x := capture_ticks buffer_sink n (capture_start (mkCaptureLoop camera (mkFrameBuffer [] cap) false)) in
  alive x = true /\ _frame_count (_camera x) = n
  /\ _frames (kept x) = newest cap (omap (fixture_frame w h) (seq 1 n))
  /\ (exists e, (read (_camera (capture_close x).1)).2 = Err e /\ vinstance e CameraError = true)
  /\ (Inj (=) (=) imencode -> forall i j f g, fixture_frame w h i = Some f -> fixture_frame w h j = Some g -> fr_png f = fr_png g ->
        Z.of_nat i mod 256 = Z.of_nat j mod 256).
Proof.
  unfold FixtureCamera_make. destruct (_ || _) eqn:Ez; [done|]. intros [= <-]. bool_inv. cbv zeta. rewrite fixture_ticks. split_and!; try done.
  - by eexists.
  - intros Hinj i j f g. unfold fixture_frame. intros (p & Hp & ->)%fmap_Some (q & Hq & ->)%fmap_Some [= ->].
    apply (full_inj w h); [done..|]. apply Hinj. by rewrite Hp, Hq.
Qed.
End Kept.

(** ** Findings about the loop *)

(** An exception of the camera that is no [CameraError], as [cv2.error] is, ends the capture for good. *)
Lemma foreign_camera_error_ends_capture {C B} `{Camera C} (sink : Frame -> M B vexn unit) (c c' : C) (b : B) e n :
  read c = (c', Err e) -> vinstance e CameraError = false ->
  capture_ticks sink (S n) (mkCaptureLoop c b true) = mkCaptureLoop c' b false.
Proof.
  intros Hr He. induction n as [|n IH]; [unfold capture_ticks, capture_tick; simpl; by rewrite Hr, He|].
  by rewrite ticks_S, IH.
Qed.

