(* ===== verification/VisionSpec.v ===== *)
(** * Evidence and gates of the vision service

    Labels come only from confirmed sorts and a frame captured before them; a
    sort is submitted only past both gates, and while nothing reads the primer it
    is never submitted at all. *)
From Stdlib Require Import SpecFloat.
From S2P Require Import Prelude PyString Errors IsoTime Operations VisionErrors Routing Sqlite Dataset Vision.

(** ** The frame buffer *)

Lemma closest_exact moment b :
  match closest_at_or_before moment b with
  | Some f => f ∈ _frames b /\ captured_at f <= moment
              /\ forall g, g ∈ _frames b -> captured_at g <= moment -> captured_at g <= captured_at f
  | None => forall g, g ∈ _frames b -> moment < captured_at g
  end.
Proof.
  unfold closest_at_or_before. induction (_frames b) as [|f l IH] using rev_ind; [set_solver|]. rewrite fold_left_app.
  cbn [fold_left]. set (r := fold_left _ l None) in *.
  destruct (Z.leb_spec (captured_at f) moment); cbn [andb].
  - destruct r as [c|].
    + destruct IH as (? & ? & Hmax). destruct (Z.ltb_spec (captured_at c) (captured_at f)).
      * split_and!; [set_solver|done|]. intros g [Hg| ->%list_elem_of_singleton]%elem_of_app Hle; [|lia]. specialize (Hmax g Hg Hle). lia.
      * split_and!; [set_solver|done|]. intros g [Hg| ->%list_elem_of_singleton]%elem_of_app Hle; [by apply Hmax|lia].
    + split_and!; [set_solver|done|]. intros g [Hg| ->%list_elem_of_singleton]%elem_of_app Hle; [|lia]. specialize (IH g Hg). lia.
  - destruct r as [c|].
    + destruct IH as (? & ? & Hmax). split_and!; [set_solver|done|].
      intros g [Hg| ->%list_elem_of_singleton]%elem_of_app Hle; [by apply Hmax|lia].
    + intros g [Hg| ->%list_elem_of_singleton]%elem_of_app; [by apply IH|done].
Qed.

(** ** Tables under a property of their rows *)

Section Rows.
Context (P : example_row -> Prop) (Q : SuggestionRecord -> Prop).

(** Every example satisfies [P] and every suggestion [Q]; the tables may change in any such way. *)
Definition rows_ok (t : Tables) : Prop := Forall P (examples_t t) /\ Forall Q (suggestions_t t).
Definition anyhow (t t' : Tables) : Prop := True.
#[export] Instance anyhow_preorder : PreOrder anyhow.
Proof. by split. Qed.

Abbreviation held m := (orderly (E := vexn) rows_ok anyhow m).

Lemma held_stmt {A} (f : Tables -> vresult (Tables * A)) :
  (forall t t' a, f t = Ok (t', a) -> examples_t t' = examples_t t /\ suggestions_t t' = suggestions_t t) -> held (execute f).
Proof.
  intros Hf. apply orderly_execute; [typeclasses eauto|]. intros t t' a [? ?] E. destruct (Hf t t' a E) as [E1 E2].
  split; [|done]. unfold rows_ok. by rewrite E1, E2.
Qed.

Lemma held_example r : P r -> held (execute (insert_example r)).
Proof.
  intros Hr. apply orderly_execute; [typeclasses eauto|]. intros t t' a [? ?]. unfold insert_example. case_bool_decide; [done|].
  intros [= <- _]. split; [|done]. split; [|done]. apply Forall_app. split; [done|by constructor].
Qed.

Lemma held_suggestion v s c p m1 m2 : (forall id, Q (mkSuggestion id v s c p m1 m2)) -> held (execute (insert_suggestion v s c p m1 m2)).
Proof.
  intros Hq. apply orderly_execute; [typeclasses eauto|]. intros t t' a [? ?]. unfold insert_suggestion.
  destruct (is_nan c); [done|]. destruct (negb _); [done|]. intros [= <- _]. split; [|done]. split; [done|].
  apply Forall_app. split; [done|by constructor].
Qed.

Ltac same_rows := apply held_stmt; intros ? ? ?; repeat (case_match || case_bool_decide); try done; by intros [= <- _].
Lemma held_model m c : held (execute (insert_model m c)).
Proof. unfold insert_model. same_rows. Qed.
Lemma held_activation v m : held (execute (insert_activation v m)).
Proof. unfold insert_activation. same_rows. Qed.
Lemma held_outcome s op a k m : held (execute (insert_outcome s op a k m)).
Proof. unfold insert_outcome. same_rows. Qed.
Lemma held_attempt s op a m : held (execute (insert_attempt s op a m)).
Proof. unfold insert_attempt. same_rows. Qed.
Lemma held_review a k m : held (execute (insert_review a k m)).
Proof. unfold insert_review. same_rows. Qed.

Lemma held_open : held _require_open.
Proof. intros c Hc. unfold _require_open. by destruct (cn_closed c). Qed.
Lemma held_error {A} msg : held (dataset_error (A:=A) msg).
Proof. by intros c Hc. Qed.
Lemma held_read {A} (f : Tables -> A) : held (query f).
Proof. apply orderly_query. typeclasses eauto. Qed.
#[local] Hint Resolve held_open held_error held_read held_model held_activation held_outcome held_attempt held_review : cs71.

Lemma held_guard {A} (body : M DatasetStore vexn A) : held body -> held (_guard body).
Proof. intros Hb. unfold _guard. orderly_steps. Qed.
Lemma held_transaction {A} (body : M DatasetStore vexn A) : held body -> held (_transaction body).
Proof. intros Hb. unfold _transaction, sqlite_error. orderly_steps. Qed.

Ltac hold := repeat first [apply held_guard | apply held_transaction | orderly_step].

(** A call whose new rows satisfy the property. *)
Definition call_ok (c : dataset_call) : Prop :=
  match c with
  | CExample now op slot png captured created => forall k l m,
      _encode_time captured = Ok k -> _encode_time created = Ok l -> _encode_time now = Ok m -> P (mkExample op slot png k l m)
  | CSuggest v s k captured suggested p => forall id m1 m2,
      _encode_time captured = Ok m1 -> _encode_time suggested = Ok m2 -> Q (mkSuggestion id v s k p m1 m2)
  | _ => True
  end.

Lemma held_lift {A B} (r : vresult A) (f : A -> M DatasetStore vexn B) : (forall x, r = Ok x -> held (f x)) -> held (liftR r ≫= f).
Proof. intros Hf c Hc. unfold mbind, M_bind, liftR. destruct r as [x|e|]; [by apply Hf|by split..]. Qed.

Lemma held_record_example now op slot png captured created :
  call_ok (CExample now op slot png captured created) -> held (record_example now op slot png captured created).
Proof.
  intros Hc. unfold record_example. apply held_transaction. apply orderly_try; [typeclasses eauto| |intros; by hold].
  apply held_lift. intros k Hk. apply held_lift. intros l Hl. apply held_lift. intros m Hm. apply held_lift. intros _ _.
  apply orderly_bind; [typeclasses eauto|apply held_example; by apply Hc|intros; by intros ? ?].
Qed.

Lemma held_record_suggestion v s k captured suggested p :
  call_ok (CSuggest v s k captured suggested p) -> held (record_suggestion v s k captured suggested p).
Proof.
  intros Hc. unfold record_suggestion. apply held_transaction. apply held_lift. intros m1 H1. apply held_lift. intros m2 H2. apply held_lift. intros _ _.
  apply held_suggestion. intros id. by apply Hc.
Qed.

Lemma held_call c : call_ok c -> held (run_call c).
Proof.
  intros Hc. destruct c; simpl; unfold ignore;
    try (apply orderly_bind; [typeclasses eauto| |intros; by intros ? ?]);
    first [by apply held_record_example | by apply held_record_suggestion | idtac];
    unfold has_example, counts_by_slot, total_examples, examples, record_candidate, candidates, candidate_model,
      activate, activations, active_version, latest_suggestion, unmatched_suggestion_at_or_before, record_suggestion_outcome,
      suggestion_accuracy, autonomous_attempt_exists, record_autonomous_attempt,
      pending_autonomous_reviews, record_autonomous_review, autonomous_accuracy_by_class; try by hold.
  intros x Hx. unfold close. destruct (cn_closed x); [done|]. destruct Hx. split; [by split|done].
Qed.
End Rows.

(** A read reports the tables it met and leaves them, or raises. *)
Lemma guard_read {A} (f : Tables -> A) c :
  (exists e, (_guard (query f) c).2 = Err e)
  \/ ((_guard (query f) c).2 = Ok (f (cn_current c)) /\ cn_current (_guard (query f) c).1 = cn_current c).
Proof.
  unfold _guard, _require_open, mbind, M_bind, query, sql_query, sql_execute, consult, try_except.
  destruct (cn_closed c); [left; by eexists|]. simpl. destruct c as [d w cl fs]. unfold cn_current, cn_set_current. simpl.
  destruct fs as [|[] fs], w; simpl; try (by right); left; by eexists.
Qed.

(** The same of a read with bound integers: refused before the statement runs, or that read. *)
Lemma guard_read_with {A} ns (f : Tables -> A) c :
  (exists e, (_guard (_ ← liftR (bind_ints ns); query f) c).2 = Err e)
  \/ ((_guard (_ ← liftR (bind_ints ns); query f) c).2 = Ok (f (cn_current c))
      /\ cn_current (_guard (_ ← liftR (bind_ints ns); query f) c).1 = cn_current c).
Proof.
  destruct (bind_ints ns) as [[]|e|] eqn:E; [apply (guard_read f)| |unfold bind_ints in E; by destruct (forallb _ _)].
  left. unfold _guard, _require_open, mbind, M_bind, liftR, try_except. destruct (cn_closed c); [by eexists|]. destruct (is_sqlite_error e); by eexists.
Qed.

(** ** The service *)

Section Service.
Context {D : Type} `{DaemonClient D}.
Abbreviation Service := (Service D).
Abbreviation VM := (M Service vexn).

(** The store's rows satisfy [P] and [Q], the daemon [Pd], the buffer is [b]. *)
Record service_ok (P : example_row -> Prop) (Q : SuggestionRecord -> Prop) (Pd : D -> Prop) (b : FrameBuffer) (x : Service) : Prop := {
  sv_store : conn_ok (rows_ok P Q) anyhow (store x);
  sv_daemon : Pd (daemon x);
  sv_buffer : buffer x = b;
}.

Section Kept.
Context (P : example_row -> Prop) (Q : SuggestionRecord -> Prop) (Pd : D -> Prop) (b : FrameBuffer).
Abbreviation I := (service_ok P Q Pd b).

Definition kept {A} (m : VM A) : Prop := forall x, I x -> I (m x).1.

Lemma kept_ret {A} (a : A) : kept (mret a).
Proof. by intros x Hx. Qed.
Lemma kept_raise {A} e : kept (raise (A:=A) e).
Proof. by intros x Hx. Qed.
Lemma kept_bind {A B} (m : VM A) (f : A -> VM B) : kept m -> (forall a, kept (f a)) -> kept (m ≫= f).
Proof.
  intros Hm Hf x Hx. unfold mbind, M_bind. specialize (Hm x Hx). destruct (m x) as [x' [a|e|]]; [by apply Hf|done|done].
Qed.
Lemma kept_case {A B} (m : VM A) (k : A -> VM B) h : kept m -> (forall a, kept (k a)) -> (forall e, kept (h e)) -> kept (try_case m k h).
Proof.
  intros Hm Hk Hh x Hx. unfold try_case. specialize (Hm x Hx). destruct (m x) as [x' [a|e|]]; [by apply Hk|by apply Hh|done].
Qed.
Lemma kept_get {A} (f : Service -> VM A) : (forall x, I x -> kept (f x)) -> kept (x ← getS; f x).
Proof. intros Hf x Hx. unfold mbind, M_bind, getS. by apply Hf. Qed.
Lemma kept_store {A} (m : M DatasetStore vexn A) : orderly (rows_ok P Q) anyhow m -> kept (on_store m).
Proof. intros Hm x [Hs Hd Hb]. unfold on_store. by split; [apply (Hm _ Hs)| |]. Qed.
Lemma kept_call {A} (m : M DatasetStore vexn A) c : run_call c = ignore m -> call_ok P Q c -> kept (on_store m).
Proof.
  intros E Hc. apply kept_store. pose proof (held_call P Q c Hc) as Hh. rewrite E in Hh. intros s Hs.
  destruct (Hh s Hs) as [H1 H2]. unfold ignore, mbind, M_bind in *. by destruct (m s) as [s' [a|e|]].
Qed.
Lemma kept_daemon {A} (m : M D vexn A) : (forall d, Pd d -> Pd (m d).1) -> kept (on_daemon m).
Proof. intros Hm x [Hs Hd Hb]. unfold on_daemon. by split; [|apply Hm|]. Qed.
Lemma kept_routing {A} (m : M RoutingSession vexn A) : kept (on_routing m).
Proof. intros x [Hs Hd Hb]. unfold on_routing. by split. Qed.
End Kept.
#[local] Hint Resolve kept_ret kept_raise kept_routing : cs71.

Ltac kept_step :=
  match goal with
  | |- kept _ _ _ _ (getS ≫= _) => apply kept_get; intros
  | |- kept _ _ _ _ (_ ≫= _) => apply kept_bind; [|intros]
  | |- kept _ _ _ _ (try_case _ _ _) => apply kept_case; [|intros|intros]
  | |- kept _ _ _ _ (if ?b then _ else _) => destruct b
  | |- kept _ _ _ _ (match ?x with _ => _ end) => destruct x eqn:?
  | |- kept _ _ _ _ (on_store (has_example ?op)) => by apply (kept_call _ _ _ _ _ (CHasExample op))
  | |- kept _ _ _ _ (on_store (unmatched_suggestion_at_or_before ?m)) => by apply (kept_call _ _ _ _ _ (CUnmatched m))
  | |- kept _ _ _ _ (on_store (record_suggestion_outcome ?i ?o ?s ?t)) => by apply (kept_call _ _ _ _ _ (COutcome i o s t))
  | |- kept _ _ _ _ (on_store active_version) => by apply (kept_call _ _ _ _ _ CActive)
  | |- kept _ _ _ _ (on_store (candidate_model ?v)) => by apply (kept_call _ _ _ _ _ (CModel v))
  | |- kept _ _ _ _ (on_store latest_suggestion) => by apply (kept_call _ _ _ _ _ CLatest)
  | |- kept _ _ _ _ (on_store (autonomous_attempt_exists ?i)) => by apply (kept_call _ _ _ _ _ (CAttempted i))
  | |- kept _ _ _ _ _ => solve [eauto with cs71]
  end.
Ltac kept_steps := repeat kept_step.

(** *** Correlation *)

(** A label: a reported success, and the newest frame captured at or before it. *)
Definition labelled (b : FrameBuffer) (l : list SortSuccess) (row : example_row) : Prop :=
  exists s created f, s ∈ l /\ fromisoformat (ss_created_at s) = Ok created
    /\ f ∈ _frames b /\ captured_at f <= created
    /\ (forall g, g ∈ _frames b -> captured_at g <= created -> captured_at g <= captured_at f)
    /\ x_operation_id row = ss_operation_id s /\ x_slot row = ss_slot s /\ x_frame_png row = fr_png f.

Lemma kept_match P Q Pd b op slot t : kept P Q Pd b (_match_suggestion op slot t).
Proof. unfold _match_suggestion. kept_steps. Qed.
#[local] Hint Resolve kept_match : cs71.

Lemma kept_correlate (P : example_row -> Prop) Q Pd b l now s : (forall row, labelled b l row -> P row) -> s ∈ l ->
  kept P Q Pd b (correlate now s).
Proof.
  intros HP Hs. unfold correlate. apply kept_bind; [kept_step|intros [|]; [kept_steps|]].
  destruct (fromisoformat _) as [created|e|] eqn:Hc; [|kept_steps..]. apply kept_get. intros x [_ _ Hb].
  pose proof (closest_exact created (buffer x)) as Hcl. destruct (closest_at_or_before created (buffer x)) as [f|]; [|kept_steps].
  destruct Hcl as (Hf & Hle & Hmax). rewrite Hb in *. apply kept_bind; [|intros [|]; kept_steps].
  apply (kept_call _ _ _ _ _ (CExample now (ss_operation_id s) (ss_slot s) (fr_png f) (utc (captured_at f)) (utc created))); [done|].
  intros k m n _ _ _. apply HP. by exists s, created, f.
Qed.

Lemma kept_correlate_all (P : example_row -> Prop) Q Pd b l now k : (forall row, labelled b l row -> P row) -> (forall s, s ∈ k -> s ∈ l) ->
  kept P Q Pd b (correlate_all now k).
Proof.
  intros HP. induction k as [|s k IH]; intros Hk; cbn [correlate_all]; [kept_step|].
  apply kept_bind; [apply (kept_correlate _ _ _ _ l); [done|set_solver]|intros n]. apply kept_bind; [apply IH; set_solver|intros; kept_step].
Qed.

(** A label is never guessed. Whatever statements fail, every example a poll adds belongs to a success
    the daemon just reported, carries that operation's slot and identity, and its frame is the newest one
    in the buffer captured at or before the operation was created; a success without such a frame adds
    nothing. *)
Theorem labels_need_evidence now (x : Service) l d' :
  cn_working (store x) = None -> recent_sort_successes (daemon x) = (d', Ok l) ->
  forall row, row ∈ examples_t (cn_committed (store (poll_once now x).1)) ->
    row ∈ examples_t (cn_committed (store x)) \/ labelled (buffer x) l row.
Proof.
  intros Hw Hl. set (P row := row ∈ examples_t (cn_committed (store x)) \/ labelled (buffer x) l row).
  assert (service_ok P (fun _ => True) (fun _ => True) (buffer x) (poll_once now x).1) as [[[Hp _] _] _ _]; [|by apply Forall_forall].
  unfold poll_once. unfold mbind, M_bind, try_case, on_daemon. rewrite Hl. cbn [fst snd mret M_ret].
  apply (kept_correlate_all P _ _ (buffer x) l); [by right|done|]. split; [|done|done]. split; [|simpl; by rewrite Hw].
  split; apply Forall_forall; [by left|done].
Qed.

(** *** Autonomy *)

(** What an attempt may have asked of the daemon: nothing, or, for the newest suggestion, past both gates and
    with no attempt of its own yet, one generation and at most one sort under the suggestion's own key. *)
Definition gated (thresholds : gmap Z spec_float) (t : Tables) (r : SuggestionRecord) : Prop :=
  last (suggestions_t t) = Some r /\ suggestion_id r ∉ at_suggestion_id <$> attempts_t t
  /\ sr_primer_present r = Some false
  /\ exists threshold, thresholds !! suggested_slot r = Some threshold /\ SFleb threshold (sr_confidence r) = true.

Definition asked (d d' : D) (r : SuggestionRecord) : Prop :=
  d' = (current_generation d).1
  \/ exists d1 g, current_generation d = (d1, Ok g) /\ d' = (submit_sort (suggested_slot r) g (_idempotency_key (suggestion_id r)) d1).1.

Lemma wp_store_read {A} (f : Tables -> A) Q (x : Service) :
  (forall x', daemon x' = daemon x -> cn_current (store x') = cn_current (store x) -> Q x' (Ok (f (cn_current (store x))))) ->
  (forall x' e, daemon x' = daemon x -> Q x' (Err e)) -> wp (on_store (_guard (query f))) Q x.
Proof.
  intros HOk HErr. unfold wp, on_store. cbn [fst snd]. destruct (guard_read f (store x)) as [[e ->]|[-> Hc]]; [by apply HErr|by apply HOk].
Qed.

Lemma wp_store_read_with {A} ns (f : Tables -> A) Q (x : Service) :
  (forall x', daemon x' = daemon x -> cn_current (store x') = cn_current (store x) -> Q x' (Ok (f (cn_current (store x))))) ->
  (forall x' e, daemon x' = daemon x -> Q x' (Err e)) -> wp (on_store (_guard (_ ← liftR (bind_ints ns); query f))) Q x.
Proof.
  intros HOk HErr. unfold wp, on_store. cbn [fst snd]. destruct (guard_read_with ns f (store x)) as [[e ->]|[-> Hc]]; [by apply HErr|by apply HOk].
Qed.

Lemma may_sort_inv s thresholds : may_autonomously_sort s thresholds = true ->
  su_primer_present s = Some false
  /\ exists threshold, thresholds !! su_slot s = Some threshold /\ SFleb threshold (su_confidence s) = true.
Proof.
  unfold may_autonomously_sort, requires_operator_confirmation. case_bool_decide; simpl; [|done].
  destruct (thresholds !! su_slot s) as [th|]; [|done]. intros. split; [done|by exists th].
Qed.

Definition attempt_post (thresholds : gmap Z spec_float) (x x' : Service) (_ : vresult Z) : Prop :=
  daemon x' = daemon x \/ exists r, gated thresholds (cn_current (store x)) r /\ asked (daemon x) (daemon x') r.

Lemma attempt_asks thresholds now x : wp (attempt_once thresholds now) (attempt_post thresholds x) x.
Proof.
  unfold attempt_once. wp_step.
  apply wp_store_read; [intros x1 Hd1 Hc1|intros; by left]. wp_steps. destruct (last _) as [r|] eqn:Hlast; [|by left]. wp_step.
  apply wp_store_read_with; [intros x2 Hd2 Hc2|intros x2 e Hd2; left; by rewrite Hd2]. wp_steps. rewrite Hd1 in Hd2. case_bool_decide as Hno; [left; exact Hd2|].
  destruct (may_autonomously_sort _ _) eqn:Hm; [|left; exact Hd2].
  apply may_sort_inv in Hm as [? ?]. rewrite Hc1 in Hno. assert (gated thresholds (cn_current (store x)) r) as Hg by done.
  cbn [negb su_slot]. wp_step. wp_step. wp_step. unfold wp at 1, on_daemon. cbn [fst snd]. rewrite Hd2.
  destruct (current_generation (daemon x)) as [d1 [g|e|]] eqn:Eg; cbn [fst snd].
  - unfold bind_post at 1. unfold wp at 1. cbn [fst snd daemon].
    assert (forall x' r', daemon x' = (submit_sort (suggested_slot r) g (_idempotency_key (suggestion_id r)) d1).1 -> attempt_post thresholds x x' r') as HQ.
    { intros x' r' E. right. exists r. split; [done|]. right. exists d1, g. by rewrite E. }
    destruct (submit_sort _ _ _ d1) as [d2 [op|e|]]; cbn [fst snd]; [|destruct (vinstance e DaemonClientError); by apply HQ|by apply HQ].
    wp_steps. unfold wp, on_store. destruct (record_autonomous_attempt _ _ _ _ _) as [s3 [n|e|]]; by apply HQ.
  - unfold bind_post at 1. destruct (vinstance e DaemonClientError); (right; exists r; split; [done|]; left; by rewrite Eg).
  - right; exists r; split; [done|]; left; by rewrite Eg.
Qed.

(** No sort without both gates. Whatever statements fail and whatever the daemon answers, an attempt
    either asks the daemon nothing, or the newest stored suggestion has a primer reading that is confidently
    clear, a confidence of at least its slot's threshold and no recorded attempt; then the daemon is asked
    for its generation and, if it gives one, for exactly one sort to that slot, at that generation, under the
    key that belongs to this suggestion alone. *)
Theorem autonomous_sort_gated thresholds now (x : Service) :
  let d' := daemon (attempt_once thresholds now x).1 in
  d' = daemon x \/ exists r, gated thresholds (cn_current (store x)) r /\ asked (daemon x) d' r.
Proof. apply attempt_asks. Qed.

(** *** What the present service can do *)

(** The loops and the API handlers of the service; only the suggestion loop writes suggestions. *)
Inductive vision_action :=
| VPoll (now : datetime) | VSuggest (now : datetime) | VAttempt (now : datetime) | VFrame (f : Frame)
| VRouting (m : M RoutingSession vexn unit) | VStore (c : dataset_call).

Definition vision_act (predict : string -> string -> vresult (Z * spec_float)) (thresholds : gmap Z spec_float) (a : vision_action) : VM unit :=
  match a with
  | VPoll now => _ ← poll_once now; mret tt
  | VSuggest now => _ ← suggest_once predict now; mret tt
  | VAttempt now => _ ← attempt_once thresholds now; mret tt
  | VFrame f => modifyS (fun x => mkService (store x) (daemon x) (add f (buffer x)) (routing x))
  | VRouting m => on_routing m
  | VStore c => on_store (run_call c)
  end.

Definition vision_step predict thresholds (x y : Service) : Prop :=
  exists a, (match a with VStore (CSuggest _ _ _ _ _ _) => False | _ => True end) /\ y = (vision_act predict thresholds a x).1.

Definition unread (r : SuggestionRecord) : Prop := sr_primer_present r <> Some false.

Lemma kept_fuel P Q Pd b {A} : kept P Q Pd b (fun x : Service => (x, OutOfFuel : vresult A)).
Proof. by intros x Hx. Qed.
#[local] Hint Resolve kept_fuel : cs71.

Lemma kept_suggest predict P Pd b now : kept P unread Pd b (suggest_once predict now).
Proof.
  unfold suggest_once, classify_frame. kept_steps.
  match goal with
  | |- kept _ _ _ _ (on_store (record_suggestion ?v ?s ?c ?t ?u ?p)) => apply (kept_call _ _ _ _ _ (CSuggest v s c t u p)); [done|]
  end.
  intros id m1 m2 _ _. unfold unread. simpl. destruct (predict _ _) as [[c w]|e|]; by simplify_eq/=.
Qed.

Lemma kept_attempt thresholds P Q Pd b now : (forall d, Pd d) -> kept P Q Pd b (attempt_once thresholds now).
Proof.
  intros Hd. unfold attempt_once. kept_steps; try by apply kept_daemon.
  match goal with
  | |- kept _ _ _ _ (on_store (record_autonomous_attempt ?i ?o ?s ?t)) => by apply (kept_call _ _ _ _ _ (CAttempt i o s t))
  end.
Qed.

Lemma kept_poll P Q (Pd : D -> Prop) b now : (forall row, P row) -> (forall d, Pd d -> Pd (recent_sort_successes d).1) -> kept P Q Pd b (poll_once now).
Proof.
  intros HP Hd. unfold poll_once. apply kept_bind; [kept_steps; by apply kept_daemon|].
  intros [l|]; [by apply (kept_correlate_all _ _ _ _ l)|kept_steps].
Qed.

(** A state in which no suggestion says "confidently clear"; its last component holds of the daemon. *)
Definition blind (Pd : D -> Prop) (x : Service) : Prop :=
  service_ok (fun _ => True) unread Pd (buffer x) x.

Lemma blind_step predict thresholds (Pd : D -> Prop) x y : (forall d, Pd d -> Pd (recent_sort_successes d).1) ->
  blind Pd x -> vision_step predict thresholds x y -> blind Pd y.
Proof.
  intros Hd Hx (a & Ha & ->).
  assert (forall m : VM unit, kept (fun _ => True) unread Pd (buffer x) m -> blind Pd (m x).1) as Hk.
  { intros m Hm. specialize (Hm x Hx). unfold blind. by rewrite (sv_buffer _ _ _ _ _ Hm). }
  destruct a as [now|now|now|f|m|c]; cbn [vision_act].
  - apply Hk. apply kept_bind; [by apply kept_poll|intros; kept_step].
  - apply Hk. apply kept_bind; [apply kept_suggest|intros; kept_step].
  - assert (Pd (daemon (attempt_once thresholds now x).1)) as Hd'.
    { pose proof (attempt_asks thresholds now x) as [E|(r & (Hr & _ & Hclear & _) & _)]; [rewrite E; apply Hx|].
      destruct Hx as [Hs _ _]. apply conn_ok_current in Hs. destruct Hs as [_ Hs].
      apply last_Some in Hr as [l Hr]. rewrite Hr in Hs. apply Forall_app in Hs as [_ Hs].
      apply Forall_cons in Hs as [Hs _]. by destruct (Hs Hclear). }
    assert (service_ok (fun _ => True) unread (fun _ => True) (buffer x) x) as Hx' by (destruct Hx; by split).
    pose proof (kept_attempt thresholds _ unread (fun _ => True) _ now (fun _ => I) x Hx') as [Hs _ Hb].
    unfold mbind, M_bind. set (p := attempt_once thresholds now x) in *. clearbody p.
    destruct p as [y [n|e|]]; cbn [fst snd] in *; by split.
  - destruct Hx. by split.
  - apply Hk. apply kept_routing.
  - apply Hk. apply kept_store. apply held_call. by destruct c.
Qed.

(** C40: the shipped service never sorts on its own. Its suggestion loop never reads the primer, so from a store
    that holds no confidently clear suggestion, whatever is polled, captured, suggested, attempted, routed or
    written through the store in whatever order, with whatever statements failing, the daemon is never asked
    for anything but its events: any property of the daemon that those reads keep still holds. *)
Theorem autonomy_never_submits predict thresholds (Pd : D -> Prop) (x y : Service) :
  (forall d, Pd d -> Pd (recent_sort_successes d).1) -> blind Pd x -> rtc (vision_step predict thresholds) x y -> Pd (daemon y).
Proof.
  intros Hd Hx Hr. assert (blind Pd y) as [_ Hy _]; [|done].
  induction Hr as [|x z y Hz _ IH]; [done|]. apply IH. by eapply blind_step.
Qed.
End Service.

(** ** Concrete runs of the vision service

    A daemon that reports a fixed list of sorts and logs the sorts submitted to
    it, and runs of the service over it. *)

Record DemoDaemon := mkDemoDaemon { reported : list SortSuccess; submitted : list (Z * Z * string) }.

#[export] Instance DemoDaemon_client : DaemonClient DemoDaemon := {
  recent_sort_successes d := (d, Ok (reported d));
  current_generation d := (d, Ok 1);
  submit_sort slot generation key d := (mkDemoDaemon (reported d) (submitted d ++ [(slot, generation, key)]), Ok "op-auto");
}.

Definition demo_frame (at_ : Z) : Frame := mkFrame "png" 2 2 at_.
Definition demo_service (l : list SortSuccess) (frames : list Frame) : Service DemoDaemon :=
  mkService demo_store (mkDemoDaemon l []) (mkFrameBuffer frames 4) RoutingSession_init.
Definition three_quarters : spec_float := S754_finite false 6755399441055744 (-53).
Definition half : spec_float := S754_finite false 4503599627370496 (-53).

Lemma labels_need_evidence_witness :
  let x := demo_service [mkSortSuccess "op-1" 2 (isoformat 2000000)] [demo_frame 1000000; demo_frame 3000000] in
  length (examples_t (cn_committed (store (poll_once (utc 5000000) x).1))) = 1%nat
  /\ forall row, row ∈ examples_t (cn_committed (store (poll_once (utc 5000000) x).1)) ->
       row ∈ examples_t (cn_committed (store x)) \/ labelled (buffer x) [mkSortSuccess "op-1" 2 (isoformat 2000000)] row.
Proof.
  intros x. split; [vm_compute; reflexivity|].
  apply (labels_need_evidence (utc 5000000) x _ (daemon x)); [reflexivity|vm_compute; reflexivity].
Defined.

(** The service after a model was trained, activated, and asked about a frame. *)
Definition predict_always (class_id : Z) (confidence : spec_float) (blob png : string) : vresult (Z * spec_float) := Ok (class_id, confidence).
Definition demo_actions (class_id : Z) : list vision_action :=
  [VStore (CCandidate demo_candidate (utc 0)); VStore (CActivate 1 (utc 0)); VFrame (demo_frame 1000000);
   VRouting (start (DynamicProfile [3; 4]) 0); VSuggest (utc 1500000)].
Definition demo_run (x : Service DemoDaemon) (l : list vision_action) : Service DemoDaemon :=
  fold_left (fun x a => (vision_act (predict_always 40 three_quarters) {[3 := half]} a x).1) l x.

Lemma run_steps l x : Forall (fun a => match a with VStore (CSuggest _ _ _ _ _ _) => False | _ => True end) l ->
  rtc (vision_step (predict_always 40 three_quarters) {[3 := half]}) x (demo_run x l).
Proof.
  intros Hl. revert x. induction Hl as [|a l Ha _ IH]; intros x; [apply rtc_refl|]. eapply rtc_l; [by exists a|]. apply IH.
Qed.

Lemma autonomy_never_submits_witness :
  let y := demo_run (demo_service [] []) (demo_actions 40 ++ [VAttempt (utc 2000000)]) in
  length (suggestions_t (cn_committed (store y))) = 1%nat /\ submitted (daemon y) = [].
Proof.
  intros y. split; [vm_compute; reflexivity|].
  apply (autonomy_never_submits (predict_always 40 three_quarters) {[3 := half]} (fun d => submitted d = []) (demo_service [] [])).
  - done.
  - split; [|done|done]. split; [|done]. by split.
  - assert (Forall (fun a => match a with VStore (CSuggest _ _ _ _ _ _) => False | _ => True end) (demo_actions 40 ++ [VAttempt (utc 2000000)])) as Ha
      by (repeat constructor).
    by apply run_steps.
Defined.

(** A suggestion read as clear and confident enough is submitted once, under its own key. *)
Example clear_suggestion_submitted :
  let act c x := (vision_act (predict_always 40 three_quarters) {[3 := half]} c x).1 in
  let x := demo_run (demo_service [] []) (demo_actions 40) in
  let y := act (VStore (CSuggest 1 3 three_quarters (utc 0) (utc 0) (Some false))) x in
  submitted (daemon (act (VAttempt (utc 2)) (act (VAttempt (utc 1)) y))) = [(3, 1, "autonomous-sort-2")].
Proof. vm_compute. reflexivity. Qed.

(** The threshold is looked up by the chute a class was routed to: class 40 has no threshold of its own, and
    is submitted under that of whichever class the number 3 stands for. *)
Example threshold_is_the_chutes :
  let x := demo_run (demo_service [] []) (demo_actions 40) in
  (route 40 (routing x)).2 = Ok 3
  /\ ({[3 := half]} : gmap Z spec_float) !! 40 = None
  /\ may_autonomously_sort (mkSuggestion' 3 three_quarters (Some false)) {[3 := half]} = true.
Proof. vm_compute. done. Qed.

(** A suggestion that found no sort stays matchable: of two suggestions and then two sorts, the second sort
    is scored against the older suggestion, which was no longer the live one. *)
Example stale_suggestion_matched :
  let x := demo_run (demo_service [mkSortSuccess "op-1" 3 (isoformat 4000000); mkSortSuccess "op-2" 4 (isoformat 5000000)] [])
             (demo_actions 40 ++ [VSuggest (utc 2000000); VPoll (utc 6000000)]) in
  (fun o => (o_suggestion_id o, o_operation_id o, o_correct o)) <$> outcomes_t (cn_committed (store x))
  = [(2, "op-1", 1); (1, "op-2", 0)].
Proof. vm_compute. reflexivity. Qed.
