(* ===== verification/VisionApi.v ===== *)
(** * The HTTP API of the vision service (appliance/vision/src/cs71vision/api.py)

    Reads of the dataset and writes that a person asks for: train, activate, roll
    back, review, start and stop a routing run. The server owns a store and a
    training job; the routing session is shared with the suggestion loop. [json.loads],
    the decimal text of a float and the training job are parameters. *)
From S2P Require Import Prelude PyString Errors IsoTime Json JsonText Operations Http PyFloat VisionErrors Routing Sqlite Dataset Vision.

Definition MAX_BODY_BYTES : Z := 4096.

(** [_ACTIVATE_PATH.fullmatch(path)], its group. *)
Definition _ACTIVATE_PATH (path : string) : option string :=
  if startswith path "/v1/models/" then
    let '(version, rest) := str_span is_digit (str_drop 11 path) in
    if negb (bool_decide (version = "")) && bool_decide (rest = "/activate") then Some version else None
  else None.

Definition _ERROR_STATUS (c : string) : option Z :=
  if bool_decide (c = "UNAUTHENTICATED") then Some 401
  else if bool_decide (c = "RESOURCE_NOT_FOUND") then Some 404
  else if bool_decide (c = "VALIDATION_FAILED") then Some 400
  else if bool_decide (c = "INTERNAL_ERROR") then Some 500
  else None.

(** What a handler may raise. *)
Inductive vapi_exn := ApiError (api_code message : string) | Raised (e : vexn).

Definition api_error {A} (c message : string) : res vapi_exn A := Err (ApiError c message).
Definition invalid {A} (message : string) : res vapi_exn A := api_error "VALIDATION_FAILED" message.
Definition lift_v {A} (r : vresult A) : res vapi_exn A :=
  match r with Ok a => Ok a | Err e => Err (Raised e) | OutOfFuel => OutOfFuel end.

(** ** Reading a request body *)

Definition is_str (v : json) (s : string) : bool := match v with JStr x => bool_decide (x = s) | _ => false end.

Definition _json_object (json_loads : string -> vresult json) (body : string) : res vapi_exn pydict :=
  if bool_decide (body = "") then invalid "a JSON request body is required"
  else
    match json_loads body with
    | Err e => if vinstance e VisionValueError then invalid "the request body is not valid JSON" else Err (Raised e)
    | OutOfFuel => OutOfFuel
    | Ok (JObj l) =>
        let payload := py_dict l in
        if match obj_get "api_version" payload with Some v => is_str v "v1" | None => false end
        then Ok payload
        else invalid "api_version must be 'v1'"
    | Ok _ => invalid "the request body must be a JSON object"
    end.

(** [payload[name]] *)
Definition field (name : string) (payload : pydict) : res vapi_exn json :=
  match obj_get name payload with
  | Some v => Ok v
  | None => Err (Raised (mkVexn VisionKeyError (str_repr name)))
  end.

Definition _int_field (v : json) (name : string) : res vapi_exn Z :=
  match v with JInt n => Ok n | _ => invalid (name +:+ " must be an integer") end.

Definition _require_fields (payload : pydict) (required optional : list string) (name : string) : res vapi_exn unit :=
  if negb (bool_decide (list_to_set required ⊆ obj_keys payload))
     || negb (bool_decide (obj_keys payload ⊆ list_to_set (required ++ optional)))
  then invalid ("a " +:+ name +:+ " routing profile carries exactly " +:+ list_repr (str_sorted required))
  else Ok tt.

(** The loop of [_class_to_slot] from the entries read so far; every exception of [int] on a text is a [ValueError]. *)
Fixpoint read_classes (items : pydict) (acc : list (Z * Z)) : res vapi_exn (list (Z * Z)) :=
  match items with
  | [] => Ok acc
  | (key, value) :: items =>
      match int_of_text key with
      | Ok class_id => slot ← _int_field value "class_to_slot"; read_classes items (dict_set class_id slot acc)
      | _ => invalid "class_to_slot keys must be integers"
      end
  end.
Definition _class_to_slot (raw : json) : res vapi_exn (list (Z * Z)) :=
  match raw with
  | JObj ((_ :: _) as l) => read_classes (py_dict l) []
  | _ => invalid "class_to_slot must be a non-empty object"
  end.

Fixpoint read_slots (items : list json) : res vapi_exn (list Z) :=
  match items with
  | [] => Ok []
  | item :: items => n ← _int_field item "available_slots"; l ← read_slots items; Ok (n :: l)
  end.
Definition _slot_list (raw : json) : res vapi_exn (list Z) :=
  match raw with
  | JArr ((_ :: _) as l) => read_slots l
  | _ => invalid "available_slots must be a non-empty list"
  end.

(** The fields a fixed and a two-pass profile share. *)
Definition read_map (payload : pydict) : res vapi_exn (list (Z * Z) * Z) :=
  raw ← field "class_to_slot" payload;
  m ← _class_to_slot raw;
  raw ← field "overflow_slot" payload;
  o ← _int_field raw "overflow_slot";
  Ok (m, o).

Definition _routing_profile_from (payload : pydict) : res vapi_exn RoutingProfile :=
  match obj_get "kind" payload with
  | Some (JStr kind) =>
      if bool_decide (kind = "fixed") then
        _ ← _require_fields payload ["api_version"; "kind"; "class_to_slot"; "overflow_slot"] [] "fixed";
        p ← read_map payload;
        Ok (FixedMapProfile p.1 p.2)
      else if bool_decide (kind = "dynamic") then
        _ ← _require_fields payload ["api_version"; "kind"; "available_slots"] [] "dynamic";
        raw ← field "available_slots" payload;
        slots ← _slot_list raw;
        Ok (DynamicProfile slots)
      else if bool_decide (kind = "two_pass") then
        _ ← _require_fields payload ["api_version"; "kind"; "class_to_slot"; "overflow_slot"] ["source_group"] "two-pass";
        p ← read_map payload;
        g ← match obj_get "source_group" payload with
            | None | Some JNull => Ok None
            | Some v => n ← _int_field v "source_group"; Ok (Some n)
            end;
        Ok (TwoPassProfile p.1 p.2 g)
      else invalid "kind must be 'fixed', 'dynamic' or 'two_pass'"
  | _ => invalid "kind must be 'fixed', 'dynamic' or 'two_pass'"
  end.

(** [value.astimezone(UTC).isoformat()]; the clock of the server is aware. *)
Definition _rfc3339 (value : datetime) : string := isoformat (wall_us value - default 0 (tz_offset value)).

(** ** The rates *)

Definition fraction (total correct : Z) : option spec_float := if total =? 0 then None else Some (true_div correct total).
Definition false_rate (total correct : Z) : option spec_float := if total =? 0 then None else Some (true_div (total - correct) total).

(** ** The server *)

(** The target is the path as it was sent. *)
Abbreviation HttpRequest := (Request string).

(** [TrainingJob] as the API uses it. *)
Class Trainable (J : Type) := { trigger : M J vexn bool; job_close : M J vexn unit }.

Record VisionApiServer := mkVisionApiServer {
  _token : string;
  _minimum : Z;
  _autonomy_thresholds : list (Z * spec_float);
}.
Definition VisionApiServer_make (service_token : string) (minimum : Z) (thresholds : list (Z * spec_float)) : vresult VisionApiServer :=
  if bool_decide (service_token = "") then vthrow VisionValueError "a service token is required; the API is never unauthenticated"
  else if minimum <=? 0 then vthrow VisionValueError "minimum_examples_per_class must be positive"
  else Ok (mkVisionApiServer (encode_utf8 service_token) minimum thresholds).

Record ApiState (J : Type) := mkApiState { _store : DatasetStore; _training_job : J; _routing : RoutingSession }.
Arguments mkApiState {J}.
Arguments _store {J}.
Arguments _training_job {J}.
Arguments _routing {J}.

Definition authenticate (api : VisionApiServer) (header : option string) : res vapi_exn unit :=
  let '(scheme, presented) := match str_partition " " (default "" header) with
                              | Some (a, b) => (a, b) | None => (default "" header, "") end in
  if negb (bool_decide (str_lower scheme = "bearer"))
     || negb (bool_decide (encode_utf8 (str_strip presented) = _token api))
  then api_error "UNAUTHENTICATED" "a valid local service credential is required"
  else Ok tt.

(** [sorted(counts.items())]; the slots are distinct. *)
Definition by_slot (a b : Z * Z) : Prop := a.1 <= b.1.
#[export] Instance by_slot_dec : RelDecision by_slot := fun a b => decide (a.1 <= b.1).
Definition class_counts (counts : list (Z * Z)) : list (Z * Z) := merge_sort by_slot counts.

Section Api.
Context {J : Type} `{Trainable J} (json_loads : string -> vresult json) (json_float : spec_float -> string).
Abbreviation VA := (M (ApiState J) vapi_exn).

Definition on_store {A} (m : M DatasetStore vexn A) : VA A := fun x =>
  let p := m (_store x) in (mkApiState p.1 (_training_job x) (_routing x), lift_v p.2).
Definition on_job {A} (m : M J vexn A) : VA A := fun x =>
  let p := m (_training_job x) in (mkApiState (_store x) p.1 (_routing x), lift_v p.2).
Definition on_routing {A} (m : M RoutingSession vexn A) : VA A := fun x =>
  let p := m (_routing x) in (mkApiState (_store x) (_training_job x) p.1, lift_v p.2).

(** [try: m except cls as exc: raise ApiError(code, str(exc))] *)
Definition or_api_error {A} (m : VA A) (cls : vision_error) (c : string) : VA A :=
  try_except m (fun e =>
    match e with
    | Raised v => if vinstance v cls then liftR (api_error c (vexn_msg v)) else raise e
    | _ => raise e
    end).

Definition jfloat (o : option spec_float) : json := match o with Some x => JFloat (json_float x) | None => JNull end.
Definition jint (o : option Z) : json := match o with Some n => JInt n | None => JNull end.


Definition _dataset_body (api : VisionApiServer) : VA json :=
  counts ← on_store counts_by_slot;
  let counts := class_counts counts in
  mret (JObj
    [("api_version", JStr "v1");
     ("minimum_examples_per_class", JInt (_minimum api));
     ("classes", JArr ((fun c => JObj [("slot", JInt c.1); ("count", JInt c.2); ("eligible", JBool (_minimum api <=? c.2))]) <$> counts));
     ("training_ready", JBool (existsb (fun c => _minimum api <=? c.2) counts))]).

Definition candidate_body (m : model_row) : json :=
  let c := v_candidate m in
  JObj
    [("version", JInt (v_version m));
     ("trained_at", JStr (v_trained_at m));
     ("included_classes", JArr (JInt <$> included_classes c));
     ("excluded_classes", JArr (JInt <$> excluded_classes c));
     ("accuracy_by_class", JObj ((fun p => (str_of_Z p.1, JFloat (json_float p.2))) <$> accuracy_by_class c));
     ("minimum_examples_per_class", JInt (minimum_examples_per_class c));
     ("training_example_count", JInt (training_example_count c));
     ("holdout_example_count", JInt (holdout_example_count c))].

Definition _models_body : VA json :=
  active ← on_store active_version;
  history ← on_store activations;
  models ← on_store candidates;
  mret (JObj
    [("api_version", JStr "v1");
     ("active_version", jint active);
     ("can_roll_back", JBool (2 <=? Z.of_nat (length history)));
     ("candidates", JArr (candidate_body <$> models))]).

Definition _suggestion_body : VA json :=
  suggestion ← on_store latest_suggestion;
  mret (JObj
    [("api_version", JStr "v1");
     ("suggestion",
        match suggestion with
        | None => JNull
        | Some s =>
            JObj
              [("slot", JInt (suggested_slot s));
               ("confidence", JFloat (json_float (sr_confidence s)));
               ("model_version", JInt (model_version s));
               ("suggested_at", JStr (suggested_at s));
               ("primer_present", match sr_primer_present s with Some b => JBool b | None => JNull end);
               ("requires_confirmation", JBool (requires_operator_confirmation (sr_primer_present s)))]
        end)]).

Definition _suggestion_accuracy_body : VA json :=
  accuracy ← on_store suggestion_accuracy;
  mret (JObj
    [("api_version", JStr "v1");
     ("total", JInt accuracy.1);
     ("correct", JInt accuracy.2);
     ("accuracy", jfloat (fraction accuracy.1 accuracy.2))]).

Definition _autonomy_body (api : VisionApiServer) : VA json :=
  accuracy ← on_store autonomous_accuracy_by_class;
  pending ← on_store pending_autonomous_reviews;
  mret (JObj
    [("api_version", JStr "v1");
     ("thresholds", JObj ((fun p => (str_of_Z p.1, JFloat (json_float p.2))) <$> _autonomy_thresholds api));
     ("accuracy_by_class",
        JObj ((fun e => (str_of_Z e.1,
                 JObj [("total", JInt e.2.1); ("correct", JInt e.2.2); ("false_rate", jfloat (false_rate e.2.1 e.2.2))])) <$> accuracy));
     ("pending_review",
        JArr ((fun a => JObj
                 [("attempt_id", JInt (attempt_id a)); ("suggestion_id", JInt (at_suggestion_id a));
                  ("operation_id", JStr (at_operation_id a)); ("slot", JInt (at_slot a));
                  ("attempted_at", JStr (attempted_at a))]) <$> pending))]).

Definition _autonomous_review_body (now : datetime) (body : string) : VA json :=
  payload ← liftR (_json_object json_loads body);
  if negb (bool_decide (obj_keys payload = {["api_version"; "attempt_id"; "correct"]}))
  then liftR (invalid "an autonomous review carries exactly api_version, attempt_id and correct")
  else
    attempt_id ← liftR (field "attempt_id" payload);
    correct ← liftR (field "correct" payload);
    match attempt_id, correct with
    | JInt id, JBool b =>
        _ ← or_api_error (on_store (record_autonomous_review id b now)) DatasetError "RESOURCE_NOT_FOUND";
        mret (JObj [("api_version", JStr "v1"); ("attempt_id", JInt id); ("correct", JBool b); ("reviewed_at", JStr (_rfc3339 now))])
    | JInt _, _ => liftR (invalid "correct must be a boolean")
    | _, _ => liftR (invalid "attempt_id must be an integer")
    end.

Definition _routing_body : VA json :=
  x ← getS;
  let s := snapshot (_routing x) in
  mret (JObj
    [("api_version", JStr "v1");
     ("active", JBool (rs_active s));
     ("kind", match rs_profile s with Some p => JStr (Routing.kind p) | None => JNull end);
     ("started_at", match rs_started_at s with Some t => JStr t | None => JNull end);
     ("source_group", match rs_profile s with Some (TwoPassProfile _ _ g) => jint g | _ => JNull end);
     ("legend",
        JArr ((fun e => JObj [("slot", JInt (le_slot e)); ("class_id", jint (le_class_id e)); ("overflow", JBool (le_overflow e))])
                <$> rs_legend s))]).

(** [started] is the clock of the session. *)
Definition _routing_start_body (started : Z) (body : string) : VA json :=
  payload ← liftR (_json_object json_loads body);
  profile ← liftR (_routing_profile_from payload);
  _ ← or_api_error (on_routing (Routing.start profile started)) RoutingError "VALIDATION_FAILED";
  _routing_body.

Definition _routing_stop_body : VA json :=
  _ ← on_routing Routing.stop;
  _routing_body.

Definition _train_body : VA json :=
  started ← on_job trigger;
  mret (JObj [("api_version", JStr "v1"); ("started", JBool started)]).

Definition activated_body (version : Z) (now : datetime) : json :=
  JObj [("api_version", JStr "v1"); ("active_version", JInt version); ("activated_at", JStr (_rfc3339 now))].

Definition _activate_body (now : datetime) (version : Z) : VA json :=
  _ ← or_api_error (on_store (activate version now)) DatasetError "RESOURCE_NOT_FOUND";
  mret (activated_body version now).

(** [history[-2]] *)
Definition _rollback_body (now : datetime) : VA json :=
  history ← on_store activations;
  match reverse history with
  | _ :: previous :: _ =>
      _ ← on_store (activate (a_version previous) now);
      mret (activated_body (a_version previous) now)
  | _ => liftR (api_error "VALIDATION_FAILED" "there is no previous version to roll back to")
  end.

(** [now] is the clock of the server, [started] that of the routing session. *)
Definition route (api : VisionApiServer) (now : datetime) (started : Z) (method path body : string) : VA json :=
  let missing := api_error "RESOURCE_NOT_FOUND" in
  if bool_decide (method ∈ ["GET"; "HEAD"]) then
    if bool_decide (path = "/v1/dataset") then _dataset_body api
    else if bool_decide (path = "/v1/models") then _models_body
    else if bool_decide (path = "/v1/suggestion") then _suggestion_body
    else if bool_decide (path = "/v1/suggestion-accuracy") then _suggestion_accuracy_body
    else if bool_decide (path = "/v1/autonomy") then _autonomy_body api
    else if bool_decide (path = "/v1/routing") then _routing_body
    else liftR (missing (path +:+ " is not a resource of this API"))
  else if bool_decide (method = "POST") then
    if bool_decide (path = "/v1/train") then _train_body
    else if bool_decide (path = "/v1/rollback") then _rollback_body now
    else if bool_decide (path = "/v1/autonomous-reviews") then _autonomous_review_body now body
    else if bool_decide (path = "/v1/routing/start") then _routing_start_body started body
    else if bool_decide (path = "/v1/routing/stop") then _routing_stop_body
    else
      match _ACTIVATE_PATH path with
      | Some text =>
          match int_of_text text with
          | Ok version => _activate_body now version
          | _ => raise (Raised (mkVexn VisionValueError "Exceeds the limit (4300 digits) for integer string conversion"))
          end
      | None => liftR (missing ("POST " +:+ path +:+ " is not a resource of this API"))
      end
  else liftR (missing (method +:+ " " +:+ path +:+ " is not available")).

(** ** The handler *)

Definition _read_body (r : HttpRequest) : string :=
  match headers_get "Content-Length" r with
  | None => ""
  | Some declared =>
      match int_of_text declared with
      | Ok n => let length := Z.min n MAX_BODY_BYTES in if 0 <? length then rfile_read length (rfile r) else ""
      | _ => ""
      end
  end.

Record Reply := mkReply { reply_status : Z; reply_headers : list (string * string); reply_body : json }.

(** The bytes sent are [dumps] of the body. *)
Definition _write (status : Z) (body : json) : Reply :=
  mkReply status
    [("Content-Type", "application/json"); ("Content-Length", str_of_Z (slen (dumps body))); ("Cache-Control", "no-store")] body.

Definition error_body (c message : string) : json := JObj [("code", JStr c); ("message", JStr message)].

Definition handle_error (e : vapi_exn) : Reply :=
  match e with
  | ApiError c message => _write (default 500 (_ERROR_STATUS c)) (error_body c message)
  | Raised _ => _write 500 (error_body "INTERNAL_ERROR" "the vision service could not complete this request")
  end.

Definition _dispatch (api : VisionApiServer) (now : datetime) (started : Z) (r : HttpRequest) : VA Reply :=
  try_case
    (_ ← liftR (authenticate api (headers_get "Authorization" r));
     route api now started (method r) (target r) (_read_body r))
    (fun body => mret (_write 200 body))
    (fun e => mret (handle_error e)).

(** [close()], once the socket is released. *)
Definition close : VA unit :=
  _ ← on_job job_close;
  on_store Dataset.close.
End Api.
