(* ===== verification/VisionApiSpec.v ===== *)
(** * What the requests of the vision API can do

    Every request of every caller against a service whose store may fail at any
    statement: the reply, and the one thing the request may have changed. *)
From Stdlib Require Import SpecFloat.
From S2P Require Import Prelude PyString Errors IsoTime Json JsonText Operations Http VisionErrors Routing Sqlite Dataset Vision VisionApi.

(** ** What a store call commits *)

(** A computation that commits nothing, and ends. *)
Definition reads {A} (m : M DatasetStore vexn A) : Prop := forall c, cn_committed (m c).1 = cn_committed c /\ (m c).2 <> OutOfFuel.

Lemma reads_bind {A B} (m : M DatasetStore vexn A) (f : A -> M DatasetStore vexn B) : reads m -> (forall a, reads (f a)) -> reads (m ≫= f).
Proof.
  intros Hm Hf c. unfold mbind, M_bind. destruct (Hm c) as [Hc Hr]. destruct (m c) as [c' [a|e|]]; [|done..]. cbn [fst] in Hc.
  rewrite <- Hc. apply Hf.
Qed.
Lemma reads_try {A} (m : M DatasetStore vexn A) h : reads m -> (forall e, reads (h e)) -> reads (try_except m h).
Proof.
  intros Hm Hh c. unfold try_except. destruct (Hm c) as [Hc Hr]. destruct (m c) as [c' [a|e|]]; [done| |done]. cbn [fst] in Hc.
  rewrite <- Hc. apply Hh.
Qed.
Lemma reads_query {A} (f : Tables -> A) : reads (query f).
Proof.
  intros c. unfold query, sql_query, sql_execute, consult, cn_set_current, cn_current. destruct c as [d w cl fs]. simpl.
  by destruct fs as [|[] fs], w.
Qed.
Lemma reads_guard {A} (body : M DatasetStore vexn A) : reads body -> reads (_guard body).
Proof.
  intros Hb. unfold _guard. apply reads_bind; [intros c; unfold _require_open; by destruct (cn_closed c)|intros _].
  apply reads_try; [done|]. intros e. by destruct (is_sqlite_error e).
Qed.
#[export] Hint Resolve reads_guard reads_query : cs71.

(** The statements that open and close a transaction. *)
Lemma wp_begin Q (c : DatasetStore) :
  (forall c', cn_committed c' = cn_committed c -> cn_working c' = Some (cn_committed c) -> Q c' (Ok tt)) ->
  (forall c' e, cn_committed c' = cn_committed c -> Q c' (Err e)) -> wp (sql_begin sqlite_error) Q c.
Proof.
  intros HOk HErr. unfold wp, sql_begin, consult. destruct c as [d w cl fs]. destruct fs as [|[] fs], w; simpl; auto.
Qed.
Lemma wp_rollback Q (c : DatasetStore) :
  (forall c', cn_committed c' = cn_committed c -> Q c' (Ok tt)) ->
  (forall c' e, cn_committed c' = cn_committed c -> Q c' (Err e)) -> wp (sql_rollback sqlite_error) Q c.
Proof.
  intros HOk HErr. unfold wp, sql_rollback, consult. destruct c as [d w cl fs]. destruct fs as [|[] fs], w; simpl; auto.
Qed.
Lemma wp_commit Q (c : DatasetStore) :
  (forall c' t, cn_working c = Some t -> cn_committed c' = t -> Q c' (Ok tt)) ->
  (forall c' e, cn_committed c' = cn_committed c -> Q c' (Err e)) -> wp (sql_commit sqlite_error) Q c.
Proof.
  intros HOk HErr. unfold wp, sql_commit, consult. destruct c as [d w cl fs]. destruct fs as [|[] fs], w; simpl; eauto.
Qed.

(** What a body leaves for its transaction to commit. *)
Definition leaves {A} (d : Tables) (R : Tables -> Prop) (c : DatasetStore) (r : vresult A) : Prop :=
  cn_committed c = d /\ r <> OutOfFuel /\ forall a, r = Ok a -> exists t, cn_working c = Some t /\ R t.

(** A transaction commits what its body left, or nothing. *)
Lemma vision_wp_transaction {A} (body : M DatasetStore vexn A) (R : Tables -> Prop) (Q : DatasetStore -> vresult A -> Prop) c :
  (forall c1, cn_committed c1 = cn_committed c -> cn_working c1 = Some (cn_committed c) -> wp body (leaves (cn_committed c) R) c1) ->
  (forall c' r, r <> OutOfFuel -> cn_committed c' = cn_committed c \/ R (cn_committed c') -> Q c' r) -> wp (_transaction body) Q c.
Proof.
  intros Hb HQ. unfold _transaction. wp_step. unfold wp at 1, _require_open. destruct (cn_closed c); cbn [fst snd]; [by apply HQ; [|left]|].
  unfold bind_post at 1. do 2 wp_step. apply wp_begin.
  - intros c1 E1 E2. unfold bind_post at 1. eapply wp_conseq; [by apply Hb|]. intros c2 r (Hd & Hf & HR). destruct r as [a|e|]; [|..|done].
    + destruct (HR a eq_refl) as (t & Ht & Hrel). do 2 wp_step. apply wp_commit.
      * intros c3 t' Ht' <-. do 2 wp_step. rewrite Ht in Ht'. injection Ht' as ->. apply HQ; [done|by right].
      * intros c3 e E3. destruct (is_sqlite_error e); (apply HQ; [done|left; simpl; congruence]).
    + wp_step. apply wp_rollback; [intros c3 E3|intros c3 e' E3].
      * unfold bind_post. destruct (is_sqlite_error e); (apply HQ; [done|left; simpl; congruence]).
      * apply HQ; [done|left; simpl; congruence].
  - intros c1 e E1. unfold bind_post at 1. wp_step. apply wp_rollback; [intros c3 E3|intros c3 e' E3].
    + unfold bind_post. destruct (is_sqlite_error e); (apply HQ; [done|left; simpl; congruence]).
    + apply HQ; [done|left; simpl; congruence].
Qed.

(** One statement inside a transaction. *)
Lemma vision_wp_execute {A} (f : Tables -> vresult (Tables * A)) d (R : Tables -> Prop) c : cn_committed c = d -> cn_working c = Some d ->
  f d <> OutOfFuel -> (forall t a, f d = Ok (t, a) -> R t) -> wp (execute f) (leaves d R) c.
Proof.
  intros <- Hw Hf HR. unfold wp, execute, sql_execute, consult, leaves, cn_set_current, cn_current. destruct c as [d w cl fs].
  cbn [cn_committed cn_working] in *. subst w. destruct fs as [|[] fs]; simpl; [| |by split|by split];
    (destruct (f d) as [[t a]|e|]; simpl; [|by split|done]); split_and!; try done; intros ? _; exists t; split; [done|by eapply HR|done|by eapply HR].
Qed.
Lemma wp_query_in {A} (f : Tables -> A) d Q c : cn_committed c = d -> cn_working c = Some d ->
  (forall c', cn_committed c' = d -> cn_working c' = Some d -> Q c' (Ok (f d))) ->
  (forall c' e, cn_committed c' = d -> Q c' (Err e)) -> wp (query f) Q c.
Proof.
  intros <- Hw HOk HErr. unfold wp, query, sql_query, sql_execute, consult, cn_set_current, cn_current. destruct c as [d w cl fs].
  cbn [cn_committed cn_working] in *. subst w. destruct fs as [|[] fs]; simpl; auto.
Qed.

(** What [activate] and [record_autonomous_review] may commit. *)
Definition activates (version : Z) (now : datetime) (d t : Tables) : Prop :=
  exists m id, _encode_time now = Ok m /\ insert_activation version m d = Ok (t, id).
Definition reviews (attempt : Z) (correct : bool) (now : datetime) (d t : Tables) : Prop :=
  exists m id, _encode_time now = Ok m /\ insert_review attempt (if correct then 1 else 0) m d = Ok (t, id).

Definition commits {A} (R : Tables -> Prop) (c c' : DatasetStore) (r : vresult A) : Prop :=
  r <> OutOfFuel /\ (cn_committed c' = cn_committed c \/ R (cn_committed c')).

Lemma bind_ints_ends l : bind_ints l <> OutOfFuel.
Proof. unfold bind_ints. by destruct (forallb _ _). Qed.
Lemma encode_time_ends t : Dataset._encode_time t <> OutOfFuel.
Proof. unfold Dataset._encode_time. by destruct (tz_offset t). Qed.

Lemma vision_wp_activate version now c : wp (activate version now) (fun c' r => commits (activates version now (cn_committed c)) c c' r) c.
Proof.
  apply (vision_wp_transaction _ (activates version now (cn_committed c))); [|by intros].
  intros c1 E1 E2. do 2 wp_step. pose proof (bind_ints_ends [version]). destruct (bind_ints [version]); [|by split|done]. wp_steps.
  apply (wp_query_in _ (cn_committed c)); [done..| |by intros]. intros c2 E3 E4. wp_steps. destruct (negb _); [by split|]. wp_steps.
  pose proof (encode_time_ends now). destruct (Dataset._encode_time now) as [m|e|] eqn:Em; [|by split|done]. wp_steps.
  apply vision_wp_execute; [done|done| |]; unfold insert_activation; destruct (negb _) eqn:En; try done.
  intros t' a' [= <- <-]. exists m. eexists. split; [done|]. unfold insert_activation. by rewrite En.
Qed.

Lemma wp_review attempt correct now c :
  wp (record_autonomous_review attempt correct now) (fun c' r => commits (reviews attempt correct now (cn_committed c)) c c' r) c.
Proof.
  apply (vision_wp_transaction _ (reviews attempt correct now (cn_committed c))); [|by intros].
  intros c1 E1 E2. do 2 wp_step. pose proof (bind_ints_ends [attempt]). destruct (bind_ints [attempt]); [|by split|done]. wp_steps.
  apply (wp_query_in _ (cn_committed c)); [done..| |by intros]. intros c2 E3 E4. wp_steps. destruct (negb _); [by split|]. wp_steps.
  pose proof (encode_time_ends now). destruct (Dataset._encode_time now) as [m|e|] eqn:Em; [|by split|done]. wp_steps.
  apply vision_wp_execute; [done|done| |]; unfold insert_review; repeat case_bool_decide; try done; simpl; try done.
  - intros t' a' [= <- <-]. exists m. eexists. split; [done|]. unfold insert_review. rewrite bool_decide_false by done. by rewrite bool_decide_true.
Qed.

Lemma validate_classes_ends l : halts (validate_classes l).
Proof. induction l as [|[c s] l IH]; [done|]. simpl. by repeat case_match. Qed.
Lemma validate_slots_ends l : halts (validate_slots l).
Proof. induction l as [|s l IH]; [done|]. simpl. by case_match. Qed.
Lemma validate_map_ends m o : halts (validate_map m o).
Proof.
  unfold validate_map. case_match; [done|]. apply halts_bind; [apply validate_classes_ends|intros _ _].
  case_match; [done|]. by case_match.
Qed.
Lemma validate_profile_ends p : halts (validate_profile p).
Proof.
  destruct p as [m o|slots|m o g]; cbn [validate_profile]; [apply validate_map_ends| |].
  - case_match; [done|]. apply halts_bind; [apply validate_slots_ends|intros _ _]. by case_match.
  - apply halts_bind; [apply validate_map_ends|intros _ _]. destruct g; [|done]. by case_match.
Qed.

(** ** The one thing a request may change *)

Section Effects.
Context {J : Type} `{Trainable J} (json_loads : string -> vresult json) (json_float : spec_float -> string).
Context (loads_halts : forall s, json_loads s <> OutOfFuel) (trigger_halts : forall j : J, (trigger j).2 <> OutOfFuel).
Abbreviation State := (ApiState J).
Abbreviation VA := (M State vapi_exn).
Abbreviation rows x := (cn_committed (_store x)).

Record unchanged (x x' : State) : Prop := {
  un_rows : rows x' = rows x;
  un_job : _training_job x' = _training_job x;
  un_routing : _routing x' = _routing x;
}.

Inductive effect (now : datetime) (started : Z) (x x' : State) : Prop :=
| effect_none (Hu : unchanged x x')
| effect_trained (Hr : rows x' = rows x) (Hs : _routing x' = _routing x) (Hj : _training_job x' = (trigger (_training_job x)).1)
| effect_activated version (Hj : _training_job x' = _training_job x) (Hs : _routing x' = _routing x)
    (Hr : activates version now (rows x) (rows x'))
| effect_reviewed attempt correct (Hj : _training_job x' = _training_job x) (Hs : _routing x' = _routing x)
    (Hr : reviews attempt correct now (rows x) (rows x'))
| effect_started p (Hr : rows x' = rows x) (Hj : _training_job x' = _training_job x)
    (Hv : validate_profile p = Ok tt) (Hs : _routing x' = mkRoutingSession (Some p) (Some started) [])
| effect_stopped (Hr : rows x' = rows x) (Hj : _training_job x' = _training_job x) (Hs : _routing x' = RoutingSession_init).

#[local] Instance unchanged_preorder : PreOrder unchanged.
Proof. split; [by split|]. intros a b c [] []. split; by etrans. Qed.

(** A code the handlers raise: one the table of statuses knows, other than the internal one. *)
Definition known (c : string) : Prop := exists st, _ERROR_STATUS c = Some st /\ st <> 500.
#[local] Hint Extern 0 (known _) => (eexists; split; [reflexivity|discriminate]) : core.

Definition good {A} (r : res vapi_exn A) : Prop :=
  match r with Err (ApiError c _) => known c | OutOfFuel => False | _ => True end.

Definition answers {A} (x x' : State) (r : res vapi_exn A) : Prop := unchanged x x' /\ good r.

Lemma wp_on_store {A} (m : M DatasetStore vexn A) Q (x : State) :
  wp m (fun c r => Q (mkApiState c (_training_job x) (_routing x)) (lift_v r)) (_store x) -> wp (on_store m) Q x.
Proof. done. Qed.

Lemma vision_wp_read {A} (m : M DatasetStore vexn A) Q (x : State) : reads m ->
  (forall x' a, unchanged x x' -> Q x' (Ok a)) -> (forall x' e, unchanged x x' -> Q x' (Err (Raised e))) -> wp (on_store m) Q x.
Proof.
  intros Hm HOk HErr. apply wp_on_store. unfold wp. destruct (Hm (_store x)) as [Hc Hf]. destruct (m (_store x)) as [c [a|e|]]; cbn [fst snd] in *; [| |done].
  - by apply HOk.
  - by apply HErr.
Qed.

(** A body that only reads. *)
Definition viewing {A} (m : VA A) : Prop := forall x, wp m (answers x) x.

Lemma viewing_ret {A} (a : A) : viewing (mret a).
Proof. by intros x. Qed.
Lemma viewing_get : viewing getS.
Proof. by intros x. Qed.
Lemma viewing_lift {A} (r : res vapi_exn A) : good r -> viewing (liftR r).
Proof. by intros Hr x. Qed.
Lemma viewing_store {A} (m : M DatasetStore vexn A) : reads m -> viewing (on_store m).
Proof. intros Hm x. apply vision_wp_read; [done|by intros..]. Qed.
Lemma viewing_bind {A B} (m : VA A) (f : A -> VA B) : viewing m -> (forall a, viewing (f a)) -> viewing (m ≫= f).
Proof.
  intros Hm Hf x. apply wp_bind. eapply wp_conseq; [apply Hm|]. intros x1 r [Hu Hg]. destruct r as [a|e|]; cbn [bind_post]; [|by split|done].
  eapply wp_conseq; [apply Hf|]. intros x2 r2 [Hu2 Hg2]. split; [by etrans|done].
Qed.
#[local] Hint Resolve viewing_ret viewing_get viewing_store : cs71.

Ltac view := repeat first [apply viewing_bind; [|intros] | match goal with |- viewing (match ?x with _ => _ end) => destruct x end | solve [eauto with cs71]].

Lemma viewing_dataset api : viewing (_dataset_body api).
Proof. unfold _dataset_body, counts_by_slot. view. Qed.
Lemma viewing_models : viewing (_models_body json_float).
Proof. unfold _models_body, active_version, activations, candidates. view. Qed.
Lemma viewing_suggestion : viewing (_suggestion_body json_float).
Proof. unfold _suggestion_body, latest_suggestion. view. Qed.
Lemma viewing_accuracy : viewing (_suggestion_accuracy_body json_float).
Proof. unfold _suggestion_accuracy_body, suggestion_accuracy. view. Qed.
Lemma viewing_autonomy api : viewing (_autonomy_body json_float api).
Proof. unfold _autonomy_body, autonomous_accuracy_by_class, pending_autonomous_reviews. view. Qed.
Lemma viewing_routing : viewing _routing_body.
Proof. unfold _routing_body. view. Qed.

(** Reading a body raises only what the table knows. *)
Lemma good_bind {A B} (r : res vapi_exn A) (f : A -> res vapi_exn B) : good r -> (forall a, good (f a)) -> good (r ≫= f).
Proof. destruct r; simpl; auto. Qed.
Lemma good_invalid {A} message : good (invalid (A:=A) message).
Proof. by eexists. Qed.
Lemma good_ok {A} (a : A) : good (Ok a).
Proof. done. Qed.
#[local] Hint Resolve good_invalid good_ok : cs71.
Ltac well :=
  repeat first [solve [eauto with cs71] | match goal with |- good (_ ≫= _) => apply good_bind; [|intros] end
               | match goal with |- good (match ?x with _ => _ end) => destruct x end].

Lemma good_json_object body : good (_json_object json_loads body).
Proof.
  unfold _json_object. pose proof (loads_halts body). destruct (bool_decide _); [well|]. destruct (json_loads body) as [v|e|]; [destruct v; well| |done].
  by destruct (vinstance _ _); [well|].
Qed.
Lemma good_field name payload : good (field name payload).
Proof. unfold field. by destruct (obj_get _ _). Qed.
Lemma good_int v name : good (_int_field v name).
Proof. unfold _int_field. well. Qed.
Lemma good_fields payload required optional name : good (_require_fields payload required optional name).
Proof. unfold _require_fields. well. Qed.
#[local] Hint Resolve good_json_object good_field good_int good_fields : cs71.
Lemma good_classes items acc : good (read_classes items acc).
Proof. revert acc. induction items as [|[k v] items IH]; intros acc; cbn [read_classes]; well. Qed.
Lemma good_slots items : good (read_slots items).
Proof. induction items as [|v items IH]; cbn [read_slots]; well. Qed.
#[local] Hint Resolve good_classes good_slots : cs71.
Lemma good_map payload : good (read_map payload).
Proof. unfold read_map, _class_to_slot. well. Qed.
#[local] Hint Resolve good_map : cs71.
Lemma good_profile payload : good (_routing_profile_from payload).
Proof. unfold _routing_profile_from, _slot_list. well. Qed.
#[local] Hint Resolve good_profile : cs71.

(** What a handler of a write does. *)
Definition acts {A} (now : datetime) (started : Z) (m : VA A) : Prop := forall x, wp m (fun x' r => good r /\ effect now started x x') x.

Lemma acts_viewing {A} now started (m : VA A) : viewing m -> acts now started m.
Proof. intros Hm x. eapply wp_conseq; [apply Hm|]. intros x' r [Hu Hg]. split; [done|by apply effect_none]. Qed.

(** After an effect, something that only reads. *)
Lemma effect_then now started (x x1 x2 : State) : effect now started x x1 -> unchanged x1 x2 -> effect now started x x2.
Proof.
  intros He [H1 H2 H3]. destruct He as [[]| | | | |].
  - apply effect_none. split; congruence.
  - apply effect_trained; congruence.
  - eapply effect_activated; [congruence..|by rewrite H1].
  - eapply effect_reviewed; [congruence..|by rewrite H1].
  - eapply effect_started; [congruence..| |]; [done|congruence].
  - apply effect_stopped; congruence.
Qed.
Lemma acts_then {A B} now started (m : VA A) (f : A -> VA B) : acts now started m -> (forall a, viewing (f a)) -> acts now started (m ≫= f).
Proof.
  intros Hm Hf x. apply wp_bind. eapply wp_conseq; [apply Hm|]. intros x1 r [Hg He]. destruct r as [a|e|]; cbn [bind_post]; [|by split|done].
  eapply wp_conseq; [apply Hf|]. intros x2 r2 [Hu Hg2]. split; [done|by eapply effect_then].
Qed.
Lemma acts_after {A B} now started (m : VA A) (f : A -> VA B) : viewing m -> (forall a, acts now started (f a)) -> acts now started (m ≫= f).
Proof.
  intros Hm Hf x. apply wp_bind. eapply wp_conseq; [apply Hm|]. intros x1 r [Hu Hg]. destruct r as [a|e|]; cbn [bind_post]; [|split; [done|by apply effect_none]|done].
  eapply wp_conseq; [apply Hf|]. intros x2 r2 [Hg2 He]. split; [done|]. destruct Hu as [U1 U2 U3]. destruct He as [[]| | | | |].
  - apply effect_none. split; congruence.
  - apply effect_trained; congruence.
  - eapply effect_activated; [congruence..|by rewrite <- U1].
  - eapply effect_reviewed; [congruence..|by rewrite <- U1].
  - eapply effect_started; [congruence..| |]; [done|congruence].
  - apply effect_stopped; congruence.
Qed.
Lemma acts_or_error {A} now started (m : VA A) cls c : known c -> acts now started m -> acts now started (or_api_error m cls c).
Proof.
  intros Hc Hm x. unfold or_api_error. apply wp_try. eapply wp_conseq; [apply Hm|]. intros x' r [Hg He].
  destruct r as [a|[c' msg|v]|]; [by split|by split| |done]. by destruct (vinstance v cls).
Qed.

Lemma acts_activate now started version : acts now started (on_store (activate version now)).
Proof.
  intros x. apply wp_on_store. eapply wp_conseq; [apply vision_wp_activate|]. intros c r [Hf Hr]. split; [by destruct r|].
  destruct Hr as [Hr|Hr]; [by apply effect_none|by eapply effect_activated].
Qed.
Lemma acts_review now started id b : acts now started (on_store (record_autonomous_review id b now)).
Proof.
  intros x. apply wp_on_store. eapply wp_conseq; [apply wp_review|]. intros c r [Hf Hr]. split; [by destruct r|].
  destruct Hr as [Hr|Hr]; [by apply effect_none|by eapply effect_reviewed].
Qed.
Lemma acts_start now started p : acts now started (on_routing (Routing.start p started)).
Proof.
  intros x. unfold on_routing, Routing.start, wp, mbind, M_bind, liftR. destruct (validate_profile p) as [[]|e|] eqn:Ev; cbn [fst snd lift_v].
  - split; [done|]. by eapply effect_started.
  - split; [done|]. by apply effect_none.
  - by destruct (validate_profile_ends p).
Qed.
Lemma acts_stop now started : acts now started (on_routing Routing.stop).
Proof. intros x. split; [done|]. by apply effect_stopped. Qed.
Lemma acts_trigger now started : acts now started (on_job trigger).
Proof.
  intros x. unfold on_job, wp. cbn [fst snd]. pose proof (trigger_halts (_training_job x)). split; [by destruct (trigger _).2|by apply effect_trained].
Qed.

Lemma acts_post now started path body : acts now started (
    if bool_decide (path = "/v1/train") then _train_body
    else if bool_decide (path = "/v1/rollback") then _rollback_body now
    else if bool_decide (path = "/v1/autonomous-reviews") then _autonomous_review_body json_loads now body
    else if bool_decide (path = "/v1/routing/start") then _routing_start_body json_loads started body
    else if bool_decide (path = "/v1/routing/stop") then _routing_stop_body
    else
      match _ACTIVATE_PATH path with
      | Some text =>
          match int_of_text text with
          | Ok version => _activate_body now version
          | _ => raise (Raised (mkVexn VisionValueError "Exceeds the limit (4300 digits) for integer string conversion"))
          end
      | None => liftR (api_error "RESOURCE_NOT_FOUND" ("POST " +:+ path +:+ " is not a resource of this API"))
      end).
Proof.
  assert (forall A c msg, known c -> acts (A:=A) now started (liftR (api_error c msg))) as Herr.
  { intros A c msg Hc. by apply acts_viewing, viewing_lift. }
  assert (forall A (r : res vapi_exn A), good r -> viewing (liftR r)) as Hlift by (intros; by apply viewing_lift).
  repeat case_bool_decide.
  - unfold _train_body. apply acts_then; [apply acts_trigger|intros; apply viewing_ret].
  - unfold _rollback_body, activations. apply acts_after; [view|intros history]. destruct (reverse history) as [|a [|b l]]; [by apply Herr..|].
    apply acts_then; [apply acts_activate|intros; apply viewing_ret].
  - unfold _autonomous_review_body. apply acts_after; [apply Hlift; eauto with cs71|intros payload].
    destruct (negb _); [by apply Herr|]. do 2 (apply acts_after; [apply Hlift; eauto with cs71|intros ?]).
    repeat case_match; try (by apply Herr). apply acts_then; [apply acts_or_error; [done|apply acts_review]|intros; apply viewing_ret].
  - unfold _routing_start_body. do 2 (apply acts_after; [apply Hlift; eauto with cs71|intros ?]).
    apply acts_then; [apply acts_or_error; [done|apply acts_start]|intros; apply viewing_routing].
  - unfold _routing_stop_body. apply acts_then; [apply acts_stop|intros; apply viewing_routing].
  - destruct (_ACTIVATE_PATH path) as [text|]; [|by apply Herr]. destruct (int_of_text text) as [version|e|];
      [|intros x; split; [done|by apply effect_none]..].
    unfold _activate_body. apply acts_then; [apply acts_or_error; [done|apply acts_activate]|intros; apply viewing_ret].
Qed.

(** A request that is not a POST reads. *)
Lemma vision_acts_route api now started m path body :
  acts now started (route json_loads json_float api now started m path body)
  /\ (m <> "POST" -> viewing (route json_loads json_float api now started m path body)).
Proof.
  unfold route. destruct (bool_decide (m ∈ ["GET"; "HEAD"])) eqn:Eg.
  - clear Eg. match goal with |- acts _ _ ?m /\ _ => assert (viewing m) as Hv end; [|split; [by apply acts_viewing|done]].
    repeat case_bool_decide; [apply viewing_dataset|apply viewing_models|apply viewing_suggestion|apply viewing_accuracy
      |apply viewing_autonomy|apply viewing_routing|apply viewing_lift; by eexists].
  - destruct (bool_decide (m = "POST")) eqn:Ep; bool_inv; [split; [apply acts_post|done]|].
    split; [apply acts_viewing|intros _]; (apply viewing_lift; by eexists).
Qed.

Lemma good_authenticate api header : good (authenticate api header).
Proof. unfold authenticate. destruct (str_partition _ _) as [[a b]|]; (case_match; [by eexists|done]). Qed.

(** ** The theorems *)

(** What a rows-changing effect keeps. *)
Lemma effect_keeps now started x x' : tables_ok (rows x) -> effect now started x x' -> tables_ok (rows x') /\ grows (rows x) (rows x').
Proof.
  intros Hok He. destruct He as [[Hr _ _]|Hr _ _|v _ _ (m & id & _ & Hr)|a b _ _ (m & id & _ & Hr)|p Hr _ _ _|Hr _ _].
  1, 2, 5, 6: by rewrite Hr.
  - by apply (insert_activation_law v m _ _ id).
  - by apply (insert_review_law a b m _ _ id).
Qed.

Definition authentic (api : VisionApiServer) (r : HttpRequest) : bool := is_ok (authenticate api (headers_get "Authorization" r)).

(** C13: a request of the vision API changes at most one thing, and only where it may. Whatever statements of the
    store fail, and whatever the request holds, it either changes nothing, or it is an authenticated POST that did
    exactly one of: asking the training job for a run, appending one activation of a stored model, appending one
    review of a stored attempt, starting a routing run with a valid profile, or stopping the run. No request adds or alters an
    example, a model, a suggestion, an outcome or an attempt, and the dataset stays the append-only history it is. *)
Theorem vision_requests_contained (api : VisionApiServer) (now : datetime) (started : Z) (r : HttpRequest) (x : State) :
  tables_ok (rows x) ->
  let x' := (_dispatch json_loads json_float api now started r x).1 in
  tables_ok (rows x') /\ grows (rows x) (rows x')
  /\ effect now started x x'
  /\ (unchanged x x' \/ authentic api r = true /\ method r = "POST").
Proof.
  intros Hok x'. assert (effect now started x x' /\ (unchanged x x' \/ authentic api r = true /\ method r = "POST")) as [He Hu].
  { subst x'. unfold _dispatch, try_case, authentic, mbind, M_bind, liftR. destruct (authenticate api _) as [[]|e|]; cbn [fst is_ok];
      [|split; [by apply effect_none|by left]..].
    destruct (vision_acts_route api now started (method r) (target r) (_read_body r)) as [Ha Hv]. specialize (Ha x). specialize (fun H => Hv H x).
    unfold wp, answers in Ha, Hv. destruct (route _ _ _ _ _ _ _ _ x) as [x1 o]. cbn [fst snd] in *.
    assert (forall p : State * res vapi_exn Reply, p = match (x1, o) with (s', Ok a) => (mret (_write 200 a) : VA Reply) s'
       | (s', Err e) => (mret (handle_error e) : VA Reply) s' | (s', OutOfFuel) => (s', OutOfFuel) end -> p.1 = x1) as Hp by (intros p ->; by destruct o).
    rewrite (Hp _ eq_refl). split; [apply Ha|]. destruct (decide (method r = "POST")); [by right|left; by apply Hv]. }
  split_and!; [|by destruct (effect_keeps _ _ _ _ Hok He)..|done]. by destruct (effect_keeps _ _ _ _ Hok He).
Qed.

(** Every request of the vision API is answered. Whatever it holds and whatever fails, the reply is one of: 200 with
    the body of its resource; or an error object of exactly a code and a message, sent with the
    status of that code. A failure the handlers do not know says nothing but that it happened, and the length sent is that of the
    bytes sent. *)
Theorem vision_requests_answered (api : VisionApiServer) (now : datetime) (started : Z) (r : HttpRequest) (x : State) :
  exists reply, (_dispatch json_loads json_float api now started r x).2 = Ok reply
    /\ In ("Content-Length", str_of_Z (slen (dumps (reply_body reply)))) (reply_headers reply)
    /\ ((reply_status reply = 200 /\ authentic api r = true
           /\ (route json_loads json_float api now started (method r) (target r) (_read_body r) x).2 = Ok (reply_body reply))
        \/ exists c message, reply_body reply = error_body c message /\ _ERROR_STATUS c = Some (reply_status reply)
             /\ (reply_status reply = 500 -> message = "the vision service could not complete this request")).
Proof.
  assert (forall e : vapi_exn, good (A:=json) (Err e) -> exists c message, reply_body (handle_error e) = error_body c message
    /\ _ERROR_STATUS c = Some (reply_status (handle_error e))
    /\ (reply_status (handle_error e) = 500 -> message = "the vision service could not complete this request")) as Herr.
  { intros [c message|e] Hg; simpl; [|by do 2 eexists]. destruct Hg as (st & Hst & Hne). exists c, message. by rewrite Hst. }
  assert (forall status body, In ("Content-Length", str_of_Z (slen (dumps body))) (reply_headers (_write status body))) as Hlen by (intros; simpl; auto).
  unfold _dispatch, try_case, authentic, mbind, M_bind, liftR. pose proof (good_authenticate api (headers_get "Authorization" r)) as Hga.
  destruct (authenticate api _) as [[]|e|]; cbn [is_ok]; [| |done].
  - destruct (vision_acts_route api now started (method r) (target r) (_read_body r)) as [Ha _]. specialize (Ha x). destruct Ha as [Hg _].
    destruct (route _ _ _ _ _ _ _ _ x) as [x1 [body|e|]]; cbn [fst snd] in *; [| |done].
    + eexists. split; [done|]. split; [apply Hlen|]. by left.
    + eexists. split; [done|]. split; [by destruct e; apply Hlen|]. right. by apply Herr.
  - eexists. split; [done|]. split; [by destruct e; apply Hlen|]. right. by apply Herr.
Qed.
End Effects.
