(* ===== verification/VisionApiUse.v ===== *)
(** * Routing runs and rollbacks over the vision API

    What a person who asks for a routing run or a rollback gets. *)
From Stdlib Require Import SpecFloat.
From S2P Require Import Prelude PyString Errors IsoTime Json JsonText Operations Http VisionErrors Routing Sqlite Dataset Vision VisionApi VisionApiSpec.

(** ** A profile as a request body *)

Definition map_items (m : list (Z * Z)) : pydict := (fun p => (str_of_Z p.1, JInt p.2)) <$> m.

Definition map_fields (m : list (Z * Z)) (o : Z) : pydict :=
  [("class_to_slot", JObj (map_items m)); ("overflow_slot", JInt o)].

Definition profile_json (p : RoutingProfile) : json :=
  JObj ([("api_version", JStr "v1"); ("kind", JStr (Routing.kind p))]
        ++ match p with
           | FixedMapProfile m o => map_fields m o
           | DynamicProfile slots => [("available_slots", JArr (JInt <$> slots))]
           | TwoPassProfile m o g => map_fields m o ++ [("source_group", jint g)]
           end).

(** The maps of a profile are non-empty dicts whose keys a text of digits can name. *)
Definition map_ok (m : list (Z * Z)) : Prop := m <> [] /\ NoDup m.*1 /\ Forall (fun c => 0 <= c < 2 ^ 63) m.*1.
Definition sendable (p : RoutingProfile) : Prop :=
  match p with FixedMapProfile m _ | TwoPassProfile m _ _ => map_ok m | DynamicProfile slots => slots <> [] end.

Lemma read_classes_map m acc : NoDup (acc ++ m).*1 -> Forall (fun c => 0 <= c < 2 ^ 63) m.*1 ->
  read_classes (map_items m) acc = Ok (acc ++ m).
Proof.
  revert acc. induction m as [|[c s] m IH]; intros acc Hn Hr; [by rewrite app_nil_r|]. csimpl in *. apply Forall_cons in Hr as [Hc Hr].
  rewrite int_of_text_str by done. cbn [_int_field mbind res_bind]. rewrite dict_set_new.
  - rewrite IH; [by rewrite <- app_assoc|by rewrite <- app_assoc|done].
  - rewrite fmap_app in Hn. apply NoDup_app in Hn as (_ & Hd & _). intros Hin. apply (Hd c Hin). by left.
Qed.

Lemma map_items_nodup m : NoDup m.*1 -> NoDup (map_items m).*1.
Proof.
  intros Hn. assert ((map_items m).*1 = (pretty : Z -> string) <$> m.*1) as ->.
  { unfold map_items. rewrite <- !list_fmap_compose. done. }
  by apply NoDup_fmap_2; [typeclasses eauto|].
Qed.

Lemma class_to_slot_map m : map_ok m -> _class_to_slot (JObj (map_items m)) = Ok m.
Proof.
  intros (Hne & Hn & Hr). pose proof (read_classes_map m [] Hn Hr) as E. cbn [app] in E.
  transitivity (read_classes (py_dict (map_items m)) []); [by destruct m|]. by rewrite py_dict_unique by (by apply map_items_nodup).
Qed.

Lemma read_slots_list l : read_slots (JInt <$> l) = Ok l.
Proof. induction l as [|n l IH]; [done|]. csimpl. by rewrite IH. Qed.

Definition payload_of (p : RoutingProfile) : pydict := match profile_json p with JObj l => l | _ => [] end.

Lemma payload_read (json_loads : string -> vresult json) p body : body <> "" -> json_loads body = Ok (profile_json p) ->
  _json_object json_loads body = Ok (payload_of p).
Proof.
  intros Hb Hl. unfold _json_object. rewrite bool_decide_false, Hl by done. unfold profile_json. 
  rewrite py_dict_unique; [by destruct p|]. destruct p; cbn [map_fields app fmap list_fmap fst]; by apply (bool_decide_unpack _).
Qed.

(** The server reads back the very profile that was sent. *)
Lemma profile_reads_back p : sendable p -> _routing_profile_from (payload_of p) = Ok p.
Proof.
  assert (forall m o k rest, map_ok m ->
    read_map (("api_version", JStr "v1") :: ("kind", k) :: map_fields m o ++ rest) = Ok (m, o)) as Hmap.
  { intros m o k rest Hm. unfold read_map, field, map_fields. simpl obj_get. cbn [mbind res_bind]. by rewrite class_to_slot_map. }
  intros Hp. destruct p as [m o|slots|m o g]; unfold _routing_profile_from, payload_of, profile_json.
  - simpl obj_get. cbv iota.
    pose proof (Hmap m o (JStr "fixed") [] Hp) as E. rewrite app_nil_r in E.
    transitivity (p ← read_map (("api_version", JStr "v1") :: ("kind", JStr "fixed") :: map_fields m o); Ok (FixedMapProfile p.1 p.2) : res vapi_exn RoutingProfile); [done|].
    by rewrite E.
  - simpl obj_get. cbv iota. simpl. unfold _slot_list. cbn [field]. destruct slots as [|n slots]; [done|]. csimpl. by rewrite read_slots_list.
  - simpl obj_get. cbv iota.
    pose proof (Hmap m o (JStr "two_pass") [("source_group", jint g)] Hp) as E.
    transitivity (p ← read_map (("api_version", JStr "v1") :: ("kind", JStr "two_pass") :: map_fields m o ++ [("source_group", jint g)]);
      g ← match jint g with JNull => Ok None | v => n ← _int_field v "source_group"; Ok (Some n) end;
      Ok (TwoPassProfile p.1 p.2 g) : res vapi_exn RoutingProfile); [by destruct g|].
    rewrite E. by destruct g.
Qed.

(** A profile is refused with a [RoutingError]. *)
Definition routing_refusal (r : vresult unit) : Prop := forall e, r = Err e -> vinstance e RoutingError = true.
Lemma refusal_bind (r : vresult unit) f : routing_refusal r -> routing_refusal (f tt) -> routing_refusal (r ≫= f).
Proof. destruct r as [[]|e|]; intros Hr Hf; [exact Hf|exact Hr|by intros ? ?]. Qed.
Lemma refusal_error msg : routing_refusal (routing_error msg).
Proof. by intros e [= <-]. Qed.
Lemma refusal_ok : routing_refusal (Ok tt).
Proof. by intros e ?. Qed.
#[local] Hint Resolve refusal_error refusal_ok : cs71.
Lemma refusal_classes l : routing_refusal (validate_classes l).
Proof. induction l as [|[c s] l IH]; cbn [validate_classes]; [auto with cs71|]. repeat case_match; auto with cs71. Qed.
Lemma refusal_slots l : routing_refusal (validate_slots l).
Proof. induction l as [|s l IH]; cbn [validate_slots]; [auto with cs71|]. repeat case_match; auto with cs71. Qed.
Lemma refusal_map m o : routing_refusal (validate_map m o).
Proof. unfold validate_map. case_match; [auto with cs71|]. apply refusal_bind; [apply refusal_classes|]. repeat case_match; auto with cs71. Qed.
Lemma validation_error p : routing_refusal (validate_profile p).
Proof.
  destruct p as [m o|slots|m o g]; cbn [validate_profile]; [apply refusal_map| |].
  - case_match; [auto with cs71|]. apply refusal_bind; [apply refusal_slots|]. case_match; auto with cs71.
  - apply refusal_bind; [apply refusal_map|]. repeat case_match; auto with cs71.
Qed.

Section Use.
Context {J : Type} `{Trainable J} (json_loads : string -> vresult json) (json_float : spec_float -> string).
Abbreviation State := (ApiState J).

(** The run a person starts is the run that is followed. A request to start a routing run that carries a
    profile is read back as that very profile: when the profile is valid the session shared with the suggestion loop holds it from the
    moment of the start with no chute claimed, replacing whatever ran before, and the reply is the view of that
    run; from then on a class is sent to the chute its map names or to the overflow chute, and the session stays as it is. When the
    profile is not valid, the request is refused with the reason and the previous run goes on. *)
Theorem routing_request_exact (api : VisionApiServer) (now : datetime) (started : Z) (p : RoutingProfile) (body : string) (x : State) :
  sendable p -> body <> "" -> json_loads body = Ok (profile_json p) ->
  let q := route json_loads json_float api now started "POST" "/v1/routing/start" body x in
  match validate_profile p with
  | Ok _ =>
      q.1 = mkApiState (_store x) (_training_job x) (mkRoutingSession (Some p) (Some started) [])
      /\ q.2 = (_routing_body q.1).2
      /\ match p with
         | FixedMapProfile m o | TwoPassProfile m o _ =>
             forall c, Routing.route c (_routing q.1) = (_routing q.1, Ok (default o (dict_get c m)))
         | DynamicProfile _ => True
         end
  | Err e => q = (x, api_error "VALIDATION_FAILED" (vexn_msg e)) /\ vinstance e RoutingError = true
  | OutOfFuel => False
  end.
Proof.
  intros Hp Hb Hl q. assert (q = (_ ← or_api_error (on_routing (Routing.start p started)) RoutingError "VALIDATION_FAILED"; _routing_body) x) as ->.
  { subst q. unfold route, _routing_start_body. cbv zeta.
    change (bool_decide ("POST" ∈ ["GET"; "HEAD"])) with false. cbv iota.
    transitivity (_routing_start_body json_loads started body x); [done|].
    unfold _routing_start_body, mbind, M_bind, liftR. by rewrite (payload_read json_loads p), profile_reads_back. }
  pose proof (validate_profile_ends p) as He. pose proof (validation_error p) as Hi.
  unfold or_api_error, on_routing, Routing.start, try_except, mbind, M_bind, liftR, putS.
  destruct (validate_profile p) as [[]|e|]; [| |done]; cbn [fst snd lift_v].
  - split_and!; [by destruct x|done|]. by destruct p.
  - rewrite Hi by done. split; [by destruct x|done].
Qed.

Lemma rollback_route api now started b x : route json_loads json_float api now started "POST" "/v1/rollback" b x = _rollback_body now x.
Proof. done. Qed.

Lemma read_activations d : activations (connect_to d []) = (connect_to d [], Ok (activations_t d)).
Proof. done. Qed.

(** The dataset with one more activation. *)
Definition activated (d : Tables) (version t : Z) : Tables :=
  mkTables (examples_t d) (models_t d)
    (activations_t d ++ [mkActivation (next_id (a_activation_id <$> activations_t d)) version (isoformat t)])
    (suggestions_t d) (outcomes_t d) (attempts_t d) (reviews_t d).

Lemma activate_quiet d version t : version ∈ v_version <$> models_t d -> 0 <= version < 2 ^ 63 ->
  activate version (utc t) (connect_to d []) = (connect_to (activated d version t) [], Ok (next_id (a_activation_id <$> activations_t d))).
Proof.
  intros Hv Hb. unfold activate, _transaction, mbind, M_bind, try_case. cbn -[bind_ints]. unfold bind_ints. cbn [forallb].
  rewrite (proj2 (Z.leb_le _ _)), (proj2 (Z.ltb_lt _ _)) by lia. cbn. rewrite bool_decide_true by done. cbn.
  unfold insert_activation. cbn. rewrite bool_decide_true by done. cbn. by rewrite Z.sub_0_r.
Qed.

Lemma version_bound d v : tables_ok d -> Z.of_nat (length (models_t d)) < 2 ^ 63 -> v ∈ v_version <$> models_t d -> 0 <= v < 2 ^ 63.
Proof.
  intros Hok Hn Hv. pose proof (to_models _ Hok) as Hm. unfold numbered in Hm. rewrite Hm, length_fmap in Hv. apply elem_of_seqZ in Hv. lia.
Qed.

Lemma rollback_quiet d (j : J) s t active previous l : reverse (activations_t d) = active :: previous :: l ->
  0 <= a_version previous < 2 ^ 63 -> a_version previous ∈ v_version <$> models_t d ->
  _rollback_body (utc t) (mkApiState (connect_to d []) j s)
  = (mkApiState (connect_to (activated d (a_version previous) t) []) j s, Ok (activated_body (a_version previous) (utc t))).
Proof.
  intros Er Hb Hv. unfold _rollback_body, mbind, M_bind, on_store. cbn [_store]. rewrite read_activations. cbn [fst snd lift_v]. rewrite Er.
  cbn [_store _training_job _routing]. by rewrite activate_quiet.
Qed.

(** A rollback re-activates the version before the active one. On a store that works, with at least two
    activations, the request appends one activation of the last but one, and says so; the one it replaced is
    then the one before, so asking again brings it back. With fewer activations it is refused and nothing changes. *)
Theorem rollback_returns (api : VisionApiServer) (t1 t2 : Z) (started : Z) (b1 b2 : string) (d : Tables) (j : J) (s : RoutingSession) :
  tables_ok d -> Z.of_nat (length (models_t d)) < 2 ^ 63 ->
  let ask now b x := route json_loads json_float api now started "POST" "/v1/rollback" b x in
  let q := ask (utc t1) b1 (mkApiState (connect_to d []) j s) in
  match reverse (activations_t d) with
  | active :: previous :: _ =>
      q.2 = Ok (activated_body (a_version previous) (utc t1))
      /\ (exists m, cn_committed (_store q.1) =
            mkTables (examples_t d) (models_t d) (activations_t d ++ [m]) (suggestions_t d) (outcomes_t d) (attempts_t d) (reviews_t d)
            /\ a_version m = a_version previous)
      /\ (ask (utc t2) b2 q.1).2 = Ok (activated_body (a_version active) (utc t2))
  | _ => q = (mkApiState (connect_to d []) j s, api_error "VALIDATION_FAILED" "there is no previous version to roll back to")
  end.
Proof.
  intros Hok Hn ask q. destruct (reverse (activations_t d)) as [|active [|previous l]] eqn:Er.
  1, 2: subst q ask; cbv beta zeta; rewrite rollback_route; unfold _rollback_body, mbind, M_bind, on_store; cbn [_store]; rewrite read_activations; cbn [fst snd lift_v];
    by rewrite Er.
  assert (forall a, a ∈ activations_t d -> a_version a ∈ v_version <$> models_t d) as Hin by (apply Forall_forall; apply (to_activations _ Hok)).
  assert (activations_t d = reverse l ++ [previous; active]) as Ed.
  { rewrite <- (reverse_involutive (activations_t d)), Er, !reverse_cons, <- app_assoc. done. }
  assert (a_version active ∈ v_version <$> models_t d /\ a_version previous ∈ v_version <$> models_t d) as [Ha Hp].
  { split; apply Hin; rewrite Ed; set_solver. }
  pose proof (rollback_quiet d j s t1 active previous l Er (version_bound _ _ Hok Hn Hp) Hp) as Hq.
  assert (q = _rollback_body (utc t1) (mkApiState (connect_to d []) j s)) as -> by (subst q ask; cbv beta; by rewrite rollback_route).
  rewrite Hq. cbn [fst snd _store]. split; [done|]. split; [by eexists|]. subst ask. cbv beta. rewrite rollback_route.
  assert (reverse (activations_t (activated d (a_version previous) t1)) = mkActivation (next_id (a_activation_id <$> activations_t d)) (a_version previous) (isoformat t1) :: active :: previous :: l) as Er2.
  { cbn [activated activations_t]. by rewrite reverse_app, Er. }
  pose proof (rollback_quiet (activated d (a_version previous) t1) j s t2 _ active _ Er2 (version_bound _ _ Hok Hn Ha) Ha) as Hq2. by rewrite Hq2.
Qed.
End Use.
