(* ===== verification/TrainingJob.v ===== *)
(** * The training job (appliance/vision/src/cs71vision/runtime.py)

    [TrainingJob] trains on a thread of its own. Its connection to the dataset is
    one of several to the same database: between two of its steps another
    connection may commit, and a call of another thread may run. *)
From S2P Require Import Prelude PyString PyFloat IsoTime Operations VisionErrors Routing Sqlite Dataset Vision VisionSpec Training TrainingSpec VisionApi VisionApiSpec.

(** Where [_run] stands: before [examples()], before the trainer, before [record_candidate]. *)
Inductive phase := Started | Fetched (l : list DatasetExample) | Trained (c : TrainedCandidate).

(** The store, and the thread while it is alive. *)
Record TrainingJob := mkTrainingJob { jb_store : DatasetStore; jb_thread : option phase }.

Definition TrainingJob_make (s : DatasetStore) : TrainingJob := mkTrainingJob s None.

Definition running (j : TrainingJob) : bool := bool_decide (is_Some (jb_thread j)).

Definition job_trigger : M TrainingJob vexn bool := fun j =>
  if running j then (j, Ok false) else (mkTrainingJob (jb_store j) (Some Started), Ok true).

(** [close()]: when [join] has returned, the thread ended or not. *)
Definition job_release : M TrainingJob vexn unit := fun j =>
  let p := Dataset.close (jb_store j) in (mkTrainingJob p.1 (jb_thread j), p.2).

#[export] Instance training_trainable : Trainable TrainingJob := { trigger := job_trigger; job_close := job_release }.

(** One step of the thread: every exception is logged and ends it. *)
Definition run_step (trainer : list DatasetExample -> vresult TrainedCandidate) (now : datetime) (j : TrainingJob) : TrainingJob :=
  match jb_thread j with
  | None => j
  | Some Started =>
      let p := examples (jb_store j) in
      mkTrainingJob p.1 (match p.2 with Ok l => Some (Fetched l) | _ => None end)
  | Some (Fetched l) => mkTrainingJob (jb_store j) (match trainer l with Ok c => Some (Trained c) | _ => None end)
  | Some (Trained c) => mkTrainingJob (record_candidate c now (jb_store j)).1 None
  end.

Section Job.
Context (trainer : list DatasetExample -> vresult TrainedCandidate).
Abbreviation rows j := (cn_committed (jb_store j)).

(** What may happen next. A commit of another connection waits while this one is in a transaction. *)
Inductive job_step (j : TrainingJob) : TrainingJob -> Prop :=
| step_trigger : job_step j (job_trigger j).1
| step_thread now : job_step j (run_step trainer now j)
| step_release : job_step j (job_release j).1
| step_other d (Hw : cn_working (jb_store j) = None) (Hok : tables_ok d) (Hg : grows (rows j) d) :
    job_step j (mkTrainingJob (mkConnection d None (cn_closed (jb_store j)) (cn_faults (jb_store j))) (jb_thread j)).

(** The examples as the trainer gets them. *)
Definition dataset_examples (d : Tables) : list DatasetExample :=
  (fun e => (x_slot e, x_frame_png e)) <$> fold_left (fun acc e => insert_by_time e acc) (examples_t d) [].

(** What the thread holds was read from the dataset as it was at some time before. *)
Definition phase_ok (d : Tables) (p : phase) : Prop :=
  match p with
  | Started => True
  | Fetched l => exists d0, grows d0 d /\ l = dataset_examples d0
  | Trained c => exists d0, grows d0 d /\ trainer (dataset_examples d0) = Ok c
  end.

(** A connection of the job writes models only. *)
Definition more_models (t t' : Tables) : Prop := grows t t' /\ examples_t t' = examples_t t.
#[local] Instance more_models_preorder : PreOrder more_models.
Proof. split; [by split|]. intros a b c [? E1] [? E2]. split; [by etrans|by rewrite E2]. Qed.

Record job_ok (j : TrainingJob) : Prop := {
  jo_conn : conn_ok tables_ok more_models (jb_store j);
  jo_phase : forall p, jb_thread j = Some p -> phase_ok (rows j) p;
}.

Lemma phase_grows d d' p : grows d d' -> phase_ok d p -> phase_ok d' p.
Proof. intros Hg. destruct p; [done|..]; intros (d0 & H1 & H2); exists d0; (split; [by etrans|done]). Qed.

Abbreviation tidy m := (orderly (E := vexn) tables_ok more_models m).

Lemma tidy_open : tidy _require_open.
Proof. intros c Hc. unfold _require_open. by destruct (cn_closed c). Qed.
Lemma tidy_error {A} msg : tidy (dataset_error (A:=A) msg).
Proof. by intros c Hc. Qed.
Lemma tidy_model m c : tidy (execute (insert_model m c)).
Proof.
  apply orderly_execute; [typeclasses eauto|]. intros t t' a Hok Ht. destruct (insert_model_law m c t t' a Hok Ht) as [H1 H2].
  split; [done|]. split; [done|]. unfold insert_model in Ht. by simplify_eq/=.
Qed.
Lemma tidy_read {A} (f : Tables -> A) : tidy (query f).
Proof. apply orderly_query. typeclasses eauto. Qed.
#[local] Hint Resolve tidy_open tidy_error tidy_model tidy_read : cs71.

Lemma tidy_examples : tidy examples.
Proof. unfold examples, _guard. orderly_steps. Qed.
Lemma tidy_record c now : tidy (record_candidate c now).
Proof. unfold record_candidate, _transaction, sqlite_error. orderly_steps. Qed.

Lemma current_examples s : conn_ok tables_ok more_models s -> examples_t (cn_current s) = examples_t (cn_committed s).
Proof. intros [_ Hw]. unfold cn_current. destruct (cn_working s) as [w|]; [|done]. by destruct (Hw w eq_refl) as [_ [_ ?]]. Qed.

Lemma fetched s l : conn_ok tables_ok more_models s -> (examples s).2 = Ok l -> l = dataset_examples (cn_committed s).
Proof.
  intros Hs Hl. unfold examples in Hl. destruct (guard_read (fun t => (fun e => (x_slot e, x_frame_png e)) <$>
    fold_left (fun acc e => insert_by_time e acc) (examples_t t) []) s) as [[e He]|[He _]]; rewrite He in Hl; [done|].
  injection Hl as <-. unfold dataset_examples. by rewrite current_examples.
Qed.

Lemma wp_record c now s : wp (record_candidate c now) (fun s' r => commits (fun t => exists m id, Dataset._encode_time now = Ok m
  /\ insert_model m c (cn_committed s) = Ok (t, id)) s s' r) s.
Proof.
  apply (vision_wp_transaction _ (fun t => exists m id, Dataset._encode_time now = Ok m /\ insert_model m c (cn_committed s) = Ok (t, id))); [|by intros].
  intros c1 E1 E2. do 2 wp_step. pose proof (encode_time_ends now). destruct (Dataset._encode_time now) as [m|e|] eqn:Em; [|by split|done]. wp_steps.
  apply vision_wp_execute; [done|done|done|]. intros t a Ht. by exists m, a.
Qed.

Lemma job_step_ok j j' : job_ok j -> job_step j j' -> job_ok j'.
Proof.
  intros [Hc Hp] Hs. destruct Hs as [|now| |d Hw Hok Hg].
  - unfold job_trigger. destruct (running j); [by split|]. split; [done|]. by intros p [= <-].
  - unfold run_step. destruct (jb_thread j) as [[|l|c]|] eqn:Et; [..|by split; [|rewrite Et]].
    + destruct (tidy_examples (jb_store j) Hc) as [H1 H2]. pose proof (fetched (jb_store j)) as Hf.
      destruct (examples (jb_store j)) as [s [l|e|]]; cbn [fst snd] in *; (split; [done|]); cbn [jb_thread jb_store]; [|done..].
      intros p [= <-]. exists (rows j). split; [apply H2|]. by apply Hf.
    + destruct (trainer l) as [c|e|] eqn:Er; (split; [done|]); cbn [jb_thread jb_store]; [|done..]. intros p [= <-].
      destruct (Hp _ eq_refl) as (d0 & Hg & ->). by exists d0.
    + destruct (tidy_record c now (jb_store j) Hc) as [H1 H2]. by split.
  - unfold job_release, Dataset.close. destruct (cn_closed (jb_store j)) eqn:Ecl; [by split|]. split; [|done]. cbn [jb_store fst]. destruct Hc. by split.
  - split; [by split|]. intros p Ht. cbn [jb_store cn_committed jb_thread] in *. eapply phase_grows; [done|]. by apply Hp.
Qed.

Lemma job_reachable_ok s j : cn_working s = None -> tables_ok (cn_committed s) -> rtc job_step (TrainingJob_make s) j -> job_ok j.
Proof.
  intros Hw Hok Hr. eapply (rtc_invariant _ job_ok); [|done|]; [intros ??; apply job_step_ok|]. split; [|done]. split; [done|]. cbn [jb_store TrainingJob_make]. by rewrite Hw.
Qed.
End Job.

(** ** With the trainer of the service *)

Lemma insert_by_time_perm e l : insert_by_time e l ≡ₚ e :: l.
Proof.
  induction l as [|x l IH]; [done|]. cbn [insert_by_time]. destruct (str_ltb _ _); [done|]. rewrite IH. apply Permutation_swap.
Qed.
Lemma dataset_examples_perm d : dataset_examples d ≡ₚ (fun e => (x_slot e, x_frame_png e)) <$> examples_t d.
Proof.
  unfold dataset_examples. apply fmap_Permutation.
  assert (forall l acc, fold_left (fun acc e => insert_by_time e acc) l acc ≡ₚ acc ++ l) as H by
    (induction l as [|e l IH]; intros acc; [by rewrite app_nil_r|]; cbn [fold_left]; rewrite IH, insert_by_time_perm; solve_Permutation).
  apply (H _ []).
Qed.

(** How many examples of the dataset carry the label. *)
Definition labelled_count (slot : Z) (d : Tables) : nat := length (filter (fun e => x_slot e = slot) (examples_t d)).

Lemma of_class_count slot d : length (of_class slot (dataset_examples d)) = labelled_count slot d.
Proof.
  unfold of_class, labelled_count. rewrite dataset_examples_perm. induction (examples_t d) as [|e l IH]; [done|]. csimpl.
  rewrite !filter_cons. cbn [fst]. destruct (decide _); simpl; by rewrite IH.
Qed.

Lemma labelled_grows slot d d' : grows d d' -> (labelled_count slot d <= labelled_count slot d')%nat.
Proof. intros [[k Hk] _ _ _ _ _ _]. unfold labelled_count. rewrite Hk, filter_app, length_app. lia. Qed.

Section Trained.
Context {Vector Forest R : Type} `{Learning Vector Forest} `{Rng R}.
Context (minimum : Z) (fraction : spec_float) (seed : Z).
Abbreviation rows j := (cn_committed (jb_store j)).

(** [functools.partial(train_candidate, minimum_examples_per_class=...)] *)
Definition service_trainer (l : list DatasetExample) : vresult TrainedCandidate := train_candidate l minimum fraction seed.

(** C20: no model below the floor. Whatever commits other connections make between the steps of the job, and whichever
    of its own statements fail, a step of the training thread either commits nothing, or is its last and appends exactly one model, trained on at
    least two classes, each of which has at least the minimum of examples in the dataset as it now is. *)
Theorem models_meet_floor (s : DatasetStore) (j : TrainingJob) (now : datetime) :
  cn_working s = None -> tables_ok (cn_committed s) -> rtc (job_step service_trainer) (TrainingJob_make s) j ->
  let j' := run_step service_trainer now j in
  rows j' = rows j
  \/ exists c m id, insert_model m c (rows j) = Ok (rows j', id) /\ running j' = false
       /\ (2 <= length (included_classes c))%nat /\ NoDup (included_classes c)
       /\ forall slot, slot ∈ included_classes c -> minimum <= Z.of_nat (labelled_count slot (rows j)).
Proof.
  intros Hw Hok Hr j'. destruct (job_reachable_ok _ s j Hw Hok Hr) as [Hc Hp]. subst j'. unfold run_step.
  destruct (jb_thread j) as [[|l|c]|] eqn:Et; [|by left| |by left].
  - left. cbn [jb_store]. exact (proj1 (reads_guard _ (reads_query _) (jb_store j))).
  - destruct (wp_record c now (jb_store j)) as [_ [Hsame|(m & id & _ & Hi)]]; [by left|right]. cbn [jb_store]. exists c, m, id.
    destruct (Hp _ eq_refl) as (d0 & Hg & Htr). apply candidate_classes in Htr as [Hcl Hlen]. rewrite Hcl in *.
    split_and!; [done|done|done|apply included_nodup|]. intros slot Hs. apply included_exact in Hs as [_ Hm].
    rewrite of_class_count in Hm. pose proof (labelled_grows slot _ _ Hg). lia.
Qed.

(** How many steps of the thread are left. *)
Definition remaining (j : TrainingJob) : nat :=
  match jb_thread j with None => 0 | Some (Trained _) => 1 | Some (Fetched _) => 2 | Some Started => 3 end.

Lemma run_step_remaining trainer now j : (remaining (run_step trainer now j) <= remaining j - 1)%nat.
Proof.
  unfold run_step, remaining. destruct (jb_thread j) as [[|l|c]|] eqn:Et; cbn [jb_thread]; [|destruct (trainer l); simpl; lia|lia|rewrite Et; lia].
  destruct (examples (jb_store j)) as [s [l|e|]]; simpl; lia.
Qed.

(** At most one run, and every run ends. A trigger starts a run exactly when none is in flight and otherwise changes
    nothing; it never touches the dataset. Three steps of the thread end the run, whatever the trainer answers,
    whatever statements fail and whatever other threads and connections do in between. *)
Theorem training_run_ends (j : TrainingJob) (trainer : list DatasetExample -> vresult TrainedCandidate)
    (schedule : list ((TrainingJob -> TrainingJob) * datetime)) :
  length schedule = 3%nat -> Forall (fun p => forall x, jb_thread (p.1 x) = jb_thread x) schedule ->
  (job_trigger j).2 = Ok (negb (running j)) /\ jb_store (job_trigger j).1 = jb_store j
  /\ (running j = true -> (job_trigger j).1 = j) /\ running (job_trigger j).1 = true
  /\ running (fold_left (fun x p => run_step trainer p.2 (p.1 x)) schedule j) = false.
Proof.
  intros Hlen Hs. assert (forall x, (remaining x <= 3)%nat) as H3 by (intros x; unfold remaining; repeat case_match; lia).
  assert (forall l x, Forall (fun p => forall x : TrainingJob, jb_thread (p.1 x) = jb_thread x) l ->
    (remaining (fold_left (fun x p => run_step trainer p.2 (p.1 x)) l x) <= remaining x - length l)%nat) as Hl.
  { induction l as [|[f now] l IH]; intros x Hf; simpl; [lia|]. apply Forall_cons in Hf as [Hf Hl]. rewrite IH by done.
    pose proof (run_step_remaining trainer now (f x)). assert (remaining (f x) = remaining x) as E by (unfold remaining; by rewrite Hf). lia. }
  specialize (Hl schedule j Hs). specialize (H3 j). unfold job_trigger. split_and!.
  - by destruct (running j).
  - by destruct (running j).
  - by intros ->.
  - by destruct (running j) eqn:Er.
  - unfold running. apply bool_decide_eq_false. intros [p Hp]. revert Hl. unfold remaining at 1. rewrite Hp, Hlen. destruct p; lia.
Qed.
End Trained.
