(* ===== verification/VisionApiDemo.v ===== *)
(** * The vision API and training on concrete inputs *)
From S2P Require Import Prelude PyString PyFloat Errors IsoTime Json JsonText Operations Http VisionErrors Routing Sqlite Dataset Vision VisionSpec.
From S2P Require Import Training TrainingSpec VisionApi VisionApiSpec VisionApiUse TrainingJob.

(** ** Training *)

(** A feature is the text of the frame, a forest its training set, its answer the label of the frame, or the first one. *)
#[local] Instance demo_learning : Learning string (list (string * Z)) := {
  imdecode png := if bool_decide (png = "") then None else Some png;
  forest_fit _ vs labels := Ok (zip vs labels);
  forest_predict f vs := (fun v => default 0 (list_to_map (M := gmap string Z) f !! v)) <$> vs;
  pickle_dumps f := str_join "," f.*1;
}.
(** A generator that counts. *)
#[local] Instance demo_rng : Rng Z := { rng_seed s := s; rng_below r n := (r + 1, r mod n) }.

Definition demo_examples : list DatasetExample :=
  [(1, "a"); (2, "b"); (1, "a"); (3, "c"); (2, "b"); (1, "d")].

Definition demo_candidate_trained : vresult TrainedCandidate := train_candidate demo_examples 2 _DEFAULT_HOLDOUT_FRACTION 0.

Example demo_trains : demo_candidate_trained =
  Ok (mkTrainedCandidate "a,a,b" [1; 2] [3] [(1, S754_zero false); (2, float_of_int 1)] 2 3 2).
Proof. vm_compute. reflexivity. Qed.

Lemma trained_candidate_exact_witness :
  SFltb (S754_zero false) _DEFAULT_HOLDOUT_FRACTION && SFltb _DEFAULT_HOLDOUT_FRACTION (float_of_int 1) = true
  /\ exists included, NoDup included /\ forall slot, slot ∈ included <->
       slot ∈ demo_examples.*1 /\ 2 <= Z.of_nat (length (of_class slot demo_examples)).
Proof.
  split; [vm_compute; reflexivity|].
  destruct (trained_candidate_exact demo_examples 2 _DEFAULT_HOLDOUT_FRACTION 0 eq_refl) as (included & H1 & _ & H2 & _). by exists included.
Defined.

(** ** A dataset with history *)

Definition demo_calls : list dataset_call :=
  [CExample (utc 0) "op-1" 1 "a" (utc 0) (utc 0); CExample (utc 1) "op-2" 2 "b" (utc 0) (utc 0);
   CCandidate demo_candidate (utc 2); CCandidate demo_candidate (utc 3); CActivate 1 (utc 4); CActivate 2 (utc 5);
   CSuggest 2 1 (float_of_int 1) (utc 6) (utc 6) None; CAttempt 1 "op-3" 1 (utc 7)].
Definition store_after (l : list dataset_call) : DatasetStore := fold_left (fun s c => (run_call c s).1) l demo_store.

Lemma store_after_ok l : conn_ok tables_ok grows (store_after l).
Proof.
  unfold store_after. assert (conn_ok tables_ok grows demo_store) as Hs by (split; [apply tables_empty_ok|done]).
  revert Hs. generalize demo_store. induction l as [|c l IH]; intros s Hs; [done|]. cbn [fold_left]. apply IH, orderly_call, Hs.
Qed.

Definition demo_tables : Tables := cn_committed (store_after demo_calls).
Lemma demo_tables_ok : tables_ok demo_tables.
Proof. apply store_after_ok. Qed.

(** ** Requests *)

Definition demo_vapi : VisionApiServer := mkVisionApiServer "secret" 2 [(3, float_of_int 1)].
Definition demo_state (faults : list fault) : ApiState TrainingJob :=
  mkApiState (connect_to demo_tables faults) (TrainingJob_make (connect_to demo_tables [])) RoutingSession_init.
Definition vreq (m path : string) (v : json) : HttpRequest :=
  mkHttpRequest m path [("authorization", "Bearer secret"); ("content-length", str_of_Z (slen (dumps v)))] (dumps v).
Definition vloads (s : string) : vresult json :=
  match loads s with Some v => Ok v | None => vthrow JSONDecodeError "Expecting value" end.
Definition vfloat (x : spec_float) : string := "0.5".

Lemma vloads_halts s : vloads s <> OutOfFuel.
Proof. unfold vloads. by destruct (loads s). Qed.
Lemma vtrigger_halts (j : TrainingJob) : (trigger j).2 <> OutOfFuel.
Proof. unfold trigger, training_trainable, job_trigger. by destruct (running j). Qed.

(** The status and body of the answer, and the state after. *)
Definition vask (r : HttpRequest) (x : ApiState TrainingJob) : option (Z * json) :=
  match (_dispatch vloads vfloat demo_vapi (utc 10) 11 r x).2 with Ok reply => Some (reply_status reply, reply_body reply) | _ => None end.
Definition vafter (r : HttpRequest) (x : ApiState TrainingJob) : ApiState TrainingJob := (_dispatch vloads vfloat demo_vapi (utc 10) 11 r x).1.

Definition review_json (id : Z) : json := JObj [("api_version", JStr "v1"); ("attempt_id", JInt id); ("correct", JBool true)].
Definition review_request : HttpRequest := vreq "POST" "/v1/autonomous-reviews" (review_json 1).

Lemma vision_requests_contained_witness :
  let x := demo_state [] in let x' := vafter review_request x in
  (length (reviews_t (cn_committed (_store x'))) = 1%nat)
  /\ tables_ok (cn_committed (_store x')) /\ effect (utc 10) 11 x x'.
Proof.
  intros x x'. split; [vm_compute; reflexivity|].
  destruct (vision_requests_contained vloads vfloat vloads_halts vtrigger_halts demo_vapi (utc 10) 11 review_request x demo_tables_ok)
    as (H1 & _ & H2 & _). by split.
Defined.

Lemma vision_requests_answered_witness :
  exists reply, (_dispatch vloads vfloat demo_vapi (utc 10) 11 review_request (demo_state [])).2 = Ok reply /\ reply_status reply = 200.
Proof.
  destruct (vision_requests_answered vloads vfloat vloads_halts vtrigger_halts demo_vapi (utc 10) 11 review_request (demo_state []))
    as (reply & H1 & _ & [[H2 _]|(c & message & _ & Hs & _)]); exists reply; (split; [exact H1|]); [exact H2|].
  apply (f_equal (fun r => match r with Ok r => reply_status r | _ => 0 end)) in H1. rewrite <- H1. vm_compute. reflexivity.
Defined.

Definition demo_profile : RoutingProfile := FixedMapProfile [(30, 4); (12, 7)] 9.

Lemma routing_request_exact_witness :
  let q := route vloads vfloat demo_vapi (utc 10) 11 "POST" "/v1/routing/start" (dumps (profile_json demo_profile)) (demo_state []) in
  _routing q.1 = mkRoutingSession (Some demo_profile) (Some 11) []
  /\ Routing.route 12 (_routing q.1) = (_routing q.1, Ok 7) /\ Routing.route 5 (_routing q.1) = (_routing q.1, Ok 9).
Proof.
  assert (sendable demo_profile) as Hp.
  { split; [done|]. split; [by apply (bool_decide_unpack _)|]. repeat constructor; by vm_compute. }
  destruct (routing_request_exact vloads vfloat demo_vapi (utc 10) 11 demo_profile (dumps (profile_json demo_profile)) (demo_state []) Hp)
    as (H1 & _ & H2); [done|vm_compute; reflexivity|].
  intros q. split; [unfold q; by rewrite H1|]. split; [apply (H2 12)|apply (H2 5)].
Defined.

Lemma rollback_returns_witness :
  let ask b x := route vloads vfloat demo_vapi (utc 10) 11 "POST" "/v1/rollback" b x in
  a_version <$> reverse (activations_t demo_tables) = [2; 1]
  /\ (ask "" (demo_state [])).2 = Ok (activated_body 1 (utc 10))
  /\ (ask "" (ask "" (demo_state [])).1).2 = Ok (activated_body 2 (utc 10)).
Proof.
  assert (reverse (activations_t demo_tables) = [mkActivation 2 2 (isoformat 5); mkActivation 1 1 (isoformat 4)]) as E by (vm_compute; reflexivity).
  assert (Z.of_nat (length (models_t demo_tables)) < 2 ^ 63) as Hn by (vm_compute; reflexivity).
  split; [by rewrite E|]. pose proof (rollback_returns vloads vfloat demo_vapi 10 10 11 "" "" demo_tables (TrainingJob_make (connect_to demo_tables []))
    RoutingSession_init demo_tables_ok Hn) as Hr. rewrite E in Hr. destruct Hr as (H1 & _ & H2). split; [exact H1|exact H2].
Defined.

(** ** The training job *)

Definition demo_trainer : list DatasetExample -> vresult TrainedCandidate := service_trainer 1 _DEFAULT_HOLDOUT_FRACTION 0.
Definition demo_job : TrainingJob :=
  run_step demo_trainer (utc 9) (run_step demo_trainer (utc 8) (job_trigger (TrainingJob_make (connect_to demo_tables []))).1).

Lemma models_meet_floor_witness :
  length (models_t (cn_committed (jb_store (run_step demo_trainer (utc 10) demo_job)))) = 3%nat
  /\ (cn_committed (jb_store (run_step demo_trainer (utc 10) demo_job)) = cn_committed (jb_store demo_job)
      \/ exists c m id, insert_model m c (cn_committed (jb_store demo_job)) = Ok (cn_committed (jb_store (run_step demo_trainer (utc 10) demo_job)), id)
           /\ forall slot, slot ∈ included_classes c -> 1 <= Z.of_nat (labelled_count slot (cn_committed (jb_store demo_job)))).
Proof.
  split; [vm_compute; reflexivity|].
  assert (rtc (job_step demo_trainer) (TrainingJob_make (connect_to demo_tables [])) demo_job) as Hr.
  { eapply rtc_l; [apply step_trigger|]. eapply rtc_l; [apply (step_thread _ _ (utc 8))|]. eapply rtc_l; [apply (step_thread _ _ (utc 9))|]. apply rtc_refl. }
  destruct (models_meet_floor 1 _DEFAULT_HOLDOUT_FRACTION 0 (connect_to demo_tables []) demo_job (utc 10) eq_refl demo_tables_ok Hr)
    as [H1|(c & m & id & H1 & _ & _ & _ & H2)]; [by left|right]. exists c, m, id. by split.
Defined.

Lemma training_run_ends_witness :
  let j := (job_trigger (TrainingJob_make (connect_to demo_tables []))).1 in
  (job_trigger j).2 = Ok false
  /\ running (fold_left (fun x p => run_step demo_trainer p.2 (p.1 x)) [(id, utc 8); (id, utc 9); (id, utc 10)] j) = false.
Proof.
  intros j. destruct (training_run_ends j demo_trainer [(id, utc 8); (id, utc 9); (id, utc 10)]) as (H1 & _ & _ & _ & H2);
    [reflexivity|repeat constructor|]. split; [exact H1|exact H2].
Defined.

(** ** Findings *)

(** A review or an activation the store could not write is answered 404, as if the attempt or the version did not exist; so is
    a second review of an attempt that exists. *)
Lemma outage_answered_not_found :
  vask review_request (demo_state [Fine; Fails]) =
    Some (404, error_body "RESOURCE_NOT_FOUND" "dataset write failed: disk I/O error")
  /\ vask (vreq "POST" "/v1/models/1/activate" JNull) (demo_state [Fine; Fine; Fails]) =
    Some (404, error_body "RESOURCE_NOT_FOUND" "dataset write failed: disk I/O error")
  /\ vask review_request (vafter review_request (demo_state [])) =
    Some (404, error_body "RESOURCE_NOT_FOUND" "dataset write failed: UNIQUE constraint failed: autonomous_reviews.attempt_id").
Proof. split_and!; vm_compute; reflexivity. Qed.

(** An attempt or a version of more than 64 bits is answered 500, not 404. *)
Lemma huge_identity_answered_500 :
  vask (vreq "POST" "/v1/autonomous-reviews" (review_json (2 ^ 63))) (demo_state []) =
    Some (500, error_body "INTERNAL_ERROR" "the vision service could not complete this request")
  /\ vask (vreq "POST" "/v1/models/9223372036854775808/activate" JNull) (demo_state []) =
    Some (500, error_body "INTERNAL_ERROR" "the vision service could not complete this request").
Proof. split; vm_compute; reflexivity. Qed.

(** Only the first 4096 bytes of a body are read, and none at all before the credential is accepted: the rest is left ahead of the
    next request of the connection. *)
Lemma body_left_unread (input : string) :
  VisionApi._read_body (mkHttpRequest "POST" "/v1/train" [("Content-Length", "5000")] input) = clip 4096 input.
Proof. vm_compute. reflexivity. Qed.

(** After the active version was activated again, a rollback activates it once more. *)
Lemma rollback_may_stay :
  let x := vafter (vreq "POST" "/v1/models/2/activate" JNull) (demo_state []) in
  (route vloads vfloat demo_vapi (utc 10) 11 "POST" "/v1/rollback" "" x).2 = Ok (activated_body 2 (utc 10)).
Proof. vm_compute. reflexivity. Qed.
