(* ===== verification/DaemonLink.v ===== *)
(** * The vision service's client of the daemon (appliance/vision/src/cs71vision/daemon_client.py)

    One HTTP exchange per call over a Unix socket. What answers at the other end is
    the class [HttpPeer]; [json.loads] and [bytes.decode(errors="replace")] are
    parameters. A response that is no usable JSON object never leaves the client
    as anything but an exception. *)
From S2P Require Import Prelude PyString Errors IsoTime Json JsonText VisionErrors Routing Sqlite Dataset Vision.

Record HttpCall := mkHttpCall {
  call_method : string;
  call_path : string;
  call_headers : list (string * string);
  call_body : string;
}.

(** [connection.request], [getresponse] and [read]: the status and the payload, or what [http.client]
    raises, an [OSError] when the socket fails. *)
Class HttpPeer (P : Type) := exchange : HttpCall -> M P vexn (Z * string).

(** [DaemonClient.__init__], with what it is connected to. *)
Record Link (P : Type) := mkLink {
  _socket_path : string;
  _service_token : string;
  _machine_service_token : option string;
  peer : P;
}.
Arguments mkLink {P}.
Arguments _socket_path {P}.
Arguments _service_token {P}.
Arguments _machine_service_token {P}.
Arguments peer {P}.

Definition DaemonClient_make {P} (socket_path service_token : string) (machine_service_token : option string) (p : P)
    : vresult (Link P) :=
  if bool_decide (service_token = "") then vthrow VisionValueError "a service token is required"
  else if bool_decide (machine_service_token = Some "")
  then vthrow VisionValueError "machine_service_token must not be empty when provided"
  else Ok (mkLink socket_path service_token machine_service_token p).

(** [item.get(name) == text] *)
Definition obj_is (name text : string) (d : pydict) : bool :=
  match obj_get name d with Some (JStr s) => bool_decide (s = text) | _ => false end.

Definition _sort_success_from (item : json) : option SortSuccess :=
  match item with
  | JObj l =>
      let item := py_dict l in
      if negb (obj_is "type" "SORT" item) || negb (obj_is "state" "SUCCEEDED" item) then None
      else
        match obj_get "terminal_fields" item with
        | Some (JObj f) =>
            match obj_get "slot" (py_dict f) with
            | Some (JStr raw_slot) =>
                match int_of_text raw_slot, obj_get "operation_id" item, obj_get "created_at" item with
                | Ok slot, Some (JStr operation_id), Some (JStr created_at) =>
                    Some (mkSortSuccess operation_id slot created_at)
                | _, _, _ => None
                end
            | _ => None
            end
        | _ => None
        end
  | _ => None
  end.

(** The body of the one write. *)
Definition sort_request (user_id : string) (slot : Z) : json :=
  JObj [("api_version", JStr "v1"); ("actor", JObj [("user_id", JStr user_id); ("role", JStr "machine")]); ("slot", JInt slot)].

Section Client.
Context {P : Type} `{HttpPeer P} (json_loads : string -> vresult json) (decode_replace : string -> string).

Abbreviation LM := (M (Link P) vexn).

Definition on_peer {A} (m : M P vexn A) : LM A := fun c =>
  let p := m (peer c) in (mkLink (_socket_path c) (_service_token c) (_machine_service_token c) p.1, p.2).

Definition _request (method path token request_body : string) (headers : list (string * string)) : LM (Z * pydict) :=
  c ← getS;
  reply ← try_except (on_peer (exchange (mkHttpCall method path (("Authorization", "Bearer " +:+ token) :: headers) request_body)))
    (fun e =>
       if vinstance e VisionOSError
       then vraise DaemonClientError ("cannot reach cs71d at " +:+ _socket_path c +:+ ": " +:+ vexn_msg e) else raise e);
  let '(status, payload) := reply in
  if negb (bool_decide (status ∈ [200; 202]))
  then vraise DaemonClientError (method +:+ " " +:+ path +:+ " returned HTTP " +:+ str_of_Z status +:+ ": " +:+ decode_replace payload)
  else
    decoded ← liftR (match json_loads payload with
      | Err e => if vinstance e JSONDecodeError
                 then vthrow DaemonClientError (method +:+ " " +:+ path +:+ " returned unparseable JSON: " +:+ vexn_msg e) else Err e
      | r => r
      end);
    match decoded with
    | JObj l => mret (status, py_dict l)
    | _ => vraise DaemonClientError (method +:+ " " +:+ path +:+ " did not return a JSON object")
    end.

Definition _get (path : string) : LM pydict :=
  c ← getS; r ← _request "GET" path (_service_token c) "" []; mret r.2.

Definition _post (path request_body token : string) (headers : list (string * string)) : LM pydict :=
  r ← _request "POST" path token request_body headers; mret r.2.

Definition recent_sorts (limit : Z) : LM (list SortSuccess) :=
  body ← _get ("/v1/operations?type=SORT&state=SUCCEEDED&limit=" +:+ str_of_Z limit);
  match obj_get "items" body with
  | Some (JArr items) => mret (omap _sort_success_from items)
  | _ => vraise DaemonClientError "malformed operation page: no items"
  end.

Definition snapshot_generation : LM Z :=
  body ← _get "/v1/snapshot";
  match obj_get "generation" body with
  | Some (JInt g) => mret g
  | _ => vraise DaemonClientError "malformed snapshot: no usable generation"
  end.

Definition post_sort (slot generation : Z) (idempotency_key : string) (deadline_ms : Z) (user_id : string) : LM string :=
  c ← getS;
  match _machine_service_token c with
  | None => vraise DaemonClientError "no machine service credential configured; autonomous sort is unreachable"
  | Some token =>
      response ← _post "/v1/operations/sort" (dumps_default (sort_request user_id slot)) token
        [("Idempotency-Key", idempotency_key); ("If-Match-Generation", str_of_Z generation); ("X-Deadline-Ms", str_of_Z deadline_ms)];
      match obj_get "operation_id" response with
      | Some (JStr operation_id) => mret operation_id
      | _ => vraise DaemonClientError "malformed sort acceptance: no usable operation_id"
      end
  end.

(** The calls the loops make, with the default arguments of the source. *)
Definition link_client : DaemonClient (Link P) := {|
  recent_sort_successes := recent_sorts 25;
  current_generation := snapshot_generation;
  submit_sort slot generation key := post_sort slot generation key 15000 "cs71-vision";
|}.
End Client.
