(* ===== verification/DaemonLinkSpec.v ===== *)
(** * The vision service against the daemon's API

    The client of the vision service (DaemonLink) connected to the handler of the
    daemon (Api): what it reports, what its one write does, and what that makes of
    the labels and of the autonomous sorts. [http.client] and [http.server] carry a
    call unchanged, header values with line breaks excepted; the parsers of JSON on
    either side read what [json.dumps] wrote on the other. *)
From Stdlib Require Import SpecFloat.
From S2P Require Import Prelude PyString Errors IsoTime Json JsonText Operations Models Session Machine Journal JournalSpec.
From S2P Require Import Configuration Adapters Events Domain DomainTotal DomainSpec Http Api ApiSpec ApiReply ApiPages.
From S2P Require Import VisionErrors Sqlite Dataset Vision VisionSpec DaemonLink.

(** ** Times as the API writes them *)

Lemma replace_offset a fuel : str_forall (fun c => negb (Ascii.eqb c "+")) a = true -> (String.length a < fuel)%nat ->
  str_replace fuel "+00:00" "Z" (a +:+ "+00:00") = a +:+ "Z".
Proof.
  revert fuel. induction a as [|c a IH]; intros [|fuel] Ha Hf; simpl in Hf; try lia; [by destruct fuel|].
  simpl in Ha. apply andb_true_iff in Ha as [Hc Ha]. rewrite !str_app_cons. cbn [str_replace].
  assert (startswith (String c (a +:+ "+00:00")) "+00:00" = false) as ->.
  { unfold startswith. apply negb_true_iff in Hc. apply Ascii.eqb_neq in Hc. cbn [String.prefix]. by destruct (ascii_dec "+" c). }
  f_equal. apply IH; [done|lia].
Qed.

Lemma iso_no_plus us : str_forall (fun c => negb (Ascii.eqb c "+")) (iso_with "" us) = true.
Proof.
  assert (forall w n, str_forall (fun c => negb (Ascii.eqb c "+")) (pad w n) = true) as Hpad.
  { intros w n. eapply str_forall_impl; [|apply pad_digits]. intros c Hc. apply digit_is_no_sign in Hc as (_ & _ & -> & _). done. }
  unfold iso_with. destruct (civil_of_days _) as [[y m] d]. destruct (_ =? 0); by rewrite !str_forall_app, !Hpad.
Qed.

Lemma rfc3339_text us : _rfc3339 us = iso_with "Z" us.
Proof.
  unfold _rfc3339, isoformat. rewrite (iso_offset "+00:00"), (iso_offset "Z"). apply replace_offset; [apply iso_no_plus|].
  rewrite str_length_app. simpl. lia.
Qed.

Lemma rfc3339_reads_back us : valid_moment us -> fromisoformat (_rfc3339 us) = Ok us.
Proof. intros Hus. unfold fromisoformat. rewrite rfc3339_text, iso_roundtrip_with; [done|by right|done]. Qed.

(** ** Mappings in a body *)

Lemma mapping_lookup (m : gmap string scalar) k : obj_get k (py_dict (member_json <$> scalar_items m)) = scalar_json <$> m !! k.
Proof.
  assert (merge_sort scalar_key_le (map_to_list m) ≡ₚ map_to_list m) as Hp by apply merge_sort_Permutation.
  assert (NoDup (member_json <$> scalar_items m).*1) as Hnd.
  { rewrite <- list_fmap_compose. change (fst ∘ member_json) with (fst : string * scalar -> string). unfold scalar_items. rewrite Hp. apply NoDup_fst_map_to_list. }
  rewrite py_dict_unique, obj_get_lookup by done. pose proof (dict_of_items m) as E. unfold dict_of in E.
  rewrite (list_to_map_proper _ (reverse (member_json <$> scalar_items m))); [|done|by rewrite reverse_Permutation].
  rewrite E. apply lookup_fmap.
Qed.

(** ** What the client makes of an operation *)

Definition reported (r : OperationRecord) : option SortSuccess :=
  raw ← op_terminal_fields r ≫= lookup "slot";
  match int_of_text raw with
  | Ok slot => Some (mkSortSuccess (operation_id r) slot (_rfc3339 (created_at r)))
  | _ => None
  end.

Lemma sort_success_body r : action r = OperationAction.SORT -> op_st r = OperationState.SUCCEEDED ->
  _sort_success_from (_operation_body r) = reported r.
Proof.
  intros Ha Hs. unfold _operation_body. rewrite Ha, Hs. cbn [_OUTCOME_FOR_STATE]. rewrite (bool_decide_false (OperationAction.SORT = _)), andb_false_r by done.
  unfold reported. destruct (op_terminal_fields r) as [f|]; [|by destruct (terminal_at r)].
  pose proof (mapping_lookup (SStr <$> f) "slot") as E. rewrite lookup_fmap in E. unfold jmapping.
  set (fl := member_json <$> scalar_items (SStr <$> f)) in *. clearbody fl.
  transitivity (match obj_get "slot" (py_dict fl) with
                | Some (JStr raw) => match int_of_text raw with
                                     | Ok slot => Some (mkSortSuccess (operation_id r) slot (_rfc3339 (created_at r)))
                                     | _ => None end
                | _ => None end); [by destruct (terminal_at r)|].
  rewrite E. simpl. by destruct (f !! "slot").
Qed.

(** ** The wire *)

(** [urlsplit] and [parse_qs] on a target without escapes and fragments. *)
Definition query_pairs (s : string) : list (string * string) :=
  omap (fun p => match str_partition "=" p with
                 | Some (k, v) => if bool_decide (v = "") then None else Some (k, v)
                 | None => None
                 end) (str_split "&" s).
Definition query_add (query : Query) (kv : string * string) : Query :=
  <[kv.1 := default [] (query !! kv.1) ++ [kv.2]]> query.
Definition split_target (t : string) : string * Query :=
  match str_partition "?" t with
  | Some (path, q) => (path, fold_left query_add (query_pairs q) ∅)
  | None => (t, ∅)
  end.

(** The request [http.client] sends, as [http.server] hands it to the handler. *)
Definition received (c : HttpCall) : HttpRequest :=
  mkHttpRequest (call_method c) (Some (split_target (call_path c)))
    ([("Host", "localhost"); ("Accept-Encoding", "identity"); ("Content-Length", str_of_Z (slen (call_body c)))] ++ call_headers c)
    (call_body c).

Definition line_break (c : ascii) : bool := Ascii.eqb c (chr 10) || Ascii.eqb c (chr 13).
Definition one_line (s : string) : bool := str_forall (fun c => negb (line_break c)) s.

Section Wire.
Context {W : Type} `{WorkerPort W} (env : Env) (json_loads : string -> result json) (api : ApiServer).
Abbreviation D := (OperationDomain W).

(** The daemon's handler at the other end of the socket: a reply, or a connection that breaks. *)
Definition api_peer : HttpPeer D := fun c d =>
  if negb (forallb (fun h => one_line h.2) (call_headers c)) then (d, vthrow VisionValueError "Invalid header value")
  else
    match Api._dispatch env json_loads api (received c) d with
    | (d, Ok (Written code _ payload)) => (d, Ok (code, payload))
    | (d, Ok (Streaming _ _)) => (d, vthrow VisionOSError "timed out")
    | (d, Err _) => (d, vthrow VisionOSError "Remote end closed connection without response")
    | (d, OutOfFuel) => (d, OutOfFuel)
    end.
End Wire.

(** A credential as [read_service_token] returns it. *)
Record token_ok (token : string) : Prop := {
  tk_some : token <> "";
  tk_stripped : str_strip token = token;
  tk_line : one_line token = true;
}.

(** ** A page of a journal whatever fails *)

Lemma decode_page ops db limit before st act : db_inv ops db ->
  decode_all (fun '(cur, row) => r ← _decode_operation row; Ok (cur, r)) (page_rows limit before st act db)
    = Ok (take (Z.to_nat limit) (filter (fun x => below before x.1 = true) (listing st act ops))).
Proof.
  intros Hi. rewrite (page_rows_listing ops) by apply Hi. apply decode_rows. apply Forall_forall. intros x Hx.
  eapply Forall_forall; [apply Hi|]. apply (listing_range st act ops).
  assert (x ∈ filter (fun x => below before x.1 = true) (listing st act ops)) as [_ Hin]%list_elem_of_filter; [|done].
  rewrite <- (take_drop (Z.to_nat limit) (filter _ _)). apply elem_of_app. by left.
Qed.

(** Whether the next statement of the journal succeeds. *)
Definition reading (j : Journal) : bool :=
  negb (_closed j) && match faults j with (FFail | FAbort) :: _ => false | _ => true end.

Lemma recent_any ops limit st act (j : Journal) : db_inv ops (current j) -> 1 <= limit ->
  let p := recent_operations limit None st act j in
  if reading j then p.2 = Ok (take (Z.to_nat limit) (listing st act ops)) else exists e, p.2 = Err e /\ is_journal_error e = true.
Proof.
  intros Hi Hl p. subst p. unfold recent_operations, reading. rewrite (proj2 (Z.ltb_ge _ _)) by done.
  pose proof (decode_page ops _ limit None st act Hi) as Hd. rewrite (filter_all (fun x : Z * OperationRecord => below None x.1 = true)) in Hd by by apply Forall_forall.
  unfold Journal._guard, Journal._require_open, try_except, Journal.execute, with_fault, liftR, mbind, M_bind.
  destruct (_closed j); [by eexists|].
  destruct (faults j) as [|[] fs]; cbn -[decode_all page_rows]; rewrite ?Hd; first [done | by eexists].
Qed.

Lemma utf8_two c : code (chr (0xC0 + code c / 64)) = 0xC0 + code c / 64 /\ code (chr (0x80 + code c mod 64)) = 0x80 + code c mod 64.
Proof. pose proof (code_range c). split; apply code_chr; Z.div_mod_to_equations; lia. Qed.

Lemma utf8_inj s t : encode_utf8 s = encode_utf8 t -> s = t.
Proof.
  revert t. induction s as [|c s IH]; intros [|d t]; simpl; [done|by destruct (code d <? 128)|by destruct (code c <? 128)|].
  destruct (utf8_two c) as [Hc1 Hc2], (utf8_two d) as [Hd1 Hd2]. pose proof (code_range c). pose proof (code_range d).
  destruct (Z.ltb_spec (code c) 128), (Z.ltb_spec (code d) 128); intros E; [injection E as E1 E2|injection E as E1 E2..|injection E as E1 E3 E2];
    apply (f_equal code) in E1.
  - f_equal; [by apply code_inj|by apply IH].
  - exfalso. rewrite E1 in *. Z.div_mod_to_equations; lia.
  - exfalso. rewrite <- E1 in *. Z.div_mod_to_equations; lia.
  - f_equal; [|by apply IH]. apply (f_equal code) in E3. apply code_inj. rewrite Hc1, Hd1 in E1. rewrite Hc2, Hd2 in E3.
    rewrite (Z.div_mod (code c) 64), (Z.div_mod (code d) 64) by lia. lia.
Qed.

(** ** The request for a sort *)

Lemma request_size slot : - 2 ^ 63 <= slot < 2 ^ 63 -> 0 < slen (dumps_default (sort_request "cs71-vision" slot)) < 200.
Proof.
  intros Hs. assert (0 <= slen (json_int slot) <= 20) as Hn.
  { split; [unfold slen; lia|]. unfold json_int. assert (2 ^ 63 < 10 ^ 19) by by vm_compute. destruct (Z.ltb_spec slot 0).
    - assert (slen (str_of_Z (- slot)) <= 19) by (apply slen_str_of_Z; lia). unfold slen in *. simpl. lia.
    - assert (slen (str_of_Z slot) <= 19) by (apply slen_str_of_Z; lia). lia. }
  assert (dumps_default (sort_request "cs71-vision" slot) =
    ("{" +:+ json_str "api_version" +:+ ": " +:+ json_str "v1" +:+ ", " +:+ json_str "actor" +:+ ": {" +:+ json_str "user_id" +:+ ": "
     +:+ json_str "cs71-vision" +:+ ", " +:+ json_str "role" +:+ ": " +:+ json_str "machine" +:+ "}, " +:+ json_str "slot" +:+ ": ")
    +:+ json_int slot +:+ "}") as ->.
  { by rewrite <- !str_app_assoc. }
  rewrite !(slen_app _ (json_int slot +:+ "}")), (slen_app (json_int slot)).
  match goal with |- context [slen ?a + (slen (json_int slot) + _)] => assert (slen a = 86) as -> by by vm_compute end.
  change (slen "}") with 1. lia.
Qed.

Lemma clip_all s : clip (Z.to_nat (slen s)) s = s.
Proof.
  unfold clip, slen. rewrite Nat2Z.id. induction s as [|c s IH]; [done|]. simpl. by rewrite IH.
Qed.

Lemma body_arrives c : headers_get "Content-Length" (received c) = Some (str_of_Z (slen (call_body c))) -> 0 < slen (call_body c) <= MAX_BODY_BYTES ->
  _read_body (received c) = Ok (call_body c).
Proof.
  intros Hh Hs. unfold _read_body. rewrite Hh, int_of_text_str by (unfold MAX_BODY_BYTES in Hs; lia). cbn [or_refuse mbind res_bind].
  rewrite (proj2 (Z.ltb_ge _ _)), (proj2 (Z.eqb_neq _ _)) by lia. unfold rfile_read. rewrite (proj2 (Z.ltb_ge _ _)) by lia.
  change (rfile (received c)) with (call_body c). by rewrite clip_all.
Qed.

Lemma one_line_digits n : 0 <= n -> one_line (str_of_Z n) = true.
Proof.
  intros Hn. eapply str_forall_impl; [|by apply digits_str_of_Z]. intros c Hc. unfold line_break.
  rewrite !(proj2 (Ascii.eqb_neq c _)); [done|intros -> ..]; by vm_compute in Hc.
Qed.

Lemma one_line_key key : api_key_syntax key = true -> one_line key = true.
Proof.
  unfold api_key_syntax. intros [_ Hk]%andb_true_iff. eapply str_forall_impl; [|exact Hk]. intros c Hc. unfold line_break.
  rewrite !(proj2 (Ascii.eqb_neq c _)); [done|intros -> ..]; by vm_compute in Hc.
Qed.

Lemma generation_syntax g : 0 <= g -> _EXACT_GENERATION (str_of_Z g) = true.
Proof.
  intros Hg. pose proof (uint_syntax_str g Hg) as Hu. unfold uint_syntax, _EXACT_GENERATION in *. destruct (str_of_Z g) as [|c s]; [done|].
  apply orb_true_iff in Hu as [[-> %Ascii.eqb_eq ->%bool_decide_eq_true]%andb_true_iff|Hu]; [done|]. by rewrite Hu, orb_true_r.
Qed.

(** The client holds the daemon's credentials, and either side reads the JSON the other writes. *)
Record connected {W} `{WorkerPort W} (json_loads : string -> result json) (client_loads : string -> vresult json)
    (token : string) (machine_token : option string) (api : ApiServer) : Prop := {
  co_loads_halts : forall s, halts (json_loads s);
  co_submit_halts : forall i r (w : W), halts (worker_submit i r w).2;
  co_stop_halts : forall id (w : W), halts (worker_submit_priority_stop id w).2;
  co_request_read : forall v, exact v = true -> json_loads (dumps_default v) = Ok v;
  co_loads_body : forall v, exact v = true -> client_loads (dumps v) = Ok v;
  co_token : token_ok token;
  co_machine : forall t, machine_token = Some t -> token_ok t /\ t <> token;
  co_made : ApiServer_make token machine_token = Ok api;
}.
Arguments connected W {_}.

Section Link.
Context {W : Type} `{WorkerPort W} (env : Env) (json_loads : string -> result json) (client_loads : string -> vresult json).
Context (decode_replace : string -> string) (path token : string) (machine_token : option string) (api : ApiServer).
Context (Hc : connected W json_loads client_loads token machine_token api).
Abbreviation D := (OperationDomain W).
Abbreviation linked d := (mkLink path token machine_token d).

#[local] Instance peer_of : HttpPeer D := api_peer env json_loads api.

Lemma api_tokens : _token api = encode_utf8 token /\ _machine_token api = encode_utf8 <$> machine_token.
Proof. pose proof (co_made _ _ _ _ _ Hc) as Hapi. clear -Hapi. unfold ApiServer_make in Hapi. repeat case_bool_decide; simplify_eq/=. done. Qed.

Lemma authenticate_bff : authenticate api (Some ("Bearer " +:+ token)) = Ok BFF.
Proof.
  unfold authenticate. change (str_partition " " (default "" (Some ("Bearer " +:+ token)))) with (Some ("Bearer", token)).
  cbv iota beta zeta. rewrite (bool_decide_true (str_lower "Bearer" = "bearer")) by reflexivity. cbn [negb].
  rewrite (tk_stripped _ (co_token _ _ _ _ _ Hc)), (proj1 api_tokens), bool_decide_true by done. done.
Qed.

Lemma authenticate_machine t : machine_token = Some t -> authenticate api (Some ("Bearer " +:+ t)) = Ok MACHINE.
Proof.
  intros Ht. destruct ((co_machine _ _ _ _ _ Hc) t Ht) as [Hok Hne].
  unfold authenticate. change (str_partition " " (default "" (Some ("Bearer " +:+ t)))) with (Some ("Bearer", t)).
  cbv iota beta zeta. rewrite (bool_decide_true (str_lower "Bearer" = "bearer")) by reflexivity. cbn [negb].
  rewrite (tk_stripped _ Hok), (proj1 api_tokens), (proj2 api_tokens), Ht. cbn [fmap option_fmap option_map].
  rewrite bool_decide_false by (intros E; by apply utf8_inj in E). by rewrite bool_decide_true.
Qed.

(** *** One exchange *)

Lemma one_line_bearer t : token_ok t -> one_line ("Bearer " +:+ t) = true.
Proof. intros [_ _ Hl]. unfold one_line in *. by rewrite str_forall_app, Hl. Qed.

(** The daemon after the request got its identity. *)
Definition identified (d : D) : D := set_counters (reads d) (S (uuids d)) (checks d) d.

(** What the client reads of a handled request. *)
Definition wire_reply (request_id : string) (p : D * res api_exn _Response) : D * vresult (Z * string) :=
  match p with
  | (d, Ok response) => (d, Ok (status response, dumps (body response)))
  | (d, Err e) =>
      (d, match handle_error e request_id with
          | Written code _ payload => Ok (code, payload)
          | Streaming _ _ => vthrow VisionOSError "timed out"
          end)
  | (d, OutOfFuel) => (d, OutOfFuel)
  end.

(** A call with a valid credential, whose body arrives whole. *)
Lemma exchange_call identity tok m p headers b d : authenticate api (Some ("Bearer " +:+ tok)) = Ok identity -> token_ok tok ->
  forallb (fun h => one_line h.2) headers = true ->
  let call := mkHttpCall m p (("Authorization", "Bearer " +:+ tok) :: headers) b in
  headers_get "X-Request-ID" (received call) = None -> _read_body (received call) = Ok b ->
  exchange call d = wire_reply (uuid4 env (uuids d))
    (route env json_loads m (split_target p).1 (split_target p).2 identity (lower_headers (received call)) b (identified d)).
Proof.
  intros Ha Ht Hl call Hid Hb. unfold exchange, peer_of, api_peer. cbn [call_headers call forallb snd]. rewrite one_line_bearer, Hl by done.
  cbn [negb andb]. fold call. unfold Api._dispatch. unfold mbind at 1, M_bind at 1.
  assert (_request_id env (received call) d = (identified d, Ok (E := api_exn) (uuid4 env (uuids d)))) as ->.
  { unfold _request_id. by rewrite Hid. }
  cbv iota beta. unfold try_case, attempt. change (headers_get "Authorization" (received call)) with (Some ("Bearer " +:+ tok)). rewrite Ha.
  unfold mbind, M_bind, liftR at 1. cbv iota beta. rewrite Hb. unfold liftR at 1. cbv iota beta.
  cbn [target received call_path call]. destruct (split_target p) as [pa q]. cbn [fst snd]. change (method (received call)) with m.
  destruct (route _ _ _ _ _ _ _ _ _) as [d' [response|e|]]; try done.
  unfold wire_reply, mret, M_ret. by destruct (handle_error _ _).
Qed.

Lemma exchange_get p d :
  exchange (mkHttpCall "GET" p [("Authorization", "Bearer " +:+ token)] "") d =
    wire_reply (uuid4 env (uuids d))
      (route env json_loads "GET" (split_target p).1 (split_target p).2 BFF
         (lower_headers (received (mkHttpCall "GET" p [("Authorization", "Bearer " +:+ token)] ""))) "" (identified d)).
Proof. apply exchange_call; [apply authenticate_bff|apply (co_token _ _ _ _ _ Hc)|done..]. Qed.

(** Nothing an error is turned into looks like a success to the client. *)
Lemma error_status e request_id code headers payload : handle_error e request_id = Written code headers payload -> code ∉ [200; 202].
Proof.
  assert (forall c, default 500 (_STATUS_FOR_CODE c) ∉ [200; 202]) as Hst.
  { intros c. unfold _STATUS_FOR_CODE. repeat case_bool_decide; simpl; set_solver by lia. }
  destruct e as [c message details|after|e]; simpl; [intros [= <- _ _]; apply Hst|done|].
  destruct (exn_cls e) as [?|?|c|?|?]; intros [= <- _ _]; first [apply (Hst "INTERNAL_ERROR") | apply Hst].
Qed.

(** A call of the client whose handler left the daemon in [d'] with [r]. *)
Definition client_result (r : res api_exn _Response) : vresult (Z * pydict) -> Prop := fun out =>
  match r with
  | Ok response => match body response with JObj l => out = Ok (status response, py_dict l) | _ => True end
  | Err _ => exists e, out = Err e /\ vinstance e DaemonClientError = true
  | OutOfFuel => True
  end.

Lemma request_result m p tok b headers (d d' : D) request_id r : exchange (mkHttpCall m p (("Authorization", "Bearer " +:+ tok) :: headers) b) d
    = wire_reply request_id (d', r) ->
  match r with Ok response => success m response | _ => True end ->
  (_request client_loads decode_replace m p tok b headers (linked d)).1 = linked d'
  /\ client_result r (_request client_loads decode_replace m p tok b headers (linked d)).2.
Proof.
  intros E Hr. unfold _request, mbind, M_bind, getS, try_except, on_peer. cbn [peer _socket_path _service_token _machine_service_token].
  rewrite E. destruct r as [response|e|]; cbn [wire_reply fst snd].
  - destruct Hr as [Hx Hs]. rewrite bool_decide_true by (destruct Hs as [(_ & -> & _)|[_ ->]]; set_solver). cbn [negb]. unfold liftR.
    rewrite (co_loads_body _ _ _ _ _ Hc) by done. cbn. by destruct (body response).
  - destruct (handle_error e request_id) as [code hs payload|after hs] eqn:Eh.
    + apply error_status in Eh. rewrite bool_decide_false by done. cbn. split; [done|]. by eexists.
    + cbn. split; [done|]. by eexists.
  - done.
Qed.

Lemma get_result p (d d' : D) r :
  route env json_loads "GET" (split_target p).1 (split_target p).2 BFF
    (lower_headers (received (mkHttpCall "GET" p [("Authorization", "Bearer " +:+ token)] ""))) "" (identified d) = (d', r) ->
  match r with Ok response => success "GET" response | _ => True end ->
  (_get client_loads decode_replace p (linked d)).1 = linked d' /\
  match r with
  | Ok response => match body response with JObj l => (_get client_loads decode_replace p (linked d)).2 = Ok (py_dict l) | _ => True end
  | Err _ => exists e, (_get client_loads decode_replace p (linked d)).2 = Err e /\ vinstance e DaemonClientError = true
  | OutOfFuel => True
  end.
Proof.
  intros E Hr. pose proof (exchange_get p d) as Hx. rewrite E in Hx.
  destruct (request_result "GET" p token "" [] d d' _ r Hx Hr) as [H1 H2].
  unfold _get, mbind, M_bind, getS. cbn [_service_token].
  destruct (_request _ _ _ _ _ _ _ _) as [c' out] eqn:Eq. cbn [fst snd] in *. subst c'.
  split; [by destruct out|]. destruct r as [response|e|]; simpl in H2; [|by destruct H2 as (e' & -> & He); exists e'|done].
  destruct (body response); try done. by subst out.
Qed.

(** *** What the client is told of the sorts *)

Definition sorts_query : Query := (split_target "/v1/operations?type=SORT&state=SUCCEEDED&limit=25").2.

Lemma sorts_query_ok : query_ok sorts_query 25 (Some OperationState.SUCCEEDED) (Some OperationAction.SORT) /\ sorts_query !! "cursor" = None.
Proof. by vm_compute. Qed.

Lemma sorts_route headers (d : D) : route env json_loads "GET" (split_target "/v1/operations?type=SORT&state=SUCCEEDED&limit=25").1 sorts_query BFF headers "" d
  = respond (_operation_page sorts_query) d.
Proof. reflexivity. Qed.

Lemma page_any ops (d : D) : db_inv ops (current (_journal d)) ->
  let p := _operation_page sorts_query d in
  if reading (_journal d)
  then p.2 = Ok (page_body 25 (take 25 (listing (Some OperationState.SUCCEEDED) (Some OperationAction.SORT) ops)))
  else exists e, p.2 = Err e.
Proof.
  intros Hi p. subst p. destruct sorts_query_ok as [(Hlim & Hst & Hact) Hcur]. unfold _operation_page. rewrite Hlim, Hst, Hact.
  unfold _optional_cursor, query_value. rewrite Hcur. cbn [mbind option_bind]. unfold mbind, M_bind, liftR, _read, on_journal. cbv zeta beta iota.
  pose proof (recent_any ops 25 (Some OperationState.SUCCEEDED) (Some OperationAction.SORT) (_journal d) Hi ltac:(lia)) as Hp. cbv zeta in Hp.
  destruct (recent_operations _ _ _ _ _) as [j' r]. cbn [fst snd] in *. destruct (reading (_journal d)); [by subst r|].
  destruct Hp as (e & -> & He). rewrite He. by eexists.
Qed.

Definition is_sort (r : OperationRecord) : Prop := action r = OperationAction.SORT /\ op_st r = OperationState.SUCCEEDED.
#[export] Instance is_sort_dec r : Decision (is_sort r).
Proof. unfold is_sort. apply _. Defined.

(** The newest succeeded sorts, newest first. *)
Definition newest_sorts (ops : list OperationRecord) : list OperationRecord := take 25 (reverse (filter is_sort ops)).

Lemma listing_sorts ops : snd <$> take 25 (listing (Some OperationState.SUCCEEDED) (Some OperationAction.SORT) ops) = newest_sorts ops.
Proof.
  unfold newest_sorts. rewrite fmap_take. f_equal. unfold listing. rewrite <- (numbered_snd ops) at 2.
  rewrite filter_map, <- fmap_reverse. f_equal. rewrite filter_rev. f_equal. apply list_filter_iff. intros [i r]. unfold matches, is_sort. cbn [snd].
  rewrite andb_true_iff, !bool_decide_eq_true. tauto.
Qed.

Lemma reported_bodies l : Forall is_sort l -> omap _sort_success_from (_operation_body <$> l) = omap reported l.
Proof. induction 1 as [|r l [Ha Hs] _ IH]; [done|]. rewrite fmap_cons. cbn [omap list_omap]. by rewrite sort_success_body, IH. Qed.

Lemma newest_are_sorts ops : Forall is_sort (newest_sorts ops).
Proof. apply Forall_take, Forall_reverse, Forall_forall. intros r [Hr _]%list_elem_of_filter. done. Qed.

Lemma items_of_page rows : obj_get "items" (py_dict [("api_version", JStr API_VERSION); ("items", JArr ((fun row : Z * OperationRecord => _operation_body row.2) <$> rows));
    ("next_cursor", next_cursor 25 rows)]) = Some (JArr (_operation_body <$> (snd <$> rows))).
Proof. by rewrite <- list_fmap_compose. Qed.

Lemma recent_sorts_answer ops (d : D) : db_inv ops (current (_journal d)) ->
  let p := recent_sorts client_loads decode_replace 25 (linked d) in
  p.1 = linked (_operation_page sorts_query (identified d)).1
  /\ if reading (_journal d) then p.2 = Ok (omap reported (newest_sorts ops))
     else exists e, p.2 = Err e /\ vinstance e DaemonClientError = true.
Proof.
  intros Hi p. subst p. pose proof (sorts_route (lower_headers (received (mkHttpCall "GET" "/v1/operations?type=SORT&state=SUCCEEDED&limit=25"
    [("Authorization", "Bearer " +:+ token)] ""))) (identified d)) as Hr.
  pose proof (page_any ops (identified d) Hi) as Hp. pose proof (gives_page json_loads (co_loads_halts _ _ _ _ _ Hc) (co_submit_halts _ _ _ _ _ Hc) (co_stop_halts _ _ _ _ _ Hc) sorts_query (identified d)) as Hg.
  unfold respond, mbind, M_bind in Hr. unfold exact_body in Hg.
  destruct (_operation_page sorts_query (identified d)) as [d' r]. cbn [fst snd] in *.
  assert (exists r', route env json_loads "GET" (split_target "/v1/operations?type=SORT&state=SUCCEEDED&limit=25").1 sorts_query BFF
      (lower_headers (received (mkHttpCall "GET" "/v1/operations?type=SORT&state=SUCCEEDED&limit=25" [("Authorization", "Bearer " +:+ token)] ""))) "" (identified d)
      = (d', r') /\ r' = (b ← r; Ok (mkResponse 200 b None))) as (r' & E & Er').
  { rewrite Hr. exists (b ← r; Ok (mkResponse 200 b None)). by destruct r. }
  destruct (get_result _ _ _ _ E) as [H1 H2]; [subst r'; destruct r; [|done..]; split; [exact Hg|right; split; [apply (bool_decide_unpack _); exact I|done]]|].
  change ("/v1/operations?type=SORT&state=SUCCEEDED&limit=" +:+ str_of_Z 25) with "/v1/operations?type=SORT&state=SUCCEEDED&limit=25" in *.
  unfold recent_sorts. unfold mbind, M_bind.
  change ("/v1/operations?type=SORT&state=SUCCEEDED&limit=" +:+ str_of_Z 25) with "/v1/operations?type=SORT&state=SUCCEEDED&limit=25".
  destruct (_get _ _ _ _) as [c out]. cbn [fst snd] in *. subst c r'. change (reading (_journal (identified d))) with (reading (_journal d)) in Hp.
  destruct (reading (_journal d)); [subst r|destruct Hp as [e ->]]; cbn [mbind res_bind] in H2.
  - cbn [body page_body] in H2. subst out. by rewrite items_of_page, listing_sorts, reported_bodies by apply newest_are_sorts.
  - destruct H2 as (e' & -> & He). split; [done|]. by exists e'.
Qed.

(** *** The generation it reads *)

Lemma snapshot_answer (d : D) : let p := snapshot_generation client_loads decode_replace (linked d) in
  exists d', p.1 = linked d' /\ rtc (quiet env) (identified d) d' /\
  ((exists e, p.2 = Err e /\ vinstance e DaemonClientError = true) \/ p.2 = Ok (ms_generation (m_snapshot (_machine d)))).
Proof.
  intros p. subst p. set (view := m_snapshot (_machine d)).
  set (headers := lower_headers (received (mkHttpCall "GET" "/v1/snapshot" [("Authorization", "Bearer " +:+ token)] ""))).
  assert (exists d' r, route env json_loads "GET" (split_target "/v1/snapshot").1 (split_target "/v1/snapshot").2 BFF headers "" (identified d) = (d', r)
    /\ rtc (quiet env) (identified d) d'
    /\ match r with
       | Ok response => success "GET" response /\ exists l, body response = JObj l /\ obj_get "generation" (py_dict l) = Some (JInt (ms_generation view))
       | Err _ => True
       | OutOfFuel => False
       end) as (d' & r & E & Hq & Hr).
  { pose proof (gives_route env json_loads (co_loads_halts _ _ _ _ _ Hc) (co_submit_halts _ _ _ _ _ Hc) (co_stop_halts _ _ _ _ _ Hc) "GET" (split_target "/v1/snapshot").1 (split_target "/v1/snapshot").2
      BFF headers "" (identified d)) as Hg.
    change (route env json_loads "GET" _ _ _ _ _ (identified d)) with
      ((b ← _machine_snapshot env view;
        mret (mkResponse 200 b (Some (String dquote "generation:" +:+ str_of_Z (ms_generation view) +:+ String dquote "")))) (identified d)) in *.
    pose proof (quietly_snapshot env view (identified d)) as Hq.
    unfold _machine_snapshot in *. unfold mbind, M_bind in *.
    destruct (_active_operation view (identified d)) as [d1 [active|e|]]; [|by repeat eexists|by destruct Hg].
    destruct (_faults env view d1) as [d2 [fs|e|]]; [|by repeat eexists|by destruct Hg].
    destruct (_timestamp env d2) as [d3 [t|e|]]; [|by repeat eexists|by destruct Hg].
    repeat eexists; [exact Hq|exact (proj1 Hg)|exact (proj2 Hg)]. }
  exists d'. destruct (get_result _ _ _ _ E) as [H1 H2]; [by destruct r as [response|e|]; [apply Hr|..]|].
  unfold snapshot_generation, mbind, M_bind. destruct (_get _ _ _ _) as [c out]. cbn [fst snd] in *. subst c.
  destruct r as [response|e|]; [|destruct H2 as (e' & -> & He); split; [done|]; split; [done|]; left; by exists e'|done].
  destruct Hr as (_ & l & Hb & Hg). rewrite Hb in H2. subst out. rewrite Hg. split; [done|]. split; [done|]. by right.
Qed.

(** *** The sort it asks for *)

Definition machine_actor : Actor := mkActor "cs71-vision" MACHINE_ROLE.

(** The command handler on the request of the client is the domain's [submit] for the machine actor. *)
Lemma sort_route slot g key headers (d : D) : - 2 ^ 63 <= slot < 2 ^ 63 -> 0 <= g < 2 ^ 63 -> api_key_syntax key = true ->
  header "idempotency-key" headers = key -> header "if-match-generation" headers = str_of_Z g -> header "x-deadline-ms" headers = "15000" ->
  route env json_loads "POST" "/v1/operations/sort" ∅ MACHINE headers (dumps_default (sort_request "cs71-vision" slot)) d
  = if (0 <=? slot) && (slot <=? MAX_API_SLOT)
    then (record ← domain (submit env OperationAction.SORT {["slot" := BInt slot]} machine_actor key g (BInt 15000)); mret (accepted record)) d
    else (d, invalid_request "slot must be between 0 and 63").
Proof.
  intros Hs Hg Hk H1 H2 H3. 
  change (route env json_loads "POST" "/v1/operations/sort" ∅ MACHINE headers ?b d) with (_command env json_loads "/v1/operations/sort" headers b MACHINE d).
  unfold _command. change (_COMMAND_ACTIONS "/v1/operations/sort") with (Some OperationAction.SORT). cbv zeta.
  change (bool_decide (Some OperationAction.SORT = None)) with false. cbn [andb].
  assert (_json_object json_loads (dumps_default (sort_request "cs71-vision" slot)) = Ok (match sort_request "cs71-vision" slot with JObj l => py_dict l | _ => [] end)) as ->.
  { unfold _json_object. rewrite bool_decide_false by (intros E; pose proof (request_size slot Hs) as Hz; rewrite E in Hz; change (slen "") with 0 in Hz; lia).
    rewrite (co_request_read _ _ _ _ _ Hc) by reflexivity. reflexivity. }
  unfold mbind at 1, M_bind at 1, liftR at 1. cbv iota beta.
  change (_commanding_actor _ MACHINE _) with (Ok (E:=api_exn) machine_actor). unfold mbind at 1, M_bind at 1, liftR at 1. cbv iota beta.
  unfold Api._idempotency_key. rewrite H1, Hk. cbn [negb]. unfold mbind at 1, M_bind at 1, liftR at 1. cbv iota beta.
  assert (_deadline_ms headers = Ok 15000) as -> by (unfold _deadline_ms; by rewrite H3).
  unfold mbind at 1, M_bind at 1, liftR at 1. cbv iota beta.
  change (bool_decide ("/v1/operations/sort" ∈ _SESSION_PATHS)) with false. cbv iota.
  unfold _command_body. change (_require_exact_fields _ _ _) with (Ok (E:=api_exn) tt). cbn [mbind res_bind].
  change (field "slot" _) with (Ok (E:=api_exn) (JInt slot)). cbn [mbind res_bind]. unfold _api_slot.
  destruct (_ && _) eqn:Er; [|done]. cbn [negb mbind res_bind]. unfold mbind at 1, M_bind at 1, liftR at 1. cbv iota beta.
  unfold _exact_generation. rewrite H2, generation_syntax by apply Hg. cbn [negb]. rewrite int_of_text_str by done. done.
Qed.

(** What [submit_sort] did to the daemon [d], and its answer. *)
Definition sort_outcome (slot g : Z) (key : string) (d d' : D) (out : vresult string) : Prop :=
  if (0 <=? slot) && (slot <=? MAX_API_SLOT)
  then
    let q := submit env OperationAction.SORT {["slot" := BInt slot]} machine_actor key g (BInt 15000) (identified d) in
    d' = q.1 /\ match q.2 with
                | Ok record => out = Ok (operation_id record)
                | Err _ => exists e, out = Err e /\ vinstance e DaemonClientError = true
                | OutOfFuel => False
                end
  else d' = identified d /\ exists e, out = Err e /\ vinstance e DaemonClientError = true.

Lemma post_sort_answer tok slot g key (d : D) : machine_token = Some tok -> - 2 ^ 63 <= slot < 2 ^ 63 -> 0 <= g < 2 ^ 63 -> api_key_syntax key = true ->
  let p := post_sort client_loads decode_replace slot g key 15000 "cs71-vision" (linked d) in
  exists d', p.1 = linked d' /\ sort_outcome slot g key d d' p.2.
Proof.
  intros Hm Hs Hg Hk p. subst p. destruct ((co_machine _ _ _ _ _ Hc) tok Hm) as [Hok _].
  set (headers := [("Idempotency-Key", key); ("If-Match-Generation", str_of_Z g); ("X-Deadline-Ms", str_of_Z 15000)]).
  set (b := dumps_default (sort_request "cs71-vision" slot)).
  assert (forallb (fun h => one_line h.2) headers = true) as Hl.
  { simpl. by rewrite one_line_key, one_line_digits by (done || lia). }
  set (call := mkHttpCall "POST" "/v1/operations/sort" (("Authorization", "Bearer " +:+ tok) :: headers) b).
  assert (_read_body (received call) = Ok b) as Hb.
  { apply (body_arrives call); [done|]. pose proof (request_size slot Hs) as Hz. fold b in Hz. unfold MAX_BODY_BYTES. change (call_body call) with b. lia. }
  pose proof (exchange_call MACHINE tok "POST" "/v1/operations/sort" headers b d (authenticate_machine tok Hm) Hok Hl eq_refl Hb) as Hx.
  pose proof (sort_route slot g key (lower_headers (received call)) (identified d) Hs Hg Hk eq_refl eq_refl eq_refl) as Hr.
  change (split_target "/v1/operations/sort") with ("/v1/operations/sort", ∅ : Query) in Hx. cbn [fst snd] in Hx. fold call in Hx. fold b in Hr.
  pose proof (gives_route env json_loads (co_loads_halts _ _ _ _ _ Hc) (co_submit_halts _ _ _ _ _ Hc) (co_stop_halts _ _ _ _ _ Hc) "POST" "/v1/operations/sort" ∅ MACHINE
    (lower_headers (received call)) b (identified d)) as Hgive. rewrite Hr in Hx, Hgive. clear Hr.
  unfold sort_outcome, post_sort, mbind, M_bind, getS. cbn [_machine_service_token]. rewrite Hm.
  unfold _post, mbind, M_bind. fold headers. fold b.
  destruct (_ && _) eqn:Er.
  - unfold mbind, M_bind, domain in Hx, Hgive. destruct (submit _ _ _ _ _ _ _ (identified d)) as [d' r]. cbn [fst snd lift_result] in *.
    destruct r as [record|e|]; cbn [lift_result] in *.
    + destruct (request_result "POST" "/v1/operations/sort" tok b headers d d' _ _ Hx Hgive) as [H1 H2]; rewrite Hm in H1, H2.
      destruct (_request _ _ _ _ _ _ _ _) as [c out]. cbn [fst snd] in *. subst c. simpl in H2. subst out. exists d'. split; [done|]. split; reflexivity.
    + destruct (request_result "POST" "/v1/operations/sort" tok b headers d d' _ _ Hx I) as [H1 H2]; rewrite Hm in H1, H2.
      destruct (_request _ _ _ _ _ _ _ _) as [c out]. cbn [fst snd] in *. subst c. destruct H2 as (e' & -> & He).
      exists d'. split; [done|]. split; [done|]. by exists e'.
    + by destruct Hgive.
  - destruct (request_result "POST" "/v1/operations/sort" tok b headers d (identified d) _ _ Hx I) as [H1 H2]; rewrite Hm in H1, H2.
    destruct (_request _ _ _ _ _ _ _ _) as [c out]. cbn [fst snd] in *. subst c. destruct H2 as (e' & -> & He).
    exists (identified d). split; [done|]. split; [done|]. by exists e'.
Qed.
End Link.
