(* ===== verification/LinkedService.v ===== *)
(** * The vision service connected to a running daemon

    What the loops of the vision service do when the daemon behind their client is
    the daemon itself: the labels of the dataset are confirmed sorts of the
    daemon's journal, and an autonomous sort is one [submit] of the machine actor. *)
From Stdlib Require Import SpecFloat.
From S2P Require Import Prelude PyString Errors Models IsoTime Json JsonText Operations Session Machine Journal JournalSpec.
From S2P Require Import JournalSafety Configuration Adapters Events Domain DomainTotal DomainSpec DomainDemo Http Api ApiSpec.
From S2P Require Import ApiReply ApiPages ApiDemo VisionErrors Routing Sqlite Dataset Vision VisionSpec DaemonLink DaemonLinkSpec.

Section Linked.
Context {W : Type} `{WorkerPort W} (env : Env) (json_loads : string -> result json) (client_loads : string -> vresult json).
Context (decode_replace : string -> string) (path token : string) (machine_token : option string) (api : ApiServer).
Context (Hc : connected W json_loads client_loads token machine_token api).
Abbreviation D := (OperationDomain W).
Abbreviation linked d := (mkLink path token machine_token d).

(** The client as the service uses it. *)
#[local] Instance service_client : DaemonClient (Link D) :=
  @link_client D (api_peer env json_loads api) client_loads decode_replace.

Lemma quiet_identified (d : D) : quiet env d (identified d).
Proof. apply q_env. Qed.

(** What the client is told is what the journal holds. Over the real handler of the daemon, with the shared
    credential, asking for the recent sorts only reads; when the journal can be read the answer is exactly the 25
    newest succeeded sorts that carry a numeric slot, newest first, each with its identity, slot and time of
    creation; and when it cannot, the client raises its own error and reports nothing. *)
Theorem reported_sorts_exact (ops : list OperationRecord) (d : D) : db_inv ops (current (_journal d)) ->
  let p := recent_sort_successes (linked d) in
  exists d', p.1 = linked d' /\ rtc (quiet env) d d' /\
    if reading (_journal d) then p.2 = Ok (omap reported (newest_sorts ops))
    else exists e, p.2 = Err e /\ vinstance e DaemonClientError = true.
Proof.
  intros Hi p. destruct (recent_sorts_answer env json_loads client_loads decode_replace path token machine_token api Hc ops d Hi) as [H1 H2].
  eexists. split; [exact H1|]. split; [|exact H2]. eapply rtc_l; [apply quiet_identified|]. apply quietly_page.
Qed.

(** ** Labels *)

(** A label and the operation it stands for. *)
Definition confirmed (ops : list OperationRecord) (b : FrameBuffer) (row : example_row) : Prop :=
  exists r raw f, r ∈ ops /\ is_sort r /\ trusted_terminal r = true
    /\ x_operation_id row = operation_id r
    /\ op_terminal_fields r ≫= lookup "slot" = Some raw /\ int_of_text raw = Ok (x_slot row)
    /\ f ∈ _frames b /\ x_frame_png row = fr_png f /\ captured_at f <= created_at r
    /\ forall g, g ∈ _frames b -> captured_at g <= created_at r -> captured_at g <= captured_at f.

Lemma reported_of ops s : s ∈ omap reported (newest_sorts ops) -> exists r raw, r ∈ ops /\ is_sort r
  /\ op_terminal_fields r ≫= lookup "slot" = Some raw /\ int_of_text raw = Ok (ss_slot s)
  /\ ss_operation_id s = operation_id r /\ ss_created_at s = _rfc3339 (created_at r).
Proof.
  intros (r & Hr & Hs)%list_elem_of_omap. unfold reported in Hs.
  assert (r ∈ reverse (filter is_sort ops)) as Hr'.
  { rewrite <- (take_drop 25 (reverse _)). apply elem_of_app. by left. }
  rewrite elem_of_reverse in Hr'. apply list_elem_of_filter in Hr' as [Hsort Hin].
  destruct (_ ≫= lookup "slot") as [raw|] eqn:Eraw; [|done]. cbn [mbind option_bind] in Hs.
  destruct (int_of_text raw) as [n|e|] eqn:En; [|done..]. injection Hs as <-. by exists r, raw.
Qed.

Lemma labelled_confirmed ops db b row : db_inv ops db -> labelled b (omap reported (newest_sorts ops)) row -> confirmed ops b row.
Proof.
  intros Hi (s & created & f & Hs & Hcr & Hf & Hle & Hmax & Hid & Hslot & Hpng). apply reported_of in Hs as (r & raw & Hr & Hsort & Hraw & Hn & Hop & Ht).
  assert (stored_ok r) as Hok by (eapply Forall_forall; [apply Hi|done]).
  rewrite Ht, rfc3339_reads_back in Hcr by apply Hok. injection Hcr as <-.
  exists r, raw, f. rewrite Hid, Hslot, Hop, Hpng. split_and!; try done. apply (so_wf _ Hok). apply Hsort.
Qed.

(** C7: every label of the dataset is a confirmed sort of this very daemon. Whatever the daemon's journal and
    the dataset do to the statements run on them, an example that a poll adds carries the identity and the
    slot of an operation of the journal that is a sort, succeeded and has a trusted terminal; the slot is the
    one its terminal reported; and the picture is the newest frame captured at or before the operation was
    admitted. *)
Theorem labels_are_confirmed_sorts (now : datetime) (x : Service (Link D)) (d : D) (ops : list OperationRecord) (row : example_row) :
  cn_working (store x) = None -> daemon x = linked d -> db_inv ops (current (_journal d)) ->
  row ∈ examples_t (cn_committed (store (poll_once now x).1)) ->
  row ∈ examples_t (cn_committed (store x)) \/ confirmed ops (buffer x) row.
Proof.
  intros Hw Hd Hi Hrow. pose proof (recent_sorts_answer env json_loads client_loads decode_replace path token machine_token api Hc ops d Hi) as [_ Hr].
  change (recent_sorts _ _ 25 (linked d)) with (recent_sort_successes (linked d)) in Hr. rewrite <- Hd in Hr.
  destruct (recent_sort_successes (daemon x)) as [c r] eqn:E. cbn [snd] in Hr. destruct (reading (_journal d)).
  - subst r. apply (labels_need_evidence now x _ c Hw E) in Hrow as [Hrow|Hrow]; [by left|right]. by eapply labelled_confirmed.
  - left. destruct Hr as (e & -> & He). revert Hrow. unfold poll_once, mbind, M_bind, try_case, on_daemon. rewrite E. cbn [fst snd].
    rewrite He. exact id.
Qed.

(** ** Autonomous sorts *)

Lemma key_of_suggestion id : 0 <= id < 2 ^ 63 -> api_key_syntax (Vision._idempotency_key id) = true.
Proof.
  intros Hid. unfold Vision._idempotency_key, api_key_syntax. rewrite slen_app, str_forall_app.
  assert (slen (str_of_Z id) <= 19) as Hl by (apply slen_str_of_Z; [lia|]; split; [lia|]; apply (Z.lt_le_trans _ (2 ^ 63)); [lia|by vm_compute]).
  change (slen "autonomous-sort-") with 16. pose proof (slen_nonneg (str_of_Z id)). rewrite !(proj2 (Z.leb_le _ _)) by lia.
  simpl. eapply str_forall_impl; [|apply digits_str_of_Z; lia]. intros c Hcd. unfold api_key_char. by rewrite Hcd, orb_true_r.
Qed.

(** The daemon's step of an autonomous sort for the suggestion [r], at the generation [g]. *)
Definition sort_call (r : SuggestionRecord) (g : Z) : domain_call :=
  DSubmit OperationAction.SORT {["slot" := BInt (suggested_slot r)]} machine_actor (Vision._idempotency_key (suggestion_id r)) g (BInt 15000).

Definition stored_integers (r : SuggestionRecord) : Prop :=
  0 <= suggestion_id r < 2 ^ 63 /\ - 2 ^ 63 <= suggested_slot r < 2 ^ 63.

(** C6: an autonomous sort, end to end. With the service connected to the daemon, an attempt either only reads the
    daemon, or the newest suggestion passes both gates and was never attempted, a machine credential is
    provisioned, and the daemon then takes exactly one step: the submission of a sort to the suggested slot, by
    the machine actor, under the key of that suggestion, with a deadline of 15 s and against the generation of
    the daemon's own view when the attempt began. Whatever the daemon does in between can only make it refuse. *)
Theorem autonomous_sort_end_to_end (thresholds : gmap Z spec_float) (now : datetime) (x : Service (Link D)) (d : D) :
  daemon x = linked d -> Forall stored_integers (suggestions_t (cn_current (store x))) ->
  0 <= ms_generation (m_snapshot (_machine d)) < 2 ^ 63 ->
  exists d', daemon (attempt_once thresholds now x).1 = linked d' /\
    (rtc (quiet env) d d'
     \/ exists r d1, gated thresholds (cn_current (store x)) r /\ rtc (quiet env) d d1
          /\ machine_token <> None /\ 0 <= suggested_slot r <= MAX_API_SLOT
          /\ d' = run_domain env (sort_call r (ms_generation (m_snapshot (_machine d)))) d1).
Proof.
  intros Hd Hint Hg. pose proof (attempt_asks thresholds now x) as Ha. unfold wp, attempt_post in Ha.
  destruct (snapshot_answer env json_loads client_loads decode_replace path token machine_token api Hc d) as (d1 & Hs1 & Hq & Hs2).
  assert (rtc (quiet env) d d1) as Hq1 by (eapply rtc_l; [apply quiet_identified|done]).
  change (snapshot_generation _ _ (linked d)) with (current_generation (linked d)) in Hs1, Hs2.
  destruct Ha as [->|(r & Hgate & [E|(d1' & g & E1 & E2)])].
  - exists d. split; [done|by left].
  - exists d1. rewrite E, Hd, Hs1. split; [done|by left].
  - rewrite Hd in E1. destruct (current_generation (linked d)) as [c out]. cbn [fst snd] in *. subst c. simplify_eq.
    destruct Hs2 as [(e & He & _)|Hs2]; [done|]. simplify_eq.
    assert (stored_integers r) as [Hid Hslot].
    { destruct Hgate as (Hlast & _). apply last_Some in Hlast as [l Hl]. rewrite Hl in Hint. by apply Forall_app in Hint as [_ [? _]%Forall_cons]. }
    rewrite E2. clear E2.
    destruct (decide (machine_token = None)) as [Em|Em].
    + exists d1. split; [|by left]. unfold submit_sort, service_client, link_client, post_sort, mbind, M_bind, getS. cbn [_machine_service_token]. by rewrite Em.
    + assert (exists tok, machine_token = Some tok) as [tok Et] by (destruct machine_token; [by eexists|done]).
      destruct (post_sort_answer env json_loads client_loads decode_replace path token machine_token api Hc tok (suggested_slot r)
        (ms_generation (m_snapshot (_machine d))) (Vision._idempotency_key (suggestion_id r)) d1 Et Hslot Hg (key_of_suggestion _ Hid)) as (d2 & Hp1 & Hout). unfold sort_outcome in Hout.
      exists d2. split; [exact Hp1|]. destruct (_ && _) eqn:Er.
      * right. exists r, (identified d1). destruct Hout as [-> _]. bool_inv. split_and!; try done.
        eapply rtc_r; [exact Hq1|apply quiet_identified].
      * left. destruct Hout as [-> _]. eapply rtc_r; [exact Hq1|apply quiet_identified].
Qed.
End Linked.

(** ** A connected service

    The daemon of DomainDemo after its sort succeeded, the client of the vision
    service connected to it, and the theorems of LinkedService applied to both. *)

Definition client_loads (s : string) : vresult json :=
  match loads s with Some v => Ok v | None => vthrow JSONDecodeError "Expecting value" end.

Lemma demo_connected : connected Recorder demo_loads client_loads "bff-secret" (Some "machine-secret") demo_api.
Proof.
  split; try done.
  - apply demo_loads_halts.
  - intros v He. unfold demo_loads. by rewrite loads_dumps_default.
  - intros v He. unfold client_loads. by rewrite loads_dumps.
  - intros t [= <-]. split; [|done]. by split.
Qed.

(** The sort of DomainDemo, succeeded. *)
Definition demo_fields : gmap string string := {["slot" := "3"]}.
Definition demo_done : OperationRecord :=
  transitioned OperationState.SUCCEEDED 6 true (Some "COMPLETED") (demo_now 3) (Some 7) (Some demo_fields) demo_running.
Definition demo_done_db : DB :=
  transition_rows demo_id (op_st demo_running) OperationState.SUCCEEDED 6 (demo_now 3) "firmware reported done"
    (apply_transition OperationState.SUCCEEDED 6 true (Some "COMPLETED") (Some (demo_now 3)) (Some 7) (_encode_fields (Some demo_fields)))
    demo_running_db.

Lemma demo_done_inv : db_inv [demo_done] demo_done_db.
Proof.
  apply (transition_inv [demo_running] demo_running_db demo_running OperationState.SUCCEEDED 6 true (Some "COMPLETED") (demo_now 3) (Some 7)
    (Some demo_fields) "firmware reported done" demo_running_inv); [by left|done|by vm_compute|done|apply (eo_now _ _ demo_env_ok)|].
  intros f [= <-]. split; [by vm_compute|]. apply map_Forall_insert_2; [split; by vm_compute|apply map_Forall_empty].
Qed.

Definition demo_sorted : OperationDomain Recorder :=
  mkOperationDomain (Journal_init demo_done_db []) demo_machine demo_ring [] ConfigurationValues_default 1 (demo_now 0) MAX_DEADLINE_MS 4 2 1.
Definition demo_link (d : OperationDomain Recorder) : Link (OperationDomain Recorder) :=
  mkLink "/run/cs71/cs71d.sock" "bff-secret" (Some "machine-secret") d.
#[local] Instance demo_client : DaemonClient (Link (OperationDomain Recorder)) := service_client demo_env demo_loads client_loads id demo_api.

(** The demonstration service on the connected daemon. *)
Definition connected_service (d : OperationDomain Recorder) (frames : list Frame) : Service (Link (OperationDomain Recorder)) :=
  mkService demo_store (demo_link d) (mkFrameBuffer frames 4) RoutingSession_init.

Lemma reported_sorts_exact_witness :
  (recent_sort_successes (demo_link demo_sorted)).2 = Ok [mkSortSuccess demo_id 3 (_rfc3339 (created_at demo_done))]
  /\ (recent_sort_successes (demo_link demo_sorted)).2 = Ok (omap reported (newest_sorts [demo_done])).
Proof.
  split; [vm_compute; reflexivity|].
  destruct (reported_sorts_exact demo_env demo_loads client_loads id "/run/cs71/cs71d.sock" "bff-secret" (Some "machine-secret") demo_api
    demo_connected [demo_done] demo_sorted demo_done_inv) as (d' & _ & _ & H). exact H.
Defined.

Lemma labels_are_confirmed_sorts_witness :
  let x := connected_service demo_sorted [demo_frame (created_at demo_done - 5); demo_frame (created_at demo_done + 5)] in
  length (examples_t (cn_committed (store (poll_once (utc 5000000) x).1))) = 1%nat
  /\ forall row, row ∈ examples_t (cn_committed (store (poll_once (utc 5000000) x).1)) ->
       row ∈ examples_t (cn_committed (store x)) \/ confirmed [demo_done] (buffer x) row.
Proof.
  intros x. split; [vm_compute; reflexivity|]. intros row Hrow.
  apply (labels_are_confirmed_sorts demo_env demo_loads client_loads id "/run/cs71/cs71d.sock" "bff-secret" (Some "machine-secret") demo_api
    demo_connected (utc 5000000) x demo_sorted [demo_done] row eq_refl eq_refl demo_done_inv Hrow).
Defined.

(** A ready daemon, and a service whose newest suggestion is clear and confident. *)
Definition demo_clear : Service (Link (OperationDomain Recorder)) :=
  let t := mkTables [] [mkModel 1 "2026-01-01" demo_candidate] []
             [mkSuggestion 1 1 3 three_quarters (Some false) "2026-01-01" "2026-01-01"] [] [] [] in
  mkService (connect_to t []) (demo_link demo_ready) (mkFrameBuffer [] 4) RoutingSession_init.

Lemma autonomous_sort_end_to_end_witness :
  _worker (peer (daemon (attempt_once {[3 := half]} (utc 0) demo_clear).1)) = [(Some (SortIntent 3), "6f1c1c52-0a5e-4c57-9b53-6f0a4be0d003")]
  /\ exists d', daemon (attempt_once {[3 := half]} (utc 0) demo_clear).1 = demo_link d'.
Proof.
  split; [vm_compute; reflexivity|].
  destruct (autonomous_sort_end_to_end demo_env demo_loads client_loads id "/run/cs71/cs71d.sock" "bff-secret" (Some "machine-secret") demo_api
    demo_connected {[3 := half]} (utc 0) demo_clear demo_ready eq_refl) as (d' & E & _); [|vm_compute; split; congruence|exists d'; exact E].
  apply Forall_singleton. vm_compute. repeat split; congruence.
Defined.
