(* ===== verification/VisionRuntime.v ===== *)
(** * The running vision service (appliance/vision/src/cs71vision/runtime.py, cli.py)

    The loops, their builders and the command line. A connection to the dataset, the camera and the
    API socket are opened and released by the system, whose answers are a [VisionHost]; everything opened,
    started, stopped and released is kept in a log. *)
From S2P Require Import Prelude PyString PyFloat IsoTime Toml VisionConfig VisionErrors Routing Sqlite Dataset Vision VisionApi DaemonLink.

(** ** Starting and stopping *)

Inductive part := Capture | Correlation | Suggest | Autonomy | Training | Api.
#[export] Instance part_eq_dec : EqDecision part.
Proof. solve_decision. Defined.

(** [Open] is a camera for [Capture] and a connection to the dataset for the rest; [Start] and [Stop] are its thread, for [Api] the
    socket too; [Release] closes what was opened. *)
Inductive step := Open (p : part) | Start (p : part) | Stop (p : part) | Release (p : part).
#[export] Instance vision_step_eq_dec : EqDecision step.
Proof. solve_decision. Defined.

Inductive startup_exn := Configuration (e : config_exn) | Other (e : vexn).
Abbreviation sresult := (res startup_exn).
Abbreviation answer := (option vexn).
Definition call (a : answer) : sresult unit := match a with None => Ok tt | Some e => Err (Other e) end.
Definition from_config {A} (r : cresult A) : sresult A := match r with Ok a => Ok a | Err e => Err (Configuration e) | OutOfFuel => OutOfFuel end.
Definition from_vision {A} (r : vresult A) : sresult A := match r with Ok a => Ok a | Err e => Err (Other e) | OutOfFuel => OutOfFuel end.

Record VisionHost := mkVisionHost {
  open_camera : answer;
  open_store : part -> answer;
  bind_api : answer;
  release_of : part -> answer;
}.

(** The log, and the clients of the daemon that were made. *)
Record System := mkSystem { log : list step; clients : list (part * Link unit) }.

Section Runtime.
Context (host : VisionHost) (decode : string -> option string) (fs : Files).
Abbreviation RM := (M System startup_exn).

Definition done_step (s : step) : RM unit := modifyS (fun x => mkSystem (log x ++ [s]) (clients x)).
Definition made_client (p : part) (c : Link unit) : RM unit := modifyS (fun x => mkSystem (log x) (clients x ++ [(p, c)])).

(** [FixtureCamera] opens nothing; the width and the height are positive by configuration. *)
Definition build_camera (config : VisionConfig) : RM unit :=
  match backend config with
  | FIXTURE =>
      if (frame_width config <=? 0) || (frame_height config <=? 0)
      then raise (Other (mkVexn CameraError "fixture camera width and height must be positive"))
      else done_step (Open Capture)
  | V4L2 =>
      match device_path config with
      | None => raise (Other (mkVexn VisionValueError "v4l2 backend requires device_path"))
      | Some _ => _ ← liftR (call (open_camera host)); done_step (Open Capture)
      end
  end.

Definition DatasetStore_open (p : part) : RM unit := _ ← liftR (call (open_store host p)); done_step (Open p).

Definition token_at (path : string) : RM string := liftR (from_config (read_service_token decode fs path)).
Definition make_client (p : part) (config : VisionConfig) (token : string) (machine : option string) : RM unit :=
  c ← liftR (from_vision (DaemonClient_make (daemon_socket_path config) token machine tt));
  made_client p c.

(** The builders: whether there is a loop. *)
Definition build_correlation_loop (config : VisionConfig) : RM bool :=
  match daemon_service_token_path config with
  | None => mret false
  | Some path =>
      token ← token_at path;
      _ ← make_client Correlation config token None;
      _ ← DatasetStore_open Correlation;
      mret true
  end.

Definition build_suggestion_loop (config : VisionConfig) : RM bool :=
  match daemon_service_token_path config with
  | None => mret false
  | Some _ => _ ← DatasetStore_open Suggest; mret true
  end.

Definition build_autonomy_loop (config : VisionConfig) : RM bool :=
  match daemon_service_token_path config, machine_service_token_path config with
  | Some path, Some machine_path =>
      token ← token_at path;
      machine ← token_at machine_path;
      _ ← make_client Autonomy config token (Some machine);
      _ ← DatasetStore_open Autonomy;
      mret true
  | _, _ => mret false
  end.

Definition build_training_job (config : VisionConfig) : RM bool :=
  match daemon_service_token_path config with
  | None => mret false
  | Some _ => _ ← DatasetStore_open Training; mret true
  end.

Definition build_api_server (config : VisionConfig) : RM bool :=
  match daemon_service_token_path config with
  | None => mret false
  | Some path =>
      token ← token_at path;
      _ ← DatasetStore_open Api;
      job ← build_training_job config;
      _ ← (if job : bool then mret tt else raise (Other (mkVexn VisionRuntimeError "AssertionError")));
      _ ← liftR (from_vision (VisionApiServer_make token (VisionConfig.minimum_examples_per_class config) (autonomy_thresholds config)));
      mret true
  end.

(** *** [main] *)

Record Built := mkBuilt { has_correlation : bool; has_suggestion : bool; has_autonomy : bool; has_api : bool }.

Definition build (config : VisionConfig) : RM Built :=
  _ ← build_camera config;
  correlation ← build_correlation_loop config;
  suggestion ← build_suggestion_loop config;
  autonomy ← build_autonomy_loop config;
  api ← build_api_server config;
  mret (mkBuilt correlation suggestion autonomy api).

Definition when (b : bool) (m : RM unit) : RM unit := if b then m else mret tt.

Definition start_loops (config : VisionConfig) (b : Built) : RM unit :=
  _ ← (if capture_interval_ms config <=? 0 then raise (Other (mkVexn VisionValueError "interval_ms must be positive")) else mret tt);
  _ ← done_step (Start Capture);
  _ ← when (has_correlation b) (done_step (Start Correlation));
  _ ← when (has_suggestion b) (done_step (Start Suggest));
  _ ← when (has_autonomy b) (done_step (Start Autonomy));
  when (has_api b) (_ ← liftR (call (bind_api host)); done_step (Start Api)).

(** [close()] of a loop: the thread, then what it owns. *)
Definition close_loop (p : part) : RM unit := _ ← done_step (Stop p); _ ← done_step (Release p); liftR (call (release_of host p)).
(** [VisionApiServer.close]: the socket, the training job's connection, its own. *)
Definition close_api : RM unit :=
  _ ← done_step (Stop Api);
  _ ← done_step (Release Training);
  _ ← liftR (call (release_of host Training));
  _ ← done_step (Release Api);
  liftR (call (release_of host Api)).

(** The [finally] of [main]. *)
Definition close_loops (b : Built) : RM unit :=
  _ ← close_loop Capture;
  _ ← when (has_correlation b) (close_loop Correlation);
  _ ← when (has_suggestion b) (close_loop Suggest);
  _ ← when (has_autonomy b) (close_loop Autonomy);
  when (has_api b) close_api.

Record Args := mkArgs { check_config : option string; serve : option string }.
Inductive outcome := Exit (status : Z) | Escaped (e : startup_exn) | Stuck.

Definition truthy_path (o : option string) : option string := if bool_decide (o = Some "") then None else o.
Definition config_path (a : Args) : option string :=
  match truthy_path (check_config a) with Some p => Some p | None => truthy_path (serve a) end.

Definition empty_system : System := mkSystem [] [].

Definition main (tomllib_load : string -> toml_outcome) (a : Args) : System * outcome :=
  match load_config tomllib_load fs (config_path a) with
  | Err (Toml.ConfigError _) => (empty_system, Exit 2)
  | Err UnicodeDecodeError => (empty_system, Escaped (Configuration UnicodeDecodeError))
  | OutOfFuel => (empty_system, Stuck)
  | Ok config =>
      if bool_decide (serve a = None) then (empty_system, Exit 0)
      else
        match build config empty_system with
        | (x, Err _) => (x, Exit 1)
        | (x, OutOfFuel) => (x, Stuck)
        | (x, Ok b) =>
            match (_ ← start_loops config b; close_loops b) x with
            | (x, Ok _) => (x, Exit 0)
            | (x, Err e) => (x, Escaped e)
            | (x, OutOfFuel) => (x, Stuck)
            end
        end
  end.

(** ** What a run opens, starts and releases *)

(** The parts a configuration asks for, in the order in which they are opened. *)
Definition parts (c : VisionConfig) : list part :=
  Capture ::
  match daemon_service_token_path c, machine_service_token_path c with
  | None, _ => []
  | Some _, None => [Correlation; Suggest; Api; Training]
  | Some _, Some _ => [Correlation; Suggest; Autonomy; Api; Training]
  end.
Definition threads (c : VisionConfig) : list part := filter (fun p => p <> Training) (parts c).
Definition opened (c : VisionConfig) : list step := Open <$> parts c.
Definition started (c : VisionConfig) : list step := Start <$> threads c.
Definition shut (p : part) : list step := match p with Api => [Stop Api; Release Training; Release Api] | p => [Stop p; Release p] end.
Definition stopped (c : VisionConfig) : list step := threads c ≫= shut.

Definition built (c : VisionConfig) : Built :=
  mkBuilt (bool_decide (Correlation ∈ parts c)) (bool_decide (Suggest ∈ parts c)) (bool_decide (Autonomy ∈ parts c)) (bool_decide (Api ∈ parts c)).

(** [m] adds exactly the steps [l]; where it raises it has added fewer. *)
Definition adds {A} (l : list step) (m : RM A) (Q : A -> Prop) : Prop := forall x, wp m (fun x' r =>
  match r with
  | Ok a => log x' = log x ++ l /\ Q a
  | Err _ => exists n, (n < length l)%nat /\ log x' = log x ++ take n l
  | OutOfFuel => False
  end) x.

Lemma adds_bind {A B} l1 l2 (m : RM A) (f : A -> RM B) Q1 Q2 :
  adds l1 m Q1 -> (forall a, Q1 a -> adds l2 (f a) Q2) -> adds (l1 ++ l2) (m ≫= f) Q2.
Proof.
  intros Hm Hf x. apply wp_bind. eapply wp_conseq; [apply Hm|]. intros x' [a|e|]; simpl; [|intros (n & Hn & ->)|done].
  - intros [Hl Ha]. eapply wp_conseq; [by apply Hf|]. intros x2 [b|e|]; rewrite ?Hl; [|intros (n & Hn & ->)|done].
    + intros [-> Hq]. by rewrite app_assoc.
    + exists (length l1 + n)%nat. rewrite length_app. split; [lia|]. by rewrite <- app_assoc, take_app_add.
  - exists n. rewrite length_app. split; [lia|]. by rewrite take_app_le by lia.
Qed.
Lemma adds_ret {A} (a : A) (Q : A -> Prop) : Q a -> adds [] (mret a) Q.
Proof. intros Ha x. apply wp_ret. by rewrite app_nil_r. Qed.
Lemma adds_step s : adds [s] (done_step s) (fun _ => True).
Proof. intros x. by apply wp_modify. Qed.
Lemma adds_open p : adds [Open p] (DatasetStore_open p) (fun _ => True).
Proof. intros x. unfold DatasetStore_open. apply wp_bind, wp_lift. destruct (open_store host p); [|by apply wp_modify]. exists 0%nat. rewrite app_nil_r. simpl. split; [lia|done]. Qed.

(** A computation that may raise, and changes no log; what follows adds something. *)
Lemma adds_after {A B} s l (m : RM A) (f : A -> RM B) (P : A -> Prop) Q :
  (forall x, wp m (fun x' r => match r with Ok a => log x' = log x /\ P a | Err _ => log x' = log x | OutOfFuel => False end) x) ->
  (forall a, P a -> adds (s :: l) (f a) Q) -> adds (s :: l) (m ≫= f) Q.
Proof.
  intros Hm Hf x. apply wp_bind. eapply wp_conseq; [apply Hm|]. intros x' [a|e|]; simpl; [|intros ->; exists 0%nat; rewrite app_nil_r; simpl; split; [lia|done]|done].
  intros [Hl Ha]. eapply wp_conseq; [by apply Hf|]. intros x2 [b|e|]; by rewrite ?Hl.
Qed.
Lemma token_spec path x : wp (token_at path) (fun x' r => match r with Ok t => log x' = log x /\ t <> "" | Err _ => log x' = log x | OutOfFuel => False end) x.
Proof.
  apply wp_lift. pose proof (read_token_halts decode fs path) as Hh. destruct (read_service_token decode fs path) eqn:E; [|done|done].
  split; [done|]. by eapply read_token_nonempty.
Qed.
Lemma client_spec p c token machine x : wp (make_client p c token machine)
  (fun x' r => match r with Ok _ => log x' = log x /\ True | Err _ => log x' = log x | OutOfFuel => False end) x.
Proof.
  unfold make_client, DaemonClient_make. wp_steps. destruct (bool_decide _); [done|]. destruct (bool_decide _); [done|]. by apply wp_modify.
Qed.

Abbreviation said b := (fun x : bool => x = b).

Lemma camera_adds c : sane c -> adds [Open Capture] (build_camera c) (fun _ => True).
Proof.
  intros [(_ & Hw & Hh & _) _ _ _]. unfold build_camera. rewrite !(proj2 (Z.leb_gt _ _)) by lia. cbn [orb].
  destruct (backend c); [apply adds_step|]. destruct (device_path c).
  - apply (adds_after _ [] _ _ (fun _ => True)); [|intros; apply adds_step]. intros x. apply wp_lift. by destruct (open_camera host).
  - intros x. apply wp_raise. exists 0%nat. rewrite app_nil_r. simpl. split; [lia|done].
Qed.

Lemma then_true s l (m : RM unit) : adds (s :: l) m (fun _ => True) -> adds (s :: l) (_ ← m; mret true) (said true).
Proof. intros Hm. rewrite <- (app_nil_r (s :: l)). eapply adds_bind; [exact Hm|]. intros; by apply adds_ret. Qed.

Lemma correlation_adds c path : daemon_service_token_path c = Some path -> adds [Open Correlation] (build_correlation_loop c) (said true).
Proof.
  intros E. unfold build_correlation_loop. rewrite E. eapply adds_after; [intros x; apply token_spec|]. intros t _.
  eapply adds_after; [intros x; apply client_spec|]. intros _ _. apply then_true, adds_open.
Qed.
Lemma suggestion_adds c path : daemon_service_token_path c = Some path -> adds [Open Suggest] (build_suggestion_loop c) (said true).
Proof. intros E. unfold build_suggestion_loop. rewrite E. apply then_true, adds_open. Qed.
Lemma autonomy_adds c path machine : daemon_service_token_path c = Some path -> machine_service_token_path c = Some machine ->
  adds [Open Autonomy] (build_autonomy_loop c) (said true).
Proof.
  intros E E2. unfold build_autonomy_loop. rewrite E, E2. eapply adds_after; [intros x; apply token_spec|]. intros t _.
  eapply adds_after; [intros x; apply token_spec|]. intros m _. eapply adds_after; [intros x; apply client_spec|]. intros _ _. apply then_true, adds_open.
Qed.
Lemma api_adds c path : sane c -> daemon_service_token_path c = Some path -> adds [Open Api; Open Training] (build_api_server c) (said true).
Proof.
  intros [(_ & _ & _ & Hmin) _ _ _] E. unfold build_api_server. rewrite E. eapply adds_after; [intros x; apply token_spec|]. intros t Ht.
  apply (adds_bind [Open Api] [Open Training] _ _ (fun _ => True)); [apply adds_open|]. intros _ _.
  change [Open Training] with ([Open Training] ++ []). eapply adds_bind; [unfold build_training_job; rewrite E; apply then_true, adds_open|].
  intros job ->. intros x. wp_steps. unfold VisionApiServer_make. rewrite bool_decide_false by done.
  rewrite (proj2 (Z.leb_gt _ _)) by done. cbn [from_vision]. wp_steps. by rewrite app_nil_r.
Qed.

Lemma build_adds c : sane c -> adds (opened c) (build c) (fun b => b = built c).
Proof.
  intros Hs. unfold build, opened, built, parts. destruct (daemon_service_token_path c) as [path|] eqn:E.
  - destruct (machine_service_token_path c) as [machine|] eqn:E2; csimpl.
    + eapply (adds_bind [_]); [by apply camera_adds|]. intros _ _. eapply (adds_bind [_]); [by eapply correlation_adds|]. intros b1 ->.
      eapply (adds_bind [_]); [by eapply suggestion_adds|]. intros b2 ->. eapply (adds_bind [_]); [by eapply autonomy_adds|]. intros b3 ->.
      eapply (adds_bind [_;_] []); [by eapply api_adds|]. intros b4 ->. by apply adds_ret.
    + eapply (adds_bind [_]); [by apply camera_adds|]. intros _ _. eapply (adds_bind [_]); [by eapply correlation_adds|]. intros b1 ->.
      eapply (adds_bind [_]); [by eapply suggestion_adds|]. intros b2 ->.
      eapply (adds_bind [] [_;_] _ _ (said false)); [unfold build_autonomy_loop; rewrite E, E2; by apply adds_ret|]. intros b3 ->.
      eapply (adds_bind [_;_] []); [by eapply api_adds|]. intros b4 ->. by apply adds_ret.
  - csimpl. eapply (adds_bind [_] []); [by apply camera_adds|]. intros _ _.
    unfold build_correlation_loop, build_suggestion_loop, build_autonomy_loop, build_api_server. rewrite E.
    do 4 (eapply (adds_bind [] [] _ _ (said false)); [by apply adds_ret|]; intros ? ->). by apply adds_ret.
Qed.

(** *** Credentials *)

(** The machine credential is in the hands of the client of the autonomy loop only. *)
Definition holds_credentials (c : VisionConfig) (q : part * Link unit) : Prop :=
  (q.1 = Correlation /\ _machine_service_token q.2 = None)
  \/ (q.1 = Autonomy /\ is_Some (_machine_service_token q.2) /\ is_Some (daemon_service_token_path c) /\ is_Some (machine_service_token_path c)).
Definition guarded {A} (c : VisionConfig) (m : RM A) : Prop :=
  forall x, Forall (holds_credentials c) (clients x) -> Forall (holds_credentials c) (clients (m x).1).

Lemma guarded_bind {A B} c (m : RM A) (f : A -> RM B) : guarded c m -> (forall a, guarded c (f a)) -> guarded c (m ≫= f).
Proof. intros Hm Hf x Hx. unfold mbind, M_bind. specialize (Hm x Hx). destruct (m x) as [x' [a|e|]]; [by apply Hf|done..]. Qed.
Lemma guarded_lift {A} c (r : sresult A) : guarded c (liftR r).
Proof. by intros x. Qed.
Lemma guarded_ret {A} c (a : A) : guarded c (mret a).
Proof. by intros x. Qed.
Lemma guarded_raise {A} c e : guarded (A:=A) c (raise e).
Proof. by intros x. Qed.
Lemma guarded_step c s : guarded c (done_step s).
Proof. by intros x. Qed.
Lemma guarded_open c p : guarded c (DatasetStore_open p).
Proof. apply guarded_bind; [apply guarded_lift|intros; apply guarded_step]. Qed.
Lemma guarded_token c path : guarded c (token_at path).
Proof. apply guarded_lift. Qed.
Lemma guarded_client c p token machine : (p = Correlation /\ machine = None) \/
  (p = Autonomy /\ is_Some machine /\ is_Some (daemon_service_token_path c) /\ is_Some (machine_service_token_path c)) ->
  guarded c (make_client p c token machine).
Proof.
  intros Hp x Hx. unfold make_client, DaemonClient_make, liftR, mbind, M_bind. repeat case_bool_decide; [done..|]. simpl.
  apply Forall_app. split; [done|]. by apply Forall_singleton.
Qed.
#[local] Hint Resolve guarded_lift guarded_ret guarded_raise guarded_step guarded_open guarded_token : cs71.
Ltac guarded_steps := repeat first
  [ apply guarded_client; naive_solver | apply guarded_bind; [|intros] | match goal with |- guarded _ (match ?b with _ => _ end) => destruct b eqn:? end
  | solve [auto with cs71] ].

Lemma guarded_build c : guarded c (build c).
Proof.
  unfold build, build_camera, build_correlation_loop, build_suggestion_loop, build_autonomy_loop, build_api_server, build_training_job.
  guarded_steps.
Qed.

(** *** Starting and stopping *)

Lemma parts_cases c :
  (parts c = [Capture] /\ threads c = [Capture] /\ built c = mkBuilt false false false false)
  \/ (parts c = [Capture; Correlation; Suggest; Api; Training] /\ threads c = [Capture; Correlation; Suggest; Api]
      /\ built c = mkBuilt true true false true)
  \/ (parts c = [Capture; Correlation; Suggest; Autonomy; Api; Training] /\ threads c = [Capture; Correlation; Suggest; Autonomy; Api]
      /\ built c = mkBuilt true true true true).
Proof.
  unfold threads, built, parts. destruct (daemon_service_token_path c); [destruct (machine_service_token_path c)|]; [right; right|right; left|left];
    split_and!; reflexivity.
Qed.

Ltac run_loops := unfold when, close_loop, close_api, done_step, liftR, modifyS, raise, mbind, M_bind, mret, M_ret; cbn -[app]; rewrite <- ?app_assoc.

Lemma vision_start_spec c x : sane c ->
  let p := start_loops c (built c) x in clients p.1 = clients x /\
  match bind_api host with
  | Some e => if has_api (built c) then p.2 = Err (Other e) /\ log p.1 = log x ++ (Start <$> take (length (threads c) - 1) (threads c))
              else p.2 = Ok tt /\ log p.1 = log x ++ started c
  | None => p.2 = Ok tt /\ log p.1 = log x ++ started c
  end.
Proof.
  intros [(Hi & _) _ _ _]. unfold start_loops, started. rewrite (proj2 (Z.leb_gt _ _) Hi). destruct x as [lg cl].
  destruct (parts_cases c) as [(_ & -> & ->)|[(_ & -> & ->)|(_ & -> & ->)]]; destruct (bind_api host) as [e|] eqn:Eb; run_loops; rewrite ?Eb;
    cbn -[app]; rewrite <- ?app_assoc; done.
Qed.

Lemma vision_close_spec c x : (forall p, release_of host p = None) ->
  let p := close_loops (built c) x in p.2 = Ok tt /\ clients p.1 = clients x /\ log p.1 = log x ++ stopped c.
Proof.
  intros Hr. unfold close_loops, stopped. destruct x as [lg cl].
  destruct (parts_cases c) as [(_ & -> & ->)|[(_ & -> & ->)|(_ & -> & ->)]]; run_loops; rewrite !Hr; cbn -[app]; rewrite <- ?app_assoc; done.
Qed.

Lemma parts_facts c : (forall q, q ∈ parts c <-> Release q ∈ stopped c)
  /\ (Autonomy ∈ parts c <-> is_Some (daemon_service_token_path c) /\ is_Some (machine_service_token_path c))
  /\ (daemon_service_token_path c = None -> parts c = [Capture]).
Proof.
  split_and!.
  - unfold stopped. destruct (parts_cases c) as [(-> & -> & _)|[(-> & -> & _)|(-> & -> & _)]]; intros q; csimpl; destruct q; set_solver.
  - unfold parts, is_Some. destruct (daemon_service_token_path c); [destruct (machine_service_token_path c)|]; set_solver.
  - unfold parts. by intros ->.
Qed.

Context (tomllib_load : string -> toml_outcome).

Lemma load_config_sane path : match load_config tomllib_load fs path with Ok c => sane c | Err _ => True | OutOfFuel => False end.
Proof.
  unfold load_config. destruct path as [path|].
  - pose proof (load_table_halts tomllib_load fs "vision" path) as Ht. destruct (load_table _ _ _ _) as [t|e|]; [|done|done]. cbn [mbind res_bind].
    pose proof (vision_from_mapping_strict t) as Hs. destruct (from_mapping t) as [c|e|] eqn:E; [|done|done]. by apply vision_from_mapping_sound in E as [? _].
  - split; split_and?; try done. split; constructor.
Qed.

(** C22: what a run of [cs71vision] does. Where every release succeeds, for every configuration file and every answer of the system:
    checking a configuration does nothing; a run that serves opens the camera and, with a service credential configured, a connection for
    each of the loops, the API and the training job, starts them in order, and at its end stops and releases every one of them;
    without the credential it only captures. The autonomy loop is part of a run exactly when both credentials are configured, and no
    other client holds the machine credential. A run that fails while building starts nothing and exits with 1. A refused API socket is an
    exception that leaves the other loops running and releases nothing. *)
Theorem vision_run_exact (a : Args) : (forall p, release_of host p = None) ->
  let p := main tomllib_load a in
  match load_config tomllib_load fs (config_path a) with
  | Err (Toml.ConfigError _) => p = (empty_system, Exit 2)
  | Err UnicodeDecodeError => p = (empty_system, Escaped (Configuration UnicodeDecodeError))
  | OutOfFuel => False
  | Ok c =>
      if bool_decide (serve a = None) then p = (empty_system, Exit 0)
      else
        ((p.2 = Exit 0 /\ log p.1 = opened c ++ started c ++ stopped c)
         \/ (p.2 = Exit 1 /\ exists n, (n < length (opened c))%nat /\ log p.1 = take n (opened c))
         \/ exists e, p.2 = Escaped (Other e) /\ bind_api host = Some e /\ Api ∈ parts c
              /\ log p.1 = opened c ++ (Start <$> take (length (threads c) - 1) (threads c)))
        /\ Forall (holds_credentials c) (clients p.1)
        /\ (forall q, q ∈ parts c <-> Release q ∈ stopped c)
        /\ (Autonomy ∈ parts c <-> is_Some (daemon_service_token_path c) /\ is_Some (machine_service_token_path c))
        /\ (daemon_service_token_path c = None -> parts c = [Capture])
  end.
Proof.
  intros Hr. cbv zeta. unfold main. pose proof (load_config_sane (config_path a)) as Hs.
  destruct (load_config tomllib_load fs (config_path a)) as [c|[message|]|]; [|done..]. case_bool_decide; [done|].
  split; [|split; [|apply parts_facts]]; pose proof (build_adds c Hs empty_system) as Hb; unfold wp in Hb;
    pose proof (guarded_build c empty_system (Forall_nil_2 _)) as Hg;
    destruct (build c empty_system) as [x [b|e|]]; cbn [fst snd] in Hb, Hg; try done;
    try (destruct Hb as [Hl ->]; unfold mbind, M_bind; pose proof (vision_start_spec c x Hs) as [Hc Hst];
      destruct (start_loops c (built c) x) as [x1 r1]; cbn [fst snd] in Hc, Hst).
  - assert (r1 = Ok tt /\ log x1 = log x ++ started c \/ exists e, bind_api host = Some e /\ Api ∈ parts c /\ r1 = Err (Other e)
      /\ log x1 = log x ++ (Start <$> take (length (threads c) - 1) (threads c))) as [[-> Hl1]|(e & He & Hin & -> & Hl1)].
    { destruct (bind_api host) as [e|]; [|by left]. destruct (has_api (built c)) eqn:Ea; [|by left]. right. exists e. unfold built in Ea. cbn [has_api] in Ea. apply bool_decide_eq_true in Ea. by destruct Hst. }
    + left. pose proof (vision_close_spec c x1 Hr) as (H2 & _ & H3). destruct (close_loops (built c) x1) as [x2 r2]. cbn [fst snd] in *. subst r2.
      split; [done|]. cbn [fst]. rewrite H3, Hl1, Hl. by rewrite <- !app_assoc.
    + right. right. exists e. cbn [fst snd]. by rewrite Hl1, Hl.
  - right. left. done.
  - destruct r1 as [u|e|]; cbn [fst]; [|by rewrite Hc..]. pose proof (vision_close_spec c x1 Hr) as (_ & H2 & _).
    destruct (close_loops (built c) x1) as [x2 [u2|e|]]; cbn [fst] in *; by rewrite H2, Hc.
Qed.
End Runtime.
