(* ===== verification/RuntimeDemo.v ===== *)
(** * Runs of both services

    Concrete hosts on which the theorems about the two command lines are applied,
    and the runs that leave something behind. *)
From S2P Require Import Prelude PyString PyFloat Errors IsoTime Json Operations Models Session Machine Journal JournalSpec JournalSafety Configuration Adapters Events Domain DomainSpec DomainOutcome DomainDemo StorageHealth.
From S2P Require Import Http Api Toml DaemonConfig DaemonRuntime VisionConfig VisionErrors Routing Sqlite Dataset Vision Camera VisionRuntime.

(** Every file holds a token of 5 bytes that its owner alone reads; a configuration file holds the table given. *)
Definition demo_files : Files := fun path => Some (mkFile 384 "token").
Definition demo_load (name : string) (t : table) (bytes : string) : toml_outcome := Parsed [(name, TTab t)].

(** ** The daemon *)

Definition demo_daemon_config : DaemonConfig :=
  mkDaemonConfig DaemonConfig.TEST SIMULATOR None "/tmp/cs71/cs71d.sock" "/tmp/cs71/machine.db" (Some "/tmp/token") None.
Definition demo_production : DaemonConfig :=
  mkDaemonConfig DaemonConfig.PRODUCTION SERIAL (Some DaemonConfig.PRODUCTION_DEVICE_PATH) PRODUCTION_SOCKET_PATH PRODUCTION_DATABASE_PATH
    (Some PRODUCTION_SERVICE_TOKEN_PATH) None.

Definition demo_host (chmod : DaemonRuntime.answer) : Host Recorder :=
  mkHost "linux" (fun _ => None) (fun _ => inr (Journal_init DB_empty [])) (fun _ => []) (fun d => (d, None)) None None None None chmod.
Definition demo_serve (chmod : DaemonRuntime.answer) (c : DaemonConfig) (s : SocketFile) : Daemon Recorder * DaemonRuntime.outcome :=
  DaemonRuntime.main demo_marker_json demo_parse_time (demo_probe (fun _ => 0)) demo_env (demo_host chmod)
    (demo_load "daemon" (DaemonConfig.to_table c)) Some demo_files s (DaemonRuntime.mkArgs None (Some "/etc/cs71d.toml")).


(** Where [chmod] refuses, the socket is bound and never closed: [self._api] is set only after [api.start()]. *)
Lemma unreleased_socket :
  let d := (demo_serve (Some (DaemonRuntime.Other (mk_exn (Builtin OSError) "chmod"))) demo_daemon_config Absent).1 in
  DaemonRuntime.log d = [OpenJournal; StartWorker; BindSocket; CloseWorker; CloseJournal] /\ socket d = Ours.
Proof. vm_compute. split; reflexivity. Qed.

(** ** The vision service *)

Definition demo_vision (token machine : option string) : VisionConfig :=
  mkVisionConfig VisionConfig.TEST FIXTURE None 100 2 1 "/tmp/cs71d.sock" "/tmp/vision.db" token "/tmp/vision.sock" 2 machine [].
Definition demo_vision_host (bind : VisionRuntime.answer) : VisionHost := mkVisionHost None (fun _ => None) bind (fun _ => None).
Definition demo_vision_serve (bind : VisionRuntime.answer) (c : VisionConfig) : System * VisionRuntime.outcome :=
  VisionRuntime.main (demo_vision_host bind) Some demo_files (demo_load "vision" (VisionConfig.to_table c)) (VisionRuntime.mkArgs None (Some "/etc/vision.toml")).

Lemma vision_run_exact_witness :
  VisionRuntime.log (demo_vision_serve None (demo_vision None (Some "/tmp/machine"))).1 = [Open Capture; Start Capture; Stop Capture; Release Capture]
  /\ length (VisionRuntime.log (demo_vision_serve None (demo_vision (Some "/tmp/token") (Some "/tmp/machine"))).1) = 22%nat
  /\ Forall (holds_credentials (demo_vision (Some "/tmp/token") (Some "/tmp/machine")))
       (clients (demo_vision_serve None (demo_vision (Some "/tmp/token") (Some "/tmp/machine"))).1).
Proof.
  split; [vm_compute; reflexivity|]. split; [vm_compute; reflexivity|].
  pose proof (vision_run_exact (demo_vision_host None) Some demo_files (demo_load "vision" (VisionConfig.to_table (demo_vision (Some "/tmp/token") (Some "/tmp/machine"))))
    (VisionRuntime.mkArgs None (Some "/etc/vision.toml")) (fun _ => eq_refl)) as H.
  assert (VisionConfig.load_config (demo_load "vision" (VisionConfig.to_table (demo_vision (Some "/tmp/token") (Some "/tmp/machine")))) demo_files
    (VisionRuntime.config_path (VisionRuntime.mkArgs None (Some "/etc/vision.toml"))) = Ok (demo_vision (Some "/tmp/token") (Some "/tmp/machine"))) as E
    by (vm_compute; reflexivity).
  cbv zeta in H. rewrite E in H. exact (proj1 (proj2 H)).
Defined.

(** A refused API socket leaves [main] with an exception and every loop running: [start()] is outside the [try]. *)
Lemma late_refusal_releases_nothing :
  let p := demo_vision_serve (Some (mkVexn VisionOSError "already served")) (demo_vision (Some "/tmp/token") None) in
  p.2 = Escaped (VisionRuntime.Other (mkVexn VisionOSError "already served"))
  /\ Start Capture ∈ VisionRuntime.log p.1 /\ Stop Capture ∉ VisionRuntime.log p.1 /\ Release Capture ∉ VisionRuntime.log p.1.
Proof. cbv zeta. split; [vm_compute; reflexivity|]. split_and!; apply (bool_decide_unpack _); vm_compute; exact I. Qed.

(** ** The capture loop *)

Lemma capture_keeps_newest_witness :
  let imencode image := Some (String (chr (hd 0 (channels image))) "png") in
  let x := capture_ticks (H := fixture_camera imencode Z.of_nat) buffer_sink 4
             (capture_start (mkCaptureLoop (mkFixtureCamera 2 1 0 false) (mkFrameBuffer [] 2) false)) in
  captured_at <$> _frames (kept x) = [3; 4] /\ alive x = true.
Proof.
  cbv zeta. split; [vm_compute; reflexivity|].
  apply (capture_keeps_newest (fun image => Some (String (chr (hd 0 (channels image))) "png")) Z.of_nat 2 1 2 4 (mkFixtureCamera 2 1 0 false)). reflexivity.
Defined.
