(* ===== verification/Fixtures.v ===== *)
(** * Protocol fixtures and their replay (appliance/daemon/src/cs71d/simulator/fixtures.py)

    The escapes of fixture files, their loading, and the transport that answers a host
    only while it does exactly what the fixture says. Bytes are strings over 0..255;
    a text is a string too, so a code point above 255 is not represented (it is refused like any above 127). *)
From S2P Require Import Prelude PyString Errors Crc Framing Transport.

Inductive ReplayAction := RESET | WRITE.
#[export] Instance ReplayAction_eq_dec : EqDecision ReplayAction.
Proof. solve_decision. Defined.
Definition action_value (a : ReplayAction) : string := match a with RESET => "reset" | WRITE => "write" end.

Record ReplayStep := mkReplayStep { rs_action : ReplayAction; rs_request : option string; responses : list string }.

Record FixtureExchange := mkFixtureExchange {
  fx_section : string;
  fx_request : option string;
  request_marker : option string;
  fx_response : option string;
  response_marker : option string;
}.

Definition replayable (x : FixtureExchange) : bool :=
  (bool_decide (is_Some (fx_request x)) || bool_decide (request_marker x = Some "<reset>")) && bool_decide (is_Some (fx_response x)).

(** [f"{marker}"] of an optional string. *)
Definition show (o : option string) : string := default "None" o.
(** [a or b], of optional strings. *)
Definition or_else (a b : option string) : option string := match a with Some s => if bool_decide (s = "") then b else a | None => b end.

Definition to_replay_step (x : FixtureExchange) : result ReplayStep :=
  if negb (replayable x)
  then throw (Builtin ValueError) ("symbolic fixture exchange is not replayable: " +:+ show (or_else (request_marker x) (response_marker x)))
  else
    match fx_response x with
    | None => throw (Builtin AssertionError) ""
    | Some response =>
        Ok (mkReplayStep (if bool_decide (request_marker x = Some "<reset>") then RESET else WRITE) (fx_request x) [response])
    end.

(** ** [FixtureReplayTransport] *)

Record Replay := mkReplay {
  _steps : list ReplayStep;
  _incoming : string;
  writes : list string;
  resets : Z;
  replay_closed : bool;
}.
Definition Replay_make (steps : list ReplayStep) : Replay := mkReplay steps "" [] 0 false.

Definition complete (t : Replay) : bool := bool_decide (_steps t = []) && bool_decide (_incoming t = "").

(** [FixtureReplayError] is an [AssertionError]. *)
Abbreviation TM := (M Replay exn).
Definition replay_error {A} (message : string) : TM A := raise (mk_exn (Builtin AssertionError) message).

Definition set_steps (l : list ReplayStep) (t : Replay) : Replay := mkReplay l (_incoming t) (writes t) (resets t) (replay_closed t).
Definition set_incoming (s : string) (t : Replay) : Replay := mkReplay (_steps t) s (writes t) (resets t) (replay_closed t).

Definition read (size : Z) : TM string :=
  t ← getS;
  if (size <? 1) || bool_decide (_incoming t = "") then mret ""
  else
    _ ← modifyS (set_incoming (str_drop (Z.to_nat size) (_incoming t)));
    mret (String.substring 0 (Z.to_nat size) (_incoming t)).

Definition describe (r : option string) : string := match r with Some b => "b" +:+ str_repr b | None => "None" end.

Definition _consume (action : ReplayAction) (request : option string) : TM unit :=
  t ← getS;
  match _steps t with
  | [] => replay_error ("unexpected " +:+ action_value action +:+ ": " +:+ describe request)
  | step :: steps =>
      _ ← modifyS (set_steps steps);
      if negb (bool_decide (rs_action step = action)) || negb (bool_decide (rs_request step = request))
      then replay_error ("fixture expected " +:+ action_value (rs_action step) +:+ " " +:+ describe (rs_request step) +:+ ", got "
             +:+ action_value action +:+ " " +:+ describe request)
      else modifyS (fun t => set_incoming (_incoming t +:+ str_join "" (responses step)) t)
  end.

Definition require_open : TM unit :=
  t ← getS; if replay_closed t then raise (mk_exn (Builtin OSError) "fixture replay transport is closed") else mret tt.

Definition write (data : string) : TM Z :=
  _ ← require_open;
  _ ← modifyS (fun t => mkReplay (_steps t) (_incoming t) (writes t ++ [data]) (resets t) (replay_closed t));
  _ ← _consume WRITE (Some data);
  mret (slen data).

Definition reset : TM unit :=
  _ ← require_open;
  _ ← modifyS (fun t => mkReplay (_steps t) (_incoming t) (writes t) (resets t + 1) (replay_closed t));
  _consume RESET None.

Definition close : TM unit := modifyS (fun t => mkReplay (_steps t) (_incoming t) (writes t) (resets t) true).

Definition assert_complete : TM unit :=
  t ← getS;
  if complete t then mret tt
  else replay_error ("fixture replay incomplete: " +:+ str_of_Z (Z.of_nat (length (_steps t))) +:+ " actions and "
         +:+ str_of_Z (slen (_incoming t)) +:+ " response bytes remain").

(** ** Escapes *)

Definition backslash : ascii := chr 92.
Definition simple_escape (c : ascii) : option ascii :=
  if bool_decide (c = "n"%char) then Some (chr 10)
  else if bool_decide (c = "r"%char) then Some (chr 13)
  else if bool_decide (c = "t"%char) then Some (chr 9)
  else if bool_decide (c = backslash) then Some backslash
  else None.
(** [int(digits, 16)] of one digit. *)
Definition hex_value (c : ascii) : option Z :=
  if is_digit c then Some (code c - 48)
  else if (97 <=? code c) && (code c <=? 102) then Some (code c - 87)
  else if (65 <=? code c) && (code c <=? 70) then Some (code c - 55)
  else None.
Definition hex_pair (a b : ascii) : option Z := x ← hex_value a; y ← hex_value b; Some (16 * x + y).

Definition bad_escape {A} (index : Z) : result A := throw (Builtin ValueError) ("unsupported fixture escape at offset " +:+ str_of_Z index).

(** The loop from the offset [index], which [value] is the rest of the text from. *)
Fixpoint decode_from (index : Z) (value : string) : result string :=
  match value with
  | EmptyString => Ok ""
  | String character rest =>
      if negb (bool_decide (character = backslash))
      then
        if 0x7F <? code character then throw (Builtin ValueError) "fixture values must be ASCII"
        else output ← decode_from (index + 1) rest; Ok (String character output)
      else
        match rest with
        | EmptyString => throw (Builtin ValueError) "fixture value ends with an incomplete escape"
        | String escaped rest =>
            match simple_escape escaped with
            | Some b => output ← decode_from (index + 2) rest; Ok (String b output)
            | None =>
                if bool_decide (escaped = "x"%char)
                then
                  match rest with
                  | String h1 (String h2 rest) =>
                      match hex_pair h1 h2 with
                      | Some b => output ← decode_from (index + 4) rest; Ok (String (chr b) output)
                      | None => bad_escape index
                      end
                  | _ => bad_escape index
                  end
                else bad_escape index
            end
        end
  end.
Definition decode_c_escaped_bytes (value : string) : result string := decode_from 0 value.

(** ** Fixture files *)

(** [str.splitlines()], of an ASCII text. *)
Definition is_boundary (c : ascii) : bool := bool_decide (code c ∈ [10; 11; 12; 13; 28; 29; 30]).
Fixpoint lines_from (line : string) (s : string) : list string :=
  match s with
  | EmptyString => if bool_decide (line = "") then [] else [line]
  | String c rest =>
      if is_boundary c
      then
        match rest with
        | String d rest' => if (code c =? 13) && (code d =? 10) then line :: lines_from "" rest' else line :: lines_from "" rest
        | EmptyString => [line]
        end
      else lines_from (line +:+ String c "") rest
  end.
Definition splitlines (s : string) : list string := lines_from "" s.

Definition endswith (s p : string) : bool := bool_decide (p = str_drop (String.length s - String.length p) s) && (slen p <=? slen s).
(** [line.removeprefix(p)], where the line starts with [p]. *)
Definition after (p line : string) : string := str_drop (String.length p) line.

Record LoadState := mkLoadState { ls_section : string; ls_request : option string; ls_marker : option string; ls_exchanges : list FixtureExchange }.

(** One turn of the loop of [load_v1_wire_fixture]. *)
Definition load_line (st : LoadState) (line_number : Z) (raw_line : string) : result LoadState :=
  if bool_decide (raw_line = "") || startswith raw_line "#" then Ok st
  else if startswith raw_line "[" && endswith raw_line "]"
  then Ok (mkLoadState (String.substring 1 (String.length raw_line - 2) raw_line) (ls_request st) (ls_marker st) (ls_exchanges st))
  else if startswith raw_line "request="
  then
    let value := after "request=" raw_line in
    if startswith value "<" && endswith value ">"
    then Ok (mkLoadState (ls_section st) None (Some value) (ls_exchanges st))
    else b ← decode_c_escaped_bytes value; Ok (mkLoadState (ls_section st) (Some b) None (ls_exchanges st))
  else if existsb (startswith raw_line) ["precondition="; "postcondition="; "maximum-rate="] then Ok st
  else if startswith raw_line "response="
  then
    if bool_decide (is_Some (ls_request st)) || bool_decide (is_Some (ls_marker st))
    then
      let value := after "response=" raw_line in
      response ← (if startswith value "<" then Ok (None, Some value) else b ← decode_c_escaped_bytes value; Ok (Some b, None));
      Ok (mkLoadState (ls_section st) None None
            (ls_exchanges st ++ [mkFixtureExchange (ls_section st) (ls_request st) (ls_marker st) response.1 response.2]))
    else Ok st
  else throw (Builtin ValueError) ("invalid v1 fixture line " +:+ str_of_Z line_number +:+ ": " +:+ str_repr raw_line).

Fixpoint load_lines (line_number : Z) (lines : list string) (st : LoadState) : result LoadState :=
  match lines with
  | [] => Ok st
  | line :: lines => st ← load_line st line_number line; load_lines (line_number + 1) lines st
  end.

Definition load_v1_wire_fixture (text : string) : result (list FixtureExchange) :=
  st ← load_lines 1 (splitlines text) (mkLoadState "" None None []);
  if bool_decide (is_Some (ls_request st)) || bool_decide (is_Some (ls_marker st))
  then throw (Builtin ValueError) "v1 fixture ends without a response" else Ok (ls_exchanges st).

Fixpoint decode_lines (l : list string) : result (list string) :=
  match l with [] => Ok [] | x :: l => b ← decode_c_escaped_bytes x; bs ← decode_lines l; Ok (b :: bs) end.
Definition load_line_fixture (text : string) : result (list string) :=
  decode_lines (filter (fun line => line <> "" /\ startswith line "#" = false) (splitlines text)).

(** ** A host over the replay *)

Inductive host_action := HWrite (data : string) | HReset | HRead (size : Z).
Definition act (a : host_action) : TM string :=
  match a with
  | HWrite data => _ ← write data; mret ""
  | HReset => _ ← reset; mret ""
  | HRead size => read size
  end.
(** The bytes a host reads while it acts. *)
Fixpoint host_run (l : list host_action) : TM string :=
  match l with [] => mret "" | a :: l => s ← act a; rest ← host_run l; mret (s +:+ rest) end.

(** What a host asks of the controller, and what a script expects. *)
Definition asked (a : host_action) : option (ReplayAction * option string) :=
  match a with HWrite data => Some (WRITE, Some data) | HReset => Some (RESET, None) | HRead _ => None end.
Definition expected (s : ReplayStep) : ReplayAction * option string := (rs_action s, rs_request s).
Definition answers (l : list ReplayStep) : string := str_join "" (str_join "" ∘ responses <$> l).

Lemma answers_cons s l : answers (s :: l) = str_join "" (responses s) +:+ answers l.
Proof. unfold answers. destruct l; csimpl; [by rewrite str_app_nil_r|done]. Qed.

Lemma consume_spec a request t : let p := _consume a request t in
  match _steps t with
  | s :: steps =>
      if bool_decide (expected s = (a, request))
      then p = (set_incoming (_incoming t +:+ str_join "" (responses s)) (set_steps steps t), Ok tt)
      else exists e, p.2 = Err e /\ isinstance e (Builtin AssertionError) = true
  | [] => exists e, p.2 = Err e /\ isinstance e (Builtin AssertionError) = true
  end.
Proof.
  unfold _consume, expected, mbind, M_bind, getS. destruct (_steps t) as [|s steps]; [by eexists|]. simpl.
  case_bool_decide as E; [simplify_eq; by rewrite !bool_decide_true|].
  destruct (decide (rs_action s = a)) as [Ea|Ea]; [rewrite (bool_decide_true _ Ea)|rewrite (bool_decide_false _ Ea)]; simpl; [|by eexists].
  rewrite bool_decide_false by congruence. simpl. by eexists.
Qed.

Lemma read_spec size t : let p := read size t in
  exists s, p.2 = Ok s /\ _incoming t = s +:+ _incoming p.1 /\ _steps p.1 = _steps t /\ replay_closed p.1 = replay_closed t.
Proof.
  unfold read, mbind, M_bind, getS, modifyS. destruct (_ || _); [by exists ""|]. eexists. split; [done|]. split_and!; [|done..].
  symmetry. apply str_take_drop.
Qed.

Lemma act_spec a t : replay_closed t = false -> let p := act a t in
  match asked a with
  | None => exists s, p.2 = Ok s /\ _incoming t = s +:+ _incoming p.1 /\ _steps p.1 = _steps t /\ replay_closed p.1 = false
  | Some q =>
      match _steps t with
      | s :: steps =>
          if bool_decide (expected s = q)
          then p.2 = Ok "" /\ _incoming p.1 = _incoming t +:+ str_join "" (responses s) /\ _steps p.1 = steps /\ replay_closed p.1 = false
          else exists e, p.2 = Err e /\ isinstance e (Builtin AssertionError) = true
      | [] => exists e, p.2 = Err e /\ isinstance e (Builtin AssertionError) = true
      end
  end.
Proof.
  intros Ho. destruct a as [data| |size]; cbn [asked].
  - unfold act, write, require_open, mbind, M_bind, getS, modifyS. rewrite Ho. cbn [mret M_ret fst snd].
    match goal with |- context [_consume WRITE ?q ?t'] => pose proof (consume_spec WRITE q t') as Hc end. cbn [_steps _incoming] in Hc.
    destruct (_steps t) as [|s steps]; [destruct Hc as (e & Hc & ?); destruct (_consume _ _ _) as [t' r]; cbn [snd] in Hc; subst r; by exists e|].
    case_bool_decide; [rewrite Hc; simpl; done|destruct Hc as (e & Hc & ?); destruct (_consume _ _ _) as [t' r]; cbn [snd] in Hc; subst r; by exists e].
  - unfold act, reset, require_open, mbind, M_bind, getS, modifyS. rewrite Ho. cbn [mret M_ret fst snd].
    match goal with |- context [_consume RESET ?q ?t'] => pose proof (consume_spec RESET q t') as Hc end. cbn [_steps _incoming] in Hc.
    destruct (_steps t) as [|s steps]; [destruct Hc as (e & Hc & ?); destruct (_consume _ _ _) as [t' r]; cbn [snd] in Hc; subst r; by exists e|].
    case_bool_decide; [rewrite Hc; simpl; done|destruct Hc as (e & Hc & ?); destruct (_consume _ _ _) as [t' r]; cbn [snd] in Hc; subst r; by exists e].
  - pose proof (read_spec size t) as (s & H1 & H2 & H3 & H4). exists s. split_and!; [done|done|done|by etrans].
Qed.

(** A run from any open transport. *)
Lemma host_run_spec l t : replay_closed t = false -> let p := host_run l t in
  if bool_decide (omap asked l `prefix_of` (expected <$> _steps t))
  then exists s, p.2 = Ok s /\ _steps p.1 = drop (length (omap asked l)) (_steps t)
       /\ s +:+ _incoming p.1 = _incoming t +:+ answers (take (length (omap asked l)) (_steps t))
  else exists e, p.2 = Err e /\ isinstance e (Builtin AssertionError) = true.
Proof.
  revert t. induction l as [|a l IH]; intros t Ho; cbv zeta.
  - rewrite bool_decide_true by apply prefix_nil. exists "". simpl. by rewrite drop_0, str_app_nil_r.
  - cbn [host_run omap list_omap]. pose proof (act_spec a t Ho) as Ha. cbv zeta in Ha. unfold mbind, M_bind. destruct (asked a) as [q|]; cbn [length].
    + destruct (_steps t) as [|s steps] eqn:Es.
      { rewrite bool_decide_false by (by intros ?%prefix_nil_not). destruct Ha as (e & Ha & He). destruct (act a t) as [t' r]. cbn [snd] in Ha. subst r. by exists e. }
      rewrite fmap_cons. destruct (decide (expected s = q)) as [E|E].
      * rewrite bool_decide_true in Ha by done. destruct Ha as (H1 & H2 & H3 & H4). destruct (act a t) as [t' r]. cbn [fst snd] in *. subst r steps.
        specialize (IH t' H4). cbv zeta in IH. rewrite (bool_decide_ext (q :: _ `prefix_of` _) (omap asked l `prefix_of` (expected <$> _steps t'))).
        2:{ rewrite E. split; [apply prefix_cons_inv_2|by apply prefix_cons]. }
        case_bool_decide; [|destruct IH as (e & IH & He); destruct (host_run l t') as [t2 r]; cbn [snd] in IH; subst r; by exists e].
        destruct IH as (rest & I1 & I2 & I3). destruct (host_run l t') as [t2 r]. cbn [fst snd] in *. subst r. cbn [mret M_ret fst snd]. exists rest. split_and!; [done|done|].
        cbn [take]. rewrite answers_cons. change ("" +:+ rest) with rest. rewrite I3, H2. by rewrite str_app_assoc.
      * rewrite bool_decide_false in Ha by done. rewrite bool_decide_false by (intros Hp; apply prefix_cons_inv_1 in Hp; done).
        destruct Ha as (e & Ha & He). destruct (act a t) as [t' r]. cbn [snd] in Ha. subst r. by exists e.
    + destruct Ha as (s & H1 & H2 & H3 & H4). destruct (act a t) as [t' r]. cbn [fst snd] in *. subst r. specialize (IH t' H4). cbv zeta in IH. rewrite H3 in IH.
      case_bool_decide; [|destruct IH as (e & IH & He); destruct (host_run l t') as [t2 r]; cbn [snd] in IH; subst r; by exists e].
      destruct IH as (rest & I1 & I2 & I3). destruct (host_run l t') as [t2 r]. cbn [fst snd] in *. subst r. cbn [mret M_ret fst snd]. exists (s +:+ rest). split_and!; [done|done|].
      rewrite H2, <- !str_app_assoc. by rewrite I3.
Qed.

(** The replay transport accepts a host exactly when it does what the fixture says. For every script and every sequence of
    writes, resets and reads: the calls all return if and only if what the host asked is a beginning of the script; then the bytes it read,
    and those it has yet to read, are the responses of the steps taken, in order, whatever the sizes of its reads;
    and the replay is complete exactly when the whole script was asked and every response read. Any other
    sequence ends in a [FixtureReplayError]. *)
Theorem replay_exact (l : list host_action) (steps : list ReplayStep) :
  let p := host_run l (Replay_make steps) in
  match p.2 with
  | Ok s =>
      omap asked l `prefix_of` (expected <$> steps)
      /\ s +:+ _incoming p.1 = answers (take (length (omap asked l)) steps)
      /\ (complete p.1 = true <-> omap asked l = expected <$> steps /\ s = answers steps)
  | Err e => ~ omap asked l `prefix_of` (expected <$> steps) /\ isinstance e (Builtin AssertionError) = true
  | OutOfFuel => False
  end.
Proof.
  pose proof (host_run_spec l (Replay_make steps) eq_refl) as H. cbv zeta in *. cbn [_steps _incoming Replay_make] in H.
  case_bool_decide as Hp; [|destruct H as (e & -> & He); done]. destruct H as (s & -> & Hs & Hin). change ("" +:+ answers ?x) with (answers x) in Hin.
  split_and!; [done|done|]. unfold complete. rewrite andb_true_iff, !bool_decide_eq_true, Hs.
  pose proof (prefix_length _ _ Hp) as Hl. rewrite length_fmap in Hl. split.
  - intros [Hd Hi]. apply (f_equal length) in Hd. rewrite length_drop in Hd. cbn [length] in Hd. assert (length (omap asked l) = length steps) as Hk by lia.
    split; [|by rewrite Hk, firstn_all, Hi, str_app_nil_r in Hin]. apply prefix_length_eq; [done|]. rewrite length_fmap. lia.
  - intros [Ha ->]. assert (length (omap asked l) = length steps) as Hk by (rewrite Ha; by rewrite length_fmap). rewrite Hk, drop_all, firstn_all in *.
    split; [done|]. apply (f_equal String.length) in Hin. rewrite str_length_app in Hin. destruct (_incoming _); [done|]. simpl in Hin. lia.
Qed.

(** ** Writing fixtures *)

(** A byte as a fixture spells it: printable ones as they are, apart from the backslash and the angle that opens a marker. *)
Definition escape (c : ascii) : string :=
  if is_printable c && negb (bool_decide (c = backslash)) && negb (bool_decide (c = "<"%char)) then String c ""
  else String backslash (String "x" (String (hex_lower (code c / 16)) (String (hex_lower (code c mod 16)) ""))).
Fixpoint encode (s : string) : string := match s with EmptyString => "" | String c s => escape c +:+ encode s end.

Lemma escape_decodes c index rest : exists n, decode_from index (escape c +:+ rest) = (output ← decode_from (index + n) rest; Ok (String c output)).
Proof.
  unfold escape. destruct (is_printable c && _ && _) eqn:E.
  - bool_inv. exists 1. rewrite str_app_cons. cbn [decode_from]. rewrite bool_decide_false by done. cbn [negb].
    unfold is_printable in *. bool_inv. by rewrite (proj2 (Z.ltb_ge _ _)) by lia.
  - exists 4. clear E. cbn [String.append]. destruct c as [[] [] [] [] [] [] [] []]; vm_compute (hex_lower _); reflexivity.
Qed.

Lemma encode_decodes s index : decode_from index (encode s) = Ok s.
Proof.
  revert index. induction s as [|c s IH]; intros index; [done|]. cbn [encode]. destruct (escape_decodes c index (encode s)) as [n ->]. by rewrite IH.
Qed.

(** What escapes are written with. *)
Definition plain (c : ascii) : bool := is_printable c && negb (bool_decide (c = "<"%char)).
Lemma escape_plain c : str_forall plain (escape c) = true.
Proof. destruct c as [[] [] [] [] [] [] [] []]; vm_compute; reflexivity. Qed.
Lemma encode_plain s : str_forall plain (encode s) = true.
Proof. induction s as [|c s IH]; [done|]. cbn [encode]. by rewrite str_forall_app, escape_plain, IH. Qed.

Definition unbroken (s : string) : Prop := str_forall (fun c => negb (is_boundary c)) s = true.
Lemma plain_unbroken s : str_forall plain s = true -> unbroken s.
Proof.
  apply str_forall_impl. intros c. unfold plain, is_boundary, is_printable. intros H. bool_inv. apply negb_true_iff, bool_decide_eq_false.
  set_unfold. lia.
Qed.

(** An exchange as the lines of a fixture file. *)
Definition newline : string := String (chr 10) "".
Definition field_text (value marker : option string) : string := match value with Some b => encode b | None => default "" marker end.
Definition exchange_lines (x : FixtureExchange) : list string :=
  ["[" +:+ (fx_section x +:+ "]"); "request=" +:+ field_text (fx_request x) (request_marker x);
   "response=" +:+ field_text (fx_response x) (response_marker x)].
Definition render (l : list FixtureExchange) : string := str_join "" ((fun line => line +:+ newline) <$> (l ≫= exchange_lines)).

(** Exactly one of the bytes and the marker; markers are in angles, and nothing breaks a line. *)
Record exchange_wf (x : FixtureExchange) : Prop := {
  xw_section : unbroken (fx_section x);
  xw_request : match fx_request x, request_marker x with
               | Some _, None => True
               | None, Some m => startswith m "<" = true /\ endswith m ">" = true /\ unbroken m
               | _, _ => False
               end;
  xw_response : match fx_response x, response_marker x with
                | Some _, None => True
                | None, Some m => startswith m "<" = true /\ unbroken m
                | _, _ => False
                end;
}.

Lemma unbroken_app a b : unbroken a -> unbroken b -> unbroken (a +:+ b).
Proof. unfold unbroken. rewrite str_forall_app. by intros -> ->. Qed.

Lemma lines_from_line acc body rest : unbroken body -> lines_from acc (body +:+ newline +:+ rest) = (acc +:+ body) :: lines_from "" rest.
Proof.
  revert acc. induction body as [|c body IH]; intros acc Hb.
  - rewrite str_app_nil_r. by destruct rest.
  - unfold unbroken in Hb. cbn [str_forall] in Hb. bool_inv. rewrite str_app_cons. cbn [lines_from].
    match goal with H : is_boundary c = false |- _ => rewrite H end. rewrite IH by done. by rewrite <- str_app_assoc.
Qed.

Lemma splitlines_render l : Forall unbroken l -> splitlines (str_join "" ((fun line => line +:+ newline) <$> l)) = l.
Proof.
  unfold splitlines. induction 1 as [|x l Hx _ IH]; [done|]. rewrite fmap_cons, join_cons, <- str_app_assoc, lines_from_line by done. by rewrite IH.
Qed.

Lemma exchange_unbroken x : exchange_wf x -> Forall unbroken (exchange_lines x).
Proof.
  intros [Hs Hr Hp]. assert (forall b, unbroken (encode b)) as He by (intros; apply plain_unbroken, encode_plain).
  repeat constructor; (apply unbroken_app; [done|]).
  - by apply unbroken_app.
  - unfold field_text. destruct (fx_request x), (request_marker x); naive_solver.
  - unfold field_text. destruct (fx_response x), (response_marker x); naive_solver.
Qed.

Lemma endswith_app s p : endswith (s +:+ p) p = true.
Proof.
  unfold endswith. rewrite str_length_app, Nat.add_sub, str_drop_app, bool_decide_true by done. rewrite slen_app. pose proof (slen_nonneg s).
  by rewrite (proj2 (Z.leb_le _ _)) by lia.
Qed.
Lemma take_app_exact a b : String.substring 0 (String.length a) (a +:+ b) = a.
Proof. induction a as [|c a IH]; [by destruct b|]. rewrite str_app_cons. simpl. by rewrite IH. Qed.
Lemma section_of name : String.substring 1 (String.length ("[" +:+ (name +:+ "]")) - 2) ("[" +:+ (name +:+ "]")) = name.
Proof.
  change ("[" +:+ (name +:+ "]")) with (String "[" (name +:+ "]")). cbn [String.length]. rewrite str_length_app. cbn [String.length].
  replace (S (String.length name + 1) - 2)%nat with (String.length name) by lia. apply take_app_exact.
Qed.
Lemma plain_not_marker v : str_forall plain v = true -> startswith v "<" = false.
Proof.
  destruct v as [|c v]; [done|]. cbn [str_forall]. intros H. apply andb_true_iff in H as [H _]. unfold startswith. cbn [String.prefix].
  destruct (ascii_dec "<" c) as [<-|]; [done|by destruct v].
Qed.

Lemma load_section st n name : load_line st n ("[" +:+ (name +:+ "]")) = Ok (mkLoadState name (ls_request st) (ls_marker st) (ls_exchanges st)).
Proof.
  unfold load_line. rewrite section_of, bool_decide_false by done.
  replace (startswith ("[" +:+ (name +:+ "]")) "#") with false by reflexivity. rewrite startswith_app.
  assert (endswith ("[" +:+ (name +:+ "]")) "]" = true) as -> by (rewrite str_app_assoc; apply endswith_app). reflexivity.
Qed.

(** A line of the two fields, whatever follows the equals sign. *)
Lemma field_line name value : name = "request=" \/ name = "response=" ->
  bool_decide (name +:+ value = "") || startswith (name +:+ value) "#" = false
  /\ startswith (name +:+ value) "[" && endswith (name +:+ value) "]" = false
  /\ after name (name +:+ value) = value.
Proof. intros [-> | ->]; split_and!; try done; unfold after; apply str_drop_app. Qed.

Lemma load_request st n value marker :
  match value, marker with
  | Some _, None => True
  | None, Some m => startswith m "<" = true /\ endswith m ">" = true
  | _, _ => False
  end ->
  load_line st n ("request=" +:+ field_text value marker) = Ok (mkLoadState (ls_section st) value marker (ls_exchanges st)).
Proof.
  intros Hw. destruct (field_line "request=" (field_text value marker) (or_introl eq_refl)) as (E1 & E2 & E3).
  unfold load_line. rewrite E1, E2, startswith_app, E3. unfold field_text. destruct value as [b|], marker as [m|]; try done.
  - rewrite plain_not_marker by apply encode_plain. cbn [andb]. unfold decode_c_escaped_bytes. by rewrite encode_decodes.
  - simpl default. destruct Hw as [-> ->]. done.
Qed.

Lemma load_response st n value marker : is_Some (ls_request st) \/ is_Some (ls_marker st) ->
  match value, marker with
  | Some _, None => True
  | None, Some m => startswith m "<" = true
  | _, _ => False
  end ->
  load_line st n ("response=" +:+ field_text value marker)
  = Ok (mkLoadState (ls_section st) None None
          (ls_exchanges st ++ [mkFixtureExchange (ls_section st) (ls_request st) (ls_marker st) value marker])).
Proof.
  intros Hreq Hw. destruct (field_line "response=" (field_text value marker) (or_intror eq_refl)) as (E1 & E2 & E3).
  unfold load_line. rewrite E1, E2, E3.
  replace (startswith ("response=" +:+ field_text value marker) "request=") with false by reflexivity.
  replace (existsb _ _) with false by reflexivity. rewrite startswith_app.
  assert (bool_decide (is_Some (ls_request st)) || bool_decide (is_Some (ls_marker st)) = true) as ->
    by (apply orb_true_iff; destruct Hreq; [left|right]; by apply bool_decide_eq_true).
  unfold field_text. destruct value as [b|], marker as [m|]; try done.
  - rewrite plain_not_marker by apply encode_plain. unfold decode_c_escaped_bytes. by rewrite encode_decodes.
  - simpl default. by rewrite Hw.
Qed.

Lemma load_exchange x l st n : exchange_wf x -> ls_request st = None -> ls_marker st = None ->
  load_lines n (exchange_lines x ++ l) st
  = load_lines (n + 1 + 1 + 1) l (mkLoadState (fx_section x) None None (ls_exchanges st ++ [x])).
Proof.
  intros [_ Hr Hp] E1 E2. destruct x as [sec req mk resp rmk]. cbn [fx_request request_marker fx_response response_marker] in *.
  unfold exchange_lines. cbn [app load_lines fx_section fx_request request_marker fx_response response_marker].
  rewrite load_section. cbn [mbind res_bind]. rewrite load_request by (destruct req, mk; naive_solver). cbn [mbind res_bind].
  rewrite load_response; [done| |destruct resp, rmk; naive_solver]. cbn [ls_request ls_marker]. destruct req, mk; naive_solver.
Qed.

Lemma load_render l st n : Forall exchange_wf l -> ls_request st = None -> ls_marker st = None ->
  exists sec, load_lines n (l ≫= exchange_lines) st = Ok (mkLoadState sec None None (ls_exchanges st ++ l)).
Proof.
  intros Hl. revert st n. induction Hl as [|x l Hx _ IH]; intros st n E1 E2.
  - exists (ls_section st). destruct st. simpl in *. subst. by rewrite app_nil_r.
  - cbn [mbind list_bind]. rewrite load_exchange by done. destruct (IH (mkLoadState (fx_section x) None None (ls_exchanges st ++ [x])) (n + 1 + 1 + 1) eq_refl eq_refl) as [sec ->].
    exists sec. cbn [ls_exchanges]. by rewrite <- app_assoc.
Qed.

(** Fixture files are read back as they are written. Every string of bytes comes back from its escaped form, and every list
    of exchanges, written one section, request and response at a time, is loaded from its file with every section, byte and
    marker as it was; an exchange with bytes on both sides, or a reset with a response, replays as exactly that step. *)
Theorem fixture_roundtrip :
  (forall bytes, decode_c_escaped_bytes (encode bytes) = Ok bytes)
  /\ (forall l, Forall exchange_wf l -> load_v1_wire_fixture (render l) = Ok l)
  /\ (forall section request response,
        to_replay_step (mkFixtureExchange section (Some request) None (Some response) None) = Ok (mkReplayStep WRITE (Some request) [response])
        /\ to_replay_step (mkFixtureExchange section None (Some "<reset>") (Some response) None) = Ok (mkReplayStep RESET None [response])).
Proof.
  split_and!; [intros; apply encode_decodes| |].
  - intros l Hl. unfold load_v1_wire_fixture, render. rewrite splitlines_render.
    2:{ apply Forall_bind. eapply Forall_impl; [exact Hl|]. intros x. apply exchange_unbroken. }
    destruct (load_render l (mkLoadState "" None None []) 1 Hl eq_refl eq_refl) as [sec ->]. reflexivity.
  - intros section request response. split; unfold to_replay_step, replayable; cbn [fx_request request_marker fx_response];
      rewrite !(bool_decide_true (is_Some (Some _))) by (by eexists); reflexivity.
Qed.
