(* ===== verification/Simulator.v ===== *)
(** * The protocol simulator (appliance/daemon/src/cs71d/simulator/: clock.py, transport.py)

    The firmware stand-in the daemon runs against without hardware: its v1 and v2
    command handlers, the scheduled completions of its physical operations and
    its adverse scenarios, over the manual clock. The draws of the seeded
    [random.Random] are a list of numbers in the state. *)
From S2P Require Import Prelude PyString Errors Crc.

(** ** The manual clock (clock.py)

    Callbacks are values of a type [C], run by the simulator they belong to; the
    heap is the list of scheduled calls in the order [heapq] pops them. *)
Section Clock.
Context {C : Type}.

Record ScheduledCall := mkScheduledCall { due_ms : Z; call_sequence : Z; callback : C }.

(** [@dataclass(order=True)] over the fields that are compared. *)
Definition call_lt (a b : ScheduledCall) : bool :=
  (due_ms a <? due_ms b) || ((due_ms a =? due_ms b) && (call_sequence a <? call_sequence b)).

Record ManualClock := mkManualClock { _now_ms : Z; _sequence : Z; _scheduled : list ScheduledCall }.
Definition ManualClock_init : ManualClock := mkManualClock 0 0 [].

Definition now_ms (k : ManualClock) : Z := _now_ms k.
Definition pending_count (k : ManualClock) : Z := Z.of_nat (length (_scheduled k)).

Fixpoint heappush (x : ScheduledCall) (l : list ScheduledCall) : list ScheduledCall :=
  match l with
  | [] => [x]
  | y :: l => if call_lt x y then x :: y :: l else y :: heappush x l
  end.

Definition call_later (delay_ms : Z) (f : C) (k : ManualClock) : result ManualClock :=
  if delay_ms <? 0 then throw (Builtin ValueError) "delay_ms must be non-negative"
  else Ok (mkManualClock (_now_ms k) (_sequence k + 1)
             (heappush (mkScheduledCall (_now_ms k + delay_ms) (_sequence k + 1) f) (_scheduled k))).

Definition clock_clear (k : ManualClock) : ManualClock := mkManualClock (_now_ms k) (_sequence k) [].

Definition set_now (t : Z) (k : ManualClock) : ManualClock := mkManualClock t (_sequence k) (_scheduled k).

(** The test of the loop of [advance] and its [heappop]. *)
Definition pop_due (target_ms : Z) (k : ManualClock) : option (C * ManualClock) :=
  match _scheduled k with
  | x :: rest => if due_ms x <=? target_ms then Some (callback x, mkManualClock (due_ms x) (_sequence k) rest) else None
  | [] => None
  end.

(** *** The order of the heap *)

Definition sorted_calls (l : list ScheduledCall) : Prop := StronglySorted (fun a b => due_ms a <= due_ms b) l.

Lemma elem_of_heappush x y l : y ∈ heappush x l <-> y = x \/ y ∈ l.
Proof. induction l as [|z l IH]; simpl; [set_solver|]. destruct (call_lt x z); set_solver. Qed.

Lemma heappush_sorted x l : sorted_calls l -> sorted_calls (heappush x l).
Proof.
  unfold sorted_calls. induction l as [|y l IH]; intros Hs; simpl; [by repeat constructor|].
  apply StronglySorted_inv in Hs as [Hs Hy]. destruct (call_lt x y) eqn:E.
  - assert (due_ms x <= due_ms y).
    { unfold call_lt in E. apply orb_true_iff in E as [E|E]; bool_inv; lia. }
    constructor; [by constructor|]. constructor; [done|]. eapply Forall_impl; [done|]. simpl. lia.
  - assert (due_ms y <= due_ms x).
    { unfold call_lt in E. bool_inv. done. }
    constructor; [by apply IH|]. apply Forall_forall. intros z [->|Hz]%elem_of_heappush; [done|].
    by eapply Forall_forall in Hy.
Qed.

(** A later call, or one scheduled after at the same moment, waits behind. *)
Lemma call_lt_later d1 d2 n1 n2 (c1 c2 : C) : d1 <= d2 -> n1 < n2 -> call_lt (mkScheduledCall d2 n2 c2) (mkScheduledCall d1 n1 c1) = false.
Proof.
  intros Hd Hn. unfold call_lt. simpl. apply orb_false_iff. split; [apply Z.ltb_ge; lia|]. apply andb_false_iff. right. apply Z.ltb_ge. lia.
Qed.

Lemma heappush_length x l : length (heappush x l) = S (length l).
Proof. induction l as [|y l IH]; simpl; [done|]. destruct (call_lt x y); simpl; lia. Qed.
End Clock.
Arguments ScheduledCall : clear implicits.
Arguments ManualClock : clear implicits.

(** ** The transport (transport.py) *)

Inductive SimulatorMode := SimV1 | SimV2.
Inductive TranscriptDirection := HOST_TO_SIMULATOR | SIMULATOR_TO_HOST | SIM_RESET.
Inductive AdverseScenario := DISCONNECT | EVENT_GAP | FAULT_FEED | MALFORMED_FRAME | TERMINAL_MISMATCH | TIMEOUT.

Definition scenario_of (s : string) : option AdverseScenario :=
  if bool_decide (s = "disconnect-on-sort") then Some DISCONNECT
  else if bool_decide (s = "event-gap-on-ping") then Some EVENT_GAP
  else if bool_decide (s = "fault-feed-overtravel") then Some FAULT_FEED
  else if bool_decide (s = "malformed-on-sort") then Some MALFORMED_FRAME
  else if bool_decide (s = "terminal-mismatch-on-sort") then Some TERMINAL_MISMATCH
  else if bool_decide (s = "timeout-on-sort") then Some TIMEOUT
  else None.

Definition _SCENARIO_TRIGGER (s : AdverseScenario) : string :=
  match s with EVENT_GAP => "ping" | _ => "sortto:3" end.

Record TranscriptEntry := mkTranscriptEntry { at_ms : Z; direction : TranscriptDirection; te_data : string }.

Record SimulatorConfig := mkSimulatorConfig {
  scenario : string;
  seed : Z;
  v2_available : bool;
  crc_available : bool;
  operation_duration_ms : Z;
  operation_jitter_ms : Z;
  slot_count : Z;
  slot_max : Z;
}.
Definition SimulatorConfig_default : SimulatorConfig := mkSimulatorConfig "happy-v2" 0 true true 25 0 8 102.

Definition SimulatorConfig_make (c : SimulatorConfig) : result SimulatorConfig :=
  if bool_decide (scenario c = "") || str_exists is_space (scenario c)
  then throw (Builtin ValueError) "scenario must be a non-empty token"
  else if operation_duration_ms c <? 1 then throw (Builtin ValueError) "operation_duration_ms must be positive"
  else if operation_jitter_ms c <? 0 then throw (Builtin ValueError) "operation_jitter_ms must be non-negative"
  else if negb ((1 <=? slot_count c) && (slot_count c <=? 64)) then throw (Builtin ValueError) "slot_count must be 1..64"
  else if negb ((1 <=? slot_max c) && (slot_max c <=? 102)) then throw (Builtin ValueError) "slot_max must be 1..102"
  else Ok c.

(** The closures handed to the clock, with the variables they capture. *)
Inductive sim_call :=
| CallFail (request_id : Z)
| CallSorted (request_id slot : Z)
| CallProgress (request_id : Z)
| CallHomed (request_id : Z) (command : string).

(** What [_reset_state] assigns. *)
Record SimState := mkSimState {
  _mode : SimulatorMode;
  _crc_enabled : bool;
  _event_sequence : Z;
  _active_id : option Z;
  _machine_mode : string;
  _phase : string;
  _feed_homed : bool;
  _sort_homed : bool;
  _queue_previous : Z;
  _queue_next : Z;
  _config_generation : Z;
  _fault_code : Z;
  _read_error : option exn;
  _boot_at_ms : Z;
}.

Record SimulatorTransport := mkSimulator {
  config : SimulatorConfig;
  clock : ManualClock sim_call;
  _random : list Z;
  _incoming : string;
  _outgoing : string;
  _transcript : list TranscriptEntry;
  sim_closed : bool;
  sim_resets : Z;
  sim_state : SimState;
}.

Abbreviation TM := (M SimulatorTransport exn).

Definition out_of_fuel {A} : TM A := fun s => (s, OutOfFuel).

(** *** Assignments *)

Definition set_clock (k : ManualClock sim_call) (s : SimulatorTransport) : SimulatorTransport :=
  mkSimulator (config s) k (_random s) (_incoming s) (_outgoing s) (_transcript s) (sim_closed s) (sim_resets s) (sim_state s).
Definition set_random (l : list Z) (s : SimulatorTransport) : SimulatorTransport :=
  mkSimulator (config s) (clock s) l (_incoming s) (_outgoing s) (_transcript s) (sim_closed s) (sim_resets s) (sim_state s).
Definition set_in (d : string) (s : SimulatorTransport) : SimulatorTransport :=
  mkSimulator (config s) (clock s) (_random s) d (_outgoing s) (_transcript s) (sim_closed s) (sim_resets s) (sim_state s).
Definition set_out (d : string) (s : SimulatorTransport) : SimulatorTransport :=
  mkSimulator (config s) (clock s) (_random s) (_incoming s) d (_transcript s) (sim_closed s) (sim_resets s) (sim_state s).
Definition set_transcript (l : list TranscriptEntry) (s : SimulatorTransport) : SimulatorTransport :=
  mkSimulator (config s) (clock s) (_random s) (_incoming s) (_outgoing s) l (sim_closed s) (sim_resets s) (sim_state s).
Definition set_closed (s : SimulatorTransport) : SimulatorTransport :=
  mkSimulator (config s) (clock s) (_random s) (_incoming s) (_outgoing s) (_transcript s) true (sim_resets s) (sim_state s).
Definition set_resets (n : Z) (s : SimulatorTransport) : SimulatorTransport :=
  mkSimulator (config s) (clock s) (_random s) (_incoming s) (_outgoing s) (_transcript s) (sim_closed s) n (sim_state s).
Definition set_state (x : SimState) (s : SimulatorTransport) : SimulatorTransport :=
  mkSimulator (config s) (clock s) (_random s) (_incoming s) (_outgoing s) (_transcript s) (sim_closed s) (sim_resets s) x.
Definition upd (f : SimState -> SimState) : TM unit := modifyS (fun s => set_state (f (sim_state s)) s).

(** The protocol mode, its CRC flag and its event counter. *)
Definition with_mode (m : SimulatorMode) (crc : bool) (events : Z) (x : SimState) : SimState :=
  mkSimState m crc events (_active_id x) (_machine_mode x) (_phase x) (_feed_homed x) (_sort_homed x)
    (_queue_previous x) (_queue_next x) (_config_generation x) (_fault_code x) (_read_error x) (_boot_at_ms x).
Definition with_crc (crc : bool) (x : SimState) : SimState := with_mode (_mode x) crc (_event_sequence x) x.
Definition with_events (n : Z) (x : SimState) : SimState := with_mode (_mode x) (_crc_enabled x) n x.
(** The operation in progress, the machine's mode and its phase. *)
Definition with_machine (active : option Z) (machine phase : string) (x : SimState) : SimState :=
  mkSimState (_mode x) (_crc_enabled x) (_event_sequence x) active machine phase (_feed_homed x) (_sort_homed x)
    (_queue_previous x) (_queue_next x) (_config_generation x) (_fault_code x) (_read_error x) (_boot_at_ms x).
Definition with_homed (feed sort : bool) (x : SimState) : SimState :=
  mkSimState (_mode x) (_crc_enabled x) (_event_sequence x) (_active_id x) (_machine_mode x) (_phase x) feed sort
    (_queue_previous x) (_queue_next x) (_config_generation x) (_fault_code x) (_read_error x) (_boot_at_ms x).
Definition with_queue (previous next : Z) (x : SimState) : SimState :=
  mkSimState (_mode x) (_crc_enabled x) (_event_sequence x) (_active_id x) (_machine_mode x) (_phase x)
    (_feed_homed x) (_sort_homed x) previous next (_config_generation x) (_fault_code x) (_read_error x) (_boot_at_ms x).
Definition with_fault (code : Z) (x : SimState) : SimState :=
  mkSimState (_mode x) (_crc_enabled x) (_event_sequence x) (_active_id x) (_machine_mode x) (_phase x)
    (_feed_homed x) (_sort_homed x) (_queue_previous x) (_queue_next x) (_config_generation x) code (_read_error x) (_boot_at_ms x).
Definition with_read_error (e : option exn) (x : SimState) : SimState :=
  mkSimState (_mode x) (_crc_enabled x) (_event_sequence x) (_active_id x) (_machine_mode x) (_phase x)
    (_feed_homed x) (_sort_homed x) (_queue_previous x) (_queue_next x) (_config_generation x) (_fault_code x) e (_boot_at_ms x).

(** *** Output *)

Definition _record (d : TranscriptDirection) (data : string) : TM unit :=
  modifyS (fun s => set_transcript (_transcript s ++ [mkTranscriptEntry (now_ms (clock s)) d data]) s).

Definition _emit_unprotected (text : string) : TM unit :=
  let data := text +:+ String (chr 10) "" in
  _ ← modifyS (fun s => set_out (_outgoing s +:+ data) s);
  _record SIMULATOR_TO_HOST data.

Definition _emit (text : string) : TM unit :=
  s ← getS;
  protected ← liftR (if _crc_enabled (sim_state s) then append_crc text else Ok text);
  if 64 <? slen protected
  then raise (mk_exn (Builtin RuntimeError) ("simulator emitted an oversized v2 frame: " +:+ str_repr protected))
  else _emit_unprotected protected.

Definition next_sequence (n : Z) : Z := if n =? 65535 then 1 else n + 1.

Definition _emit_event (body : string) : TM unit :=
  _ ← upd (fun x => with_events (next_sequence (_event_sequence x)) x);
  s ← getS;
  _emit ("!" +:+ str_of_Z (_event_sequence (sim_state s)) +:+ " " +:+ body).

Definition _respond (request_id : Z) (body : string) : TM unit :=
  _emit ("@" +:+ str_of_Z request_id +:+ " " +:+ body).

Fixpoint respond_lines (request_id : Z) (lines : list string) : TM unit :=
  match lines with
  | [] => mret tt
  | field_line :: lines => _ ← _respond request_id ("data:" +:+ field_line); respond_lines request_id lines
  end.
Definition _respond_data (request_id : Z) (lines : list string) : TM unit :=
  _ ← respond_lines request_id lines; _respond request_id "done".

(** *** Operations *)

Definition int_of_bool (b : bool) : string := if b then "1" else "0".

Definition _both_axes_homed (x : SimState) : bool := _feed_homed x && _sort_homed x.

(** [self._random.randint(0, jitter)]: any draw of the generator, in range. *)
Definition _operation_delay_ms : TM Z :=
  s ← getS;
  let jitter := match _random s with [] => 0 | r :: _ => r mod (operation_jitter_ms (config s) + 1) end in
  _ ← putS (set_random (tail (_random s)) s);
  mret (operation_duration_ms (config s) + jitter).

Definition _schedule (delay_ms : Z) (f : sim_call) : TM unit :=
  s ← getS; k ← liftR (call_later delay_ms f (clock s)); putS (set_clock k s).

Definition _start_operation (request_id : Z) (operation phase : string) : TM bool :=
  s ← getS;
  match _active_id (sim_state s) with
  | Some active => _ ← _respond request_id ("error:2001:busy active_id=" +:+ str_of_Z active); mret false
  | None =>
      let machine := if negb (bool_decide (operation = "home")) && _both_axes_homed (sim_state s) then "running" else "recovering" in
      _ ← upd (with_machine (Some request_id) machine phase);
      _ ← _respond request_id ("accepted:operation=" +:+ operation);
      _ ← _emit_event ("state:mode=" +:+ machine +:+ " phase=" +:+ phase);
      mret true
  end.

Definition _complete_operation (request_id : Z) (terminal : string) : TM unit :=
  s ← getS;
  if negb (bool_decide (_active_id (sim_state s) = Some request_id)) then mret tt
  else
    let machine := if _both_axes_homed (sim_state s) then "running" else "recovering" in
    _ ← upd (with_machine None machine "idle");
    _ ← _emit_event ("state:mode=" +:+ machine +:+ " phase=idle");
    _respond request_id terminal.

Definition homes_feeder (command : string) : bool := bool_decide (command ∈ ["homefeeder"; "homeall"]).
Definition homes_sorter (command : string) : bool := bool_decide (command ∈ ["homesorter"; "homeall"]).

(** *** The closures *)

Definition fail (request_id : Z) : TM unit :=
  s ← getS;
  if negb (bool_decide (_active_id (sim_state s) = Some request_id)) then mret tt
  else
    _ ← upd (fun x => with_fault 3001 (with_homed false (_sort_homed x) (with_machine None "recovering" "idle" x)));
    _ ← _respond request_id "error:3001:feed_overtravel";
    _ ← _emit_event "fault:3001:feed_overtravel latched=1";
    _emit_event "state:mode=recovering phase=idle".

Definition complete_sort (request_id slot : Z) : TM unit :=
  _ ← upd (with_queue slot slot);
  _complete_operation request_id ("done:slot=" +:+ str_of_Z slot).

Definition progress_sorter (request_id : Z) : TM unit :=
  s ← getS;
  if negb (bool_decide (_active_id (sim_state s) = Some request_id)) then mret tt
  else
    _ ← upd (fun x => with_machine (_active_id x) (_machine_mode x) "sort_home" x);
    _ ← _respond request_id "progress:phase=sort_home";
    _emit_event "state:mode=recovering phase=sort_home".

Definition complete_home (request_id : Z) (command : string) : TM unit :=
  _ ← upd (fun x => with_homed (homes_feeder command || _feed_homed x) (homes_sorter command || _sort_homed x) x);
  s ← getS;
  _complete_operation request_id
    ("done:feed_homed=" +:+ int_of_bool (_feed_homed (sim_state s)) +:+ " sort_homed=" +:+ int_of_bool (_sort_homed (sim_state s))).

Definition run_sim_call (c : sim_call) : TM unit :=
  match c with
  | CallFail request_id => fail request_id
  | CallSorted request_id slot => complete_sort request_id slot
  | CallProgress request_id => progress_sorter request_id
  | CallHomed request_id command => complete_home request_id command
  end.

Definition _start_injected_fault (request_id : Z) : TM unit :=
  started ← _start_operation request_id "sort" "sort_move";
  if negb (started : bool) then mret tt
  else delay_ms ← _operation_delay_ms; _schedule delay_ms (CallFail request_id).

Definition _start_sort (request_id : Z) (slot_text : string) : TM unit :=
  s ← getS;
  if bool_decide (slot_text = "") || negb (str_forall is_digit slot_text)
  then _respond request_id "error:1005:invalid_argument key=slot"
  else
    let slot := int_of_digits slot_text in
    if slot_max (config s) <? slot
    then _respond request_id ("error:1006:out_of_range key=slot min=0 max=" +:+ str_of_Z (slot_max (config s)))
    else if bool_decide (_machine_mode (sim_state s) = "stopped") then _respond request_id "error:2003:stopped"
    else if negb (_sort_homed (sim_state s)) then _respond request_id "error:2002:not_homed axis=sorter"
    else
      started ← _start_operation request_id "sort" "sort_move";
      if negb (started : bool) then mret tt
      else delay_ms ← _operation_delay_ms; _schedule delay_ms (CallSorted request_id slot).

Definition _start_home (request_id : Z) (command : string) : TM unit :=
  started ← _start_operation request_id "home" (if homes_feeder command then "feed_home" else "sort_home");
  if negb (started : bool) then mret tt
  else
    delay_ms ← _operation_delay_ms;
    _ ← (if bool_decide (command = "homeall")
         then _ ← _respond request_id "progress:phase=feed_home";
              _schedule (Z.max 1 (delay_ms / 2)) (CallProgress request_id)
         else mret tt);
    _schedule delay_ms (CallHomed request_id command).

(** *** The stops *)

Definition stop_machine (x : SimState) : SimState := with_homed false false (with_machine None "stopped" "idle" x).

Definition clear_clock : TM unit := modifyS (fun s => set_clock (clock_clear (clock s)) s).

Definition _handle_priority_stop : TM unit :=
  _ ← clear_clock;
  _ ← upd stop_machine;
  s ← getS;
  _ ← match _mode (sim_state s) with SimV2 => _emit_event "state:mode=stopped phase=idle" | SimV1 => mret tt end;
  _emit_unprotected "stopped".

Definition _handle_correlated_stop (request_id : Z) : TM unit :=
  s ← getS;
  _ ← clear_clock;
  _ ← match _active_id (sim_state s) with
      | Some active => _respond active ("error:2004:cancelled by=" +:+ str_of_Z request_id)
      | None => mret tt
      end;
  _ ← upd stop_machine;
  _ ← _emit_event "state:mode=stopped phase=idle";
  _respond request_id "done:mode=stopped".

(** *** Queries *)

Definition _capability_lines (c : SimulatorConfig) : list string :=
  ["protocol=2 max_line=64 crc=" +:+ (if crc_available c then "optional" else "none");
   "queue_depth=2 slot_max=" +:+ str_of_Z (slot_max c) +:+ " slot_count=" +:+ str_of_Z (slot_count c);
   "pwm=0 airdrop=1 feed_sensor=1";
   "feed_home=1 sort_home=1"].

Definition _status_lines (x : SimState) : list string :=
  ["mode=" +:+ _machine_mode x +:+ " phase=" +:+ _phase x +:+ " feed_homed=" +:+ int_of_bool (_feed_homed x);
   "sort_homed=" +:+ int_of_bool (_sort_homed x) +:+ " motor_enabled=0 active_id=" +:+
     match _active_id x with None => "none" | Some active => str_of_Z active end;
   "fault_code=" +:+ str_of_Z (_fault_code x) +:+ " queue_previous=" +:+ str_of_Z (_queue_previous x)
     +:+ " queue_next=" +:+ str_of_Z (_queue_next x);
   "config_generation=" +:+ str_of_Z (_config_generation x)].

Definition _enable_crc (request_id : Z) : TM unit :=
  s ← getS;
  if negb (crc_available (config s)) then _respond request_id "error:1007:unsupported key=crc"
  else _ ← upd (with_crc true); _respond request_id "done:crc=on".

Definition _disable_crc (request_id : Z) : TM unit :=
  _ ← _respond request_id "done:crc=off"; upd (with_crc false).

(** *** Adverse scenarios: whether the command was consumed *)

Definition _inject_adverse_scenario (request_id : Z) (command : string) : TM bool :=
  s ← getS;
  match scenario_of (scenario (config s)) with
  | None => mret false
  | Some sc =>
      if negb (bool_decide (command = _SCENARIO_TRIGGER sc)) then mret false
      else
        _ ← match sc with
            | DISCONNECT => upd (with_read_error (Some (mk_exn (Builtin OSError) "simulated serial disconnect")))
            | EVENT_GAP =>
                _ ← _emit_event ("state:mode=" +:+ _machine_mode (sim_state s) +:+ " phase=idle");
                _ ← upd (fun x => with_events (next_sequence (_event_sequence x)) x);
                _ ← _emit_event ("state:mode=" +:+ _machine_mode (sim_state s) +:+ " phase=idle");
                _respond request_id "done:uptime_ms=0"
            | FAULT_FEED => _start_injected_fault request_id
            | MALFORMED_FRAME => _emit_unprotected ("@" +:+ str_of_Z request_id +:+ " d" +:+ String (chr 1) "ne")
            | TERMINAL_MISMATCH => _respond (if request_id =? 65535 then 1 else request_id + 1) "done:slot=3"
            | TIMEOUT => mret tt
            end;
        mret true
  end.

(** *** The command handlers *)

Definition _handle_v1 (text : string) : TM unit :=
  s ← getS;
  if 40 <? slen text then _emit_unprotected "error:command too long"
  else if bool_decide (text = "ping") then _emit_unprotected " ok"
  else if bool_decide (text = "protocol:2?")
  then _emit_unprotected (if v2_available (config s) then "protocol:2 available" else "ok")
  else if bool_decide (text = "protocol:2") && v2_available (config s)
  then _ ← _emit_unprotected "protocol:2 ready"; upd (with_mode SimV2 false 0)
  else if bool_decide (text = "version") then _emit_unprotected "CS71 7.1.260714.6"
  else _emit_unprotected "ok".

(** [_REQUEST.fullmatch]: the digits of the identifier, if there is one, and the command. *)
Definition match_request (body : string) : option (option string * string) :=
  if bool_decide (body = "") || str_mem (chr 10) body then None
  else Some
    match body with
    | String c s =>
        let '(digits, rest) := str_span is_digit s in
        match rest with
        | String d command =>
            if Ascii.eqb c "@" && negb (bool_decide (digits = "")) && Ascii.eqb d " " && negb (bool_decide (command = ""))
            then (Some digits, command) else (None, body)
        | "" => (None, body)
        end
    | "" => (None, body)
    end.

Definition state_changing (command : string) : bool :=
  bool_decide (command ∈ ["crc:on"; "crc:off"; "protocol:1"; "homefeeder"; "homesorter"; "homeall"])
  || startswith command "sortto:".

Definition _dispatch_command (request_id : Z) (command : string) : TM unit :=
  s ← getS;
  let x := sim_state s in
  if bool_decide (command = "protocolversion") then _respond_data request_id ["protocol=2"]
  else if bool_decide (command = "capabilities") then _respond_data request_id (_capability_lines (config s))
  else if bool_decide (command = "status") then _respond_data request_id (_status_lines x)
  else if bool_decide (command = "queue") then
    _respond_data request_id ["queue_depth=2"; "queue_previous=" +:+ str_of_Z (_queue_previous x); "queue_next=" +:+ str_of_Z (_queue_next x)]
  else if bool_decide (command = "ping") then _respond request_id ("done:uptime_ms=" +:+ str_of_Z (now_ms (clock s) - _boot_at_ms x))
  else if bool_decide (command = "version") then _ ← _respond request_id "data:version=7.1.260714.6"; _respond request_id "done"
  else if bool_decide (command = "crc:on") then _enable_crc request_id
  else if bool_decide (command = "crc:off") then _disable_crc request_id
  else if bool_decide (command = "protocol:1") then _ ← _respond request_id "done:protocol=1"; upd (with_mode SimV1 false 0)
  else if startswith command "sortto:" then _start_sort request_id (str_drop 7 command)
  else if bool_decide (command ∈ ["homefeeder"; "homesorter"; "homeall"]) then _start_home request_id command
  else _respond request_id "error:1004:unknown_command".

Definition _handle_v2 (text : string) : TM unit :=
  s ← getS;
  if 64 <? slen text then _emit_event "reject:1001:bad_frame"
  else
    match remove_and_verify_crc text (_crc_enabled (sim_state s)) with
    | Err e => if isinstance e (Protocol CrcError) then _emit_event "reject:1002:bad_crc" else raise e
    | OutOfFuel => out_of_fuel
    | Ok body =>
        match match_request body with
        | None => _emit_event "reject:1001:bad_frame"
        | Some (digits, command) =>
            let request_id := int_of_digits (default "0" digits) in
            let active := _active_id (sim_state s) in
            if (65535 <? request_id) || (bool_decide (is_Some digits) && (request_id =? 0))
            then _emit_event "reject:1003:bad_id"
            else if negb (bool_decide (command = str_strip command)) || negb (str_forall is_printable command)
            then _emit_event "reject:1001:bad_frame"
            else if negb (request_id =? 0) && bool_decide (active = Some request_id)
            then _emit_event ("reject:1003:bad_id id=" +:+ str_of_Z request_id)
            else if (request_id =? 0) && bool_decide (active = Some 0) then _respond 0 "error:2001:busy active_id=0"
            else if bool_decide (command = "stop") then _handle_correlated_stop request_id
            else
              injected ← _inject_adverse_scenario request_id command;
              if injected : bool then mret tt
              else
                match active with
                | Some id =>
                    if state_changing command then _respond request_id ("error:2001:busy active_id=" +:+ str_of_Z id)
                    else _dispatch_command request_id command
                | None => _dispatch_command request_id command
                end
        end
    end.

Definition _handle_line (raw_line : string) : TM unit :=
  if bool_decide (raw_line = "stop") then _handle_priority_stop
  else
    s ← getS;
    match encode_ascii raw_line with
    | None =>
        match _mode (sim_state s) with
        | SimV1 => _emit_unprotected "error:invalid command"
        | SimV2 => _emit_event "reject:1001:bad_frame"
        end
    | Some text =>
        match _mode (sim_state s) with SimV1 => _handle_v1 text | SimV2 => _handle_v2 text end
    end.

(** *** The byte stream *)

Definition reset_state (now : Z) : SimState :=
  mkSimState SimV1 false 0 None "recovering" "idle" false false 0 0 0 0 None now.
Definition _reset_state : TM unit :=
  _ ← modifyS (fun s => set_state (reset_state (now_ms (clock s))) s);
  _emit_unprotected "Ready".

Definition SimulatorTransport_init (c : SimulatorConfig) (draws : list Z) : SimulatorTransport :=
  (_reset_state (mkSimulator c ManualClock_init draws "" "" [] false 0 (reset_state 0))).1.

(** [raw_line[:-1]] when it ends with a carriage return. *)
Definition chomp_cr (raw : string) : string :=
  match str_last raw with Some c => if Ascii.eqb c (chr 13) then str_init raw else raw | None => raw end.

(** The loop over the complete lines received; one per line feed. *)
Fixpoint handle_lines (fuel : nat) : TM unit :=
  getS ≫= fun s : SimulatorTransport =>
  match str_partition (chr 10) (_incoming s) with
  | None => mret tt
  | Some (raw_line, rest) =>
      match fuel with
      | O => out_of_fuel
      | S fuel => _ ← modifyS (set_in rest); _ ← _handle_line (chomp_cr raw_line); handle_lines fuel
      end
  end.

Definition sim_write (data : string) : TM (option Z) :=
  s ← getS;
  if sim_closed s then raise (mk_exn (Builtin OSError) "simulator transport is closed")
  else
    _ ← _record HOST_TO_SIMULATOR data;
    _ ← modifyS (fun s => set_in (_incoming s +:+ data) s);
    s ← getS;
    _ ← handle_lines (String.length (_incoming s));
    mret (Some (slen data)).

(** What is left of a read once any waiting is over. *)
Definition sim_take (size : Z) : TM string :=
  s ← getS;
  match _read_error (sim_state s) with
  | Some e => raise e
  | None =>
      _ ← putS (set_out (str_drop (Z.to_nat size) (_outgoing s)) s);
      mret (String.substring 0 (Z.to_nat size) (_outgoing s))
  end.

(** [ManualClock.advance] with the simulator's closures, and the simulator's own entry point. *)
Fixpoint run_due (fuel : nat) (target_ms : Z) : TM unit :=
  getS ≫= fun s : SimulatorTransport =>
  match pop_due target_ms (clock s) with
  | None => modifyS (fun s => set_clock (set_now target_ms (clock s)) s)
  | Some (c, k) =>
      match fuel with
      | O => out_of_fuel
      | S fuel => _ ← putS (set_clock k s); _ ← run_sim_call c; run_due fuel target_ms
      end
  end.

Definition advance (delta_ms : Z) : TM unit :=
  s ← getS;
  if delta_ms <? 0 then raise (mk_exn (Builtin ValueError) "delta_ms must be non-negative")
  else run_due (length (_scheduled (clock s))) (now_ms (clock s) + delta_ms).

Definition drain_output : TM string :=
  s ← getS; _ ← putS (set_out "" s); mret (_outgoing s).

Definition sim_reset : TM unit :=
  s ← getS;
  if sim_closed s then raise (mk_exn (Builtin OSError) "simulator transport is closed")
  else
    _ ← modifyS (fun s => set_resets (sim_resets s + 1) s);
    _ ← _record SIM_RESET "";
    _ ← modifyS (fun s => set_clock (clock_clear (clock s)) (set_out "" (set_in "" s)));
    _reset_state.

Definition sim_close : TM unit :=
  _ ← modifyS set_closed; clear_clock.

(** *** Reading, with other threads advancing the clock

    [sw_ticks] is what other threads do while the host waits: an advance of the
    simulated clock by so many milliseconds, after so many host microseconds. *)
Record SimWorld := mkSimWorld { sw_sim : SimulatorTransport; sw_now : Z; sw_ticks : list (Z * Z) }.

(** Waiting for [remaining] microseconds; with [wake], until something can be read ([_condition.wait]). *)
Fixpoint wait_go (wake : bool) (ticks : list (Z * Z)) (remaining now : Z) (s : SimulatorTransport) : SimWorld :=
  match ticks with
  | [] => mkSimWorld s (now + Z.max 0 remaining) []
  | (ms, us) :: rest =>
      if remaining <=? Z.max 0 us then mkSimWorld s (now + Z.max 0 remaining) ((ms, Z.max 0 us - Z.max 0 remaining) :: rest)
      else
        let s' := (advance ms s).1 in
        if wake && negb (bool_decide (_outgoing s' = "")) then mkSimWorld s' (now + Z.max 0 us) rest
        else wait_go wake rest (remaining - Z.max 0 us) (now + Z.max 0 us) s'
  end.

Definition sim_read (size : Z) (timeout : option Z) : M SimWorld exn string := fun w =>
  if size <? 1 then (w, Ok "")
  else
    match _read_error (sim_state (sw_sim w)) with
    | Some e => (w, Err e)
    | None =>
        let w := match timeout with
                 | Some t => if bool_decide (_outgoing (sw_sim w) = "") && negb (sim_closed (sw_sim w))
                             then wait_go true (sw_ticks w) t (sw_now w) (sw_sim w) else w
                 | None => w
                 end in
        let p := sim_take size (sw_sim w) in (mkSimWorld p.1 (sw_now w) (sw_ticks w), p.2)
    end.

Definition on_sim {A} (m : TM A) : M SimWorld exn A := fun w =>
  let p := m (sw_sim w) in (mkSimWorld p.1 (sw_now w) (sw_ticks w), p.2).
