(* ===== verification/SimulatorSpec.v ===== *)
(** * What the simulator promises the host

    Every state the simulator can reach is well formed: an operation in progress
    has exactly one scheduled completion, and every line it ever sent is a v1
    reply or a frame the host's own parser accepts. *)
From S2P Require Import Prelude PyString Errors Crc Models Parsing Framing Simulator.

(** ** Frames *)

Definition plain (c : ascii) : bool := is_printable c && negb (Ascii.eqb c "*").

(** A body the host's parser accepts as a response, as an event. *)
Record speaks (body : string) : Prop := {
  sp_plain : str_forall plain body = true;
  sp_some : body <> "";
  sp_item : forall id, is_ok (_response_body id body) = true;
}.
Record announces (body : string) : Prop := {
  an_plain : str_forall plain body = true;
  an_some : body <> "";
  an_item : forall seq, exists e, forall whole, _event_body seq whole body = Ok e;
}.

Lemma plain_printable s : str_forall plain s = true -> str_forall is_printable s = true.
Proof. apply str_forall_impl. unfold plain. intros c E. by bool_inv. Qed.

Lemma plain_app a b : str_forall plain (a +:+ b) = str_forall plain a && str_forall plain b.
Proof. apply str_forall_app. Qed.

Lemma digit_plain c : is_digit c = true -> plain c = true.
Proof.
  intros E. unfold plain. rewrite digit_printable by done. destruct (Ascii.eqb_spec c "*") as [->|]; [done|reflexivity].
Qed.
Lemma plain_num n : 0 <= n -> str_forall plain (str_of_Z n) = true.
Proof. intros Hn. eapply str_forall_impl, digits_str_of_Z, Hn. apply digit_plain. Qed.

Lemma slen_hex4 n : slen (hex4 n) = 4.
Proof. done. Qed.

(** The line that carries a plain frame, and its length. *)
Lemma protected_line crc frame : str_forall plain frame = true ->
  exists line, (if crc : bool then append_crc frame else Ok frame) = Ok line /\ on_wire crc frame line
    /\ slen line = slen frame + (if crc then 5 else 0) /\ str_forall is_printable line = true.
Proof.
  intros Hp. assert (str_mem star frame = false) as Hs.
  { eapply str_mem_forall; [done|]. reflexivity. }
  pose proof (plain_printable _ Hp) as Hpr. pose proof (printable_ascii _ Hpr) as Ha. destruct crc.
  - unfold append_crc, encode_ascii at 1. rewrite Ha. eexists. split; [done|].
    assert (on_wire true frame (frame +:+ "*" +:+ format_crc frame)) as Hw.
    { unfold on_wire, append_crc, encode_ascii. by rewrite Ha. }
    split; [done|]. split; [|by eapply on_wire_printable]. rewrite !slen_app. unfold format_crc. rewrite slen_hex4. done.
  - exists frame. split; [done|]. split; [done|]. split; [lia|done].
Qed.

(** ** Saying one frame *)

(** The simulator sent one line that the host parses as [item]. *)
Definition said (line : string) (s : SimulatorTransport) : SimulatorTransport :=
  let data := line +:+ String (chr 10) "" in
  set_transcript (_transcript s ++ [mkTranscriptEntry (now_ms (clock s)) SIMULATOR_TO_HOST data])
    (set_out (_outgoing s +:+ data) s).

Definition says (item : v2_item) (s s' : SimulatorTransport) : Prop :=
  exists line, s' = said line s /\ slen line <= 64 /\ parse_v2_line line (_crc_enabled (sim_state s)) = Ok item.

Lemma unprotected_said line s : _emit_unprotected line s = (said line s, Ok tt).
Proof. done. Qed.

(** A frame within the limit is sent, a longer one is refused. *)
Lemma emit_cases frame item s : str_forall plain frame = true ->
  (forall line, on_wire (_crc_enabled (sim_state s)) frame line -> slen line <= 64 -> parse_v2_line line (_crc_enabled (sim_state s)) = Ok item) ->
  (exists s', _emit frame s = (s', Ok tt) /\ says item s s')
  \/ (64 < slen frame + (if _crc_enabled (sim_state s) then 5 else 0) /\ exists e, _emit frame s = (s, Err e) /\ exn_cls e = Builtin RuntimeError).
Proof.
  intros Hp Hi. unfold _emit, mbind, M_bind, getS, liftR.
  destruct (protected_line (_crc_enabled (sim_state s)) frame Hp) as (line & -> & Hw & Hl & _).
  destruct (Z.ltb_spec 64 (slen line)).
  - right. split; [lia|]. by eexists.
  - left. eexists. split; [apply unprotected_said|]. exists line. split; [done|]. split; [lia|]. by apply Hi.
Qed.

Lemma slen_num n : 0 <= n <= 65535 -> slen (str_of_Z n) <= 5.
Proof. intros Hn. apply slen_str_of_Z; lia. Qed.

Lemma respond_cases id body s : 0 <= id <= 65535 -> speaks body ->
  (exists r s', _response_body id body = Ok r /\ _respond id body s = (s', Ok tt) /\ says (VResponse r) s s')
  \/ (57 < slen body + (if _crc_enabled (sim_state s) then 5 else 0) /\ exists e, _respond id body s = (s, Err e) /\ exn_cls e = Builtin RuntimeError).
Proof.
  intros Hid [Hp Hb Hr]. specialize (Hr id). destruct (_response_body id body) as [r|e|] eqn:E; [|done..].
  destruct (emit_cases ("@" +:+ str_of_Z id +:+ " " +:+ body) (VResponse r) s) as [(s' & ? & ?)|(Hl & ?)].
  - rewrite !plain_app, plain_num, Hp by lia. done.
  - intros line Hw Hl. apply (response_frame id body r); try done; by apply plain_printable.
  - left. by exists r, s'.
  - right. split; [|done]. rewrite !slen_app in Hl. pose proof (slen_num id Hid).
    change (slen "@") with 1 in Hl. change (slen " ") with 1 in Hl. lia.
Qed.

Lemma wp_respond_fit id body Q s : 0 <= id <= 65535 -> speaks body -> slen body + (if _crc_enabled (sim_state s) then 5 else 0) <= 57 ->
  (forall r s', _response_body id body = Ok r -> says (VResponse r) s s' -> Q s' (Ok tt)) -> wp (_respond id body) Q s.
Proof.
  intros Hid Hs Hl HQ. destruct (respond_cases id body s Hid Hs) as [(r & s' & Hr & E & Hsay)|(? & _)]; [|lia].
  unfold wp. rewrite E. by eapply HQ.
Qed.
Lemma wp_respond id body Q s : 0 <= id <= 65535 -> speaks body -> slen body <= 52 ->
  (forall r s', _response_body id body = Ok r -> says (VResponse r) s s' -> Q s' (Ok tt)) -> wp (_respond id body) Q s.
Proof. intros Hid Hs Hl. apply wp_respond_fit; [done|done|]. destruct (_crc_enabled (sim_state s)); lia. Qed.

Lemma wp_respond_any id body Q s : 0 <= id <= 65535 -> speaks body ->
  (forall r s', _response_body id body = Ok r -> says (VResponse r) s s' -> Q s' (Ok tt)) ->
  (forall e, exn_cls e = Builtin RuntimeError -> Q s (Err e)) -> wp (_respond id body) Q s.
Proof.
  intros Hid Hs HQ HE. destruct (respond_cases id body s Hid Hs) as [(r & s' & Hr & E & Hsay)|(? & e & E & ?)];
    unfold wp; rewrite E; [by eapply HQ|by apply HE].
Qed.

Definition count_event (s : SimulatorTransport) : SimulatorTransport :=
  set_state (with_events (next_sequence (_event_sequence (sim_state s))) (sim_state s)) s.

Lemma wp_event body Q s : 0 <= _event_sequence (sim_state s) <= 65535 -> announces body -> slen body <= 52 ->
  (forall e s', says (VEvent e) (count_event s) s' -> Q s' (Ok tt)) -> wp (_emit_event body) Q s.
Proof.
  intros Hseq [Hp Hb Ha] Hl HQ. unfold _emit_event, upd. wp_steps. fold (count_event s).
  set (n := _event_sequence (sim_state (count_event s))).
  assert (1 <= n <= 65535) as Hn.
  { unfold n, count_event, next_sequence. cbn [sim_state set_state with_events with_mode _event_sequence]. destruct (Z.eqb_spec (_event_sequence (sim_state s)) 65535); lia. }
  destruct (Ha n) as [e He].
  destruct (emit_cases ("!" +:+ str_of_Z n +:+ " " +:+ body) (VEvent e) (count_event s)) as [(s' & E & Hs)|(Hlen & _)].
  - rewrite !plain_app, plain_num, Hp by lia. done.
  - intros line Hw Hlen. apply (event_frame n body e); try done. by apply plain_printable.
  - unfold wp. rewrite E. by eapply HQ.
  - exfalso. rewrite !slen_app in Hlen. pose proof (slen_num n ltac:(lia)).
    change (slen "!") with 1 in Hlen. change (slen " ") with 1 in Hlen. destruct (_crc_enabled _); lia.
Qed.

(** ** The bodies the simulator uses *)

Ltac speak := split; [vm_compute; reflexivity|discriminate|intros; vm_compute; reflexivity].
Ltac announce := split; [vm_compute; reflexivity|discriminate|intros; eexists; intros; vm_compute; reflexivity].

Lemma speaks_body body k kvs c n : body = render_body k kvs c n -> body_ok k kvs c n -> str_forall plain body = true -> speaks body.
Proof.
  intros -> Hb Hp. split; [done|apply body_nonempty|]. intros id. by rewrite response_body_render.
Qed.

Lemma field_num k n : name_syntax k = true -> 0 <= n -> field_ok (k, str_of_Z n).
Proof.
  intros Hk Hn. split; [done|]. split; [by apply str_of_Z_nonempty|]. eapply str_forall_impl, digits_str_of_Z, Hn.
  intros c Hc. unfold value_char. rewrite digit_printable by done. simpl.
  destruct (Ascii.eqb_spec c "=") as [->|]; [done|]. by destruct (Ascii.eqb_spec c " ") as [->|].
Qed.
Lemma field_const k v : name_syntax k = true -> v <> "" -> str_forall value_char v = true -> field_ok (k, v).
Proof. done. Qed.

Ltac fields_done :=
  repeat first [apply Forall_nil_2 | apply Forall_cons_2; [first [by apply field_num | by apply field_const]|]].
Ltac numeric k kvs c n :=
  intros; apply (speaks_body _ k kvs c n); [reflexivity|split; [fields_done|apply (bool_decide_unpack _); vm_compute; exact I|done|done|done]|];
  rewrite ?plain_app, ?plain_num by done; reflexivity.

Lemma speaks_busy n : 0 <= n -> speaks ("error:2001:busy active_id=" +:+ str_of_Z n).
Proof. numeric ERROR [("active_id", str_of_Z n)] 2001 "busy". Qed.
Lemma speaks_slot n : 0 <= n -> speaks ("done:slot=" +:+ str_of_Z n).
Proof. numeric DONE [("slot", str_of_Z n)] 0 "". Qed.
Lemma speaks_cancelled n : 0 <= n -> speaks ("error:2004:cancelled by=" +:+ str_of_Z n).
Proof. numeric ERROR [("by", str_of_Z n)] 2004 "cancelled". Qed.
Lemma speaks_range n : 0 <= n -> speaks ("error:1006:out_of_range key=slot min=0 max=" +:+ str_of_Z n).
Proof. numeric ERROR [("key", "slot"); ("min", "0"); ("max", str_of_Z n)] 1006 "out_of_range". Qed.
Lemma speaks_uptime n : 0 <= n -> speaks ("done:uptime_ms=" +:+ str_of_Z n).
Proof. numeric DONE [("uptime_ms", str_of_Z n)] 0 "". Qed.

(** The fields of each data line, as the host's parser sees them. *)
Definition data_speaks (line : string) (kvs : list (string * string)) : Prop :=
  "data:" +:+ line = render_body DATA kvs 0 "" /\ body_ok DATA kvs 0 "" /\ str_forall plain line = true.

Lemma data_speaks_body line kvs : data_speaks line kvs -> speaks ("data:" +:+ line).
Proof. intros (E & Hb & Hp). eapply speaks_body; [done|done|]. by rewrite plain_app, Hp. Qed.

Lemma data_response line kvs id : data_speaks line kvs -> _response_body id ("data:" +:+ line) = Ok (mkResponse id DATA (list_to_map kvs) None None).
Proof. intros (E & Hb & _). by rewrite E, response_body_render. Qed.

Ltac data_line :=
  split; [reflexivity|split; [split; [fields_done|apply (bool_decide_unpack _); vm_compute; exact I|done|done|done]|]];
  rewrite ?plain_app, ?plain_num by done; reflexivity.

Definition capability_fields (c : SimulatorConfig) : list (list (string * string)) :=
  [[("protocol", "2"); ("max_line", "64"); ("crc", if crc_available c then "optional" else "none")];
   [("queue_depth", "2"); ("slot_max", str_of_Z (slot_max c)); ("slot_count", str_of_Z (slot_count c))];
   [("pwm", "0"); ("airdrop", "1"); ("feed_sensor", "1")];
   [("feed_home", "1"); ("sort_home", "1")]].

Lemma capability_lines_speak c : 0 <= slot_max c -> 0 <= slot_count c -> Forall2 data_speaks (_capability_lines c) (capability_fields c).
Proof.
  intros. unfold _capability_lines, capability_fields. repeat first [apply Forall2_nil_2 | apply Forall2_cons_2]; try solve [data_line].
  destruct (crc_available c); data_line.
Qed.

Definition status_fields (x : SimState) : list (list (string * string)) :=
  [[("mode", _machine_mode x); ("phase", _phase x); ("feed_homed", int_of_bool (_feed_homed x))];
   [("sort_homed", int_of_bool (_sort_homed x)); ("motor_enabled", "0"); ("active_id", match _active_id x with None => "none" | Some i => str_of_Z i end)];
   [("fault_code", str_of_Z (_fault_code x)); ("queue_previous", str_of_Z (_queue_previous x)); ("queue_next", str_of_Z (_queue_next x))];
   [("config_generation", str_of_Z (_config_generation x))]].

Definition sim_phases : list string := ["idle"; "feed_home"; "sort_home"; "sort_move"].

Lemma status_lines_speak x : _machine_mode x ∈ status_modes -> _phase x ∈ sim_phases -> (forall i, _active_id x = Some i -> 0 <= i) ->
  0 <= _fault_code x -> 0 <= _queue_previous x -> 0 <= _queue_next x -> 0 <= _config_generation x ->
  Forall2 data_speaks (_status_lines x) (status_fields x).
Proof.
  intros Hm Hp Hi ? ? ? ?. unfold _status_lines, status_fields. repeat first [apply Forall2_nil_2 | apply Forall2_cons_2].
  - destruct (_feed_homed x); repeat (apply elem_of_cons in Hm as [->|Hm]; [repeat (apply elem_of_cons in Hp as [->|Hp]; [data_line|]); by apply elem_of_nil in Hp|]);
      by apply elem_of_nil in Hm.
  - destruct (_active_id x) as [i|]; [specialize (Hi i eq_refl)|]; destruct (_sort_homed x); data_line.
  - data_line.
  - data_line.
Qed.

(** ** Well-formed states *)

Definition v1_replies : list string :=
  ["Ready"; "ok"; " ok"; "protocol:2 available"; "protocol:2 ready"; "CS71 7.1.260714.6"; "error:command too long"; "error:invalid command"].

(** What went to the host is one line: a v1 reply, or a frame its parser accepts. *)
Definition entry_ok (e : TranscriptEntry) : Prop :=
  direction e = SIMULATOR_TO_HOST ->
  exists line, te_data e = line +:+ String (chr 10) ""
    /\ (line ∈ v1_replies \/ exists crc item, parse_v2_line line crc = Ok item).

Record config_ok (c : SimulatorConfig) : Prop := {
  co_duration : 1 <= operation_duration_ms c;
  co_jitter : 0 <= operation_jitter_ms c;
  co_count : 1 <= slot_count c <= 64;
  co_max : 1 <= slot_max c <= 102;
}.

Lemma config_make_ok c d : SimulatorConfig_make c = Ok d -> c = d /\ config_ok c.
Proof.
  unfold SimulatorConfig_make. repeat case_match; try done. intros [= <-]. bool_inv. split; [done|]. split; lia.
Qed.

(** The call that ends operation [i]. *)
Definition finishes (top i : Z) (c : sim_call) : Prop :=
  match c with
  | CallFail j | CallHomed j _ => j = i
  | CallSorted j slot => j = i /\ 0 <= slot <= top
  | CallProgress _ => False
  end.

(** What is scheduled for operation [i]: its completion, after its progress report if it has one. *)
Inductive completes (top i : Z) : list (ScheduledCall sim_call) -> Prop :=
| completes_last c : finishes top i (callback c) -> completes top i [c]
| completes_progress p c : callback p = CallProgress i -> finishes top i (callback c) -> completes top i [p; c].

Record state_ok (c : SimulatorConfig) (now : Z) (x : SimState) : Prop := {
  so_crc : _mode x = SimV1 -> _crc_enabled x = false /\ _active_id x = None;
  so_sequence : 0 <= _event_sequence x <= 65535;
  so_active : forall i, _active_id x = Some i -> 0 <= i <= 65535;
  so_machine : _machine_mode x ∈ status_modes;
  so_phase : _phase x ∈ sim_phases;
  so_idle : _active_id x = None -> _phase x = "idle";
  so_previous : 0 <= _queue_previous x <= slot_max c;
  so_next : 0 <= _queue_next x <= slot_max c;
  so_generation : _config_generation x = 0;
  so_fault : _fault_code x = 0 \/ _fault_code x = 3001;
  so_read : forall e, _read_error x = Some e -> os_error e = true;
  so_boot : _boot_at_ms x <= now;
}.

Definition calls_ok (c : SimulatorConfig) (k : ManualClock sim_call) : Prop :=
  sorted_calls (_scheduled k)
  /\ Forall (fun x => now_ms k <= due_ms x <= now_ms k + operation_duration_ms c + operation_jitter_ms c) (_scheduled k).

Definition pending_ok (s : SimulatorTransport) : Prop :=
  if sim_closed s then _scheduled (clock s) = []
  else match _active_id (sim_state s) with
       | None => _scheduled (clock s) = []
       | Some i => completes (slot_max (config s)) i (_scheduled (clock s))
       end.

Definition history_ok (s : SimulatorTransport) : Prop :=
  scenario_of (scenario (config s)) <> Some MALFORMED_FRAME -> Forall entry_ok (_transcript s).

Record sim_ok (s : SimulatorTransport) : Prop := {
  si_config : config_ok (config s);
  si_state : state_ok (config s) (now_ms (clock s)) (sim_state s);
  si_calls : calls_ok (config s) (clock s);
  si_pending : pending_ok s;
  si_history : history_ok s;
}.

Record stays (s s' : SimulatorTransport) : Prop := {
  st_config : config s' = config s;
  st_closed : sim_closed s' = sim_closed s;
  st_now : now_ms (clock s') = now_ms (clock s);
  st_incoming : _incoming s' = _incoming s;
}.
#[export] Instance stays_preorder : PreOrder stays.
Proof. split; [by split|]. intros x y z [] []. split; congruence. Qed.

Definition fine {A} (r : result A) : Prop :=
  match r with Ok _ => True | Err e => os_error e = true | OutOfFuel => False end.

(** Well-formed states stay well formed, whatever [m] raises. *)
Definition safe {A} (m : TM A) : Prop :=
  forall s, sim_ok s -> wp m (fun s' r => sim_ok s' /\ stays s s' /\ fine r) s.

Lemma runtime_os e : exn_cls e = Builtin RuntimeError -> os_error e = true.
Proof. unfold os_error. by intros ->. Qed.

(** *** The pieces under one line *)

Lemma history_said line s : (line ∈ v1_replies \/ exists crc item, parse_v2_line line crc = Ok item) -> history_ok s -> history_ok (said line s).
Proof. intros Hl Hh Hn. apply Forall_app. split; [by apply Hh|]. constructor; [|done]. intros _. by exists line. Qed.

Lemma says_parts item s s' : says item s s' ->
  (history_ok s -> history_ok s') /\ config s' = config s /\ clock s' = clock s /\ sim_closed s' = sim_closed s /\ sim_state s' = sim_state s.
Proof.
  intros (line & -> & _ & Hp). split_and!; try done. apply history_said. right. by eexists _, _.
Qed.

Lemma sim_ok_said line s : (line ∈ v1_replies \/ exists crc item, parse_v2_line line crc = Ok item) -> sim_ok s -> sim_ok (said line s) /\ stays s (said line s).
Proof. intros Hl []. split; [|by split]. split; try done. by apply history_said. Qed.

Lemma sim_ok_says item s s' : says item s s' -> sim_ok s -> sim_ok s' /\ stays s s'.
Proof. intros (line & -> & _ & Hp). apply sim_ok_said. right. by eexists _, _. Qed.

(** Replacing the state keeps what does not look at the operation. *)
Lemma sim_ok_state x s : _active_id x = _active_id (sim_state s) -> (state_ok (config s) (now_ms (clock s)) (sim_state s) -> state_ok (config s) (now_ms (clock s)) x) ->
  sim_ok s -> sim_ok (set_state x s) /\ stays s (set_state x s).
Proof. intros Ha Hx []. split; [|by split]. split; try done; [by apply Hx|]. unfold pending_ok in *. simpl. by rewrite Ha. Qed.

Lemma state_ok_events c now n x : 0 <= n <= 65535 -> state_ok c now x -> state_ok c now (with_events n x).
Proof. intros Hn []. by split. Qed.

Lemma next_sequence_range n : 0 <= n <= 65535 -> 0 <= next_sequence n <= 65535.
Proof. unfold next_sequence. destruct (Z.eqb_spec n 65535); lia. Qed.

Lemma sim_ok_count s : sim_ok s -> sim_ok (count_event s) /\ stays s (count_event s).
Proof.
  intros Hs. apply sim_ok_state; [done|intros Hx|done]. apply state_ok_events; [|done].
  apply next_sequence_range. by destruct Hx.
Qed.

(** *** The calculus *)

Lemma safe_ret {A} (a : A) : safe (mret a).
Proof. by intros s Hs. Qed.
Lemma says_raise {A} e : os_error e = true -> safe (raise (A:=A) e).
Proof. by intros He s Hs. Qed.
Lemma says_bind {A B} (m : TM A) (f : A -> TM B) : safe m -> (forall a, safe (f a)) -> safe (m ≫= f).
Proof.
  intros Hm Hf s Hs. apply wp_bind. eapply wp_conseq; [by apply Hm|]. intros s' [a|e|] (Hs' & Hst & Hr); [|done..].
  eapply wp_conseq; [by apply Hf|]. intros s2 r (? & ? & ?). split; [done|]. split; [by etrans|done].
Qed.
Lemma safe_get {A} (f : SimulatorTransport -> TM A) :
  (forall s, sim_ok s -> wp (f s) (fun s' r => sim_ok s' /\ stays s s' /\ fine r) s) -> safe (getS ≫= f).
Proof. intros Hf s Hs. apply wp_bind, wp_get. unfold bind_post. by apply Hf. Qed.
Lemma safe_read {A} (f : SimulatorTransport -> TM A) : (forall s, sim_ok s -> safe (f s)) -> safe (getS ≫= f).
Proof. intros Hf. apply safe_get. intros s Hs. by apply Hf. Qed.
Lemma safe_line line : line ∈ v1_replies -> safe (_emit_unprotected line).
Proof. intros Hl s Hs. unfold wp. rewrite unprotected_said. simpl. edestruct sim_ok_said as [? ?]; [by left|done|done]. Qed.

Lemma safe_respond id body : 0 <= id <= 65535 -> speaks body -> safe (_respond id body).
Proof.
  intros Hid Hb s Hs. apply wp_respond_any; [done..| |].
  - intros r s' _ Hsay. destruct (sim_ok_says _ _ _ Hsay Hs). done.
  - intros e He. split; [done|]. split; [done|]. by apply runtime_os.
Qed.

Lemma safe_event body : announces body -> slen body <= 52 -> safe (_emit_event body).
Proof.
  intros Hb Hl s Hs. apply wp_event; [apply Hs|done..|]. intros e s' Hsay.
  destruct (sim_ok_count s Hs) as [Hc Hst]. destruct (sim_ok_says _ _ _ Hsay Hc). split; [done|]. split; [by etrans|done].
Qed.

Lemma safe_upd f : (forall s, sim_ok s -> sim_ok (set_state (f (sim_state s)) s)) -> safe (upd f).
Proof. intros Hf s Hs. apply wp_modify. split; [by apply Hf|]. by split. Qed.

Lemma safe_data id lines kvs : 0 <= id <= 65535 -> Forall2 data_speaks lines kvs -> safe (_respond_data id lines).
Proof.
  intros Hid Hl. unfold _respond_data. apply says_bind; [|intros; apply safe_respond; [done|speak]].
  induction Hl; cbn [respond_lines]; [apply safe_ret|]. apply says_bind; [|done].
  apply safe_respond; [done|]. by eapply data_speaks_body.
Qed.

(** *** Queries and modes *)

Ltac member := apply (bool_decide_unpack _); vm_compute; exact I.
Ltac bounded := vm_compute; discriminate.

Lemma safe_v1 text : safe (_handle_v1 text).
Proof.
  unfold _handle_v1. apply safe_read. intros s _.
  repeat case_match; try (apply safe_line; member).
  apply says_bind; [apply safe_line; member|intros]. apply safe_upd. intros x Hx.
  apply sim_ok_state; [done| |done]. intros []. by split.
Qed.

(** Under a known operation and mode; [respond] and [event] leave both alone. *)
Lemma wp_respond_ok id body (Q : SimulatorTransport -> result unit -> Prop) s : 0 <= id <= 65535 -> speaks body -> sim_ok s ->
  (forall s', sim_ok s' -> stays s s' -> clock s' = clock s -> sim_state s' = sim_state s -> Q s' (Ok tt)) ->
  (forall e, os_error e = true -> Q s (Err e)) -> wp (_respond id body) Q s.
Proof.
  intros Hid Hb Hs HOk HErr. apply wp_respond_any; [done..| |].
  - intros r s' _ Hsay. destruct (sim_ok_says _ _ _ Hsay Hs). destruct (says_parts _ _ _ Hsay) as (_ & _ & ? & _ & ?). by apply HOk.
  - intros e He. by apply HErr, runtime_os.
Qed.

Lemma safe_leave id s : 0 <= id <= 65535 -> sim_ok s -> _active_id (sim_state s) = None ->
  wp (_ ← _respond id "done:protocol=1"; upd (with_mode SimV1 false 0)) (fun s' r => sim_ok s' /\ stays s s' /\ fine r) s.
Proof.
  intros Hid Hs Ha. apply wp_bind. apply wp_respond_ok; [done|speak|done| |by intros].
  intros s' Hs' Hst _ E. apply wp_modify. destruct (sim_ok_state (with_mode SimV1 false 0 (sim_state s')) s') as [? ?]; [done| |done|].
  - intros []. by split; try done; rewrite E.
  - split; [done|]. split; [by etrans|done].
Qed.

Lemma safe_crc b s : sim_ok s -> _mode (sim_state s) = SimV2 -> sim_ok (set_state (with_crc b (sim_state s)) s) /\ stays s (set_state (with_crc b (sim_state s)) s).
Proof. intros Hs Hm. apply sim_ok_state; [done| |done]. intros []. by split; try done; simpl; rewrite Hm. Qed.

Lemma safe_crc_on id s : 0 <= id <= 65535 -> sim_ok s -> _mode (sim_state s) = SimV2 ->
  wp (_enable_crc id) (fun s' r => sim_ok s' /\ stays s s' /\ fine r) s.
Proof.
  intros Hid Hs Hm. unfold _enable_crc. wp_steps. destruct (negb _); [apply safe_respond; [done|speak|done]|].
  unfold upd. wp_steps. destruct (safe_crc true s Hs Hm) as [Hs' Hst].
  eapply wp_conseq; [by apply (safe_respond id "done:crc=on"); [|speak|]|]. simpl. intros s2 r (? & ? & ?). split; [done|]. split; [by etrans|done].
Qed.

Lemma safe_crc_off id s : 0 <= id <= 65535 -> sim_ok s -> _mode (sim_state s) = SimV2 ->
  wp (_disable_crc id) (fun s' r => sim_ok s' /\ stays s s' /\ fine r) s.
Proof.
  intros Hid Hs Hm. unfold _disable_crc. apply wp_bind. apply wp_respond_ok; [done|speak|done| |by intros].
  intros s' Hs' Hst _ E. apply wp_modify. destruct (safe_crc false s' Hs') as [? ?]; [by rewrite E|].
  split; [done|]. split; [by etrans|done].
Qed.

(** *** Starting an operation *)

(** Between the acceptance of operation [i] and the scheduling of its completion. *)
Record begun (i : Z) (s : SimulatorTransport) : Prop := {
  bg_config : config_ok (config s);
  bg_state : state_ok (config s) (now_ms (clock s)) (sim_state s);
  bg_calls : calls_ok (config s) (clock s);
  bg_history : history_ok s;
  bg_open : sim_closed s = false;
  bg_active : _active_id (sim_state s) = Some i;
}.

Lemma begun_says i item s s' : says item s s' -> begun i s -> begun i s' /\ stays s s' /\ clock s' = clock s.
Proof.
  intros (line & -> & _ & Hp) []. split_and!; try done. split; try done. apply history_said; [|done]. right. by eexists _, _.
Qed.
Lemma begun_count i s : begun i s -> begun i (count_event s).
Proof. intros []. split; try done. simpl. apply state_ok_events; [|done]. by apply next_sequence_range, bg_state0. Qed.

Lemma begun_respond i id body Q s : 0 <= id <= 65535 -> speaks body -> slen body <= 52 -> begun i s ->
  (forall s', begun i s' -> stays s s' -> clock s' = clock s -> Q s' (Ok tt)) -> wp (_respond id body) Q s.
Proof.
  intros Hid Hb Hl Hs HQ. apply wp_respond; [done..|]. intros r s' _ Hsay.
  destruct (begun_says i _ _ _ Hsay Hs) as (? & ? & ?). by apply HQ.
Qed.
Lemma begun_event i body Q s : announces body -> slen body <= 52 -> begun i s ->
  (forall s', begun i s' -> stays s s' -> clock s' = clock s -> Q s' (Ok tt)) -> wp (_emit_event body) Q s.
Proof.
  intros Hb Hl Hs HQ. apply wp_event; [apply Hs|done..|]. intros e s' Hsay.
  destruct (begun_says i _ _ _ Hsay (begun_count _ _ Hs)) as (? & ? & ?). apply HQ; [done| |done]. by destruct H0.
Qed.

Definition operation_phase (operation phase : string) : Prop := (operation, phase) ∈ [("home", "feed_home"); ("home", "sort_home"); ("sort", "sort_move")].

Lemma operation_cases operation phase : operation_phase operation phase ->
  phase ∈ sim_phases /\ speaks ("accepted:operation=" +:+ operation) /\ slen ("accepted:operation=" +:+ operation) <= 52.
Proof.
  intros Ho. repeat (apply elem_of_cons in Ho as [[= -> ->]|Ho]; [split; [member|split; [speak|bounded]]|]).
  by apply elem_of_nil in Ho.
Qed.

Lemma announces_state machine phase : machine ∈ status_modes -> phase ∈ sim_phases ->
  announces ("state:mode=" +:+ machine +:+ " phase=" +:+ phase) /\ slen ("state:mode=" +:+ machine +:+ " phase=" +:+ phase) <= 52.
Proof.
  intros Hm Hp. repeat (apply elem_of_cons in Hm as [->|Hm]; [|]); try by apply elem_of_nil in Hm.
  all: repeat (apply elem_of_cons in Hp as [->|Hp]; [split; [announce|bounded]|]); by apply elem_of_nil in Hp.
Qed.

Lemma wp_start_operation id operation phase Q s : 0 <= id <= 65535 -> operation_phase operation phase ->
  sim_ok s -> sim_closed s = false -> _mode (sim_state s) = SimV2 -> _active_id (sim_state s) = None ->
  (forall s', begun id s' -> stays s s' -> _scheduled (clock s') = [] -> Q s' (Ok true)) ->
  wp (_start_operation id operation phase) Q s.
Proof.
  intros Hid Hop Hs Hc Hm Ha HQ. unfold _start_operation, upd. wp_steps. rewrite Ha. wp_steps.
  set (machine := if _ && _ then "running" else "recovering").
  assert (machine ∈ status_modes) as Hmach by (unfold machine; case_match; member).
  destruct (operation_cases _ _ Hop) as (Hph & Hsp & Hlen). destruct (announces_state machine phase Hmach Hph) as [Han Hal].
  pose proof (si_pending _ Hs) as Hp. unfold pending_ok in Hp. rewrite Hc, Ha in Hp.
  set (s1 := set_state _ s). assert (begun id s1) as Hb.
  { destruct Hs as [? [] ? ? ?]. split; try done. split; try done; simpl; [by rewrite Hm|by intros i [= <-]]. }
  eapply begun_respond; [done..|]. intros s2 Hb2 Hst2 Hk2. wp_steps. eapply begun_event; [done..|].
  intros s3 Hb3 Hst3 Hk3. wp_steps. apply HQ; [done| |by rewrite Hk3, Hk2]. etrans; [|done]. etrans; [|done]. by split.
Qed.

Lemma wp_delay i Q s : begun i s ->
  (forall d l, operation_duration_ms (config s) <= d <= operation_duration_ms (config s) + operation_jitter_ms (config s) ->
     begun i (set_random l s) -> Q (set_random l s) (Ok d)) -> wp _operation_delay_ms Q s.
Proof.
  intros [] HQ. unfold _operation_delay_ms. wp_steps. unfold wp, putS. simpl. apply HQ; [|by split].
  destruct bg_config0. destruct (_random s) as [|r l]; [lia|]. pose proof (Z.mod_pos_bound r (operation_jitter_ms (config s) + 1)). lia.
Qed.

Definition later (d : Z) (c : sim_call) (s : SimulatorTransport) : SimulatorTransport :=
  set_clock (mkManualClock (_now_ms (clock s)) (_sequence (clock s) + 1)
    (heappush (mkScheduledCall (_now_ms (clock s) + d) (_sequence (clock s) + 1) c) (_scheduled (clock s)))) s.

Lemma wp_schedule i d c Q s : begun i s -> 0 <= d <= operation_duration_ms (config s) + operation_jitter_ms (config s) ->
  (begun i (later d c s) -> Q (later d c s) (Ok tt)) -> wp (_schedule d c) Q s.
Proof.
  intros [] Hd HQ. unfold _schedule. wp_steps. unfold call_later. destruct (Z.ltb_spec d 0); [lia|]. wp_steps.
  unfold wp, putS. simpl. apply HQ. split; try done. destruct bg_calls0 as [Hs Hf]. split; simpl; [by apply heappush_sorted|].
  apply Forall_forall. intros x [->|Hx]%elem_of_heappush; [simpl; unfold now_ms in *; simpl; lia|]. by eapply Forall_forall in Hf.
Qed.

Lemma begun_scheduled i s : begun i s -> completes (slot_max (config s)) i (_scheduled (clock s)) -> sim_ok s.
Proof. intros [] Hc. split; try done. unfold pending_ok. by rewrite bg_open0, bg_active0. Qed.

(** *** The operations *)

(** A state in which an operation may start. *)
Record idle2 (s : SimulatorTransport) : Prop := {
  i2_ok : sim_ok s;
  i2_open : sim_closed s = false;
  i2_mode : _mode (sim_state s) = SimV2;
  i2_active : _active_id (sim_state s) = None;
}.

Abbreviation good s := (fun s' r => sim_ok s' /\ stays s s' /\ fine r).

(** The completion of an operation without a progress report. *)
Lemma wp_one_call i c s : begun i s -> _scheduled (clock s) = [] -> finishes (slot_max (config s)) i c ->
  wp (d ← _operation_delay_ms; _schedule d c) (good s) s.
Proof.
  intros Hb Hk Hc. apply wp_bind. eapply wp_delay; [done|]. intros d l Hd Hb'. wp_steps.
  eapply wp_schedule; [done|simpl; destruct (bg_config _ _ Hb'); simpl in *; lia|]. intros Hb2.
  split; [|by split]. eapply begun_scheduled; [done|]. simpl. rewrite Hk. by constructor.
Qed.

Lemma safe_busy id s : 0 <= id <= 65535 -> sim_ok s -> forall n, 0 <= n -> wp (_respond id ("error:2001:busy active_id=" +:+ str_of_Z n)) (good s) s.
Proof. intros Hid Hs n Hn. apply safe_respond; [done|by apply speaks_busy|done]. Qed.

Lemma good_trans {A} (m : TM A) s s1 : stays s s1 -> wp m (good s1) s1 -> wp m (good s) s1.
Proof. intros Hst Hm. eapply wp_conseq; [done|]. intros s2 r (? & ? & ?). split; [done|]. split; [by etrans|done]. Qed.

Lemma dec_go_nonneg acc t : 0 <= acc -> str_forall is_digit t = true -> 0 <= dec_go acc t.
Proof.
  revert acc. induction t as [|c t IH]; intros acc Ha Ht; [done|]. simpl in *. apply andb_true_iff in Ht as [Hc Ht].
  apply IH; [|done]. unfold is_digit in Hc. bool_inv. lia.
Qed.

Lemma safe_sort id text s : 0 <= id <= 65535 -> idle2 s -> wp (_start_sort id text) (good s) s.
Proof.
  intros Hid [Hs Hc Hm Ha]. unfold _start_sort. wp_steps. destruct (_ || _) eqn:Hdig; [apply safe_respond; [done|speak|done]|].
  destruct (Z.ltb_spec (slot_max (config s)) (int_of_digits text)).
  { apply safe_respond; [done|apply speaks_range; destruct Hs as [[] ? ? ? ?]; lia|done]. }
  apply orb_false_iff in Hdig as [_ Hdig]. apply negb_false_iff in Hdig.
  case_bool_decide; [apply safe_respond; [done|speak|done]|]. destruct (negb _); [apply safe_respond; [done|speak|done]|].
  wp_steps. eapply wp_start_operation; [done|unfold operation_phase; member|done..|]. intros s1 Hb Hst Hk. wp_steps. cbn [negb].
  apply good_trans; [done|]. apply (wp_one_call id); [done..|]. rewrite (st_config _ _ Hst). split; [done|].
  split; [|done]. by apply dec_go_nonneg.
Qed.

Lemma safe_fault id s : 0 <= id <= 65535 -> idle2 s -> wp (_start_injected_fault id) (good s) s.
Proof.
  intros Hid [Hs Hc Hm Ha]. unfold _start_injected_fault. wp_steps.
  eapply wp_start_operation; [done|unfold operation_phase; member|done..|]. intros s1 Hb Hst Hk. wp_steps. cbn [negb].
  apply good_trans; [done|]. by apply (wp_one_call id).
Qed.

Lemma safe_home id command s : 0 <= id <= 65535 -> idle2 s -> wp (_start_home id command) (good s) s.
Proof.
  intros Hid [Hs Hc Hm Ha]. unfold _start_home. wp_steps. eapply wp_start_operation; [done| |done..|].
  { unfold operation_phase. destruct (homes_feeder command); member. }
  intros s1 Hb Hst Hk. wp_steps. cbn [negb]. apply good_trans; [done|]. wp_step. eapply wp_delay; [done|]. intros d l Hd Hb'. wp_steps.
  assert (1 <= d) as Hd1 by (destruct (bg_config _ _ Hb'); simpl in *; lia).
  case_bool_decide.
  - wp_steps. eapply begun_respond; [done|speak|bounded|done|]. intros s2 Hb2 Hst2 Hk2. wp_steps.
    assert (Z.max 1 (d / 2) <= d) as Hmax by (pose proof (Z.div_le_upper_bound d 2 d); lia).
    destruct Hst2 as [Hc2 ? ?]. cbn [config set_random] in Hc2.
    eapply wp_schedule; [done|rewrite Hc2; lia|]. intros Hb3. wp_steps.
    eapply wp_schedule; [done|cbn [later config set_clock]; rewrite Hc2; lia|]. intros Hb4. split; [|by split].
    eapply begun_scheduled; [done|]. simpl. rewrite Hk2. simpl. rewrite Hk. cbn [heappush].
    rewrite call_lt_later by (simpl; lia). by constructor.
  - wp_steps. eapply wp_schedule; [done|simpl; lia|]. intros Hb3. split; [|by split].
    eapply begun_scheduled; [done|]. simpl. rewrite Hk. by constructor.
Qed.

(** *** The stops *)

(** The state a stop leaves, before it reports. *)
Lemma sim_ok_stopped s : sim_ok s -> sim_ok (set_state (stop_machine (sim_state s)) (set_clock (clock_clear (clock s)) s))
  /\ stays s (set_state (stop_machine (sim_state s)) (set_clock (clock_clear (clock s)) s)).
Proof.
  intros [? [] [Hsort _] ? ?]. split; [|by split]. split; try done.
  - split; try done; simpl; [by intros E; destruct (so_crc0 E)|member|member].
  - split; simpl; constructor.
  - unfold pending_ok. simpl. by case_match.
Qed.

Lemma safe_priority_stop : safe _handle_priority_stop.
Proof.
  intros s Hs. destruct (sim_ok_stopped s Hs) as [Hs1 Hst1]. unfold _handle_priority_stop, clear_clock, upd. do 5 wp_step.
  apply (good_trans _ _ _ Hst1).
  assert (safe ((match _mode (sim_state s) with SimV2 => _emit_event "state:mode=stopped phase=idle" | SimV1 => mret tt end)
    ≫= fun _ => _emit_unprotected "stopped")) as Htail; [|by apply Htail].
  apply says_bind.
  - destruct (_mode _); [apply safe_ret|apply safe_event; [announce|bounded]].
  - intros _ s2 Hs2. unfold wp. rewrite unprotected_said. simpl. edestruct sim_ok_said as [? ?]; [|exact Hs2|done].
    right. by exists false, VStopped.
Qed.

Lemma safe_stopped id : 0 <= id <= 65535 -> safe (_ ← _emit_event "state:mode=stopped phase=idle"; _respond id "done:mode=stopped").
Proof. intros Hid. apply says_bind; [apply safe_event; [announce|bounded]|intros _; apply safe_respond; [done|speak]]. Qed.

Lemma safe_correlated_stop id : 0 <= id <= 65535 -> safe (_handle_correlated_stop id).
Proof.
  intros Hid s Hs. unfold _handle_correlated_stop, clear_clock, upd. wp_steps.
  set (s1 := set_clock _ s). set (tail := fun _ : unit => _).
  assert (forall s2, stays s1 s2 -> sim_ok (set_state (stop_machine (sim_state s2)) s2) -> wp (tail tt) (good s) s2) as Htail.
  { intros s2 [E1 E2 E3 E4] Hs2. unfold tail. wp_step. wp_step. wp_step.
    apply (good_trans _ _ (set_state (stop_machine (sim_state s2)) s2)); [split; [exact E1|exact E2|exact E3|exact E4]|].
    by apply (safe_stopped id Hid). }
  destruct (sim_ok_stopped s Hs) as [Hs1 _].
  destruct (_active_id (sim_state s)) as [a|] eqn:Ha.
  - apply wp_respond; [by apply (so_active _ _ _ (si_state _ Hs))|apply speaks_cancelled; lia| |].
    { rewrite slen_app. change (slen _) with 24 at 1. pose proof (slen_num id Hid). lia. }
    intros r s2 _ Hsay. unfold bind_post at 1. destruct Hsay as (line & -> & Hlen & Hp). apply Htail; [by split|].
    eapply sim_ok_says; [|exact Hs1]. exists line. split; [reflexivity|]. split; [done|exact Hp].
  - wp_step. unfold bind_post at 1. by apply Htail.
Qed.

(** *** The adverse scenarios *)

Lemma safe_scenario id command s : 0 <= id <= 65535 -> sim_ok s -> sim_closed s = false -> _mode (sim_state s) = SimV2 ->
  wp (_inject_adverse_scenario id command) (fun s' r => good s s' r /\ (r = Ok false -> s' = s)) s.
Proof.
  intros Hid Hs Hc Hm. unfold _inject_adverse_scenario. wp_steps. destruct (scenario_of _) as [sc|] eqn:Hsc; [|by split].
  destruct (negb _); [by split|]. wp_step.
  assert (forall m : TM unit, wp m (good s) s ->
    wp m (bind_post (fun _ => mret true) (fun s' r => good s s' r /\ (r = Ok false -> s' = s))) s) as Hret.
  { intros m Hm'. eapply wp_conseq; [done|]. by intros s' [[]|e|]. }
  apply Hret. destruct sc.
  - apply wp_modify. destruct (sim_ok_state (with_read_error (Some (mk_exn (Builtin OSError) "simulated serial disconnect")) (sim_state s)) s) as [? ?]; try done.
    intros []. split; try done. by intros e [= <-].
  - destruct (announces_state _ "idle" (so_machine _ _ _ (si_state _ Hs))) as [Han Hal]; [member|].
    refine (says_bind _ _ (safe_event _ Han Hal) _ s Hs). intros _. refine (says_bind _ _ _ _); [|intros _].
    + apply safe_upd. intros s' Hs'. by apply sim_ok_count.
    + refine (says_bind _ _ (safe_event _ Han Hal) _). intros _. apply safe_respond; [done|speak].
  - destruct (_active_id (sim_state s)) as [a|] eqn:Ha; [|by apply safe_fault].
    unfold _start_injected_fault, _start_operation. wp_steps. rewrite Ha. wp_steps. apply wp_respond_ok; [done|apply speaks_busy, Hs; done|done| |].
    + intros s' ? ? _ _. by wp_steps.
    + done.
  - unfold wp. rewrite unprotected_said. split; [|by split]. destruct Hs. split; try done. by intros Hne.
  - apply safe_respond; [|speak|done]. destruct (Z.eqb_spec id 65535); lia.
  - by split.
Qed.

(** *** Commands *)

Lemma safe_dispatch_command id command s : 0 <= id <= 65535 -> sim_ok s -> sim_closed s = false -> _mode (sim_state s) = SimV2 ->
  (_active_id (sim_state s) = None \/ state_changing command = false) -> wp (_dispatch_command id command) (good s) s.
Proof.
  intros Hid Hs Hc Hm Hst. unfold _dispatch_command. wp_steps. cbv zeta.
  assert (forall c, command = c -> state_changing c = true -> idle2 s) as Hidle.
  { intros c -> E. split; try done. destruct Hst as [?|Hst]; [done|]. by rewrite E in Hst. }
  pose proof (si_config _ Hs) as [_ _ Hcount Hmax]. pose proof (si_state _ Hs) as Hx.
  repeat match goal with
  | |- wp (if bool_decide (command = ?c) then _ else _) _ _ => destruct (decide (command = c)) as [E|E];
      [rewrite (bool_decide_true (command = c) E)|rewrite (bool_decide_false (command = c) E); clear E]
  end.
  - eapply (safe_data _ _ [[("protocol", "2")]]); [done| |done]. apply Forall2_cons_2; [data_line|done].
  - eapply safe_data; [done|apply capability_lines_speak; lia|done].
  - eapply safe_data; [done| |done]. destruct Hx. apply status_lines_speak; try done; try lia. intros i Hi. by apply so_active0.
  - eapply (safe_data _ _ [_; [("queue_previous", _)]; [("queue_next", _)]]); [done| |done].
    destruct Hx. repeat first [apply Forall2_nil_2 | apply Forall2_cons_2].
    + instantiate (1 := [("queue_depth", "2")]). data_line.
    + assert (0 <= _queue_previous (sim_state s)) by lia. data_line.
    + assert (0 <= _queue_next (sim_state s)) by lia. data_line.
  - apply safe_respond; [done|apply speaks_uptime; destruct Hx; lia|done].
  - refine (says_bind _ _ (safe_respond _ _ Hid _) (fun _ => safe_respond _ _ Hid _) s Hs); speak.
  - by apply safe_crc_on.
  - by apply safe_crc_off.
  - apply safe_leave; [done|done|]. exact (i2_active _ (Hidle _ E eq_refl)).
  - destruct (startswith command "sortto:") eqn:Hsort.
    + apply safe_sort; [done|]. apply (Hidle command); [done|]. unfold state_changing. by rewrite Hsort, orb_true_r.
    + case_bool_decide as Hh; [|apply safe_respond; [done|speak|done]].
      apply safe_home; [done|]. apply (Hidle command); [done|]. unfold state_changing. apply orb_true_iff. left.
      apply bool_decide_true. set_solver.
Qed.

Lemma crc_error_only f required :
  match remove_and_verify_crc f required with Ok _ => True | Err e => isinstance e (Protocol CrcError) = true | OutOfFuel => False end.
Proof. unfold remove_and_verify_crc. repeat case_match; unfold throw in *; by simplify_eq. Qed.

Lemma match_request_id body digits command : match_request body = Some (digits, command) -> 0 <= int_of_digits (default "0" digits).
Proof.
  unfold match_request. destruct (_ || _); [done|]. destruct body as [|c t]; [by intros [= <- _]|].
  destruct (str_span is_digit t) as [ds rest] eqn:Hspan. destruct rest as [|d tail]; [by intros [= <- _]|].
  destruct (_ && _); [|by intros [= <- _]]. intros [= <- _]. simpl. apply str_span_spec in Hspan as (_ & Hd & _). by apply dec_go_nonneg.
Qed.

Lemma announces_bad_id n : 0 <= n -> announces ("reject:1003:bad_id id=" +:+ str_of_Z n).
Proof.
  intros Hn. split; [by rewrite plain_app, plain_num|discriminate|]. intros seq.
  exists (mkEvent seq REJECT (list_to_map [("id", str_of_Z n)]) (Some 1003) (Some "bad_id")). intros whole.
  assert (parse_fields ("id=" +:+ str_of_Z n) = Ok (list_to_map [("id", str_of_Z n)])) as Hf.
  { apply (parse_fields_render [("id", str_of_Z n)]); [fields_done|apply (bool_decide_unpack _); vm_compute; exact I]. }
  revert Hf. generalize (str_of_Z n). intros t Hf.
  change (_event_body seq whole ("reject:1003:bad_id id=" +:+ t))
    with (r ← (f ← parse_fields ("id=" +:+ t); mret (1003, "bad_id", f));
          let '(c, n, f) := r in @mret result _ _ (mkEvent seq REJECT f (Some c) (Some n))).
  by rewrite Hf.
Qed.

Lemma safe_v2 text s : sim_ok s -> sim_closed s = false -> _mode (sim_state s) = SimV2 -> wp (_handle_v2 text) (good s) s.
Proof.
  intros Hs Hc Hm. unfold _handle_v2. wp_steps.
  assert (forall body, announces body -> slen body <= 52 -> wp (_emit_event body) (good s) s) as Hev
    by (intros; by apply safe_event).
  destruct (_ <? _); [apply Hev; [announce|bounded]|].
  pose proof (crc_error_only text (_crc_enabled (sim_state s))) as Hcrc.
  destruct (remove_and_verify_crc _ _) as [body|e|]; [|rewrite Hcrc; apply Hev; [announce|bounded]|done].
  destruct (match_request body) as [[digits command]|] eqn:Hreq; [|apply Hev; [announce|bounded]].
  apply match_request_id in Hreq. cbv zeta. set (id := int_of_digits _) in *. clearbody id.
  destruct (Z.ltb_spec 65535 id); [apply Hev; [announce|bounded]|]. simpl orb.
  destruct (_ && _); [apply Hev; [announce|bounded]|]. destruct (_ || _); [apply Hev; [announce|bounded]|].
  destruct (_ && _).
  { apply Hev; [by apply announces_bad_id|]. rewrite slen_app. pose proof (slen_num id). change (slen _) with 22 at 1. lia. }
  destruct (_ && _); [apply safe_respond; [done|speak|done]|]. case_bool_decide; [apply safe_correlated_stop; [lia|done]|].
  wp_step. eapply wp_conseq; [apply safe_scenario; [lia|done..]|]. intros s' r [Hgood Hsame].
  destruct r as [[|]|e|]; [wp_steps; by destruct Hgood as (? & ? & _)| |by destruct Hgood..].
  rewrite (Hsame eq_refl). wp_steps.
  destruct (_active_id (sim_state s)) as [a|] eqn:Ha; [|apply safe_dispatch_command; [lia|done..|by left]].
  destruct (state_changing command) eqn:Hsc; [|apply safe_dispatch_command; [lia|done..|by right]].
  apply safe_busy; [lia|done|]. apply (so_active _ _ _ (si_state _ Hs) a Ha).
Qed.

(** *** Lines, writes, advances, resets *)

Lemma safe_handle_line raw s : sim_ok s -> sim_closed s = false -> wp (_handle_line raw) (good s) s.
Proof.
  intros Hs Hc. unfold _handle_line. case_bool_decide; [by apply safe_priority_stop|]. wp_steps.
  destruct (encode_ascii raw) as [text|]; destruct (_mode (sim_state s)) eqn:Hm.
  - by apply safe_v1.
  - by apply safe_v2.
  - apply safe_line; [member|done].
  - apply safe_event; [announce|bounded|done].
Qed.

Lemma sim_ok_in d s : sim_ok s -> sim_ok (set_in d s).
Proof. by intros []. Qed.

(** Up to the bytes still to be parsed. *)
Definition stays_but_in (s s' : SimulatorTransport) : Prop := exists d, stays (set_in d s) s'.
Abbreviation handled s := (fun s' r => sim_ok s' /\ stays_but_in s s' /\ fine r).

Lemma safe_lines fuel s : sim_ok s -> sim_closed s = false -> (String.length (_incoming s) <= fuel)%nat -> wp (handle_lines fuel) (handled s) s.
Proof.
  revert s. induction fuel as [|fuel IH]; intros s Hs Hc Hf; cbn [handle_lines]; wp_step; wp_step; wp_step;
    destruct (str_partition (chr 10) (_incoming s)) as [[raw rest]|] eqn:Hp;
    try (wp_step; split; [done|]; split; [by exists (_incoming s)|done]).
  all: apply str_partition_spec in Hp as [Hp _]; rewrite Hp, str_length_app in Hf; simpl in Hf.
  { lia. }
  wp_steps. eapply wp_conseq; [apply safe_handle_line; [by apply sim_ok_in|done]|].
  intros s1 r (Hs1 & Hst & Hr). destruct r as [[]|e|]; [|by split; [|split; [exists rest|]]|done]. wp_steps.
  destruct Hst as [E1 E2 E3 E4]. simpl in *. eapply wp_conseq; [apply IH; [done|congruence|rewrite E4; lia]|].
  intros s2 r2 (Hs2 & (d & [F1 F2 F3 F4]) & Hr2). split; [done|]. split; [|done]. exists d. split; simpl in *; congruence.
Qed.

Lemma safe_write data s : sim_ok s ->
  wp (sim_write data) (fun s' r => handled s s' r /\ (r = Ok (Some (slen data)) \/ exists e, r = Err e) /\ (sim_closed s = true -> s' = s)) s.
Proof.
  intros Hs. unfold sim_write. wp_steps. destruct (sim_closed s) eqn:Hc.
  { wp_step. split; [split; [done|split; [exists (_incoming s); by split|done]]|]. split; [right; by eexists|done]. }
  unfold _record. wp_steps. set (s1 := set_in _ _).
  assert (sim_ok s1) as Hs1.
  { destruct Hs. split; try done. intros Hne. apply Forall_app. split; [by apply si_history0|]. by constructor. }
  eapply wp_conseq; [by apply safe_lines|]. intros s2 r (Hs2 & (d & [E1 E2 E3 E4]) & Hr).
  assert (stays_but_in s s2) as Hst by (exists d; split; simpl in *; congruence).
  destruct r as [[]|e|]; [wp_steps; split; [by split|split; [by left|done]]|by split; [|split; [right; eexists|]]|done].
Qed.

(** ** What an advance of the clock says *)

Definition wire (lines : list string) : string := foldr (fun l rest => l +:+ String (chr 10) rest) "" lines.

(** Between two states the host was sent lines that it parses as [items]. *)
Definition spoke (crc : bool) (items : list v2_item) (s s' : SimulatorTransport) : Prop :=
  exists lines, Forall2 (fun l i => parse_v2_line l crc = Ok i /\ slen l <= 64) lines items /\ _outgoing s' = _outgoing s +:+ wire lines.

(** The item ends request [i]. *)
Definition ends_request (i : Z) (item : v2_item) : bool :=
  match item with VResponse r => terminal r && (request_id r =? i) | _ => false end.
Definition count_ends (i : Z) (items : list v2_item) : nat := length (List.filter (ends_request i) items).

Lemma wire_app a b : wire (a ++ b) = wire a +:+ wire b.
Proof. induction a as [|x a IH]; [done|]. cbn [app wire foldr] in *. unfold wire in *. simpl. by rewrite IH, <- str_app_assoc, str_app_cons. Qed.

Lemma wire_length crc lines items : Forall2 (fun l i => parse_v2_line l crc = Ok i /\ slen l <= 64) lines items ->
  (String.length (wire lines) <= 65 * length items)%nat.
Proof.
  induction 1 as [|l i lines items [_ Hl] _ IH]; [simpl; lia|]. unfold wire in *. simpl. rewrite str_length_app. simpl. unfold slen in Hl. lia.
Qed.

Lemma spoke_nil crc s s' : _outgoing s' = _outgoing s -> spoke crc [] s s'.
Proof. intros E. exists []. split; [done|]. simpl. by rewrite str_app_nil_r. Qed.
Lemma spoke_app crc a b s1 s2 s3 : spoke crc a s1 s2 -> spoke crc b s2 s3 -> spoke crc (a ++ b) s1 s3.
Proof.
  intros (la & Ha & Ea) (lb & Hb & Eb). exists (la ++ lb). split; [by apply Forall2_app|]. by rewrite Eb, Ea, wire_app, str_app_assoc.
Qed.
Lemma spoke_says crc item s s' : says item s s' -> _crc_enabled (sim_state s) = crc -> spoke crc [item] s s'.
Proof.
  intros (line & -> & Hl & Hp) <-. exists [line]. split; [by repeat constructor|]. done.
Qed.

Lemma done_kind id t r : _response_body id ("done:" +:+ t) = Ok r -> terminal r = true /\ request_id r = id.
Proof. unfold _response_body. intros E. repeat case_match; res_inv; simplify_eq/=; try done. Qed.
Lemma error_kind id t r : _response_body id ("error:" +:+ t) = Ok r -> terminal r = true /\ request_id r = id.
Proof.
  unfold _response_body. decide_ifs. prefix_app t. intros E. res_inv. by repeat case_match; res_inv; simplify_eq/=.
Qed.
Lemma progress_kind id t r : _response_body id ("progress:" +:+ t) = Ok r -> terminal r = false.
Proof.
  unfold _response_body. decide_ifs. prefix_app t. intros E. by res_inv.
Qed.

(** *** The closures *)

(** The effect of running a due call: what was said, and the operation it belongs to. *)
Record ran (i : Z) (finished : bool) (s s' : SimulatorTransport) : Prop := {
  rn_config : config s' = config s;
  rn_closed : sim_closed s' = sim_closed s;
  rn_clock : clock s' = clock s;
  rn_crc : _crc_enabled (sim_state s') = _crc_enabled (sim_state s);
  rn_active : _active_id (sim_state s') = if finished then None else Some i;
  rn_items : exists items, spoke (_crc_enabled (sim_state s)) items s s' /\ (length items <= 3)%nat
    /\ count_ends i items = if finished then 1%nat else 0%nat;
}.

Lemma wp_event_idle body Q s : sim_ok s -> announces body -> slen body <= 52 ->
  (forall e s', says (VEvent e) (count_event s) s' -> sim_ok s' -> Q s' (Ok tt)) -> wp (_emit_event body) Q s.
Proof.
  intros Hs Ha Hl HQ. apply wp_event; [apply Hs|done..|]. intros e s' Hsay. eapply HQ; [done|].
  by eapply sim_ok_says, sim_ok_count.
Qed.

(** The operation is over: the state is well formed without it. *)
Lemma sim_ok_over i machine s : begun i s -> _scheduled (clock s) = [] -> machine ∈ status_modes ->
  sim_ok (set_state (with_machine None machine "idle" (sim_state s)) s).
Proof.
  intros [? [] ? ? ? ?] Hk Hm. split; try done.
  - split; try done; simpl; [by intros E; destruct (so_crc0 E)|member].
  - unfold pending_ok. simpl. by case_match.
Qed.

Lemma ran_completed i t s : begun i s -> _scheduled (clock s) = [] -> 0 <= i <= 65535 -> speaks ("done:" +:+ t) -> slen ("done:" +:+ t) <= 52 ->
  wp (_complete_operation i ("done:" +:+ t)) (fun s' r => r = Ok tt /\ sim_ok s' /\ ran i true s s') s.
Proof.
  intros Hb Hk Hi Hsp Hl. unfold _complete_operation, upd. wp_steps. rewrite (bg_active _ _ Hb), bool_decide_true by done. cbn [negb].
  set (machine := if _both_axes_homed (sim_state s) then "running" else "recovering"). assert (machine ∈ status_modes) as Hm by (unfold machine; case_match; member).
  destruct (announces_state machine "idle" Hm) as [Han Hal]; [member|]. wp_steps. set (s1 := set_state _ s).
  assert (sim_ok s1) as Hs1 by (by apply (sim_ok_over i)).
  apply wp_event_idle; [done..|]. intros e s2 Hsay2 Hs2. wp_steps. apply wp_respond; [done..|]. intros r s3 Hr Hsay3.
  apply done_kind in Hr as [Ht Hid]. split; [done|]. split; [by eapply sim_ok_says|].
  destruct (says_parts _ _ _ Hsay2) as (_ & A1 & A2 & A3 & A4). destruct (says_parts _ _ _ Hsay3) as (_ & B1 & B2 & B3 & B4).
  split; [by rewrite B1, A1|by rewrite B3, A3|by rewrite B2, A2|by rewrite B4, A4|by rewrite B4, A4|].
  exists ([VEvent e] ++ [VResponse r]). split; [|split; [simpl; lia|]].
  - eapply spoke_app; [|by eapply spoke_says; [|rewrite A4]]. by apply (spoke_says _ _ _ _ Hsay2).
  - unfold count_ends. simpl. rewrite Ht, Hid, Z.eqb_refl. done.
Qed.

Lemma begun_state i x s : begun i s -> _active_id x = Some i -> (state_ok (config s) (now_ms (clock s)) (sim_state s) -> state_ok (config s) (now_ms (clock s)) x) ->
  begun i (set_state x s).
Proof. intros [] Ha Hx. split; try done. by apply Hx. Qed.

Lemma ran_state i b x s s' : _crc_enabled x = _crc_enabled (sim_state s) -> ran i b (set_state x s) s' -> ran i b s s'.
Proof. intros E []. simpl in *. split; try done; [congruence|by rewrite <- E]. Qed.

Lemma ran_fail i s : begun i s -> _scheduled (clock s) = [] -> 0 <= i <= 65535 ->
  wp (run_sim_call (CallFail i)) (fun s' r => r = Ok tt /\ sim_ok s' /\ ran i true s s') s.
Proof.
  intros Hb Hk Hi. unfold run_sim_call, fail, complete_sort, progress_sorter, complete_home, upd. wp_steps. rewrite (bg_active _ _ Hb), bool_decide_true by done. cbn [negb]. wp_steps.
  set (s1 := set_state _ s). assert (sim_ok s1) as Hs1.
  { pose proof (sim_ok_over i "recovering" s Hb Hk) as Ho. destruct Ho as [? [] ? ? ?]; [member|].
    split; try done. split; try done. by right. }
  apply wp_respond; [done|speak|bounded|]. intros r s2 Hr Hsay2. apply (error_kind i "3001:feed_overtravel") in Hr as [Ht Hid].
  pose proof (sim_ok_says _ _ _ Hsay2 Hs1) as [Hs2 _]. wp_steps.
  apply wp_event_idle; [done|announce|bounded|]. intros e3 s3 Hsay3 Hs3. wp_steps.
  apply wp_event_idle; [done|announce|bounded|]. intros e4 s4 Hsay4 Hs4. split; [done|]. split; [done|].
  destruct (says_parts _ _ _ Hsay2) as (_ & A1 & A2 & A3 & A4). destruct (says_parts _ _ _ Hsay3) as (_ & B1 & B2 & B3 & B4).
  destruct (says_parts _ _ _ Hsay4) as (_ & C1 & C2 & C3 & C4).
  apply (ran_state i true (sim_state s1) s); [done|]. change (set_state (sim_state s1) s) with s1.
  split; [exact (eq_trans C1 (eq_trans B1 A1))|exact (eq_trans C3 (eq_trans B3 A3))|exact (eq_trans C2 (eq_trans B2 A2))|by rewrite C4; simpl; rewrite B4; simpl; rewrite A4
         |by rewrite C4; simpl; rewrite B4; simpl; rewrite A4|].
  exists ([VResponse r] ++ [VEvent e3] ++ [VEvent e4]). split; [|split; [simpl; lia|]].
  - eapply spoke_app; [by eapply spoke_says; [exact Hsay2|]|]. eapply (spoke_app _ _ _ _ s3).
    + apply (spoke_says _ _ _ _ Hsay3). simpl. by rewrite A4.
    + apply (spoke_says _ _ _ _ Hsay4). simpl. rewrite B4. simpl. by rewrite A4.
  - unfold count_ends. simpl. by rewrite Ht, Hid, Z.eqb_refl.
Qed.

Lemma ran_last i c s : begun i s -> _scheduled (clock s) = [] -> finishes (slot_max (config s)) i c ->
  wp (run_sim_call c) (fun s' r => r = Ok tt /\ sim_ok s' /\ ran i true s s') s.
Proof.
  intros Hb Hk Hc. assert (0 <= i <= 65535) as Hi by apply (so_active _ _ _ (bg_state _ _ Hb) i), (bg_active _ _ Hb).
  destruct c as [j|j slot|j|j command]; simpl in Hc; [subst j; by apply ran_fail| |done|subst j].
  - destruct Hc as [-> Hslot]. unfold run_sim_call, fail, complete_sort, progress_sorter, complete_home, upd. wp_steps.
    eapply wp_conseq; [apply (ran_completed i ("slot=" +:+ str_of_Z slot)); [|done|done|exact (speaks_slot slot (proj1 Hslot))|]|].
    + apply begun_state; [done|apply Hb|]. intros []. by split.
    + rewrite slen_app. pose proof (bg_config _ _ Hb) as [_ _ _ Hmax]. pose proof (slen_num slot).
      change (slen "done:") with 5. rewrite slen_app. change (slen "slot=") with 5. lia.
    + intros s' r (-> & Hs' & Hr). split; [done|]. split; [done|]. by eapply ran_state; [|exact Hr].
  - unfold run_sim_call, fail, complete_sort, progress_sorter, complete_home, upd. wp_steps. set (s1 := set_state _ s).
    assert (begun i s1) as Hb1 by (apply begun_state; [done|apply Hb|]; intros []; by split).
    eapply wp_conseq; [apply (ran_completed i ("feed_homed=" +:+ int_of_bool (_feed_homed (sim_state s1)) +:+ " sort_homed=" +:+ int_of_bool (_sort_homed (sim_state s1)))); [done|done|done| |]|].
    + destruct (_feed_homed (sim_state s1)), (_sort_homed (sim_state s1)); speak.
    + destruct (_feed_homed (sim_state s1)), (_sort_homed (sim_state s1)); bounded.
    + intros s' r (-> & Hs' & Hr). split; [done|]. split; [done|]. by eapply ran_state; [|exact Hr].
Qed.

Lemma ran_progress i c s : begun i s -> _scheduled (clock s) = [c] -> finishes (slot_max (config s)) i (callback c) ->
  wp (run_sim_call (CallProgress i)) (fun s' r => r = Ok tt /\ sim_ok s' /\ ran i false s s') s.
Proof.
  intros Hb Hk Hc. assert (0 <= i <= 65535) as Hi by apply (so_active _ _ _ (bg_state _ _ Hb) i), (bg_active _ _ Hb).
  unfold run_sim_call, fail, complete_sort, progress_sorter, complete_home, upd. wp_steps. rewrite (bg_active _ _ Hb), bool_decide_true by done. cbn [negb]. wp_steps.
  set (s1 := set_state _ s). assert (begun i s1) as Hb1.
  { apply begun_state; [done|apply Hb|]. intros []. split; try done; simpl; [member|]. by rewrite (bg_active _ _ Hb). }
  apply wp_respond; [done|speak|bounded|]. intros r s2 Hr Hsay2. apply (progress_kind i "phase=sort_home") in Hr.
  destruct (begun_says i _ _ _ Hsay2 Hb1) as (Hb2 & _ & Hk2). wp_steps.
  apply wp_event; [apply Hb2|announce|bounded|]. intros e s3 Hsay3. destruct (begun_says i _ _ _ Hsay3 (begun_count _ _ Hb2)) as (Hb3 & _ & Hk3).
  destruct (says_parts _ _ _ Hsay2) as (_ & A1 & A2 & A3 & A4). destruct (says_parts _ _ _ Hsay3) as (_ & B1 & B2 & B3 & B4).
  split; [done|]. split.
  { apply (begun_scheduled i); [done|]. rewrite B1, B2. simpl. rewrite A1, A2. simpl. rewrite Hk. by constructor. }
  apply (ran_state i false (sim_state s1) s); [done|]. change (set_state (sim_state s1) s) with s1.
  split; [exact (eq_trans B1 A1)|exact (eq_trans B3 A3)|exact (eq_trans B2 A2)|by rewrite B4; simpl; rewrite A4|apply Hb3|].
  exists ([VResponse r] ++ [VEvent e]). split; [|split; [simpl; lia|]].
  - eapply spoke_app; [by eapply spoke_says; [exact Hsay2|]|]. apply (spoke_says _ _ _ _ Hsay3). simpl. by rewrite A4.
  - unfold count_ends. simpl. by rewrite Hr.
Qed.

(** *** Advancing *)

(** After [advance] to [target] every call that was due has run, and exactly one reply ended the operation if
    its completion was among them. *)
Record advanced (target : Z) (s s' : SimulatorTransport) : Prop := {
  ad_ok : sim_ok s';
  ad_config : config s' = config s;
  ad_closed : sim_closed s' = sim_closed s;
  ad_now : now_ms (clock s') = target;
  ad_late : Forall (fun c => target < due_ms c) (_scheduled (clock s'));
  ad_calls : forall c, c ∈ _scheduled (clock s') -> c ∈ _scheduled (clock s);
  ad_active : _active_id (sim_state s') = _active_id (sim_state s)
              \/ (_active_id (sim_state s') = None /\ sim_closed s = false);
  ad_items : exists items, spoke (_crc_enabled (sim_state s)) items s s'
    /\ (length items + 3 * length (_scheduled (clock s')) <= 3 * length (_scheduled (clock s)))%nat
    /\ forall i, _active_id (sim_state s) = Some i ->
         count_ends i items = if bool_decide (_active_id (sim_state s') = None) then 1%nat else 0%nat;
}.

(** Popping a due call leaves a state in which its operation is begun. *)
Lemma popped x rest s : sim_ok s -> _scheduled (clock s) = x :: rest ->
  exists i, begun i (set_clock (mkManualClock (due_ms x) (_sequence (clock s)) rest) s)
    /\ _active_id (sim_state s) = Some i /\ sim_closed s = false
    /\ ((rest = [] /\ finishes (slot_max (config s)) i (callback x))
        \/ exists c, rest = [c] /\ callback x = CallProgress i /\ finishes (slot_max (config s)) i (callback c)).
Proof.
  intros [Hc Hx [Hsort Hdue] Hp Hh] Hk. unfold pending_ok in Hp. rewrite Hk in *.
  destruct (sim_closed s) eqn:Hcl; [done|]. destruct (_active_id (sim_state s)) as [i|] eqn:Ha; [|done]. exists i.
  apply Forall_cons in Hdue as [Hd1 Hd2]. apply StronglySorted_inv in Hsort as [Hsort Hle]. split_and!; try done.
  - split; try done; simpl.
    + destruct Hx. split; try done. unfold now_ms in *. simpl. lia.
    + split; [done|]. simpl. apply Forall_forall. intros c Hin. unfold now_ms. simpl.
      eapply Forall_forall in Hd2, Hle; [|done..]. unfold now_ms in *. lia.
  - inversion Hp as [c Hf E|p c Hpr Hf E]; subst; [by left|]. right. by exists c.
Qed.

Lemma ran_call i (b : bool) target x rest s s2 s' : let s1 := set_clock (mkManualClock (due_ms x) (_sequence (clock s)) rest) s in
  _scheduled (clock s) = x :: rest -> _active_id (sim_state s) = Some i -> sim_closed s = false -> length rest = (if b then 0 else 1)%nat ->
  ran i b s1 s2 -> advanced target s2 s' -> (b = true -> _active_id (sim_state s') = None) -> advanced target s s'.
Proof.
  intros s1 Hk Ha Hc Hl [A1 A2 A3 A4 A5 (items & Hsp & Hlen & Hcount)] [B1 B2 B3 B4 B5 Bc B6 (more & Hsp2 & Hlen2 & Hcount2)] Hb. simpl in *.
  split; try done; try congruence.
  - intros c Hin. apply Bc in Hin. rewrite A3 in Hin. rewrite Hk. by right.
  - rewrite A5 in B6. destruct b; [right; split; [by apply Hb|done]|]. rewrite Ha. destruct B6 as [?|[? ?]]; [by left|by right].
  - exists (items ++ more). split; [|split].
    + eapply spoke_app; [exact Hsp|]. by rewrite <- A4.
    + rewrite length_app, Hk. simpl. rewrite A3 in Hlen2. simpl in Hlen2. lia.
    + intros j Hj. assert (j = i) as -> by congruence. unfold count_ends in *. rewrite List.filter_app, length_app, Hcount.
      destruct b; [|by apply Hcount2]. rewrite A3 in Hlen2. simpl in Hlen2. rewrite (Hb eq_refl), bool_decide_true by done.
      assert (length more = 0%nat) as ->%nil_length_inv by lia. done.
Qed.

Lemma advanced_idle target s : sim_ok s -> now_ms (clock s) <= target -> Forall (fun c => target < due_ms c) (_scheduled (clock s)) ->
  advanced target s (set_clock (set_now target (clock s)) s).
Proof.
  intros [Hc Hx [Hsort Hdue] Hp Hh] Ht Hl. split; try done.
  - split; try done; simpl.
    + destruct Hx. split; try done. unfold now_ms in *. simpl. lia.
    + split; [done|]. simpl. apply Forall_forall. intros c Hin. unfold now_ms in *. simpl.
      eapply Forall_forall in Hdue, Hl; [|done..]. simpl in *. lia.
  - by left.
  - exists []. split; [by apply spoke_nil|]. split; [simpl; lia|]. intros i Hi. simpl. by rewrite Hi.
Qed.

Lemma run_due_ok fuel target s : sim_ok s -> now_ms (clock s) <= target -> (length (_scheduled (clock s)) <= fuel)%nat ->
  wp (run_due fuel target) (fun s' r => r = Ok tt /\ advanced target s s') s.
Proof.
  revert s. induction fuel as [|fuel IH]; intros s Hs Ht Hf; cbn [run_due]; wp_step; wp_step; wp_step; unfold pop_due;
    destruct (_scheduled (clock s)) as [|x rest] eqn:Hk; try (simpl in Hf; lia);
    try (wp_step; split; [done|]; apply advanced_idle; [done|done|by rewrite Hk]).
  destruct (Z.leb_spec (due_ms x) target) as [Hdue|Hlate].
  2: { wp_step. split; [done|]. apply advanced_idle; [done|done|]. rewrite Hk. constructor; [done|].
       destruct Hs as [_ _ [Hsort _] _ _]. rewrite Hk in Hsort. apply StronglySorted_inv in Hsort as [_ Hle].
       eapply Forall_impl; [exact Hle|]. simpl. lia. }
  destruct (popped x rest s Hs Hk) as (i & Hb & Ha & Hc & Hcase). simpl in Hf. wp_step.
  set (s1 := set_clock (mkManualClock (due_ms x) (_sequence (clock s)) rest) s) in *.
  change (wp (run_sim_call (callback x) ≫= fun _ => run_due fuel target) (fun s' r => r = Ok tt /\ advanced target s s') s1).
  assert (exists b : bool, length rest = (if b then 0 else 1)%nat
    /\ wp (run_sim_call (callback x)) (fun s' r => r = Ok tt /\ sim_ok s' /\ ran i b s1 s') s1) as (b & Hl & Hcall).
  { destruct Hcase as [[-> Hfin]|(c & -> & -> & Hfin)]; [exists true|exists false]; (split; [done|]).
    - by apply ran_last.
    - by apply (ran_progress i c). }
  apply wp_bind. eapply wp_conseq; [exact Hcall|]. intros s2 r (-> & Hs2 & Hran). unfold bind_post.
  eapply wp_conseq; [apply IH; [done| |]|].
  - rewrite (rn_clock _ _ _ _ Hran). exact Hdue.
  - rewrite (rn_clock _ _ _ _ Hran). simpl. lia.
  - intros s' r [-> Had]. split; [done|]. eapply ran_call; [done..|exact Hran|done|]. intros ->.
    destruct (ad_active _ _ _ Had) as [->|[? _]]; [by rewrite (rn_active _ _ _ _ Hran)|done].
Qed.

Lemma advance_ok d s : 0 <= d -> sim_ok s -> wp (advance d) (fun s' r => r = Ok tt /\ advanced (now_ms (clock s) + d) s s') s.
Proof.
  intros Hd Hs. unfold advance. wp_steps. destruct (Z.ltb_spec d 0); [lia|]. apply run_due_ok; [done|lia|done].
Qed.
