(* ===== verification/SimulatorSafety.v ===== *)
(** * The simulator over any history, and the host's view of it

    Reachable states of the simulator, the end of every operation, and the
    round trip of a status from the simulator's state to the host's. *)
From S2P Require Import Prelude PyString Errors Crc Models Parsing Framing Client Simulator SimulatorSpec.

(** ** Reachable states *)

Inductive sim_action :=
| AWrite (data : string) | AAdvance (delta_ms : Z) | ATake (size : Z) | ADrain | AReset | AClose.

Definition sim_act (a : sim_action) (s : SimulatorTransport) : SimulatorTransport * result unit :=
  match a with
  | AWrite data => (_ ← sim_write data; mret tt) s
  | AAdvance d => advance d s
  | ATake size => (_ ← sim_take size; mret tt) s
  | ADrain => (_ ← drain_output; mret tt) s
  | AReset => sim_reset s
  | AClose => sim_close s
  end.

Definition sim_step (s s' : SimulatorTransport) : Prop := exists a, s' = (sim_act a s).1.

Lemma sim_ok_out d s : sim_ok s -> sim_ok (set_out d s).
Proof. by intros []. Qed.

Lemma sim_ok_fresh c k (s : SimulatorTransport) : config_ok (config s) -> config s = c -> _scheduled k = [] -> history_ok s ->
  sim_ok (set_state (reset_state (now_ms k)) (set_clock k s)).
Proof.
  intros Hc <- Hk Hh. split; try done.
  - destruct Hc. split; simpl; try done; try lia; first [member|by left].
  - unfold calls_ok. simpl. rewrite Hk. by split; constructor.
  - unfold pending_ok. simpl. rewrite Hk. by case_match.
Qed.

Definition cleared (s : SimulatorTransport) : SimulatorTransport :=
  set_out "" (set_in "" (set_transcript (_transcript s ++ [mkTranscriptEntry (now_ms (clock s)) SIM_RESET ""]) (set_resets (sim_resets s + 1) s))).

Lemma reset_said s : sim_closed s = false ->
  sim_reset s = (said "Ready" (set_state (reset_state (now_ms (clock s))) (set_clock (clock_clear (clock s)) (cleared s))), Ok tt).
Proof. intros Hc. unfold sim_reset, mbind, M_bind, getS. by rewrite Hc. Qed.

Lemma act_ok a s : sim_ok s -> sim_ok (sim_act a s).1 /\ fine (sim_act a s).2.
Proof.
  intros Hs. destruct a as [data|d|size| | |]; cbn [sim_act].
  - pose proof (safe_write data s Hs) as Hw. unfold wp in Hw. unfold mbind, M_bind.
    destruct (sim_write data s) as [s' [o|e|]]; by destruct Hw as [(? & _ & ?) _].
  - destruct (Z.leb_spec 0 d) as [Hd|Hd].
    + pose proof (advance_ok d s Hd Hs) as [-> Had]. split; [apply Had|done].
    + unfold advance, mbind, M_bind, getS. simpl. destruct (Z.ltb_spec d 0); [done|lia].
  - unfold sim_take, mbind, M_bind, getS, putS. simpl. destruct (_read_error (sim_state s)) as [e|] eqn:E; simpl.
    + split; [done|]. by apply (so_read _ _ _ (si_state _ Hs)).
    + split; [by apply sim_ok_out|done].
  - unfold drain_output, mbind, M_bind, getS, putS. simpl. split; [by apply sim_ok_out|done].
  - destruct (sim_closed s) eqn:Hc; [unfold sim_reset, mbind, M_bind, getS; simpl; by rewrite Hc|]. rewrite (reset_said s Hc). split; [|done].
    apply (sim_ok_said "Ready"); [left; member|]. apply (sim_ok_fresh (config s) (clock_clear (clock s))); try done; [by destruct Hs|].
    destruct Hs. intros Hne. simpl. apply Forall_app. split; [by apply si_history|]. by constructor.
  - unfold sim_close, clear_clock, mbind, M_bind, modifyS. simpl. split; [|done]. destruct Hs as [? ? [] ? ?].
    split; try done. by split; constructor.
Qed.

Lemma init_ok c draws : config_ok c -> sim_ok (SimulatorTransport_init c draws).
Proof.
  intros Hc. change (sim_ok (said "Ready" (set_state (reset_state 0) (set_clock ManualClock_init
    (mkSimulator c ManualClock_init draws "" "" [] false 0 (reset_state 0)))))).
  apply sim_ok_said; [left; member|].
  apply (sim_ok_fresh c ManualClock_init (mkSimulator c ManualClock_init draws "" "" [] false 0 (reset_state 0))); try done.
  intros _. constructor.
Qed.


Definition demo_nl : string := String (chr 10) "".
Definition sim_demo_v2 : SimulatorTransport := (sim_act (AWrite ("protocol:2" +:+ demo_nl)) (SimulatorTransport_init SimulatorConfig_default [7])).1.
Definition sim_demo : SimulatorTransport := (sim_act (AWrite ("@1 homeall" +:+ demo_nl)) sim_demo_v2).1.

Lemma sim_demo_reachable : rtc sim_step (SimulatorTransport_init SimulatorConfig_default [7]) sim_demo.
Proof.
  apply (rtc_l _ _ sim_demo_v2); [exists (AWrite ("protocol:2" +:+ demo_nl)); reflexivity|].
  apply rtc_once. exists (AWrite ("@1 homeall" +:+ demo_nl)). reflexivity.
Qed.


(** C36: every operation the simulator accepted ends. In any reachable open state with operation [i] in progress,
    advancing the clock by the configured duration plus jitter runs every scheduled call without an error,
    leaves the machine idle, and sends the host exactly one terminal response to request [i] among the frames it
    sends, all of which the host's parser reads. *)
Theorem simulator_operation_ends (c : SimulatorConfig) (draws : list Z) (s : SimulatorTransport) (i d : Z) :
  SimulatorConfig_make c = Ok c -> rtc sim_step (SimulatorTransport_init c draws) s ->
  sim_closed s = false -> _active_id (sim_state s) = Some i ->
  operation_duration_ms (config s) + operation_jitter_ms (config s) <= d ->
  let s' := (advance d s).1 in
  (advance d s).2 = Ok tt /\ _active_id (sim_state s') = None /\ _phase (sim_state s') = "idle" /\ _scheduled (clock s') = []
  /\ exists items, spoke (_crc_enabled (sim_state s)) items s s' /\ count_ends i items = 1%nat.
Proof.
  intros [_ Hc]%config_make_ok Hr Hcl Ha Hd s'. assert (sim_ok s) as Hs.
  { apply (rtc_invariant sim_step sim_ok (SimulatorTransport_init c draws)); [|done|by apply init_ok].
    intros x y Hx [a ->]. by apply act_ok. }
  destruct (si_config _ Hs) as [? ? _ _]. destruct (advance_ok d s ltac:(lia) Hs) as [Hok Had]. fold s' in Had.
  split; [done|]. assert (_scheduled (clock s') = []) as Hk.
  { destruct (_scheduled (clock s')) as [|x l] eqn:E; [done|exfalso]. pose proof (ad_late _ _ _ Had) as Hl. rewrite E in Hl.
    apply Forall_cons in Hl as [Hl _]. assert (x ∈ _scheduled (clock s)) as Hx by (apply (ad_calls _ _ _ Had); rewrite E; by left).
    pose proof (proj2 (si_calls _ Hs)) as Hb. eapply Forall_forall in Hb; [|exact Hx]. simpl in Hb. lia. }
  assert (_active_id (sim_state s') = None) as Ha'.
  { pose proof (si_pending _ (ad_ok _ _ _ Had)) as Hp. unfold pending_ok in Hp. rewrite (ad_closed _ _ _ Had), Hcl, Hk in Hp.
    destruct (_active_id (sim_state s')); [inversion Hp|done]. }
  split; [done|]. split; [by apply (so_idle _ _ _ (si_state _ (ad_ok _ _ _ Had)))|]. split; [done|].
  destruct (ad_items _ _ _ Had) as (items & Hsp & _ & Hcount). exists items. split; [done|]. rewrite (Hcount i Ha), Ha'. done.
Qed.

Lemma simulator_operation_ends_witness :
  let s' := (advance 25 sim_demo).1 in
  (advance 25 sim_demo).2 = Ok tt /\ _active_id (sim_state s') = None /\ _phase (sim_state s') = "idle" /\ _scheduled (clock s') = []
  /\ exists items, spoke (_crc_enabled (sim_state sim_demo)) items sim_demo s' /\ count_ends 1 items = 1%nat.
Proof.
  apply (simulator_operation_ends SimulatorConfig_default [7] sim_demo 1 25);
    [reflexivity|apply sim_demo_reachable|vm_compute; reflexivity|vm_compute; reflexivity|vm_compute; discriminate].
Defined.

(** ** A request from the host's formatter to the command table *)

Lemma format_request_strip id command crc line : format_request id command crc = Ok line -> command = str_strip command.
Proof.
  unfold format_request. destruct (negb _); [done|]. destruct (_ || _ || _ || _) eqn:Hc; [done|]. bool_inv. done.
Qed.

Lemma match_request_render id command : 0 <= id -> command <> "" -> str_forall is_printable command = true ->
  match_request ("@" +:+ str_of_Z id +:+ String space command) = Some (Some (str_of_Z id), command).
Proof.
  intros Hid Hne Hp. unfold match_request. rewrite bool_decide_false by done.
  rewrite printable_no_newline by (rewrite !str_forall_app, printable_str_of_Z by done; done). simpl orb. cbv iota.
  change ("@" +:+ str_of_Z id +:+ String space command) with (String "@" (str_of_Z id +:+ String space command)). cbv iota.
  rewrite str_span_app by (done || by apply digits_str_of_Z).
  rewrite bool_decide_false by (by apply str_of_Z_nonempty). by rewrite bool_decide_false.
Qed.

Lemma v2_request id command line s : format_request id command (_crc_enabled (sim_state s)) = Ok line ->
  _active_id (sim_state s) <> Some id -> command <> "stop" ->
  _handle_v2 line s =
    (injected ← _inject_adverse_scenario id command;
     if injected : bool then mret tt
     else match _active_id (sim_state s) with
          | Some a => if state_changing command then _respond id ("error:2001:busy active_id=" +:+ str_of_Z a) else _dispatch_command id command
          | None => _dispatch_command id command
          end) s.
Proof.
  intros Hf Ha Hstop. pose proof (format_request_strip _ _ _ _ Hf) as Hstrip. apply format_request_inv in Hf as (Hid & Hne & Hp & _ & Hw & Hl).
  unfold _handle_v2, mbind at 1, M_bind at 1, getS at 1. rewrite (proj2 (Z.ltb_ge _ _) Hl), (on_wire_verify _ _ _ Hw), match_request_render by (done || lia).
  change (default "0" (Some (str_of_Z id))) with (str_of_Z id). rewrite int_of_str by lia. cbv zeta.
  rewrite (proj2 (Z.ltb_ge _ _)) by lia. rewrite (proj2 (Z.eqb_neq id 0)) by lia. rewrite andb_false_r. cbn [orb].
  rewrite bool_decide_true by done. rewrite Hp. cbn [negb orb andb]. rewrite bool_decide_false by done. by rewrite bool_decide_false.
Qed.

(** ** The status query *)

(** The host's record of the simulator's state. *)
Definition sim_status (x : SimState) : Status :=
  mkStatus (_machine_mode x) (_phase x) (_feed_homed x) (_sort_homed x) false (_active_id x) (_fault_code x)
    (_queue_previous x) (_queue_next x) (_config_generation x) ∅.

Lemma sim_status_wf c now x : state_ok c now x -> status_wf (sim_status x).
Proof.
  intros []. split; simpl; try done; try lia.
  - clear - so_phase. repeat (apply elem_of_cons in so_phase as [->|so_phase]; [member|]). by apply elem_of_nil in so_phase.
  - destruct (_active_id x) as [a|]; [by apply so_active|done].
Qed.

Definition data_items (id : Z) (kvs : list (list (string * string))) : list Response :=
  (fun kv => mkResponse id DATA (list_to_map kv) None None) <$> kvs.
Definition done_item (id : Z) : Response := mkResponse id DONE ∅ None None.

Lemma status_merge id x : merge_fields (data_items id (status_fields x) ++ [done_item id]) = status_to_fields (sim_status x).
Proof. vm_compute. reflexivity. Qed.

Lemma wp_lines id lines kvs Q s : 0 <= id <= 65535 -> Forall2 data_speaks lines kvs ->
  Forall (fun l => slen ("data:" +:+ l) + (if _crc_enabled (sim_state s) then 5 else 0) <= 57) lines ->
  (forall s', sim_state s' = sim_state s -> _incoming s' = _incoming s ->
     spoke (_crc_enabled (sim_state s)) (VResponse <$> data_items id kvs) s s' -> Q s' (Ok tt)) ->
  wp (respond_lines id lines) Q s.
Proof.
  intros Hid Hl. revert Q s. induction Hl as [|l kv lines kvs Hsp _ IH]; intros Q s Hf HQ; cbn [respond_lines].
  { wp_step. apply HQ; [done|done|]. by apply spoke_nil. }
  apply Forall_cons in Hf as [Hf1 Hf2]. wp_step. apply wp_respond_fit; [done|by eapply data_speaks_body|done|].
  intros r s1 Hr Hsay. rewrite (data_response l kv id Hsp) in Hr. injection Hr as <-.
  pose proof (says_parts _ _ _ Hsay) as (_ & _ & _ & _ & E). unfold bind_post. apply IH; [by rewrite E|].
  intros s2 E2 Ein Hsp2. apply HQ; [by rewrite E2| |].
  - rewrite Ein. by destruct Hsay as (line & -> & _).
  - rewrite E in Hsp2. change (VResponse <$> data_items id (kv :: kvs)) with ([VResponse (mkResponse id DATA (list_to_map kv) None None)] ++ (VResponse <$> data_items id kvs)).
    eapply spoke_app; [by eapply spoke_says|done].
Qed.

Lemma wp_data id lines kvs Q s : 0 <= id <= 65535 -> Forall2 data_speaks lines kvs ->
  Forall (fun l => slen ("data:" +:+ l) + (if _crc_enabled (sim_state s) then 5 else 0) <= 57) lines ->
  (forall s', sim_state s' = sim_state s -> _incoming s' = _incoming s ->
     spoke (_crc_enabled (sim_state s)) (VResponse <$> (data_items id kvs ++ [done_item id])) s s' -> Q s' (Ok tt)) ->
  wp (_respond_data id lines) Q s.
Proof.
  intros Hid Hl Hf HQ. unfold _respond_data. wp_step. eapply wp_lines; [done..|]. intros s1 E1 Ein1 Hsp. unfold bind_post.
  apply wp_respond; [done|speak|bounded|]. intros r s2 Hr Hsay. injection Hr as <-.
  pose proof (says_parts _ _ _ Hsay) as (_ & _ & _ & _ & E). apply HQ; [by rewrite E| |].
  - rewrite <- Ein1. by destruct Hsay as (line & -> & _).
  - rewrite fmap_app. eapply spoke_app; [done|]. apply (spoke_says _ _ _ _ Hsay). by rewrite E1.
Qed.

(** A status frame with CRC and a five-digit identifier has room for eight digits of numbers. *)
Definition status_fits (x : SimState) : Prop :=
  _crc_enabled x = false \/ _fault_code x = 0 \/ (_queue_previous x < 100 /\ _queue_next x < 100).

Lemma status_lines_fit c now x : config_ok c -> state_ok c now x -> status_fits x ->
  Forall (fun l => slen ("data:" +:+ l) + (if _crc_enabled x then 5 else 0) <= 57) (_status_lines x).
Proof.
  intros [] [] Hfit. unfold _status_lines. repeat constructor.
  - assert (slen (_machine_mode x) <= 10) as Hm.
    { clear - so_machine. repeat (apply elem_of_cons in so_machine as [->|so_machine]; [bounded|]). by apply elem_of_nil in so_machine. }
    assert (slen (_phase x) <= 9) as Hp.
    { clear - so_phase. repeat (apply elem_of_cons in so_phase as [->|so_phase]; [bounded|]). by apply elem_of_nil in so_phase. }
    rewrite !slen_app. assert (slen (int_of_bool (_feed_homed x)) = 1) by (by destruct (_feed_homed x)).
    change (slen "data:") with 5. change (slen "mode=") with 5. change (slen " phase=") with 7. change (slen " feed_homed=") with 12.
    destruct (_crc_enabled x); lia.
  - rewrite !slen_app. assert (slen (int_of_bool (_sort_homed x)) = 1) by (by destruct (_sort_homed x)).
    assert (slen (match _active_id x with None => "none" | Some a => str_of_Z a end) <= 5).
    { destruct (_active_id x) as [a|]; [apply slen_num; by apply so_active|bounded]. }
    change (slen "data:") with 5. change (slen "sort_homed=") with 11. change (slen " motor_enabled=0 active_id=") with 27.
    destruct (_crc_enabled x); lia.
  - rewrite !slen_app. change (slen "data:") with 5. change (slen "fault_code=") with 11. change (slen " queue_previous=") with 16. change (slen " queue_next=") with 12.
    assert (forall n, 0 <= n <= slot_max c -> slen (str_of_Z n) <= 3 /\ (n < 100 -> slen (str_of_Z n) <= 2)) as Hn.
    { intros n Hn. split; [|intros]; apply slen_str_of_Z; lia. }
    pose proof (Hn _ so_previous) as [? Hp2]. pose proof (Hn _ so_next) as [? Hn2].
    destruct so_fault as [E|E]; rewrite E; [change (slen (str_of_Z 0)) with 1; destruct (_crc_enabled x); lia|].
    change (slen (str_of_Z 3001)) with 4. destruct Hfit as [->|[?|[? ?]]]; [lia|lia|].
    specialize (Hp2 ltac:(done)). specialize (Hn2 ltac:(done)). destruct (_crc_enabled x); lia.
  - rewrite so_generation, !slen_app. change (slen "data:") with 5. change (slen "config_generation=") with 18. change (slen (str_of_Z 0)) with 1.
    destruct (_crc_enabled x); lia.
Qed.

(** *** From the bytes the host writes *)

Definition received (data : string) (s : SimulatorTransport) : SimulatorTransport :=
  set_in "" (set_transcript (_transcript s ++ [mkTranscriptEntry (now_ms (clock s)) HOST_TO_SIMULATOR data]) s).

Lemma chomp_printable line : str_forall is_printable line = true -> chomp_cr line = line.
Proof.
  intros Hp. unfold chomp_cr. destruct (str_last line) as [c|] eqn:E; [|done]. pose proof (str_last_forall _ _ _ E Hp) as Hc.
  destruct (Ascii.eqb_spec c (chr 13)) as [->|]; [done|done].
Qed.

(** One whole line reaches its handler, and nothing else happens. *)
Lemma write_line line s Q : sim_closed s = false -> _incoming s = "" -> str_forall is_printable line = true ->
  wp (_handle_line line) (fun s' r => r = Ok tt /\ _incoming s' = "" /\ Q s') (received (line +:+ String (chr 10) "") s) ->
  wp (sim_write (line +:+ String (chr 10) "")) (fun s' r => r = Ok (Some (slen line + 1)) /\ Q s') s.
Proof.
  intros Hc Hin Hp Hh. unfold sim_write. wp_steps. rewrite Hc. unfold _record. wp_steps.
  change (_incoming (set_transcript ?l s)) with (_incoming s). rewrite Hin.
  change ("" +:+ (line +:+ String (chr 10) "")) with (line +:+ String (chr 10) "").
  assert (str_partition (chr 10) (line +:+ String (chr 10) "") = Some (line, "")) as Hpart
    by (apply str_partition_spec; split; [done|by apply printable_no_newline]).
  destruct (String.length (line +:+ String (chr 10) "")) as [|n] eqn:Hn; [rewrite str_length_app in Hn; simpl in Hn; lia|].
  cbn [_incoming set_in set_transcript]. rewrite Hn. cbn [handle_lines]. wp_steps. cbn [_incoming set_in set_transcript]. rewrite Hpart. wp_steps. rewrite chomp_printable by done.
  eapply wp_conseq; [exact Hh|]. intros s' r (-> & Hin' & HQ). wp_steps. destruct n; cbn [handle_lines]; wp_steps; rewrite Hin'; simpl; wp_steps;
    (split; [|done]); rewrite slen_app; done.
Qed.

(** What the host reads as the controller's status is the simulator's state. When the host's own formatter
    encodes a status request and its line is written to a well-formed simulator in v2 mode that has no other
    operation under that identifier, the lines written back are parsed by the host, in the CRC mode in force, as
    data responses and one terminal of that identifier, and the host's status parser turns their merged fields
    into exactly the simulator's mode, phase, homing, active operation, fault, queue and generation; the state
    does not change. The condition is the one under which the longest line fits its frame. *)
Theorem simulator_status_exact (id : Z) (line : string) (s : SimulatorTransport) :
  sim_ok s -> sim_closed s = false -> _mode (sim_state s) = SimV2 -> _incoming s = "" -> _active_id (sim_state s) <> Some id ->
  status_fits (sim_state s) -> format_request id "status" (_crc_enabled (sim_state s)) = Ok line ->
  exists s' rs, sim_write (line +:+ String (chr 10) "") s = (s', Ok (Some (slen line + 1)))
    /\ sim_state s' = sim_state s
    /\ spoke (_crc_enabled (sim_state s)) (VResponse <$> rs) s s'
    /\ Forall (fun r => request_id r = id) rs /\ length (filter (fun r => terminal r = true) rs) = 1%nat
    /\ Status_from_fields (merge_fields rs) = Ok (sim_status (sim_state s)).
Proof.
  intros Hs Hc Hm Hin Ha Hfit Hf. pose proof (format_request_inv _ _ _ _ Hf) as (Hid & _ & _ & _ & Hw & _).
  assert (str_forall is_printable line = true) as Hp.
  { eapply on_wire_printable; [exact Hw|]. rewrite !str_forall_app, printable_str_of_Z by lia. done. }
  set (rs := data_items id (status_fields (sim_state s)) ++ [done_item id]).
  set (s1 := received (line +:+ String (chr 10) "") s).
  assert (wp (_handle_line line) (fun s' r => r = Ok tt /\ _incoming s' = "" /\ sim_state s' = sim_state s
    /\ spoke (_crc_enabled (sim_state s)) (VResponse <$> rs) s1 s') s1) as Hh.
  { unfold _handle_line. rewrite bool_decide_false.
    2: { intros ->. destruct (on_wire_prefix _ "@" _ _ Hw) as [t Et]. done. }
    wp_steps. unfold encode_ascii. rewrite (printable_ascii _ Hp). change (sim_state s1) with (sim_state s). rewrite Hm.
    unfold wp. rewrite (v2_request id "status" line s1 Hf Ha) by done.
    assert (_inject_adverse_scenario id "status" s1 = (s1, Ok false)) as Hinj.
    { unfold _inject_adverse_scenario, mbind, M_bind, getS. by destruct (scenario_of _) as [[]|]. }
    unfold mbind, M_bind. rewrite Hinj. change (state_changing "status") with false. cbv iota.
    assert (forall m : TM unit, match _active_id (sim_state s1) with Some _ => m | None => m end = m) as -> by (intros; by destruct (_active_id _)).
    apply (wp_data id (_status_lines (sim_state s)) (status_fields (sim_state s))
      (fun s' r => r = Ok tt /\ _incoming s' = "" /\ sim_state s' = sim_state s /\ spoke (_crc_enabled (sim_state s)) (VResponse <$> rs) s1 s') s1); [lia| |exact (status_lines_fit _ _ _ (si_config _ Hs) (si_state _ Hs) Hfit)|].
    - pose proof (si_state _ Hs) as []. apply status_lines_speak; try done; try lia. intros i Hi. by apply so_active.
    - intros s' E Ein Hsp. split; [done|]. split; [done|]. split; [done|exact Hsp]. }
  pose proof (write_line line s (fun s' => sim_state s' = sim_state s /\ spoke (_crc_enabled (sim_state s)) (VResponse <$> rs) s1 s') Hc Hin Hp Hh) as (Ew & E & Hsp).
  exists (sim_write (line +:+ String (chr 10) "") s).1, rs. split; [by destruct (sim_write _ s); simpl in *; subst|].
  split; [done|]. split; [exact Hsp|]. split; [|split].
  - apply Forall_app. split; [|by repeat constructor]. by repeat constructor.
  - unfold rs, data_items, status_fields. simpl. done.
  - unfold rs. rewrite status_merge. eapply status_print_parse, sim_status_wf, (si_state _ Hs).
Qed.

Lemma sim_demo_ok : sim_ok sim_demo.
Proof.
  apply (rtc_invariant sim_step sim_ok (SimulatorTransport_init SimulatorConfig_default [7])); [|apply sim_demo_reachable|by apply init_ok].
  intros x y Hx [a ->]. by apply act_ok.
Qed.

Lemma simulator_status_exact_witness :
  exists s' rs, sim_write ("@2 status" +:+ String (chr 10) "") sim_demo = (s', Ok (Some (slen "@2 status" + 1)))
    /\ sim_state s' = sim_state sim_demo
    /\ spoke (_crc_enabled (sim_state sim_demo)) (VResponse <$> rs) sim_demo s'
    /\ Forall (fun r => request_id r = 2) rs /\ length (filter (fun r => terminal r = true) rs) = 1%nat
    /\ Status_from_fields (merge_fields rs) = Ok (sim_status (sim_state sim_demo)).
Proof.
  apply (simulator_status_exact 2 "@2 status" sim_demo);
    [apply sim_demo_ok|vm_compute; reflexivity|vm_compute; reflexivity|vm_compute; reflexivity|vm_compute; discriminate|left; vm_compute; reflexivity|vm_compute; reflexivity].
Defined.

(** The condition is needed: with CRC on, a latched fault and a three-digit slot in the queue, a status request
    with a four-digit identifier makes the simulator raise instead of answering. *)
Definition sim_faulted : SimulatorTransport :=
  let write l s := (sim_write (l +:+ String (chr 10) "") s).1 in
  let wait s := (advance 30 s).1 in
  write "@4 crc:on" (wait (write "@3 sortto:3" (wait (write "@2 sortto:102" (wait (write "@1 homeall" (write "protocol:2"
    (SimulatorTransport_init (mkSimulatorConfig "fault-feed-overtravel" 0 true true 25 0 8 102) [])))))))).

Example status_frame_overflows :
  match format_request 1000 "status" true with
  | Ok line => exists e, (sim_write (line +:+ String (chr 10) "") sim_faulted).2 = Err e /\ exn_cls e = Builtin RuntimeError
  | _ => False
  end.
Proof. vm_compute. by eexists. Qed.
