(* ===== verification/SimulatorHost.v ===== *)
(** * The simulator as the host's byte stream

    The simulator, with other threads advancing its clock while the host waits,
    keeps every promise of the [ByteStream] interface; so the protocol client's
    and the serial worker's theorems hold over it. *)
From S2P Require Import Prelude PyString Errors Crc Models Parsing Tracking Framing Transport Client ClientSpec Simulator SimulatorSpec SimulatorSafety.

#[export] Instance sim_stream : ByteStream SimWorld := {
  bs_read := sim_read;
  bs_write data := on_sim (sim_write data);
  bs_reset := Some (on_sim sim_reset);
  bs_monotonic w := (w, sw_now w);
  bs_sleep d w := wait_go false (sw_ticks w) d (sw_now w) (sw_sim w);
  bs_clock := sw_now;
  bs_pending w := (String.length (_outgoing (sw_sim w)) + 195 * length (_scheduled (clock (sw_sim w))))%nat;
}.

(** ** The interface's promises, from a well-formed simulator *)

Definition pending (s : SimulatorTransport) : nat := (String.length (_outgoing s) + 195 * length (_scheduled (clock s)))%nat.

(** An advance by another thread turns scheduled calls into at most three frames each. *)
Lemma advance_pending ms s : sim_ok s -> sim_ok (advance ms s).1 /\ (pending (advance ms s).1 <= pending s)%nat.
Proof.
  intros Hs. destruct (Z.leb_spec 0 ms) as [Hd|Hd].
  - destruct (advance_ok ms s Hd Hs) as [_ Had]. split; [apply Had|].
    destruct (ad_items _ _ _ Had) as (items & (lines & Hl & E) & Hlen & _). unfold pending. rewrite E, str_length_app.
    pose proof (wire_length _ _ _ Hl). lia.
  - unfold advance, mbind, M_bind, getS. simpl. destruct (Z.ltb_spec ms 0); [|lia]. done.
Qed.

Lemma wait_ok wake ticks remaining now s : sim_ok s ->
  let w := wait_go wake ticks remaining now s in
  sim_ok (sw_sim w) /\ (pending (sw_sim w) <= pending s)%nat /\ now <= sw_now w /\ (wake = false -> now + remaining <= sw_now w).
Proof.
  revert remaining now s. induction ticks as [|[ms us] ticks IH]; intros remaining now s Hs; cbn [wait_go].
  { simpl. split_and!; [done|lia|lia|lia]. }
  destruct (Z.leb_spec remaining (Z.max 0 us)); [simpl; split_and!; [done|lia|lia|lia]|].
  destruct (advance_pending ms s Hs) as [Hs' Hp]. cbv zeta. destruct (wake && _) eqn:Hw.
  - simpl. split_and!; [done|done|lia|]. intros ->. done.
  - destruct (IH (remaining - Z.max 0 us) (now + Z.max 0 us) _ Hs') as (? & ? & ? & Hr). split_and!; [done|lia|lia|].
    intros E. specialize (Hr E). lia.
Qed.

Definition world_ok (w : SimWorld) : Prop := sim_ok (sw_sim w).

Lemma take_ok n s : 0 <= n -> sim_ok s ->
  sim_ok (sim_take n s).1 /\
  match (sim_take n s).2 with
  | Ok d => (pending (sim_take n s).1 + String.length d <= pending s)%nat /\ slen d <= n
  | Err e => (pending (sim_take n s).1 <= pending s)%nat /\ os_error e = true
  | OutOfFuel => False
  end.
Proof.
  intros Hn Hs. unfold sim_take, mbind, M_bind, getS, putS. simpl. destruct (_read_error (sim_state s)) as [e|] eqn:E; simpl.
  - split; [done|]. split; [done|]. by apply (so_read _ _ _ (si_state _ Hs)).
  - split; [by apply sim_ok_out|]. fold (str_take (Z.to_nat n) (_outgoing s)). split.
    + unfold pending. simpl. pose proof (f_equal String.length (str_take_drop (Z.to_nat n) (_outgoing s))) as El.
      rewrite str_length_app in El. lia.
    + etrans; [apply slen_take|]. lia.
Qed.

Lemma read_ok n o w : world_ok w ->
  world_ok (sim_read n o w).1 /\ sw_now w <= sw_now (sim_read n o w).1 /\
  (0 <= n -> match (sim_read n o w).2 with
             | Ok d => (pending (sw_sim (sim_read n o w).1) + String.length d <= pending (sw_sim w))%nat /\ slen d <= n
             | Err e => (pending (sw_sim (sim_read n o w).1) <= pending (sw_sim w))%nat /\ os_error e = true
             | OutOfFuel => False
             end).
Proof.
  intros Hw. unfold sim_read. destruct (Z.ltb_spec n 1) as [Hn1|Hn1]; [simpl; split; [done|]; split; [lia|]; intros; split; [lia|done]|].
  destruct (_read_error (sim_state (sw_sim w))) as [e|] eqn:He.
  { simpl. split; [done|]. split; [lia|]. intros _. split; [lia|]. by apply (so_read _ _ _ (si_state _ Hw)). }
  cbv zeta. set (w1 := match o with Some t => _ | None => w end).
  assert (sim_ok (sw_sim w1) /\ (pending (sw_sim w1) <= pending (sw_sim w))%nat /\ sw_now w <= sw_now w1) as (H1 & H2 & H3).
  { unfold w1. destruct o as [t|]; [|split_and!; [done|lia|lia]]. destruct (_ && _); [|split_and!; [done|lia|lia]].
    destruct (wait_ok true (sw_ticks w) t (sw_now w) (sw_sim w) Hw) as (? & ? & ? & _). by split_and!. }
  clearbody w1. destruct (take_ok n (sw_sim w1) ltac:(lia) H1) as [Hs' Hr]. cbn [fst snd sw_sim sw_now].
  split; [done|]. split; [done|]. intros _. destruct (sim_take n (sw_sim w1)).2; [|destruct Hr; split; [lia|done]|done].
  destruct Hr. split; [lia|done].
Qed.

Lemma write_ok data w : world_ok w ->
  world_ok (on_sim (sim_write data) w).1 /\
  match (on_sim (sim_write data) w).2 with Ok _ => True | Err e => os_error e = true | OutOfFuel => False end.
Proof.
  intros Hw. pose proof (safe_write data (sw_sim w) Hw) as H. unfold wp in H. unfold on_sim, world_ok. simpl.
  destruct (sim_write data (sw_sim w)) as [s' r]. destruct H as ((? & _ & Hf) & _). split; [done|]. by destruct r.
Qed.

Lemma reset_ok w : world_ok w -> world_ok (on_sim sim_reset w).1 /\ halts (on_sim sim_reset w).2.
Proof. intros Hw. destruct (act_ok AReset (sw_sim w) Hw) as [Hs Hf]. split; [done|]. cbn [sim_act] in Hf. unfold on_sim, halts. simpl. by intros E; rewrite E in Hf. Qed.

Lemma close_ok w : world_ok w -> world_ok (on_sim sim_close w).1 /\ halts (on_sim sim_close w).2.
Proof. intros Hw. destruct (act_ok AClose (sw_sim w) Hw) as [Hs Hf]. split; [done|]. done. Qed.

(** ** The well-formed simulator as a type *)

Definition SimHost : Type := { w : SimWorld | world_ok w }.

Definition restrict {A} (m : M SimWorld exn A) (Hm : forall w, world_ok w -> world_ok (m w).1) : M SimHost exn A :=
  fun x => (exist _ (m (proj1_sig x)).1 (Hm _ (proj2_sig x)), (m (proj1_sig x)).2).

#[export] Instance host_stream : ByteStream SimHost := {
  bs_read n o := restrict (bs_read n o) (fun w Hw => proj1 (read_ok n o w Hw));
  bs_write data := restrict (bs_write data) (fun w Hw => proj1 (write_ok data w Hw));
  bs_reset := Some (restrict (on_sim sim_reset) (fun w Hw => proj1 (reset_ok w Hw)));
  bs_monotonic x := (x, sw_now (proj1_sig x));
  bs_sleep d x := exist _ (bs_sleep d (proj1_sig x)) (proj1 (wait_ok false _ d _ _ (proj2_sig x)));
  bs_clock x := sw_now (proj1_sig x);
  bs_pending x := bs_pending (proj1_sig x);
}.

#[export] Instance host_laws : ByteStreamLaws SimHost.
Proof.
  split; simpl; try done; try (intros; lia).
  - intros d [w Hw]. by apply (wait_ok false).
  - intros d [w Hw]. by apply (wait_ok false).
  - intros n o [w Hw]. by apply read_ok.
  - intros n o [w Hw] Hn. by apply read_ok.
  - intros data [w Hw]. by apply write_ok.
Qed.

(** ** Whole sessions: the protocol client on the simulator *)

Definition sim_client_config : ClientConfig SimWorld := mkClientConfig 1000000 (Some (on_sim sim_reset)) None None.

(** Every 5 ms of waiting the simulated clock advances by 5 ms. *)
Definition sim_world (scenario : string) : SimWorld :=
  mkSimWorld (SimulatorTransport_init (mkSimulatorConfig scenario 0 true true 25 0 8 102) []) 0 (replicate 400 (5, 5000)).

Definition sim_client (scenario : string) : ProtocolClient SimWorld :=
  mkClient (sim_world scenario) LineReader_init V1 false RequestTracker_init EventTracker_init None.

Abbreviation CM := (M (ProtocolClient SimWorld) exn).

(** Activate v2, turn CRC on, home both axes, sort, and ask for the status. *)
Definition opening : CM unit :=
  _ ← wait_ready sim_client_config;
  _ ← activate sim_client_config;
  _ ← enable_crc sim_client_config None;
  _ ← simple_request sim_client_config "homeall" None;
  mret tt.
Definition sorting : CM (Completion * Status) :=
  _ ← opening;
  k ← simple_request sim_client_config "sortto:3" None;
  st ← get_status sim_client_config None;
  mret (k, st).

(** The happy session: the sort is done and the status is the simulator's. *)
Example simulated_session :
  let p := sorting (sim_client "happy-v2") in
  match p.2 with
  | Ok (k, st) => succeeded k = true /\ terminal_fields k = Ok {["slot" := "3"]}
                  /\ st = sim_status (sim_state (sw_sim (transport p.1)))
                  /\ queue_previous st = 3 /\ feed_homed st = true /\ cl_mode p.1 = V2 /\ crc_enabled p.1 = true
  | _ => False
  end.
Proof. vm_compute. done. Qed.

(** What the host makes of each adverse scenario of a sort: a lost connection, a garbled frame, an answer under
    another identifier and silence all end in a recovery to v1 that the simulator followed; a fault is reported
    with its code on a session that stays up. *)
Definition recovers (scenario : string) : bool :=
  let p := sorting (sim_client scenario) in
  match p.2 with
  | Err e => bool_decide (exn_cls e = Protocol RecoveryError) && exn_recovered e && bool_decide (cl_mode p.1 = V1)
             && match _mode (sim_state (sw_sim (transport p.1))) with SimV1 => true | SimV2 => false end
  | _ => false
  end.

Example adverse_scenarios :
  forallb recovers ["disconnect-on-sort"; "malformed-on-sort"; "terminal-mismatch-on-sort"; "timeout-on-sort"] = true
  /\ match (sorting (sim_client "fault-feed-overtravel")).2 with
     | Ok (k, st) => succeeded k = false /\ f_code <$> c_error k = Some 3001 /\ fault_code st = 3001 /\ feed_homed st = false
     | _ => False
     end.
Proof. split; vm_compute; done. Qed.

(** A gap in the event sequence is noticed, and the request it surrounds still completes. *)
Example event_gap_resynchronises :
  let p := (_ ← opening; simple_request sim_client_config "ping" None) (sim_client "event-gap-on-ping") in
  match p.2 with Ok k => succeeded k = true /\ resync_required (Client.events p.1) = true | _ => False end.
Proof. vm_compute. done. Qed.
